(* ===== verification/_CoqProject ===== *)
-Q . S2P
Prelude.v
Errors.v
Sdk.v
RefSdk.v
KVStore.v
Epochs.v
Shares.v
DelegationTypes.v
Assets.v
AssetsGenesis.v
Ledger.v
DelegationStore.v
UndelegationStore.v
DelegationInv.v
Delegation.v
DelegationEndBlock.v
DelegationRuns.v
DelegationSafety.v
DelegationSteps.v
DelegationLiveness.v
DelegationNST.v
DelegationGenesis.v
DelegationProps.v
DelegationSample.v
Immint.v
OperatorTypes.v
OperatorStore.v
OperatorRegistry.v
OperatorSnapshot.v
OperatorKeepers.v
OperatorUnbonding.v
OperatorUSD.v
OperatorVotingPower.v
OperatorKeys.v
OperatorOpt.v
OperatorSlash.v
OperatorSlashSafety.v
OperatorSlashProps.v
OperatorSystem.v
OperatorSample.v
OperatorGenesis.v
ChainUtils.v
DogfoodTypes.v
DogfoodStore.v
DogfoodKeepers.v
DogfoodHooks.v
DogfoodEndBlock.v
DogfoodValidators.v
DogfoodQueues.v
DogfoodBlocks.v
DogfoodSdk.v
DogfoodProps.v
DogfoodGenesis.v
DogfoodSample.v
AvsTypes.v
AvsStore.v
AvsInv.v
AvsRegistry.v
AvsTasks.v
AvsWrites.v
AvsGenesis.v
AvsPrecompile.v
AvsSteps.v
AvsAuthority.v
AvsEpochEnd.v
AvsRef.v
AvsSample.v
AvsLimits.v
OracleAlgo.v
OracleAggregator.v
OracleV1.v
OracleParams.v
OracleRound.v
OracleWindow.v
OraclePrices.v
OracleNonce.v
OracleReports.v
OracleFeeders.v
OracleLimits.v
OracleSample.v
