(* ===== verification/Prelude.v ===== *)
(** * A verification of the imuachain restaking core

    imuachain is a Cosmos chain for restaking.  Stakers deposit tokens of client
    chains (x/assets), delegate them to operators and undelegate them again
    (x/delegation); an undelegation completes at the end of an epoch of x/epochs,
    and x/immint mints the native token at the end of an epoch.  Operators opt into
    services (AVSs) with their consensus keys and are slashed for what they do there
    (x/operator); the chain itself is such a service, whose validators are the
    operators with the most stake (x/dogfood).  Other services are registered by
    contracts through a precompile and give the operators tasks to sign (x/avs).  The
    validators quote the prices of the assets, and are jailed when they miss rounds or
    quote what the others do not (x/oracle).  The development is a shallow embedding of
    these modules and the theorems about them.

    ** Method

    A keeper method is a function in the state and error monad [M] of this file:
    the state is the record of the module's stores, an error keeps what was
    written before it (the caller's [CacheContext] or transaction undoes it, as
    in the code), and a Go panic is a value of its own.  A store is a finite map
    keyed by the byte string that the code builds, so that prefix iteration and
    its pitfalls are those of the code.  Integers of a fixed width wrap where the
    code lets them; [sdk.Int] is [Z] and [LegacyDec] is [Z] in units of 10^-18.
    Libraries (decimal rounding, bech32, hexadecimal, the bank) are the classes
    [Sdk] and [BankKeeper] with their documented laws in [SdkLaws] and
    [BankLaws]; RefSdk.v gives an instance of each, on which the witnesses run.
    Loops are structural over the list that the iterator returns.  One loop, the
    pruning of historical headers, counts down a height and is given fuel: the number
    of heights, which [prune_historical_terminates] shows to be enough.

    A module is modelled over the modules below it as a type parameter with a
    class that lists what it calls: [Keepers] for x/delegation, [Others] for
    x/operator, [SlashingKeeper] and [AVSKeeper] for x/dogfood, [AvsPeers] for x/avs.
    The next module up is an instance: [operator_keepers] makes x/operator the
    [Keepers] of x/delegation, [dogfood_others] puts x/dogfood and [avs_others] puts
    x/avs into the [Others] of x/operator, and [avs_keeper] makes x/avs the [AVSKeeper]
    of x/dogfood.  [World] is the state of all of them.  x/oracle stands beside them: the
    others see its prices in [Others], and it sees the validators in [OracleStaking].
    The results of its aggregators are shared by pointers, so they live on a heap, and the
    order in which a Go map is visited is a parameter, any permutation of its entries.

    ** Files

    - Prelude.v: results, the monad and its inversion lemmas and tactics, machine
      integers, sums over maps, byte strings.  Errors.v: the error values.
      Sdk.v, RefSdk.v: the library interface and an instance of it.
    - KVStore.v: utils/utils.go (joined keys and their parsers, encodings,
      [CommonValidation]) and ordered prefix iteration.  Ledger.v: a store that
      caches the sums of the entries of another one, and indexes.
    - Epochs.v: x/epochs, the timers, [BeginBlocker] with its hooks and genesis.
      Immint.v: x/immint, parameters, mint amount, the epoch hook and genesis.
    - Assets.v, AssetsGenesis.v: x/assets, client chains, staking assets, staker
      and operator balances, deposits and withdrawals, gateways, genesis.
    - DelegationTypes.v, DelegationStore.v, UndelegationStore.v, Shares.v: the data,
      keys and stores of x/delegation and the conversion between shares and
      tokens.  Delegation.v: delegating, undelegating and associating, over the
      interface [Keepers] of what the module expects of x/operator, x/epochs and
      x/feedistribution.  DelegationEndBlock.v: the end of a block and the native
      restaking updates.  DelegationGenesis.v: import, export and validation.
    - DelegationInv.v, DelegationRuns.v, DelegationSafety.v, DelegationSteps.v,
      DelegationLiveness.v, DelegationNST.v: the accounting invariant, what a successful
      call does, preservation, the step relation with the sums it conserves, and the
      lemmas on success.  DelegationProps.v: the theorems.
      DelegationSample.v: a run on concrete keepers and the witnesses.
    - OperatorTypes.v, OperatorStore.v, OperatorKeepers.v, OperatorUSD.v: the data and
      stores of x/operator and the USD values, over [Others].  OperatorUnbonding.v:
      when an undelegation expires (operator.go).  OperatorSnapshot.v,
      OperatorVotingPower.v: voting_power_snapshot.go and abci.go.  OperatorKeys.v:
      consensus_keys.go.  OperatorOpt.v: opt.go and msg_server.go.  OperatorSlash.v:
      slash.go.  OperatorGenesis.v: the genesis files.  OperatorRegistry.v,
      OperatorSlashSafety.v, OperatorSlashProps.v, OperatorSystem.v: the registry, what a
      slash does, and the steps of the three modules together.  OperatorSample.v: a run and
      the witnesses.
    - ChainUtils.v: chain identifiers and sorting of utils/utils.go.  DogfoodTypes.v,
      DogfoodStore.v, DogfoodKeepers.v: the data, the stores with the historical headers
      and the interfaces of x/dogfood.  DogfoodHooks.v: impl_operator_hooks.go,
      impl_epochs_hooks.go.  DogfoodEndBlock.v: abci.go and [ApplyValidatorChanges].
      DogfoodSdk.v: impl_sdk.go, impl_evm.go, msg_server.go.
      DogfoodGenesis.v: the genesis files.  DogfoodValidators.v, DogfoodQueues.v,
      DogfoodBlocks.v, DogfoodProps.v: the validator set, the queues, chains of blocks and
      the staking interface.  DogfoodSample.v: blocks on a concrete chain and the witnesses.
    - AvsTypes.v, AvsStore.v: the data and stores of x/avs, BLS signatures as the class
      [AvsSdk].  AvsRegistry.v: avs.go and [UpdateAVSInfo].  AvsTasks.v: the rest of
      keeper.go, task.go and impl_epoch_hook.go.  AvsGenesis.v: the genesis files and
      their round trip.  AvsPrecompile.v: precompiles/avs, messages and queries.  AvsInv.v,
      AvsWrites.v: spellings of addresses, the invariant and what each method writes.
      AvsSteps.v, AvsAuthority.v, AvsEpochEnd.v: the theorems.
      AvsRef.v, AvsSample.v: an instance whose addresses have letter case, a run of one
      AVS and the witnesses.  AvsLimits.v: what the module does not prevent.
    - OracleAlgo.v, OracleAggregator.v: algo.go, prices.go and aggregator.go of
      feedermanagement, the median and the quotes of a round.  OracleParams.v: the
      parameters and caches.go.  OracleRound.v: round.go.  OraclePrices.v: keeper/prices.go
      and the averages.  OracleNonce.v, OracleReports.v: nonce.go, slashing.go and the
      punishments.  OracleFeeders.v: feedermanager.go, the end of a block and a quote.
      OracleV1.v, OracleWindow.v: the rule of one deterministic source and the theorems
      about a window.  OracleLimits.v: what goes wrong.  OracleSample.v: a run of blocks
      and the witnesses.

    ** Theorems

    - x/epochs: a block keeps the timers valid and on their grid, calls the hooks
      in order, a lagging timer catches up, genesis round trip.
    - x/immint: the mint amount and its yearly bound, only the minted denomination
      grows, parameter updates are valid (and lose the inflation settings).
    - x/assets: the result of every deposit and withdrawal, the staking total
      equals the deposits, no forbidden gateway, genesis round trip.
    - x/delegation: for the states reachable by any sequence of the operations the
      books balance, records and indexes agree and pools are solvent; delegating
      and completing conserve tokens, undelegating loses the instant penalty only;
      requests within the balance succeed; due undelegations of staked tokens complete
      though another payment fails, and none early or on hold; the walk of the pending queue equals its specification;
      slashes of a native balance follow the documented order; genesis round trip,
      and the export of an open undelegation fails its own validation.
    - x/operator: the books of x/assets and x/delegation balance also with slashes, for
      assets of which no ID starts with another one; what a slash takes of pools,
      undelegations and rewards, and takes once; an undelegation outlasts every AVS that
      can slash it, and no longer; the snapshots of the voting power answer like a log,
      for updates in different blocks; the value of an
      AVS is the sum of its active operators; consensus keys, registry and exported
      keys are consistent.  Emptying a pool can unlist the delegators of another one.
    - x/dogfood: the end of a block makes the validator set the top of the active
      operators and hands the difference to the consensus engine; consensus addresses
      stay known until they are pruned; what is queued for an epoch is completed when
      it ends; a double sign is final until the authority unfreezes the operator, and the
      signing record follows the key; the parameters stay usable; the last historical
      headers are kept, and the genesis set is as specified.  A second key replacement in an epoch is not seen by x/dogfood.
    - x/avs: its stores stay consistent in every reachable state; an announced
      signature binds its operator under the canonical spelling, and no signature is announced once a response is
      revealed; a task is new when it is created and is challenged once; an AVS is
      changed only from its contract for an owner, that of a chain not at all; the
      count of a task is independent of the order of the groups when its address is
      spelled in one way, and depends on it otherwise; genesis round trip.  Anyone can
      announce for an operator and lock it out of a task, and the query of a challenged task loses operators.
    - x/oracle: under the rule V1 of one deterministic source, with quotes of this source
      only, a round has a final price exactly when
      more than the threshold of the power quoted one price, which is unique; the review
      of a validator is fair; the average of an epoch is the mean of the rounds
      from its reset to the one before the latest; the
      counter of missed rounds counts the bits.  A feeder that ends stops the last one,
      leaves nonces that block quotes, and a quote of another source blocks a round.

    ** Not modelled

    Events, telemetry, gas, the gRPC queries of the modules other than x/avs and
    gateways, and the protobuf code (the stores hold the decoded values).  Of x/oracle the
    second phase (Merkle proofs, raw data, balances of native restaking), the copy of the
    rounds for CheckTx, the replay after a restart with the recent messages it needs, the
    timestamps of quotes, messages that update parameters, genesis and queries.
    x/feedistribution is what [Others] and [AvsPeers] list of it: reward values and their
    slashes are parameters.  x/appchain and x/evm are wrappers of IBC and of evmos; the
    precompiles other than precompiles/avs decode ABI calls for keepers that are modelled;
    app, cmd, client, crypto and types wire the node together. *)

From stdpp Require Export gmap strings list sorting fin_maps.
From Stdlib Require Export ZArith Lia.
From Stdlib Require Ascii.
Export Stdlib.Strings.Ascii (ascii(..), ascii_dec).
Export (notations) Stdlib.Strings.Ascii.

Open Scope Z_scope.

(** ** Results

    A Go call that returns [(v, error)] is [Ok v] or [Err e]; a call that
    panics is [Panic].  The two are kept apart because a caller that tests
    [err != nil] recovers from the first and not from the second. *)
Inductive result (E A : Type) : Type :=
| Ok (a : A)
| Err (e : E)
| Panic.
Arguments Ok {E A} a.
Arguments Err {E A} e.
Arguments Panic {E A}.

(** ** The keeper monad

    A keeper method reads and writes the module stores of the context and can
    return an error.  The stores keep what was written before the error, as
    the Go code does: undoing it is the job of the caller ([CacheContext] or the
    transaction), and is written out where the source does it. *)
Definition M (S E A : Type) : Type := S → result E A * S.

Section Monad.
Context {S E : Type}.

#[global] Instance M_ret : MRet (M S E) := λ A a s, (Ok a, s).
#[global] Instance M_bind : MBind (M S E) := λ A B k m s,
  match m s with
  | (Ok a, s') => k a s'
  | (Err e, s') => (Err e, s')
  | (Panic, s') => (Panic, s')
  end.

(** [return ..., err] *)
Definition fail {A} (e : E) : M S E A := λ s, (Err e, s).
(** [panic(...)] *)
Definition panic {A} : M S E A := λ s, (Panic, s).
(** [if cond { return ..., err }] *)
Definition fail_if (b : bool) (e : E) : M S E unit :=
  if b then fail e else mret tt.
Definition gets {A} (f : S → A) : M S E A := λ s, (Ok (f s), s).
Definition modify (f : S → S) : M S E unit := λ s, (Ok tt, f s).
(** a value already computed by a pure fallible function *)
Definition lift_result {A} (r : result E A) : M S E A := λ s, (r, s).

(** [cc, writeCache := ctx.CacheContext()]: run on a branch of the stores and
    write it back only when the body ended without an error; the error is
    handed to the caller. *)
Definition cached {A} (m : M S E A) : M S E A := λ s,
  match m s with
  | (Ok a, s') => (Ok a, s')
  | (Err e, _) => (Err e, s)
  | (Panic, _) => (Panic, s)
  end.

(** [if err != nil { log; continue }] around a cached body *)
Definition log_and_continue (m : M S E unit) : M S E unit := λ s,
  match m s with
  | (Err _, s') => (Ok tt, s')
  | r => r
  end.

(** [if err != nil { panic(err) }] *)
Definition must {A} (m : M S E A) : M S E A := λ s,
  match m s with
  | (Ok a, s') => (Ok a, s')
  | (_, s') => (Panic, s')
  end.

Fixpoint for_each {A} (l : list A) (f : A → M S E unit) : M S E unit :=
  match l with
  | [] => mret tt
  | x :: l => _ ← f x; for_each l f
  end.

(** A callback that returns [(isBreak, err)]. *)
Fixpoint for_each_break {A} (l : list A) (f : A → M S E bool) : M S E unit :=
  match l with
  | [] => mret tt
  | x :: l => b ← f x; if (b : bool) then mret tt else for_each_break l f
  end.
End Monad.

(** Run a method of a component on the part of the state it owns. *)
Definition zoom {S T E A} (get : S → T) (put : T → S → S) (m : M T E A) : M S E A :=
  λ s, let '(r, t) := m (get s) in (r, put t s).

(** A method run beside a variable that a callback captures. *)
Definition on_fst {S V E A} (m : M S E A) : M (S * V) E A := zoom fst (λ t s, (t, s.2)) m.

(** Run a loop whose callback updates a captured variable; the result is the
    variable's last value. *)
Definition with_var {S V E} (v : V) (m : M (S * V) E unit) : M S E V := λ s,
  let '(r, (s', v')) := m (s, v) in
  (match r with Ok _ => Ok v' | Err e => Err e | Panic => Panic end, s').

(** A method without an error result, called where errors may occur. *)
Definition no_error {S E A} (m : M S Empty_set A) : M S E A := λ s,
  let '(r, s') := m s in
  (match r with Ok a => Ok a | Err e => match e with end | Panic => Panic end, s').

#[global] Instance result_ret {E} : MRet (result E) := λ A a, Ok a.
#[global] Instance result_bind {E} : MBind (result E) := λ A B k m,
  match m with Ok a => k a | Err e => Err e | Panic => Panic end.

(** ** Inverting and running monadic code *)

Section MonadFacts.
Context {S E : Type}.

Lemma bind_Ok {A B} (m : M S E A) (k : A → M S E B) s b s' :
  (m ≫= k) s = (Ok b, s') ↔ ∃ a s1, m s = (Ok a, s1) ∧ k a s1 = (Ok b, s').
Proof.
  unfold mbind, M_bind. split.
  - destruct (m s) as [[a| |] s1] eqn:Hm; intros H; [eauto|done..].
  - intros (a & s1 & -> & H). exact H.
Qed.

Lemma bind_run {A B} (m : M S E A) (k : A → M S E B) s a s1 :
  m s = (Ok a, s1) → (m ≫= k) s = k a s1.
Proof. unfold mbind, M_bind. by intros ->. Qed.

Lemma bind_fails {A B} (m : M S E A) (k : A → M S E B) s e s1 :
  m s = (Err e, s1) → (m ≫= k) s = (Err e, s1).
Proof. unfold mbind, M_bind. by intros ->. Qed.

Lemma bind_assoc {A B C} (m : M S E A) (k : A → M S E B) (h : B → M S E C) s :
  ((m ≫= k) ≫= h) s = (m ≫= (λ a, k a ≫= h)) s.
Proof. unfold mbind, M_bind. by destruct (m s) as [[a| |] s1]. Qed.

Lemma ret_Ok {A} (a b : A) (s s' : S) :
  (mret a : M S E A) s = (Ok b, s') ↔ a = b ∧ s = s'.
Proof. unfold mret, M_ret. naive_solver. Qed.

Lemma fail_Ok {A} (e : E) (s s' : S) (a : A) : (fail e : M S E A) s = (Ok a, s') ↔ False.
Proof. unfold fail. naive_solver. Qed.

Lemma fail_if_Ok (b : bool) (e : E) (s s' : S) u :
  (fail_if b e : M S E unit) s = (Ok u, s') ↔ b = false ∧ s = s'.
Proof. destruct u, b; unfold fail_if, fail, mret, M_ret; naive_solver. Qed.

Lemma gets_Ok {A} (f : S → A) (s s' : S) a :
  (gets f : M S E A) s = (Ok a, s') ↔ a = f s ∧ s' = s.
Proof. unfold gets. naive_solver. Qed.

Lemma modify_Ok (f : S → S) (s s' : S) u :
  (modify f : M S E unit) s = (Ok u, s') ↔ s' = f s.
Proof. destruct u. unfold modify. naive_solver. Qed.

Lemma lift_result_Ok {A} (r : result E A) (s s' : S) a :
  (lift_result r : M S E A) s = (Ok a, s') ↔ r = Ok a ∧ s' = s.
Proof. unfold lift_result. naive_solver. Qed.

Lemma zoom_Ok {T A} (get : S → T) (put : T → S → S) (m : M T E A) s a s' :
  zoom get put m s = (Ok a, s') ↔ ∃ t, m (get s) = (Ok a, t) ∧ s' = put t s.
Proof. unfold zoom. destruct (m (get s)) as [r t]. naive_solver. Qed.

Lemma zoom_run {T A} (get : S → T) (put : T → S → S) (m : M T E A) s a t :
  m (get s) = (Ok a, t) → zoom get put m s = (Ok a, put t s).
Proof. unfold zoom. by intros ->. Qed.

Lemma cached_Ok {A} (m : M S E A) s a s' :
  cached m s = (Ok a, s') ↔ m s = (Ok a, s').
Proof. unfold cached. destruct (m s) as [[] ?]; naive_solver. Qed.

Lemma continue_Ok (m : M S E unit) s u s' :
  log_and_continue (cached m) s = (Ok u, s') →
  m s = (Ok tt, s') ∨ (s' = s ∧ ∃ e s1, m s = (Err e, s1)).
Proof.
  unfold log_and_continue, cached. destruct (m s) as [[[]|e|] s1]; intros [=]; subst; eauto.
Qed.

Lemma continue_run (m : M S E unit) s s' :
  m s = (Ok tt, s') → log_and_continue (cached m) s = (Ok tt, s').
Proof. unfold log_and_continue, cached. by intros ->. Qed.

(** A cached body that fails leaves the stores as they were. *)
Lemma cached_atomic {A} (m : M S E A) s :
  (∃ a s', m s = (Ok a, s') ∧ cached m s = (Ok a, s')) ∨
  ((∀ a, (cached m s).1 ≠ Ok a) ∧ (cached m s).2 = s).
Proof. unfold cached. destruct (m s) as [[] ?]; naive_solver. Qed.

Lemma for_each_cons {A} (x : A) l (f : A → M S E unit) s u s' :
  for_each (x :: l) f s = (Ok u, s') ↔
  ∃ v s1, f x s = (Ok v, s1) ∧ for_each l f s1 = (Ok u, s').
Proof. cbn [for_each]. by rewrite bind_Ok. Qed.

Lemma with_var_Ok {V} (v : V) (m : M (S * V) E unit) s a s' :
  with_var v m s = (Ok a, s') → ∃ u, m (s, v) = (Ok u, (s', a)).
Proof. unfold with_var. destruct (m (s, v)) as [[u| |] []]; intros [= <- <-]. by exists u. Qed.

Lemma no_error_Ok {A} (m : M S Empty_set A) s a s' :
  (no_error m : M S E A) s = (Ok a, s') ↔ m s = (Ok a, s').
Proof. unfold no_error. destruct (m s) as [[|[]|] ?]; naive_solver. Qed.

(** The run of a call whose result is known. *)
Lemma run_eta {A} (m : M S E A) s a : (m s).1 = Ok a → m s = (Ok a, (m s).2).
Proof. destruct (m s). cbn. by intros ->. Qed.

Lemma must_run {A} (m : M S E A) s a s' : m s = (Ok a, s') → must m s = (Ok a, s').
Proof. unfold must. by intros ->. Qed.

Lemma for_each_app {A} (l l' : list A) (f : A → M S E unit) s :
  for_each (l ++ l') f s = (for_each l f ≫= λ _, for_each l' f) s.
Proof.
  revert s. induction l as [|x l IH]; intros s; [done|].
  cbn [app for_each]. rewrite bind_assoc. unfold mbind, M_bind.
  destruct (f x s) as [[]]; (apply IH || done).
Qed.

(** Nested loops are one loop over the flattened list. *)
Lemma for_each_bind {A B} (l : list A) (g : A → list B) (f : B → M S E unit) s :
  for_each l (λ x, for_each (g x) f) s = for_each (l ≫= g) f s.
Proof.
  revert s. induction l as [|x l IH]; intros s; [done|].
  rewrite bind_cons, for_each_app. cbn [for_each].
  unfold mbind at 1 2, M_bind. destruct (for_each (g x) f s) as [[]]; (apply IH || done).
Qed.

Lemma for_each_fmap {A B} (l : list A) (g : A → B) (f : B → M S E unit) s :
  for_each (g <$> l) f s = for_each l (λ x, f (g x)) s.
Proof.
  revert s. induction l as [|x l IH]; intros s; [done|].
  cbn [fmap list_fmap for_each]. unfold mbind, M_bind.
  destruct (f (g x) s) as [[]]; (apply IH || done).
Qed.

Lemma for_each_ext {A} (l : list A) (f g : A → M S E unit) s :
  (∀ x s, f x s = g x s) → for_each l f s = for_each l g s.
Proof.
  intros Hfg. revert s. induction l as [|x l IH]; intros s; [done|].
  cbn [for_each]. unfold mbind, M_bind. rewrite Hfg.
  destruct (g x s) as [[]]; (apply IH || done).
Qed.

(** An invariant kept by every iteration is kept by the loop. *)
Lemma for_each_inv {A} (P : S → Prop) (l : list A) (f : A → M S E unit) :
  (∀ x s u s', x ∈ l → P s → f x s = (Ok u, s') → P s') →
  ∀ s u s', P s → for_each l f s = (Ok u, s') → P s'.
Proof.
  induction l as [|x l IH]; intros Hf s u s' HP.
  - cbn. rewrite ret_Ok. by intros [_ ->].
  - rewrite for_each_cons. intros (v & s1 & H1 & H2).
    eapply IH, H2; [|eapply Hf, H1; [apply list_elem_of_here|done]].
    intros y ????. apply Hf. by apply list_elem_of_further.
Qed.

Lemma for_each_break_inv {A} (P : S → Prop) (l : list A) (f : A → M S E bool) :
  (∀ x s u s', x ∈ l → P s → f x s = (Ok u, s') → P s') →
  ∀ s u s', P s → for_each_break l f s = (Ok u, s') → P s'.
Proof.
  induction l as [|x l IH]; intros Hf s u s' HP; cbn [for_each_break].
  - rewrite ret_Ok. by intros [_ ->].
  - rewrite bind_Ok. intros (b & s1 & H1 & H2).
    apply Hf in H1; [|apply list_elem_of_here|done].
    destruct b; [by apply ret_Ok in H2 as [_ ->]|].
    eapply IH, H2; [|done]. intros y ????. apply Hf. by apply list_elem_of_further.
Qed.
End MonadFacts.

(** Peel the binds of a run that succeeded, one hypothesis per step. *)
Ltac go_inv_step :=
  match goal with
  | H : mbind _ _ _ = (Ok _, _) |- _ =>
      let a := fresh "v" in let s := fresh "s" in
      let H1 := fresh "Hrun" in let H2 := fresh "Hrun" in
      apply bind_Ok in H as (a & s & H1 & H2)
  | H : mret _ _ = (Ok _, _) |- _ => apply ret_Ok in H as [? ?]
  | H : fail _ _ = (Ok _, _) |- _ => by apply fail_Ok in H
  | H : panic _ = (Ok _, _) |- _ => discriminate H
  | H : fail_if _ _ _ = (Ok _, _) |- _ => apply fail_if_Ok in H as [? ?]
  | H : gets _ _ = (Ok _, _) |- _ => apply gets_Ok in H as [? ?]
  | H : modify _ _ = (Ok _, _) |- _ => apply modify_Ok in H
  | H : lift_result _ _ = (Ok _, _) |- _ => apply lift_result_Ok in H as [? ?]
  | H : zoom _ _ _ _ = (Ok _, _) |- _ =>
      let t := fresh "t" in let H1 := fresh "Hrun" in let H2 := fresh "Heq" in
      apply zoom_Ok in H as (t & H1 & H2)
  | H : no_error _ _ = (Ok _, _) |- _ => apply (proj1 (no_error_Ok _ _ _ _)) in H
  | H : cached _ _ = (Ok _, _) |- _ => apply (proj1 (cached_Ok _ _ _ _)) in H
  | H : (_, _) = (Ok _, _) |- _ => injection H as ? ?
  | H : (Err _, _) = (Ok _, _) |- _ => discriminate H
  | H : (Panic, _) = (Ok _, _) |- _ => discriminate H
  end.
Ltac go_inv := repeat (go_inv_step; subst; cbn beta in *).

(** An equation between closed terms, by the conversion of the kernel. *)
Ltac conv_refl := lazymatch goal with |- _ = ?b => exact_no_check (eq_refl b) end.

(** Split on a decision in the goal, and only there. *)
Ltac decide_goal :=
  match goal with |- context [decide ?P] =>
    let H := fresh "Hd" in destruct (decide P) as [H|H] end.

(** Compute a run whose tests have been decided. *)
Ltac go_run :=
  unfold mbind, M_bind, mret, M_ret, modify, gets, fail_if, fail, panic, lift_result; cbn.

(** ** Methods that only read *)

Definition read_only {S E A} (m : M S E A) : Prop := ∀ s, (m s).2 = s.

Section ReadOnly.
Context {S E : Type}.

Lemma ro_ret {A} (a : A) : read_only (mret a : M S E A).
Proof. done. Qed.
Lemma ro_fail {A} (e : E) : read_only (fail e : M S E A).
Proof. done. Qed.
Lemma ro_panic {A} : read_only (panic : M S E A).
Proof. done. Qed.
Lemma ro_fail_if b (e : E) : read_only (fail_if b e : M S E unit).
Proof. by destruct b. Qed.
Lemma ro_gets {A} (f : S → A) : read_only (gets f : M S E A).
Proof. done. Qed.
Lemma ro_lift {A} (r : result E A) : read_only (lift_result r : M S E A).
Proof. done. Qed.

Lemma ro_bind {A B} (m : M S E A) (k : A → M S E B) :
  read_only m → (∀ a, read_only (k a)) → read_only (m ≫= k).
Proof.
  intros Hm Hk s. specialize (Hm s). unfold mbind, M_bind.
  destruct (m s) as [[a| |] s1]; cbn in *; subst; [apply Hk|done..].
Qed.

Lemma ro_zoom {T A} (get : S → T) (put : T → S → S) (m : M T E A) :
  (∀ s, put (get s) s = s) → read_only m → read_only (zoom get put m).
Proof.
  intros Hput Hm s. specialize (Hm (get s)). unfold zoom.
  destruct (m (get s)) as [r t]; cbn in *; subst. apply Hput.
Qed.

Lemma ro_Ok {A} (m : M S E A) s a s' : read_only m → m s = (Ok a, s') → s' = s.
Proof. intros Hm Hs. specialize (Hm s). by rewrite Hs in Hm. Qed.
End ReadOnly.

Create HintDb readonly.
#[export] Hint Resolve ro_ret ro_fail ro_panic ro_fail_if ro_gets ro_lift : readonly.

Ltac solve_read_only :=
  repeat first
    [ progress auto with readonly
    | match goal with |- ∀ _, read_only _ => intros end
    | apply ro_bind
    | case_match ].

(** ** Methods that leave a part of the state alone *)

Definition keeps {S T E A} (f : S → T) (m : M S E A) : Prop := ∀ s, f (m s).2 = f s.

Section Keeps.
Context {S T E : Type} (f : S → T).

Lemma keeps_ro {A} (m : M S E A) : read_only m → keeps f m.
Proof. intros Hm s. by rewrite Hm. Qed.

Lemma keeps_bind {A B} (m : M S E A) (k : A → M S E B) :
  keeps f m → (∀ a, keeps f (k a)) → keeps f (m ≫= k).
Proof.
  intros Hm Hk s. specialize (Hm s). unfold mbind, M_bind.
  destruct (m s) as [[a| |] s1]; cbn in *; [by rewrite Hk|done..].
Qed.

Lemma keeps_modify (g : S → S) : (∀ s, f (g s) = f s) → keeps f (modify g : M S E unit).
Proof. done. Qed.

Lemma keeps_zoom {V A} (get : S → V) (put : V → S → S) (m : M V E A) :
  (∀ v s, f (put v s) = f s) → keeps f (zoom get put m).
Proof. intros Hput s. unfold zoom. destruct (m (get s)). apply Hput. Qed.

Lemma keeps_on_fst {V A} (m : M S E A) :
  keeps f m → keeps (λ s, f s.1) (on_fst m : M (S * V) E A).
Proof. intros Hm s. specialize (Hm s.1). unfold on_fst, zoom. by destruct (m s.1). Qed.

Lemma keeps_with_var {V} (v : V) (m : M (S * V) E unit) :
  keeps (λ s, f s.1) m → keeps f (with_var v m).
Proof. intros Hm s. specialize (Hm (s, v)). unfold with_var. by destruct (m (s, v)) as [? []]. Qed.

Lemma keeps_for_each {A} (l : list A) (g : A → M S E unit) :
  (∀ a, keeps f (g a)) → keeps f (for_each l g).
Proof.
  intros Hg. induction l as [|a l IH]; [done|]. apply keeps_bind; [apply Hg|done].
Qed.

Lemma keeps_for_each_break {A} (l : list A) (g : A → M S E bool) :
  (∀ a, keeps f (g a)) → keeps f (for_each_break l g).
Proof.
  intros Hg. induction l as [|a l IH]; [done|]. apply keeps_bind; [apply Hg|by intros []].
Qed.

Lemma keeps_cached {A} (m : M S E A) : keeps f m → keeps f (cached m).
Proof. intros Hm s. specialize (Hm s). unfold cached. by destruct (m s) as [[]]. Qed.

Lemma keeps_continue (m : M S E unit) : keeps f m → keeps f (log_and_continue m).
Proof. intros Hm s. specialize (Hm s). unfold log_and_continue. by destruct (m s) as [[]]. Qed.

Lemma keeps_Ok {A} (m : M S E A) s r s' : keeps f m → m s = (r, s') → f s' = f s.
Proof. intros Hm Hs. specialize (Hm s). by rewrite Hs in Hm. Qed.
End Keeps.

Create HintDb keeps.

Ltac solve_keeps :=
  repeat first
    [ assumption
    | solve [auto with keeps]
    | solve [apply keeps_ro; auto with readonly]
    | match goal with |- ∀ _, keeps _ _ => intros end
    | apply keeps_bind | apply keeps_for_each | apply keeps_for_each_break
    | apply keeps_continue | apply keeps_cached | apply keeps_on_fst | apply keeps_with_var
    | apply keeps_modify; done | apply keeps_zoom; done
    | case_match ].

(** ** Machine integers *)

(** Conversion to [int64] and to [uint64], as Go's wrap-around arithmetic and
    integer conversions do. *)
Definition wrap_int64 (z : Z) : Z := (z + 2 ^ 63) mod 2 ^ 64 - 2 ^ 63.
Definition wrap_uint64 (z : Z) : Z := z mod 2 ^ 64.

Lemma wrap_int64_id z : - 2 ^ 63 ≤ z < 2 ^ 63 → wrap_int64 z = z.
Proof. intros Hz. unfold wrap_int64. rewrite Z.mod_small; lia. Qed.

Lemma wrap_uint64_id z : 0 ≤ z < 2 ^ 64 → wrap_uint64 z = z.
Proof. apply Z.mod_small. Qed.

Lemma wrap_uint64_range z : 0 ≤ wrap_uint64 z < 2 ^ 64.
Proof. by apply Z.mod_pos_bound. Qed.

(** ** Sums over finite maps *)

Section MapSum.
Context `{Countable K} {V : Type}.
Implicit Types (m : gmap K V) (f g : K → V → Z).

Definition map_sum f m : Z := map_fold (λ k v acc, f k v + acc) 0 m.

Definition at_key f m k : Z := from_option (f k) 0 (m !! k).

Lemma map_sum_empty f : map_sum f ∅ = 0.
Proof. apply map_fold_empty. Qed.

Lemma map_sum_fresh f m k v :
  m !! k = None → map_sum f (<[k:=v]> m) = f k v + map_sum f m.
Proof.
  intros Hk. unfold map_sum. rewrite map_fold_insert_L; [done| |done].
  intros. lia.
Qed.

Lemma map_sum_delete f m k : map_sum f (delete k m) = map_sum f m - at_key f m k.
Proof.
  unfold at_key. destruct (m !! k) as [v|] eqn:Hk; cbn.
  - rewrite <-(insert_delete_id m k v) at 2 by done.
    rewrite map_sum_fresh by apply lookup_delete_eq. lia.
  - rewrite delete_id by done. lia.
Qed.

Lemma map_sum_insert f m k v :
  map_sum f (<[k:=v]> m) = map_sum f m - at_key f m k + f k v.
Proof.
  rewrite <-insert_delete_eq, map_sum_fresh by apply lookup_delete_eq.
  rewrite map_sum_delete. lia.
Qed.

Lemma map_sum_ext f g m :
  (∀ k v, m !! k = Some v → f k v = g k v) → map_sum f m = map_sum g m.
Proof.
  induction m as [|k v m Hk IH] using map_ind; intros Hfg.
  { by rewrite !map_sum_empty. }
  rewrite !map_sum_fresh by done. rewrite (Hfg k v) by apply lookup_insert_eq.
  rewrite IH; [done|]. intros k' v' Hk'. apply Hfg.
  rewrite lookup_insert_ne; [done|congruence].
Qed.

Lemma map_sum_zero f m :
  (∀ k v, m !! k = Some v → f k v = 0) → map_sum f m = 0.
Proof.
  intros Hf. rewrite (map_sum_ext _ (λ _ _, 0)) by done. clear Hf.
  induction m as [|k v m Hk IH] using map_ind; [apply map_sum_empty|]. by rewrite map_sum_fresh, IH.
Qed.

Lemma map_sum_nonneg f m :
  (∀ k v, m !! k = Some v → 0 ≤ f k v) → 0 ≤ map_sum f m.
Proof.
  induction m as [|k v m Hk IH] using map_ind; intros Hf.
  { by rewrite map_sum_empty. }
  rewrite map_sum_fresh by done.
  assert (0 ≤ f k v) by (apply Hf, lookup_insert_eq).
  assert (0 ≤ map_sum f m); [|lia]. apply IH. intros k' v' Hk'. apply Hf.
  rewrite lookup_insert_ne; [done|congruence].
Qed.

(** A summand is at most the sum when no summand is negative. *)
Lemma map_sum_lower f m k v :
  (∀ k v, m !! k = Some v → 0 ≤ f k v) → m !! k = Some v → f k v ≤ map_sum f m.
Proof.
  intros Hf Hk. rewrite <-(insert_delete_id m k v), map_sum_fresh;
    [|apply lookup_delete_eq|done].
  assert (0 ≤ map_sum f (delete k m)); [|lia]. apply map_sum_nonneg.
  intros k' v' [_ Hk']%lookup_delete_Some. by apply Hf.
Qed.
End MapSum.

(** ** Lists *)

Lemma NoDup_omap {A B} (f : A → option B) (l : list A) :
  (∀ x y z, x ∈ l → y ∈ l → f x = Some z → f y = Some z → x = y) →
  NoDup l → NoDup (omap f l).
Proof.
  intros Hf Hl. induction Hl as [|x l Hx Hl IH]; cbn; [constructor|].
  assert (NoDup (omap f l)).
  { apply IH. intros ?????. apply Hf; by apply list_elem_of_further. }
  destruct (f x) as [z|] eqn:Hz; [|done]. constructor; [|done].
  intros (y & Hy & Hyz)%list_elem_of_omap. apply Hx.
  by rewrite (Hf x y z (list_elem_of_here _ _) (list_elem_of_further _ _ _ Hy) Hz Hyz).
Qed.

(** ** Byte strings *)

(** Go strings and byte slices are both byte sequences and are modelled by
    [string].  [String.le] is the byte-wise lexicographic order of
    [bytes.Compare]. *)

Fixpoint no_char (c : ascii) (s : string) : bool :=
  match s with
  | EmptyString => true
  | String d s => negb (Ascii.eqb c d) && no_char c s
  end.

(** [strings.Split(s, sep)] for a one-byte separator. *)
Fixpoint split_on (c : ascii) (s : string) : list string :=
  match s with
  | EmptyString => [EmptyString]
  | String d s' =>
      if Ascii.eqb c d then EmptyString :: split_on c s'
      else match split_on c s' with
           | [] => [String d EmptyString]
           | p :: ps => String d p :: ps
           end
  end.

(** [strings.Join(parts, sep)] *)
Fixpoint join_with (sep : string) (parts : list string) : string :=
  match parts with
  | [] => EmptyString
  | [p] => p
  | p :: ps => p +:+ sep +:+ join_with sep ps
  end.

Lemma app_cons c s t : String c s +:+ t = String c (s +:+ t).
Proof. reflexivity. Qed.

Lemma app_empty_l s : EmptyString +:+ s = s.
Proof. reflexivity. Qed.

Lemma app_assoc_str s t u : (s +:+ t) +:+ u = s +:+ (t +:+ u).
Proof.
  induction s as [|c s IH]; [done|]. by rewrite !app_cons, IH.
Qed.

Lemma app_empty_r s : s +:+ EmptyString = s.
Proof. induction s as [|c s IH]; [done|]. by rewrite app_cons, IH. Qed.

Lemma length_app_str s t : String.length (s +:+ t) = (String.length s + String.length t)%nat.
Proof. induction s as [|c s IH]; [done|]. rewrite app_cons. cbn. by rewrite IH. Qed.

Lemma no_char_app c s t : no_char c (s +:+ t) = no_char c s && no_char c t.
Proof.
  induction s as [|d s IH]; [done|]. rewrite app_cons. cbn [no_char].
  by rewrite IH, andb_assoc.
Qed.

(** Two concatenations whose heads have the same length agree part by part. *)
Lemma app_inj_len s1 s2 t1 t2 :
  String.length s1 = String.length s2 → s1 +:+ t1 = s2 +:+ t2 → s1 = s2 ∧ t1 = t2.
Proof.
  revert s2. induction s1 as [|c s1 IH]; intros [|d s2]; cbn; try done.
  intros [= Hlen]. rewrite !app_cons. intros [= -> Happ].
  by destruct (IH s2 Hlen Happ) as [-> ->].
Qed.

Lemma split_on_nonempty c s : split_on c s ≠ [].
Proof.
  destruct s as [|d s]; cbn; [done|]. destruct (Ascii.eqb c d); [done|].
  by destruct (split_on c s).
Qed.

Lemma split_on_free c s : no_char c s = true → split_on c s = [s].
Proof.
  induction s as [|d s IH]; cbn; [done|].
  intros [Hd Hs]%andb_true_iff. apply negb_true_iff in Hd as ->. by rewrite IH.
Qed.

Lemma split_on_app c s t :
  no_char c s = true → split_on c (s +:+ String c t) = s :: split_on c t.
Proof.
  induction s as [|d s IH]; cbn [no_char].
  - intros _. rewrite app_empty_l. cbn [split_on]. by rewrite Ascii.eqb_refl.
  - intros [Hd Hs]%andb_true_iff. apply negb_true_iff in Hd.
    rewrite app_cons. cbn [split_on]. by rewrite Hd, IH.
Qed.

(** Splitting undoes joining when no part holds the separator. *)
Lemma split_join c (parts : list string) :
  parts ≠ [] → Forall (λ p, no_char c p = true) parts →
  split_on c (join_with (String c EmptyString) parts) = parts.
Proof.
  intros Hne Hall. induction Hall as [|p ps Hp Hps IH]; [done|].
  destruct ps as [|q ps].
  - by apply split_on_free.
  - change (join_with (String c EmptyString) (p :: q :: ps))
      with (p +:+ String c EmptyString +:+ join_with (String c EmptyString) (q :: ps)).
    rewrite app_cons, app_empty_l, split_on_app by done. by rewrite IH.
Qed.

Lemma join_inj c (l1 l2 : list string) :
  l1 ≠ [] → l2 ≠ [] →
  Forall (λ p, no_char c p = true) l1 → Forall (λ p, no_char c p = true) l2 →
  join_with (String c EmptyString) l1 = join_with (String c EmptyString) l2 → l1 = l2.
Proof.
  intros ???? Heq. by rewrite <-(split_join c l1), <-(split_join c l2), Heq.
Qed.

(** [bytes.HasPrefix] *)
Definition has_prefix (p s : string) : bool := String.prefix p s.

Lemma has_prefix_spec p s : has_prefix p s = true ↔ ∃ t, s = p +:+ t.
Proof.
  unfold has_prefix. revert s. induction p as [|c p IH]; intros s.
  - destruct s; split; eauto.
  - destruct s as [|d s]; [split; [done|by intros [t ?]]|]. cbn [String.prefix].
    destruct (ascii_dec c d) as [->|Hne].
    + rewrite IH. split; intros [t Ht]; exists t; [by rewrite Ht|].
      rewrite app_cons in Ht. by injection Ht.
    + split; [done|]. intros [t Ht]. rewrite app_cons in Ht. by injection Ht as <-.
Qed.

Lemma has_prefix_app p t : has_prefix p (p +:+ t) = true.
Proof. apply has_prefix_spec. eauto. Qed.

Lemma le_cons c s d t :
  String.le (String c s) (String d t) ↔
  Ascii.compare c d = Lt ∨ (c = d ∧ String.le s t).
Proof.
  unfold String.le, String.leb. cbn [String.compare].
  destruct (Ascii.compare c d) eqn:Hcd.
  - apply Ascii.compare_eq_iff in Hcd as ->. naive_solver.
  - naive_solver.
  - split; [done|]. intros [?|[-> _]]; [done|].
    unfold Ascii.compare in Hcd. by rewrite N.compare_refl in Hcd.
Qed.

(** The order on strings with a common prefix is the order of the rests. *)
Lemma le_app p s t : String.le (p +:+ s) (p +:+ t) ↔ String.le s t.
Proof.
  induction p as [|c p IH]; [done|]. rewrite !app_cons, le_cons, IH.
  split; [|by auto]. intros [Hc|[_ ?]]; [|done].
  unfold Ascii.compare in Hc. by rewrite N.compare_refl in Hc.
Qed.

(** Strings of the same length compare by their heads first. *)
Lemma le_app_ne s1 s2 t1 t2 :
  String.length s1 = String.length s2 → String.le s1 s2 → s1 ≠ s2 →
  String.le (s1 +:+ t1) (s2 +:+ t2).
Proof.
  revert s2. induction s1 as [|c s1 IH]; intros [|d s2]; cbn [String.length]; try done.
  intros [= Hl]. rewrite !app_cons, !le_cons. intros [?|[-> Hle]] Hne; [by left|].
  right. split; [done|]. apply IH; congruence.
Qed.

Lemma le_app_head s1 s2 t1 t2 :
  String.length s1 = String.length s2 →
  String.le (s1 +:+ t1) (s2 +:+ t2) → String.le s1 s2.
Proof.
  revert s2. induction s1 as [|c s1 IH]; intros [|d s2]; cbn; try done.
  intros [= Hlen]. rewrite !app_cons, !le_cons. naive_solver.
Qed.

(** ** Positional notation

    [digits b f n z] writes [z] in base [b] with exactly [n] digits, most
    significant first: base 256 is a big-endian integer, base 10 is a
    zero-padded ["%0nd"]. *)
Section Digits.
#[local] Coercion Z.of_nat : nat >-> Z.
Context (b : Z) (f : Z → ascii) (g : ascii → Z).
Implicit Types (n : nat) (x y z : Z).

Fixpoint digits (n : nat) (z : Z) : string :=
  match n with
  | O => EmptyString
  | S n => String (f ((z / b ^ n) mod b)) (digits n z)
  end.

Fixpoint undigits (acc : Z) (s : string) : Z :=
  match s with
  | EmptyString => acc
  | String c s => undigits (acc * b + g c) s
  end.

Lemma length_digits n z : String.length (digits n z) = n.
Proof. induction n as [|n IH]; cbn; [done|by rewrite IH]. Qed.

Lemma no_char_digits c n z :
  (∀ d, f d ≠ c) → no_char c (digits n z) = true.
Proof.
  intros Hf. induction n as [|n IH]; cbn [digits no_char]; [done|].
  rewrite IH, andb_true_r, negb_true_iff. apply Ascii.eqb_neq.
  intros Heq. by apply (Hf _ (eq_sym Heq)).
Qed.

Context (Hb : 1 < b).

Lemma pow_S n : b ^ S n = b ^ n * b.
Proof. rewrite Nat2Z.inj_succ, Z.pow_succ_r by lia. lia. Qed.

Lemma pow_pos n : 0 < b ^ Z.of_nat n.
Proof. apply Z.pow_pos_nonneg; lia. Qed.

Lemma mod_pow_S n z : z mod b ^ S n = ((z / b ^ n) mod b) * b ^ n + z mod b ^ n.
Proof.
  rewrite pow_S. pose proof (pow_pos n).
  rewrite Z.rem_mul_r by lia. lia.
Qed.

Lemma undigits_digits_acc n acc z :
  (∀ d, 0 ≤ d < b → g (f d) = d) →
  undigits acc (digits n z) = acc * b ^ n + z mod b ^ n.
Proof.
  intros Hgf. revert acc. induction n as [|n IH]; intros acc.
  - cbn [digits undigits]. change (b ^ 0%nat) with 1. rewrite Z.mod_1_r. lia.
  - cbn [digits undigits]. rewrite Hgf by (apply Z.mod_pos_bound; lia).
    rewrite IH, mod_pow_S, pow_S. lia.
Qed.

Lemma undigits_digits n z :
  (∀ d, 0 ≤ d < b → g (f d) = d) →
  0 ≤ z < b ^ n → undigits 0 (digits n z) = z.
Proof. intros Hgf Hz. rewrite undigits_digits_acc, Z.mod_small by done. lia. Qed.

Lemma digits_inj n x y :
  (∀ d, 0 ≤ d < b → g (f d) = d) →
  0 ≤ x < b ^ n → 0 ≤ y < b ^ n → digits n x = digits n y → x = y.
Proof.
  intros Hgf Hx Hy Heq.
  rewrite <-(undigits_digits n x), <-(undigits_digits n y) by done. by rewrite Heq.
Qed.

Lemma digits_mod n z : digits n z = digits n (z mod b ^ n).
Proof.
  revert z. induction n as [|n IH]; intros z; [done|].
  cbn [digits]. rewrite (IH z), (IH (z mod b ^ S n)).
  pose proof (pow_pos n). f_equal.
  - rewrite pow_S, (Z.mul_comm (b ^ n)).
    rewrite (Z.mul_comm b), Z.rem_mul_r by lia.
    rewrite (Z.mul_comm (b ^ n)), Z.div_add by lia.
    rewrite (Z.div_small (z mod b ^ n)) by (apply Z.mod_pos_bound; lia).
    by rewrite Z.add_0_l, Z.mod_mod by lia.
  - f_equal. rewrite mod_pow_S, Z.add_comm, Z.mod_add by lia.
    by rewrite Z.mod_mod by lia.
Qed.

(** Padded numbers sort as byte strings the way they sort as numbers. *)
Lemma digits_sorted n x y :
  (∀ d e, 0 ≤ d < e → e < b → Ascii.compare (f d) (f e) = Lt) →
  0 ≤ x ≤ y → y < b ^ n → String.le (digits n x) (digits n y).
Proof.
  intros Hf. revert x y. induction n as [|n IH]; intros x y Hxy Hy; [done|].
  cbn [digits]. pose proof (pow_pos n) as Hp. rewrite pow_S in Hy.
  assert (x / b ^ n ≤ y / b ^ n) by (apply Z.div_le_mono; lia).
  assert (y / b ^ n < b) by (apply Z.div_lt_upper_bound; lia).
  assert (0 ≤ x / b ^ n) by (apply Z.div_pos; lia).
  rewrite (Z.mod_small (x / b ^ n)), (Z.mod_small (y / b ^ n)) by lia.
  apply le_cons. destruct (decide (x / b ^ n = y / b ^ n)) as [Heq|Hne].
  - right. split; [by rewrite Heq|].
    rewrite (digits_mod n x), (digits_mod n y).
    apply IH; [|apply Z.mod_pos_bound; lia].
    split; [apply Z.mod_pos_bound; lia|].
    rewrite !Z.mod_eq by lia. rewrite Heq. lia.
  - left. apply Hf; lia.
Qed.
End Digits.

(** A decimal digit as its ASCII byte. *)
Definition dec_char (d : Z) : ascii := Ascii.ascii_of_nat (48 + Z.to_nat (d `min` 9)).
