(* ===== verification/Errors.v ===== *)
(** * Error values

    The registered errors of the modules (the errors.go of each types package)
    and the errors made on the spot by the functions that are modelled.  One
    module per Go package, so that [delegationtypes.ErrInsufficientShares] reads
    as in the source.  Wrapping adds text only and is left out.  [error] is the
    Go interface type. *)

From S2P Require Import Prelude.

Inductive error : Set :=
(** x/assets/types *)
| assets_ErrNoClientChainKey
| assets_ErrNoClientChainAssetKey
| assets_ErrNoStakerAssetKey
| assets_ErrSubAmountIsMoreThanOrigin
| assets_ErrNoOperatorAssetKey
| assets_ErrParseAssetsStateKey
| assets_ErrInputPointerIsNil
| assets_ErrInvalidGenesisData
| assets_ErrInvalidInputParameter
| assets_ErrInvalidAmount
| assets_ErrInvalidOperationType
| assets_ErrRegisterDuplicateAssetID
| assets_ErrForbiddenGatewayAddress
| assets_ErrNoParamsKey
| assets_ErrInvalidOperatorAddr
(** [govtypes.ErrInvalidSigner] *)
| assets_ErrInvalidSigner
(** x/delegation/types *)
| delegation_ErrNoKeyInTheStore
| delegation_ErrOperatorIsFrozen
| delegation_ErrOperatorNotExist
| delegation_ErrAmountIsNotPositive
| delegation_ErrOperatorAddrIsNotAccAddr
| delegation_ErrDelegationAmountTooBig
| delegation_ErrCannotIncHoldCount
| delegation_ErrCannotDecHoldCount
| delegation_ErrDivisorIsZero
| delegation_ErrInsufficientShares
| delegation_ErrOperatorAlreadyAssociated
| delegation_ErrNoAssociatedOperatorByStaker
| delegation_ErrClientChainNotExist
| delegation_ErrInvalidCompletionEpoch
| delegation_ErrEpochIdentifierNotExist
| delegation_ErrCannotIncUndelegationID
| delegation_ErrInvalidInputParameter
| delegation_ErrInvalidParams
| delegation_ErrInvalidGenesisData
(** [govtypes.ErrInvalidSigner] *)
| delegation_ErrInvalidSigner
(** x/epochs/types *)
| epochs_ErrInvalidGenesisData
| epochs_ErrDuplicateEpochInfo
(** [fmt.Errorf] and [errors.New] values of the validation functions *)
| epochs_ErrEmptyIdentifier
| epochs_ErrNullIdentifier
| epochs_ErrNonPositiveDuration
| epochs_ErrNegativeCurrentEpoch
| epochs_ErrNegativeStartHeight
| epochs_ErrZeroEpochNumber
(** x/immint/types *)
| immint_ErrInvalidParams
| immint_ErrInvalidSigner
| immint_ErrNegativeStartTime
| immint_ErrInvalidInflationRatio
| immint_ErrNilReward
| immint_ErrNegativeReward
| immint_ErrInvalidDenom
(** x/operator/types *)
| operator_ErrNoKeyInTheStore
| operator_ErrSlashInfo
| operator_ErrSlashInfoExist
| operator_ErrParameterInvalid
| operator_ErrAlreadyOptedIn
| operator_ErrNotOptedIn
| operator_ErrSlashOccurredHeight
| operator_ErrConsKeyAlreadyInUse
| operator_ErrAlreadyRemovingKey
| operator_ErrInvalidPubKey
| operator_ErrInvalidGenesisData
| operator_ErrOperatorAlreadyExists
| operator_ErrUnknownChainID
| operator_ErrOperatorNotRemovingKey
| operator_ErrInvalidSlashPower
| operator_ErrValueIsNilOrZero
| operator_ErrKeyNotExistInMap
| operator_ErrNoSuchAvs
| operator_ErrMinDelegationNotMet
| operator_ErrFailToGetHistoricalVP
| operator_ErrFailToClearVPSnapshot
| operator_ErrIsJailed
| operator_ErrIsOptedOutOrJailed
| operator_ErrOperatorNameAlreadyExists
| operator_ErrNoSuchOperator
| operator_ErrOperatorFrozenStateMismatch
| operator_ErrOperatorIsFrozen
(** [govtypes.ErrInvalidSigner], and the [xerrors] and [fmt.Errorf] values of the module *)
| operator_ErrInvalidSigner
| operator_ErrInvalidKeyLength
| operator_ErrMissingAddress
| operator_ErrExpirationOverflow
| operator_ErrEpochOrder
| operator_ErrNegativeDuration
| operator_ErrNegativeDec
(** cosmos-sdk x/staking/types *)
| staking_ErrCommissionLTMinRate
| staking_ErrCommissionUpdateTime
| staking_ErrCommissionNegative
| staking_ErrCommissionGTMaxRate
| staking_ErrCommissionGTMaxChangeRate
(** x/dogfood/types *)
| dogfood_ErrInvalidGenesisData
| dogfood_ErrNotAVSByChainID
| dogfood_ErrUpdateAVSInfo
| dogfood_ErrConsKeyAlreadyTombstoned
(** [govtypes.ErrInvalidSigner], [sdkerrors.ErrInvalidType], the error of packing a key and
    the [fmt.Errorf] values of the parameters *)
| dogfood_ErrInvalidSigner
| dogfood_ErrInvalidType
| dogfood_ErrPackKey
| dogfood_ErrInvalidParam
(** x/avs/types *)
| avs_ErrNoKeyInTheStore
| avs_ErrAlreadyRegistered
| avs_ErrUnregisterNonExistent
| avs_ErrInvalidAction
| avs_ErrCannotDeregister
| avs_ErrEpochNotFound
| avs_ErrCallerAddressUnauthorized
| avs_ErrAvsNameMismatch
| avs_ErrNotYetRegistered
| avs_ErrNotNull
| avs_ErrInvalidAddr
| avs_ErrAlreadyExists
| avs_ErrTaskIsNotExists
| avs_ErrHashValue
| avs_ErrPubKeyIsNotExists
| avs_ErrSigVerifyError
| avs_ErrParamError
| avs_ErrParamNotEmptyError
| avs_ErrSubmitTooLateError
| avs_ErrResAlreadyExists
| avs_ErrInconsistentParams
| avs_ErrVotingPowerIncorrect
| avs_ErrSigNotMatchPubKey
| avs_ErrParsePubKey
| avs_ErrInvalidAssetID
| avs_ErrSubmitTooSoonError
| avs_ErrNotFound
| avs_ErrNoOptedInOperators
(** the [fmt.Errorf] values of the module *)
| avs_ErrNoTask
| avs_ErrTaskFinished
| avs_ErrNoOperatorsInTask
| avs_ErrNoAvs
| avs_ErrParamsNotFound
| avs_ErrGroupKey
| avs_ErrInvalidGenesis
(** the [fmt.Errorf] values of precompiles/avs *)
| precompile_ErrInputParamOrType
| precompile_ErrDifferentOriginFromSender
| precompile_ErrNotQualified
| precompile_ErrNotAvs
| precompile_ErrTaskNotAssociated
| precompile_ErrNotAuthorized
(** x/oracle/types *)
| oracle_ErrGetPriceRoundNotFound
| oracle_ErrGetPriceAssetNotFound
(** [utils.ParseJoinedKeyWithCount] *)
| ErrParseJoinedKey
(** [utils.CommonValidation] *)
| ErrDuplicateElement
(** an error of a library call *)
| ErrLibrary.

#[export] Instance error_eq_dec : EqDecision error.
Proof. solve_decision. Defined.

Module assetstypes.
Abbreviation ErrNoClientChainKey := assets_ErrNoClientChainKey.
Abbreviation ErrNoClientChainAssetKey := assets_ErrNoClientChainAssetKey.
Abbreviation ErrNoStakerAssetKey := assets_ErrNoStakerAssetKey.
Abbreviation ErrSubAmountIsMoreThanOrigin := assets_ErrSubAmountIsMoreThanOrigin.
Abbreviation ErrNoOperatorAssetKey := assets_ErrNoOperatorAssetKey.
Abbreviation ErrParseAssetsStateKey := assets_ErrParseAssetsStateKey.
Abbreviation ErrInputPointerIsNil := assets_ErrInputPointerIsNil.
Abbreviation ErrInvalidGenesisData := assets_ErrInvalidGenesisData.
Abbreviation ErrInvalidInputParameter := assets_ErrInvalidInputParameter.
Abbreviation ErrInvalidAmount := assets_ErrInvalidAmount.
Abbreviation ErrInvalidOperationType := assets_ErrInvalidOperationType.
Abbreviation ErrRegisterDuplicateAssetID := assets_ErrRegisterDuplicateAssetID.
Abbreviation ErrForbiddenGatewayAddress := assets_ErrForbiddenGatewayAddress.
Abbreviation ErrNoParamsKey := assets_ErrNoParamsKey.
Abbreviation ErrInvalidOperatorAddr := assets_ErrInvalidOperatorAddr.
Abbreviation ErrInvalidSigner := assets_ErrInvalidSigner.
End assetstypes.

Module delegationtypes.
Abbreviation ErrNoKeyInTheStore := delegation_ErrNoKeyInTheStore.
Abbreviation ErrOperatorIsFrozen := delegation_ErrOperatorIsFrozen.
Abbreviation ErrOperatorNotExist := delegation_ErrOperatorNotExist.
Abbreviation ErrAmountIsNotPositive := delegation_ErrAmountIsNotPositive.
Abbreviation ErrOperatorAddrIsNotAccAddr := delegation_ErrOperatorAddrIsNotAccAddr.
Abbreviation ErrDelegationAmountTooBig := delegation_ErrDelegationAmountTooBig.
Abbreviation ErrCannotIncHoldCount := delegation_ErrCannotIncHoldCount.
Abbreviation ErrCannotDecHoldCount := delegation_ErrCannotDecHoldCount.
Abbreviation ErrDivisorIsZero := delegation_ErrDivisorIsZero.
Abbreviation ErrInsufficientShares := delegation_ErrInsufficientShares.
Abbreviation ErrOperatorAlreadyAssociated := delegation_ErrOperatorAlreadyAssociated.
Abbreviation ErrNoAssociatedOperatorByStaker := delegation_ErrNoAssociatedOperatorByStaker.
Abbreviation ErrClientChainNotExist := delegation_ErrClientChainNotExist.
Abbreviation ErrInvalidCompletionEpoch := delegation_ErrInvalidCompletionEpoch.
Abbreviation ErrEpochIdentifierNotExist := delegation_ErrEpochIdentifierNotExist.
Abbreviation ErrCannotIncUndelegationID := delegation_ErrCannotIncUndelegationID.
Abbreviation ErrInvalidInputParameter := delegation_ErrInvalidInputParameter.
Abbreviation ErrInvalidParams := delegation_ErrInvalidParams.
Abbreviation ErrInvalidGenesisData := delegation_ErrInvalidGenesisData.
Abbreviation ErrInvalidSigner := delegation_ErrInvalidSigner.
End delegationtypes.

Module epochstypes.
Abbreviation ErrInvalidGenesisData := epochs_ErrInvalidGenesisData.
Abbreviation ErrDuplicateEpochInfo := epochs_ErrDuplicateEpochInfo.
Abbreviation ErrEmptyIdentifier := epochs_ErrEmptyIdentifier.
Abbreviation ErrNullIdentifier := epochs_ErrNullIdentifier.
Abbreviation ErrNonPositiveDuration := epochs_ErrNonPositiveDuration.
Abbreviation ErrNegativeCurrentEpoch := epochs_ErrNegativeCurrentEpoch.
Abbreviation ErrNegativeStartHeight := epochs_ErrNegativeStartHeight.
Abbreviation ErrZeroEpochNumber := epochs_ErrZeroEpochNumber.
End epochstypes.

Module imminttypes.
Abbreviation ErrInvalidParams := immint_ErrInvalidParams.
Abbreviation ErrInvalidSigner := immint_ErrInvalidSigner.
Abbreviation ErrNegativeStartTime := immint_ErrNegativeStartTime.
Abbreviation ErrInvalidInflationRatio := immint_ErrInvalidInflationRatio.
Abbreviation ErrNilReward := immint_ErrNilReward.
Abbreviation ErrNegativeReward := immint_ErrNegativeReward.
Abbreviation ErrInvalidDenom := immint_ErrInvalidDenom.
End imminttypes.

Module operatortypes.
Abbreviation ErrNoKeyInTheStore := operator_ErrNoKeyInTheStore.
Abbreviation ErrSlashInfo := operator_ErrSlashInfo.
Abbreviation ErrSlashInfoExist := operator_ErrSlashInfoExist.
Abbreviation ErrParameterInvalid := operator_ErrParameterInvalid.
Abbreviation ErrAlreadyOptedIn := operator_ErrAlreadyOptedIn.
Abbreviation ErrNotOptedIn := operator_ErrNotOptedIn.
Abbreviation ErrSlashOccurredHeight := operator_ErrSlashOccurredHeight.
Abbreviation ErrConsKeyAlreadyInUse := operator_ErrConsKeyAlreadyInUse.
Abbreviation ErrAlreadyRemovingKey := operator_ErrAlreadyRemovingKey.
Abbreviation ErrInvalidPubKey := operator_ErrInvalidPubKey.
Abbreviation ErrInvalidGenesisData := operator_ErrInvalidGenesisData.
Abbreviation ErrOperatorAlreadyExists := operator_ErrOperatorAlreadyExists.
Abbreviation ErrUnknownChainID := operator_ErrUnknownChainID.
Abbreviation ErrOperatorNotRemovingKey := operator_ErrOperatorNotRemovingKey.
Abbreviation ErrInvalidSlashPower := operator_ErrInvalidSlashPower.
Abbreviation ErrValueIsNilOrZero := operator_ErrValueIsNilOrZero.
Abbreviation ErrKeyNotExistInMap := operator_ErrKeyNotExistInMap.
Abbreviation ErrNoSuchAvs := operator_ErrNoSuchAvs.
Abbreviation ErrMinDelegationNotMet := operator_ErrMinDelegationNotMet.
Abbreviation ErrFailToGetHistoricalVP := operator_ErrFailToGetHistoricalVP.
Abbreviation ErrFailToClearVPSnapshot := operator_ErrFailToClearVPSnapshot.
Abbreviation ErrIsJailed := operator_ErrIsJailed.
Abbreviation ErrIsOptedOutOrJailed := operator_ErrIsOptedOutOrJailed.
Abbreviation ErrOperatorNameAlreadyExists := operator_ErrOperatorNameAlreadyExists.
Abbreviation ErrNoSuchOperator := operator_ErrNoSuchOperator.
Abbreviation ErrOperatorFrozenStateMismatch := operator_ErrOperatorFrozenStateMismatch.
Abbreviation ErrOperatorIsFrozen := operator_ErrOperatorIsFrozen.
Abbreviation ErrInvalidSigner := operator_ErrInvalidSigner.
Abbreviation ErrInvalidKeyLength := operator_ErrInvalidKeyLength.
Abbreviation ErrMissingAddress := operator_ErrMissingAddress.
Abbreviation ErrExpirationOverflow := operator_ErrExpirationOverflow.
Abbreviation ErrEpochOrder := operator_ErrEpochOrder.
Abbreviation ErrNegativeDuration := operator_ErrNegativeDuration.
Abbreviation ErrNegativeDec := operator_ErrNegativeDec.
End operatortypes.

Module stakingtypes.
Abbreviation ErrCommissionLTMinRate := staking_ErrCommissionLTMinRate.
Abbreviation ErrCommissionUpdateTime := staking_ErrCommissionUpdateTime.
Abbreviation ErrCommissionNegative := staking_ErrCommissionNegative.
Abbreviation ErrCommissionGTMaxRate := staking_ErrCommissionGTMaxRate.
Abbreviation ErrCommissionGTMaxChangeRate := staking_ErrCommissionGTMaxChangeRate.
End stakingtypes.

Module dogfoodtypes.
Abbreviation ErrInvalidGenesisData := dogfood_ErrInvalidGenesisData.
Abbreviation ErrNotAVSByChainID := dogfood_ErrNotAVSByChainID.
Abbreviation ErrUpdateAVSInfo := dogfood_ErrUpdateAVSInfo.
Abbreviation ErrConsKeyAlreadyTombstoned := dogfood_ErrConsKeyAlreadyTombstoned.
Abbreviation ErrInvalidSigner := dogfood_ErrInvalidSigner.
Abbreviation ErrInvalidType := dogfood_ErrInvalidType.
Abbreviation ErrPackKey := dogfood_ErrPackKey.
Abbreviation ErrInvalidParam := dogfood_ErrInvalidParam.
End dogfoodtypes.

Module avstypes.
Abbreviation ErrNoKeyInTheStore := avs_ErrNoKeyInTheStore.
Abbreviation ErrAlreadyRegistered := avs_ErrAlreadyRegistered.
Abbreviation ErrUnregisterNonExistent := avs_ErrUnregisterNonExistent.
Abbreviation ErrInvalidAction := avs_ErrInvalidAction.
Abbreviation ErrCannotDeregister := avs_ErrCannotDeregister.
Abbreviation ErrEpochNotFound := avs_ErrEpochNotFound.
Abbreviation ErrCallerAddressUnauthorized := avs_ErrCallerAddressUnauthorized.
Abbreviation ErrAvsNameMismatch := avs_ErrAvsNameMismatch.
Abbreviation ErrNotYetRegistered := avs_ErrNotYetRegistered.
Abbreviation ErrNotNull := avs_ErrNotNull.
Abbreviation ErrInvalidAddr := avs_ErrInvalidAddr.
Abbreviation ErrAlreadyExists := avs_ErrAlreadyExists.
Abbreviation ErrTaskIsNotExists := avs_ErrTaskIsNotExists.
Abbreviation ErrHashValue := avs_ErrHashValue.
Abbreviation ErrPubKeyIsNotExists := avs_ErrPubKeyIsNotExists.
Abbreviation ErrSigVerifyError := avs_ErrSigVerifyError.
Abbreviation ErrParamError := avs_ErrParamError.
Abbreviation ErrParamNotEmptyError := avs_ErrParamNotEmptyError.
Abbreviation ErrSubmitTooLateError := avs_ErrSubmitTooLateError.
Abbreviation ErrResAlreadyExists := avs_ErrResAlreadyExists.
Abbreviation ErrInconsistentParams := avs_ErrInconsistentParams.
Abbreviation ErrVotingPowerIncorrect := avs_ErrVotingPowerIncorrect.
Abbreviation ErrSigNotMatchPubKey := avs_ErrSigNotMatchPubKey.
Abbreviation ErrParsePubKey := avs_ErrParsePubKey.
Abbreviation ErrInvalidAssetID := avs_ErrInvalidAssetID.
Abbreviation ErrSubmitTooSoonError := avs_ErrSubmitTooSoonError.
Abbreviation ErrNotFound := avs_ErrNotFound.
Abbreviation ErrNoOptedInOperators := avs_ErrNoOptedInOperators.
Abbreviation ErrNoTask := avs_ErrNoTask.
Abbreviation ErrTaskFinished := avs_ErrTaskFinished.
Abbreviation ErrNoOperatorsInTask := avs_ErrNoOperatorsInTask.
Abbreviation ErrNoAvs := avs_ErrNoAvs.
Abbreviation ErrParamsNotFound := avs_ErrParamsNotFound.
Abbreviation ErrGroupKey := avs_ErrGroupKey.
Abbreviation ErrInvalidGenesis := avs_ErrInvalidGenesis.
End avstypes.

Module oracletypes.
Abbreviation ErrGetPriceRoundNotFound := oracle_ErrGetPriceRoundNotFound.
Abbreviation ErrGetPriceAssetNotFound := oracle_ErrGetPriceAssetNotFound.
End oracletypes.
