(* ===== verification/Sdk.v ===== *)
(** * The libraries the modules call

    cosmos-sdk, cosmossdk.io/math and go-ethereum are not part of the
    repository.  What the modules use of them is the class [Sdk] (an argument
    of every definition that calls it), and what the theorems rely on is the
    class [SdkLaws], which states documented behaviour.  [RefSdk] is a concrete
    instance that satisfies the laws; the examples run on it.

    [sdkmath.Int] values are [Z]; a [sdkmath.LegacyDec] is the integer it holds,
    the number of units of 10^-18, so that comparison, addition, subtraction,
    negation and conversion from an integer are those of [Z].  The operations
    that round are methods of [Sdk].  The panics of the library at 256 (Int)
    and 315 (LegacyDec) bits are not modelled. *)

From S2P Require Import Prelude.

Abbreviation Int := Z (only parsing).
Abbreviation LegacyDec := Z (only parsing).

(** [LegacyPrecision]: one, in units of 10^-18 *)
Definition dec_one : LegacyDec := 10 ^ 18.
(** [LegacyNewDec], [LegacyNewDecFromBigInt], [NewDecFromInt] *)
Definition dec_of_int (i : Int) : LegacyDec := i * dec_one.

(** What the methods read of [sdk.Context] besides the stores: the header's
    time, in nanoseconds since the zero [time.Time] (1 January of year 1, UTC),
    and height. *)
Record Ctx := { BlockTime : Z; BlockHeight : Z }.

(** [time.Time.IsZero] *)
Definition Time_IsZero (t : Z) : bool := t =? 0.

Class Sdk := {
  (** ** cosmossdk.io/math *)
  dec_MulInt : LegacyDec → Int → LegacyDec;
  dec_Mul : LegacyDec → LegacyDec → LegacyDec;
  dec_Quo : LegacyDec → LegacyDec → LegacyDec;
  dec_QuoInt : LegacyDec → Int → LegacyDec;
  dec_TruncateInt : LegacyDec → Int;
  (** ** sdk.AccAddress *)
  AccAddress_String : string → string;
  AccAddressFromBech32 : string → option string;
  (** [sdk.GetConsAddress] of the ed25519 key with these bytes *)
  GetConsAddress : string → string;
  (** ** sdk.Uint64ToBigEndian, sdk.BigEndianToUint64 *)
  Uint64ToBigEndian : Z → string;
  BigEndianToUint64 : string → Z;
  (** ** go-ethereum hexutil and common *)
  hexutil_Encode : string → string;
  hexutil_Decode : string → option string;
  hexutil_EncodeUint64 : Z → string;
  hexutil_DecodeUint64 : string → option Z;
  FromHex : string → string;
  HexToHash : string → string;
  Hash_String : string → string;
  common_IsHexAddress : string → bool;
  HexToAddress : string → string;
  Address_Hex : string → string;
  (** ** sdk.ValidateDenom *)
  ValidateDenom : string → bool;
}.

(** Lower and upper value of a rounded division of nonnegative numbers. *)
Definition rounds (q a b : Z) : Prop := a / b ≤ q ≤ (a + b - 1) / b.

Definition is_u64 (n : Z) : Prop := 0 ≤ n < 2 ^ 64.
Definition valid_addr (a : string) : Prop := a ≠ EmptyString ∧ (String.length a ≤ 255)%nat.

Class SdkLaws (sdk : Sdk) : Prop := {
  (** the product with an integer is exact *)
  MulInt_exact d i : dec_MulInt d i = d * i;
  (** the quotient by an integer is truncated, as in [big.Int.Quo] *)
  QuoInt_trunc d i : i ≠ 0 → dec_QuoInt d i = Z.quot d i;
  (** [Mul] and [Quo] round the exact value to one of its two neighbours *)
  Mul_rounds a b : 0 ≤ a → 0 ≤ b → rounds (dec_Mul a b) (a * b) dec_one;
  Quo_rounds a b : 0 ≤ a → 0 < b → rounds (dec_Quo a b) (a * dec_one) b;
  TruncateInt_trunc d : dec_TruncateInt d = Z.quot d dec_one;
  bech32_roundtrip a : valid_addr a → AccAddressFromBech32 (AccAddress_String a) = Some a;
  bech32_empty : AccAddressFromBech32 EmptyString = None;
  bech32_charset a : no_char "/"%char (AccAddress_String a) = true;
  (** the length of a bech32 string is determined by that of the address *)
  bech32_length a b : String.length a = String.length b →
    String.length (AccAddress_String a) = String.length (AccAddress_String b);
  u64_length n : String.length (Uint64ToBigEndian n) = 8%nat;
  u64_roundtrip n : is_u64 n → BigEndianToUint64 (Uint64ToBigEndian n) = n;
  u64_sortable m n : is_u64 m → is_u64 n → m ≤ n →
    String.le (Uint64ToBigEndian m) (Uint64ToBigEndian n);
  hex_roundtrip b : hexutil_Decode (hexutil_Encode b) = Some b;
  hex_empty : hexutil_Decode EmptyString = None;
  hex_charset c b : c = "/"%char ∨ c = "_"%char → no_char c (hexutil_Encode b) = true;
  hex_u64_roundtrip n : is_u64 n → hexutil_DecodeUint64 (hexutil_EncodeUint64 n) = Some n;
  hex_u64_charset c n : c = "/"%char ∨ c = "_"%char → no_char c (hexutil_EncodeUint64 n) = true;
  hash_length s : String.length (HexToHash s) = 32%nat;
  hash_roundtrip h : String.length h = 32%nat → HexToHash (Hash_String h) = h;
  (** the string of a hash begins with 0x *)
  hash_prefix h : ∃ t, Hash_String h = "0x" +:+ t;
  FromHex_Encode b : FromHex (hexutil_Encode b) = b;
  address_length s : String.length (HexToAddress s) = 20%nat;
}.

(** The keepers of cosmos-sdk's x/bank that the modules call, on an abstract
    bank state [B]. *)
Class BankKeeper (B E : Type) := {
  bank_GetBalance : B → string → string → Int;
  bank_GetSupply : B → string → Int;
  (** account, module, denomination, amount *)
  bank_DelegateCoinsFromAccountToModule : string → string → string → Int → M B E unit;
  (** module, account, denomination, amount *)
  bank_UndelegateCoinsFromModuleToAccount : string → string → string → Int → M B E unit;
  bank_MintCoins : string → string → Int → M B E unit;
  (** sender module, recipient module, denomination, amount *)
  bank_SendCoinsFromModuleToModule : string → string → string → Int → M B E unit;
}.

#[export] Instance result_unit_eq_dec `{EqDecision E} : EqDecision (result E unit).
Proof. solve_decision. Defined.

(** What the modules rely on of it.  Minting adds to the supply of the
    denomination minted and to no other, and a call that fails adds nothing;
    a transfer leaves the supplies as they are and moves the amount. *)
Class BankLaws {B E} `{EqDecision E} (bk : BankKeeper B E) : Prop := {
  mint_supply m d a b r b' d' : bank_MintCoins m d a b = (r, b') →
    bank_GetSupply b' d' =
      bank_GetSupply b d' + (if decide (r = Ok tt ∧ d = d') then a else 0);
  send_supply m m' d a b r b' d' : bank_SendCoinsFromModuleToModule m m' d a b = (r, b') →
    bank_GetSupply b' d' = bank_GetSupply b d';
  delegate_balance acc m d a b u b' :
    bank_DelegateCoinsFromAccountToModule acc m d a b = (Ok u, b') →
    a ≤ bank_GetBalance b acc d ∧
    bank_GetBalance b' acc d = bank_GetBalance b acc d - a;
  undelegate_balance m acc d a b u b' :
    bank_UndelegateCoinsFromModuleToAccount m acc d a b = (Ok u, b') →
    bank_GetBalance b' acc d = bank_GetBalance b acc d + a;
}.

(** ** Facts about the rounding operations *)

Section Rounding.
Lemma rounds_le q a b k : 0 < b → rounds q a b → a ≤ k * b → q ≤ k.
Proof.
  intros Hb [_ Hq] Ha. transitivity ((a + b - 1) / b); [done|].
  apply Z.lt_succ_r, Z.div_lt_upper_bound; lia.
Qed.

Lemma rounds_ge q a b k : 0 < b → rounds q a b → k * b ≤ a → k ≤ q.
Proof.
  intros Hb [Hq _] Ha. transitivity (a / b); [|done].
  apply Z.div_le_lower_bound; lia.
Qed.

Lemma rounds_exact q a b k : 0 < b → rounds q a b → a = k * b → q = k.
Proof.
  intros Hb Hr Ha. pose proof (rounds_le q a b k Hb Hr).
  pose proof (rounds_ge q a b k Hb Hr). lia.
Qed.

Lemma rounds_nonneg q a b : 0 ≤ a → 0 < b → rounds q a b → 0 ≤ q.
Proof. intros Ha Hb Hr. apply (rounds_ge q a b 0 Hb Hr). lia. Qed.

Lemma dec_one_pos : 0 < dec_one.
Proof. reflexivity. Qed.

Lemma trunc_pos `{SdkLaws} d : 0 ≤ d → dec_TruncateInt d = d / dec_one.
Proof.
  intros Hd. rewrite TruncateInt_trunc.
  apply Z.quot_div_nonneg; [done|apply dec_one_pos].
Qed.
End Rounding.
