(* ===== verification/RefSdk.v ===== *)
(** * A concrete instance of the library interface

    [RefSdk] computes what the library documents (18-digit fixed point with
    banker's rounding, lower-case hex, big-endian integers) except for bech32,
    for which a readable stand-in with the same laws is used.  It is the
    instance on which the examples of the other files run, and shows that
    [SdkLaws] can hold.  [RefBank] does the same for [BankKeeper]. *)

From S2P Require Import Prelude Errors Sdk.

(** ** Decimals *)

(** [chopPrecisionAndRound]: drop 18 digits, half to even. *)
Definition chop_round_pos (d : Z) : Z :=
  let q := d / dec_one in
  let r := d mod dec_one in
  if 2 * r <? dec_one then q
  else if dec_one <? 2 * r then q + 1
  else if Z.even q then q else q + 1.

Definition chop_round (d : Z) : Z :=
  if d <? 0 then - chop_round_pos (- d) else chop_round_pos d.

Lemma chop_round_near d : 0 ≤ d → rounds (chop_round d) d dec_one.
Proof.
  intros Hd. unfold chop_round. destruct (Z.ltb_spec d 0); [lia|].
  unfold rounds, chop_round_pos.
  pose proof (Z.div_mod d dec_one ltac:(done)) as Hdm.
  pose proof (Z.mod_pos_bound d dec_one dec_one_pos) as Hr.
  set (q := d / dec_one) in *. set (r := d mod dec_one) in *.
  assert (Hceil : 0 < r → q + 1 ≤ (d + dec_one - 1) / dec_one).
  { intros. apply Z.div_le_lower_bound; [done|lia]. }
  assert (Hq : q ≤ (d + dec_one - 1) / dec_one).
  { apply Z.div_le_lower_bound; [done|]. unfold dec_one in *. lia. }
  destruct (Z.ltb_spec (2 * r) dec_one); [lia|].
  unfold dec_one in Hr. assert (0 < r) by (unfold dec_one in *; lia).
  destruct (dec_one <? 2 * r); [lia|]. destruct (Z.even q); lia.
Qed.

Lemma ref_quo_near a b :
  0 ≤ a → 0 < b → rounds (chop_round (a * dec_one * dec_one / b)) (a * dec_one) b.
Proof.
  intros Ha Hb. pose proof dec_one_pos as HP.
  set (t := a * dec_one * dec_one / b).
  assert (0 ≤ t) by (apply Z.div_pos; nia).
  pose proof (chop_round_near t ltac:(done)) as Hc. split.
  - apply (rounds_ge _ _ _ _ HP Hc).
    apply Z.div_le_lower_bound; [done|].
    pose proof (Z.mul_div_le (a * dec_one) b Hb). nia.
  - apply (rounds_le _ _ _ _ HP Hc).
    apply Z.lt_succ_r, Z.div_lt_upper_bound; [done|].
    set (k := (a * dec_one + b - 1) / b).
    assert (a * dec_one ≤ k * b).
    { pose proof (Z.div_mod (a * dec_one + b - 1) b ltac:(lia)).
      pose proof (Z.mod_pos_bound (a * dec_one + b - 1) b Hb). fold k in H0. lia. }
    nia.
Qed.

(** ** Hexadecimal *)

Definition hex_char (d : Z) : ascii :=
  match d with
  | 0 => "0" | 1 => "1" | 2 => "2" | 3 => "3" | 4 => "4" | 5 => "5" | 6 => "6" | 7 => "7"
  | 8 => "8" | 9 => "9" | 10 => "a" | 11 => "b" | 12 => "c" | 13 => "d" | 14 => "e"
  | _ => "f"
  end%char.

Definition hex_value (c : ascii) : Z :=
  match c with
  | "0" => 0 | "1" => 1 | "2" => 2 | "3" => 3 | "4" => 4 | "5" => 5 | "6" => 6 | "7" => 7
  | "8" => 8 | "9" => 9 | "a" => 10 | "b" => 11 | "c" => 12 | "d" => 13 | "e" => 14
  | "f" => 15 | _ => -1
  end%char.

Definition byte_value (c : ascii) : Z := Z.of_N (Ascii.N_of_ascii c).
Definition byte_char (d : Z) : ascii := Ascii.ascii_of_N (Z.to_N d).

Fixpoint hex_bytes (s : string) : string :=
  match s with
  | EmptyString => EmptyString
  | String c s => String (hex_char (byte_value c / 16))
                    (String (hex_char (byte_value c mod 16)) (hex_bytes s))
  end.

Fixpoint unhex_bytes (s : string) : option string :=
  match s with
  | EmptyString => Some EmptyString
  | String h (String l s) =>
      if (hex_value h <? 0) || (hex_value l <? 0) then None
      else String (byte_char (hex_value h * 16 + hex_value l)) <$> unhex_bytes s
  | _ => None
  end.

Fixpoint strip_zeros (s : string) : string :=
  match s with
  | String "0" (String _ _ as s') => strip_zeros s'
  | _ => s
  end%char.

Definition ref_EncodeUint64 (n : Z) : string :=
  "0x" +:+ strip_zeros (digits 16 hex_char 16 n).

Fixpoint all_hex (s : string) : bool :=
  match s with
  | EmptyString => true
  | String c s => (0 <=? hex_value c) && all_hex s
  end.

Definition ref_DecodeUint64 (s : string) : option Z :=
  match s with
  | String "0" (String "x" (String _ _ as s)) =>
      if all_hex s then Some (undigits 16 hex_value 0 s) else None
  | _ => None
  end%char.

Definition ref_Decode (s : string) : option string :=
  match s with
  | String "0" (String "x" s) => unhex_bytes s
  | _ => None
  end%char.

Definition ref_FromBech32 (s : string) : option string :=
  match s with
  | String "i" (String "m" (String "1" s)) =>
      match unhex_bytes s with Some EmptyString => None | r => r end
  | _ => None
  end%char.

Fixpoint last_bytes (n : nat) (s : string) : string :=
  match s with
  | EmptyString => digits 256 byte_char n 0
  | String c s' => if (n <=? String.length s')%nat then last_bytes n s'
                   else digits 256 byte_char (n - String.length s) 0 +:+ s
  end.

(** [[a-zA-Z][a-zA-Z0-9/:._-]{2,127}] *)
Definition in_range (lo hi c : ascii) : bool :=
  ((Ascii.N_of_ascii lo <=? Ascii.N_of_ascii c) && (Ascii.N_of_ascii c <=? Ascii.N_of_ascii hi))%N.
Definition is_letter (c : ascii) : bool := in_range "a" "z" c || in_range "A" "Z" c.
Fixpoint denom_tail (s : string) : bool :=
  match s with
  | EmptyString => true
  | String c s =>
      (is_letter c || in_range "0" "9" c ||
       existsb (Ascii.eqb c) ["/"; ":"; "."; "_"; "-"]%char) && denom_tail s
  end.
Definition ref_ValidateDenom (s : string) : bool :=
  match s with
  | EmptyString => false
  | String c s' => is_letter c && denom_tail s' &&
      (2 <=? String.length s')%nat && (String.length s' <=? 127)%nat
  end.

#[export] Instance RefSdk : Sdk := {|
  dec_MulInt d i := d * i;
  dec_Mul a b := chop_round (a * b);
  dec_Quo a b := chop_round (Z.quot (a * dec_one * dec_one) b);
  dec_QuoInt d i := Z.quot d i;
  dec_TruncateInt d := Z.quot d dec_one;
  AccAddress_String a := "im1" +:+ hex_bytes a;
  AccAddressFromBech32 := ref_FromBech32;
  GetConsAddress k := last_bytes 20 k;
  Uint64ToBigEndian := digits 256 byte_char 8;
  BigEndianToUint64 := undigits 256 byte_value 0;
  hexutil_Encode b := "0x" +:+ hex_bytes b;
  hexutil_Decode := ref_Decode;
  hexutil_EncodeUint64 := ref_EncodeUint64;
  hexutil_DecodeUint64 := ref_DecodeUint64;
  FromHex s := default EmptyString (ref_Decode s);
  HexToHash s := last_bytes 32 (default EmptyString (ref_Decode s));
  Hash_String h := "0x" +:+ hex_bytes h;
  common_IsHexAddress s :=
    bool_decide (String.length s = 42%nat) && bool_decide (is_Some (ref_Decode s));
  HexToAddress s := last_bytes 20 (default EmptyString (ref_Decode s));
  Address_Hex a := "0x" +:+ hex_bytes a;
  ValidateDenom := ref_ValidateDenom;
|}.

Lemma hex_char_value d : 0 ≤ d < 16 → hex_value (hex_char d) = d.
Proof.
  intros Hd. assert (Hall : Forall (λ d, hex_value (hex_char d) = d) (seqZ 0 16))
    by (vm_compute; repeat constructor).
  rewrite Forall_forall in Hall. apply Hall, elem_of_seqZ. lia.
Qed.

Lemma byte_char_value d : 0 ≤ d < 256 → byte_value (byte_char d) = d.
Proof.
  intros. unfold byte_value, byte_char. rewrite Ascii.N_ascii_embedding by lia. lia.
Qed.

Lemma byte_value_char c : byte_char (byte_value c) = c.
Proof. unfold byte_value, byte_char. by rewrite N2Z.id, Ascii.ascii_N_embedding. Qed.

Lemma byte_value_bound c : 0 ≤ byte_value c < 256.
Proof. unfold byte_value. pose proof (Ascii.N_ascii_bounded c). lia. Qed.

Lemma unhex_hex s : unhex_bytes (hex_bytes s) = Some s.
Proof.
  induction s as [|c s IH]; [done|]. cbn [hex_bytes unhex_bytes].
  pose proof (byte_value_bound c).
  assert (0 ≤ byte_value c / 16 < 16)
    by (split; [apply Z.div_pos; lia|apply Z.div_lt_upper_bound; lia]).
  pose proof (Z.mod_pos_bound (byte_value c) 16 ltac:(lia)).
  rewrite !hex_char_value by done.
  rewrite (proj2 (Z.ltb_ge _ _)), (proj2 (Z.ltb_ge _ _)) by lia. cbn.
  rewrite IH. cbn. f_equal. f_equal. rewrite Z.mul_comm, <-Z.div_mod by lia.
  apply byte_value_char.
Qed.

Lemma hex_char_free c d : c = "/"%char ∨ c = "_"%char → hex_char d ≠ c.
Proof. unfold hex_char. intros [-> | ->]; repeat case_match; done. Qed.

Lemma hex_bytes_free c s : c = "/"%char ∨ c = "_"%char → no_char c (hex_bytes s) = true.
Proof.
  intros Hc. induction s as [|d s IH]; [done|]. cbn [hex_bytes no_char].
  rewrite IH, andb_true_r, andb_true_iff, !negb_true_iff, !Ascii.eqb_neq.
  split; apply not_eq_sym, hex_char_free, Hc.
Qed.

Lemma strip_zeros_free c s : no_char c s = true → no_char c (strip_zeros s) = true.
Proof.
  induction s as [|d s IH]; [done|]. cbn [no_char].
  intros [Hd Hs]%andb_true_iff. cbn [strip_zeros].
  repeat case_match; cbn [no_char]; rewrite ?andb_true_iff; auto.
Qed.

Lemma strip_zeros_value s : undigits 16 hex_value 0 (strip_zeros s) = undigits 16 hex_value 0 s.
Proof.
  induction s as [|d s IH]; [done|]. cbn [strip_zeros].
  repeat case_match; subst; try done.
Qed.

Lemma strip_zeros_hex s : all_hex s = true → all_hex (strip_zeros s) = true.
Proof.
  induction s as [|d s IH]; [done|]. cbn [all_hex].
  intros [Hd Hs]%andb_true_iff. cbn [strip_zeros].
  repeat case_match; subst; cbn [all_hex]; rewrite ?andb_true_iff; auto.
Qed.

Lemma strip_zeros_nonempty s : s ≠ EmptyString → strip_zeros s ≠ EmptyString.
Proof.
  induction s as [|d s IH]; [done|]. intros _. cbn [strip_zeros].
  repeat case_match; subst; try done. by apply IH.
Qed.

Lemma all_hex_digits n z : all_hex (digits 16 hex_char n z) = true.
Proof.
  induction n as [|n IH]; [done|]. cbn [digits all_hex].
  rewrite IH, andb_true_r, Z.leb_le, hex_char_value; apply Z.mod_pos_bound; lia.
Qed.

Lemma length_last_bytes n s : String.length (last_bytes n s) = n.
Proof.
  induction s as [|c s IH]; cbn [last_bytes]; [apply length_digits|].
  destruct (Nat.leb_spec n (String.length s)); [done|].
  rewrite length_app_str, length_digits. cbn in *. lia.
Qed.

Lemma last_bytes_id n s : String.length s = n → last_bytes n s = s.
Proof.
  intros <-. destruct s as [|c s]; [done|]. cbn [last_bytes String.length].
  rewrite (proj2 (Nat.leb_gt _ _)), Nat.sub_diag by lia. done.
Qed.

Lemma length_hex_bytes s : String.length (hex_bytes s) = (2 * String.length s)%nat.
Proof. induction s as [|c s IH]; [done|]. cbn. rewrite IH. lia. Qed.

#[export] Instance RefSdkLaws : SdkLaws RefSdk.
Proof.
  split; cbn -[digits undigits last_bytes chop_round hex_bytes ref_EncodeUint64].
  - done.
  - done.
  - intros. apply chop_round_near. lia.
  - intros a b Ha Hb. rewrite Z.quot_div_nonneg; [by apply ref_quo_near| |done].
    pose proof dec_one_pos. nia.
  - done.
  - intros a [Ha _]. rewrite !app_cons, app_empty_l. cbn [ref_FromBech32].
    rewrite unhex_hex. by destruct a.
  - done.
  - intros a. rewrite !app_cons, app_empty_l. cbn [no_char].
    rewrite hex_bytes_free by auto. done.
  - intros a b Hab. rewrite !length_app_str, !length_hex_bytes. by rewrite Hab.
  - intros n. apply length_digits.
  - intros n Hn. apply undigits_digits; [lia|apply byte_char_value|].
    unfold is_u64 in Hn. change (256 ^ Z.of_nat 8) with (2 ^ 64). done.
  - intros m n [Hm _] [_ Hn] Hmn. apply digits_sorted; [lia| |lia|done].
    intros d e Hd He. unfold Ascii.compare, byte_char.
    rewrite !Ascii.N_ascii_embedding by lia. apply N.compare_lt_iff. lia.
  - intros b. rewrite !app_cons, app_empty_l. apply unhex_hex.
  - done.
  - intros c b Hc. rewrite !app_cons, app_empty_l. cbn [no_char]. rewrite hex_bytes_free by done. by destruct Hc as [-> | ->].
  - intros n Hn. unfold ref_EncodeUint64. rewrite !app_cons, app_empty_l.
    pose proof (strip_zeros_nonempty (digits 16 hex_char 16 n) ltac:(done)) as Hne.
    pose proof (strip_zeros_hex _ (all_hex_digits 16 n)) as Hall.
    pose proof (strip_zeros_value (digits 16 hex_char 16 n)) as Hval.
    destruct (strip_zeros _) as [|c s]; [done|]. cbn [ref_DecodeUint64].
    rewrite Hall, Hval.
    f_equal. apply undigits_digits; [lia|apply hex_char_value|exact Hn].
  - intros c n Hc. unfold ref_EncodeUint64.
    rewrite !app_cons, app_empty_l. cbn [no_char].
    rewrite strip_zeros_free by (apply no_char_digits; intros; by apply hex_char_free).
    by destruct Hc as [-> | ->].
  - intros s. apply length_last_bytes.
  - intros h Hh. rewrite !app_cons, app_empty_l. cbn [ref_Decode].
    rewrite unhex_hex. by apply last_bytes_id.
  - intros h. by exists (hex_bytes h).
  - intros b. rewrite !app_cons, app_empty_l. cbn [ref_Decode]. by rewrite unhex_hex.
  - intros s. apply length_last_bytes.
Qed.

(** ** A bank *)

Record refbank := {
  (** balances of accounts and of module accounts, per denomination *)
  rb_accounts : gmap (string * string) Z;
  rb_modules : gmap (string * string) Z;
  rb_supply : gmap string Z;
}.

Definition bal `{Countable K} (m : gmap K Z) (k : K) : Z := default 0 (m !! k).
Definition add_bal `{Countable K} (k : K) (a : Z) (m : gmap K Z) : gmap K Z :=
  <[k := bal m k + a]> m.

Lemma bal_add `{Countable K} (k k' : K) a m :
  bal (add_bal k a m) k' = bal m k' + (if decide (k = k') then a else 0).
Proof.
  unfold bal, add_bal. case_decide as Hk; subst.
  - by rewrite lookup_insert_eq.
  - rewrite lookup_insert_ne by done. lia.
Qed.

#[export] Instance RefBank : BankKeeper refbank error := {|
  bank_GetBalance b acc d := bal (rb_accounts b) (acc, d);
  bank_GetSupply b d := bal (rb_supply b) d;
  bank_DelegateCoinsFromAccountToModule acc m d a b :=
    if bal (rb_accounts b) (acc, d) <? a then (Err ErrLibrary, b)
    else (Ok tt, {| rb_accounts := add_bal (acc, d) (- a) (rb_accounts b);
                    rb_modules := add_bal (m, d) a (rb_modules b);
                    rb_supply := rb_supply b |});
  bank_UndelegateCoinsFromModuleToAccount m acc d a b :=
    if bal (rb_modules b) (m, d) <? a then (Err ErrLibrary, b)
    else (Ok tt, {| rb_accounts := add_bal (acc, d) a (rb_accounts b);
                    rb_modules := add_bal (m, d) (- a) (rb_modules b);
                    rb_supply := rb_supply b |});
  bank_MintCoins m d a b :=
    (Ok tt, {| rb_accounts := rb_accounts b; rb_modules := add_bal (m, d) a (rb_modules b);
               rb_supply := add_bal d a (rb_supply b) |});
  bank_SendCoinsFromModuleToModule m m' d a b :=
    if bal (rb_modules b) (m, d) <? a then (Err ErrLibrary, b)
    else (Ok tt, {| rb_accounts := rb_accounts b;
                    rb_modules := add_bal (m', d) a (add_bal (m, d) (- a) (rb_modules b));
                    rb_supply := rb_supply b |});
|}.

#[export] Instance RefBankLaws : BankLaws RefBank.
Proof.
  split; cbn; intros *.
  - intros [= <- <-]. cbn. rewrite bal_add.
    destruct (decide (d = d')); [rewrite decide_True by done|rewrite decide_False by naive_solver]; lia.
  - case_match; intros [= <- <-]; done.
  - case_match; intros; simplify_eq/=. rewrite bal_add, decide_True by done. lia.
  - case_match; intros; simplify_eq/=. rewrite bal_add, decide_True by done. lia.
Qed.
