(* ===== verification/KVStore.v ===== *)
(** * Store keys and ordered iteration (utils/utils.go, utils/store.go)

    A module's store is a map from byte strings, one map per key prefix of the
    module (the one-byte prefixes are distinct, so the sub-stores are
    disjoint).  [prefix_iterator] is [sdk.KVStorePrefixIterator]: the entries
    whose key has the given prefix, in ascending byte order of the keys. *)

From S2P Require Import Prelude Sdk Errors.

(** ** Keys *)

(** [DelimiterForCombinedKey] and [DelimiterForID] *)
Definition DelimiterForCombinedKey : ascii := "/"%char.
Definition DelimiterForID : ascii := "_"%char.

Definition GetJoinedStoreKey (keys : list string) : string :=
  join_with (String DelimiterForCombinedKey EmptyString) keys.

#[global] Arguments GetJoinedStoreKey : simpl never.

Definition GetJoinedStoreKeyForPrefix (keys : list string) : string :=
  GetJoinedStoreKey keys +:+ String DelimiterForCombinedKey EmptyString.

Definition ParseJoinedKey (key : string) : list string :=
  split_on DelimiterForCombinedKey key.

Definition IsJoinedStoreKey (key : string) : bool :=
  negb (no_char DelimiterForCombinedKey key).

Definition ParseJoinedKeyWithCount (key : string) (number : nat) : result error (list string) :=
  let stringList := ParseJoinedKey key in
  if negb (length stringList =? number)%nat then Err ErrParseJoinedKey
  else Ok stringList.

Fixpoint AppendMany (byteses : list string) : string :=
  match byteses with
  | [] => EmptyString
  | b :: bs => b +:+ AppendMany bs
  end.

(** [binary.BigEndian.PutUint32] / [Uint32] *)
Definition Uint32ToBigEndian (i : Z) : string :=
  digits 256 (λ d, Ascii.ascii_of_N (Z.to_N d)) 4 i.

Definition BigEndianToUint32 (bz : string) : Z :=
  if decide (bz = EmptyString) then 0
  else undigits 256 (λ c, Z.of_N (Ascii.N_of_ascii c)) 0 bz.

(** A part of a joined key: no delimiter in it. *)
Definition key_part (s : string) : Prop := no_char DelimiterForCombinedKey s = true.

#[export] Instance key_part_dec s : Decision (key_part s).
Proof. unfold key_part. apply _. Defined.

Lemma ParseJoinedKey_join (keys : list string) :
  keys ≠ [] → Forall key_part keys → ParseJoinedKey (GetJoinedStoreKey keys) = keys.
Proof. apply split_join. Qed.

Lemma parse_count_join (keys : list string) :
  keys ≠ [] → Forall key_part keys →
  ParseJoinedKeyWithCount (GetJoinedStoreKey keys) (length keys) = Ok keys.
Proof.
  intros. unfold ParseJoinedKeyWithCount.
  rewrite ParseJoinedKey_join by done. by rewrite Nat.eqb_refl.
Qed.

Lemma parse_count2 a b :
  key_part a → key_part b → ParseJoinedKeyWithCount (GetJoinedStoreKey [a; b]) 2 = Ok [a; b].
Proof. intros. apply (parse_count_join [a; b]); [done|by repeat constructor]. Qed.

Lemma parse_count3 a b c :
  key_part a → key_part b → key_part c →
  ParseJoinedKeyWithCount (GetJoinedStoreKey [a; b; c]) 3 = Ok [a; b; c].
Proof. intros. apply (parse_count_join [a; b; c]); [done|by repeat constructor]. Qed.

Lemma join2_inj a b a' b' :
  key_part a → key_part b → key_part a' → key_part b' →
  GetJoinedStoreKey [a; b] = GetJoinedStoreKey [a'; b'] → a = a' ∧ b = b'.
Proof.
  intros ???? Heq. apply join_inj in Heq; [|done..|by repeat constructor|by repeat constructor].
  by simplify_eq.
Qed.

Lemma join3_inj a b c a' b' c' :
  key_part a → key_part b → key_part c → key_part a' → key_part b' → key_part c' →
  GetJoinedStoreKey [a; b; c] = GetJoinedStoreKey [a'; b'; c'] → a = a' ∧ b = b' ∧ c = c'.
Proof.
  intros ?????? Heq. apply join_inj in Heq; [|done..|by repeat constructor|by repeat constructor].
  by simplify_eq.
Qed.

(** ** Ordered iteration *)

Section Iterator.
Context {V : Type}.
Implicit Types m : gmap string V.

Definition key_le : relation (string * V) := λ a b, String.le a.1 b.1.

#[global] Instance key_le_dec : RelDecision key_le.
Proof. intros a b. unfold key_le. apply _. Defined.
#[global] Instance key_le_trans : Transitive key_le.
Proof. intros a b c. unfold key_le. apply transitivity. Qed.
#[global] Instance key_le_total : Total key_le.
Proof. intros a b. unfold key_le. apply total, _. Qed.

Definition prefix_iterator (pfx : string) m : list (string * V) :=
  merge_sort key_le (filter (λ kv, has_prefix pfx kv.1 = true) (map_to_list m)).

Lemma elem_of_prefix_iterator pfx m k v :
  (k, v) ∈ prefix_iterator pfx m ↔ m !! k = Some v ∧ has_prefix pfx k = true.
Proof.
  unfold prefix_iterator. rewrite merge_sort_Permutation.
  rewrite list_elem_of_filter, elem_of_map_to_list. naive_solver.
Qed.

Lemma prefix_iterator_perm pfx m :
  prefix_iterator pfx m ≡ₚ filter (λ kv, has_prefix pfx kv.1 = true) (map_to_list m).
Proof. apply merge_sort_Permutation. Qed.

Lemma prefix_iterator_NoDup_keys pfx m : NoDup (prefix_iterator pfx m).*1.
Proof.
  rewrite prefix_iterator_perm. apply NoDup_fmap_fst.
  - intros k v1 v2. rewrite !list_elem_of_filter, !elem_of_map_to_list. naive_solver.
  - apply NoDup_filter, NoDup_map_to_list.
Qed.

Lemma prefix_iterator_sorted pfx m : StronglySorted key_le (prefix_iterator pfx m).
Proof. apply StronglySorted_merge_sort; apply _. Qed.

(** The whole store. *)
Lemma elem_of_iterator_all m k v : (k, v) ∈ prefix_iterator EmptyString m ↔ m !! k = Some v.
Proof. rewrite elem_of_prefix_iterator. split; [by intros []|]. split; [done|]. by destruct k. Qed.

(** A sorted list of the entries is what the iterator gives. *)
Lemma iterator_unique pfx m l :
  StronglySorted key_le l → NoDup l.*1 →
  (∀ k v, (k, v) ∈ l ↔ m !! k = Some v ∧ has_prefix pfx k = true) → prefix_iterator pfx m = l.
Proof.
  intros Hs Hnd Hl. apply (StronglySorted_unique_strong key_le).
  - intros [k1 v1] [k2 v2] [H1 _]%elem_of_prefix_iterator [H2 _]%Hl Hle Hge.
    assert (k1 = k2) as -> by (by apply (anti_symm String.le)). by rewrite H1 in H2; injection H2 as ->.
  - apply prefix_iterator_sorted.
  - done.
  - apply NoDup_Permutation; [eapply NoDup_fmap_1, prefix_iterator_NoDup_keys|by eapply NoDup_fmap_1|].
    intros [k v]. by rewrite elem_of_prefix_iterator, Hl.
Qed.

(** The order of a list of entries is that of its keys. *)
Lemma key_sorted l : StronglySorted key_le l ↔ StronglySorted String.le l.*1.
Proof.
  induction l as [|[k v] l IH]; cbn; [split; constructor|].
  rewrite !StronglySorted_cons, Forall_fmap, IH. done.
Qed.

Lemma key_sorted_filter (P : string * V → Prop) `{!∀ kv, Decision (P kv)} l :
  StronglySorted key_le l → StronglySorted key_le (filter P l).
Proof.
  induction l as [|kv l IH]; [done|]. rewrite StronglySorted_cons. intros [Hall Hs].
  rewrite filter_cons. case_decide; [|by apply IH]. apply StronglySorted_cons.
  split; [|by apply IH]. rewrite Forall_forall in *. intros x [_ Hx]%list_elem_of_filter. by apply Hall.
Qed.

(** Writing back what the iterator of the whole store gives rebuilds it. *)
Lemma list_to_map_iterator m : list_to_map (prefix_iterator EmptyString m) = m.
Proof.
  apply map_eq. intros k. apply option_eq. intros v.
  rewrite <-elem_of_list_to_map by apply prefix_iterator_NoDup_keys.
  apply elem_of_iterator_all.
Qed.
End Iterator.

(** ** Writing a list of entries *)

Definition insert_all {V} (l : list (string * V)) (m : gmap string V) : gmap string V :=
  foldl (λ m kv, <[kv.1 := kv.2]> m) m l.

Lemma insert_all_union {V} (l : list (string * V)) m :
  NoDup l.*1 → insert_all l m = list_to_map l ∪ m.
Proof.
  revert m. induction l as [|[k v] l IH]; intros m Hnd; cbn.
  { by rewrite map_empty_union. }
  apply NoDup_cons in Hnd as [Hnin Hnd]. unfold insert_all in IH. rewrite IH by done.
  rewrite <-insert_union_r by (by apply not_elem_of_list_to_map). by rewrite insert_union_l.
Qed.

(** Writing back what the iterator gives into an empty store rebuilds it. *)
Lemma insert_all_iterator {V} (m : gmap string V) :
  insert_all (prefix_iterator EmptyString m) ∅ = m.
Proof.
  rewrite insert_all_union by apply prefix_iterator_NoDup_keys.
  by rewrite list_to_map_iterator, map_union_empty.
Qed.

(** Deleting the keys of an iterator. *)
Lemma delete_entries_lookup {V} (entries : list (string * V)) (m : gmap string V) k :
  foldl (λ m kv, delete kv.1 m) m entries !! k =
  if decide (k ∈ entries.*1) then None else m !! k.
Proof.
  revert m. induction entries as [|[k' v] entries IH]; intros m; cbn.
  { by rewrite decide_False by apply not_elem_of_nil. }
  rewrite IH. destruct (decide (k ∈ entries.*1)); [by rewrite decide_True by set_solver|].
  destruct (decide (k = k')) as [->|]; [rewrite decide_True by set_solver; apply lookup_delete_eq|].
  rewrite decide_False by set_solver. by rewrite lookup_delete_ne.
Qed.

(** ** A pass over the entries under a prefix *)

Lemma iterator_keys {V} pfx (m : gmap string V) k v :
  m !! k = Some v → k ∈ (prefix_iterator pfx m).*1 ↔ has_prefix pfx k = true.
Proof.
  intros Hv. rewrite list_elem_of_fmap. split.
  - intros ([k' v'] & -> & [_ ?]%elem_of_prefix_iterator). done.
  - intros Hp. exists (k, v). split; [done|]. by apply elem_of_prefix_iterator.
Qed.

(** The new values of the selected entries are written back: an entry that is not
    selected stays as it is. *)
Lemma insert_all_related {V} (R : V → V → Prop) (sel : string → V → bool)
    (l : list (string * V)) (m : gmap string V) k :
  NoDup l.*1 → (∀ j v', (j, v') ∈ l → ∃ v, m !! j = Some v ∧ R v v') →
  (∀ j v, m !! j = Some v → j ∈ l.*1 ↔ sel j v = true) →
  option_Forall2 (λ v v', if sel k v then R v v' else v' = v) (m !! k) (insert_all l m !! k).
Proof.
  intros Hnd Hl Hsel. rewrite insert_all_union by done. rewrite lookup_union.
  destruct (decide (k ∈ l.*1)) as [Hk|Hk].
  - pose proof Hk as ([k' v'] & -> & Hin)%list_elem_of_fmap. cbn in *.
    destruct (Hl _ _ Hin) as (v & Hv & HR). apply elem_of_list_to_map in Hin as ->; [|done].
    rewrite Hv. cbn. constructor. by rewrite (proj1 (Hsel _ _ Hv) Hk).
  - rewrite (not_elem_of_list_to_map_1 l k Hk), (left_id_L None _).
    destruct (m !! k) as [v|] eqn:Hv; constructor. destruct (sel k v) eqn:Hs; [|done].
    by apply (Hsel _ _ Hv) in Hs.
Qed.

(** ** Validation of genesis lists (utils/utils.go) *)

(** The elements are distinct in the field [seenFieldValue] and each of them
    passes [validation]; the values of the fields are returned. *)
Fixpoint common_validation {T D E} (dup : E) (seenFieldValue : T → string * D)
    (validation : nat → T → result E unit) (slice : list T) (i : nat) (seen : gmap string D)
    : result E (gmap string D) :=
  match slice with
  | [] => Ok seen
  | v :: slice =>
      let '(field, value) := seenFieldValue v in
      if bool_decide (is_Some (seen !! field)) then Err dup
      else
        _ ← validation i v;
        common_validation dup seenFieldValue validation slice (S i) (<[field := value]> seen)
  end.

Lemma common_validation_all {T D E} (dup : E) (sfv : T → string * D) validation slice i seen r :
  common_validation dup sfv validation slice i seen = Ok r →
  ∀ v, v ∈ slice → ∃ j, validation j v = Ok tt.
Proof.
  revert i seen. induction slice as [|v slice IH]; intros i seen; cbn [common_validation].
  { by intros _ v ?%not_elem_of_nil. }
  destruct (sfv v) as [field value]. case_bool_decide; [done|].
  destruct (validation i v) as [[]| |] eqn:Hv; [|done..]. cbn. intros Hr v' [->|Hin]%elem_of_cons.
  - eauto.
  - by eapply IH.
Qed.
