(* ===== verification/Epochs.v ===== *)
(** * The epochs module (x/epochs)

    Named timers that the other modules subscribe to.  The store maps an
    identifier to its [EpochInfo]; [BeginBlocker] ticks each timer at most once
    per block and calls the registered hooks.  Times are nanoseconds since the
    zero [time.Time], durations are nanoseconds, epoch numbers are [int64].

    A hook runs against the store of its own module, reads the epoch store and
    cannot write it (the only writer outside this module would be
    [AddEpochInfo], which is called at genesis only); it returns nothing but can
    panic. *)

From S2P Require Import Prelude Sdk Errors KVStore.

(** ** Data *)

Record EpochInfo := {
  ei_Identifier : string;
  ei_StartTime : Z;
  ei_Duration : Z;
  ei_CurrentEpoch : Z;
  ei_CurrentEpochStartTime : Z;
  ei_EpochCountingStarted : bool;
  ei_CurrentEpochStartHeight : Z;
}.

Record Epoch := { ep_EpochNumber : Z; ep_EpochIdentifier : string }.

#[export] Instance EpochInfo_eq_dec : EqDecision EpochInfo.
Proof. solve_decision. Defined.

(** The store under [KeyPrefixEpoch]. *)
Abbreviation EpochsState := (gmap string EpochInfo).

(** ** Validation (types/identifier.go, types/genesis.go) *)

Definition DayEpochID : string := "day".
Definition HourEpochID : string := "hour".
Definition MinuteEpochID : string := "minute".
Definition WeekEpochID : string := "week".
Definition NullEpochIdentifier : string := "NullEpoch".
Definition NullEpochNumber : Z := 0.

(** [strings.TrimSpace]: the UTF-8 encodings of the white space characters *)
Definition byte (n : N) : string := String (Ascii.ascii_of_N n) EmptyString.
Definition white_space : list string :=
  (byte <$> [9; 10; 11; 12; 13; 32]%N) ++
  ((λ b, byte 194 +:+ byte b) <$> [133; 160]%N) ++
  [byte 225 +:+ byte 154 +:+ byte 128] ++
  ((λ b, byte 226 +:+ byte 128 +:+ byte b) <$>
     [128; 129; 130; 131; 132; 133; 134; 135; 136; 137; 138; 168; 169; 175]%N) ++
  [byte 226 +:+ byte 129 +:+ byte 159; byte 227 +:+ byte 128 +:+ byte 128].

Definition rev_string (s : string) : string := String.rev s.

(** Strip leading members of [cut], at most [fuel] of them. *)
Fixpoint trim_left (cut : list string) (fuel : nat) (s : string) : string :=
  match fuel with
  | O => s
  | S fuel =>
      match list_find (λ w, has_prefix w s = true) cut with
      | Some (_, w) =>
          trim_left cut fuel (String.substring (String.length w) (String.length s) s)
      | None => s
      end
  end.

Definition TrimSpace (s : string) : string :=
  let n := String.length s in
  let s := trim_left white_space n s in
  rev_string (trim_left (rev_string <$> white_space) n (rev_string s)).

Definition ValidateEpochIdentifierString (s : string) : result error unit :=
  let s := TrimSpace s in
  if decide (s = EmptyString) then Err epochstypes.ErrEmptyIdentifier
  else if decide (s = NullEpochIdentifier) then Err epochstypes.ErrNullIdentifier
  else Ok tt.

Definition ValidateEpoch (epoch : Epoch) : result error unit :=
  _ ← ValidateEpochIdentifierString (ep_EpochIdentifier epoch);
  if ep_EpochNumber epoch =? 0 then Err epochstypes.ErrZeroEpochNumber
  else Ok tt.

Definition EpochInfo_Validate (epoch : EpochInfo) : result error unit :=
  _ ← ValidateEpochIdentifierString (ei_Identifier epoch);
  if ei_Duration epoch <=? 0 then Err epochstypes.ErrNonPositiveDuration
  else if ei_CurrentEpoch epoch <? 0 then Err epochstypes.ErrNegativeCurrentEpoch
  else if ei_CurrentEpochStartHeight epoch <? 0 then Err epochstypes.ErrNegativeStartHeight
  else Ok tt.

(** [epochIdentifiers] is the set of identifiers seen so far. *)
Fixpoint validate_epochs (epochIdentifiers : gset string) (epochs : list EpochInfo)
    : result error unit :=
  match epochs with
  | [] => Ok tt
  | epoch :: epochs =>
      match EpochInfo_Validate epoch with
      | Err _ => Err epochstypes.ErrInvalidGenesisData
      | Panic => Panic
      | Ok _ =>
          if decide (ei_Identifier epoch ∈ epochIdentifiers)
          then Err epochstypes.ErrInvalidGenesisData
          else validate_epochs ({[ei_Identifier epoch]} ∪ epochIdentifiers) epochs
      end
  end.

Definition GenesisState_Validate (epochs : list EpochInfo) : result error unit :=
  validate_epochs ∅ epochs.

Definition NewGenesisEpochInfo (identifier : string) (duration : Z) : EpochInfo := {|
  ei_Identifier := identifier;
  ei_StartTime := 0;
  ei_Duration := duration;
  ei_CurrentEpoch := 0;
  ei_CurrentEpochStartHeight := 0;
  ei_CurrentEpochStartTime := 0;
  ei_EpochCountingStarted := false;
|}.

(** [time.Minute] and [time.Hour] *)
Definition time_Minute : Z := 60 * 10 ^ 9.
Definition time_Hour : Z := 60 * time_Minute.

Definition DefaultGenesis : list EpochInfo := [
  NewGenesisEpochInfo DayEpochID (time_Hour * 24);
  NewGenesisEpochInfo HourEpochID time_Hour;
  NewGenesisEpochInfo MinuteEpochID time_Minute;
  NewGenesisEpochInfo WeekEpochID (time_Hour * 24 * 7)
].

(** ** The store (keeper/epoch_infos.go) *)

Definition GetEpochInfo (identifier : string) (es : EpochsState) : option EpochInfo :=
  es !! identifier.

Definition setEpochInfoUnchecked (epoch : EpochInfo) (es : EpochsState) : EpochsState :=
  <[ei_Identifier epoch := epoch]> es.

Definition AddEpochInfo (ctx : Ctx) (epochInfo : EpochInfo) : M EpochsState error unit :=
  _ ← lift_result (EpochInfo_Validate epochInfo);
  has ← gets (λ es, bool_decide (is_Some (es !! ei_Identifier epochInfo)));
  _ ← fail_if has epochstypes.ErrDuplicateEpochInfo;
  let startTime :=
    if Time_IsZero (ei_StartTime epochInfo) then BlockTime ctx else ei_StartTime epochInfo in
  let height :=
    if ei_CurrentEpochStartHeight epochInfo =? 0 then BlockHeight ctx
    else ei_CurrentEpochStartHeight epochInfo in
  modify (setEpochInfoUnchecked {|
    ei_Identifier := ei_Identifier epochInfo;
    ei_StartTime := startTime;
    ei_Duration := ei_Duration epochInfo;
    ei_CurrentEpoch := ei_CurrentEpoch epochInfo;
    ei_CurrentEpochStartTime := ei_CurrentEpochStartTime epochInfo;
    ei_EpochCountingStarted := ei_EpochCountingStarted epochInfo;
    ei_CurrentEpochStartHeight := height |}).

(** [IterateEpochInfos] hands the stored values to the callback in key order;
    the callbacks of this repository never stop early. *)
Definition AllEpochInfos (es : EpochsState) : list EpochInfo :=
  (prefix_iterator EmptyString es).*2.

(** ** Genesis (keeper/genesis.go) *)

(** The error of [AddEpochInfo] is dropped. *)
Fixpoint InitGenesis (ctx : Ctx) (epochs : list EpochInfo) (es : EpochsState) : EpochsState :=
  match epochs with
  | [] => es
  | epoch :: epochs => InitGenesis ctx epochs (AddEpochInfo ctx epoch es).2
  end.

Definition ExportGenesis (es : EpochsState) : list EpochInfo := AllEpochInfos es.

(** ** Hooks and the block handler (types/hooks.go, keeper/abci.go) *)

Record EpochHooks (X : Type) := {
  AfterEpochEnd : Ctx → string → Z → EpochsState → M X Empty_set unit;
  BeforeEpochStart : Ctx → string → Z → EpochsState → M X Empty_set unit;
}.
Arguments AfterEpochEnd {X}.
Arguments BeforeEpochStart {X}.

Section BeginBlocker.
Context {X : Type}.

Definition MultiEpochHooks (h : list (EpochHooks X)) : EpochHooks X := {|
  AfterEpochEnd := λ ctx epochIdentifier epochNumber es,
    for_each h (λ hi, AfterEpochEnd hi ctx epochIdentifier epochNumber es);
  BeforeEpochStart := λ ctx epochIdentifier epochNumber es,
    for_each h (λ hi, BeforeEpochStart hi ctx epochIdentifier epochNumber es);
|}.

(** A hook sees the epoch store and changes the rest. *)
Definition call_hook (f : EpochsState → M X Empty_set unit)
    : M (EpochsState * X) Empty_set unit :=
  λ s, let '(r, x) := f s.1 s.2 in (r, (s.1, x)).

Context (hooks : EpochHooks X).

(** The callback of [BeginBlocker]. *)
Definition BeginBlocker_epoch (ctx : Ctx) (epochInfo : EpochInfo)
    : M (EpochsState * X) Empty_set unit :=
  match EpochInfo_Validate epochInfo with
  | Ok _ =>
      if BlockTime ctx <? ei_StartTime epochInfo then mret tt
      else
        let epochEndTime := ei_CurrentEpochStartTime epochInfo + ei_Duration epochInfo in
        let isFirstTick := negb (ei_EpochCountingStarted epochInfo) in
        let isTickEnding := epochEndTime <? BlockTime ctx in
        let isEpochStart := isTickEnding || isFirstTick in
        if negb isEpochStart then mret tt
        else
          epochInfo' ←
            (if isFirstTick then
               mret {|
                 ei_Identifier := ei_Identifier epochInfo;
                 ei_StartTime := ei_StartTime epochInfo;
                 ei_Duration := ei_Duration epochInfo;
                 ei_CurrentEpoch := 1;
                 ei_CurrentEpochStartTime := ei_StartTime epochInfo;
                 ei_EpochCountingStarted := true;
                 ei_CurrentEpochStartHeight := BlockHeight ctx |}
             else
               _ ← call_hook (AfterEpochEnd hooks ctx (ei_Identifier epochInfo)
                                (ei_CurrentEpoch epochInfo));
               mret {|
                 ei_Identifier := ei_Identifier epochInfo;
                 ei_StartTime := ei_StartTime epochInfo;
                 ei_Duration := ei_Duration epochInfo;
                 ei_CurrentEpoch := wrap_int64 (ei_CurrentEpoch epochInfo + 1);
                 ei_CurrentEpochStartTime := epochEndTime;
                 ei_EpochCountingStarted := ei_EpochCountingStarted epochInfo;
                 ei_CurrentEpochStartHeight := BlockHeight ctx |});
          _ ← modify (λ s, (setEpochInfoUnchecked epochInfo' s.1, s.2));
          call_hook (BeforeEpochStart hooks ctx (ei_Identifier epochInfo')
                       (ei_CurrentEpoch epochInfo'))
  | _ => mret tt
  end.

Definition BeginBlocker (ctx : Ctx) : M (EpochsState * X) Empty_set unit :=
  epochs ← gets (λ s, AllEpochInfos s.1);
  for_each epochs (BeginBlocker_epoch ctx).
End BeginBlocker.

(** ** Invariants *)

(** What one block does to one timer. *)
Definition next_epoch (ctx : Ctx) (e : EpochInfo) : EpochInfo :=
  match EpochInfo_Validate e with
  | Ok _ =>
      if BlockTime ctx <? ei_StartTime e then e
      else if negb (ei_EpochCountingStarted e) then
        {| ei_Identifier := ei_Identifier e; ei_StartTime := ei_StartTime e;
           ei_Duration := ei_Duration e; ei_CurrentEpoch := 1;
           ei_CurrentEpochStartTime := ei_StartTime e; ei_EpochCountingStarted := true;
           ei_CurrentEpochStartHeight := BlockHeight ctx |}
      else if ei_CurrentEpochStartTime e + ei_Duration e <? BlockTime ctx then
        {| ei_Identifier := ei_Identifier e; ei_StartTime := ei_StartTime e;
           ei_Duration := ei_Duration e; ei_CurrentEpoch := wrap_int64 (ei_CurrentEpoch e + 1);
           ei_CurrentEpochStartTime := ei_CurrentEpochStartTime e + ei_Duration e;
           ei_EpochCountingStarted := true; ei_CurrentEpochStartHeight := BlockHeight ctx |}
      else e
  | _ => e
  end.

(** The hook calls of that block, as (end of epoch or start, identifier, number). *)
Inductive hook_call := EpochEnd (id : string) (n : Z) | EpochStart (id : string) (n : Z).

#[export] Instance hook_call_eq_dec : EqDecision hook_call.
Proof. solve_decision. Defined.

Definition hook_calls (ctx : Ctx) (e : EpochInfo) : list hook_call :=
  let e' := next_epoch ctx e in
  if decide (e' = e) then []
  else (if ei_EpochCountingStarted e then [EpochEnd (ei_Identifier e) (ei_CurrentEpoch e)] else [])
       ++ [EpochStart (ei_Identifier e) (ei_CurrentEpoch e')].

(** Hooks that append to a log. *)
Definition recorder : EpochHooks (list hook_call) := {|
  AfterEpochEnd := λ _ id n _, modify (λ log, log ++ [EpochEnd id n]);
  BeforeEpochStart := λ _ id n _, modify (λ log, log ++ [EpochStart id n]);
|}.

Definition keyed (es : EpochsState) : Prop := ∀ id e, es !! id = Some e → ei_Identifier e = id.

(** A running timer is on the grid [StartTime + (n - 1) * Duration], and its
    number can still be incremented. *)
Definition on_grid (e : EpochInfo) : Prop :=
  ei_EpochCountingStarted e = true →
  1 ≤ ei_CurrentEpoch e ∧
  ei_CurrentEpochStartTime e = ei_StartTime e + (ei_CurrentEpoch e - 1) * ei_Duration e.

Definition no_wrap (e : EpochInfo) : Prop := 0 ≤ ei_CurrentEpoch e < 2 ^ 63 - 1.

Record epochs_inv (es : EpochsState) : Prop := {
  inv_keyed : keyed es;
  inv_valid : map_Forall (λ _ e, EpochInfo_Validate e = Ok tt) es;
  inv_grid : map_Forall (λ _ e, on_grid e) es;
}.

(** ** One block *)

Section Block.
Context {X : Type} (hooks : EpochHooks X) (ctx : Ctx).

Lemma next_epoch_Identifier e : ei_Identifier (next_epoch ctx e) = ei_Identifier e.
Proof. unfold next_epoch. repeat case_match; done. Qed.

Lemma call_hook_Ok (f : EpochsState → M X Empty_set unit) s u s' :
  call_hook f s = (Ok u, s') → s'.1 = s.1.
Proof. unfold call_hook. destruct (f s.1 s.2) as [r x]. by intros [= _ <-]. Qed.

Lemma BeginBlocker_epoch_run e s u s' :
  s.1 !! ei_Identifier e = Some e →
  BeginBlocker_epoch hooks ctx e s = (Ok u, s') →
  s'.1 = <[ei_Identifier e := next_epoch ctx e]> s.1.
Proof.
  intros He. unfold BeginBlocker_epoch, next_epoch.
  destruct (EpochInfo_Validate e) as [[]| |];
    [|intros; go_inv; by rewrite insert_id..].
  destruct (BlockTime ctx <? ei_StartTime e) eqn:?; [intros; go_inv; by rewrite insert_id|].
  destruct (ei_EpochCountingStarted e) eqn:Hstarted; cbn [negb orb].
  - rewrite orb_false_r.
    destruct (ei_CurrentEpochStartTime e + ei_Duration e <? BlockTime ctx) eqn:?; cbn [negb];
      intros; go_inv; [|by rewrite insert_id].
    repeat match goal with H : call_hook _ _ = _ |- _ => apply call_hook_Ok in H end.
    unfold setEpochInfoUnchecked in *. simplify_eq/=. congruence.
  - rewrite orb_true_r. cbn [negb]. intros; go_inv.
    repeat match goal with H : call_hook _ _ = _ |- _ => apply call_hook_Ok in H end.
    unfold setEpochInfoUnchecked in *. simplify_eq/=. congruence.
Qed.

Lemma BeginBlocker_loop l s u s' :
  NoDup (ei_Identifier <$> l) →
  (∀ e, e ∈ l → s.1 !! ei_Identifier e = Some e) →
  for_each l (BeginBlocker_epoch hooks ctx) s = (Ok u, s') →
  (∀ e, e ∈ l → s'.1 !! ei_Identifier e = Some (next_epoch ctx e)) ∧
  (∀ id, id ∉ (ei_Identifier <$> l) → s'.1 !! id = s.1 !! id).
Proof.
  revert s. induction l as [|e l IH]; intros s Hnd Hl Hrun.
  { apply ret_Ok in Hrun as [_ ->]. split; [|done]. by intros e ?%elem_of_nil. }
  apply for_each_cons in Hrun as (v & s1 & H1 & H2).
  apply NoDup_cons in Hnd as [Hnin Hnd]. fold (fmap (M:=list) ei_Identifier l) in *.
  apply BeginBlocker_epoch_run in H1; [|apply Hl, list_elem_of_here].
  apply IH in H2 as [IHin IHout]; [|done|].
  - split.
    + intros e' [->|Hin]%elem_of_cons; [|by apply IHin].
      rewrite IHout, H1 by done. apply lookup_insert_eq.
    + intros id Hid. rewrite fmap_cons in Hid. apply not_elem_of_cons in Hid as [Hne Hid].
      rewrite IHout, H1 by done. by apply lookup_insert_ne.
  - intros e' Hin. rewrite H1, lookup_insert_ne; [by apply Hl, list_elem_of_further|].
    intros Heq. apply Hnin. rewrite Heq. by apply list_elem_of_fmap_2.
Qed.

Lemma elem_of_AllEpochInfos es e :
  keyed es → e ∈ AllEpochInfos es ↔ es !! ei_Identifier e = Some e.
Proof.
  intros Hk. unfold AllEpochInfos. rewrite list_elem_of_fmap. split.
  - intros ([k v] & -> & Hin%elem_of_iterator_all). cbn. by rewrite (Hk k v Hin).
  - intros He. exists (ei_Identifier e, e). split; [done|]. by apply elem_of_iterator_all.
Qed.

Lemma AllEpochInfos_ids es :
  keyed es → ei_Identifier <$> AllEpochInfos es = (prefix_iterator EmptyString es).*1.
Proof.
  intros Hk. unfold AllEpochInfos. rewrite <-list_fmap_compose.
  apply list_fmap_ext. intros i [k v] Hi%list_elem_of_lookup_2%elem_of_iterator_all.
  by apply Hk.
Qed.

Lemma AllEpochInfos_NoDup es : keyed es → NoDup (ei_Identifier <$> AllEpochInfos es).
Proof. intros Hk. rewrite AllEpochInfos_ids by done. apply prefix_iterator_NoDup_keys. Qed.

Lemma BeginBlocker_fmap s u s' :
  keyed s.1 → BeginBlocker hooks ctx s = (Ok u, s') → s'.1 = next_epoch ctx <$> s.1.
Proof.
  intros Hk Hrun. unfold BeginBlocker in Hrun. go_inv.
  apply BeginBlocker_loop in Hrun1 as [Hin Hout];
    [|by apply AllEpochInfos_NoDup|by intros e ?%elem_of_AllEpochInfos].
  apply map_eq. intros id. rewrite lookup_fmap. destruct (s.1 !! id) as [e|] eqn:Hid; cbn.
  - pose proof (Hk id e Hid) as <-. apply Hin. by apply elem_of_AllEpochInfos.
  - rewrite Hout; [done|]. rewrite AllEpochInfos_ids by done.
    intros ([k v] & -> & Hin')%list_elem_of_fmap. apply elem_of_iterator_all in Hin'. cbn in *.
    congruence.
Qed.

Lemma keyed_next es : keyed es → keyed (next_epoch ctx <$> es).
Proof.
  intros Hk id e. rewrite lookup_fmap, fmap_Some.
  intros (e0 & H0 & ->). rewrite next_epoch_Identifier. by apply Hk.
Qed.
End Block.

Lemma EpochInfo_Validate_Ok e :
  EpochInfo_Validate e = Ok tt ↔
  ValidateEpochIdentifierString (ei_Identifier e) = Ok tt ∧ 0 < ei_Duration e ∧
  0 ≤ ei_CurrentEpoch e ∧ 0 ≤ ei_CurrentEpochStartHeight e.
Proof.
  unfold EpochInfo_Validate. cbn.
  destruct (ValidateEpochIdentifierString _) as [[]| |]; cbn; [|naive_solver..].
  destruct (Z.leb_spec (ei_Duration e) 0); [naive_solver lia|].
  destruct (Z.ltb_spec (ei_CurrentEpoch e) 0); [naive_solver lia|].
  destruct (Z.ltb_spec (ei_CurrentEpochStartHeight e) 0); naive_solver lia.
Qed.

Section NextEpoch.
Context (ctx : Ctx).

(** The three things a block can do to a valid timer. *)
Lemma next_epoch_cases e :
  EpochInfo_Validate e = Ok tt → no_wrap e →
  (next_epoch ctx e = e ∧
     (BlockTime ctx < ei_StartTime e ∨
      ei_EpochCountingStarted e = true ∧
      BlockTime ctx ≤ ei_CurrentEpochStartTime e + ei_Duration e)) ∨
  (ei_StartTime e ≤ BlockTime ctx ∧ ei_EpochCountingStarted e = false ∧
     next_epoch ctx e = {|
       ei_Identifier := ei_Identifier e; ei_StartTime := ei_StartTime e;
       ei_Duration := ei_Duration e; ei_CurrentEpoch := 1;
       ei_CurrentEpochStartTime := ei_StartTime e; ei_EpochCountingStarted := true;
       ei_CurrentEpochStartHeight := BlockHeight ctx |}) ∨
  (ei_StartTime e ≤ BlockTime ctx ∧ ei_EpochCountingStarted e = true ∧
     ei_CurrentEpochStartTime e + ei_Duration e < BlockTime ctx ∧
     next_epoch ctx e = {|
       ei_Identifier := ei_Identifier e; ei_StartTime := ei_StartTime e;
       ei_Duration := ei_Duration e; ei_CurrentEpoch := ei_CurrentEpoch e + 1;
       ei_CurrentEpochStartTime := ei_CurrentEpochStartTime e + ei_Duration e;
       ei_EpochCountingStarted := true;
       ei_CurrentEpochStartHeight := BlockHeight ctx |}).
Proof.
  intros Hv Hw. unfold next_epoch, no_wrap in *. rewrite Hv.
  rewrite wrap_int64_id by lia.
  destruct (Z.ltb_spec (BlockTime ctx) (ei_StartTime e)); [naive_solver|].
  destruct (ei_EpochCountingStarted e) eqn:?; cbn [negb]; [|naive_solver].
  destruct (Z.ltb_spec (ei_CurrentEpochStartTime e + ei_Duration e) (BlockTime ctx)); naive_solver.
Qed.

Lemma next_epoch_valid e :
  0 ≤ BlockHeight ctx → EpochInfo_Validate e = Ok tt → no_wrap e →
  EpochInfo_Validate (next_epoch ctx e) = Ok tt.
Proof.
  intros Hh Hv Hw. destruct (next_epoch_cases e Hv Hw) as [[-> _]|[(_ & _ & ->)|(_ & _ & _ & ->)]];
    [done|..]; apply EpochInfo_Validate_Ok in Hv; apply EpochInfo_Validate_Ok; cbn; naive_solver lia.
Qed.

Lemma next_epoch_grid e :
  EpochInfo_Validate e = Ok tt → no_wrap e → on_grid e → on_grid (next_epoch ctx e).
Proof.
  intros Hv Hw Hg. unfold on_grid in *.
  destruct (next_epoch_cases e Hv Hw) as [[-> _]|[(_ & _ & ->)|(_ & Hs & _ & ->)]];
    cbn; [done|lia|]. apply Hg in Hs as [??]. lia.
Qed.

(** A block never sets a timer back or past the block's time. *)
Lemma next_epoch_progress e T :
  EpochInfo_Validate e = Ok tt → no_wrap e → ei_EpochCountingStarted e = true →
  ei_StartTime e ≤ BlockTime ctx → T ≤ BlockTime ctx →
  ei_EpochCountingStarted (next_epoch ctx e) = true ∧
  ei_Duration (next_epoch ctx e) = ei_Duration e ∧
  ei_StartTime (next_epoch ctx e) = ei_StartTime e ∧
  ei_CurrentEpoch (next_epoch ctx e) ≤ ei_CurrentEpoch e + 1 ∧
  (T ≤ ei_CurrentEpochStartTime (next_epoch ctx e) + ei_Duration e ∨
   ei_CurrentEpochStartTime (next_epoch ctx e) = ei_CurrentEpochStartTime e + ei_Duration e) ∧
  ei_CurrentEpochStartTime e ≤ ei_CurrentEpochStartTime (next_epoch ctx e).
Proof.
  intros Hv Hw Hs Ht HT. apply EpochInfo_Validate_Ok in Hv as Hv'.
  destruct (next_epoch_cases e Hv Hw) as [[-> Hc]|[(_ & ? & _)|(_ & _ & Hc & ->)]];
    cbn; [|congruence|]; repeat split; naive_solver lia.
Qed.
End NextEpoch.

(** ** The log of hook calls *)

Lemma hook_calls_none ctx e : next_epoch ctx e = e → hook_calls ctx e = [].
Proof. unfold hook_calls. by case_decide. Qed.

Lemma BeginBlocker_epoch_log ctx e es log :
  es !! ei_Identifier e = Some e → no_wrap e →
  BeginBlocker_epoch recorder ctx e (es, log) =
    (Ok tt, (<[ei_Identifier e := next_epoch ctx e]> es, log ++ hook_calls ctx e)).
Proof.
  intros He Hw. unfold no_wrap in *.
  destruct (decide (next_epoch ctx e = e)) as [Hsame|Hdiff].
  { rewrite hook_calls_none, Hsame, app_nil_r, insert_id by done.
    revert Hsame. unfold BeginBlocker_epoch, next_epoch.
    destruct (EpochInfo_Validate e) as [[]| |]; [|done..].
    case_match; [done|]. destruct e as [id st dur n cst [] h]; cbn in *;
      rewrite ?orb_false_r, ?orb_true_r; [|done].
    case_match; [|done]. rewrite wrap_int64_id by lia. intros [= ?]; lia. }
  unfold hook_calls. rewrite decide_False by done. revert Hdiff.
  unfold BeginBlocker_epoch, next_epoch.
  destruct (EpochInfo_Validate e) as [[]| |]; [|done..].
  case_match; [done|].
  destruct e as [id st dur n cst [] h]; cbn in *; rewrite ?orb_false_r, ?orb_true_r; intros Hdiff.
  - case_match; [|done]. unfold call_hook. go_run. by rewrite <-app_assoc.
  - unfold call_hook. by go_run.
Qed.

Lemma BeginBlocker_loop_log ctx l es log :
  NoDup (ei_Identifier <$> l) → Forall no_wrap l →
  (∀ e, e ∈ l → es !! ei_Identifier e = Some e) →
  ∃ es', for_each l (BeginBlocker_epoch recorder ctx) (es, log) =
    (Ok tt, (es', log ++ (l ≫= hook_calls ctx))).
Proof.
  revert es log. induction l as [|e l IH]; intros es log Hnd Hw Hl.
  { exists es. cbn. by rewrite app_nil_r. }
  apply NoDup_cons in Hnd as [Hnin Hnd]. apply Forall_cons in Hw as [Hwe Hw].
  cbn [for_each]. destruct (IH (<[ei_Identifier e := next_epoch ctx e]> es)
    (log ++ hook_calls ctx e)) as [es' Hes']; [done..| |].
  { intros e' Hin. rewrite lookup_insert_ne; [by apply Hl, list_elem_of_further|].
    intros Heq. apply Hnin. rewrite Heq. by apply list_elem_of_fmap_2. }
  exists es'. erewrite bind_run by (apply BeginBlocker_epoch_log; [apply Hl, list_elem_of_here|done]).
  rewrite Hes', bind_cons. by rewrite <-app_assoc.
Qed.

(** ** Genesis *)

(** What [AddEpochInfo] fills in before saving. *)
Definition filled (ctx : Ctx) (e : EpochInfo) : Prop :=
  ei_StartTime e ≠ 0 ∧ (ei_CurrentEpochStartHeight e = 0 → BlockHeight ctx = 0).

Lemma AddEpochInfo_filled ctx e es :
  EpochInfo_Validate e = Ok tt → filled ctx e → es !! ei_Identifier e = None →
  AddEpochInfo ctx e es = (Ok tt, <[ei_Identifier e := e]> es).
Proof.
  intros Hv [Hst Hh] Hnone. unfold AddEpochInfo, setEpochInfoUnchecked, Time_IsZero.
  go_run. rewrite Hv, bool_decide_false by (by rewrite Hnone; intros []).
  destruct e as [id st dur n cst b h]; cbn in *.
  rewrite (proj2 (Z.eqb_neq st 0)) by done.
  destruct (Z.eqb_spec h 0) as [->|]; [by rewrite Hh|done].
Qed.

Lemma InitGenesis_filled ctx l es :
  Forall (λ e, EpochInfo_Validate e = Ok tt ∧ filled ctx e) l →
  NoDup (ei_Identifier <$> l) → (∀ e, e ∈ l → es !! ei_Identifier e = None) →
  InitGenesis ctx l es = list_to_map ((λ e, (ei_Identifier e, e)) <$> l) ∪ es.
Proof.
  revert es. induction l as [|e l IH]; intros es Hl Hnd Hnone.
  { cbn. by rewrite map_empty_union. }
  apply Forall_cons in Hl as [[Hv Hf] Hl]. apply NoDup_cons in Hnd as [Hnin Hnd].
  cbn [InitGenesis]. rewrite AddEpochInfo_filled; [|done..|apply Hnone, list_elem_of_here].
  cbn [snd fmap list_fmap list_to_map foldr]. rewrite IH; [|done..|].
  - rewrite <-insert_union_r by (apply not_elem_of_list_to_map;
      rewrite <-list_fmap_compose; exact Hnin).
    by rewrite insert_union_l.
  - intros e' Hin. rewrite lookup_insert_ne; [by apply Hnone, list_elem_of_further|].
    intros Heq. apply Hnin. rewrite Heq. by apply list_elem_of_fmap_2.
Qed.

Lemma AllEpochInfos_pairs es :
  keyed es → (λ e, (ei_Identifier e, e)) <$> AllEpochInfos es = prefix_iterator EmptyString es.
Proof.
  intros Hk. unfold AllEpochInfos. rewrite <-list_fmap_compose.
  rewrite <-(list_fmap_id (prefix_iterator EmptyString es)) at 2.
  apply list_fmap_ext. intros i [k v] Hi%list_elem_of_lookup_2%elem_of_iterator_all.
  cbn. by rewrite (Hk k v Hi).
Qed.

Lemma validate_epochs_Ok seen l :
  Forall (λ e, EpochInfo_Validate e = Ok tt) l → NoDup (ei_Identifier <$> l) →
  (∀ e, e ∈ l → ei_Identifier e ∉ seen) → validate_epochs seen l = Ok tt.
Proof.
  revert seen. induction l as [|e l IH]; intros seen Hl Hnd Hseen; [done|].
  apply Forall_cons in Hl as [Hv Hl]. apply NoDup_cons in Hnd as [Hnin Hnd].
  cbn [validate_epochs]. rewrite Hv, decide_False by apply Hseen, list_elem_of_here.
  apply IH; [done..|]. intros e' Hin [Heq%elem_of_singleton|Hin']%elem_of_union.
  - apply Hnin. rewrite <-Heq. by apply list_elem_of_fmap_2.
  - by apply (Hseen e'); [apply list_elem_of_further|].
Qed.

(** ** Properties *)

(** C32.  A block keeps the invariant of the epoch store: every timer is stored
    under its own identifier, is valid, and, once running, its current epoch
    number [n] and start time satisfy
    [CurrentEpochStartTime = StartTime + (n - 1) * Duration]. *)
Theorem BeginBlocker_inv {X} (hooks : EpochHooks X) ctx s u s' :
  0 ≤ BlockHeight ctx → map_Forall (λ _ e, no_wrap e) s.1 →
  epochs_inv s.1 → BeginBlocker hooks ctx s = (Ok u, s') → epochs_inv s'.1.
Proof.
  intros Hh Hw [Hk Hv Hg] Hrun. apply BeginBlocker_fmap in Hrun as ->; [|done].
  split; [by apply keyed_next|..]; intros id e; rewrite lookup_fmap, fmap_Some;
    intros (e0 & H0 & ->); [apply next_epoch_valid|apply next_epoch_grid]; eauto.
Qed.

(** A block calls the hooks of the timers in ascending order of their
    identifiers.  A timer that starts gets [BeforeEpochStart(1)], a timer whose
    epoch [n] is over gets [AfterEpochEnd(n)] and then [BeforeEpochStart(n+1)],
    and the others get no call.  The block ends without a panic when the hooks
    do, and the store holds the next state of each timer. *)
Theorem BeginBlocker_hooks ctx es log :
  keyed es → map_Forall (λ _ e, no_wrap e) es →
  BeginBlocker recorder ctx (es, log) =
    (Ok tt, (next_epoch ctx <$> es, log ++ (AllEpochInfos es ≫= hook_calls ctx))).
Proof.
  intros Hk Hw. destruct (BeginBlocker_loop_log ctx (AllEpochInfos es) es log) as [es' Hrun].
  - by apply AllEpochInfos_NoDup.
  - apply Forall_forall. intros e He%elem_of_AllEpochInfos; [|done]. by apply (Hw _ e He).
  - by intros e ?%elem_of_AllEpochInfos.
  - assert (Hb : BeginBlocker recorder ctx (es, log) =
      (Ok tt, (es', log ++ (AllEpochInfos es ≫= hook_calls ctx)))) by exact Hrun.
    rewrite Hb. apply BeginBlocker_fmap in Hb; [|done]. cbn in Hb. by rewrite Hb.
Qed.

Lemma catch_up_step {X} (hooks : EpochHooks X) ctx s u s1 id e T :
  keyed s.1 → BeginBlocker hooks ctx s = (Ok u, s1) → s.1 !! id = Some e →
  EpochInfo_Validate e = Ok tt → no_wrap e → ei_EpochCountingStarted e = true →
  ei_StartTime e ≤ T ≤ BlockTime ctx → 0 ≤ BlockHeight ctx →
  ∃ e1, s1.1 !! id = Some e1 ∧ EpochInfo_Validate e1 = Ok tt ∧
    ei_EpochCountingStarted e1 = true ∧ ei_StartTime e1 = ei_StartTime e ∧
    ei_Duration e1 = ei_Duration e ∧ ei_CurrentEpoch e1 ≤ ei_CurrentEpoch e + 1 ∧
    (T ≤ ei_CurrentEpochStartTime e1 + ei_Duration e ∨
     ei_CurrentEpochStartTime e1 = ei_CurrentEpochStartTime e + ei_Duration e).
Proof.
  intros Hk Hrun He Hv Hw Hs HT Hh. apply BeginBlocker_fmap in Hrun; [|done].
  exists (next_epoch ctx e). rewrite Hrun, lookup_fmap, He. split; [done|].
  destruct (next_epoch_progress ctx e T) as (?&?&?&?&?&?); try done; [lia..|].
  split; [by apply next_epoch_valid|]. tauto.
Qed.

(** A timer that lags behind the block time catches up by one epoch per
    block: after enough blocks at or after time [T] the current epoch of the
    timer ends at or after [T], and no block advanced it by more than one. *)
Theorem BeginBlocker_catch_up {X} (hooks : EpochHooks X) cs s u s' id e T :
  keyed s.1 → s.1 !! id = Some e → EpochInfo_Validate e = Ok tt →
  ei_EpochCountingStarted e = true → ei_StartTime e ≤ T →
  ei_CurrentEpoch e + Z.of_nat (length cs) < 2 ^ 63 - 1 →
  (∀ c, c ∈ cs → T ≤ BlockTime c ∧ 0 ≤ BlockHeight c) →
  T ≤ ei_CurrentEpochStartTime e + (1 + Z.of_nat (length cs)) * ei_Duration e →
  for_each cs (BeginBlocker hooks) s = (Ok u, s') →
  ∃ e', s'.1 !! id = Some e' ∧
    T ≤ ei_CurrentEpochStartTime e' + ei_Duration e' ∧
    ei_CurrentEpoch e' ≤ ei_CurrentEpoch e + Z.of_nat (length cs).
Proof.
  revert s e. induction cs as [|c cs IH]; intros s e Hk He Hv Hs HsT Hn Hcs HT Hrun.
  { apply ret_Ok in Hrun as [_ ->]. exists e. cbn in *. split; [done|lia]. }
  rewrite length_cons in Hn, HT. rewrite length_cons.
  destruct (Hcs c) as [Hct Hch]; [apply list_elem_of_here|].
  apply for_each_cons in Hrun as (v & s1 & H1 & H2).
  pose proof (proj1 (EpochInfo_Validate_Ok e) Hv) as (_ & Hd & Hc & _).
  destruct (catch_up_step hooks c s v s1 id e T) as (e1 & He1 & Hv1 & Hs1 & Hst & Hdur & Hce & Hor);
    [done..|unfold no_wrap; lia|done|lia|done|].
  destruct (IH s1 e1) as (e' & He' & HT' & Hc'); [|done..|lia|lia| | |done|].
  - apply BeginBlocker_fmap in H1 as ->; [|done]. by apply keyed_next.
  - intros c' Hc'. apply Hcs. by apply list_elem_of_further.
  - destruct Hor as [?|Hor]; nia.
  - exists e'. split; [done|]. split; [done|lia].
Qed.

(** Exporting the epoch store and importing the result into an empty store
    rebuilds it, and the exported genesis passes validation. *)
Theorem epochs_genesis_roundtrip ctx es :
  epochs_inv es → map_Forall (λ _ e, filled ctx e) es →
  GenesisState_Validate (ExportGenesis es) = Ok tt ∧
  InitGenesis ctx (ExportGenesis es) ∅ = es.
Proof.
  intros [Hk Hv _] Hf. unfold GenesisState_Validate, ExportGenesis. split.
  - apply validate_epochs_Ok; [|by apply AllEpochInfos_NoDup|set_solver].
    apply Forall_forall. intros e He%elem_of_AllEpochInfos; eauto.
  - rewrite InitGenesis_filled; [|..|by apply AllEpochInfos_NoDup|done].
    + rewrite AllEpochInfos_pairs, list_to_map_iterator by done. apply map_union_empty.
    + apply Forall_forall. intros e He%elem_of_AllEpochInfos; eauto.
Qed.

(** ** Witnesses *)

(** A timer of five nanoseconds started at 10, in its second epoch (15, 20]. *)
Definition sample_epoch : EpochInfo := {|
  ei_Identifier := "five"; ei_StartTime := 10; ei_Duration := 5; ei_CurrentEpoch := 2;
  ei_CurrentEpochStartTime := 15; ei_EpochCountingStarted := true;
  ei_CurrentEpochStartHeight := 3 |}.
Definition sample_epochs : EpochsState := {[ "five" := sample_epoch ]}.
Definition at_time (t : Z) : Ctx := {| BlockTime := t; BlockHeight := t |}.

Lemma sample_keyed : keyed sample_epochs.
Proof. intros id e. unfold sample_epochs. by intros [<- <-]%lookup_singleton_Some. Qed.

Lemma sample_epochs_inv : epochs_inv sample_epochs.
Proof.
  split; [apply sample_keyed|..]; apply map_Forall_singleton; [by vm_compute|].
  intros _. cbn. lia.
Qed.

Lemma sample_no_wrap : map_Forall (λ _ e, no_wrap e) sample_epochs.
Proof. apply map_Forall_singleton. unfold no_wrap. cbn. lia. Qed.

Definition sample_block : EpochsState * list hook_call :=
  (BeginBlocker recorder (at_time 35) (sample_epochs, [])).2.

Lemma BeginBlocker_inv_witness : epochs_inv sample_block.1.
Proof.
  apply (BeginBlocker_inv recorder (at_time 35) (sample_epochs, []) tt);
    [by vm_compute|apply sample_no_wrap|apply sample_epochs_inv|by vm_compute].
Defined.

Lemma BeginBlocker_hooks_witness :
  (BeginBlocker recorder (at_time 35) (sample_epochs, [])).2.2 = [EpochEnd "five" 2; EpochStart "five" 3].
Proof.
  rewrite (BeginBlocker_hooks (at_time 35) sample_epochs [] sample_keyed sample_no_wrap).
  by vm_compute.
Defined.

Definition sample_blocks : list Ctx := at_time <$> [36; 37; 38].
Definition sample_run : EpochsState * list hook_call :=
  (for_each sample_blocks (BeginBlocker recorder) (sample_epochs, [])).2.

Lemma BeginBlocker_catch_up_witness :
  ∃ e', sample_run.1 !! "five" = Some e' ∧
    35 ≤ ei_CurrentEpochStartTime e' + ei_Duration e' ∧
    ei_CurrentEpoch e' ≤ ei_CurrentEpoch sample_epoch + Z.of_nat (length sample_blocks).
Proof.
  apply (BeginBlocker_catch_up recorder sample_blocks (sample_epochs, []) tt sample_run "five"
           sample_epoch 35); [apply sample_keyed|by vm_compute..| |by vm_compute|by vm_compute].
  intros c (t & -> & Ht)%list_elem_of_fmap. cbn.
  repeat (apply elem_of_cons in Ht as [->|Ht]; [lia|]). by apply elem_of_nil in Ht.
Defined.

Lemma epochs_genesis_roundtrip_witness :
  GenesisState_Validate (ExportGenesis sample_epochs) = Ok tt ∧
  InitGenesis (at_time 35) (ExportGenesis sample_epochs) ∅ = sample_epochs.
Proof.
  apply (epochs_genesis_roundtrip (at_time 35) sample_epochs sample_epochs_inv).
  by apply map_Forall_singleton.
Defined.

(** The comment on [CurrentEpochStartTime] (types/genesis.pb.go) says that a
    block at t = 35 moves a timer of five units from (15, 20] to (15, 20]; the
    block moves it to (20, 25]. *)
Lemma tick_after_downtime :
  ((BeginBlocker recorder (at_time 35) (sample_epochs, [])).2.1 !! "five") =
    Some {| ei_Identifier := "five"; ei_StartTime := 10; ei_Duration := 5;
            ei_CurrentEpoch := 3; ei_CurrentEpochStartTime := 20;
            ei_EpochCountingStarted := true; ei_CurrentEpochStartHeight := 35 |}.
Proof. by vm_compute. Qed.
