(* ===== verification/Shares.v ===== *)
(** * Shares and tokens (x/delegation/keeper/share.go)

    A pool of an operator holds [totalAmount] tokens divided into [totalShare]
    shares; these are the conversions.  The theorems bound them: a share of the
    pool is never worth more than the pool, converting an amount to shares and
    back never gains and loses at most one unit, and all the shares of a pool
    together are never worth more than it. *)

From S2P Require Import Prelude Errors Sdk RefSdk.

Section Shares.
Context {sdk : Sdk}.

Definition TokensFromShares (stakerShare totalShare : LegacyDec) (totalAmount : Int)
    : result error Int :=
  if totalShare <? stakerShare then Err delegationtypes.ErrInsufficientShares
  else if totalShare =? 0 then
    if totalAmount =? 0 then Ok 0 else Err delegationtypes.ErrDivisorIsZero
  else Ok (dec_TruncateInt (dec_Quo (dec_MulInt stakerShare totalAmount) totalShare)).

Definition SharesFromTokens (totalShare : LegacyDec) (stakerAmount totalAmount : Int)
    : result error LegacyDec :=
  if totalAmount =? 0 then
    if totalShare =? 0 then Ok 0 else Err delegationtypes.ErrDivisorIsZero
  else Ok (dec_QuoInt (dec_MulInt totalShare stakerAmount) totalAmount).

Definition TokenUSDValueFromShares (stakerShare totalShare totalUSDValue : LegacyDec)
    : result error LegacyDec :=
  if totalShare <? stakerShare then Err delegationtypes.ErrInsufficientShares
  else if totalShare =? 0 then
    if totalUSDValue =? 0 then Ok 0 else Err delegationtypes.ErrDivisorIsZero
  else Ok (dec_Quo (dec_Mul stakerShare totalUSDValue) totalShare).
End Shares.

(** ** Facts *)

Section Facts.
Context `{SdkLaws}.
Implicit Types (sh S : LegacyDec) (T x t : Int).

(** The value of a share of a non-empty pool, up to the rounding of the
    quotient. *)
Lemma TokensFromShares_Ok sh S T t :
  0 ≤ sh → 0 ≤ T → 0 < S → TokensFromShares sh S T = Ok t →
  sh ≤ S ∧ ∃ q, rounds q (sh * T * dec_one) S ∧ t = q / dec_one.
Proof.
  intros Hsh HT HS. unfold TokensFromShares. destruct (Z.ltb_spec S sh); [done|].
  rewrite (proj2 (Z.eqb_neq S 0)) by lia. intros [= <-]. split; [done|].
  rewrite MulInt_exact. exists (dec_Quo (sh * T) S).
  assert (Hr : rounds (dec_Quo (sh * T) S) (sh * T * dec_one) S) by (apply Quo_rounds; nia).
  split; [done|]. apply trunc_pos. eapply rounds_nonneg; [|done..].
  pose proof dec_one_pos. nia.
Qed.

Lemma TokensFromShares_total sh S T :
  0 < S → sh ≤ S → ∃ t, TokensFromShares sh S T = Ok t.
Proof.
  intros HS Hsh. unfold TokensFromShares. rewrite (proj2 (Z.ltb_ge _ _)) by done.
  rewrite (proj2 (Z.eqb_neq S 0)) by lia. eauto.
Qed.

(** A share of the pool is worth at least nothing and at most the pool. *)
Lemma TokensFromShares_bounds sh S T t :
  0 ≤ sh → 0 ≤ T → TokensFromShares sh S T = Ok t → 0 ≤ t ≤ T.
Proof.
  intros Hsh HT. destruct (decide (0 < S)) as [HS|HS].
  - intros (Hle & q & Hq & ->)%TokensFromShares_Ok; try done.
    pose proof dec_one_pos as H1. assert (0 ≤ sh * T) by nia. assert (sh * T ≤ T * S) by nia.
    assert (0 ≤ q) by (apply (rounds_nonneg q (sh * T * dec_one) S); [nia|done..]).
    assert (q ≤ T * dec_one) by (apply (rounds_le _ _ _ _ HS Hq); nia).
    split; [apply Z.div_pos; lia|]. apply Z.div_le_upper_bound; lia.
  - unfold TokensFromShares. destruct (Z.ltb_spec S sh); [done|].
    rewrite (proj2 (Z.eqb_eq S 0)) by lia. destruct (Z.eqb_spec T 0); [|done].
    intros [= <-]. lia.
Qed.

(** Zero shares are worth nothing. *)
Lemma TokensFromShares_zero S T t :
  0 ≤ T → TokensFromShares 0 S T = Ok t → t = 0.
Proof.
  intros HT Ht. pose proof (TokensFromShares_bounds 0 S T t ltac:(lia) HT Ht) as [Hge _].
  destruct (decide (0 < S)) as [HS|HS].
  - apply TokensFromShares_Ok in Ht as (_ & q & Hq & ->); [|lia|done|done].
    apply (rounds_exact _ _ _ 0) in Hq as ->; [done|done|lia].
  - revert Ht. unfold TokensFromShares. destruct (Z.ltb_spec S 0); [done|].
    rewrite (proj2 (Z.eqb_eq S 0)) by lia. case_match; congruence.
Qed.

Lemma SharesFromTokens_Ok S x T sh :
  0 ≤ S → 0 ≤ x → 0 < T → SharesFromTokens S x T = Ok sh → sh = S * x / T.
Proof.
  intros HS Hx HT. unfold SharesFromTokens. rewrite (proj2 (Z.eqb_neq T 0)) by lia.
  intros [= <-]. rewrite MulInt_exact, QuoInt_trunc by lia.
  apply Z.quot_div_nonneg; nia.
Qed.

Lemma SharesFromTokens_nonneg S x T sh :
  0 ≤ S → 0 ≤ x → 0 ≤ T → SharesFromTokens S x T = Ok sh → 0 ≤ sh.
Proof.
  intros HS Hx HT Hsh. destruct (decide (T = 0)) as [->|Hne].
  - revert Hsh. unfold SharesFromTokens. cbn. case_match; [intros [= <-]; lia|done].
  - apply SharesFromTokens_Ok in Hsh as ->; [|done|done|lia]. apply Z.div_pos; nia.
Qed.

(** A share that is worth at most [y] tokens at the exact rate gives at most
    [y]; in a pool of at most one token per 10^-18 share, a share that was
    computed for [x] tokens gives at least [x - 1]. *)
Lemma TokensFromShares_upper sh S T t y :
  0 ≤ sh → 0 ≤ T → 0 < S → sh * T ≤ S * y → TokensFromShares sh S T = Ok t → t ≤ y.
Proof.
  intros Hsh HT HS Hy (_ & q & Hq & ->)%TokensFromShares_Ok; try done. pose proof dec_one_pos.
  apply Z.div_le_upper_bound; [done|].
  transitivity (y * dec_one); [|lia]. apply (rounds_le _ _ _ _ HS Hq). nia.
Qed.

Lemma TokensFromShares_lower sh S T t x :
  0 ≤ sh → 0 ≤ T ≤ S → 0 < S → S * x < sh * T + T → TokensFromShares sh S T = Ok t → x - 1 ≤ t.
Proof.
  intros Hsh HT HS Hx (_ & q & Hq & ->)%TokensFromShares_Ok; try done; [|lia].
  pose proof dec_one_pos. apply Z.div_le_lower_bound; [done|].
  transitivity ((x - 1) * dec_one); [lia|]. apply (rounds_ge _ _ _ _ HS Hq). nia.
Qed.

Lemma SharesFromTokens_rate S x T sh :
  0 ≤ S → 0 ≤ x → 0 < T → SharesFromTokens S x T = Ok sh → 0 ≤ sh ∧ sh * T ≤ S * x < sh * T + T.
Proof.
  intros HS Hx HT ->%SharesFromTokens_Ok; try done.
  pose proof (Z.div_mod (S * x) T ltac:(lia)). pose proof (Z.mod_pos_bound (S * x) T HT).
  split; [apply Z.div_pos|]; nia.
Qed.
End Facts.

(** ** Properties *)

(** Converting an amount of tokens to shares of a pool and those shares
    back to tokens never gains; and in a pool of at most one token per 10^-18
    share (the rate starts at one token per share) it loses at most one unit. *)
Theorem shares_roundtrip `{SdkLaws} S x T sh t :
  0 < S → 0 < T → 0 ≤ x → SharesFromTokens S x T = Ok sh → TokensFromShares sh S T = Ok t →
  t ≤ x ∧ (T ≤ S → x - 1 ≤ t).
Proof.
  intros HS HT Hx (Hnn & Hsh)%SharesFromTokens_rate Ht; [|lia..]. split.
  - apply (TokensFromShares_upper sh S T); try done; lia.
  - intros HTS. apply (TokensFromShares_lower sh S T); try done; lia.
Qed.

(** The worth of a list of shares. *)
Fixpoint tokens_sum `{Sdk} (shares : list LegacyDec) (S : LegacyDec) (T : Int) : Int :=
  match shares with
  | [] => 0
  | sh :: shares =>
      match TokensFromShares sh S T with Ok t => t | _ => 0 end + tokens_sum shares S T
  end.

Lemma tokens_sum_bound `{SdkLaws} shares S T :
  0 < S → 0 ≤ T → Forall (λ sh, 0 ≤ sh ≤ S) shares →
  tokens_sum shares S T * dec_one * S ≤
    T * dec_one * foldr Z.add 0 shares + Z.of_nat (length shares) * (S - 1).
Proof.
  intros HS HT. pose proof dec_one_pos. induction 1 as [|sh shares [Hsh HshS] _ IH]; [cbn; lia|].
  destruct (TokensFromShares_total sh S T HS HshS) as [t Ht].
  cbn [tokens_sum foldr length]. rewrite Ht.
  apply TokensFromShares_Ok in Ht as (_ & q & [_ Hq] & ->); [|done..].
  assert (Hle : q / dec_one * dec_one ≤ q) by (pose proof (Z.mul_div_le q dec_one); lia).
  assert (Hq' : q * S ≤ sh * T * dec_one + S - 1).
  { transitivity ((sh * T * dec_one + S - 1) / S * S); [nia|].
    pose proof (Z.mul_div_le (sh * T * dec_one + S - 1) S). lia. }
  nia.
Qed.

Lemma tokens_sum_le `{SdkLaws} shares S T :
  0 < S → 0 ≤ T → Forall (λ sh, 0 ≤ sh) shares → foldr Z.add 0 shares ≤ S →
  Z.of_nat (length shares) ≤ dec_one → tokens_sum shares S T ≤ T.
Proof.
  intros HS HT Hnn Hsum Hlen.
  assert (Hall : Forall (λ sh, 0 ≤ sh ≤ S) shares).
  { clear Hlen. revert Hsum. induction Hnn as [|sh shares Hsh Hnn IH]; [done|]. cbn. intros Hsum.
    assert (0 ≤ foldr Z.add 0 shares) by (clear -Hnn; induction Hnn; cbn; lia).
    constructor; [lia|]. apply IH. lia. }
  pose proof (tokens_sum_bound shares S T HS HT Hall) as Hb. pose proof dec_one_pos.
  assert (0 ≤ T * dec_one) by nia.
  apply Z.lt_succ_r. apply Z.mul_lt_mono_pos_r with (p := dec_one * S); [nia|]. nia.
Qed.

(** ** Witnesses *)

(** Seven tokens and eight shares: undelegating six tokens removes five. *)
Lemma shares_roundtrip_witness :
  5 ≤ 6 ∧ (7 ≤ dec_of_int 8 → 6 - 1 ≤ 5).
Proof.
  apply (shares_roundtrip (dec_of_int 8) 6 7 6857142857142857142 5); by vm_compute.
Defined.
