(* ===== verification/DelegationTypes.v ===== *)
(** * The data and store keys of x/delegation (x/delegation/types)

    The records of the module and the encodings of its store keys, with the
    parsers.  The undelegation keys are fixed-width concatenations, the pending
    queue is ordered by epoch and then by undelegation ID. *)

From S2P Require Import Prelude Errors Sdk RefSdk KVStore.

(** ** Data *)

Record DelegationAmounts := {
  da_UndelegatableShare : LegacyDec;
  da_PendingUndelegationAmount : Int;
  da_RewardUndelegatableShare : LegacyDec;
  da_RewardPendingUndelegationAmount : Int;
}.

(** The same struct as a change: a nil field ([None]) changes nothing. *)
Record DeltaDelegationAmounts := {
  dda_UndelegatableShare : option LegacyDec;
  dda_PendingUndelegationAmount : option Int;
  dda_RewardUndelegatableShare : option LegacyDec;
  dda_RewardPendingUndelegationAmount : option Int;
}.

Record SingleDelegationInfo := {
  sdi_DelegationAmounts : DelegationAmounts;
  sdi_MaxUndelegatableAmount : Int;
  sdi_MaxUndelegatableRewardAmount : Int;
}.

Record DelegationInfoAndOperator := {
  dio_Operator : string;
  dio_DelegationInfo : SingleDelegationInfo;
}.

Record SingleDelegationInfoReq := {
  sdr_StakerId : string;
  sdr_OperatorAddr : string;
  sdr_AssetId : string;
}.

Record UndelegationAmountPerAVS := {
  uaa_AvsAddress : string;
  uaa_Amount : Int;
  uaa_ActualCompletedAmount : Int;
}.

Record UndelegationRecord := {
  ur_StakerId : string;
  ur_AssetId : string;
  ur_OperatorAddr : string;
  ur_TxHash : string;
  ur_BlockNumber : Z;
  ur_CompletedEpochIdentifier : string;
  ur_CompletedEpochNumber : Z;
  ur_UndelegationId : Z;
  ur_Amount : Int;
  ur_ActualCompletedAmount : Int;
  ur_InstantUnbonding : bool;
  ur_ApplySlash : bool;
  ur_InstantPenaltyAmount : option Int;
  ur_RewardAsset : bool;
  ur_RewardUndelegations : list UndelegationAmountPerAVS;
}.

#[export] Instance DelegationAmounts_eq_dec : EqDecision DelegationAmounts.
Proof. solve_decision. Defined.
#[export] Instance UndelegationAmountPerAVS_eq_dec : EqDecision UndelegationAmountPerAVS.
Proof. solve_decision. Defined.
#[export] Instance UndelegationRecord_eq_dec : EqDecision UndelegationRecord.
Proof. solve_decision. Defined.

Definition DelegatedPoolName : string := "delegated_tokens_pool".

(** ** Parameters (types/params.go) *)

Record Params := {
  p_InstantUndelegationPenalty : Z;
  p_MaxUndelegationCompletions : Z;
}.

Definition DefaultInstantUnbondingPenalty : Z := 25.

Definition NewParams (instantUnbondingPenalty : Z) : Params :=
  {| p_InstantUndelegationPenalty := instantUnbondingPenalty; p_MaxUndelegationCompletions := 0 |}.

Definition DefaultParams : Params := NewParams DefaultInstantUnbondingPenalty.

Definition Params_Validate (p : Params) : result error unit :=
  if 100 <? p_InstantUndelegationPenalty p then Err delegationtypes.ErrInvalidParams
  else Ok tt.

(** ** Keys (types/keys.go) *)

Definition AccAddressLength : nat := 20.
Definition ByteLengthForUint64 : nat := 8.
(** [common.HashLength] *)
Definition HashLength : nat := 32.

(** The slice expression [s[i:j]]. *)
Definition slice (i j : nat) (s : string) : string := String.substring i (j - i) s.

Section Keys.
Context {sdk : Sdk}.

Definition IteratorPrefixForStakerAsset (stakerID assetID : string) : string :=
  join_with "/" [stakerID; assetID] +:+ "/".

Definition ParseStakerAssetIDAndOperator (key : string) : result error SingleDelegationInfoReq :=
  stringList ← ParseJoinedKeyWithCount key 3;
  match stringList with
  | [s; a; o] => Ok {| sdr_StakerId := s; sdr_AssetId := a; sdr_OperatorAddr := o |}
  | _ => Panic
  end.

(** [MustAccAddressFromBech32] panics on an address that does not decode. *)
Definition GetUndelegationRecordKey (blockHeight undelegationID : Z) (txHash operatorAddr : string)
    : result error string :=
  match AccAddressFromBech32 operatorAddr with
  | None => Panic
  | Some operatorAccAddress =>
      Ok (AppendMany [operatorAccAddress; Uint64ToBigEndian blockHeight;
                      Uint64ToBigEndian undelegationID; HexToHash txHash])
  end.

Definition GetKey (r : UndelegationRecord) : result error string :=
  GetUndelegationRecordKey (ur_BlockNumber r) (ur_UndelegationId r) (ur_TxHash r)
    (ur_OperatorAddr r).

Record UndelegationKeyFields := {
  ukf_BlockHeight : Z;
  ukf_UndelegationID : Z;
  ukf_TxHash : string;
  ukf_OperatorAddr : string;
}.

Definition ParseUndelegationRecordKey (key : string) : result error UndelegationKeyFields :=
  let expectLength := (AccAddressLength + 2 * ByteLengthForUint64 + HashLength)%nat in
  if negb (String.length key =? expectLength)%nat then Err ErrLibrary
  else
    let operatorAccAddr := slice 0 AccAddressLength key in
    let startIndex := AccAddressLength in
    let height := BigEndianToUint64 (slice startIndex (startIndex + ByteLengthForUint64) key) in
    let startIndex := (startIndex + ByteLengthForUint64)%nat in
    let undelegationID :=
      BigEndianToUint64 (slice startIndex (startIndex + ByteLengthForUint64) key) in
    let startIndex := (startIndex + ByteLengthForUint64)%nat in
    let txHash := slice startIndex (startIndex + HashLength) key in
    Ok {| ukf_OperatorAddr := AccAddress_String operatorAccAddr; ukf_BlockHeight := height;
          ukf_UndelegationID := undelegationID; ukf_TxHash := Hash_String txHash |}.

(** [fmt.Sprintf("%021d", undelegationID)] *)
Definition GetStakerUndelegationRecordKey (stakerID assetID : string) (undelegationID : Z)
    : string :=
  let idStr := digits 10 dec_char 21 undelegationID in
  join_with "/" [stakerID; assetID; idStr].

Record PendingUndelegationKeyFields := {
  pkf_EpochIdentifier : string;
  pkf_EpochNumber : Z;
  pkf_UndelegationID : Z;
}.

Definition GetPendingUndelegationRecordKey (epochIdentifier : string)
    (epochNumber undelegationID : Z) : string :=
  AppendMany [Uint64ToBigEndian (Z.of_nat (String.length epochIdentifier)); epochIdentifier;
              Uint64ToBigEndian (wrap_uint64 epochNumber); Uint64ToBigEndian undelegationID].

Definition ParsePendingUndelegationKey (key : string)
    : result error PendingUndelegationKeyFields :=
  if (String.length key <=? 3 * ByteLengthForUint64)%nat then Err ErrLibrary
  else
    let identifierLen := BigEndianToUint64 (slice 0 ByteLengthForUint64 key) in
    if negb (Z.of_nat (String.length key) =? wrap_uint64 (24 + identifierLen)) then Err ErrLibrary
    else
      let n := Z.to_nat identifierLen in
      let b := ByteLengthForUint64 in
      Ok {| pkf_EpochIdentifier := slice b (b + n) key;
            pkf_EpochNumber := BigEndianToUint64 (slice (b + n) (b * 2 + n) key);
            pkf_UndelegationID :=
              BigEndianToUint64 (slice (b * 2 + n) (String.length key) key) |}.
End Keys.

(** ** Slices of concatenations *)

Lemma substring_app_l s t : String.substring 0 (String.length s) (s +:+ t) = s.
Proof.
  induction s as [|c s IH]; [by destruct t|]. rewrite app_cons. cbn. by rewrite IH.
Qed.

Lemma substring_app_r s t m n :
  String.substring (String.length s + m) n (s +:+ t) = String.substring m n t.
Proof. induction s as [|c s IH]; [done|]. rewrite app_cons. cbn. apply IH. Qed.

Lemma substring_full s : String.substring 0 (String.length s) s = s.
Proof. induction s as [|c s IH]; [done|]. cbn. by rewrite IH. Qed.

(** A slice that is exactly the middle part. *)
Lemma slice_middle i j s t u :
  i = String.length s → j = (String.length s + String.length t)%nat →
  slice i j (s +:+ (t +:+ u)) = t.
Proof.
  intros -> ->. unfold slice.
  replace (String.length s + String.length t - String.length s)%nat with (String.length t) by lia.
  rewrite <-(Nat.add_0_r (String.length s)), substring_app_r. apply substring_app_l.
Qed.

Lemma acc20_valid acc : String.length acc = AccAddressLength → valid_addr acc.
Proof.
  unfold AccAddressLength, valid_addr. intros Hacc. destruct acc; cbn in *; [lia|].
  split; [done|lia].
Qed.

Section KeyFacts.
Context `{SdkLaws}.

Lemma dec_char_digit d : 0 ≤ d < 10 → Z.of_nat (Ascii.nat_of_ascii (dec_char d)) - 48 = d.
Proof.
  intros Hd. unfold dec_char. rewrite Z.min_l by lia.
  rewrite Ascii.nat_ascii_embedding by lia. lia.
Qed.

Lemma dec_char_no_slash d : dec_char d ≠ "/"%char.
Proof.
  unfold dec_char. intros Heq%(f_equal Ascii.nat_of_ascii).
  rewrite Ascii.nat_ascii_embedding in Heq by (pose proof (Z.le_min_r d 9); lia).
  change (Ascii.nat_of_ascii "/"%char) with 47%nat in Heq. lia.
Qed.

Lemma id_str_key_part id : key_part (digits 10 dec_char 21 id).
Proof. apply no_char_digits, dec_char_no_slash. Qed.

Lemma staker_key_inj s a id s' a' id' :
  key_part s → key_part a → key_part s' → key_part a' → is_u64 id → is_u64 id' →
  GetStakerUndelegationRecordKey s a id = GetStakerUndelegationRecordKey s' a' id' →
  s = s' ∧ a = a' ∧ id = id'.
Proof.
  unfold is_u64. intros ???? Hid Hid' Heq.
  apply join3_inj in Heq as (-> & -> & Heq); try done; try apply id_str_key_part.
  do 2 (split; [done|]).
  apply (digits_inj 10 dec_char (λ c, Z.of_nat (Ascii.nat_of_ascii c) - 48)) in Heq;
    [done|lia|apply dec_char_digit|lia|lia].
Qed.

Lemma BE_length n : String.length (Uint64ToBigEndian n) = 8%nat.
Proof. apply u64_length. Qed.

Lemma BE_inj m n : is_u64 m → is_u64 n → Uint64ToBigEndian m = Uint64ToBigEndian n → m = n.
Proof. intros Hm Hn Heq. rewrite <-(u64_roundtrip m), Heq by done. by apply u64_roundtrip. Qed.

Lemma record_key_shape h id tx op acc :
  AccAddressFromBech32 op = Some acc →
  GetUndelegationRecordKey h id tx op =
    Ok (acc +:+ (Uint64ToBigEndian h +:+ (Uint64ToBigEndian id +:+ (HexToHash tx +:+ EmptyString)))).
Proof. intros Hop. unfold GetUndelegationRecordKey. by rewrite Hop. Qed.

(** Two records whose keys agree have the same height, ID, hash and operator:
    records of 20-byte operators never collide. *)
Lemma record_key_inj h id tx acc h' id' tx' acc' k :
  String.length acc = AccAddressLength → String.length acc' = AccAddressLength →
  is_u64 h → is_u64 h' → is_u64 id → is_u64 id' →
  GetUndelegationRecordKey h id tx (AccAddress_String acc) = Ok k →
  GetUndelegationRecordKey h' id' tx' (AccAddress_String acc') = Ok k →
  acc = acc' ∧ h = h' ∧ id = id' ∧ HexToHash tx = HexToHash tx'.
Proof.
  intros Hl Hl' Hh Hh' Hid Hid'.
  pose proof (acc20_valid _ Hl) as Hv. pose proof (acc20_valid _ Hl') as Hv'.
  rewrite !(record_key_shape _ _ _ _ _ (bech32_roundtrip _ Hv)).
  rewrite !(record_key_shape _ _ _ _ _ (bech32_roundtrip _ Hv')).
  intros [= <-] [= Heq]. apply app_inj_len in Heq as [-> Heq]; [|congruence].
  apply app_inj_len in Heq as [Eh Heq]; [|by rewrite !BE_length].
  apply app_inj_len in Heq as [Eid Heq]; [|by rewrite !BE_length].
  rewrite !app_empty_r in Heq.
  apply BE_inj in Eh, Eid; naive_solver.
Qed.
End KeyFacts.

(** ** The pending queue's order *)

Section PendingKeys.
Context `{SdkLaws}.

Lemma pending_key_shape ident n id :
  GetPendingUndelegationRecordKey ident n id =
    Uint64ToBigEndian (Z.of_nat (String.length ident)) +:+
      (ident +:+ (Uint64ToBigEndian (wrap_uint64 n) +:+ (Uint64ToBigEndian id +:+ EmptyString))).
Proof. done. Qed.

Lemma pending_key_inj ident n id ident' n' id' :
  is_u64 (Z.of_nat (String.length ident)) → is_u64 (Z.of_nat (String.length ident')) →
  is_u64 n → is_u64 n' → is_u64 id → is_u64 id' →
  GetPendingUndelegationRecordKey ident n id = GetPendingUndelegationRecordKey ident' n' id' →
  ident = ident' ∧ n = n' ∧ id = id'.
Proof.
  intros Hl Hl' Hn Hn' Hid Hid'. rewrite !pending_key_shape. intros Heq.
  apply app_inj_len in Heq as [El Heq]; [|by rewrite !BE_length].
  apply BE_inj in El; [|done..].
  apply app_inj_len in Heq as [-> Heq]; [|lia].
  apply app_inj_len in Heq as [En Heq]; [|by rewrite !BE_length].
  apply app_inj_len in Heq as [Eid _]; [|by rewrite !BE_length].
  rewrite !wrap_uint64_id in En by done.
  apply BE_inj in En, Eid; naive_solver.
Qed.

(** With the same identifier, the keys are in ascending order of the epoch. *)
Lemma pending_key_le ident n id n' id' :
  is_u64 n → is_u64 n' → n < n' →
  String.le (GetPendingUndelegationRecordKey ident n id)
            (GetPendingUndelegationRecordKey ident n' id').
Proof.
  intros Hn Hn' Hlt. rewrite !pending_key_shape. do 2 apply le_app.
  rewrite !wrap_uint64_id by done. apply le_app_ne.
  - by rewrite !BE_length.
  - apply u64_sortable; [done..|lia].
  - intros Heq%BE_inj; [lia|done..].
Qed.
Lemma pending_key_parse ident n id :
  ident ≠ EmptyString → Z.of_nat (String.length ident) < 2 ^ 63 → is_u64 n → is_u64 id →
  ParsePendingUndelegationKey (GetPendingUndelegationRecordKey ident n id) =
    Ok {| pkf_EpochIdentifier := ident; pkf_EpochNumber := n; pkf_UndelegationID := id |}.
Proof.
  intros Hne Hl Hn Hid. rewrite pending_key_shape. set (k := _ +:+ _).
  assert (Hpos : (0 < String.length ident)%nat) by (destruct ident; [done|cbn; lia]).
  assert (Hlen : String.length k = (24 + String.length ident)%nat)
    by (unfold k; rewrite !length_app_str, !BE_length; cbn; lia).
  assert (is_u64 (Z.of_nat (String.length ident))) by (unfold is_u64; lia).
  unfold ParsePendingUndelegationKey. rewrite Hlen.
  rewrite (proj2 (Nat.leb_gt _ _)) by (unfold ByteLengthForUint64; lia).
  assert (slice 0 ByteLengthForUint64 k = Uint64ToBigEndian (Z.of_nat (String.length ident))) as ->
    by (apply (slice_middle _ _ EmptyString); by rewrite ?BE_length).
  rewrite u64_roundtrip, wrap_uint64_id by (done || lia).
  rewrite (proj2 (Z.eqb_eq _ _)) by lia. cbn [negb]. rewrite Nat2Z.id.
  unfold ByteLengthForUint64.
  assert (slice 8 (8 + String.length ident) k = ident) as ->
    by (apply slice_middle; by rewrite BE_length).
  assert (slice (8 + String.length ident) (8 * 2 + String.length ident) k =
    Uint64ToBigEndian n) as ->.
  { unfold k. rewrite <-app_assoc_str, wrap_uint64_id by done.
    apply slice_middle; rewrite length_app_str, !BE_length; lia. }
  assert (slice (8 * 2 + String.length ident) (24 + String.length ident) k =
    Uint64ToBigEndian id) as ->.
  { unfold k. rewrite <-!app_assoc_str, app_assoc_str.
    apply slice_middle; rewrite !length_app_str, !BE_length; lia. }
  by rewrite !u64_roundtrip.
Qed.
End PendingKeys.

(** ** The key of a record *)

Lemma record_key_parse `{SdkLaws} acc h id tx :
  String.length acc = AccAddressLength → is_u64 h → is_u64 id →
  ParseUndelegationRecordKey
      (acc +:+ (Uint64ToBigEndian h +:+ (Uint64ToBigEndian id +:+ (HexToHash tx +:+ EmptyString)))) =
    Ok {| ukf_OperatorAddr := AccAddress_String acc; ukf_BlockHeight := h;
          ukf_UndelegationID := id; ukf_TxHash := Hash_String (HexToHash tx) |}.
Proof.
  intros Hacc Hh Hid.
  set (k := acc +:+ _).
  assert (Hlen : String.length k = 68%nat)
    by (unfold k; rewrite !length_app_str, !BE_length, hash_length, Hacc; done).
  unfold ParseUndelegationRecordKey. rewrite Hlen. cbn [Nat.eqb negb].
  assert (slice 0 AccAddressLength k = acc) as -> by (by apply (slice_middle _ _ EmptyString)).
  assert (slice AccAddressLength (AccAddressLength + ByteLengthForUint64) k = Uint64ToBigEndian h)
    as -> by (apply slice_middle; rewrite ?BE_length; by rewrite ?Hacc).
  assert (slice (AccAddressLength + ByteLengthForUint64)
    (AccAddressLength + ByteLengthForUint64 + ByteLengthForUint64) k = Uint64ToBigEndian id) as ->.
  { unfold k. rewrite <-app_assoc_str.
    apply slice_middle; rewrite length_app_str, ?BE_length; by rewrite ?Hacc. }
  assert (slice (AccAddressLength + ByteLengthForUint64 + ByteLengthForUint64)
    (AccAddressLength + ByteLengthForUint64 + ByteLengthForUint64 + HashLength) k = HexToHash tx) as ->.
  { unfold k. rewrite <-!app_assoc_str, app_assoc_str.
    apply slice_middle; rewrite !length_app_str, ?BE_length, ?hash_length; by rewrite ?Hacc. }
  by rewrite !u64_roundtrip.
Qed.

(** ** Properties *)

(** The key of an undelegation record determines it: parsing the key built
    for a 20-byte operator address gives back the operator, the height, the
    undelegation ID and the transaction hash. *)
Theorem undelegation_record_key_roundtrip `{SdkLaws} h id tx acc :
  String.length acc = AccAddressLength → is_u64 h → is_u64 id →
  ∃ key, GetUndelegationRecordKey h id tx (AccAddress_String acc) = Ok key ∧
    ParseUndelegationRecordKey key =
      Ok {| ukf_OperatorAddr := AccAddress_String acc; ukf_BlockHeight := h;
            ukf_UndelegationID := id; ukf_TxHash := Hash_String (HexToHash tx) |}.
Proof.
  intros Hacc Hh Hid. pose proof (acc20_valid _ Hacc) as Hv.
  eexists. split; [by apply record_key_shape, bech32_roundtrip|by apply record_key_parse].
Qed.

(** The key of the pending queue determines the epoch and the undelegation
    ID: parsing the key built for a non-empty identifier gives them back. *)
Theorem pending_undelegation_key_roundtrip `{SdkLaws} ident n id :
  ident ≠ EmptyString → Z.of_nat (String.length ident) < 2 ^ 63 → is_u64 n → is_u64 id →
  ParsePendingUndelegationKey (GetPendingUndelegationRecordKey ident n id) =
    Ok {| pkf_EpochIdentifier := ident; pkf_EpochNumber := n; pkf_UndelegationID := id |}.
Proof. apply pending_key_parse. Qed.

(** ** Witnesses *)

Definition sample_acc : string := "operator-address-20b".

Lemma undelegation_record_key_roundtrip_witness :
  ∃ key, GetUndelegationRecordKey 7 3 "0x00" (AccAddress_String sample_acc) = Ok key ∧
    ParseUndelegationRecordKey key =
      Ok {| ukf_OperatorAddr := AccAddress_String sample_acc; ukf_BlockHeight := 7;
            ukf_UndelegationID := 3; ukf_TxHash := Hash_String (HexToHash "0x00") |}.
Proof. by apply (undelegation_record_key_roundtrip 7 3 "0x00" sample_acc). Defined.

Lemma pending_undelegation_key_roundtrip_witness :
  ParsePendingUndelegationKey (GetPendingUndelegationRecordKey "week" 12 5) =
    Ok {| pkf_EpochIdentifier := "week"; pkf_EpochNumber := 12; pkf_UndelegationID := 5 |}.
Proof. by apply (pending_undelegation_key_roundtrip "week" 12 5). Defined.
