(* ===== verification/Assets.v ===== *)
(** * The assets module (x/assets)

    Client chains, staking assets, the balances of stakers and the pools of
    operators.  Each one-byte key prefix of the module is a finite map; the keys
    are the joined strings of the source.  [UpdateStakerAssetState] and
    [UpdateOperatorAssetState] are the two writers of balances: every other
    module goes through them.  A nil amount in a change is [None]. *)

From S2P Require Import Prelude Errors Sdk RefSdk KVStore DelegationTypes.

(** ** Data (types/tx.pb.go, types/general.go) *)

Record ClientChainInfo := {
  cc_Name : string;
  cc_MetaInfo : string;
  cc_ChainId : Z;
  cc_ImuaChainIndex : Z;
  cc_FinalizationBlocks : Z;
  cc_LayerZeroChainID : Z;
  cc_SignatureType : string;
  cc_AddressLength : Z;
}.

Record AssetInfo := {
  ai_Name : string;
  ai_Symbol : string;
  ai_Address : string;
  ai_Decimals : Z;
  ai_LayerZeroChainID : Z;
  ai_ImuaChainIndex : Z;
  ai_MetaInfo : string;
}.

Record StakingAssetInfo := {
  AssetBasicInfo : AssetInfo;
  StakingTotalAmount : Int;
}.

Record StakerAssetInfo := {
  sa_TotalDepositAmount : Int;
  sa_WithdrawableAmount : Int;
  sa_PendingUndelegationAmount : Int;
}.

Record OperatorAssetInfo := {
  oa_TotalAmount : Int;
  oa_PendingUndelegationAmount : Int;
  oa_TotalShare : LegacyDec;
  oa_OperatorShare : LegacyDec;
}.

Record DeltaStakerSingleAsset := {
  dsa_TotalDepositAmount : option Int;
  dsa_WithdrawableAmount : option Int;
  dsa_PendingUndelegationAmount : option Int;
}.

Record DeltaOperatorSingleAsset := {
  doa_TotalAmount : option Int;
  doa_PendingUndelegationAmount : option Int;
  doa_TotalShare : option LegacyDec;
  doa_OperatorShare : option LegacyDec;
}.

(** [CrossChainOpType] is a [uint8]; [UnknownOp] stands for the other values. *)
Inductive CrossChainOpType :=
| DepositLST | WithdrawLST | DepositNST | WithdrawNST | WithdrawReward
| UnknownOp (c : Z).

#[export] Instance StakerAssetInfo_eq_dec : EqDecision StakerAssetInfo.
Proof. solve_decision. Defined.
#[export] Instance OperatorAssetInfo_eq_dec : EqDecision OperatorAssetInfo.
Proof. solve_decision. Defined.
#[export] Instance AssetInfo_eq_dec : EqDecision AssetInfo.
Proof. solve_decision. Defined.
#[export] Instance StakingAssetInfo_eq_dec : EqDecision StakingAssetInfo.
Proof. solve_decision. Defined.
#[export] Instance ClientChainInfo_eq_dec : EqDecision ClientChainInfo.
Proof. solve_decision. Defined.

(** The store of the module, one map per prefix of types/keys.go. *)
Record AssetsState := {
  clientChains : gmap string ClientChainInfo;
  stakingAssets : gmap string StakingAssetInfo;
  stakerAssets : gmap string StakerAssetInfo;
  operatorAssets : gmap string OperatorAssetInfo;
  (** [Params.Gateways] *)
  assetsParams : option (list string);
}.

Definition empty_assets : AssetsState :=
  {| clientChains := ∅; stakingAssets := ∅; stakerAssets := ∅; operatorAssets := ∅;
     assetsParams := None |}.

Definition ImuachainLzID : Z := 0.
Definition ImuachainAssetAddr : string := "0x0000000000000000000000000000000000000000".
Definition ImuachainAssetID : string := "0x0000000000000000000000000000000000000000_0x0".
Definition ImuachainAssetDenom : string := "hua".
Definition FillCharForRestakingAssetAddr : ascii := Ascii.ascii_of_N 238.
Definition MaxDecimal : Z := 18.

(** [strings.ToLower] on the hex addresses and identifiers it is applied to
    (letters beyond ASCII do not occur in them). *)
Definition lower_char (c : ascii) : ascii :=
  let n := Ascii.N_of_ascii c in
  if ((65 <=? n) && (n <=? 90))%N then Ascii.ascii_of_N (n + 32) else c.
Fixpoint ToLower (s : string) : string :=
  match s with EmptyString => EmptyString | String c s => String (lower_char c) (ToLower s) end.

Section Types.
Context {sdk : Sdk}.

Definition join_id (addr : string) (clientChainLzID : Z) : string :=
  join_with (String DelimiterForID EmptyString) [addr; hexutil_EncodeUint64 clientChainLzID].

(** A nil address gives an empty identifier. *)
Definition GetStakerIDAndAssetID (clientChainLzID : Z) (stakerAddress assetsAddress : option string)
    : string * string :=
  let id := λ addr, match addr with
                    | Some a => join_id (hexutil_Encode a) clientChainLzID
                    | None => EmptyString
                    end in
  (id stakerAddress, id assetsAddress).

Definition GetStakerIDAndAssetIDFromStr (clientChainLzID : Z) (stakerAddress assetsAddress : string)
    : string * string :=
  let id := λ addr, if decide (addr = EmptyString) then EmptyString
                    else join_id (ToLower addr) clientChainLzID in
  (id stakerAddress, id assetsAddress).

(** newValue = valueToUpdate + changeValue *)
Definition UpdateAssetValue (valueToUpdate : Int) (changeValue : option Int) : result error Int :=
  match changeValue with
  | None => Ok valueToUpdate
  | Some c =>
      if c =? 0 then Ok valueToUpdate
      else if (c <? 0) && (valueToUpdate <? - c) then Err assetstypes.ErrSubAmountIsMoreThanOrigin
      else Ok (valueToUpdate + c)
  end.

Definition UpdateAssetDecValue (valueToUpdate : LegacyDec) (changeValue : option LegacyDec)
    : result error LegacyDec :=
  match changeValue with
  | None => Ok valueToUpdate
  | Some c =>
      if c =? 0 then Ok valueToUpdate
      else if (c <? 0) && (valueToUpdate <? - c) then Err assetstypes.ErrSubAmountIsMoreThanOrigin
      else Ok (valueToUpdate + c)
  end.

(** a byte slice as a string *)
Fixpoint bytes_string (l : list ascii) : string :=
  match l with [] => EmptyString | c :: l => String c (bytes_string l) end.

(** [copy(dst, src)] *)
Definition copy_into (dst src : list ascii) : list ascii :=
  take (length dst) src ++ drop (length src) dst.

(** [for i := 1; i < n; i *= 2 { copy(address[i:], address[:i]) }] *)
Fixpoint fill_loop (fuel i n : nat) (address : list ascii) : list ascii :=
  match fuel with
  | O => address
  | S fuel =>
      if (i <? n)%nat
      then fill_loop fuel (i * 2) n
             (take i address ++ copy_into (drop i address) (take i address))
      else address
  end.

Definition GenerateNSTAddr (clientChainAddrLength : nat) : list ascii :=
  if (clientChainAddrLength =? 0)%nat then []
  else
    let address := replicate clientChainAddrLength "000"%char in
    let address := <[0%nat := FillCharForRestakingAssetAddr]> address in
    fill_loop clientChainAddrLength 1 clientChainAddrLength address.

Definition ParseID (key : string) : result error (string * Z) :=
  match split_on DelimiterForID key with
  | [k0; k1] =>
      if (String.length k0 =? 0)%nat then Err assetstypes.ErrParseAssetsStateKey
      else match hexutil_DecodeUint64 k1 with
           | None => Err assetstypes.ErrParseAssetsStateKey
           | Some id => Ok (k0, id)
           end
  | _ => Err assetstypes.ErrParseAssetsStateKey
  end.

Definition ValidateID (key : string) (checkLowercase validateEth : bool)
    : result error (string * Z) :=
  if checkLowercase && negb (bool_decide (key = ToLower key))
  then Err assetstypes.ErrParseAssetsStateKey
  else match ParseID key with
       | Ok (clientAddress, lzID) =>
           if validateEth && negb (common_IsHexAddress clientAddress)
           then Err assetstypes.ErrParseAssetsStateKey
           else Ok (clientAddress, lzID)
       | _ => Err assetstypes.ErrParseAssetsStateKey
       end.

Fixpoint all_fill (s : string) : bool :=
  match s with
  | EmptyString => true
  | String c s => if Ascii.eqb c FillCharForRestakingAssetAddr then all_fill s else false
  end.

Definition IsNST (assetID : string) : bool :=
  match ParseID assetID with
  | Ok (assetAddr, _) =>
      match hexutil_Decode assetAddr with
      | Some addressBytes => all_fill addressBytes
      | None => false
      end
  | _ => false
  end.

Definition AssetID (info : AssetInfo) : string :=
  (GetStakerIDAndAssetIDFromStr (ai_LayerZeroChainID info) EmptyString (ai_Address info)).2.
End Types.

(** ** Writes to one prefix of the store *)

Definition set_clientChains f (s : AssetsState) : AssetsState :=
  {| clientChains := f (clientChains s); stakingAssets := stakingAssets s;
     stakerAssets := stakerAssets s; operatorAssets := operatorAssets s;
     assetsParams := assetsParams s |}.
Definition set_stakingAssets f (s : AssetsState) : AssetsState :=
  {| clientChains := clientChains s; stakingAssets := f (stakingAssets s);
     stakerAssets := stakerAssets s; operatorAssets := operatorAssets s;
     assetsParams := assetsParams s |}.
Definition set_stakerAssets f (s : AssetsState) : AssetsState :=
  {| clientChains := clientChains s; stakingAssets := stakingAssets s;
     stakerAssets := f (stakerAssets s); operatorAssets := operatorAssets s;
     assetsParams := assetsParams s |}.
Definition set_operatorAssets f (s : AssetsState) : AssetsState :=
  {| clientChains := clientChains s; stakingAssets := stakingAssets s;
     stakerAssets := stakerAssets s; operatorAssets := f (operatorAssets s);
     assetsParams := assetsParams s |}.
Definition set_assetsParams p (s : AssetsState) : AssetsState :=
  {| clientChains := clientChains s; stakingAssets := stakingAssets s;
     stakerAssets := stakerAssets s; operatorAssets := operatorAssets s; assetsParams := p |}.

Definition is_some {A} (o : option A) : bool := match o with Some _ => true | None => false end.

(** The query interface of x/delegation (keeper/expected_keepers.go), read in
    the current state. *)
Record delegationKeeper := {
  dk_GetDelegationInfo : string → string → result error (list DelegationInfoAndOperator);
  dk_TotalDelegatedAmountForStakingAsset : string → string → result error Int;
  dk_GetPendingUndelegationFinalAmount : string → string → result error Int;
}.

(** [DepositByAsset] and [AssetByID]; [DepositsByStaker] and [AssetsByOperator] *)
Record AssetEntry (V : Type) := { ae_AssetID : string; ae_Info : V }.
Record ByOwner (V : Type) := { bo_Owner : string; bo_Entries : list (AssetEntry V) }.
Arguments Build_AssetEntry {V}.
Arguments ae_AssetID {V}.
Arguments ae_Info {V}.
Arguments Build_ByOwner {V}.
Arguments bo_Owner {V}.
Arguments bo_Entries {V}.
Abbreviation DepositByAsset := (AssetEntry StakerAssetInfo).
Abbreviation DepositsByStaker := (ByOwner StakerAssetInfo).
Abbreviation AssetByID := (AssetEntry OperatorAssetInfo).
Abbreviation AssetsByOperator := (ByOwner OperatorAssetInfo).
Record StakerBalance := {
  sb_StakerId : string;
  sb_AssetId : string;
  sb_Balance : Int;
  sb_Withdrawable : Int;
  sb_Delegated : Int;
  sb_PendingUndelegated : Int;
  sb_TotalDeposited : Int;
}.
Record DepositWithdrawParams := {
  dwp_ClientChainLzID : Z;
  dwp_Action : CrossChainOpType;
  dwp_AssetsAddress : string;
  dwp_StakerAddress : string;
  dwp_OpAmount : Int;
}.

Section Keeper.
Context {sdk : Sdk}.

(** ** Client chains (keeper/client_chain.go) *)

Definition SetClientChainInfo (info : ClientChainInfo) : M AssetsState error bool :=
  let key := hexutil_EncodeUint64 (cc_LayerZeroChainID info) in
  updated ← gets (λ s, is_some (clientChains s !! key));
  _ ← modify (set_clientChains (insert key info));
  mret updated.

Definition ClientChainExists (index : Z) (s : AssetsState) : bool :=
  is_some (clientChains s !! hexutil_EncodeUint64 index).

Definition GetClientChainInfoByIndex (index : Z) : M AssetsState error ClientChainInfo :=
  value ← gets (λ s, clientChains s !! hexutil_EncodeUint64 index);
  match value with
  | None => fail assetstypes.ErrNoClientChainKey
  | Some info => mret info
  end.

Definition GetAllClientChainInfo (s : AssetsState) : list ClientChainInfo :=
  (prefix_iterator EmptyString (clientChains s)).*2.

(** [uint32] truncates *)
Definition GetAllClientChainID (s : AssetsState) : list Z :=
  (λ clientChain, cc_LayerZeroChainID clientChain mod 2 ^ 32) <$> GetAllClientChainInfo s.

(** ** Staking assets (keeper/client_chain_asset.go) *)

Definition UpdateStakingAssetTotalAmount (assetID : string) (changeAmount : option Int)
    : M AssetsState error unit :=
  match changeAmount with
  | None => fail assetstypes.ErrInputPointerIsNil
  | Some _ =>
      value ← gets (λ s, stakingAssets s !! assetID);
      match value with
      | None => fail assetstypes.ErrNoClientChainAssetKey
      | Some ret =>
          total ← lift_result (UpdateAssetValue (StakingTotalAmount ret) changeAmount);
          modify (set_stakingAssets (insert assetID
            {| AssetBasicInfo := AssetBasicInfo ret; StakingTotalAmount := total |}))
      end
  end.

Definition IsStakingAsset (assetID : string) (s : AssetsState) : bool :=
  is_some (stakingAssets s !! assetID).

Definition SetStakingAssetInfo (info : StakingAssetInfo) : M AssetsState error unit :=
  _ ← fail_if (MaxDecimal <? ai_Decimals (AssetBasicInfo info)) assetstypes.ErrInvalidInputParameter;
  _ ← fail_if (StakingTotalAmount info <? 0) assetstypes.ErrInvalidInputParameter;
  let assetID := (GetStakerIDAndAssetIDFromStr (ai_LayerZeroChainID (AssetBasicInfo info))
                    EmptyString (ai_Address (AssetBasicInfo info))).2 in
  has ← gets (IsStakingAsset assetID);
  _ ← fail_if has assetstypes.ErrRegisterDuplicateAssetID;
  modify (set_stakingAssets (insert assetID info)).

Definition GetStakingAssetInfo (assetID : string) : M AssetsState error StakingAssetInfo :=
  value ← gets (λ s, stakingAssets s !! assetID);
  match value with
  | None => fail assetstypes.ErrNoClientChainAssetKey
  | Some ret => mret ret
  end.

Definition UpdateStakingAssetMetaInfo (assetID metainfo : string) : M AssetsState error unit :=
  info ← GetStakingAssetInfo assetID;
  let a := AssetBasicInfo info in
  modify (set_stakingAssets (insert assetID
    {| AssetBasicInfo :=
         {| ai_Name := ai_Name a; ai_Symbol := ai_Symbol a; ai_Address := ai_Address a;
            ai_Decimals := ai_Decimals a; ai_LayerZeroChainID := ai_LayerZeroChainID a;
            ai_ImuaChainIndex := ai_ImuaChainIndex a; ai_MetaInfo := metainfo |};
       StakingTotalAmount := StakingTotalAmount info |})).

(** The decimals of the assets of a set, visited in some order. *)
Fixpoint get_decimals (assets : list string) (s : AssetsState) : result error (gmap string Z) :=
  match assets with
  | [] => Ok ∅
  | assetID :: assets =>
      match stakingAssets s !! assetID with
      | None => Err assetstypes.ErrNoClientChainAssetKey
      | Some ret =>
          decimals ← get_decimals assets s;
          Ok (<[assetID := ai_Decimals (AssetBasicInfo ret)]> decimals)
      end
  end.

Definition GetAssetsDecimal (assets : option (gset string)) (s : AssetsState)
    : result error (gmap string Z) :=
  match assets with
  | None => Err assetstypes.ErrInputPointerIsNil
  | Some assets => get_decimals (elements assets) s
  end.

Definition GetAllStakingAssetsInfo (s : AssetsState) : list StakingAssetInfo :=
  (prefix_iterator EmptyString (stakingAssets s)).*2.

(** ** Staker balances (keeper/staker_asset.go) *)

Definition staker_zero : StakerAssetInfo :=
  {| sa_TotalDepositAmount := 0; sa_WithdrawableAmount := 0; sa_PendingUndelegationAmount := 0 |}.

Definition UpdateStakerAssetState (stakerID assetID : string)
    (changeAmount : DeltaStakerSingleAsset) : M AssetsState error StakerAssetInfo :=
  let key := GetJoinedStoreKey [stakerID; assetID] in
  assetState ← gets (λ s, default staker_zero (stakerAssets s !! key));
  total ← lift_result (UpdateAssetValue (sa_TotalDepositAmount assetState)
                         (dsa_TotalDepositAmount changeAmount));
  withdrawable ← lift_result (UpdateAssetValue (sa_WithdrawableAmount assetState)
                                (dsa_WithdrawableAmount changeAmount));
  pending ← lift_result (UpdateAssetValue (sa_PendingUndelegationAmount assetState)
                           (dsa_PendingUndelegationAmount changeAmount));
  let assetState := {| sa_TotalDepositAmount := total; sa_WithdrawableAmount := withdrawable;
                       sa_PendingUndelegationAmount := pending |} in
  _ ← modify (set_stakerAssets (insert key assetState));
  mret assetState.

(** The loop of [AllDeposits] and [AllOperatorAssets]; [ret] is held in reverse,
    so that its head is [ret[len(ret)-1]]. *)
Fixpoint group_by_owner {V} (entries : list (string * V)) (previous : string)
    (ret : list (ByOwner V)) : result error (list (ByOwner V)) :=
  match entries with
  | [] => Ok (rev ret)
  | (key, info) :: entries =>
      keyList ← ParseJoinedKeyWithCount key 2;
      match keyList with
      | [owner; assetID] =>
          let ret := if bool_decide (previous = owner) then ret
                     else {| bo_Owner := owner; bo_Entries := [] |} :: ret in
          match ret with
          | [] => Panic
          | d :: ret =>
              group_by_owner entries owner
                ({| bo_Owner := bo_Owner d;
                    bo_Entries := bo_Entries d ++
                      [{| ae_AssetID := assetID; ae_Info := info |}] |} :: ret)
          end
      | _ => Panic
      end
  end.

Definition AllDeposits (s : AssetsState) : result error (list DepositsByStaker) :=
  group_by_owner (prefix_iterator EmptyString (stakerAssets s)) EmptyString [].

Section Queries.
(** The bank's [GetBalance] and the delegation queries in the current state. *)
Context (GetBalance : string → string → Int) (dk : delegationKeeper).

Definition GetStakerSpecifiedAssetInfo (stakerID assetID : string)
    : M AssetsState error StakerAssetInfo :=
  isAsset ← gets (IsStakingAsset assetID);
  _ ← fail_if (negb isAsset) assetstypes.ErrNoClientChainAssetKey;
  if decide (assetID = ImuachainAssetID) then
    parsed ← lift_result (ParseID stakerID);
    match hexutil_Decode parsed.1 with
    | None => fail ErrLibrary
    | Some stakerAcc =>
        let balance := GetBalance stakerAcc ImuachainAssetDenom in
        records ← lift_result (dk_GetDelegationInfo dk stakerID assetID);
        mret (foldl (λ info d,
          let i := dio_DelegationInfo d in
          let pending := da_PendingUndelegationAmount (sdi_DelegationAmounts i) in
          {| sa_TotalDepositAmount :=
               sa_TotalDepositAmount info + sdi_MaxUndelegatableAmount i + pending;
             sa_WithdrawableAmount := sa_WithdrawableAmount info;
             sa_PendingUndelegationAmount := sa_PendingUndelegationAmount info + pending |})
          {| sa_TotalDepositAmount := balance; sa_WithdrawableAmount := balance;
             sa_PendingUndelegationAmount := 0 |} records)
    end
  else
    value ← gets (λ s, stakerAssets s !! GetJoinedStoreKey [stakerID; assetID]);
    match value with
    | None => fail assetstypes.ErrNoStakerAssetKey
    | Some ret => mret ret
    end.

Fixpoint collect_assets (entries : list (string * StakerAssetInfo))
    : result error (list DepositByAsset) :=
  match entries with
  | [] => Ok []
  | (key, stateInfo) :: entries =>
      keyList ← ParseJoinedKeyWithCount key 2;
      match keyList with
      | [_; assetID] =>
          ret ← collect_assets entries;
          Ok ({| ae_AssetID := assetID; ae_Info := stateInfo |} :: ret)
      | _ => Panic
      end
  end.

Definition GetStakerAssetInfos (stakerID : string) : M AssetsState error (list DepositByAsset) :=
  _ ← fail_if (bool_decide (stakerID = EmptyString)) assetstypes.ErrInvalidInputParameter;
  entries ← gets (λ s, prefix_iterator stakerID (stakerAssets s));
  ret ← lift_result (collect_assets entries);
  isAsset ← gets (IsStakingAsset ImuachainAssetID);
  if negb isAsset then mret ret
  else
    info ← GetStakerSpecifiedAssetInfo stakerID ImuachainAssetID;
    mret (ret ++ [{| ae_AssetID := ImuachainAssetID; ae_Info := info |}]).

Definition GetStakerBalanceByAsset (stakerID assetID : string) : M AssetsState error StakerBalance :=
  info ← GetStakerSpecifiedAssetInfo stakerID assetID;
  delegatedAmount ← lift_result (dk_TotalDelegatedAmountForStakingAsset dk stakerID assetID);
  pendingFinal ← lift_result (dk_GetPendingUndelegationFinalAmount dk stakerID assetID);
  mret {| sb_StakerId := stakerID; sb_AssetId := assetID;
          sb_Balance := sa_WithdrawableAmount info + pendingFinal + delegatedAmount;
          sb_Withdrawable := sa_WithdrawableAmount info;
          sb_Delegated := delegatedAmount;
          sb_PendingUndelegated := sa_PendingUndelegationAmount info;
          sb_TotalDeposited := sa_TotalDepositAmount info |}.
End Queries.

(** ** Operator pools (keeper/operator_asset.go) *)

Definition operator_zero : OperatorAssetInfo :=
  {| oa_TotalAmount := 0; oa_PendingUndelegationAmount := 0; oa_TotalShare := 0;
     oa_OperatorShare := 0 |}.

Definition IsOperatorAssetExist (operatorAddr assetID : string) (s : AssetsState) : bool :=
  is_some (operatorAssets s !! GetJoinedStoreKey [AccAddress_String operatorAddr; assetID]).

Definition GetOperatorSpecifiedAssetInfo (operatorAddr assetID : string)
    : M AssetsState error OperatorAssetInfo :=
  value ← gets (λ s, operatorAssets s !! GetJoinedStoreKey [AccAddress_String operatorAddr; assetID]);
  match value with
  | None => fail assetstypes.ErrNoOperatorAssetKey
  | Some ret => mret ret
  end.

(** Returns the state before the update. *)
Definition UpdateOperatorAssetState (operatorAddr assetID : string)
    (changeAmount : DeltaOperatorSingleAsset) : M AssetsState error OperatorAssetInfo :=
  let key := GetJoinedStoreKey [AccAddress_String operatorAddr; assetID] in
  assetState ← gets (λ s, default operator_zero (operatorAssets s !! key));
  totalAmount ← lift_result (UpdateAssetValue (oa_TotalAmount assetState)
                               (doa_TotalAmount changeAmount));
  pending ← lift_result (UpdateAssetValue (oa_PendingUndelegationAmount assetState)
                           (doa_PendingUndelegationAmount changeAmount));
  totalShare ← lift_result (UpdateAssetDecValue (oa_TotalShare assetState)
                              (doa_TotalShare changeAmount));
  operatorShare ← lift_result (UpdateAssetDecValue (oa_OperatorShare assetState)
                                 (doa_OperatorShare changeAmount));
  _ ← modify (set_operatorAssets (insert key
        {| oa_TotalAmount := totalAmount; oa_PendingUndelegationAmount := pending;
           oa_TotalShare := totalShare; oa_OperatorShare := operatorShare |}));
  mret assetState.

Definition AllOperatorAssets (s : AssetsState) : result error (list AssetsByOperator) :=
  group_by_owner (prefix_iterator EmptyString (operatorAssets s)) EmptyString [].

Section Iterate.
(** The state the callback works on, which contains the store of the module. *)
Context {S : Type} (get : S → AssetsState) (put : AssetsState → S → S).
Context (isUpdate : bool) (assetsFilter : option (gset string)).
Context (opFunc : string → OperatorAssetInfo → M S error OperatorAssetInfo).

(** The iteration: the callback may change the state it is handed; the new
    values are collected when [isUpdate] is set. *)
Fixpoint iterate_assets (entries : list (string * OperatorAssetInfo))
    : M S error (list (string * OperatorAssetInfo)) :=
  match entries with
  | [] => mret []
  | (key, amounts) :: entries =>
      keys ← lift_result (ParseJoinedKeyWithCount key 2);
      match keys with
      | [_; assetID] =>
          if match assetsFilter with
             | Some filter => negb (bool_decide (assetID ∈ filter))
             | None => false
             end
          then iterate_assets entries
          else
            amounts' ← opFunc assetID amounts;
            updates ← iterate_assets entries;
            mret (if isUpdate then (key, amounts') :: updates else updates)
      | _ => panic
      end
  end.

Definition IterateAssetsForOperator (operator : string) : M S error unit :=
  match AccAddressFromBech32 operator with
  | None => fail assetstypes.ErrInvalidInputParameter
  | Some _ =>
      entries ← gets (λ s, prefix_iterator operator (operatorAssets (get s)));
      updates ← iterate_assets entries;
      modify (λ s, put (set_operatorAssets
        (insert_all updates) (get s)) s)
  end.
End Iterate.

(** The callback appends to a slice held beside the store. *)
Definition GetOperatorAssetInfos (operator : string) (assetsFilter : option (gset string))
    : M AssetsState error (list AssetByID) := λ s,
  let '(r, (_, ret)) :=
    IterateAssetsForOperator fst (λ a s, (a, s.2)) false assetsFilter
      (λ assetID state s',
         (Ok state, (s'.1, s'.2 ++ [{| ae_AssetID := assetID; ae_Info := state |}])))
      operator (s, [])
  in (match r with Ok _ => Ok ret | Err e => Err e | Panic => Panic end, s).

(** ** Deposits and withdrawals (keeper/bank.go) *)

Definition PerformDepositOrWithdraw (params : DepositWithdrawParams) : M AssetsState error Int :=
  _ ← fail_if (dwp_OpAmount params <=? 0) assetstypes.ErrInvalidAmount;
  let '(stakerID, assetID) := GetStakerIDAndAssetID (dwp_ClientChainLzID params)
    (Some (dwp_StakerAddress params)) (Some (dwp_AssetsAddress params)) in
  isAsset ← gets (IsStakingAsset assetID);
  _ ← fail_if (negb isAsset) assetstypes.ErrNoClientChainAssetKey;
  _ ← fail_if (bool_decide (assetID = ImuachainAssetID)) assetstypes.ErrNoClientChainAssetKey;
  actualOpAmount ← match dwp_Action params with
                   | DepositLST | DepositNST => mret (dwp_OpAmount params)
                   | WithdrawLST | WithdrawNST => mret (- dwp_OpAmount params)
                   | _ => fail assetstypes.ErrInvalidOperationType
                   end;
  info ← UpdateStakerAssetState stakerID assetID
           {| dsa_TotalDepositAmount := Some actualOpAmount;
              dsa_WithdrawableAmount := Some actualOpAmount;
              dsa_PendingUndelegationAmount := None |};
  _ ← UpdateStakingAssetTotalAmount assetID (Some actualOpAmount);
  mret (sa_TotalDepositAmount info).

(** ** Parameters (types/params.go, keeper/params.go, keeper/msg_server.go) *)

Definition DefaultGateway : string := "0x0000000000000000000000000000000000000901".

Definition forbiddenGatewayAddresses : list string := [
  "0x0000000000000000000000000000000000000000";
  "0x0000000000000000000000000000000000000001"; "0x0000000000000000000000000000000000000002";
  "0x0000000000000000000000000000000000000003"; "0x0000000000000000000000000000000000000004";
  "0x0000000000000000000000000000000000000005"; "0x0000000000000000000000000000000000000006";
  "0x0000000000000000000000000000000000000007"; "0x0000000000000000000000000000000000000008";
  "0x0000000000000000000000000000000000000009"; "0x0000000000000000000000000000000000000400";
  "0x0000000000000000000000000000000000000804"; "0x0000000000000000000000000000000000000805";
  "0x0000000000000000000000000000000000000806"; "0x0000000000000000000000000000000000000809"
].

Definition ValidateGatewayAddress (gateway : string) : result error unit :=
  if negb (common_IsHexAddress gateway) then Err ErrLibrary
  else if bool_decide (HexToAddress gateway = bytes_string (replicate 20 "000"%char))
  then Err ErrLibrary
  else Ok tt.

Fixpoint validate_gateways (seen : gset string) (gateways : list string) : result error unit :=
  match gateways with
  | [] => Ok tt
  | gateway :: gateways =>
      let lowercased := ToLower gateway in
      _ ← ValidateGatewayAddress gateway;
      if bool_decide (lowercased ∈ seen) then Err ErrDuplicateElement
      else validate_gateways ({[lowercased]} ∪ seen) gateways
  end.

Definition ValidateBasic (gateways : list string) : result error unit :=
  validate_gateways ∅ gateways.

(** [strings.EqualFold] (the forbidden addresses are digits and an x) *)
Definition EqualFold (s t : string) : bool := bool_decide (ToLower s = ToLower t).

Definition ValidateGatewayBusinessRules (gateway : string) : result error unit :=
  if existsb (EqualFold gateway) forbiddenGatewayAddresses
  then Err assetstypes.ErrForbiddenGatewayAddress
  else Ok tt.

Fixpoint check_gateways (gateways : list string) : result error unit :=
  match gateways with
  | [] => Ok tt
  | gateway :: gateways =>
      _ ← ValidateGatewayBusinessRules gateway;
      check_gateways gateways
  end.

Definition Normalize (gateways : list string) : list string := ToLower <$> gateways.

Definition SetParams (gateways : list string) : M AssetsState error unit :=
  _ ← lift_result (check_gateways gateways);
  modify (set_assetsParams (Some (Normalize gateways))).

Definition GetParams : M AssetsState error (list string) :=
  value ← gets assetsParams;
  match value with
  | None => fail assetstypes.ErrNoParamsKey
  | Some ret => mret ret
  end.

Definition GetGatewayAddresses : M AssetsState error (list string) :=
  gateways ← GetParams;
  mret (HexToAddress <$> gateways).

Definition IsAuthorizedGateway (addr : string) : M AssetsState error bool :=
  gateways ← GetParams;
  mret (bool_decide (ToLower (Address_Hex addr) ∈ gateways)).

Definition UpdateParams (authority msg_Authority : string) (gateways : list string)
    : M AssetsState error unit :=
  _ ← fail_if (negb (bool_decide (authority = msg_Authority))) assetstypes.ErrInvalidSigner;
  SetParams gateways.
End Keeper.

(** ** Changes of a value *)

#[global] Arguments UpdateAssetValue : simpl never.
#[global] Arguments UpdateAssetDecValue : simpl never.

Lemma UpdateAssetValue_Ok v c v' :
  UpdateAssetValue v c = Ok v' ↔ v' = v + default 0 c ∧ (0 ≤ default 0 c ∨ 0 ≤ v').
Proof.
  assert (Hok : ∀ w, v + default 0 c = w → 0 ≤ default 0 c ∨ 0 ≤ w →
    (Ok w : result error Int) = Ok v' ↔ v' = v + default 0 c ∧ (0 ≤ default 0 c ∨ 0 ≤ v')).
  { intros w <- Hw. split; [by intros [= <-]|]. by intros [-> _]. }
  unfold UpdateAssetValue. destruct c as [c|]; cbn in *; [|apply Hok; lia].
  destruct (Z.eqb_spec c 0); [apply Hok; lia|].
  destruct (Z.ltb_spec c 0); cbn [andb]; [|apply Hok; lia].
  destruct (Z.ltb_spec v (- c)); [|apply Hok; lia]. split; [done|lia].
Qed.

Lemma UpdateAssetDecValue_Ok v c v' :
  UpdateAssetDecValue v c = Ok v' ↔ v' = v + default 0 c ∧ (0 ≤ default 0 c ∨ 0 ≤ v').
Proof. apply (UpdateAssetValue_Ok v c v'). Qed.

(** A value that is not negative stays so. *)
Lemma UpdateAssetValue_nonneg v c v' : 0 ≤ v → UpdateAssetValue v c = Ok v' → 0 ≤ v'.
Proof. intros Hv [-> ?]%UpdateAssetValue_Ok. lia. Qed.

Lemma UpdateAssetValue_err v c e :
  UpdateAssetValue v c = Err e → e = assetstypes.ErrSubAmountIsMoreThanOrigin ∧ v + default 0 c < 0.
Proof.
  unfold UpdateAssetValue. destruct c as [c|]; [|done]. cbn.
  destruct (Z.eqb_spec c 0); [done|]. destruct (Z.ltb_spec c 0); cbn [andb]; [|done].
  destruct (Z.ltb_spec v (- c)); [|done]. intros [= <-]. split; [done|lia].
Qed.

Section Writers.
Context {sdk : Sdk}.
Implicit Types (s : AssetsState).

(** What a successful update writes. *)
Lemma UpdateStakerAssetState_Ok stakerID assetID d s i s' :
  UpdateStakerAssetState stakerID assetID d s = (Ok i, s') →
  let key := GetJoinedStoreKey [stakerID; assetID] in
  let old := default staker_zero (stakerAssets s !! key) in
  s' = set_stakerAssets (insert key i) s ∧
  UpdateAssetValue (sa_TotalDepositAmount old) (dsa_TotalDepositAmount d)
    = Ok (sa_TotalDepositAmount i) ∧
  UpdateAssetValue (sa_WithdrawableAmount old) (dsa_WithdrawableAmount d)
    = Ok (sa_WithdrawableAmount i) ∧
  UpdateAssetValue (sa_PendingUndelegationAmount old) (dsa_PendingUndelegationAmount d)
    = Ok (sa_PendingUndelegationAmount i).
Proof. unfold UpdateStakerAssetState. intros Hrun. go_inv. done. Qed.

Lemma UpdateOperatorAssetState_Ok op assetID d s old s' :
  UpdateOperatorAssetState op assetID d s = (Ok old, s') →
  let key := GetJoinedStoreKey [AccAddress_String op; assetID] in
  old = default operator_zero (operatorAssets s !! key) ∧
  ∃ i, s' = set_operatorAssets (insert key i) s ∧
  UpdateAssetValue (oa_TotalAmount old) (doa_TotalAmount d) = Ok (oa_TotalAmount i) ∧
  UpdateAssetValue (oa_PendingUndelegationAmount old) (doa_PendingUndelegationAmount d)
    = Ok (oa_PendingUndelegationAmount i) ∧
  UpdateAssetDecValue (oa_TotalShare old) (doa_TotalShare d) = Ok (oa_TotalShare i) ∧
  UpdateAssetDecValue (oa_OperatorShare old) (doa_OperatorShare d) = Ok (oa_OperatorShare i).
Proof.
  unfold UpdateOperatorAssetState. intros Hrun. go_inv. split; [done|]. eexists.
  split; [reflexivity|]. done.
Qed.

Lemma UpdateStakingAssetTotalAmount_Ok assetID c s u s' :
  UpdateStakingAssetTotalAmount assetID c s = (Ok u, s') →
  ∃ a total, stakingAssets s !! assetID = Some a ∧
    UpdateAssetValue (StakingTotalAmount a) c = Ok total ∧
    s' = set_stakingAssets (insert assetID
           {| AssetBasicInfo := AssetBasicInfo a; StakingTotalAmount := total |}) s.
Proof.
  unfold UpdateStakingAssetTotalAmount. intros Hrun. destruct c; [|by go_inv].
  go_inv. destruct (stakingAssets _ !! assetID) as [a|] eqn:Ha; [|by go_inv].
  go_inv. eauto.
Qed.
End Writers.

(** ** Invariants *)

Definition staker_nonneg (i : StakerAssetInfo) : Prop :=
  0 ≤ sa_TotalDepositAmount i ∧ 0 ≤ sa_WithdrawableAmount i ∧ 0 ≤ sa_PendingUndelegationAmount i.

Definition operator_nonneg (i : OperatorAssetInfo) : Prop :=
  0 ≤ oa_TotalAmount i ∧ 0 ≤ oa_PendingUndelegationAmount i ∧
  0 ≤ oa_TotalShare i ∧ 0 ≤ oa_OperatorShare i.

(** The keys of a two-part store are joined pairs. *)
Definition keys2 {V} (m : gmap string V) : Prop :=
  ∀ k v, m !! k = Some v → ∃ a b, key_part a ∧ key_part b ∧ k = GetJoinedStoreKey [a; b].

(** The second part of a joined pair. *)
Definition snd_part (k : string) : string :=
  match ParseJoinedKey k with [_; b] => b | _ => EmptyString end.

(** The sum of all stakers' deposits of an asset. *)
Definition total_deposits (s : AssetsState) (assetID : string) : Int :=
  map_sum (λ k i, if decide (snd_part k = assetID) then sa_TotalDepositAmount i else 0)
    (stakerAssets s).

Record assets_inv (s : AssetsState) : Prop := {
  ai_stakers : map_Forall (λ _ i, staker_nonneg i) (stakerAssets s);
  ai_operators : map_Forall (λ _ i, operator_nonneg i) (operatorAssets s);
  ai_staker_keys : keys2 (stakerAssets s);
  ai_ids : map_Forall (λ id _, key_part id) (stakingAssets s);
  (** the recorded total of an asset is the sum of the deposits *)
  ai_backed : ∀ id a, stakingAssets s !! id = Some a →
    StakingTotalAmount a = total_deposits s id;
}.

(** ** Keys of the two-part stores *)

Lemma snd_part_join a b : key_part a → key_part b → snd_part (GetJoinedStoreKey [a; b]) = b.
Proof.
  intros Ha Hb. unfold snd_part. by rewrite ParseJoinedKey_join by (done || by repeat constructor).
Qed.

#[global] Arguments join_id : simpl never.

Section IDs.
Context `{SdkLaws}.

Lemma join_id_eq addr lz : join_id addr lz = addr +:+ ("_" +:+ hexutil_EncodeUint64 lz).
Proof. done. Qed.

Lemma join_id_key_part addr lz : key_part addr → key_part (join_id addr lz).
Proof.
  unfold key_part. intros Ha. rewrite join_id_eq, !no_char_app, Ha.
  rewrite hex_u64_charset; [done|by left].
Qed.

Lemma hex_id_key_part a lz : key_part (join_id (hexutil_Encode a) lz).
Proof. apply join_id_key_part. unfold key_part. apply hex_charset. by left. Qed.

(** Parsing an identifier gives back its address and chain. *)
Lemma join_id_nonempty a lz : join_id a lz ≠ EmptyString.
Proof. rewrite join_id_eq. by destruct a. Qed.

Lemma ParseID_join a lz :
  is_u64 lz → ParseID (join_id (hexutil_Encode a) lz) = Ok (hexutil_Encode a, lz).
Proof.
  intros Hlz. unfold ParseID, join_id.
  rewrite split_join; [|done|repeat constructor; [apply hex_charset|apply hex_u64_charset]; by right].
  rewrite hex_u64_roundtrip by done.
  pose proof (hex_roundtrip a) as Ha. destruct (hexutil_Encode a); [|done].
  by rewrite hex_empty in Ha.
Qed.
End IDs.

(** ** Deposits *)

Section Deposits.
Context `{SdkLaws}.
Implicit Types (s : AssetsState).

(** The total of an asset after one staker's entry is written. *)
Lemma total_deposits_write s stakerID assetID i id :
  key_part stakerID → key_part assetID →
  let key := GetJoinedStoreKey [stakerID; assetID] in
  total_deposits (set_stakerAssets (insert key i) s) id =
    total_deposits s id +
    (if decide (assetID = id)
     then sa_TotalDepositAmount i -
          sa_TotalDepositAmount (default staker_zero (stakerAssets s !! key))
     else 0).
Proof.
  intros Hs Ha key. unfold total_deposits. cbn. rewrite map_sum_insert. unfold at_key, key.
  rewrite snd_part_join by done.
  destruct (stakerAssets s !! _); cbn; rewrite ?snd_part_join by done; case_decide; cbn; lia.
Qed.

Lemma keys2_insert {V} (m : gmap string V) a b v :
  key_part a → key_part b → keys2 m → keys2 (<[GetJoinedStoreKey [a; b] := v]> m).
Proof.
  intros Ha Hb Hm k w [[<- _]|[_ Hk]]%lookup_insert_Some; [by eauto 10|]. by apply (Hm k w).
Qed.

Lemma old_nonneg s k :
  map_Forall (λ _ i, staker_nonneg i) (stakerAssets s) →
  staker_nonneg (default staker_zero (stakerAssets s !! k)).
Proof. intros Hs. destruct (stakerAssets s !! k) eqn:Hk; [by apply (Hs k)|done]. Qed.

Lemma UpdateStakerAssetState_nonneg stakerID assetID d s i s' :
  map_Forall (λ _ i, staker_nonneg i) (stakerAssets s) →
  UpdateStakerAssetState stakerID assetID d s = (Ok i, s') → staker_nonneg i.
Proof.
  intros Hs (_ & Ht & Hw & Hp)%UpdateStakerAssetState_Ok.
  destruct (old_nonneg s (GetJoinedStoreKey [stakerID; assetID]) Hs) as (? & ? & ?).
  repeat split; (eapply UpdateAssetValue_nonneg; [|eassumption]); done.
Qed.

(** One staker's deposit of an asset and the asset's total move together. *)
Lemma deposit_inv s stakerID assetID i a δ :
  assets_inv s → key_part stakerID → stakingAssets s !! assetID = Some a → staker_nonneg i →
  let key := GetJoinedStoreKey [stakerID; assetID] in
  sa_TotalDepositAmount i =
    sa_TotalDepositAmount (default staker_zero (stakerAssets s !! key)) + δ →
  assets_inv (set_stakingAssets (insert assetID
    {| AssetBasicInfo := AssetBasicInfo a; StakingTotalAmount := StakingTotalAmount a + δ |})
    (set_stakerAssets (insert key i) s)).
Proof.
  intros [Hst Hop Hk Hids Hb] Hs Ha Hi key Hδ. assert (key_part assetID) by (by apply (Hids _ a)).
  split; cbn; [|done|by apply keys2_insert| |].
  - by apply map_Forall_insert_2.
  - by apply map_Forall_insert_2.
  - intros id b Hid.
    assert (Ht : total_deposits (set_stakerAssets (insert key i) s) id =
      total_deposits s id + (if decide (assetID = id) then δ else 0)).
    { subst key. rewrite total_deposits_write, Hδ by done. case_decide; lia. }
    change (StakingTotalAmount b = total_deposits (set_stakerAssets (insert key i) s) id).
    rewrite Ht. apply lookup_insert_Some in Hid as [[<- <-]|[Hne Hid]]; cbn.
    + rewrite decide_True, (Hb _ a) by done. done.
    + rewrite decide_False, (Hb id b) by done. lia.
Qed.

(** The amount with its sign. *)
Definition signed (op : CrossChainOpType) (amount : Int) : option Int :=
  match op with
  | DepositLST | DepositNST => Some amount
  | WithdrawLST | WithdrawNST => Some (- amount)
  | _ => None
  end.

Lemma staker_total_le s stakerID assetID :
  assets_inv s → key_part stakerID → key_part assetID →
  sa_TotalDepositAmount
    (default staker_zero (stakerAssets s !! GetJoinedStoreKey [stakerID; assetID]))
  ≤ total_deposits s assetID.
Proof.
  intros [Hst _ _ _ _] Hs Ha.
  assert (Hn : ∀ k v, stakerAssets s !! k = Some v →
    0 ≤ (if decide (snd_part k = assetID) then sa_TotalDepositAmount v else 0)).
  { intros k v Hk. case_decide; [|done]. by apply (Hst k v Hk). }
  destruct (stakerAssets s !! _) as [i|] eqn:Hi; cbn.
  - pose proof (map_sum_lower _ _ _ i Hn Hi) as Hl. cbn beta in Hl.
    rewrite snd_part_join, decide_True in Hl by done. exact Hl.
  - by apply map_sum_nonneg.
Qed.
End Deposits.

Section DepositRuns.
Context `{SdkLaws}.
Implicit Types (s : AssetsState).

Lemma UpdateAssetValue_signed v δ :
  δ ≠ 0 → 0 ≤ v → UpdateAssetValue v (Some δ) =
    if 0 <=? v + δ then Ok (v + δ) else Err assetstypes.ErrSubAmountIsMoreThanOrigin.
Proof.
  intros Hδ Hv. unfold UpdateAssetValue. rewrite (proj2 (Z.eqb_neq δ 0)) by done.
  destruct (Z.ltb_spec δ 0), (Z.leb_spec 0 (v + δ)), (Z.ltb_spec v (- δ)); cbn; done || lia.
Qed.

Lemma staker_signed_run s stakerID assetID δ :
  map_Forall (λ _ i, staker_nonneg i) (stakerAssets s) → δ ≠ 0 →
  let key := GetJoinedStoreKey [stakerID; assetID] in
  let old := default staker_zero (stakerAssets s !! key) in
  let new := {| sa_TotalDepositAmount := sa_TotalDepositAmount old + δ;
                sa_WithdrawableAmount := sa_WithdrawableAmount old + δ;
                sa_PendingUndelegationAmount := sa_PendingUndelegationAmount old |} in
  UpdateStakerAssetState stakerID assetID
    {| dsa_TotalDepositAmount := Some δ; dsa_WithdrawableAmount := Some δ;
       dsa_PendingUndelegationAmount := None |} s =
  if (0 <=? sa_TotalDepositAmount old + δ) && (0 <=? sa_WithdrawableAmount old + δ)
  then (Ok new, set_stakerAssets (insert key new) s)
  else (Err assetstypes.ErrSubAmountIsMoreThanOrigin, s).
Proof.
  intros Hs Hδ key old new. destruct (old_nonneg s key Hs) as (Ht & Hw & _). fold old in Ht, Hw.
  unfold UpdateStakerAssetState, mbind, M_bind, gets, lift_result. fold key old.
  cbn [dsa_TotalDepositAmount dsa_WithdrawableAmount dsa_PendingUndelegationAmount].
  rewrite !UpdateAssetValue_signed by done.
  destruct (0 <=? sa_TotalDepositAmount old + δ); [|done].
  by destruct (0 <=? sa_WithdrawableAmount old + δ).
Qed.

Lemma staking_total_run s assetID a δ :
  stakingAssets s !! assetID = Some a → δ ≠ 0 → 0 ≤ StakingTotalAmount a →
  0 ≤ StakingTotalAmount a + δ →
  UpdateStakingAssetTotalAmount assetID (Some δ) s =
    (Ok tt, set_stakingAssets (insert assetID {| AssetBasicInfo := AssetBasicInfo a;
              StakingTotalAmount := StakingTotalAmount a + δ |}) s).
Proof.
  intros Ha Hδ H1 H2. unfold UpdateStakingAssetTotalAmount, mbind, M_bind, gets, lift_result.
  rewrite Ha, UpdateAssetValue_signed by done. by rewrite (proj2 (Z.leb_le _ _)).
Qed.
End DepositRuns.

(** ** Properties *)

(** A deposit or withdrawal of a registered asset is exact and atomic: it
    succeeds exactly when neither the staker's deposit nor the withdrawable part
    would become negative, then moves both and the asset's recorded total by the
    signed amount; otherwise it fails with [ErrSubAmountIsMoreThanOrigin] and
    changes nothing. *)
Theorem PerformDepositOrWithdraw_spec `{SdkLaws} s p δ a :
  assets_inv s → 0 < dwp_OpAmount p → signed (dwp_Action p) (dwp_OpAmount p) = Some δ →
  let stakerID := join_id (hexutil_Encode (dwp_StakerAddress p)) (dwp_ClientChainLzID p) in
  let assetID := join_id (hexutil_Encode (dwp_AssetsAddress p)) (dwp_ClientChainLzID p) in
  assetID ≠ ImuachainAssetID → stakingAssets s !! assetID = Some a →
  let key := GetJoinedStoreKey [stakerID; assetID] in
  let old := default staker_zero (stakerAssets s !! key) in
  PerformDepositOrWithdraw p s =
    if (0 <=? sa_TotalDepositAmount old + δ) && (0 <=? sa_WithdrawableAmount old + δ)
    then (Ok (sa_TotalDepositAmount old + δ),
          set_stakingAssets (insert assetID
            {| AssetBasicInfo := AssetBasicInfo a;
               StakingTotalAmount := StakingTotalAmount a + δ |})
          (set_stakerAssets (insert key
            {| sa_TotalDepositAmount := sa_TotalDepositAmount old + δ;
               sa_WithdrawableAmount := sa_WithdrawableAmount old + δ;
               sa_PendingUndelegationAmount := sa_PendingUndelegationAmount old |}) s))
    else (Err assetstypes.ErrSubAmountIsMoreThanOrigin, s).
Proof.
  intros Hinv Hpos Hsig stakerID assetID Hnat Ha key old.
  assert (Hsk : key_part stakerID) by apply hex_id_key_part.
  assert (Hak : key_part assetID) by apply hex_id_key_part.
  pose proof (staker_total_le s stakerID assetID Hinv Hsk Hak) as Hle. fold key old in Hle.
  rewrite <-(ai_backed s Hinv assetID a Ha) in Hle.
  destruct (old_nonneg s key (ai_stakers s Hinv)) as (Ht & Hw & _). fold old in Ht, Hw.
  assert (δ ≠ 0) by (unfold signed in Hsig; case_match; simplify_eq; lia).
  unfold PerformDepositOrWithdraw, GetStakerIDAndAssetID. fold stakerID assetID.
  rewrite (bind_run _ _ s tt s) by (by rewrite (proj2 (Z.leb_gt _ _))).
  rewrite (bind_run _ _ s true s) by (unfold gets, IsStakingAsset; by rewrite Ha).
  rewrite (bind_run _ _ s tt s) by done.
  rewrite (bind_run _ _ s tt s) by (by rewrite bool_decide_false).
  rewrite (bind_run _ _ s δ s) by (unfold signed in Hsig; case_match; by simplify_eq).
  pose proof (staker_signed_run s stakerID assetID δ (ai_stakers s Hinv) ltac:(done)) as Hrun.
  cbn zeta in Hrun. fold key old in Hrun.
  destruct (Z.leb_spec 0 (sa_TotalDepositAmount old + δ)); cbn [andb] in *;
    [|by apply bind_fails].
  destruct (Z.leb_spec 0 (sa_WithdrawableAmount old + δ)); [|by apply bind_fails].
  rewrite (bind_run _ _ _ _ _ Hrun). erewrite bind_run; [done|].
  by rewrite (staking_total_run _ _ a) by (done || lia).
Qed.

(** Deposits and withdrawals keep the invariant of the module: no balance
    is negative, and the recorded total of every asset is the sum of the
    stakers' deposits of it. *)
Theorem PerformDepositOrWithdraw_inv `{SdkLaws} s p r s' :
  assets_inv s → PerformDepositOrWithdraw p s = (Ok r, s') → assets_inv s'.
Proof.
  intros Hinv Hrun. unfold PerformDepositOrWithdraw, GetStakerIDAndAssetID in Hrun. go_inv.
  match goal with H : match dwp_Action p with _ => _ end ?s = (Ok _, ?s1) |- _ =>
    assert (s1 = s) as -> by (unfold mret, M_ret, fail in H; case_match; congruence) end.
  match goal with
  | H1 : UpdateStakerAssetState ?st ?aid _ ?s = (Ok ?i, _),
    H2 : UpdateStakingAssetTotalAmount _ _ _ = _ |- _ =>
      pose proof (UpdateStakerAssetState_nonneg _ _ _ _ _ _ (ai_stakers s Hinv) H1) as Hnn;
      destruct (UpdateStakerAssetState_Ok _ _ _ _ _ _ H1) as (-> & Ht & Hw & Hp);
      destruct (UpdateStakingAssetTotalAmount_Ok _ _ _ _ _ H2) as (a & total & Ha & Htot & ->);
      cbn in *; apply UpdateAssetValue_Ok in Htot as [-> _];
      apply (deposit_inv s st aid i a)
  end; [done|apply hex_id_key_part|done|done|].
  by apply UpdateAssetValue_Ok in Ht as [-> _].
Qed.

(** ** Native restaking addresses *)

Lemma fill_step i n (address : list ascii) c :
  length address = n → take i address = replicate (min i n) c → (1 ≤ i)%nat →
  let address' := take i address ++ copy_into (drop i address) (take i address) in
  length address' = n ∧ take (i * 2) address' = replicate (min (i * 2) n) c.
Proof.
  intros Hl Ht Hi address'. destruct (decide (n ≤ i)%nat) as [Hle|Hlt].
  { unfold address', copy_into. rewrite drop_ge by lia. cbn. rewrite drop_nil, app_nil_r.
    rewrite Ht. rewrite length_replicate. split; [lia|].
    rewrite take_ge by (rewrite length_replicate; lia). f_equal; lia. }
  assert (Ha' : address' = replicate (min (i * 2) n) c ++ drop (i * 2) address).
  { unfold address', copy_into. rewrite Ht, take_replicate, length_replicate, length_drop, drop_drop.
    rewrite app_assoc, <-replicate_add. f_equal; [f_equal; lia|]. f_equal; lia. }
  rewrite Ha', length_app, length_replicate, length_drop. split; [lia|].
  rewrite take_app, take_replicate, length_replicate.
  replace (i * 2 - min (i * 2) n)%nat with (i * 2 - n)%nat by lia.
  destruct (decide (n ≤ i * 2)%nat).
  - rewrite drop_ge by lia. rewrite take_nil, app_nil_r. f_equal; lia.
  - replace (i * 2 - n)%nat with 0%nat by lia. rewrite take_0, app_nil_r. f_equal; lia.
Qed.

Lemma fill_loop_correct fuel i n address c :
  length address = n → take i address = replicate (min i n) c → (1 ≤ i)%nat →
  (n ≤ i + fuel)%nat → fill_loop fuel i n address = replicate n c.
Proof.
  revert i address. induction fuel as [|fuel IH]; intros i address Hl Ht Hi Hf; cbn [fill_loop].
  - rewrite <-(take_ge address i) by lia. rewrite Ht. f_equal; lia.
  - destruct (Nat.ltb_spec i n).
    + destruct (fill_step i n address c Hl Ht Hi) as [Hl' Ht']. apply IH; [done..|lia|lia].
    + rewrite <-(take_ge address i) by lia. rewrite Ht. f_equal; lia.
Qed.

Lemma GenerateNSTAddr_fill n : GenerateNSTAddr n = replicate n FillCharForRestakingAssetAddr.
Proof.
  unfold GenerateNSTAddr. destruct n as [|n]; [done|]. cbn [Nat.eqb].
  apply fill_loop_correct; [by rewrite length_insert, length_replicate| |lia|lia].
  done.
Qed.

Lemma all_fill_replicate n : all_fill (bytes_string (replicate n FillCharForRestakingAssetAddr)) = true.
Proof. induction n as [|n IH]; [done|]. cbn [replicate bytes_string all_fill]. by rewrite Ascii.eqb_refl. Qed.

(** The doubling copy of [GenerateNSTAddr] fills the whole address with
    0xee for every length, and an asset identifier built from such an address
    is recognised by [IsNST]. *)
Theorem GenerateNSTAddr_IsNST `{SdkLaws} n lz :
  is_u64 lz →
  GenerateNSTAddr n = replicate n FillCharForRestakingAssetAddr ∧
  IsNST (GetStakerIDAndAssetID lz None (Some (bytes_string (GenerateNSTAddr n)))).2 = true.
Proof.
  intros Hlz. rewrite GenerateNSTAddr_fill. split; [done|].
  unfold IsNST. cbn [GetStakerIDAndAssetID snd]. rewrite ParseID_join by done.
  rewrite hex_roundtrip. apply all_fill_replicate.
Qed.

(** ** Gateways *)

Lemma check_gateways_Ok gateways g :
  check_gateways gateways = Ok tt → g ∈ gateways →
  existsb (EqualFold g) forbiddenGatewayAddresses = false.
Proof.
  induction gateways as [|g' gs IH]; cbn; [by intros _ ?%elem_of_nil|].
  unfold ValidateGatewayBusinessRules. destruct (existsb (EqualFold g') _) eqn:Hg'; [done|].
  cbn. intros Hgs [->|Hin]%elem_of_cons; [done|by apply IH].
Qed.

(** Whatever the parameters set by the authority, none of the forbidden
    addresses (the zero address and the precompiles in the list) is an
    authorised gateway, in any letter case. *)
Theorem forbidden_never_authorized `{Sdk} authority sender gateways s u s' addr f :
  UpdateParams authority sender gateways s = (Ok u, s') →
  f ∈ forbiddenGatewayAddresses → EqualFold (Address_Hex addr) f = true →
  IsAuthorizedGateway addr s' = (Ok false, s').
Proof.
  intros Hrun Hf Heq. unfold UpdateParams, SetParams in Hrun. go_inv.
  unfold IsAuthorizedGateway, GetParams. go_run. do 2 f_equal.
  apply bool_decide_eq_false. intros (g & Hg & Hin)%list_elem_of_fmap.
  match goal with H : check_gateways _ = Ok _ |- _ => rename H into Hck end.
  destruct v0. pose proof (check_gateways_Ok _ _ Hck Hin) as Hno.
  rewrite <-not_true_iff_false in Hno. apply Hno, existsb_exists. exists f.
  split; [by apply list_elem_of_In|]. unfold EqualFold in *.
  apply bool_decide_eq_true in Heq. apply bool_decide_eq_true. congruence.
Qed.

(** ** Witnesses *)

(** One asset and two deposits of it. *)
Definition sample_asset_addr : string := "twenty-byte-asset-ad".
Definition sample_staker_addr : string := "twenty-byte-staker-a".
Definition sample_assetID : string := join_id (hexutil_Encode sample_asset_addr) 101.
Definition sample_stakerID : string := join_id (hexutil_Encode sample_staker_addr) 101.
Definition sample_asset : StakingAssetInfo := {|
  AssetBasicInfo := {| ai_Name := "token"; ai_Symbol := "TKN";
    ai_Address := hexutil_Encode sample_asset_addr; ai_Decimals := 6; ai_LayerZeroChainID := 101;
    ai_ImuaChainIndex := 0; ai_MetaInfo := EmptyString |};
  StakingTotalAmount := 0 |}.
Definition sample_assets0 : AssetsState := {|
  clientChains := ∅; stakingAssets := {[ sample_assetID := sample_asset ]}; stakerAssets := ∅;
  operatorAssets := ∅; assetsParams := None |}.
Definition sample_op (op : CrossChainOpType) (amount : Int) : DepositWithdrawParams := {|
  dwp_ClientChainLzID := 101; dwp_Action := op; dwp_AssetsAddress := sample_asset_addr;
  dwp_StakerAddress := sample_staker_addr; dwp_OpAmount := amount |}.
Definition sample_assets : AssetsState :=
  (PerformDepositOrWithdraw (sample_op DepositLST 1000) sample_assets0).2.

Lemma sample_assets0_inv : assets_inv sample_assets0.
Proof.
  split; unfold sample_assets0; cbn [stakerAssets operatorAssets stakingAssets].
  - apply map_Forall_empty.
  - apply map_Forall_empty.
  - intros k v. by rewrite lookup_empty.
  - apply map_Forall_singleton. by vm_compute.
  - by intros id a [_ <-]%lookup_singleton_Some.
Qed.

Lemma PerformDepositOrWithdraw_inv_witness : assets_inv sample_assets.
Proof.
  apply (PerformDepositOrWithdraw_inv sample_assets0 (sample_op DepositLST 1000) 1000);
    [apply sample_assets0_inv|conv_refl].
Defined.

Lemma PerformDepositOrWithdraw_spec_witness :
  (PerformDepositOrWithdraw (sample_op DepositNST 7) sample_assets0).1 = Ok 7 ∧
  PerformDepositOrWithdraw (sample_op WithdrawLST 1) sample_assets0 =
    (Err assetstypes.ErrSubAmountIsMoreThanOrigin, sample_assets0).
Proof.
  split.
  - rewrite (PerformDepositOrWithdraw_spec sample_assets0 (sample_op DepositNST 7) 7 sample_asset
      sample_assets0_inv); by vm_compute.
  - rewrite (PerformDepositOrWithdraw_spec sample_assets0 (sample_op WithdrawLST 1) (-1) sample_asset
      sample_assets0_inv); by vm_compute.
Defined.

Lemma GenerateNSTAddr_IsNST_witness :
  GenerateNSTAddr 20 = replicate 20 FillCharForRestakingAssetAddr ∧
  IsNST (GetStakerIDAndAssetID 101 None (Some (bytes_string (GenerateNSTAddr 20)))).2 = true.
Proof. by apply (GenerateNSTAddr_IsNST 20 101). Defined.

Lemma forbidden_never_authorized_witness :
  let addr := HexToAddress "0x0000000000000000000000000000000000000804" in
  let s' := (UpdateParams "gov" "gov" [DefaultGateway] sample_assets0).2 in
  IsAuthorizedGateway addr s' = (Ok false, s').
Proof.
  apply (forbidden_never_authorized "gov" "gov" [DefaultGateway] sample_assets0 tt _ _
    "0x0000000000000000000000000000000000000804"); [by vm_compute| |by vm_compute].
  by vm_compute; repeat constructor.
Defined.

(** An address of length zero counts as a native restaking address: the loop of
    [IsNST] has nothing to check. *)
Lemma IsNST_empty_address : IsNST "0x_0x65" = true.
Proof. by vm_compute. Qed.
