(* ===== verification/AssetsGenesis.v ===== *)
(** * Genesis of the assets module (x/assets/keeper/genesis.go)

    Export and import of the whole store, and the round trip: importing an
    export into an empty store rebuilds the store.  The grouping of the export
    (entries of one staker or operator together) is flattened again by the
    import. *)

From S2P Require Import Prelude Errors Sdk RefSdk KVStore DelegationTypes Assets.

Record GenesisState := {
  gs_Params : list string;
  gs_ClientChains : list ClientChainInfo;
  gs_Tokens : list StakingAssetInfo;
  gs_Deposits : list DepositsByStaker;
  gs_OperatorAssets : list AssetsByOperator;
}.

Section Genesis.
Context {sdk : Sdk}.

Definition init_client_chain (info : ClientChainInfo) : M AssetsState error unit :=
  updated ← must (SetClientChainInfo info);
  if (updated : bool) then panic else mret tt.

Definition init_deposit (stakerID : string) (d : DepositByAsset) : M AssetsState error unit :=
  _ ← must (UpdateStakerAssetState stakerID (ae_AssetID d)
        {| dsa_TotalDepositAmount := Some (sa_TotalDepositAmount (ae_Info d));
           dsa_WithdrawableAmount := Some (sa_WithdrawableAmount (ae_Info d));
           dsa_PendingUndelegationAmount := Some (sa_PendingUndelegationAmount (ae_Info d)) |});
  mret tt.

(** The error of [AccAddressFromBech32] is dropped: the address is then empty. *)
Definition init_operator_asset (operator : string) (a : AssetByID) : M AssetsState error unit :=
  let accAddress := default EmptyString (AccAddressFromBech32 operator) in
  _ ← must (UpdateOperatorAssetState accAddress (ae_AssetID a)
        {| doa_TotalAmount := Some (oa_TotalAmount (ae_Info a));
           doa_PendingUndelegationAmount := Some (oa_PendingUndelegationAmount (ae_Info a));
           doa_TotalShare := Some (oa_TotalShare (ae_Info a));
           doa_OperatorShare := Some (oa_OperatorShare (ae_Info a)) |});
  mret tt.

(** The native tokens delegated to all operators. *)
Definition imuaDelegation (operatorAssets : list AssetsByOperator) : Int :=
  foldl (λ acc assets,
    foldl (λ acc a, if decide (ae_AssetID a = ImuachainAssetID)
                    then acc + oa_TotalAmount (ae_Info a) else acc) acc (bo_Entries assets))
    0 operatorAssets.

(** [poolBalance]: the balance of the delegated pool account in x/bank *)
Definition InitGenesis (poolBalance : Int) (data : GenesisState) : M AssetsState error unit :=
  _ ← must (SetParams (gs_Params data));
  _ ← for_each (gs_ClientChains data) init_client_chain;
  _ ← for_each (gs_Tokens data) (λ info, must (SetStakingAssetInfo info));
  _ ← for_each (gs_Deposits data) (λ deposit,
        for_each (bo_Entries deposit) (init_deposit (bo_Owner deposit)));
  _ ← for_each (gs_OperatorAssets data) (λ assets,
        for_each (bo_Entries assets) (init_operator_asset (bo_Owner assets)));
  if poolBalance <? imuaDelegation (gs_OperatorAssets data) then panic else mret tt.

Definition ExportGenesis : M AssetsState error GenesisState :=
  params ← must GetParams;
  clientChains ← gets GetAllClientChainInfo;
  tokens ← gets GetAllStakingAssetsInfo;
  deposits ← must (λ s, (AllDeposits s, s));
  operatorAssets ← must (λ s, (AllOperatorAssets s, s));
  mret {| gs_Params := params; gs_ClientChains := clientChains; gs_Tokens := tokens;
          gs_Deposits := deposits; gs_OperatorAssets := operatorAssets |}.
End Genesis.

(** ** What the export is asked to round-trip *)

(** The first part of a joined pair. *)
Definition fst_part (k : string) : string :=
  match ParseJoinedKey k with [a; _] => a | _ => EmptyString end.

Lemma fst_part_join a b : key_part a → key_part b → fst_part (GetJoinedStoreKey [a; b]) = a.
Proof.
  intros Ha Hb. unfold fst_part. by rewrite ParseJoinedKey_join by (done || by repeat constructor).
Qed.

Section Inv.
Context {sdk : Sdk}.

(** Every store is keyed as its writers key it. *)
Record genesis_inv (s : AssetsState) : Prop := {
  gi_params : ∃ ps, assetsParams s = Some ps ∧ Normalize ps = ps ∧ check_gateways ps = Ok tt;
  gi_chains : ∀ k c, clientChains s !! k = Some c →
    k = hexutil_EncodeUint64 (cc_LayerZeroChainID c);
  gi_tokens : ∀ k a, stakingAssets s !! k = Some a →
    k = AssetID (AssetBasicInfo a) ∧ ai_Decimals (AssetBasicInfo a) ≤ MaxDecimal ∧
    0 ≤ StakingTotalAmount a;
  gi_stakers : ∀ k i, stakerAssets s !! k = Some i → staker_nonneg i ∧
    ∃ st id, st ≠ EmptyString ∧ key_part st ∧ key_part id ∧ k = GetJoinedStoreKey [st; id];
  gi_operators : ∀ k i, operatorAssets s !! k = Some i → operator_nonneg i ∧
    ∃ op id, valid_addr op ∧ key_part id ∧ k = GetJoinedStoreKey [AccAddress_String op; id];
}.
End Inv.

(** ** Grouping and flattening *)

Section Grouping.
Context {V : Type}.

Definition flatten (l : list (ByOwner V)) : list (string * AssetEntry V) :=
  l ≫= λ d, (λ e, (bo_Owner d, e)) <$> bo_Entries d.

Definition triple (kv : string * V) : string * AssetEntry V :=
  (fst_part kv.1, {| ae_AssetID := snd_part kv.1; ae_Info := kv.2 |}).

Definition pair_key (k : string) : Prop :=
  ∃ a b, a ≠ EmptyString ∧ key_part a ∧ key_part b ∧ k = GetJoinedStoreKey [a; b].

Lemma flatten_app l l' : flatten (l ++ l') = flatten l ++ flatten l'.
Proof. unfold flatten. apply bind_app. Qed.

Lemma flatten_snoc l o es e :
  flatten (rev ({| bo_Owner := o; bo_Entries := es ++ [e] |} :: l)) =
  flatten (rev ({| bo_Owner := o; bo_Entries := es |} :: l)) ++ [(o, e)].
Proof.
  cbn [rev]. rewrite !flatten_app, <-app_assoc. f_equal. unfold flatten. cbn.
  rewrite !app_nil_r. by rewrite fmap_app.
Qed.

(** Grouping loses nothing and keeps the order. *)
Lemma group_flatten entries prev ret :
  Forall pair_key entries.*1 →
  match ret with [] => prev = EmptyString | d :: _ => bo_Owner d = prev end →
  ∃ l, group_by_owner entries prev ret = Ok l ∧
       flatten l = flatten (rev ret) ++ (triple <$> entries).
Proof.
  revert prev ret. induction entries as [|[k v] entries IH]; intros prev ret Hk Hret.
  { exists (rev ret). cbn. by rewrite app_nil_r. }
  cbn in Hk. apply Forall_cons in Hk as [(a & b & Hne & Ha & Hb & ->) Hk].
  cbn [group_by_owner]. rewrite parse_count2 by done.
  cbn [mbind result_bind].
  assert (Ht : triple (GetJoinedStoreKey [a; b], v) = (a, {| ae_AssetID := b; ae_Info := v |})).
  { unfold triple. cbn [fst snd]. by rewrite fst_part_join, snd_part_join. }
  cbn [fmap list_fmap]. rewrite Ht. case_bool_decide as Hprev.
  - destruct ret as [|d ret]; [congruence|].
    edestruct (IH a) as (l & Hl & Hfl); [done| |exists l; split; [exact Hl|]].
    + cbn. congruence.
    + rewrite Hfl, flatten_snoc, <-app_assoc. destruct d as [o es]. cbn in *. by subst.
  - edestruct (IH a) as (l & Hl & Hfl); [done| |exists l; split; [exact Hl|]]; [done|].
    rewrite Hfl, flatten_snoc, <-app_assoc. cbn. rewrite flatten_app. cbn.
    by rewrite app_nil_r.
Qed.
End Grouping.

(** ** The import loops *)

Lemma UpdateAssetValue_from0 x : 0 ≤ x → UpdateAssetValue 0 (Some x) = Ok x.
Proof. intros Hx. apply UpdateAssetValue_Ok. cbn. lia. Qed.

Lemma nested_loop {V} (l : list (ByOwner V)) (f : string → AssetEntry V → M AssetsState error unit) s :
  for_each l (λ d, for_each (bo_Entries d) (f (bo_Owner d))) s =
  for_each (flatten l) (λ p, f p.1 p.2) s.
Proof.
  unfold flatten. rewrite <-for_each_bind. apply for_each_ext. intros d s'.
  by rewrite for_each_fmap.
Qed.

Section Importing.
Context `{SdkLaws}.
Implicit Types (s : AssetsState).

(** Loops that write one fresh entry per step. *)
Lemma write_loop {V} (set : (gmap string V → gmap string V) → AssetsState → AssetsState)
    (get : AssetsState → gmap string V) (f : string * V → M AssetsState error unit)
    (ok : string * V → Prop) entries s :
  (∀ g s, get (set g s) = g (get s)) → (∀ g h s, set g (set h s) = set (λ m, g (h m)) s) →
  set (λ m, m) s = s →
  (∀ kv s, ok kv → get s !! kv.1 = None → f kv s = (Ok tt, set (insert kv.1 kv.2) s)) →
  Forall ok entries → NoDup entries.*1 → (∀ k, k ∈ entries.*1 → get s !! k = None) →
  for_each entries f s = (Ok tt, set (insert_all entries) s).
Proof.
  intros Hget Hset Hid Hf. revert s Hid.
  induction entries as [|[k v] entries IH]; intros s Hid Hok Hnd Hfresh.
  { by rewrite <-Hid at 1. }
  cbn in Hnd, Hfresh. apply Forall_cons in Hok as [Hkv Hok]. apply NoDup_cons in Hnd as [Hnin Hnd].
  cbn [for_each]. erewrite bind_run by (apply Hf; [done|apply Hfresh, list_elem_of_here]).
  cbn [fst snd]. rewrite IH; [by rewrite Hset| |done..|].
  - by rewrite Hset.
  - intros k' Hk'. rewrite Hget, lookup_insert_ne by (intros <-; done).
    apply Hfresh. by apply list_elem_of_further.
Qed.

Lemma init_deposit_run st id i s :
  staker_nonneg i → stakerAssets s !! GetJoinedStoreKey [st; id] = None →
  init_deposit st {| ae_AssetID := id; ae_Info := i |} s =
    (Ok tt, set_stakerAssets (insert (GetJoinedStoreKey [st; id]) i) s).
Proof.
  intros (H1 & H2 & H3) Hnone. unfold init_deposit, must, UpdateStakerAssetState.
  unfold mbind, M_bind, gets, lift_result. cbn [ae_AssetID ae_Info]. rewrite Hnone.
  cbn -[GetJoinedStoreKey].
  rewrite !UpdateAssetValue_from0 by done. by destruct i.
Qed.

Lemma init_operator_run op id i s :
  valid_addr op → operator_nonneg i →
  operatorAssets s !! GetJoinedStoreKey [AccAddress_String op; id] = None →
  init_operator_asset (AccAddress_String op) {| ae_AssetID := id; ae_Info := i |} s =
    (Ok tt, set_operatorAssets (insert (GetJoinedStoreKey [AccAddress_String op; id]) i) s).
Proof.
  intros Hv (H1 & H2 & H3 & H4) Hnone. unfold init_operator_asset, must, UpdateOperatorAssetState.
  rewrite bech32_roundtrip by done. change (default EmptyString (Some op)) with op.
  unfold mbind, M_bind, gets, lift_result. cbn [ae_AssetID ae_Info]. rewrite Hnone.
  cbn -[GetJoinedStoreKey].
  rewrite !UpdateAssetValue_from0 by done. by destruct i.
Qed.

Lemma init_client_chain_run c s :
  clientChains s !! hexutil_EncodeUint64 (cc_LayerZeroChainID c) = None →
  init_client_chain c s =
    (Ok tt, set_clientChains (insert (hexutil_EncodeUint64 (cc_LayerZeroChainID c)) c) s).
Proof.
  intros Hnone. unfold init_client_chain, must, SetClientChainInfo. go_run. by rewrite Hnone.
Qed.

Lemma SetStakingAssetInfo_run a s :
  ai_Decimals (AssetBasicInfo a) ≤ MaxDecimal → 0 ≤ StakingTotalAmount a →
  stakingAssets s !! AssetID (AssetBasicInfo a) = None →
  must (SetStakingAssetInfo a) s =
    (Ok tt, set_stakingAssets (insert (AssetID (AssetBasicInfo a)) a) s).
Proof.
  intros Hd Ht Hnone. apply must_run. unfold SetStakingAssetInfo.
  rewrite (bind_run _ _ s tt s) by (by rewrite (proj2 (Z.ltb_ge _ _))).
  rewrite (bind_run _ _ s tt s) by (by rewrite (proj2 (Z.ltb_ge _ _))).
  fold (AssetID (AssetBasicInfo a)).
  rewrite (bind_run _ _ s false s) by (unfold gets, IsStakingAsset; by rewrite Hnone).
  by rewrite (bind_run _ _ s tt s).
Qed.
End Importing.

(** ** The round trip *)

Section RoundTrip.
Context `{SdkLaws}.
Implicit Types (s : AssetsState).

Lemma iterator_Forall {V} (m : gmap string V) (P : string * V → Prop) :
  (∀ k v, m !! k = Some v → P (k, v)) → Forall P (prefix_iterator EmptyString m).
Proof. intros HP. apply Forall_forall. intros [k v] Hkv%elem_of_iterator_all. by apply HP. Qed.

Lemma import_chains s0 (m : gmap string ClientChainInfo) :
  clientChains s0 = ∅ →
  (∀ k c, m !! k = Some c → k = hexutil_EncodeUint64 (cc_LayerZeroChainID c)) →
  for_each (prefix_iterator EmptyString m).*2 init_client_chain s0 =
    (Ok tt, set_clientChains (λ _, m) s0).
Proof.
  intros H0 Hm. rewrite for_each_fmap.
  rewrite (write_loop set_clientChains clientChains _
    (λ kv, kv.1 = hexutil_EncodeUint64 (cc_LayerZeroChainID kv.2))); [|done..|by destruct s0| | | |].
  - unfold set_clientChains. by rewrite H0, insert_all_iterator.
  - intros [k c] s Hk Hnone. cbn in *. subst. by apply init_client_chain_run.
  - by apply iterator_Forall.
  - apply prefix_iterator_NoDup_keys.
  - intros k _. by rewrite H0.
Qed.

Lemma import_tokens s0 (m : gmap string StakingAssetInfo) :
  stakingAssets s0 = ∅ →
  (∀ k a, m !! k = Some a → k = AssetID (AssetBasicInfo a) ∧
     ai_Decimals (AssetBasicInfo a) ≤ MaxDecimal ∧ 0 ≤ StakingTotalAmount a) →
  for_each (prefix_iterator EmptyString m).*2 (λ info, must (SetStakingAssetInfo info)) s0 =
    (Ok tt, set_stakingAssets (λ _, m) s0).
Proof.
  intros H0 Hm. rewrite for_each_fmap.
  rewrite (write_loop set_stakingAssets stakingAssets _
    (λ kv, kv.1 = AssetID (AssetBasicInfo kv.2) ∧
       ai_Decimals (AssetBasicInfo kv.2) ≤ MaxDecimal ∧ 0 ≤ StakingTotalAmount kv.2));
    [|done..|by destruct s0| | | |].
  - unfold set_stakingAssets. by rewrite H0, insert_all_iterator.
  - intros [k a] s (Hk & Hd & Ht) Hnone. cbn in *. subst. by apply SetStakingAssetInfo_run.
  - by apply iterator_Forall.
  - apply prefix_iterator_NoDup_keys.
  - intros k _. by rewrite H0.
Qed.

Lemma import_deposits s0 (m : gmap string StakerAssetInfo) l :
  stakerAssets s0 = ∅ → flatten l = triple <$> prefix_iterator EmptyString m →
  (∀ k i, m !! k = Some i → staker_nonneg i ∧
     ∃ st id, st ≠ EmptyString ∧ key_part st ∧ key_part id ∧ k = GetJoinedStoreKey [st; id]) →
  for_each l (λ d, for_each (bo_Entries d) (init_deposit (bo_Owner d))) s0 =
    (Ok tt, set_stakerAssets (λ _, m) s0).
Proof.
  intros H0 Hl Hm. rewrite nested_loop, Hl, for_each_fmap.
  rewrite (write_loop set_stakerAssets stakerAssets _ (λ kv, staker_nonneg kv.2 ∧
    ∃ st id, st ≠ EmptyString ∧ key_part st ∧ key_part id ∧ kv.1 = GetJoinedStoreKey [st; id]));
    [|done..|by destruct s0| | | |].
  - unfold set_stakerAssets. by rewrite H0, insert_all_iterator.
  - intros [k i] s [Hi (st & id & _ & Hst & Hid & Hk)] Hnone. unfold triple. cbn in *. subst.
    rewrite fst_part_join, snd_part_join by done. by apply init_deposit_run.
  - by apply iterator_Forall.
  - apply prefix_iterator_NoDup_keys.
  - intros k _. by rewrite H0.
Qed.

Lemma import_operators s0 (m : gmap string OperatorAssetInfo) l :
  operatorAssets s0 = ∅ → flatten l = triple <$> prefix_iterator EmptyString m →
  (∀ k i, m !! k = Some i → operator_nonneg i ∧
     ∃ op id, valid_addr op ∧ key_part id ∧ k = GetJoinedStoreKey [AccAddress_String op; id]) →
  for_each l (λ d, for_each (bo_Entries d) (init_operator_asset (bo_Owner d))) s0 =
    (Ok tt, set_operatorAssets (λ _, m) s0).
Proof.
  intros H0 Hl Hm. rewrite nested_loop, Hl, for_each_fmap.
  rewrite (write_loop set_operatorAssets operatorAssets _ (λ kv, operator_nonneg kv.2 ∧
    ∃ op id, valid_addr op ∧ key_part id ∧ kv.1 = GetJoinedStoreKey [AccAddress_String op; id]));
    [|done..|by destruct s0| | | |].
  - unfold set_operatorAssets. by rewrite H0, insert_all_iterator.
  - intros [k i] s [Hi (op & id & Hop & Hid & Hk)] Hnone. unfold triple. cbn in *. subst.
    rewrite fst_part_join, snd_part_join by (done || apply bech32_charset).
    by apply init_operator_run.
  - by apply iterator_Forall.
  - apply prefix_iterator_NoDup_keys.
  - intros k _. by rewrite H0.
Qed.
End RoundTrip.

(** Exporting the assets store always succeeds, and importing the export
    into an empty store rebuilds it exactly, when the pool account holds at
    least the native tokens delegated to the operators. *)
Theorem assets_genesis_roundtrip `{SdkLaws} s :
  genesis_inv s →
  ∃ g, ExportGenesis s = (Ok g, s) ∧
    ∀ poolBalance, imuaDelegation (gs_OperatorAssets g) ≤ poolBalance →
      InitGenesis poolBalance g empty_assets = (Ok tt, s).
Proof.
  intros [(ps & Hps & Hnorm & Hck) Hch Htok Hst Hop].
  destruct (group_flatten (prefix_iterator EmptyString (stakerAssets s)) EmptyString [])
    as (deps & Hdeps & Hfd); [|done|].
  { apply Forall_fmap, iterator_Forall. intros k i Hk. by apply (Hst k i Hk). }
  destruct (group_flatten (prefix_iterator EmptyString (operatorAssets s)) EmptyString [])
    as (ops & Hops & Hfo); [|done|].
  { apply Forall_fmap, iterator_Forall. intros k i Hk.
    destruct (Hop k i Hk) as (_ & op & id & Hv & Hid & ->).
    exists (AccAddress_String op), id. repeat split; [|apply bech32_charset|done].
    intros Hempty. pose proof (bech32_roundtrip op Hv) as Hrt. by rewrite Hempty, bech32_empty in Hrt. }
  exists {| gs_Params := ps; gs_ClientChains := GetAllClientChainInfo s;
            gs_Tokens := GetAllStakingAssetsInfo s; gs_Deposits := deps;
            gs_OperatorAssets := ops |}. split.
  { unfold ExportGenesis, must, GetParams, AllDeposits, AllOperatorAssets. go_run.
    by rewrite Hps, Hdeps, Hops. }
  cbn [gs_OperatorAssets]. intros pool Hpool. unfold InitGenesis. cbn [gs_Params gs_ClientChains
    gs_Tokens gs_Deposits gs_OperatorAssets].
  erewrite bind_run; [|apply must_run; unfold SetParams; by rewrite Hck, Hnorm].
  erewrite bind_run by (by apply import_chains).
  erewrite bind_run by (by apply import_tokens).
  erewrite bind_run by (by apply import_deposits with (m := stakerAssets s)).
  erewrite bind_run by (by apply import_operators with (m := operatorAssets s)).
  rewrite (proj2 (Z.ltb_ge _ _)) by done. destruct s; cbn in *. by subst.
Qed.

(** A store with a native pool, a token and a deposit. *)
Definition sample_operator : string := "operator-address-20b".
Definition sample_genesis_assets : AssetsState := {|
  clientChains := ∅;
  stakingAssets := {[ sample_assetID := sample_asset ]};
  stakerAssets := {[ GetJoinedStoreKey [sample_stakerID; sample_assetID] :=
    {| sa_TotalDepositAmount := 10; sa_WithdrawableAmount := 4; sa_PendingUndelegationAmount := 1 |} ]};
  operatorAssets := {[ GetJoinedStoreKey [AccAddress_String sample_operator; ImuachainAssetID] :=
    {| oa_TotalAmount := 7; oa_PendingUndelegationAmount := 0; oa_TotalShare := dec_of_int 7;
       oa_OperatorShare := 0 |} ]};
  assetsParams := Some [DefaultGateway] |}.

Lemma sample_genesis_inv : genesis_inv sample_genesis_assets.
Proof.
  split; unfold sample_genesis_assets;
    cbn [stakerAssets operatorAssets stakingAssets clientChains assetsParams].
  - by exists [DefaultGateway].
  - intros k c. by rewrite lookup_empty.
  - intros k a [<- <-]%lookup_singleton_Some. repeat split; by vm_compute.
  - intros k i [<- <-]%lookup_singleton_Some. split; [by vm_compute|].
    exists sample_stakerID, sample_assetID. repeat split. by vm_compute.
  - intros k i [<- <-]%lookup_singleton_Some. split; [by vm_compute|].
    exists sample_operator, ImuachainAssetID. repeat split; [done|cbn; lia].
Qed.

Lemma assets_genesis_roundtrip_witness :
  ∃ g, ExportGenesis sample_genesis_assets = (Ok g, sample_genesis_assets) ∧
    ∀ poolBalance, imuaDelegation (gs_OperatorAssets g) ≤ poolBalance →
      InitGenesis poolBalance g empty_assets = (Ok tt, sample_genesis_assets).
Proof. apply (assets_genesis_roundtrip sample_genesis_assets sample_genesis_inv). Defined.
