(* ===== verification/Ledger.v ===== *)
(** * Ledgers

    A store that caches, per key, the sum of the entries of another store: the
    share of a pool is the sum of its delegators' shares, the pending amount of
    a pool is the sum of its open undelegations.  [ledger] states that the two
    agree, and the lemmas are the ways in which the modules write both sides. *)

From S2P Require Import Prelude KVStore.

(** Reading an entry that may be missing, as the keepers do: a zero value. *)
Lemma from_option_default {A} (f : A → Z) (zero : A) o :
  f zero = 0 → from_option f 0 o = f (default zero o).
Proof. by destruct o. Qed.

Section Ledger.
Context {U V : Type}.
(** [bal] reads a balance; the entry [v] at key [j] counts [amount v] towards
    the key [owner j v]. *)
Context (bal : U → Z) (owner : string → V → option string) (amount : V → Z).
Implicit Types (m : gmap string U) (n : gmap string V) (j k : string).

Definition balance m k : Z := from_option bal 0 (m !! k).

Definition part k j (v : V) : Z := if decide (owner j v = Some k) then amount v else 0.

Definition grouped k n : Z := map_sum (part k) n.

Definition ledger m n : Prop := ∀ k, balance m k = grouped k n.

Lemma balance_insert m k x k' :
  balance (<[k:=x]> m) k' = if decide (k = k') then bal x else balance m k'.
Proof.
  unfold balance. case_decide as Hk; [subst; by rewrite lookup_insert_eq|].
  by rewrite lookup_insert_ne.
Qed.

Lemma balance_zero (zero : U) m k : bal zero = 0 → balance m k = bal (default zero (m !! k)).
Proof. apply from_option_default. Qed.

Lemma ledger_empty : ledger ∅ ∅.
Proof. intros k. unfold balance, grouped. by rewrite lookup_empty, map_sum_empty. Qed.

(** Both sides are written: the balance moves by what the entry moves. *)
Lemma ledger_insert (zero : U) m n k j x v :
  bal zero = 0 → ledger m n → owner j v = Some k → (∀ old, n !! j = Some old → owner j old = Some k) →
  bal x = bal (default zero (m !! k)) + (amount v - from_option amount 0 (n !! j)) →
  ledger (<[k:=x]> m) (<[j:=v]> n).
Proof.
  intros Hz Hl Hv Hold Hx k'. rewrite <-balance_zero in Hx by done.
  rewrite balance_insert. unfold grouped.
  rewrite map_sum_insert. specialize (Hl k'). unfold grouped in Hl. unfold at_key, part at 2 3.
  rewrite Hv. case_decide as Hk; subst.
  - rewrite decide_True by done. rewrite Hx, <-Hl. destruct (n !! j) as [old|]; cbn; [|lia].
    rewrite decide_True by auto. lia.
  - rewrite decide_False by congruence. rewrite Hl. destruct (n !! j) as [old|]; cbn; [|lia].
    rewrite decide_False; [lia|]. rewrite (Hold old) by done. congruence.
Qed.

(** An entry is removed and its amount leaves the balance. *)
Lemma ledger_delete (zero : U) m n k j x v :
  bal zero = 0 → ledger m n → n !! j = Some v → owner j v = Some k →
  bal x = bal (default zero (m !! k)) - amount v →
  ledger (<[k:=x]> m) (delete j n).
Proof.
  intros Hz Hl Hj Hv Hx k'. rewrite <-balance_zero in Hx by done. rewrite balance_insert. unfold grouped. rewrite map_sum_delete.
  specialize (Hl k'). unfold grouped in Hl. unfold at_key. rewrite Hj. cbn. unfold part at 2.
  rewrite Hv. case_decide as Hk; subst.
  - rewrite decide_True by done. lia.
  - rewrite decide_False by congruence. lia.
Qed.

(** The balance does not change. *)
Lemma ledger_insert_l (zero : U) m n k x :
  bal zero = 0 → ledger m n → bal x = bal (default zero (m !! k)) → ledger (<[k:=x]> m) n.
Proof.
  intros Hz Hl Hx k'. rewrite <-balance_zero in Hx by done. rewrite balance_insert. case_decide; subst; [rewrite Hx|]; apply Hl.
Qed.

(** An entry that counts towards no key, or is written with the same amount. *)
Lemma ledger_insert_r m n j v :
  ledger m n →
  match n !! j with
  | Some old => owner j v = owner j old ∧ amount v = amount old
  | None => owner j v = None
  end → ledger m (<[j:=v]> n).
Proof.
  intros Hl Hj k. rewrite (Hl k). unfold grouped. rewrite map_sum_insert. unfold at_key, part.
  destruct (n !! j) as [old|]; cbn.
  - destruct Hj as [-> ->]. lia.
  - rewrite Hj, decide_False by done. lia.
Qed.

Lemma ledger_delete_r m n j :
  ledger m n → (∀ v, n !! j = Some v → owner j v = None) → ledger m (delete j n).
Proof.
  intros Hl Hj k. rewrite (Hl k). unfold grouped. rewrite map_sum_delete. unfold at_key, part.
  destruct (n !! j) as [v|] eqn:Hv; cbn; [|lia].
  rewrite (Hj v), decide_False by done. lia.
Qed.

(** A new entry, and a removed one, that count towards the key [k] or nowhere. *)
Lemma ledger_add (zero : U) m n (b : bool) k j x v :
  bal zero = 0 → ledger m n → n !! j = None → owner j v = (if b then Some k else None) →
  bal x = bal (default zero (m !! k)) + (if b then amount v else 0) →
  ledger (<[k:=x]> m) (<[j:=v]> n).
Proof.
  intros Hz Hl Hj Hv Hx. destruct b.
  - apply (ledger_insert zero); [done..|congruence|]. rewrite Hj. cbn. lia.
  - apply ledger_insert_r; [|by rewrite Hj]. apply (ledger_insert_l zero); [done..|lia].
Qed.

Lemma ledger_remove (zero : U) m n (b : bool) k j x v :
  bal zero = 0 → ledger m n → n !! j = Some v → owner j v = (if b then Some k else None) →
  bal x = bal (default zero (m !! k)) - (if b then amount v else 0) →
  ledger (<[k:=x]> m) (delete j n).
Proof.
  intros Hz Hl Hj Hv Hx. destruct b.
  - by apply (ledger_delete zero) with v.
  - apply ledger_delete_r; [|naive_solver]. apply (ledger_insert_l zero); [done..|lia].
Qed.

(** An entry is at most the balance it counts towards. *)
Lemma ledger_part_le m n j v k :
  ledger m n → (∀ j v, n !! j = Some v → 0 ≤ amount v) → n !! j = Some v →
  owner j v = Some k → amount v ≤ balance m k.
Proof.
  intros Hl Hn Hj Hk. rewrite (Hl k). unfold grouped.
  transitivity (part k j v); [unfold part; by rewrite decide_True|].
  apply map_sum_lower; [|done]. intros j' v' Hv'. unfold part.
  case_decide; [by apply (Hn j')|done].
Qed.
End Ledger.

(** ** Balances as sums over lists *)

Lemma map_sum_list {V} (f : string → V → Z) (n : gmap string V) :
  map_sum f n = foldr Z.add 0 ((λ kv, f kv.1 kv.2) <$> map_to_list n).
Proof.
  unfold map_sum. rewrite map_fold_foldr. induction (map_to_list n) as [|[k v] l IH]; [done|].
  cbn. by rewrite IH.
Qed.

(** The amounts that count towards the key [k]. *)
Definition group {V} (owner : string → V → option string) (amount : V → Z) (k : string)
    (n : gmap string V) : list Z :=
  (λ jv, amount jv.2) <$> filter (λ jv, owner jv.1 jv.2 = Some k) (map_to_list n).

Lemma grouped_group {V} owner amount k (n : gmap string V) :
  grouped owner amount k n = foldr Z.add 0 (group owner amount k n).
Proof.
  unfold grouped, group, part. rewrite map_sum_list.
  induction (map_to_list n) as [|[j v] l IH]; [done|]. cbn [fmap list_fmap foldr fst snd].
  rewrite filter_cons; cbn [fst snd]. rewrite IH. case_decide; cbn; lia.
Qed.

(** ** Totals

    The sum of a quantity over the entries that a predicate selects. *)
Section Total.
Context {V : Type} (sel : string → V → bool) (amount : V → Z).
Implicit Types (n : gmap string V) (j : string).

Definition total n : Z := map_sum (λ j v, if sel j v then amount v else 0) n.

Lemma total_insert n j v :
  (∀ old, n !! j = Some old → sel j old = sel j v) →
  total (<[j:=v]> n) =
    total n + (if sel j v then amount v - from_option amount 0 (n !! j) else 0).
Proof.
  intros Hsel. unfold total. rewrite map_sum_insert. unfold at_key.
  destruct (n !! j) as [old|]; cbn.
  - rewrite (Hsel old) by done. destruct (sel j v); lia.
  - destruct (sel j v); lia.
Qed.

Lemma total_delete n j v :
  n !! j = Some v → total (delete j n) = total n - (if sel j v then amount v else 0).
Proof. intros Hj. unfold total. rewrite map_sum_delete. unfold at_key. by rewrite Hj. Qed.
End Total.

(** ** Indexes

    A second store that maps a derived key of every entry to the entry's own
    key. *)
Section Index.
Context {V : Type} (ix : V → string).
Implicit Types (n : gmap string V) (i : gmap string string).

Definition indexed n i : Prop :=
  ∀ sk k, i !! sk = Some k ↔ ∃ v, n !! k = Some v ∧ ix v = sk.

Lemma indexed_empty : indexed ∅ ∅.
Proof. intros sk k. rewrite !lookup_empty. naive_solver. Qed.

Lemma indexed_inj n i k v k' v' :
  indexed n i → n !! k = Some v → n !! k' = Some v' → ix v = ix v' → k = k'.
Proof.
  intros Hi Hk Hk' Hix. assert (i !! ix v = Some k) by (apply Hi; eauto).
  assert (i !! ix v = Some k') by (apply Hi; eauto). congruence.
Qed.

Lemma indexed_insert n i k v :
  indexed n i → n !! k = None → (∀ k' v', n !! k' = Some v' → ix v' ≠ ix v) →
  indexed (<[k:=v]> n) (<[ix v:=k]> i).
Proof.
  intros Hi Hk Hv sk k'. rewrite lookup_insert_Some. split.
  - intros [[<- <-]|[Hne Hsk]].
    + exists v. by rewrite lookup_insert_eq.
    + apply Hi in Hsk as (v' & Hv' & <-). exists v'.
      rewrite lookup_insert_ne by congruence. done.
  - intros (v' & [[<- <-]|[Hne Hv']]%lookup_insert_Some & <-); [by left|].
    right. split; [|apply Hi; eauto]. intros Heq. by apply (Hv k' v').
Qed.

Lemma indexed_delete n i k v :
  indexed n i → n !! k = Some v → indexed (delete k n) (delete (ix v) i).
Proof.
  intros Hi Hk sk k'. rewrite lookup_delete_Some. split.
  - intros [Hne Hsk]. apply Hi in Hsk as (v' & Hv' & <-). exists v'. split; [|done].
    apply lookup_delete_Some. split; [|done]. intros <-. congruence.
  - intros (v' & [Hne Hv']%lookup_delete_Some & <-). split; [|apply Hi; eauto].
    intros Heq. apply Hne. by eapply indexed_inj.
Qed.

Lemma indexed_update n i k v v' :
  indexed n i → n !! k = Some v → ix v' = ix v → indexed (<[k:=v']> n) i.
Proof.
  intros Hi Hk Hix sk k'. rewrite (Hi sk k'). split.
  - intros (w & Hw & <-). destruct (decide (k = k')) as [<-|Hne].
    + exists v'. rewrite lookup_insert_eq. split; [done|]. congruence.
    + exists w. by rewrite lookup_insert_ne.
  - intros (w & [[<- <-]|[Hne Hw]]%lookup_insert_Some & <-); eauto.
Qed.

(** The index is determined by the entries. *)
Lemma indexed_unique n i i' : indexed n i → indexed n i' → i = i'.
Proof.
  intros Hi Hi'. apply map_eq. intros sk. apply option_eq. intros k. by rewrite (Hi sk k), (Hi' sk k).
Qed.

(** Writing the index of every entry of a list rebuilds the index. *)
Lemma indexed_insert_all n i (l : list (string * V)) :
  indexed n i → l ≡ₚ map_to_list n →
  insert_all ((λ kv, (ix kv.2, kv.1)) <$> l) ∅ = i.
Proof.
  intros Hi Hl. assert (Hin : ∀ k v, (k, v) ∈ l ↔ n !! k = Some v).
  { intros k v. rewrite Hl. apply elem_of_map_to_list. }
  assert (Hnd : NoDup ((λ kv, (ix kv.2, kv.1)) <$> l).*1).
  { rewrite <-list_fmap_compose. apply NoDup_fmap_2_strong.
    - intros [k v] [k' v'] Hk%Hin Hk'%Hin Heq. cbn in Heq.
      assert (k = k') as <- by (by eapply indexed_inj). congruence.
    - rewrite Hl. apply NoDup_map_to_list. }
  rewrite insert_all_union by done. rewrite map_union_empty. apply (indexed_unique n); [|done].
  intros sk k. rewrite <-elem_of_list_to_map, list_elem_of_fmap by done. split.
  - intros ([k' v] & [= -> ->] & Hv%Hin). eauto.
  - intros (v & Hv & <-). exists (k, v). by rewrite Hin.
Qed.
End Index.
