(* ===== verification/DelegationStore.v ===== *)
(** * The store of x/delegation

    The state of the module, one map per prefix of types/keys.go, and the
    operations of keeper/delegation_state.go and keeper/params.go that touch
    no other module. *)

From S2P Require Import Prelude Errors Sdk RefSdk KVStore DelegationTypes Assets.

(** ** State *)

(** The store, one map per prefix of types/keys.go. *)
Record DelegationState := {
  (** stakerID/assetID/operatorAddr -> DelegationAmounts *)
  delegations : gmap string DelegationAmounts;
  (** operatorAddr/assetID/stakerID -> sentinel *)
  stakersByOperator : gmap string unit;
  (** record key -> UndelegationRecord *)
  undelegations : gmap string UndelegationRecord;
  (** stakerID/assetID/undelegationID -> record key *)
  stakerUndelegations : gmap string string;
  (** epoch and undelegationID -> record key *)
  pendingUndelegations : gmap string string;
  (** record key -> hold count *)
  holdCounts : gmap string Z;
  (** stakerID -> operator address *)
  associatedOperators : gmap string string;
  lastUndelegationID : option Z;
  delegationParams : Params;
}.

Definition empty_delegation : DelegationState := {|
  delegations := ∅; stakersByOperator := ∅; undelegations := ∅; stakerUndelegations := ∅;
  pendingUndelegations := ∅; holdCounts := ∅; associatedOperators := ∅;
  lastUndelegationID := None;
  delegationParams := {| p_InstantUndelegationPenalty := 0; p_MaxUndelegationCompletions := 0 |} |}.

Definition set_delegations f (d : DelegationState) : DelegationState := {|
  delegations := f (delegations d); stakersByOperator := stakersByOperator d;
  undelegations := undelegations d; stakerUndelegations := stakerUndelegations d;
  pendingUndelegations := pendingUndelegations d; holdCounts := holdCounts d;
  associatedOperators := associatedOperators d; lastUndelegationID := lastUndelegationID d;
  delegationParams := delegationParams d |}.
Definition set_stakersByOperator f (d : DelegationState) : DelegationState := {|
  delegations := delegations d; stakersByOperator := f (stakersByOperator d);
  undelegations := undelegations d; stakerUndelegations := stakerUndelegations d;
  pendingUndelegations := pendingUndelegations d; holdCounts := holdCounts d;
  associatedOperators := associatedOperators d; lastUndelegationID := lastUndelegationID d;
  delegationParams := delegationParams d |}.
(** The three stores of the undelegation records and the hold counts. *)
Definition set_records fu fs fp fh (d : DelegationState) : DelegationState := {|
  delegations := delegations d; stakersByOperator := stakersByOperator d;
  undelegations := fu (undelegations d); stakerUndelegations := fs (stakerUndelegations d);
  pendingUndelegations := fp (pendingUndelegations d); holdCounts := fh (holdCounts d);
  associatedOperators := associatedOperators d; lastUndelegationID := lastUndelegationID d;
  delegationParams := delegationParams d |}.
Definition set_associatedOperators f (d : DelegationState) : DelegationState := {|
  delegations := delegations d; stakersByOperator := stakersByOperator d;
  undelegations := undelegations d; stakerUndelegations := stakerUndelegations d;
  pendingUndelegations := pendingUndelegations d; holdCounts := holdCounts d;
  associatedOperators := f (associatedOperators d); lastUndelegationID := lastUndelegationID d;
  delegationParams := delegationParams d |}.
Definition set_lastUndelegationID i (d : DelegationState) : DelegationState := {|
  delegations := delegations d; stakersByOperator := stakersByOperator d;
  undelegations := undelegations d; stakerUndelegations := stakerUndelegations d;
  pendingUndelegations := pendingUndelegations d; holdCounts := holdCounts d;
  associatedOperators := associatedOperators d; lastUndelegationID := i;
  delegationParams := delegationParams d |}.
Definition set_delegationParams p (d : DelegationState) : DelegationState := {|
  delegations := delegations d; stakersByOperator := stakersByOperator d;
  undelegations := undelegations d; stakerUndelegations := stakerUndelegations d;
  pendingUndelegations := pendingUndelegations d; holdCounts := holdCounts d;
  associatedOperators := associatedOperators d; lastUndelegationID := lastUndelegationID d;
  delegationParams := p |}.

(** ** The delegation store (keeper/delegation_state.go) *)

Section Store.
Context {sdk : Sdk}.

Definition delegation_zero : DelegationAmounts := {|
  da_UndelegatableShare := 0; da_PendingUndelegationAmount := 0;
  da_RewardUndelegatableShare := 0; da_RewardPendingUndelegationAmount := 0 |}.

(** [DelegationStates]: a key and its value *)
Definition AllDelegationStates (d : DelegationState) : list (string * DelegationAmounts) :=
  prefix_iterator EmptyString (delegations d).

Definition SetAllDelegationStates (l : list (string * DelegationAmounts))
    : M DelegationState error unit :=
  modify (set_delegations (insert_all l)).

(** The first result is true when no share is left. *)
Definition UpdateDelegationState (stakerID assetID opAddr : string)
    (deltaAmounts : DeltaDelegationAmounts) : M DelegationState error (bool * DelegationAmounts) :=
  match AccAddressFromBech32 opAddr with
  | None => fail delegationtypes.ErrOperatorAddrIsNotAccAddr
  | Some _ =>
      let singleStateKey := GetJoinedStoreKey [stakerID; assetID; opAddr] in
      preState ← gets (λ d, default delegation_zero (delegations d !! singleStateKey));
      pending ← lift_result (UpdateAssetValue (da_PendingUndelegationAmount preState)
                               (dda_PendingUndelegationAmount deltaAmounts));
      share ← lift_result (UpdateAssetDecValue (da_UndelegatableShare preState)
                             (dda_UndelegatableShare deltaAmounts));
      rewardPending ← lift_result (UpdateAssetValue (da_RewardPendingUndelegationAmount preState)
                                     (dda_RewardPendingUndelegationAmount deltaAmounts));
      rewardShare ← lift_result (UpdateAssetDecValue (da_RewardUndelegatableShare preState)
                                   (dda_RewardUndelegatableShare deltaAmounts));
      let shareIsZero := share + rewardShare =? 0 in
      _ ← modify (set_delegations (insert singleStateKey {|
            da_UndelegatableShare := share; da_PendingUndelegationAmount := pending;
            da_RewardUndelegatableShare := rewardShare;
            da_RewardPendingUndelegationAmount := rewardPending |}));
      mret (shareIsZero, preState)
  end.

Definition GetSingleDelegationInfo (stakerID assetID operatorAddr : string)
    : M DelegationState error DelegationAmounts :=
  value ← gets (λ d, delegations d !! GetJoinedStoreKey [stakerID; assetID; operatorAddr]);
  match value with
  | None => fail delegationtypes.ErrNoKeyInTheStore
  | Some delegationState => mret delegationState
  end.

Definition AppendStakerForOperator (operator assetID stakerID : string)
    : M DelegationState error unit :=
  modify (set_stakersByOperator (insert (GetJoinedStoreKey [operator; assetID; stakerID]) tt)).

Definition DeleteStakerForOperator (operator assetID stakerID : string)
    : M DelegationState error unit :=
  let key := GetJoinedStoreKey [operator; assetID; stakerID] in
  has ← gets (λ d, is_some (stakersByOperator d !! key));
  _ ← fail_if (negb has) delegationtypes.ErrNoKeyInTheStore;
  modify (set_stakersByOperator (delete key)).

(** Every key with the prefix operator/assetID is deleted. *)
Definition DeleteStakersListForOperator (operator assetID : string)
    : M DelegationState error unit :=
  let key := GetJoinedStoreKey [operator; assetID] in
  entries ← gets (λ d, prefix_iterator key (stakersByOperator d));
  _ ← modify (set_stakersByOperator (λ m, foldl (λ m kv, delete kv.1 m) m entries));
  fail_if (bool_decide (entries = [])) delegationtypes.ErrNoKeyInTheStore.

Definition HasStakerList (operator assetID : string) (d : DelegationState) : bool :=
  negb (bool_decide (prefix_iterator (GetJoinedStoreKey [operator; assetID])
                       (stakersByOperator d) = [])).

Fixpoint third_parts (entries : list (string * unit)) : result error (list string) :=
  match entries with
  | [] => Ok []
  | (key, _) :: entries =>
      keys ← ParseJoinedKeyWithCount key 3;
      match keys with
      | [_; _; stakerID] =>
          stakers ← third_parts entries;
          Ok (stakerID :: stakers)
      | _ => Panic
      end
  end.

Definition GetStakersByOperator (operator assetID : string)
    : M DelegationState error (list string) :=
  entries ← gets (λ d, prefix_iterator (GetJoinedStoreKey [operator; assetID])
                         (stakersByOperator d));
  lift_result (third_parts entries).

Definition AllStakerList (d : DelegationState) : list string :=
  (prefix_iterator EmptyString (stakersByOperator d)).*1.

Definition SetAllStakerList (keyList : list string) : M DelegationState error unit :=
  modify (set_stakersByOperator (insert_all ((λ k, (k, tt)) <$> keyList))).

Definition SetStakerShareToZero (operator assetID : string) (stakerList : list string)
    : M DelegationState error unit :=
  for_each stakerList (λ stakerID,
    let singleStateKey := GetJoinedStoreKey [stakerID; assetID; operator] in
    value ← gets (λ d, delegations d !! singleStateKey);
    match value with
    | None => mret tt
    | Some delegationState =>
        modify (set_delegations (insert singleStateKey {|
          da_UndelegatableShare := 0;
          da_PendingUndelegationAmount := da_PendingUndelegationAmount delegationState;
          da_RewardUndelegatableShare := 0;
          da_RewardPendingUndelegationAmount :=
            da_RewardPendingUndelegationAmount delegationState |}))
    end).

(** stakerID -> assetID -> DelegationAmounts *)
Fixpoint states_by_operator (operatorAddr : string) (assetsFilter : gset string)
    (entries : list (string * DelegationAmounts))
    (ret : gmap string (gmap string DelegationAmounts))
    : result error (gmap string (gmap string DelegationAmounts)) :=
  match entries with
  | [] => Ok ret
  | (key, amounts) :: entries =>
      keys ← ParseJoinedKeyWithCount key 3;
      match keys with
      | [restakerID; assetID; findOperatorAddr] =>
          if negb (bool_decide (operatorAddr = findOperatorAddr))
          then states_by_operator operatorAddr assetsFilter entries ret
          else if bool_decide (assetID ∈ assetsFilter)
          then states_by_operator operatorAddr assetsFilter entries
                 (<[restakerID := <[assetID := amounts]> (default ∅ (ret !! restakerID))]> ret)
          else states_by_operator operatorAddr assetsFilter entries ret
      | _ => Panic
      end
  end.

Definition DelegationStateByOperatorAssets (operatorAddr : string) (assetsFilter : gset string)
    (d : DelegationState) : result error (gmap string (gmap string DelegationAmounts)) :=
  states_by_operator operatorAddr assetsFilter
    (prefix_iterator EmptyString (delegations d)) ∅.

Definition SetAssociatedOperator (stakerID operatorAddr : string)
    : M DelegationState error unit :=
  match AccAddressFromBech32 operatorAddr with
  | None => fail delegationtypes.ErrOperatorAddrIsNotAccAddr
  | Some _ => modify (set_associatedOperators (insert stakerID operatorAddr))
  end.

Definition DeleteAssociatedOperator (stakerID : string) : M DelegationState error unit :=
  modify (set_associatedOperators (delete stakerID)).

(** The empty string when there is none. *)
Definition GetAssociatedOperator (stakerID : string) (d : DelegationState) : string :=
  default EmptyString (associatedOperators d !! stakerID).

Definition GetAssociatedStakers (operator : string) : M DelegationState error (list string) :=
  match AccAddressFromBech32 operator with
  | None => fail delegationtypes.ErrOperatorAddrIsNotAccAddr
  | Some _ =>
      gets (λ d, (filter (λ kv, kv.2 = operator)
                    (prefix_iterator EmptyString (associatedOperators d))).*1)
  end.

(** [StakerToOperator]: staker and operator *)
Definition GetAllAssociations (d : DelegationState) : list (string * string) :=
  prefix_iterator EmptyString (associatedOperators d).

(** ** Parameters (keeper/params.go, keeper/msg_update_params.go) *)

Definition GetParams (d : DelegationState) : Params := delegationParams d.
Definition SetParams (params : Params) : M DelegationState error unit :=
  modify (set_delegationParams params).
Definition GetInstantUndelegationPenalty (d : DelegationState) : Z :=
  p_InstantUndelegationPenalty (GetParams d).

Definition UpdateParams (authority req_Authority : string) (req_Params : Params)
    : M DelegationState error unit :=
  _ ← fail_if (negb (bool_decide (authority = req_Authority))) delegationtypes.ErrInvalidSigner;
  _ ← lift_result (Params_Validate req_Params);
  SetParams req_Params.
End Store.

(** ** Iterating delegations *)

Section Iterate.
(** The state of the callback, which contains the store of the module. *)
Context {S : Type} (get : S → DelegationState).
Context (opFunc : SingleDelegationInfoReq → DelegationAmounts → M S error bool).

Definition IterateDelegations (iteratorPrefix : string) : M S error unit :=
  entries ← gets (λ s, prefix_iterator iteratorPrefix (delegations (get s)));
  for_each_break entries (λ kv,
    keys ← lift_result (ParseStakerAssetIDAndOperator kv.1);
    opFunc keys kv.2).

Definition IterateDelegationsForStakerAndAsset (stakerID assetID : string) : M S error unit :=
  _ ← fail_if (bool_decide (stakerID = EmptyString)) delegationtypes.ErrInvalidInputParameter;
  _ ← fail_if (bool_decide (assetID = EmptyString)) delegationtypes.ErrInvalidInputParameter;
  IterateDelegations (IteratorPrefixForStakerAsset stakerID assetID).

Definition IterateDelegationsForStaker (stakerID : string) : M S error unit :=
  _ ← fail_if (bool_decide (stakerID = EmptyString)) delegationtypes.ErrInvalidInputParameter;
  IterateDelegations stakerID.
End Iterate.
