(* ===== verification/UndelegationStore.v ===== *)
(** * The undelegation records (x/delegation/keeper/un_delegation_state.go)

    A record is stored under its key and indexed by staker and by the epoch at
    which it completes; a hold count delays its completion.  The theorems are
    that the indexes stay consistent with the records, that the early exit of
    the queue's iteration loses nothing, and which records are completable. *)

From S2P Require Import Prelude Errors Sdk RefSdk KVStore Ledger Epochs DelegationTypes Assets.
From S2P Require Import DelegationStore.

Record UndelegationAndHoldCount := {
  uhc_Undelegation : UndelegationRecord;
  uhc_HoldCount : Z;
}.

Definition MaxUint64 : Z := 2 ^ 64 - 1.

Section Store.
Context {sdk : Sdk}.

(** ** Hold counts and the undelegation ID *)

Definition GetUndelegationHoldCount (recordKey : string) (d : DelegationState) : Z :=
  default 0 (holdCounts d !! recordKey).

Definition set_hold (recordKey : string) (now : Z) : M DelegationState error unit :=
  modify (set_records (λ m, m) (λ m, m) (λ m, m) (insert recordKey now)).

Definition IncrementUndelegationHoldCount (recordKey : string) : M DelegationState error unit :=
  prev ← gets (GetUndelegationHoldCount recordKey);
  _ ← fail_if (prev =? MaxUint64) delegationtypes.ErrCannotIncHoldCount;
  set_hold recordKey (prev + 1).

Definition DecrementUndelegationHoldCount (recordKey : string) : M DelegationState error unit :=
  prev ← gets (GetUndelegationHoldCount recordKey);
  _ ← fail_if (prev =? 0) delegationtypes.ErrCannotDecHoldCount;
  set_hold recordKey (prev - 1).

Definition GetLastUndelegationID (d : DelegationState) : Z := default 0 (lastUndelegationID d).

Definition SetLastUndelegationID (id : Z) : M DelegationState error unit :=
  modify (set_lastUndelegationID (Some id)).

Definition IncrementLastUndelegationID : M DelegationState error unit :=
  prev ← gets GetLastUndelegationID;
  _ ← fail_if (prev =? MaxUint64) delegationtypes.ErrCannotIncUndelegationID;
  SetLastUndelegationID (prev + 1).

(** ** Writing and deleting records *)

(** The two index keys of a record. *)
Definition staker_key (r : UndelegationRecord) : string :=
  GetStakerUndelegationRecordKey (ur_StakerId r) (ur_AssetId r) (ur_UndelegationId r).
Definition pending_key (r : UndelegationRecord) : string :=
  GetPendingUndelegationRecordKey (ur_CompletedEpochIdentifier r) (ur_CompletedEpochNumber r)
    (ur_UndelegationId r).

(** [epochs] is the store the epochs keeper reads.  A record must not complete
    in a past epoch. *)
Definition check_completion (epochs : EpochsState) (undelegation : UndelegationRecord)
    : M DelegationState error unit :=
  if bool_decide (ur_CompletedEpochIdentifier undelegation = NullEpochIdentifier) then mret tt
  else match GetEpochInfo (ur_CompletedEpochIdentifier undelegation) epochs with
       | None => fail delegationtypes.ErrEpochIdentifierNotExist
       | Some epochInfo =>
           fail_if (ur_CompletedEpochNumber undelegation <? ei_CurrentEpoch epochInfo)
             delegationtypes.ErrInvalidCompletionEpoch
       end.

Definition SetUndelegationRecords (epochs : EpochsState) (isGenesis : bool)
    (records : list UndelegationAndHoldCount) : M DelegationState error unit :=
  for_each records (λ rec,
    let undelegation := uhc_Undelegation rec in
    _ ← check_completion epochs undelegation;
    singleRecKey ← lift_result (GetKey undelegation);
    _ ← modify (set_records (insert singleRecKey undelegation)
                  (insert (staker_key undelegation) singleRecKey)
                  (insert (pending_key undelegation) singleRecKey) (λ m, m));
    if isGenesis then set_hold singleRecKey (uhc_HoldCount rec) else mret tt).

Definition DeleteUndelegationRecord (record : UndelegationRecord) : M DelegationState error unit :=
  singleRecKey ← lift_result (GetKey record);
  modify (set_records (delete singleRecKey) (delete (staker_key record))
            (delete (pending_key record)) (delete singleRecKey)).

(** ** Reading records *)

Definition AllUndelegations (d : DelegationState) : list UndelegationAndHoldCount :=
  (λ kv, {| uhc_Undelegation := kv.2; uhc_HoldCount := GetUndelegationHoldCount kv.1 d |})
  <$> prefix_iterator EmptyString (undelegations d).

Fixpoint GetUndelegationRecords (singleRecordKeys : list string) (d : DelegationState)
    : result error (list UndelegationAndHoldCount) :=
  match singleRecordKeys with
  | [] => Ok []
  | singleRecordKey :: keys =>
      match undelegations d !! singleRecordKey with
      | None => Err delegationtypes.ErrNoKeyInTheStore
      | Some undelegationRecord =>
          ret ← GetUndelegationRecords keys d;
          Ok ({| uhc_Undelegation := undelegationRecord;
                 uhc_HoldCount := GetUndelegationHoldCount singleRecordKey d |} :: ret)
      end
  end.

Definition GetStakerUndelegationRecKeys (stakerID assetID : string)
    : M DelegationState error (list string) :=
  _ ← fail_if (bool_decide (stakerID = EmptyString)) delegationtypes.ErrInvalidInputParameter;
  _ ← fail_if (bool_decide (assetID = EmptyString)) delegationtypes.ErrInvalidInputParameter;
  gets (λ d, (prefix_iterator (join_with "/" [stakerID; assetID]) (stakerUndelegations d)).*2).

(** The nil slice when there is no such record. *)
Definition GetUndelegationRecKey (stakerID assetID : string) (undelegationID : Z)
    (d : DelegationState) : option string :=
  stakerUndelegations d !! GetStakerUndelegationRecordKey stakerID assetID undelegationID.

Definition GetStakerUndelegationRecords (stakerID assetID : string)
    : M DelegationState error (list UndelegationAndHoldCount) :=
  recordKeys ← GetStakerUndelegationRecKeys stakerID assetID;
  d ← gets (λ d, d);
  lift_result (GetUndelegationRecords recordKeys d).
End Store.

(** ** Iterating records

    A callback takes a pointer to the record: it returns the record as it left
    it.  [S] is the state the callback runs on. *)

Section Iterate.
Context {sdk : Sdk} {S : Type} (get : S → DelegationState) (put : DelegationState → S → S).

Definition store_record (key : string) (r : UndelegationRecord) : M S error unit :=
  modify (λ s, put (set_records (insert key r) (λ m, m) (λ m, m) (λ m, m) (get s)) s).

(** The first loop of [IterateUndelegationsByOperator]; it returns
    [updatedKeyValues]. *)
Fixpoint visit_operator_records (heightFilter : option Z) (isUpdate : bool)
    (opFunc : UndelegationRecord → M S error UndelegationRecord)
    (entries : list (string * UndelegationRecord))
    : M S error (list (string * UndelegationRecord)) :=
  match entries with
  | [] => mret []
  | (key, undelegation) :: entries =>
      skip ← (match heightFilter with
              | None => mret false
              | Some h =>
                  keyFields ← lift_result (ParseUndelegationRecordKey key);
                  mret (ukf_BlockHeight keyFields <? h)
              end);
      if (skip : bool) then visit_operator_records heightFilter isUpdate opFunc entries
      else
        undelegation' ← opFunc undelegation;
        updatedKeyValues ← visit_operator_records heightFilter isUpdate opFunc entries;
        mret (if isUpdate then (key, undelegation') :: updatedKeyValues else updatedKeyValues)
  end.

(** [MustAccAddressFromBech32] panics. *)
Definition IterateUndelegationsByOperator (operator : string) (heightFilter : option Z)
    (isUpdate : bool) (opFunc : UndelegationRecord → M S error UndelegationRecord)
    : M S error unit :=
  match AccAddressFromBech32 operator with
  | None => panic
  | Some operatorAccAddress =>
      entries ← gets (λ s, prefix_iterator operatorAccAddress (undelegations (get s)));
      updatedKeyValues ← visit_operator_records heightFilter isUpdate opFunc entries;
      for_each updatedKeyValues (λ kv, store_record kv.1 kv.2)
  end.

Definition IterateUndelegationsByStakerAndAsset (stakerID assetID : string) (isUpdate : bool)
    (opFunc : string → UndelegationRecord → M S error (bool * UndelegationRecord))
    : M S error unit :=
  entries ← gets (λ s, prefix_iterator (IteratorPrefixForStakerAsset stakerID assetID)
                         (stakerUndelegations (get s)));
  for_each_break entries (λ kv,
    infoValue ← gets (λ s, undelegations (get s) !! kv.2);
    match infoValue with
    | None => fail delegationtypes.ErrNoKeyInTheStore
    | Some undelegation =>
        r ← opFunc kv.2 undelegation;
        _ ← (if isUpdate then store_record kv.2 r.2 else mret tt);
        mret r.1
    end).

(** The body of the loop of [IteratePendingUndelegations]: true breaks it.  The
    callback only reads the record. *)
Definition visit_pending (isCompletable : bool) (currentEpoch : Z)
    (opFunc : string → UndelegationRecord → M S error bool) (kv : string * string)
    : M S error bool :=
  keys ← lift_result (ParsePendingUndelegationKey kv.1);
  hold ← gets (λ s, GetUndelegationHoldCount kv.2 (get s));
  let expired := pkf_EpochNumber keys <? wrap_uint64 currentEpoch in
  if isCompletable && negb expired then mret true
  else if isCompletable && (0 <? hold) then mret false
  else if negb isCompletable && expired && (hold =? 0) then mret false
  else
    value ← gets (λ s, undelegations (get s) !! kv.2);
    match value with
    | None => fail delegationtypes.ErrNoKeyInTheStore
    | Some undelegation => opFunc kv.2 undelegation
    end.

Definition IteratePendingUndelegations (isCompletable : bool) (epochIdentifier : string)
    (currentEpoch : Z) (opFunc : string → UndelegationRecord → M S error bool)
    : M S error unit :=
  let pfx := AppendMany [Uint64ToBigEndian (Z.of_nat (String.length epochIdentifier));
                         epochIdentifier] in
  entries ← gets (λ s, prefix_iterator pfx (pendingUndelegations (get s)));
  for_each_break entries (visit_pending isCompletable currentEpoch opFunc).
End Iterate.

Section Queries.
Context {sdk : Sdk}.

Definition GetPendingUndelegationFinalAmount (stakerID assetID : string)
    : M DelegationState error Int :=
  with_var 0 (IterateUndelegationsByStakerAndAsset fst (λ d s, (d, s.2)) stakerID assetID false
    (λ _ undelegation,
      _ ← modify (λ s, (s.1, s.2 + ur_ActualCompletedAmount undelegation));
      mret (false, undelegation))).

Definition GetUnCompletableUndelegations (epochIdentifier : string) (epochNumber : Z)
    : M DelegationState error (list UndelegationAndHoldCount) :=
  with_var [] (IteratePendingUndelegations fst false epochIdentifier epochNumber
    (λ recordKey record,
      _ ← modify (λ s, (s.1, s.2 ++ [{| uhc_Undelegation := record;
            uhc_HoldCount := GetUndelegationHoldCount recordKey s.1 |}]));
      mret false)).

(** [applyLimit && limit != 0 && uint32(len(records)) >= limit] *)
Definition limit_reached (applyLimit : bool) (limit : Z) {A} (records : list A) : bool :=
  applyLimit && negb (limit =? 0) && (limit <=? Z.of_nat (length records) mod 2 ^ 32).

(** [expiredUndelegationOpFunc] of [GetCompletableUndelegations] *)
Definition completable_op (applyLimit : bool) (limit : Z) (_ : string)
    (record : UndelegationRecord) : M (DelegationState * list UndelegationRecord) error bool :=
  records ← gets snd;
  if limit_reached applyLimit limit records then mret true
  else
    _ ← modify (λ s, (s.1, s.2 ++ [record]));
    mret false.

(** The body of the loop over the epochs. *)
Definition visit_epoch (applyLimit : bool) (limit : Z) (epochInfo : EpochInfo)
    : M (DelegationState * list UndelegationRecord) error bool :=
  records ← gets snd;
  if limit_reached applyLimit limit records then mret true
  else
    _ ← IteratePendingUndelegations fst true (ei_Identifier epochInfo)
          (ei_CurrentEpoch epochInfo) (completable_op applyLimit limit);
    mret false.

Definition GetCompletableUndelegations (epochs : EpochsState) (applyLimit : bool)
    : M DelegationState error (list UndelegationRecord) :=
  limit ← gets (λ d, if applyLimit then p_MaxUndelegationCompletions (GetParams d) else 0);
  with_var [] (
    _ ← IteratePendingUndelegations fst true NullEpochIdentifier (NullEpochNumber + 1)
          (completable_op applyLimit limit);
    for_each_break (AllEpochInfos epochs) (visit_epoch applyLimit limit)).
End Queries.

#[global] Arguments staker_key : simpl never.
#[global] Arguments pending_key : simpl never.
#[global] Arguments GetKey : simpl never.

(** ** The invariant of the record stores *)

(** An epoch a record can complete at. *)
Definition epoch_wf (identifier : string) (number : Z) : Prop :=
  identifier ≠ EmptyString ∧ Z.of_nat (String.length identifier) < 2 ^ 63 ∧ 0 ≤ number < 2 ^ 63.

Section Records.
Context `{SdkLaws}.
Implicit Types (d : DelegationState) (r : UndelegationRecord).

Record record_wf r : Prop := {
  rw_operator : ∃ acc, String.length acc = AccAddressLength ∧
    ur_OperatorAddr r = AccAddress_String acc;
  rw_block : is_u64 (ur_BlockNumber r);
  rw_id : is_u64 (ur_UndelegationId r);
  rw_staker : key_part (ur_StakerId r);
  rw_asset : key_part (ur_AssetId r);
  rw_epoch : epoch_wf (ur_CompletedEpochIdentifier r) (ur_CompletedEpochNumber r);
}.

(** Every record is stored under its key, both indexes list exactly the
    records, and the IDs given so far are below the next one. *)
Record records_inv d : Prop := {
  ri_wf : ∀ k r, undelegations d !! k = Some r → record_wf r;
  ri_key : ∀ k r, undelegations d !! k = Some r → GetKey r = Ok k;
  ri_staker : indexed staker_key (undelegations d) (stakerUndelegations d);
  ri_pending : indexed pending_key (undelegations d) (pendingUndelegations d);
  ri_last : 0 ≤ GetLastUndelegationID d ≤ MaxUint64;
  ri_ids : ∀ k r, undelegations d !! k = Some r → ur_UndelegationId r < GetLastUndelegationID d;
  ri_unique : ∀ k r k' r', undelegations d !! k = Some r → undelegations d !! k' = Some r' →
    ur_UndelegationId r = ur_UndelegationId r' → k = k';
}.

Lemma epoch_wf_u64 i n : epoch_wf i n → is_u64 (Z.of_nat (String.length i)) ∧ is_u64 n.
Proof. unfold epoch_wf, is_u64. lia. Qed.

(** The same key, of a record or of an index, is the same undelegation ID. *)
Lemma GetKey_id r r' k :
  record_wf r → record_wf r' → GetKey r = Ok k → GetKey r' = Ok k →
  ur_UndelegationId r = ur_UndelegationId r'.
Proof.
  intros [(acc & Hacc & Hop) ?????] [(acc' & Hacc' & Hop') ?????].
  unfold GetKey. rewrite Hop, Hop'. intros Hk Hk'.
  by destruct (record_key_inj _ _ _ _ _ _ _ _ _ Hacc Hacc' rw_block0 rw_block1 rw_id0 rw_id1 Hk Hk')
    as (_ & _ & Hid & _).
Qed.

Lemma staker_key_id r r' :
  record_wf r → record_wf r' → staker_key r = staker_key r' →
  ur_UndelegationId r = ur_UndelegationId r'.
Proof. intros [] [] Heq. by apply staker_key_inj in Heq as (_ & _ & Hid). Qed.

Lemma pending_key_id r r' :
  record_wf r → record_wf r' → pending_key r = pending_key r' →
  ur_UndelegationId r = ur_UndelegationId r'.
Proof.
  intros [????? [??]%epoch_wf_u64] [????? [??]%epoch_wf_u64] Heq.
  by apply pending_key_inj in Heq as (_ & _ & Hid).
Qed.

Lemma GetKey_total r : record_wf r → ∃ k, GetKey r = Ok k.
Proof.
  intros [(acc & Hacc & Hop) ?????]. unfold GetKey. rewrite Hop. eexists.
  by apply record_key_shape, bech32_roundtrip, acc20_valid.
Qed.

(** A record with the next ID is new in the three stores. *)
Lemma record_fresh d r k :
  records_inv d → record_wf r → ur_UndelegationId r = GetLastUndelegationID d →
  GetKey r = Ok k → undelegations d !! k = None.
Proof.
  intros Hd Hr Hid Hk. destruct (undelegations d !! k) as [r'|] eqn:Hr'; [|done].
  pose proof (ri_ids d Hd k r' Hr'). pose proof (ri_key d Hd k r' Hr') as Hk'.
  pose proof (GetKey_id r r' k Hr (ri_wf d Hd k r' Hr') Hk Hk'). lia.
Qed.

Definition add_record k r : DelegationState → DelegationState :=
  set_records (insert k r) (insert (staker_key r) k) (insert (pending_key r) k) (λ m, m).
Definition remove_record k r : DelegationState → DelegationState :=
  set_records (delete k) (delete (staker_key r)) (delete (pending_key r)) (delete k).
Definition write_record k r : DelegationState → DelegationState :=
  set_records (insert k r) (λ m, m) (λ m, m) (λ m, m).

Lemma last_set x d : GetLastUndelegationID (set_lastUndelegationID (Some x) d) = x.
Proof. done. Qed.

Lemma add_record_inv d r k :
  records_inv d → record_wf r → ur_UndelegationId r = GetLastUndelegationID d →
  GetLastUndelegationID d < MaxUint64 → GetKey r = Ok k →
  records_inv (set_lastUndelegationID (Some (GetLastUndelegationID d + 1)) (add_record k r d)).
Proof.
  intros Hd Hr Hid Hmax Hk. pose proof (record_fresh d r k Hd Hr Hid Hk) as Hnone.
  destruct Hd as [Hwf Hkey Hs Hp Hl Hids Huniq].
  split; rewrite ?last_set; cbn.
  - intros k' r' [[<- <-]|[_ ?]]%lookup_insert_Some; [done|by eapply Hwf].
  - intros k' r' [[<- <-]|[_ ?]]%lookup_insert_Some; [done|by eapply Hkey].
  - apply indexed_insert; [done..|]. intros k' r' Hr' Heq.
    apply staker_key_id in Heq; [|by eapply Hwf|done]. pose proof (Hids k' r' Hr'). lia.
  - apply indexed_insert; [done..|]. intros k' r' Hr' Heq.
    apply pending_key_id in Heq; [|by eapply Hwf|done]. pose proof (Hids k' r' Hr'). lia.
  - lia.
  - intros k' r' [[<- <-]|[_ Hr']]%lookup_insert_Some; [lia|]. pose proof (Hids k' r' Hr'). lia.
  - intros k1 r1 k2 r2 [[<- <-]|[_ Hr1]]%lookup_insert_Some
      [[<- <-]|[_ Hr2]]%lookup_insert_Some Heq; [done|..|by eapply Huniq].
    + pose proof (Hids _ _ Hr2). lia.
    + pose proof (Hids _ _ Hr1). lia.
Qed.

Lemma remove_record_inv d r k :
  records_inv d → undelegations d !! k = Some r → records_inv (remove_record k r d).
Proof.
  intros [Hwf Hkey Hs Hp Hl Hids Huniq] Hr. split; cbn; try done.
  - intros k' r' [_ ?]%lookup_delete_Some. by eapply Hwf.
  - intros k' r' [_ ?]%lookup_delete_Some. by eapply Hkey.
  - by apply indexed_delete.
  - by apply indexed_delete.
  - intros k' r' [_ ?]%lookup_delete_Some. by eapply Hids.
  - intros k1 r1 k2 r2 [_ ?]%lookup_delete_Some [_ ?]%lookup_delete_Some. by apply Huniq.
Qed.

(** The fields that are part of a key. *)
Definition same_keys r r' : Prop :=
  ur_StakerId r' = ur_StakerId r ∧ ur_AssetId r' = ur_AssetId r ∧
  ur_OperatorAddr r' = ur_OperatorAddr r ∧ ur_TxHash r' = ur_TxHash r ∧
  ur_BlockNumber r' = ur_BlockNumber r ∧
  ur_CompletedEpochIdentifier r' = ur_CompletedEpochIdentifier r ∧
  ur_CompletedEpochNumber r' = ur_CompletedEpochNumber r ∧
  ur_UndelegationId r' = ur_UndelegationId r.

Lemma write_record_inv d r r' k :
  records_inv d → undelegations d !! k = Some r → same_keys r r' →
  records_inv (write_record k r' d).
Proof.
  intros [Hwf Hkey Hs Hp Hl Hids Huniq] Hr (E1 & E2 & E3 & E4 & E5 & E6 & E7 & E8).
  assert (record_wf r').
  { destruct (Hwf k r Hr). split; by rewrite ?E1, ?E2, ?E3, ?E4, ?E5, ?E6, ?E7, ?E8. }
  split; cbn; try done.
  - intros k' w [[<- <-]|[_ ?]]%lookup_insert_Some; [done|by eapply Hwf].
  - intros k' w [[<- <-]|[_ ?]]%lookup_insert_Some; [|by eapply Hkey].
    rewrite <-(Hkey k r Hr). unfold GetKey. by rewrite E3, E4, E5, E8.
  - eapply indexed_update; [done..|]. unfold staker_key. by rewrite E1, E2, E8.
  - eapply indexed_update; [done..|]. unfold pending_key. by rewrite E6, E7, E8.
  - intros k' w [[<- <-]|[_ ?]]%lookup_insert_Some; [|by eapply Hids].
    rewrite E8. by eapply Hids.
  - intros k1 r1 k2 r2 [[<- <-]|[_ Hr1]]%lookup_insert_Some
      [[<- <-]|[_ Hr2]]%lookup_insert_Some; rewrite ?E8; [done|..]; by apply Huniq.
Qed.
End Records.

(** The epoch of a record is not over. *)
Definition not_past (es : EpochsState) (r : UndelegationRecord) : Prop :=
  ur_CompletedEpochIdentifier r = NullEpochIdentifier ∨
  ∃ e, es !! ur_CompletedEpochIdentifier r = Some e ∧
       ei_CurrentEpoch e ≤ ur_CompletedEpochNumber r.

Lemma check_completion_Ok es r d u d' :
  check_completion es r d = (Ok u, d') ↔ d' = d ∧ not_past es r.
Proof.
  unfold check_completion, not_past, GetEpochInfo. destruct u. case_bool_decide.
  { rewrite ret_Ok. naive_solver. }
  destruct (es !! ur_CompletedEpochIdentifier r) as [e|].
  - rewrite fail_if_Ok, Z.ltb_ge. naive_solver.
  - rewrite fail_Ok. naive_solver.
Qed.

(** ** The pending queue *)

(** The first [limit] records, when a limit applies. *)
Definition capped {A} (applyLimit : bool) (limit : Z) (l : list A) : list A :=
  if applyLimit && negb (limit =? 0) then take (Z.to_nat limit) l else l.

Section Cap.
Context {A : Type} (applyLimit : bool) (limit : Z).
Hypothesis Hlimit : 0 ≤ limit < 2 ^ 32.
Implicit Types (acc l : list A).

Lemma limit_reached_spec acc :
  acc = capped applyLimit limit acc →
  limit_reached applyLimit limit acc =
    (applyLimit && negb (limit =? 0) && (limit =? Z.of_nat (length acc))).
Proof.
  unfold capped, limit_reached. destruct (applyLimit && negb (limit =? 0)); [|done].
  intros Hacc%(f_equal length). rewrite length_take in Hacc. cbn.
  rewrite Z.mod_small by lia. destruct (Z.eqb_spec limit (Z.of_nat (length acc))); lia.
Qed.

Lemma capped_full acc l :
  acc = capped applyLimit limit acc → limit_reached applyLimit limit acc = true →
  capped applyLimit limit (acc ++ l) = acc.
Proof.
  intros Hacc Hr. rewrite limit_reached_spec in Hr by done. unfold capped.
  apply andb_true_iff in Hr as [-> Hr]. rewrite take_app_le by lia. apply take_ge. lia.
Qed.

Lemma capped_more acc x :
  acc = capped applyLimit limit acc → limit_reached applyLimit limit acc = false →
  acc ++ [x] = capped applyLimit limit (acc ++ [x]).
Proof.
  intros Hacc Hr. rewrite limit_reached_spec in Hr by done. unfold capped in *.
  destruct (applyLimit && negb (limit =? 0)); [|done].
  apply (f_equal length) in Hacc. rewrite length_take in Hacc.
  cbn in Hr. rewrite take_ge; [done|]. rewrite length_app. cbn. lia.
Qed.

Lemma capped_capped l : capped applyLimit limit l = capped applyLimit limit (capped applyLimit limit l).
Proof.
  unfold capped. destruct (applyLimit && negb (limit =? 0)); [|done].
  by rewrite take_idemp.
Qed.

Lemma capped_app l l' :
  capped applyLimit limit (capped applyLimit limit l ++ l') = capped applyLimit limit (l ++ l').
Proof.
  unfold capped. destruct (applyLimit && negb (limit =? 0)); [|done].
  rewrite !take_app, take_idemp, length_take. f_equal. f_equal. lia.
Qed.

Lemma capped_nil : [] = capped applyLimit limit ([] : list A).
Proof. unfold capped. by rewrite take_nil; destruct (_ && _). Qed.
End Cap.

Section Queue.
Context `{SdkLaws}.
Implicit Types (d : DelegationState) (r : UndelegationRecord) (kv : string * string).

(** The entry of the queue is expired, and not held. *)
Definition entry_expired (cur : Z) kv : bool :=
  match ParsePendingUndelegationKey kv.1 with
  | Ok f => pkf_EpochNumber f <? wrap_uint64 cur
  | _ => false
  end.
Definition entry_ready d (cur : Z) kv : option UndelegationRecord :=
  if entry_expired cur kv && (GetUndelegationHoldCount kv.2 d <=? 0)
  then undelegations d !! kv.2 else None.

Definition queue_prefix (ident : string) : string :=
  AppendMany [Uint64ToBigEndian (Z.of_nat (String.length ident)); ident].

(** The completable records of one epoch identifier, in queue order. *)
Definition queue d (ident : string) (cur : Z) : list UndelegationRecord :=
  omap (entry_ready d cur) (prefix_iterator (queue_prefix ident) (pendingUndelegations d)).

(** The entry [kv] belongs to the record [r] of the identifier [ident]. *)
Definition entry_of d (ident : string) kv r : Prop :=
  undelegations d !! kv.2 = Some r ∧ record_wf r ∧ pending_key r = kv.1 ∧
  ur_CompletedEpochIdentifier r = ident.

Lemma entry_parse d ident kv r :
  entry_of d ident kv r →
  ∃ f, ParsePendingUndelegationKey kv.1 = Ok f ∧ pkf_EpochNumber f = ur_CompletedEpochNumber r.
Proof.
  intros (_ & Hwf & <- & _). destruct (rw_epoch r Hwf) as (? & ? & ?).
  unfold pending_key. eexists. split; [apply pending_key_parse|]; try done.
  - unfold is_u64. lia.
  - apply Hwf.
Qed.

Lemma queue_prefix_spec r ident :
  record_wf r → Z.of_nat (String.length ident) < 2 ^ 63 →
  has_prefix (queue_prefix ident) (pending_key r) = true ↔ ur_CompletedEpochIdentifier r = ident.
Proof.
  intros Hwf Hl. destruct (epoch_wf_u64 _ _ (rw_epoch r Hwf)) as [Hl' _].
  unfold queue_prefix, pending_key, GetPendingUndelegationRecordKey. cbn [AppendMany].
  rewrite app_empty_r. split.
  - intros [t Ht]%has_prefix_spec. rewrite app_assoc_str in Ht.
    apply app_inj_len in Ht as [Hlen Ht]; [|by rewrite !u64_length].
    apply BE_inj in Hlen; [|done|unfold is_u64; lia].
    apply app_inj_len in Ht as [-> _]; [done|lia].
  - intros <-. rewrite <-app_assoc_str. apply has_prefix_app.
Qed.

(** The entries of the queue of an identifier are the records that complete at it. *)
Lemma queue_entries d ident kv :
  records_inv d → Z.of_nat (String.length ident) < 2 ^ 63 →
  kv ∈ prefix_iterator (queue_prefix ident) (pendingUndelegations d) ↔
  ∃ r, entry_of d ident kv r.
Proof.
  intros Hd Hl. destruct kv as [pk k]. rewrite elem_of_prefix_iterator.
  rewrite (ri_pending d Hd pk k). unfold entry_of; cbn. split.
  - intros [(r & Hr & <-) Hpfx]. exists r. pose proof (ri_wf d Hd k r Hr) as Hwf.
    by apply queue_prefix_spec in Hpfx.
  - intros (r & Hr & Hwf & <- & Hid). split; [by eauto|]. by apply queue_prefix_spec.
Qed.

(** Once an entry is not expired, no later one is. *)
Lemma expired_sorted d ident cur kv kv' r r' :
  entry_of d ident kv r → entry_of d ident kv' r' → key_le kv kv' →
  entry_expired cur kv = false → entry_expired cur kv' = false.
Proof.
  intros Hkv Hkv' Hle. unfold entry_expired.
  destruct (entry_parse _ _ _ _ Hkv) as (f & -> & ->).
  destruct (entry_parse _ _ _ _ Hkv') as (f' & -> & ->).
  intros Hn%Z.ltb_ge. apply Z.ltb_ge.
  destruct (decide (ur_CompletedEpochNumber r' < ur_CompletedEpochNumber r)) as [Hlt|]; [|lia].
  destruct Hkv as (_ & Hwf & Hk & Hi), Hkv' as (_ & Hwf' & Hk' & Hi').
  destruct (epoch_wf_u64 _ _ (rw_epoch r Hwf)), (epoch_wf_u64 _ _ (rw_epoch r' Hwf')).
  assert (String.le kv'.1 kv.1).
  { rewrite <-Hk, <-Hk'. unfold pending_key. rewrite Hi, Hi'. by apply pending_key_le. }
  assert (Heq : kv.1 = kv'.1) by (by apply (anti_symm String.le)).
  rewrite <-Hk, <-Hk' in Heq. unfold pending_key in Heq.
  apply pending_key_inj in Heq as (_ & ? & _); try done; [lia|apply Hwf|apply Hwf'].
Qed.

Section Limit.
Context (applyLimit : bool) (limit : Z) (Hlimit : 0 ≤ limit < 2 ^ 32).
Implicit Types (acc : list UndelegationRecord).

(** One entry: what the callback appends, and whether the loop stops. *)
Lemma visit_pending_run d ident cur kv r acc :
  entry_of d ident kv r →
  visit_pending fst true cur (completable_op applyLimit limit) kv (d, acc) =
    if entry_expired cur kv then
      match entry_ready d cur kv with
      | None => (Ok false, (d, acc))
      | Some r => if limit_reached applyLimit limit acc then (Ok true, (d, acc))
                  else (Ok false, (d, acc ++ [r]))
      end
    else (Ok true, (d, acc)).
Proof.
  intros Hkv. unfold entry_ready, entry_expired, visit_pending.
  destruct (entry_parse _ _ _ _ Hkv) as (f & Hf & _). rewrite Hf.
  unfold lift_result, gets, mbind, M_bind. cbn.
  destruct (pkf_EpochNumber f <? wrap_uint64 cur); cbn; [|done].
  rewrite Z.ltb_antisym. destruct (GetUndelegationHoldCount kv.2 d <=? 0); cbn; [|done].
  destruct Hkv as (-> & _). unfold completable_op, gets, mbind, M_bind. cbn.
  by destruct (limit_reached applyLimit limit acc).
Qed.

Lemma visit_queue_run d ident cur entries acc :
  (∀ kv, kv ∈ entries → ∃ r, entry_of d ident kv r) → StronglySorted key_le entries →
  acc = capped applyLimit limit acc →
  for_each_break entries (visit_pending fst true cur (completable_op applyLimit limit)) (d, acc) =
    (Ok tt, (d, capped applyLimit limit (acc ++ omap (entry_ready d cur) entries))).
Proof.
  revert acc. induction entries as [|kv entries IH]; intros acc Hall Hsorted Hacc.
  { cbn. rewrite app_nil_r. by rewrite <-Hacc. }
  destruct (Hall kv) as [r Hr]; [apply list_elem_of_here|].
  apply StronglySorted_inv in Hsorted as [Hsorted Hle].
  assert (Hall' : ∀ kv, kv ∈ entries → ∃ r, entry_of d ident kv r)
    by (intros ??; by apply Hall, list_elem_of_further).
  cbn [for_each_break omap list_omap]. unfold mbind at 1, M_bind.
  rewrite (visit_pending_run d ident cur kv r acc Hr).
  destruct (entry_expired cur kv) eqn:Hexp.
  - destruct (entry_ready d cur kv) as [r'|] eqn:Hready; [|by apply IH].
    destruct (limit_reached applyLimit limit acc) eqn:Hlim.
    + by rewrite (capped_full applyLimit limit Hlimit) by done.
    + rewrite IH; [|done..|by apply capped_more]. by rewrite <-app_assoc.
  - assert (Hnone : ∀ kv', kv' ∈ kv :: entries → entry_ready d cur kv' = None).
    { intros kv' Hkv'. unfold entry_ready. destruct (Hall kv' Hkv') as [r' Hr'].
      enough (entry_expired cur kv' = false) as -> by done.
      apply elem_of_cons in Hkv' as [->|Hkv']; [done|].
      rewrite Forall_forall in Hle. by apply (expired_sorted d ident cur kv kv' r r'); auto. }
    rewrite (Hnone kv) by apply list_elem_of_here.
    enough (omap (entry_ready d cur) entries = []) as -> by (by rewrite app_nil_r, <-Hacc).
    apply elem_of_nil_inv. intros r' (kv' & Hkv' & Hr')%list_elem_of_omap.
    rewrite Hnone in Hr'; [done|by apply list_elem_of_further].
Qed.
End Limit.

(** The records that can be completed: those of the null epoch, then those of
    the registered epochs. *)
Definition completable (epochs : EpochsState) d : list UndelegationRecord :=
  queue d NullEpochIdentifier (NullEpochNumber + 1) ++
  (AllEpochInfos epochs ≫= λ e, queue d (ei_Identifier e) (ei_CurrentEpoch e)).

(** What the queue relies on of x/epochs: the identifiers are the keys, none
    is the null identifier, and the numbers fit in an int64. *)
Record epochs_ok (es : EpochsState) : Prop := {
  eo_keyed : keyed es;
  eo_null : es !! NullEpochIdentifier = None;
  eo_range : map_Forall (λ id e, Z.of_nat (String.length id) < 2 ^ 63 ∧
                                 0 ≤ ei_CurrentEpoch e < 2 ^ 63) es;
}.

Lemma iterate_queue_run applyLimit limit d ident cur acc :
  0 ≤ limit < 2 ^ 32 → records_inv d → Z.of_nat (String.length ident) < 2 ^ 63 →
  acc = capped applyLimit limit acc →
  IteratePendingUndelegations fst true ident cur (completable_op applyLimit limit) (d, acc) =
    (Ok tt, (d, capped applyLimit limit (acc ++ queue d ident cur))).
Proof.
  intros Hlimit Hd Hident Hacc. unfold IteratePendingUndelegations.
  unfold mbind, M_bind, gets. cbn [fst].
  apply (visit_queue_run applyLimit limit Hlimit d ident); [|apply prefix_iterator_sorted|done].
  intros kv Hkv. by apply queue_entries in Hkv.
Qed.

Lemma epochs_loop_run applyLimit limit d l acc :
  0 ≤ limit < 2 ^ 32 → records_inv d →
  (∀ e, e ∈ l → Z.of_nat (String.length (ei_Identifier e)) < 2 ^ 63) →
  acc = capped applyLimit limit acc →
  for_each_break l (visit_epoch applyLimit limit) (d, acc) =
    (Ok tt, (d, capped applyLimit limit
       (acc ++ (l ≫= λ e, queue d (ei_Identifier e) (ei_CurrentEpoch e))))).
Proof.
  intros Hlimit Hd. revert acc. induction l as [|e l IH]; intros acc Hl Hacc.
  { cbn. rewrite app_nil_r. by rewrite <-Hacc. }
  assert (Hrun : visit_epoch applyLimit limit e (d, acc) =
    if limit_reached applyLimit limit acc then (Ok true, (d, acc))
    else (Ok false, (d, capped applyLimit limit
                          (acc ++ queue d (ei_Identifier e) (ei_CurrentEpoch e))))).
  { unfold visit_epoch, gets, mbind, M_bind. cbn.
    destruct (limit_reached applyLimit limit acc); [done|].
    rewrite iterate_queue_run; [done..|apply Hl, list_elem_of_here|done]. }
  cbn [for_each_break]. rewrite bind_cons. unfold mbind at 1, M_bind. rewrite Hrun.
  destruct (limit_reached applyLimit limit acc) eqn:Hlim.
  { cbn. by rewrite (capped_full applyLimit limit Hlimit) by done. }
  rewrite IH; [|intros ??; by apply Hl, list_elem_of_further|apply capped_capped].
  by rewrite capped_app, <-app_assoc.
Qed.

Lemma GetCompletableUndelegations_run epochs applyLimit d :
  records_inv d → epochs_ok epochs → 0 ≤ p_MaxUndelegationCompletions (GetParams d) < 2 ^ 32 →
  GetCompletableUndelegations epochs applyLimit d =
    (Ok (capped applyLimit (p_MaxUndelegationCompletions (GetParams d)) (completable epochs d)), d).
Proof.
  intros Hd Hshort Hlimit. unfold GetCompletableUndelegations.
  unfold mbind at 1, M_bind, gets at 1. cbv beta iota.
  set (limit := if applyLimit then _ else 0).
  assert (Hl : 0 ≤ limit < 2 ^ 32) by (unfold limit; destruct applyLimit; lia).
  assert (Hcap : ∀ l : list UndelegationRecord,
    capped applyLimit (p_MaxUndelegationCompletions (GetParams d)) l = capped applyLimit limit l)
    by (unfold limit; by destruct applyLimit).
  rewrite Hcap. unfold with_var. unfold mbind at 1, M_bind.
  rewrite iterate_queue_run; [|done..|by apply capped_nil].
  rewrite app_nil_l, epochs_loop_run; [|done..| |apply capped_capped].
  2:{ intros e He%elem_of_AllEpochInfos; [|apply Hshort]. apply (eo_range _ Hshort) in He. lia. }
  by rewrite capped_app.
Qed.

Definition matured (es : EpochsState) r : Prop :=
  (ur_CompletedEpochIdentifier r = NullEpochIdentifier ∧
   ur_CompletedEpochNumber r < NullEpochNumber + 1) ∨
  ∃ e, es !! ur_CompletedEpochIdentifier r = Some e ∧
       ur_CompletedEpochNumber r < ei_CurrentEpoch e.

Lemma elem_of_queue d ident cur r :
  records_inv d → Z.of_nat (String.length ident) < 2 ^ 63 → 0 ≤ cur < 2 ^ 64 →
  r ∈ queue d ident cur ↔
  ∃ k, undelegations d !! k = Some r ∧ GetUndelegationHoldCount k d ≤ 0 ∧
       ur_CompletedEpochIdentifier r = ident ∧ ur_CompletedEpochNumber r < cur.
Proof.
  intros Hd Hl Hcur. unfold queue. rewrite list_elem_of_omap.
  unfold entry_ready, entry_expired. split.
  - intros ([pk k] & Hkv & Hr). apply queue_entries in Hkv as [r' Hr']; [|done..].
    destruct (entry_parse _ _ _ _ Hr') as (f & Hf & Hn). cbn in *. rewrite Hf in Hr.
    rewrite wrap_uint64_id in Hr by done. destruct Hr' as (Hu & _ & _ & Hi).
    destruct (Z.ltb_spec (pkf_EpochNumber f) cur); [|done].
    destruct (Z.leb_spec (GetUndelegationHoldCount k d) 0); [|done].
    cbn in *. exists k. simplify_eq. eauto with lia.
  - intros (k & Hr & Hhold & Hi & Hn). pose proof (ri_wf d Hd k r Hr) as Hwf.
    assert (Hkv : entry_of d ident (pending_key r, k) r) by done.
    exists (pending_key r, k). split; [apply queue_entries; eauto|].
    destruct (entry_parse _ _ _ _ Hkv) as (f & -> & ->).
    rewrite wrap_uint64_id by done.
    by rewrite (proj2 (Z.ltb_lt _ _)), (proj2 (Z.leb_le _ _)).
Qed.

Lemma elem_of_completable es d r :
  records_inv d → epochs_ok es →
  r ∈ completable es d ↔
  ∃ k, undelegations d !! k = Some r ∧ GetUndelegationHoldCount k d ≤ 0 ∧ matured es r.
Proof.
  intros Hd Hes. unfold completable, matured.
  rewrite elem_of_app, list_elem_of_bind, elem_of_queue by done. split.
  - intros [(k & Hr & Hh & Hm)|(e & Hq & He)]; [by eauto 10|].
    apply elem_of_AllEpochInfos in He; [|apply Hes].
    destruct (eo_range _ Hes _ _ He). apply elem_of_queue in Hq as (k & Hr & Hh & Hi & Hn);
      [|done|lia..]. exists k. rewrite Hi. eauto 10.
  - intros (k & Hr & Hh & [Hm|(e & He & Hn)]); [by eauto|]. right. exists e.
    pose proof (eo_keyed _ Hes _ _ He) as Hid. destruct (eo_range _ Hes _ _ He).
    split; [apply elem_of_queue; rewrite ?Hid; eauto with lia|].
    apply elem_of_AllEpochInfos; [apply Hes|by rewrite Hid].
Qed.

Lemma NoDup_queue d ident cur :
  records_inv d → Z.of_nat (String.length ident) < 2 ^ 63 → NoDup (queue d ident cur).
Proof.
  intros Hd Hl. apply NoDup_omap.
  - assert (Hready : ∀ kv r, kv ∈ prefix_iterator (queue_prefix ident) (pendingUndelegations d) →
      entry_ready d cur kv = Some r → undelegations d !! kv.2 = Some r ∧ pending_key r = kv.1).
    { intros kv r [r' (Hr' & _ & Hk & _)]%queue_entries; [|done..]. unfold entry_ready.
      case_match; [|done]. intros Hr. by simplify_eq. }
    intros [pk k] [pk' k'] r Hx Hy Hkx Hky.
    apply Hready in Hkx as [Hk Hpk], Hky as [Hk' Hpk']; [|done..]. cbn in *. subst pk pk'.
    by rewrite (indexed_inj _ _ _ _ _ _ _ (ri_pending d Hd) Hk Hk' eq_refl).
  - apply (NoDup_fmap_1 fst), prefix_iterator_NoDup_keys.
Qed.

Lemma NoDup_AllEpochInfos es : keyed es → NoDup (AllEpochInfos es).
Proof.
  intros Hes. apply (NoDup_fmap_1 ei_Identifier). unfold AllEpochInfos.
  rewrite <-list_fmap_compose, (list_fmap_ext _ fst); [apply prefix_iterator_NoDup_keys|].
  intros i [id e] Hi%list_elem_of_lookup_2. apply elem_of_iterator_all in Hi. cbn.
  by apply Hes.
Qed.

Lemma NoDup_completable es d : records_inv d → epochs_ok es → NoDup (completable es d).
Proof.
  intros Hd Hes.
  assert (Hq : ∀ e r, e ∈ AllEpochInfos es → r ∈ queue d (ei_Identifier e) (ei_CurrentEpoch e) →
    es !! ei_Identifier e = Some e ∧ ur_CompletedEpochIdentifier r = ei_Identifier e).
  { intros e r He%elem_of_AllEpochInfos Hr; [|apply Hes]. destruct (eo_range _ Hes _ _ He).
    apply elem_of_queue in Hr as (k & _ & _ & Hr & _); [done|done|lia..]. }
  unfold completable. apply NoDup_app. split_and!; [by apply NoDup_queue| |].
  - intros r (k & _ & _ & Hnull & _)%elem_of_queue; [|done..].
    intros (e & Hr & He)%list_elem_of_bind. destruct (Hq e r He Hr) as [Hee Hid].
    rewrite <-Hid, Hnull, (eo_null _ Hes) in Hee. done.
  - apply NoDup_bind.
    + intros e e' r He He' Hr Hr'. destruct (Hq e r He Hr) as [H1 H2].
      destruct (Hq e' r He' Hr') as [H3 H4]. congruence.
    + intros e He%elem_of_AllEpochInfos; [|apply Hes].
      destruct (eo_range _ Hes _ _ He). by apply NoDup_queue.
    + apply NoDup_AllEpochInfos, Hes.
Qed.
End Queue.

(** ** Properties *)

(** C28.  The undelegations selected at the end of a block: on consistent
    stores, [GetCompletableUndelegations] returns the records that are matured
    and not held (those of the null epoch and those whose epoch number is below
    the current one of their epoch), each once and none missing, cut to the
    first [MaxUndelegationCompletions] of them when the limit applies and is
    not zero.  In particular the early exit of the iteration loses nothing. *)
Theorem GetCompletableUndelegations_spec `{SdkLaws} es applyLimit d :
  records_inv d → epochs_ok es → 0 ≤ p_MaxUndelegationCompletions (GetParams d) < 2 ^ 32 →
  ∃ l, GetCompletableUndelegations es applyLimit d =
         (Ok (capped applyLimit (p_MaxUndelegationCompletions (GetParams d)) l), d) ∧
    NoDup l ∧
    ∀ r, r ∈ l ↔
      ∃ k, undelegations d !! k = Some r ∧ GetUndelegationHoldCount k d ≤ 0 ∧ matured es r.
Proof.
  intros Hd Hes Hl. exists (completable es d). split_and!.
  - by apply GetCompletableUndelegations_run.
  - by apply NoDup_completable.
  - intros r. by apply elem_of_completable.
Qed.
