(* ===== verification/DelegationInv.v ===== *)
(** * The accounting invariant of x/delegation and x/assets

    The pool of an operator caches the shares of its delegators, and four
    balances cache the open undelegations: of the pool, of the delegation (for
    staked and for reward tokens) and of the staker.  [core_inv] states that the
    caches agree with what they cache, and this file proves that every pattern
    in which the keepers write the two stores keeps it. *)

From S2P Require Import Prelude Errors Sdk RefSdk KVStore Ledger DelegationTypes Assets.
From S2P Require Import DelegationStore UndelegationStore.

(** ** The invariant *)

(** All the shares of a delegation. *)
Definition shares (v : DelegationAmounts) : LegacyDec :=
  da_UndelegatableShare v + da_RewardUndelegatableShare v.

Definition delegation_nonneg (v : DelegationAmounts) : Prop :=
  0 ≤ da_UndelegatableShare v ∧ 0 ≤ da_PendingUndelegationAmount v ∧
  0 ≤ da_RewardUndelegatableShare v ∧ 0 ≤ da_RewardPendingUndelegationAmount v.

(** A pool without shares holds no tokens. *)
Definition pool_ok (p : OperatorAssetInfo) : Prop :=
  operator_nonneg p ∧ (oa_TotalShare p = 0 → oa_TotalAmount p = 0).

(** The pool of a delegation, from its key. *)
Definition delegation_pool (k : string) : string :=
  match ParseJoinedKey k with
  | [_; assetID; operator] => GetJoinedStoreKey [operator; assetID]
  | _ => EmptyString
  end.

(** The keys of the balances that count a record. *)
Definition record_pool (r : UndelegationRecord) : string :=
  GetJoinedStoreKey [ur_OperatorAddr r; ur_AssetId r].
Definition record_delegation (r : UndelegationRecord) : string :=
  GetJoinedStoreKey [ur_StakerId r; ur_AssetId r; ur_OperatorAddr r].
Definition record_staker (r : UndelegationRecord) : string :=
  GetJoinedStoreKey [ur_StakerId r; ur_AssetId r].

(** Staked tokens, reward tokens, and tokens whose balance x/assets keeps. *)
Definition staked (r : UndelegationRecord) : bool := negb (ur_RewardAsset r).
Definition rewarded (r : UndelegationRecord) : bool := ur_RewardAsset r.
Definition deposited (r : UndelegationRecord) : bool :=
  staked r && negb (bool_decide (ur_AssetId r = ImuachainAssetID)).

Definition when (b : UndelegationRecord → bool) (key : UndelegationRecord → string)
    (_ : string) (r : UndelegationRecord) : option string :=
  if b r then Some (key r) else None.

Record delegation_wf (d : DelegationState) (k : string) (v : DelegationAmounts) : Prop := {
  dw_nonneg : delegation_nonneg v;
  (** the key is staker/asset/operator, and a staker with a share is listed *)
  dw_key : ∃ stakerID assetID operator,
    Forall key_part [stakerID; assetID; operator] ∧
    k = GetJoinedStoreKey [stakerID; assetID; operator] ∧
    (0 < shares v →
     stakersByOperator d !! GetJoinedStoreKey [operator; assetID; stakerID] = Some tt);
}.

Record core_inv `{Sdk} (a : AssetsState) (d : DelegationState) : Prop := {
  ci_stakers : map_Forall (λ _ i, staker_nonneg i) (stakerAssets a);
  ci_pools : map_Forall (λ _ p, pool_ok p) (operatorAssets a);
  ci_delegations : map_Forall (delegation_wf d) (delegations d);
  (** the share of a pool is the sum of the shares of its delegations *)
  ci_shares : ledger oa_TotalShare (λ k _, Some (delegation_pool k)) shares
                (operatorAssets a) (delegations d);
  (** the pending amounts are the sums of the open undelegations *)
  ci_pool_pending : ledger oa_PendingUndelegationAmount (when (λ _, true) record_pool) ur_Amount
                      (operatorAssets a) (undelegations d);
  ci_pending : ledger da_PendingUndelegationAmount (when staked record_delegation) ur_Amount
                 (delegations d) (undelegations d);
  ci_reward_pending : ledger da_RewardPendingUndelegationAmount
                        (when rewarded record_delegation) ur_Amount
                        (delegations d) (undelegations d);
  ci_staker_pending : ledger sa_PendingUndelegationAmount (when deposited record_staker) ur_Amount
                        (stakerAssets a) (undelegations d);
  ci_amounts : map_Forall (λ _ r, 0 ≤ ur_Amount r) (undelegations d);
  ci_records : records_inv d;
}.

Lemma core_inv_empty `{Sdk} : core_inv empty_assets empty_delegation.
Proof.
  split; try apply map_Forall_empty; try apply ledger_empty.
  split; cbn; try done; apply indexed_empty.
Qed.

(** ** Keys *)

Lemma delegation_pool_join s a o :
  Forall key_part [s; a; o] →
  delegation_pool (GetJoinedStoreKey [s; a; o]) = GetJoinedStoreKey [o; a].
Proof. intros Hk. unfold delegation_pool. by rewrite ParseJoinedKey_join. Qed.

(** ** Writes that touch one store *)

Section Frames.
Context `{SdkLaws}.
Implicit Types (a : AssetsState) (d : DelegationState).

Lemma core_inv_assoc a d f : core_inv a d → core_inv a (set_associatedOperators f d).
Proof.
  intros []. split; try done.
  - intros k v Hv. by destruct (ci_delegations0 k v Hv).
  - by destruct ci_records0.
Qed.

Lemma core_inv_holds a d f :
  core_inv a d → core_inv a (set_records (λ m, m) (λ m, m) (λ m, m) f d).
Proof.
  intros []. split; try done.
  - intros k v Hv. by destruct (ci_delegations0 k v Hv).
  - by destruct ci_records0.
Qed.

Lemma core_inv_params a d p : core_inv a d → core_inv a (set_delegationParams p d).
Proof.
  intros []. split; try done.
  - intros k v Hv. by destruct (ci_delegations0 k v Hv).
  - by destruct ci_records0.
Qed.

(** Everything of x/assets but the two ledgers of balances. *)
Lemma core_inv_assets a a' d :
  stakerAssets a' = stakerAssets a → operatorAssets a' = operatorAssets a →
  core_inv a d → core_inv a' d.
Proof. intros Hs Ho []. split; by rewrite ?Hs, ?Ho. Qed.

(** A staker's deposit or withdrawable amount. *)
Lemma core_inv_staker a d key i :
  core_inv a d → staker_nonneg i →
  sa_PendingUndelegationAmount i =
    sa_PendingUndelegationAmount (default staker_zero (stakerAssets a !! key)) →
  core_inv (set_stakerAssets (insert key i) a) d.
Proof.
  intros [] Hi Hp. split; cbn; try done.
  - by apply map_Forall_insert_2.
  - by apply (ledger_insert_l _ _ _ staker_zero).
Qed.

(** A record whose amount to pay changes: a slash. *)
Definition same_record (r r' : UndelegationRecord) : Prop :=
  same_keys r r' ∧ ur_Amount r' = ur_Amount r ∧ ur_RewardAsset r' = ur_RewardAsset r.

Lemma core_inv_record a d k r r' :
  core_inv a d → undelegations d !! k = Some r → same_record r r' →
  core_inv a (write_record k r' d).
Proof.
  intros [] Hr (Hkeys & Hamt & Hrew).
  assert (Hown : ∀ b key j, (b, key) ∈ [(λ _, true, record_pool); (staked, record_delegation);
    (rewarded, record_delegation); (deposited, record_staker)] → when b key j r' = when b key j r).
  { destruct Hkeys as (E1 & E2 & E3 & _). intros b key j.
    rewrite !elem_of_cons, elem_of_nil.
    unfold when, deposited, staked, rewarded, record_pool, record_delegation, record_staker.
    intros [[= -> ->]|[[= -> ->]|[[= -> ->]|[[= -> ->]|[]]]]]; by rewrite ?E1, ?E2, ?E3, ?Hrew. }
  split; cbn; try done.
  - intros j v Hv. by destruct (ci_delegations0 j v Hv).
  - apply ledger_insert_r; [done|]. rewrite Hr. split; [apply Hown|done]. set_solver.
  - apply ledger_insert_r; [done|]. rewrite Hr. split; [apply Hown|done]. set_solver.
  - apply ledger_insert_r; [done|]. rewrite Hr. split; [apply Hown|done]. set_solver.
  - apply ledger_insert_r; [done|]. rewrite Hr. split; [apply Hown|done]. set_solver.
  - apply map_Forall_insert_2; [|done]. rewrite Hamt. by apply (ci_amounts0 k).
  - by eapply write_record_inv.
Qed.

(** A pool's tokens or operator share. *)
Lemma core_inv_pool a d key p :
  let old := default operator_zero (operatorAssets a !! key) in
  core_inv a d → pool_ok p →
  oa_TotalShare p = oa_TotalShare old →
  oa_PendingUndelegationAmount p = oa_PendingUndelegationAmount old →
  core_inv (set_operatorAssets (insert key p) a) d.
Proof.
  intros old [] Hi Hs Hp. split; cbn; try done.
  - by apply map_Forall_insert_2.
  - by apply (ledger_insert_l _ _ _ operator_zero).
  - by apply (ledger_insert_l _ _ _ operator_zero).
Qed.
End Frames.

(** ** Writes that touch both stores *)

Section Writes.
Context `{SdkLaws}.
Implicit Types (a : AssetsState) (d : DelegationState).
(** One delegation, and its pool. *)
Context (s x o : string) (Hparts : Forall key_part [s; x; o]).
#[local] Abbreviation k := (GetJoinedStoreKey [s; x; o]).
#[local] Abbreviation pk := (GetJoinedStoreKey [o; x]).
#[local] Abbreviation lk := (GetJoinedStoreKey [o; x; s]).

(** The list of the delegators after the delegation is written. *)
Definition lists_staker (m m' : gmap string unit) (v : DelegationAmounts) : Prop :=
  (0 < shares v → m' !! lk = Some tt) ∧ ∀ k', k' ≠ lk → m' !! k' = m !! k'.

Lemma delegations_insert_wf d d' v :
  map_Forall (delegation_wf d) (delegations d) → delegation_nonneg v →
  lists_staker (stakersByOperator d) (stakersByOperator d') v →
  map_Forall (delegation_wf d') (<[k:=v]> (delegations d)).
Proof.
  intros Hd Hv [Hl Hl']. intros k' v' [[<- <-]|[Hne Hk']]%lookup_insert_Some.
  - split; [done|]. exists s, x, o. eauto.
  - destruct (Hd k' v' Hk') as [Hnn (s' & x' & o' & Hp & -> & Hin)]. split; [done|].
    exists s', x', o'. split_and!; [done..|]. intros Hpos. rewrite Hl'; [by auto|].
    intros Heq. apply Hne.
    decompose_Forall_hyps. apply join3_inj in Heq as (-> & -> & ->); done.
Qed.

Lemma core_inv_listed a d :
  core_inv a d → 0 < shares (default delegation_zero (delegations d !! k)) →
  stakersByOperator d !! lk = Some tt.
Proof.
  intros Hinv Hpos. destruct (delegations d !! k) as [w|] eqn:Hw; [|done].
  destruct (ci_delegations a d Hinv _ _ Hw) as [_ (s' & x' & o' & Hp' & Heq & Hin)].
  pose proof Hparts as Hp0. decompose_Forall_hyps.
  apply join3_inj in Heq as (-> & -> & ->); try done. by apply Hin.
Qed.

(** The share of the delegation and of the pool move together; nothing is
    pending.  Delegating, and slashing a delegated share. *)
Lemma core_inv_shares a d d' p v :
  let oldp := default operator_zero (operatorAssets a !! pk) in
  let oldv := default delegation_zero (delegations d !! k) in
  core_inv a d → pool_ok p → delegation_nonneg v →
  oa_TotalShare p - oa_TotalShare oldp = shares v - shares oldv →
  oa_PendingUndelegationAmount p = oa_PendingUndelegationAmount oldp →
  da_PendingUndelegationAmount v = da_PendingUndelegationAmount oldv →
  da_RewardPendingUndelegationAmount v = da_RewardPendingUndelegationAmount oldv →
  lists_staker (stakersByOperator d) (stakersByOperator d') v →
  delegations d' = <[k:=v]> (delegations d) → undelegations d' = undelegations d →
  records_inv d' →
  core_inv (set_operatorAssets (insert pk p) a) d'.
Proof.
  intros oldp oldv [] Hp Hv Hshare Hpp Hvp Hvr Hlist Hd Hu Hr.
  split; cbn; rewrite ?Hd, ?Hu; try done.
  - by apply map_Forall_insert_2.
  - by eapply delegations_insert_wf.
  - apply (ledger_insert _ _ _ operator_zero); [done|done|by rewrite delegation_pool_join..|].
    rewrite (from_option_default _ delegation_zero) by done. fold oldp oldv. lia.
  - by apply (ledger_insert_l _ _ _ operator_zero).
  - by apply (ledger_insert_l _ _ _ delegation_zero).
  - by apply (ledger_insert_l _ _ _ delegation_zero).
Qed.

(** Where the balance of the staker is kept. *)
Definition moves_staker a a' (r : UndelegationRecord) (t : Z) : Prop :=
  if deposited r then
    ∃ i, stakerAssets a' = <[record_staker r := i]> (stakerAssets a) ∧ staker_nonneg i ∧
      sa_PendingUndelegationAmount i =
        sa_PendingUndelegationAmount (default staker_zero (stakerAssets a !! record_staker r)) + t
  else stakerAssets a' = stakerAssets a.

Lemma moves_staker_nonneg a a' r t :
  map_Forall (λ _ i, staker_nonneg i) (stakerAssets a) → moves_staker a a' r t →
  map_Forall (λ _ i, staker_nonneg i) (stakerAssets a').
Proof.
  unfold moves_staker. destruct (deposited r); [|by intros ? ->].
  intros Ha (i & -> & Hi & _). by apply map_Forall_insert_2.
Qed.

Definition of_delegation (r : UndelegationRecord) : Prop :=
  ur_StakerId r = s ∧ ur_AssetId r = x ∧ ur_OperatorAddr r = o.

Lemma of_delegation_keys r :
  of_delegation r → record_pool r = pk ∧ record_delegation r = k.
Proof. unfold record_pool, record_delegation. by intros (-> & -> & ->). Qed.

(** A share is taken out of the pool and a record of the tokens is added. *)
Lemma core_inv_undelegate a a' d d' p v r rk :
  let oldp := default operator_zero (operatorAssets a !! pk) in
  let oldv := default delegation_zero (delegations d !! k) in
  core_inv a d → pool_ok p → delegation_nonneg v → 0 ≤ ur_Amount r →
  of_delegation r → undelegations d !! rk = None →
  oa_TotalShare p - oa_TotalShare oldp = shares v - shares oldv →
  oa_PendingUndelegationAmount p = oa_PendingUndelegationAmount oldp + ur_Amount r →
  da_PendingUndelegationAmount v =
    da_PendingUndelegationAmount oldv + (if staked r then ur_Amount r else 0) →
  da_RewardPendingUndelegationAmount v =
    da_RewardPendingUndelegationAmount oldv + (if rewarded r then ur_Amount r else 0) →
  lists_staker (stakersByOperator d) (stakersByOperator d') v →
  delegations d' = <[k:=v]> (delegations d) → undelegations d' = <[rk:=r]> (undelegations d) →
  operatorAssets a' = <[pk:=p]> (operatorAssets a) → moves_staker a a' r (ur_Amount r) →
  records_inv d' → core_inv a' d'.
Proof.
  intros oldp oldv [] Hp Hv Ht Hof Hfresh Hshare Hpp Hvp Hvr Hlist Hd Hu Ha Hpay Hr.
  destruct (of_delegation_keys r Hof) as [Hrp Hrd].
  split; rewrite ?Hd, ?Hu, ?Ha; try done.
  - by eapply moves_staker_nonneg.
  - by apply map_Forall_insert_2.
  - by eapply delegations_insert_wf.
  - apply (ledger_insert _ _ _ operator_zero); [done|done|by rewrite delegation_pool_join..|].
    rewrite (from_option_default _ delegation_zero) by done. fold oldp oldv. lia.
  - apply (ledger_add _ _ _ operator_zero _ _ true); try done. by rewrite <-Hrp.
  - apply (ledger_add _ _ _ delegation_zero _ _ (staked r)); try done.
    unfold when. by rewrite Hrd.
  - apply (ledger_add _ _ _ delegation_zero _ _ (rewarded r)); try done.
    unfold when. by rewrite Hrd.
  - unfold moves_staker in Hpay. destruct (deposited r) eqn:Hdep.
    + destruct Hpay as (i & -> & _ & Hi).
      apply (ledger_add _ _ _ staker_zero _ _ true); try done. unfold when. by rewrite Hdep.
    + rewrite Hpay. apply ledger_insert_r; [done|]. rewrite Hfresh. unfold when. by rewrite Hdep.
  - by apply map_Forall_insert_2.
Qed.

(** A record is completed: its amount leaves the pending balances. *)
Lemma core_inv_complete a a' d d' p v r rk :
  let oldp := default operator_zero (operatorAssets a !! pk) in
  let oldv := default delegation_zero (delegations d !! k) in
  core_inv a d → pool_ok p → delegation_nonneg v →
  of_delegation r → undelegations d !! rk = Some r →
  oa_TotalShare p = oa_TotalShare oldp → da_UndelegatableShare v = da_UndelegatableShare oldv →
  da_RewardUndelegatableShare v = da_RewardUndelegatableShare oldv →
  oa_PendingUndelegationAmount p = oa_PendingUndelegationAmount oldp - ur_Amount r →
  da_PendingUndelegationAmount v =
    da_PendingUndelegationAmount oldv - (if staked r then ur_Amount r else 0) →
  da_RewardPendingUndelegationAmount v =
    da_RewardPendingUndelegationAmount oldv - (if rewarded r then ur_Amount r else 0) →
  stakersByOperator d' = stakersByOperator d →
  delegations d' = <[k:=v]> (delegations d) → undelegations d' = delete rk (undelegations d) →
  operatorAssets a' = <[pk:=p]> (operatorAssets a) → moves_staker a a' r (- ur_Amount r) →
  records_inv d' → core_inv a' d'.
Proof.
  intros oldp oldv Hinv Hp Hv Hof Hr0 Hps Hvs Hvrs Hpp Hvp Hvr Hlist Hd Hu Ha Hpay Hr.
  assert (Hold : 0 < shares v → stakersByOperator d !! lk = Some tt).
  { intros Hpos. apply (core_inv_listed a); [done|]. fold oldv. unfold shares in *. lia. }
  destruct Hinv. destruct (of_delegation_keys r Hof) as [Hrp Hrd].
  split; rewrite ?Hd, ?Hu, ?Ha; try done.
  - by eapply moves_staker_nonneg.
  - by apply map_Forall_insert_2.
  - eapply delegations_insert_wf; [done..|]. by rewrite Hlist.
  - apply (ledger_insert _ _ _ operator_zero); [done|done|by rewrite delegation_pool_join..|].
    rewrite (from_option_default _ delegation_zero) by done. fold oldp oldv.
    unfold shares. lia.
  - apply (ledger_remove _ _ _ operator_zero _ _ true) with r; try done. by rewrite <-Hrp.
  - apply (ledger_remove _ _ _ delegation_zero _ _ (staked r)) with r; try done.
    unfold when. by rewrite Hrd.
  - apply (ledger_remove _ _ _ delegation_zero _ _ (rewarded r)) with r; try done.
    unfold when. by rewrite Hrd.
  - unfold moves_staker in Hpay. destruct (deposited r) eqn:Hdep.
    + destruct Hpay as (i & -> & _ & Hi).
      apply (ledger_remove _ _ _ staker_zero _ _ true) with r; try done.
      unfold when. by rewrite Hdep.
    + rewrite Hpay. apply ledger_delete_r; [done|]. intros r' Hr'. unfold when.
      simplify_eq. by rewrite Hdep.
  - by apply map_Forall_delete.
Qed.
End Writes.
