(* ===== verification/Delegation.v ===== *)
(** * Delegating (x/delegation)

    keeper/share.go, the queries of keeper/delegation_state.go and
    keeper/delegation.go.  A method runs on the [World]: the stores of x/assets
    and x/delegation, an abstract bank and the state of the other modules.
    What the module expects of those (types/expected_keepers.go) is the class
    [Keepers]: the queries of x/operator and x/epochs, and the hooks and
    callbacks of x/feedistribution, which write only their own store. *)

From stdpp Require Import pretty.
From S2P Require Import Prelude Errors Sdk RefSdk KVStore Epochs Shares DelegationTypes Assets.
From S2P Require Import DelegationStore UndelegationStore.

(** The state a method of the module runs on. *)
Record World (B X : Type) := {
  w_assets : AssetsState;
  w_delegation : DelegationState;
  w_bank : B;
  w_ext : X;
}.
Arguments Build_World {B X}.
Arguments w_assets {B X}.
Arguments w_delegation {B X}.
Arguments w_bank {B X}.
Arguments w_ext {B X}.

Section Lenses.
Context {B X A : Type}.

Definition put_assets (a : AssetsState) (w : World B X) : World B X :=
  {| w_assets := a; w_delegation := w_delegation w; w_bank := w_bank w; w_ext := w_ext w |}.
Definition put_delegation (d : DelegationState) (w : World B X) : World B X :=
  {| w_assets := w_assets w; w_delegation := d; w_bank := w_bank w; w_ext := w_ext w |}.
Definition put_bank (b : B) (w : World B X) : World B X :=
  {| w_assets := w_assets w; w_delegation := w_delegation w; w_bank := b; w_ext := w_ext w |}.
Definition put_ext (x : X) (w : World B X) : World B X :=
  {| w_assets := w_assets w; w_delegation := w_delegation w; w_bank := w_bank w; w_ext := x |}.

(** A call to another keeper. *)
Definition on_assets : M AssetsState error A → M (World B X) error A := zoom w_assets put_assets.
Definition on_bank : M B error A → M (World B X) error A := zoom w_bank put_bank.
Definition on_ext : M X error A → M (World B X) error A := zoom w_ext put_ext.
Definition on_delegation : M DelegationState error A → M (World B X) error A :=
  zoom w_delegation put_delegation.
End Lenses.

(** ** The expected keepers (types/expected_keepers.go) *)

Class Keepers (X : Type) := {
  IsOperator : X → string → bool;
  IsOperatorFrozen : X → string → bool;
  (** epoch identifier, epoch number, unbonding epochs *)
  GetUnbondingExpiration : X → string → result error (string * Z * Z);
  (** slashed, epoch identifier, epoch number *)
  GetInstantUnbondingExpiration : X → string → result error (bool * string * Z);
  (** the store of x/epochs *)
  ext_epochs : X → EpochsState;
  (** staker, asset, operator, previous delegated amount, previous pool *)
  AfterDelegation : string → string → string → Int → OperatorAssetInfo → M X error unit;
  AfterUndelegationStarted :
    string → string → string → string → Int → OperatorAssetInfo → M X error unit;
  AfterNSTDelegationSlashed :
    string → string → string → Int → OperatorAssetInfo → M X error unit;
  CompleteRewardUndelegation : UndelegationRecord → M X error unit;
}.

(** The argument of [DelegateTo] and [UndelegateFrom]; the callback
    [ReduceDelegationShare] belongs to x/feedistribution. *)
Record DelegationOrUndelegationParams (X : Type) := {
  ClientChainID : Z;
  AssetsAddress : string;
  OperatorAddress : string;
  StakerAddress : string;
  OpAmount : Int;
  TxHash : string;
  InstantUnbonding : bool;
  RewardAsset : bool;
  RewardAssetID : string;
  RewardStakerID : string;
  ReduceDelegationShare : option (string → string → string → LegacyDec → Int → OperatorAssetInfo →
    M X error (list UndelegationAmountPerAVS * Int));
  RewardUndelegations : list UndelegationAmountPerAVS;
}.
Arguments Build_DelegationOrUndelegationParams {X}.
Arguments ClientChainID {X}.
Arguments AssetsAddress {X}.
Arguments OperatorAddress {X}.
Arguments StakerAddress {X}.
Arguments OpAmount {X}.
Arguments TxHash {X}.
Arguments InstantUnbonding {X}.
Arguments RewardAsset {X}.
Arguments RewardAssetID {X}.
Arguments RewardStakerID {X}.
Arguments ReduceDelegationShare {X}.
Arguments RewardUndelegations {X}.

Section Keeper.
Context {sdk : Sdk} {B X : Type} {bk : BankKeeper B error} {kp : Keepers X}.
Abbreviation W := (World B X).

(** ** Queries (keeper/delegation_state.go) *)

(** The amounts of the staking share and of the reward share. *)
Definition UndelegatableAmount (assetID operator : string) (amounts : DelegationAmounts)
    : M W error (Int * Int) :=
  match AccAddressFromBech32 operator with
  | None => fail delegationtypes.ErrOperatorAddrIsNotAccAddr
  | Some opAccAddr =>
      operatorAsset ← on_assets (GetOperatorSpecifiedAssetInfo opAccAddr assetID);
      stakingAmount ← lift_result (TokensFromShares (da_UndelegatableShare amounts)
                        (oa_TotalShare operatorAsset) (oa_TotalAmount operatorAsset));
      rewardAmount ← lift_result (TokensFromShares (da_RewardUndelegatableShare amounts)
                        (oa_TotalShare operatorAsset) (oa_TotalAmount operatorAsset));
      mret (stakingAmount, rewardAmount)
  end.

Definition TotalDelegatedAmountForStakingAsset (stakerID assetID : string) : M W error Int :=
  with_var 0 (IterateDelegationsForStakerAndAsset (λ s, w_delegation s.1) (λ keys amounts,
    if da_UndelegatableShare amounts =? 0 then mret false
    else
      a ← on_fst (UndelegatableAmount assetID (sdr_OperatorAddr keys) amounts);
      _ ← modify (λ s, (s.1, s.2 + a.1));
      mret false) stakerID assetID).

Definition AllDelegatedInfoForStakerAsset (stakerID assetID : string)
    : M W error (gmap string Int) :=
  with_var ∅ (IterateDelegationsForStakerAndAsset (λ s, w_delegation s.1) (λ keys amounts,
    a ← on_fst (UndelegatableAmount assetID (sdr_OperatorAddr keys) amounts);
    _ ← modify (λ s, (s.1, <[sdr_OperatorAddr keys := a.1]> s.2));
    mret false) stakerID assetID).

Definition GetDelegationInfoWithAmounts (stakerID assetID operatorAddr : string)
    : M W error (DelegationAmounts * Int * Int) :=
  delegationAmounts ← on_delegation (GetSingleDelegationInfo stakerID assetID operatorAddr);
  a ← UndelegatableAmount assetID operatorAddr delegationAmounts;
  mret (delegationAmounts, a.1, a.2).

Definition GetDelegationInfo (stakerID assetID : string)
    : M W error (list DelegationInfoAndOperator) :=
  with_var [] (IterateDelegationsForStakerAndAsset (λ s, w_delegation s.1) (λ keys amounts,
    a ← on_fst (UndelegatableAmount assetID (sdr_OperatorAddr keys) amounts);
    _ ← modify (λ s, (s.1, s.2 ++ [{|
          dio_Operator := sdr_OperatorAddr keys;
          dio_DelegationInfo := {| sdi_DelegationAmounts := amounts;
            sdi_MaxUndelegatableAmount := a.1; sdi_MaxUndelegatableRewardAmount := a.2 |} |}]));
    mret false) stakerID assetID).

(** ** Shares (keeper/share.go) *)

Definition CalculateShare (operator assetID : string) (amount : Int) : M W error LegacyDec :=
  isExist ← gets (λ w, IsOperatorAssetExist operator assetID (w_assets w));
  if (isExist : bool) then
    info ← on_assets (GetOperatorSpecifiedAssetInfo operator assetID);
    if oa_TotalShare info =? 0 then mret (dec_of_int amount)
    else lift_result (SharesFromTokens (oa_TotalShare info) amount (oa_TotalAmount info))
  else mret (dec_of_int amount).

Definition ValidateUndelegationAmount (rewardAsset : bool) (operator stakerID assetID : string)
    (amount : Int) : M W error LegacyDec :=
  _ ← fail_if (amount <=? 0) delegationtypes.ErrAmountIsNotPositive;
  delegationInfo ← on_delegation
    (GetSingleDelegationInfo stakerID assetID (AccAddress_String operator));
  info ← on_assets (GetOperatorSpecifiedAssetInfo operator assetID);
  share ← lift_result (SharesFromTokens (oa_TotalShare info) amount (oa_TotalAmount info));
  _ ← fail_if (share =? 0) delegationtypes.ErrInsufficientShares;
  let undelegatableShare := if rewardAsset then da_RewardUndelegatableShare delegationInfo
                            else da_UndelegatableShare delegationInfo in
  _ ← fail_if (undelegatableShare <? share) delegationtypes.ErrInsufficientShares;
  tolerance ← lift_result (SharesFromTokens (oa_TotalShare info) 1 (oa_TotalAmount info));
  mret (if undelegatableShare - share <? tolerance then undelegatableShare else share).

Definition CalculateSlashShare (operator stakerID assetID : string) (slashAmount : Int)
    : M W error LegacyDec :=
  _ ← fail_if (slashAmount <=? 0) delegationtypes.ErrAmountIsNotPositive;
  delegationInfo ← on_delegation
    (GetSingleDelegationInfo stakerID assetID (AccAddress_String operator));
  info ← on_assets (GetOperatorSpecifiedAssetInfo operator assetID);
  let slashAmount := if oa_TotalAmount info <? slashAmount then oa_TotalAmount info
                     else slashAmount in
  shouldSlashShare ← lift_result (SharesFromTokens (oa_TotalShare info) slashAmount
                                    (oa_TotalAmount info));
  mret (if da_UndelegatableShare delegationInfo <? shouldSlashShare
        then da_UndelegatableShare delegationInfo else shouldSlashShare).

Definition RemoveShareFromOperator (isUndelegation : bool) (operator stakerID assetID : string)
    (share : LegacyDec) : M W error Int :=
  _ ← fail_if (share <=? 0) delegationtypes.ErrAmountIsNotPositive;
  operatorAssetState ← on_assets (GetOperatorSpecifiedAssetInfo operator assetID);
  _ ← fail_if (oa_TotalShare operatorAssetState <? share) delegationtypes.ErrInsufficientShares;
  removedToken ←
    (if oa_TotalShare operatorAssetState =? share
     then mret (oa_TotalAmount operatorAssetState)
     else lift_result (TokensFromShares share (oa_TotalShare operatorAssetState)
                         (oa_TotalAmount operatorAssetState)));
  getOperator ← gets (λ w, GetAssociatedOperator stakerID (w_delegation w));
  let self := negb (bool_decide (getOperator = EmptyString))
              && bool_decide (getOperator = AccAddress_String operator) in
  _ ← on_assets (UpdateOperatorAssetState operator assetID {|
        doa_TotalAmount := Some (- removedToken);
        doa_PendingUndelegationAmount := if isUndelegation then Some removedToken else None;
        doa_TotalShare := Some (- share);
        doa_OperatorShare := if self then Some (- share) else None |});
  mret removedToken.

(** The change of the delegation; the pending amount of the staker is moved on
    the way (x/assets keeps none for the native token). *)
Definition removal_delta (isUndelegation rewardAsset : bool) (stakerID assetID : string)
    (share : LegacyDec) (removeToken : Int) : M W error DeltaDelegationAmounts :=
  if negb rewardAsset then
    _ ← (if isUndelegation && negb (bool_decide (assetID = ImuachainAssetID))
         then _ ← on_assets (UpdateStakerAssetState stakerID assetID {|
                    dsa_TotalDepositAmount := None; dsa_WithdrawableAmount := None;
                    dsa_PendingUndelegationAmount := Some removeToken |});
              mret tt
         else mret tt);
    mret {| dda_UndelegatableShare := Some (- share);
            dda_PendingUndelegationAmount := if isUndelegation then Some removeToken else None;
            dda_RewardUndelegatableShare := None;
            dda_RewardPendingUndelegationAmount := None |}
  else
    mret {| dda_UndelegatableShare := None; dda_PendingUndelegationAmount := None;
            dda_RewardUndelegatableShare := Some (- share);
            dda_RewardPendingUndelegationAmount := Some removeToken |}.

Definition RemoveShare (isUndelegation rewardAsset : bool) (operator stakerID assetID : string)
    (share : LegacyDec) : M W error Int :=
  _ ← fail_if (share <=? 0) delegationtypes.ErrAmountIsNotPositive;
  removeToken ← RemoveShareFromOperator isUndelegation operator stakerID assetID share;
  deltaAmount ← removal_delta isUndelegation rewardAsset stakerID assetID share removeToken;
  r ← on_delegation (UpdateDelegationState stakerID assetID (AccAddress_String operator)
                       deltaAmount);
  _ ← (if (r.1 : bool)
       then on_delegation (DeleteStakerForOperator (AccAddress_String operator) assetID stakerID)
       else mret tt);
  mret removeToken.

(** ** Delegating (keeper/delegation.go) *)

(** The queries x/assets makes of this module, in the current state. *)
Definition delegation_queries (w : W) : delegationKeeper := {|
  dk_GetDelegationInfo stakerID assetID := (GetDelegationInfo stakerID assetID w).1;
  dk_TotalDelegatedAmountForStakingAsset stakerID assetID :=
    (TotalDelegatedAmountForStakingAsset stakerID assetID w).1;
  dk_GetPendingUndelegationFinalAmount stakerID assetID :=
    (GetPendingUndelegationFinalAmount stakerID assetID (w_delegation w)).1 |}.

Definition staker_asset_info (stakerID assetID : string) : M W error StakerAssetInfo := λ w,
  on_assets (GetStakerSpecifiedAssetInfo (bank_GetBalance (w_bank w)) (delegation_queries w)
               stakerID assetID) w.

(** The staker and the asset of a request. *)
Definition request_ids (params : DelegationOrUndelegationParams X) : string * string :=
  if RewardAsset params then (RewardStakerID params, RewardAssetID params)
  else GetStakerIDAndAssetID (ClientChainID params) (Some (StakerAddress params))
         (Some (AssetsAddress params)).

(** The tokens leave the staker's account: the withdrawable amount of the
    staker, or the balance in the bank for the native token.  Rewards come
    from x/feedistribution. *)
Definition take_from_staker (params : DelegationOrUndelegationParams X)
    (stakerID assetID : string) : M W error unit :=
  if RewardAsset params then mret tt
  else if negb (bool_decide (assetID = ImuachainAssetID)) then
    info ← staker_asset_info stakerID assetID;
    _ ← fail_if (sa_WithdrawableAmount info <? OpAmount params)
          delegationtypes.ErrDelegationAmountTooBig;
    _ ← on_assets (UpdateStakerAssetState stakerID assetID {|
          dsa_TotalDepositAmount := None; dsa_WithdrawableAmount := Some (- OpAmount params);
          dsa_PendingUndelegationAmount := None |});
    mret tt
  else
    _ ← on_bank (bank_DelegateCoinsFromAccountToModule (StakerAddress params)
                   DelegatedPoolName ImuachainAssetDenom (OpAmount params));
    if bool_decide (StakerAddress params = OperatorAddress params)
    then on_delegation (SetAssociatedOperator stakerID
                          (AccAddress_String (OperatorAddress params)))
    else mret tt.

Definition delegateTo (params : DelegationOrUndelegationParams X) (notGenesis : bool)
    : M W error (LegacyDec * Int) :=
  let operator := OperatorAddress params in
  _ ← fail_if (OpAmount params <=? 0) delegationtypes.ErrAmountIsNotPositive;
  isOperator ← gets (λ w, IsOperator (w_ext w) operator);
  _ ← fail_if (negb isOperator) delegationtypes.ErrOperatorNotExist;
  frozen ← gets (λ w, IsOperatorFrozen (w_ext w) operator);
  _ ← fail_if (notGenesis && frozen) delegationtypes.ErrOperatorIsFrozen;
  let '(stakerID, assetID) := request_ids params in
  _ ← take_from_staker params stakerID assetID;
  share ← CalculateShare operator assetID (OpAmount params);
  associated ← gets (λ w, GetAssociatedOperator stakerID (w_delegation w));
  let self := bool_decide (associated = AccAddress_String operator) in
  prevAssetState ← on_assets (UpdateOperatorAssetState operator assetID {|
    doa_TotalAmount := Some (OpAmount params); doa_PendingUndelegationAmount := None;
    doa_TotalShare := Some share; doa_OperatorShare := if self then Some share else None |});
  r ← on_delegation (UpdateDelegationState stakerID assetID (AccAddress_String operator) {|
    dda_UndelegatableShare := if RewardAsset params then None else Some share;
    dda_PendingUndelegationAmount := None;
    dda_RewardUndelegatableShare := if RewardAsset params then Some share else None;
    dda_RewardPendingUndelegationAmount := None |});
  let preDelegationState := r.2 in
  _ ← on_delegation (AppendStakerForOperator (AccAddress_String operator) assetID stakerID);
  let totalDelegatableShare := da_UndelegatableShare preDelegationState
                               + da_RewardUndelegatableShare preDelegationState in
  preDelegatedAmount ← lift_result (TokensFromShares totalDelegatableShare
    (oa_TotalShare prevAssetState) (oa_TotalAmount prevAssetState));
  _ ← (if notGenesis
       then on_ext (AfterDelegation stakerID assetID operator preDelegatedAmount prevAssetState)
       else mret tt);
  mret (share, preDelegatedAmount).

Definition DelegateTo (params : DelegationOrUndelegationParams X) : M W error (LegacyDec * Int) :=
  delegateTo params true.

(** The completion epoch of an undelegation, with the ratio and the amount of
    the instant penalty: [None] when no penalty applies. *)
Definition expiration (params : DelegationOrUndelegationParams X)
    : M W error (string * Z * LegacyDec * option Int) :=
  if InstantUnbonding params then
    e ← (λ w, (GetInstantUnbondingExpiration (w_ext w) (OperatorAddress params), w));
    let '(applySlash, completedEpochID, completedEpochNumber) := e in
    if (applySlash : bool) then
      penalty ← gets (λ w, GetInstantUndelegationPenalty (w_delegation w));
      let instantSlashRatio := dec_QuoInt (dec_of_int penalty) 100 in
      let penaltyAmount := dec_TruncateInt (dec_MulInt instantSlashRatio (OpAmount params)) in
      mret (completedEpochID, completedEpochNumber, instantSlashRatio, Some penaltyAmount)
    else mret (completedEpochID, completedEpochNumber, 0, None)
  else
    e ← (λ w, (GetUnbondingExpiration (w_ext w) (OperatorAddress params), w));
    let '(completedEpochID, completedEpochNumber, _) := e in
    mret (completedEpochID, completedEpochNumber, 0, None).

(** The reward shares of an undelegation of rewards, per AVS. *)
Definition reduce_rewards (params : DelegationOrUndelegationParams X)
    (instantSlashRatio : LegacyDec) (prevAssetState : OperatorAssetInfo)
    : M W error (list UndelegationAmountPerAVS) :=
  if RewardAsset params then
    match ReduceDelegationShare params with
    | None => fail delegationtypes.ErrInvalidInputParameter
    | Some reduce =>
        a ← on_ext (reduce (RewardStakerID params) (RewardAssetID params) (OperatorAddress params)
                      instantSlashRatio (OpAmount params) prevAssetState);
        mret a.1
    end
  else mret (RewardUndelegations params).

(** The record [r] as it is stored. *)
Definition new_record (ctx : Ctx) (params : DelegationOrUndelegationParams X)
    (stakerID assetID : string) (undelegationID : Z) (removeToken : Int)
    (completedEpochID : string) (completedEpochNumber : Z) (penalty : option Int)
    (rewardUndelegations : list UndelegationAmountPerAVS) : UndelegationRecord := {|
  ur_StakerId := stakerID; ur_AssetId := assetID;
  ur_OperatorAddr := AccAddress_String (OperatorAddress params);
  ur_TxHash := Hash_String (TxHash params);
  ur_BlockNumber := wrap_uint64 (BlockHeight ctx);
  ur_CompletedEpochIdentifier := completedEpochID;
  ur_CompletedEpochNumber := completedEpochNumber;
  ur_UndelegationId := undelegationID;
  ur_Amount := removeToken;
  ur_ActualCompletedAmount := removeToken - default 0 penalty;
  ur_InstantUnbonding := InstantUnbonding params;
  ur_ApplySlash := is_some penalty;
  ur_InstantPenaltyAmount := Some (default 0 penalty);
  ur_RewardAsset := RewardAsset params;
  ur_RewardUndelegations := rewardUndelegations |}.

Definition UndelegateFrom (ctx : Ctx) (params : DelegationOrUndelegationParams X)
    : M W error unit :=
  let operator := OperatorAddress params in
  _ ← fail_if (OpAmount params <=? 0) delegationtypes.ErrAmountIsNotPositive;
  isOperator ← gets (λ w, IsOperator (w_ext w) operator);
  _ ← fail_if (negb isOperator) delegationtypes.ErrOperatorNotExist;
  let '(stakerID, assetID) := request_ids params in
  share ← ValidateUndelegationAmount (RewardAsset params) operator stakerID assetID
            (OpAmount params);
  prevAssetState ← on_assets (GetOperatorSpecifiedAssetInfo operator assetID);
  preDelegationState ← on_delegation
    (GetSingleDelegationInfo stakerID assetID (AccAddress_String operator));
  let totalDelegatableShare := da_UndelegatableShare preDelegationState
                               + da_RewardUndelegatableShare preDelegationState in
  preDelegatedAmount ← lift_result (TokensFromShares totalDelegatableShare
    (oa_TotalShare prevAssetState) (oa_TotalAmount prevAssetState));
  removeToken ← RemoveShare true (RewardAsset params) operator stakerID assetID share;
  undelegationID ← gets (λ w, GetLastUndelegationID (w_delegation w));
  e ← expiration params;
  let '(completedEpochID, completedEpochNumber, instantSlashRatio, penalty) := e in
  rewardUndelegations ← reduce_rewards params instantSlashRatio prevAssetState;
  let r := new_record ctx params stakerID assetID undelegationID removeToken completedEpochID
             completedEpochNumber penalty rewardUndelegations in
  epochs ← gets (λ w, ext_epochs (w_ext w));
  _ ← on_delegation (SetUndelegationRecords epochs false
        [{| uhc_Undelegation := r; uhc_HoldCount := 0 |}]);
  _ ← on_delegation IncrementLastUndelegationID;
  recordKey ← lift_result (GetKey r);
  on_ext (AfterUndelegationStarted stakerID assetID operator recordKey preDelegatedAmount
            prevAssetState).

(** ** Associations (keeper/delegation.go) *)

(** The callback of both directions: move the share of a delegation to the
    operator into or out of the operator's own share. *)
Definition move_operator_share (operatorAddress operatorStr : string) (sign : Z)
    (keys : SingleDelegationInfoReq) (amounts : DelegationAmounts) : M W error bool :=
  _ ← (if bool_decide (sdr_OperatorAddr keys = operatorStr)
       then _ ← on_assets (UpdateOperatorAssetState operatorAddress (sdr_AssetId keys) {|
                  doa_TotalAmount := None; doa_PendingUndelegationAmount := None;
                  doa_TotalShare := None;
                  doa_OperatorShare := Some (sign * da_UndelegatableShare amounts) |});
            mret tt
       else mret tt);
  mret false.

Definition AssociateOperatorWithStaker (clientChainID : Z) (operatorAddress : string)
    (stakerAddress : string) : M W error unit :=
  exists_ ← gets (λ w, ClientChainExists clientChainID (w_assets w));
  _ ← fail_if (negb exists_) delegationtypes.ErrClientChainNotExist;
  isOperator ← gets (λ w, IsOperator (w_ext w) operatorAddress);
  _ ← fail_if (negb isOperator) delegationtypes.ErrOperatorNotExist;
  let stakerID := (GetStakerIDAndAssetID clientChainID (Some stakerAddress) None).1 in
  associated ← gets (λ w, GetAssociatedOperator stakerID (w_delegation w));
  _ ← fail_if (negb (bool_decide (associated = EmptyString)))
        delegationtypes.ErrOperatorAlreadyAssociated;
  _ ← IterateDelegationsForStaker w_delegation
        (move_operator_share operatorAddress (AccAddress_String operatorAddress) 1) stakerID;
  on_delegation (SetAssociatedOperator stakerID (AccAddress_String operatorAddress)).

Definition DissociateOperatorFromStaker (clientChainID : Z) (stakerAddress : string)
    : M W error unit :=
  let stakerID := (GetStakerIDAndAssetID clientChainID (Some stakerAddress) None).1 in
  associatedOperator ← gets (λ w, GetAssociatedOperator stakerID (w_delegation w));
  _ ← fail_if (bool_decide (associatedOperator = EmptyString))
        delegationtypes.ErrNoAssociatedOperatorByStaker;
  match AccAddressFromBech32 associatedOperator with
  | None => fail delegationtypes.ErrOperatorAddrIsNotAccAddr
  | Some oldOperatorAccAddr =>
      _ ← IterateDelegationsForStaker w_delegation
            (move_operator_share oldOperatorAccAddr associatedOperator (-1)) stakerID;
      on_delegation (DeleteAssociatedOperator stakerID)
  end.

(** ** Messages (keeper/msg_server.go) *)

(** [DelegationIncOrDecInfo]: the signer and the amount per operator *)
Definition newDelegationOrUndelegationParams (fromAddress : string)
    (perOperatorAmounts : list (string * Int)) (assetAddrStr : string) (clientChainLzID : Z)
    (txHash : string) (instantUnbonding : bool)
    : result error (list (DelegationOrUndelegationParams X)) :=
  match AccAddressFromBech32 fromAddress with
  | None => Panic
  | Some stakerAddr =>
      (fix loop l := match l with
       | [] => Ok []
       | (key, amount) :: l =>
           match AccAddressFromBech32 key with
           | None => Panic
           | Some operatorAddr =>
               res ← loop l;
               Ok ({| ClientChainID := clientChainLzID;
                      AssetsAddress := HexToAddress assetAddrStr;
                      OperatorAddress := operatorAddr; StakerAddress := stakerAddr;
                      OpAmount := amount; TxHash := txHash;
                      InstantUnbonding := instantUnbonding; RewardAsset := false;
                      RewardAssetID := EmptyString; RewardStakerID := EmptyString;
                      ReduceDelegationShare := None; RewardUndelegations := [] |} :: res)
           end
       end) perOperatorAmounts
  end.

(** [common.Hash{}] *)
Definition zero_hash : string := bytes_string (replicate 32 (Ascii.ascii_of_nat 0)).

Definition DelegateAssetToOperator (fromAddress : string) (amounts : list (string * Int))
    : M W error unit :=
  l ← lift_result (newDelegationOrUndelegationParams fromAddress amounts ImuachainAssetAddr
                     ImuachainLzID zero_hash false);
  for_each l (λ p, _ ← DelegateTo p; mret tt).

(** The account keeper's [GetSequence], the transaction's bytes and the hash
    function are arguments. *)
Definition UndelegateAssetFromOperator (GetSequence : W → string → result error Z)
    (sha256 : string → string) (ctx : Ctx) (txBytes : string) (fromAddress : string)
    (amounts : list (string * Int)) (instantUnbonding : bool) : M W error unit :=
  match AccAddressFromBech32 fromAddress with
  | None => panic
  | Some fromAddr =>
      nonce ← (λ w, (GetSequence w fromAddr, w));
      let uniqueHash := sha256 (sha256 txBytes +:+ "-" +:+ pretty nonce) in
      l ← lift_result (newDelegationOrUndelegationParams fromAddress amounts
                         ImuachainAssetAddr ImuachainLzID uniqueHash instantUnbonding);
      for_each l (UndelegateFrom ctx)
  end.
End Keeper.
