(* ===== verification/DelegationEndBlock.v ===== *)
(** * Completing undelegations and native restaking (x/delegation)

    keeper/abci.go: at the end of a block the completable undelegations are
    paid out, each in its own cached context.  keeper/
    update_native_restaking_balance.go: a change of the balance of a native
    restaking token is a virtual deposit, or a slash of the withdrawable
    amount, then of the pending undelegations, then of the delegated shares. *)

From S2P Require Import Prelude Errors Sdk RefSdk KVStore Epochs Shares DelegationTypes Assets.
From S2P Require Import DelegationStore UndelegationStore Delegation.

Definition MaxSlashProportion : Z := 1.

Section Keeper.
Context {sdk : Sdk} {B X : Type} {bk : BankKeeper B error} {kp : Keepers X}.
Abbreviation W := (World B X).

(** ** EndBlock *)

(** What a completed record changes in the delegation of its staker. *)
Definition completion_delta (record : UndelegationRecord) : DeltaDelegationAmounts :=
  let neg := Some (- ur_Amount record) in
  {| dda_UndelegatableShare := None; dda_RewardUndelegatableShare := None;
     dda_PendingUndelegationAmount := if ur_RewardAsset record then None else neg;
     dda_RewardPendingUndelegationAmount := if ur_RewardAsset record then neg else None |}.

(** [sdk.NewCoin] panics on a negative amount. *)
Definition pay_staker (record : UndelegationRecord) : M W error unit :=
  if ur_RewardAsset record then on_ext (CompleteRewardUndelegation record)
  else if bool_decide (ur_AssetId record = ImuachainAssetID) then
    parsed ← lift_result (ParseID (ur_StakerId record));
    match hexutil_Decode parsed.1 with
    | None => fail ErrLibrary
    | Some stakerAddr =>
        if ur_ActualCompletedAmount record <? 0 then panic
        else on_bank (bank_UndelegateCoinsFromModuleToAccount DelegatedPoolName stakerAddr
                        ImuachainAssetDenom (ur_ActualCompletedAmount record))
    end
  else
    _ ← on_assets (UpdateStakerAssetState (ur_StakerId record) (ur_AssetId record) {|
          dsa_TotalDepositAmount := None;
          dsa_WithdrawableAmount := Some (ur_ActualCompletedAmount record);
          dsa_PendingUndelegationAmount := Some (- ur_Amount record) |});
    mret tt.

Definition complete_record (record : UndelegationRecord) : M W error unit :=
  match AccAddressFromBech32 (ur_OperatorAddr record) with
  | None => panic
  | Some operatorAccAddress =>
      _ ← on_delegation (UpdateDelegationState (ur_StakerId record) (ur_AssetId record)
            (ur_OperatorAddr record) (completion_delta record));
      _ ← pay_staker record;
      _ ← on_assets (UpdateOperatorAssetState operatorAccAddress (ur_AssetId record) {|
            doa_TotalAmount := None;
            doa_PendingUndelegationAmount := Some (- ur_Amount record);
            doa_TotalShare := None; doa_OperatorShare := None |});
      on_delegation (DeleteUndelegationRecord record)
  end.

(** Errors are logged; a record that fails stays in the queue. *)
Definition EndBlock : M W error unit :=
  log_and_continue (
    epochs ← gets (λ w, ext_epochs (w_ext w));
    records ← on_delegation (GetCompletableUndelegations epochs true);
    for_each records (λ record, log_and_continue (cached (complete_record record)))).

(** ** Native restaking balance *)

(** The callback that slashes the pending undelegations; the captured variable
    is [pendingSlashAmount]. *)
Definition slash_undelegation (stakerID assetID : string) (_ : string)
    (undelegation : UndelegationRecord) : M (W * Int) error (bool * UndelegationRecord) :=
  slashAmount ← gets snd;
  let pendingSlashAmount := slashAmount - ur_ActualCompletedAmount undelegation in
  _ ← modify (λ s, (s.1, pendingSlashAmount));
  let slashAmount := if 0 <? pendingSlashAmount then ur_ActualCompletedAmount undelegation
                     else slashAmount in
  _ ← on_fst (on_assets (UpdateStakerAssetState stakerID assetID {|
        dsa_TotalDepositAmount := Some (- slashAmount); dsa_WithdrawableAmount := None;
        dsa_PendingUndelegationAmount := None |}));
  mret (pendingSlashAmount <=? 0,
    {| ur_StakerId := ur_StakerId undelegation; ur_AssetId := ur_AssetId undelegation;
       ur_OperatorAddr := ur_OperatorAddr undelegation; ur_TxHash := ur_TxHash undelegation;
       ur_BlockNumber := ur_BlockNumber undelegation;
       ur_CompletedEpochIdentifier := ur_CompletedEpochIdentifier undelegation;
       ur_CompletedEpochNumber := ur_CompletedEpochNumber undelegation;
       ur_UndelegationId := ur_UndelegationId undelegation;
       ur_Amount := ur_Amount undelegation;
       ur_ActualCompletedAmount := ur_ActualCompletedAmount undelegation - slashAmount;
       ur_InstantUnbonding := ur_InstantUnbonding undelegation;
       ur_ApplySlash := ur_ApplySlash undelegation;
       ur_InstantPenaltyAmount := ur_InstantPenaltyAmount undelegation;
       ur_RewardAsset := ur_RewardAsset undelegation;
       ur_RewardUndelegations := ur_RewardUndelegations undelegation |}).

(** The callback that slashes the delegated shares. *)
Definition slash_delegation (stakerID assetID : string) (slashProportion : LegacyDec)
    (keys : SingleDelegationInfoReq) (delegationAmount : DelegationAmounts)
    : M (W * Int) error bool :=
  match AccAddressFromBech32 (sdr_OperatorAddr keys) with
  | None => fail ErrLibrary
  | Some opAccAddr =>
      prevAssetState ← on_fst (on_assets (GetOperatorSpecifiedAssetInfo opAccAddr assetID));
      preDelegationState ← on_fst (on_delegation
        (GetSingleDelegationInfo stakerID assetID (sdr_OperatorAddr keys)));
      preDelegatedAmount ← lift_result (TokensFromShares (da_UndelegatableShare preDelegationState)
        (oa_TotalShare prevAssetState) (oa_TotalAmount prevAssetState));
      let slashShare := dec_Mul (da_UndelegatableShare delegationAmount) slashProportion in
      actualSlashAmount ← on_fst (RemoveShare false false opAccAddr stakerID assetID slashShare);
      _ ← on_fst (on_assets (UpdateStakerAssetState stakerID assetID {|
            dsa_TotalDepositAmount := Some (- actualSlashAmount); dsa_WithdrawableAmount := None;
            dsa_PendingUndelegationAmount := None |}));
      _ ← on_fst (on_ext (AfterNSTDelegationSlashed stakerID assetID opAccAddr
            preDelegatedAmount prevAssetState));
      _ ← modify (λ s, (s.1, s.2 - actualSlashAmount));
      mret false
  end.

(** [min(pendingSlashAmount / totalDelegatedAmount, MaxSlashProportion)] *)
Definition slash_proportion (pendingSlashAmount totalDelegatedAmount : Int) : LegacyDec :=
  let p := dec_Quo (dec_of_int pendingSlashAmount) (dec_of_int totalDelegatedAmount) in
  if dec_of_int MaxSlashProportion <? p then dec_of_int MaxSlashProportion else p.

Definition UpdateNSTBalance (stakerID assetID : string) (amount : Int) : M W error unit :=
  if 0 <? amount then
    _ ← on_assets (UpdateStakerAssetState stakerID assetID {|
          dsa_TotalDepositAmount := Some amount; dsa_WithdrawableAmount := Some amount;
          dsa_PendingUndelegationAmount := None |});
    on_assets (UpdateStakingAssetTotalAmount assetID (Some amount))
  else if amount <? 0 then
    assetInfo ← staker_asset_info stakerID assetID;
    let rest := - amount - sa_WithdrawableAmount assetInfo in
    let slashFromWithdrawable := if 0 <? rest then sa_WithdrawableAmount assetInfo
                                 else - amount in
    let pendingSlashAmount := if 0 <? rest then rest else 0 in
    _ ← on_assets (UpdateStakerAssetState stakerID assetID {|
          dsa_TotalDepositAmount := Some (- slashFromWithdrawable);
          dsa_WithdrawableAmount := Some (- slashFromWithdrawable);
          dsa_PendingUndelegationAmount := None |});
    pendingSlashAmount ←
      (if 0 <? pendingSlashAmount
       then with_var pendingSlashAmount
              (IterateUndelegationsByStakerAndAsset (λ s, w_delegation s.1)
                 (λ d s, (put_delegation d s.1, s.2)) stakerID assetID true
                 (slash_undelegation stakerID assetID))
       else mret pendingSlashAmount);
    if 0 <? pendingSlashAmount then
      totalDelegatedAmount ← TotalDelegatedAmountForStakingAsset stakerID assetID;
      if negb (totalDelegatedAmount =? 0) then
        _ ← with_var pendingSlashAmount
              (IterateDelegationsForStakerAndAsset (λ s, w_delegation s.1)
                 (slash_delegation stakerID assetID
                    (slash_proportion pendingSlashAmount totalDelegatedAmount))
                 stakerID assetID);
        mret tt
      else mret tt
    else mret tt
  else mret tt.
End Keeper.
