(* ===== verification/DelegationRuns.v ===== *)
(** * What the operations of x/delegation do

    A relation for each operation that writes, and the lemma that a call that
    returns without error is in it: which entries of the stores it writes, with
    which amounts, under which conditions. *)

From S2P Require Import Prelude Errors Sdk RefSdk KVStore Ledger Epochs Shares DelegationTypes.
From S2P Require Import Assets DelegationStore UndelegationStore DelegationInv Delegation.
From S2P Require Import DelegationEndBlock.

(** ** Changes of a delegation *)

(** [v] is [pre] changed by [δ]. *)
Record changed (pre : DelegationAmounts) (δ : DeltaDelegationAmounts) (v : DelegationAmounts)
    : Prop := {
  ch_share : da_UndelegatableShare v =
    da_UndelegatableShare pre + default 0 (dda_UndelegatableShare δ);
  ch_pending : da_PendingUndelegationAmount v =
    da_PendingUndelegationAmount pre + default 0 (dda_PendingUndelegationAmount δ);
  ch_reward_share : da_RewardUndelegatableShare v =
    da_RewardUndelegatableShare pre + default 0 (dda_RewardUndelegatableShare δ);
  ch_reward_pending : da_RewardPendingUndelegationAmount v =
    da_RewardPendingUndelegationAmount pre + default 0 (dda_RewardPendingUndelegationAmount δ);
  ch_nonneg : delegation_nonneg pre → delegation_nonneg v;
}.

Section Store.
Context {sdk : Sdk}.
Implicit Types (d : DelegationState).

Lemma UpdateDelegationState_Ok s x o δ d r d' :
  UpdateDelegationState s x o δ d = (Ok r, d') →
  let k := GetJoinedStoreKey [s; x; o] in
  r.2 = default delegation_zero (delegations d !! k) ∧
  ∃ v, d' = set_delegations (insert k v) d ∧ changed r.2 δ v ∧ r.1 = (shares v =? 0).
Proof.
  unfold UpdateDelegationState. destruct (AccAddressFromBech32 o); [|by intros ?%fail_Ok].
  intros Hrun. go_inv. split; [done|]. eexists. split; [reflexivity|]. cbn. split; [|done].
  repeat match goal with
  | H : UpdateAssetValue _ _ = Ok _ |- _ => apply UpdateAssetValue_Ok in H as [? ?]
  | H : UpdateAssetDecValue _ _ = Ok _ |- _ => apply UpdateAssetDecValue_Ok in H as [? ?]
  end.
  split; cbn; try done. intros (? & ? & ? & ?). repeat split; cbn; lia.
Qed.

Lemma DeleteStakerForOperator_Ok o x s d u d' :
  DeleteStakerForOperator o x s d = (Ok u, d') →
  d' = set_stakersByOperator (delete (GetJoinedStoreKey [o; x; s])) d.
Proof. unfold DeleteStakerForOperator. intros Hrun. by go_inv. Qed.

Lemma GetSingleDelegationInfo_Ok s x o d v d' :
  GetSingleDelegationInfo s x o d = (Ok v, d') →
  d' = d ∧ delegations d !! GetJoinedStoreKey [s; x; o] = Some v.
Proof.
  unfold GetSingleDelegationInfo. intros Hrun. go_inv.
  destruct (delegations _ !! _); by go_inv.
Qed.

Lemma GetOperatorSpecifiedAssetInfo_Ok op x (a : AssetsState) p a' :
  GetOperatorSpecifiedAssetInfo op x a = (Ok p, a') →
  a' = a ∧ operatorAssets a !! GetJoinedStoreKey [AccAddress_String op; x] = Some p.
Proof.
  unfold GetOperatorSpecifiedAssetInfo. intros Hrun. go_inv.
  destruct (operatorAssets _ !! _); by go_inv.
Qed.

Lemma SetAssociatedOperator_Ok s o d u d' :
  SetAssociatedOperator s o d = (Ok u, d') → ∃ f, d' = set_associatedOperators f d.
Proof.
  unfold SetAssociatedOperator. destruct (AccAddressFromBech32 o); intros Hrun; go_inv; eauto.
Qed.
End Store.

(** ** Changes of a staker and of a pool *)

(** The staker's entry becomes [i], the changes of its fields are given. *)
Record staker_moved (m m' : gmap string StakerAssetInfo) (s x : string)
    (δdeposit δwithdrawable δpending : Z) (i : StakerAssetInfo) : Prop := {
  sm_write : m' = <[GetJoinedStoreKey [s; x] := i]> m;
  sm_deposit : sa_TotalDepositAmount i = sa_TotalDepositAmount
    (default staker_zero (m !! GetJoinedStoreKey [s; x])) + δdeposit;
  sm_withdrawable : sa_WithdrawableAmount i = sa_WithdrawableAmount
    (default staker_zero (m !! GetJoinedStoreKey [s; x])) + δwithdrawable;
  sm_pending : sa_PendingUndelegationAmount i = sa_PendingUndelegationAmount
    (default staker_zero (m !! GetJoinedStoreKey [s; x])) + δpending;
  sm_nonneg : map_Forall (λ _ i, staker_nonneg i) m → staker_nonneg i;
}.

Lemma UpdateStakerAssetState_moved `{Sdk} s x δ a i a' :
  UpdateStakerAssetState s x δ a = (Ok i, a') →
  staker_moved (stakerAssets a) (stakerAssets a') s x (default 0 (dsa_TotalDepositAmount δ))
    (default 0 (dsa_WithdrawableAmount δ)) (default 0 (dsa_PendingUndelegationAmount δ)) i ∧
  a' = set_stakerAssets (insert (GetJoinedStoreKey [s; x]) i) a.
Proof.
  intros Hrun. pose proof Hrun as (-> & [? _]%UpdateAssetValue_Ok & [? _]%UpdateAssetValue_Ok &
    [? _]%UpdateAssetValue_Ok)%UpdateStakerAssetState_Ok.
  split; [|done]. split; try done. intros Ha. by eapply UpdateStakerAssetState_nonneg.
Qed.

Record pool_moved (p0 p : OperatorAssetInfo) (δamount δpending δshare : Z) : Prop := {
  pm_amount : oa_TotalAmount p = oa_TotalAmount p0 + δamount;
  pm_pending : oa_PendingUndelegationAmount p = oa_PendingUndelegationAmount p0 + δpending;
  pm_share : oa_TotalShare p = oa_TotalShare p0 + δshare;
  pm_nonneg : operator_nonneg p0 → operator_nonneg p;
}.

Lemma UpdateOperatorAssetState_moved `{Sdk} op x δ a old a' :
  UpdateOperatorAssetState op x δ a = (Ok old, a') →
  let pk := GetJoinedStoreKey [AccAddress_String op; x] in
  old = default operator_zero (operatorAssets a !! pk) ∧
  ∃ p, a' = set_operatorAssets (insert pk p) a ∧
    pool_moved old p (default 0 (doa_TotalAmount δ)) (default 0 (doa_PendingUndelegationAmount δ))
      (default 0 (doa_TotalShare δ)).
Proof.
  intros (-> & p & -> & [? ?]%UpdateAssetValue_Ok & [? ?]%UpdateAssetValue_Ok &
    [? ?]%UpdateAssetDecValue_Ok & [? ?]%UpdateAssetDecValue_Ok)%UpdateOperatorAssetState_Ok.
  split; [done|]. exists p. split; [done|]. split; try done.
  intros (? & ? & ? & ?). repeat split; lia.
Qed.

(** ** Removing a share *)

(** The tokens that leave the pool with [share]. *)
Definition removed_tokens `{Sdk} (share : LegacyDec) (pool : OperatorAssetInfo) : result error Int :=
  if oa_TotalShare pool =? share then Ok (oa_TotalAmount pool)
  else TokensFromShares share (oa_TotalShare pool) (oa_TotalAmount pool).

Lemma removed_tokens_bounds `{SdkLaws} share pool t :
  0 < share → operator_nonneg pool → removed_tokens share pool = Ok t →
  0 ≤ t ≤ oa_TotalAmount pool.
Proof.
  intros Hs (Ht & _) Hr. unfold removed_tokens in Hr. case_match; [by simplify_eq|].
  apply TokensFromShares_bounds in Hr; lia.
Qed.

(** ** Calls on the [World] *)

Section Calls.
Context {sdk : Sdk} {B X : Type}.
Implicit Types (w : World B X).

Lemma on_assets_pool op x w p w' :
  on_assets (GetOperatorSpecifiedAssetInfo op x) w = (Ok p, w') →
  w' = w ∧ operatorAssets (w_assets w) !! GetJoinedStoreKey [AccAddress_String op; x] = Some p.
Proof.
  unfold on_assets. intros (a & [-> Hp]%GetOperatorSpecifiedAssetInfo_Ok & ->)%zoom_Ok.
  split; [by destruct w|done].
Qed.

Lemma on_delegation_single s x o w v w' :
  on_delegation (GetSingleDelegationInfo s x o) w = (Ok v, w') →
  w' = w ∧ delegations (w_delegation w) !! GetJoinedStoreKey [s; x; o] = Some v.
Proof.
  unfold on_delegation. intros (d & [-> Hv]%GetSingleDelegationInfo_Ok & ->)%zoom_Ok.
  split; [by destruct w|done].
Qed.

Lemma on_assets_update_pool op x δ w old w' :
  on_assets (UpdateOperatorAssetState op x δ) w = (Ok old, w') →
  let pk := GetJoinedStoreKey [AccAddress_String op; x] in
  old = default operator_zero (operatorAssets (w_assets w) !! pk) ∧
  ∃ p, w' = put_assets (set_operatorAssets (insert pk p) (w_assets w)) w ∧
    pool_moved old p (default 0 (doa_TotalAmount δ)) (default 0 (doa_PendingUndelegationAmount δ))
      (default 0 (doa_TotalShare δ)).
Proof.
  unfold on_assets. intros (a & (-> & p & -> & Hp)%UpdateOperatorAssetState_moved & ->)%zoom_Ok.
  split; [done|]. by exists p.
Qed.

Lemma on_assets_update_staker s x δ w i w' :
  on_assets (UpdateStakerAssetState s x δ) w = (Ok i, w') →
  w' = put_assets (set_stakerAssets (insert (GetJoinedStoreKey [s; x]) i) (w_assets w)) w ∧
  staker_moved (stakerAssets (w_assets w)) (stakerAssets (w_assets w')) s x (default 0 (dsa_TotalDepositAmount δ))
    (default 0 (dsa_WithdrawableAmount δ)) (default 0 (dsa_PendingUndelegationAmount δ)) i.
Proof.
  unfold on_assets. intros (a & [Hi ->]%UpdateStakerAssetState_moved & ->)%zoom_Ok. done.
Qed.

Lemma on_delegation_update s x o δ w r w' :
  on_delegation (UpdateDelegationState s x o δ) w = (Ok r, w') →
  let k := GetJoinedStoreKey [s; x; o] in
  r.2 = default delegation_zero (delegations (w_delegation w) !! k) ∧
  ∃ v, w' = put_delegation (set_delegations (insert k v) (w_delegation w)) w ∧
    changed r.2 δ v ∧ r.1 = (shares v =? 0).
Proof.
  unfold on_delegation. intros (d & (Hr & v & -> & Hv)%UpdateDelegationState_Ok & ->)%zoom_Ok.
  split; [done|]. by exists v.
Qed.
End Calls.

(** Invert the calls of a run. *)
Ltac call_inv := repeat
  match goal with
  | H : on_assets (GetOperatorSpecifiedAssetInfo _ _) _ = (Ok _, _) |- _ =>
      let E := fresh "Hpool" in apply on_assets_pool in H as [-> E]
  | H : on_delegation (GetSingleDelegationInfo _ _ _) _ = (Ok _, _) |- _ =>
      let E := fresh "Hdel" in apply on_delegation_single in H as [-> E]
  | H : on_assets (UpdateOperatorAssetState _ _ _) _ = (Ok _, _) |- _ =>
      let p := fresh "p" in let E := fresh "Hmoved" in
      apply on_assets_update_pool in H as (-> & p & -> & E); cbn in E
  | H : on_assets (UpdateStakerAssetState _ _ _) _ = (Ok _, _) |- _ =>
      let E := fresh "Hstaker" in apply on_assets_update_staker in H as [-> E]; cbn in E
  | H : on_delegation (UpdateDelegationState _ _ _ _) _ = (Ok ?r, _) |- _ =>
      let v := fresh "v" in let E := fresh "Hchanged" in let E1 := fresh "Hpre" in
      let E2 := fresh "Hzero" in
      apply on_delegation_update in H as (E1 & v & -> & E & E2)
  end.

(** Removing a share leaves a pool that is well-formed. *)
Lemma removed_pool_ok `{SdkLaws} share p0 p t δ :
  pool_ok p0 → removed_tokens share p0 = Ok t → pool_moved p0 p (- t) δ (- share) → pool_ok p.
Proof.
  intros [Hnn Hz] Ht [Ha _ Hs Hp]. split; [by apply Hp|]. intros H0. rewrite Ha.
  unfold removed_tokens in Ht. rewrite (proj2 (Z.eqb_eq _ _)) in Ht by lia. simplify_eq. lia.
Qed.

Section Remove.
Context {sdk : Sdk} {B X : Type} {bk : BankKeeper B error} {kp : Keepers X}.
Implicit Types (w : World B X).

Definition world_inv w : Prop := core_inv (w_assets w) (w_delegation w).

(** The change of the delegation. *)
Definition share_delta (isU rew : bool) (share : LegacyDec) (t : Int) : DeltaDelegationAmounts :=
  {| dda_UndelegatableShare := if rew then None else Some (- share);
     dda_PendingUndelegationAmount := if rew then None else if isU then Some t else None;
     dda_RewardUndelegatableShare := if rew then Some (- share) else None;
     dda_RewardPendingUndelegationAmount := if rew then Some t else None |}.

Record share_removed (isU rew : bool) (s x o : string) (share : LegacyDec) (t : Int)
    w w' (p0 p : OperatorAssetInfo) (v : DelegationAmounts) : Prop := {
  sr_bank : w_bank w' = w_bank w;
  sr_ext : w_ext w' = w_ext w;
  sr_pool : operatorAssets (w_assets w) !! GetJoinedStoreKey [o; x] = Some p0;
  sr_share : 0 < share ≤ oa_TotalShare p0;
  sr_tokens : removed_tokens share p0 = Ok t;
  sr_pools : operatorAssets (w_assets w') =
    <[GetJoinedStoreKey [o; x] := p]> (operatorAssets (w_assets w));
  sr_moved : pool_moved p0 p (- t) (if isU then t else 0) (- share);
  sr_delegations : delegations (w_delegation w') =
    <[GetJoinedStoreKey [s; x; o] := v]> (delegations (w_delegation w));
  sr_changed : changed
    (default delegation_zero (delegations (w_delegation w) !! GetJoinedStoreKey [s; x; o]))
    (share_delta isU rew share t) v;
  sr_listed : stakersByOperator (w_delegation w') =
    (if shares v =? 0 then delete (GetJoinedStoreKey [o; x; s]) else λ m, m)
      (stakersByOperator (w_delegation w));
  sr_records : ∃ f g, w_delegation w' =
    set_stakersByOperator f (set_delegations g (w_delegation w));
  sr_stakers :
    if isU && negb rew && negb (bool_decide (x = ImuachainAssetID)) then
      ∃ i, staker_moved (stakerAssets (w_assets w)) (stakerAssets (w_assets w')) s x 0 0 t i
    else stakerAssets (w_assets w') = stakerAssets (w_assets w);
  sr_staking : stakingAssets (w_assets w') = stakingAssets (w_assets w);
}.

Lemma RemoveShareFromOperator_Ok isU op s x share w t w' :
  RemoveShareFromOperator isU op s x share w = (Ok t, w') →
  let pk := GetJoinedStoreKey [AccAddress_String op; x] in
  ∃ p0 p, operatorAssets (w_assets w) !! pk = Some p0 ∧ 0 < share ≤ oa_TotalShare p0 ∧
    removed_tokens share p0 = Ok t ∧ pool_moved p0 p (- t) (if isU then t else 0) (- share) ∧
    w' = put_assets (set_operatorAssets (insert pk p) (w_assets w)) w.
Proof.
  unfold RemoveShareFromOperator. intros Hrun. go_inv. call_inv.
  match goal with H : (if oa_TotalShare ?p0 =? _ then mret _ else _) ?s0 = (Ok ?t, ?s') |- _ =>
    assert (removed_tokens share p0 = Ok t ∧ s' = s0) as [Ht ->]
      by (unfold removed_tokens; destruct (oa_TotalShare p0 =? share); by go_inv)
  end.
  rewrite Hpool in Hmoved. cbn in Hmoved. eexists _, p. split_and!; try done; [lia..|].
  by destruct isU.
Qed.

Lemma removal_delta_Ok isU rew s x share t w δ w' :
  removal_delta isU rew s x share t w = (Ok δ, w') →
  δ = share_delta isU rew share t ∧
  (∃ a, w' = put_assets a w ∧ operatorAssets a = operatorAssets (w_assets w) ∧
        stakingAssets a = stakingAssets (w_assets w)) ∧
  if isU && negb rew && negb (bool_decide (x = ImuachainAssetID))
  then ∃ i, staker_moved (stakerAssets (w_assets w)) (stakerAssets (w_assets w')) s x 0 0 t i
  else stakerAssets (w_assets w') = stakerAssets (w_assets w).
Proof.
  unfold removal_delta, share_delta. intros Hrun.
  assert (Hid : ∃ a, w = put_assets a w ∧ operatorAssets a = operatorAssets (w_assets w) ∧
    stakingAssets a = stakingAssets (w_assets w)) by (exists (w_assets w); by destruct w).
  destruct rew; cbn [negb] in *; [go_inv; by destruct isU|].
  destruct isU, (bool_decide (x = ImuachainAssetID)); cbn [negb andb] in *; go_inv; try done.
  call_inv. split; [done|]. split; [by eexists|]. by eexists.
Qed.

Lemma unlist_Ok (z : bool) o x s w u w' :
  (if z then on_delegation (DeleteStakerForOperator o x s) else mret tt) w = (Ok u, w') →
  w' = put_delegation (set_stakersByOperator
         (if z then delete (GetJoinedStoreKey [o; x; s]) else λ m, m) (w_delegation w)) w.
Proof.
  destruct z.
  - unfold on_delegation. by intros (d & ->%DeleteStakerForOperator_Ok & ->)%zoom_Ok.
  - intros [_ ->]%ret_Ok. by destruct w' as [? [] ??].
Qed.

Lemma RemoveShare_Ok isU rew op s x share w t w' :
  RemoveShare isU rew op s x share w = (Ok t, w') →
  ∃ p0 p v, share_removed isU rew s x (AccAddress_String op) share t w w' p0 p v.
Proof.
  unfold RemoveShare. intros Hrun. go_inv.
  match goal with H : RemoveShareFromOperator _ _ _ _ _ _ = _ |- _ =>
    apply RemoveShareFromOperator_Ok in H as (p0 & p & Hpool & Hshare & Ht & Hmoved & ->) end.
  match goal with H : removal_delta _ _ _ _ _ _ _ = _ |- _ =>
    apply removal_delta_Ok in H as (-> & (a & -> & Ha & Ha') & Hst) end.
  call_inv. match goal with H : (if _ then _ else _) _ = _ |- _ => apply unlist_Ok in H as -> end.
  exists p0, p. eexists. rewrite Hzero, Hpre in *. cbn in *. split; cbn; try done.
  - by eexists _, _.
Qed.
End Remove.

(** ** Delegating *)

(** The share given for an amount: at the rate of the pool, or one to one for
    an empty one. *)
Definition share_for `{Sdk} (pool : option OperatorAssetInfo) (amount : Int)
    : result error LegacyDec :=
  match pool with
  | Some p => if oa_TotalShare p =? 0 then Ok (dec_of_int amount)
              else SharesFromTokens (oa_TotalShare p) amount (oa_TotalAmount p)
  | None => Ok (dec_of_int amount)
  end.

Lemma share_for_nonneg `{SdkLaws} pool amount share :
  from_option operator_nonneg True pool → 0 < amount → share_for pool amount = Ok share →
  0 ≤ share.
Proof.
  intros Hp Ha. assert (0 ≤ dec_of_int amount) by (unfold dec_of_int, dec_one; lia).
  destruct pool as [p|]; cbn; [|by intros [= <-]]. case_match; [by intros [= <-]|].
  destruct Hp as (? & ? & ? & ?). apply SharesFromTokens_nonneg; lia.
Qed.

Lemma delegated_pool_ok `{SdkLaws} p0 p amount share :
  from_option pool_ok True p0 → 0 < amount → share_for p0 amount = Ok share →
  pool_moved (default operator_zero p0) p amount 0 share → pool_ok p.
Proof.
  intros Hp0 Ha Hs Hm. assert (Hnn : operator_nonneg (default operator_zero p0)).
  { destruct p0; [apply Hp0|done]. }
  assert (0 ≤ share).
  { eapply share_for_nonneg; [|done..]. destruct p0; [apply Hp0|done]. }
  assert (0 < dec_of_int amount) by (unfold dec_of_int, dec_one; lia).
  destruct Hm as [_ _ Hsh Hp]. split; [by apply Hp|]. intros Hz. destruct Hnn as (_ & _ & ? & _).
  destruct p0 as [p0|]; cbn in *; [|simplify_eq; lia].
  rewrite (proj2 (Z.eqb_eq _ _)) in Hs by lia. simplify_eq. lia.
Qed.

Section Delegate.
Context {sdk : Sdk} {B X : Type} {bk : BankKeeper B error} {kp : Keepers X}.
Implicit Types (w : World B X) (q : DelegationOrUndelegationParams X).

Lemma CalculateShare_eq op x amount w :
  CalculateShare op x amount w =
    (share_for (operatorAssets (w_assets w) !! GetJoinedStoreKey [AccAddress_String op; x]) amount,
     w).
Proof.
  unfold CalculateShare, share_for, IsOperatorAssetExist, on_assets, zoom,
    GetOperatorSpecifiedAssetInfo, mbind, M_bind, gets.
  cbn. destruct (operatorAssets (w_assets w) !! _) as [p|] eqn:Hp; [|done]. cbn.
  rewrite Hp. destruct w; cbn. by destruct (oa_TotalShare p =? 0).
Qed.

Lemma staker_asset_info_Ok s x w i w' :
  x ≠ ImuachainAssetID → staker_asset_info s x w = (Ok i, w') →
  w' = w ∧ stakerAssets (w_assets w) !! GetJoinedStoreKey [s; x] = Some i.
Proof.
  intros Hx. unfold staker_asset_info, GetStakerSpecifiedAssetInfo, on_assets.
  rewrite decide_False by done. intros Hrun. go_inv.
  destruct (stakerAssets (w_assets w) !! _) eqn:Hi; go_inv. split; [by destruct w|done].
Qed.

(** Where the tokens of a delegation come from. *)
Record taken q (s x : string) w w' : Prop := {
  tk_ext : w_ext w' = w_ext w;
  tk_pools : operatorAssets (w_assets w') = operatorAssets (w_assets w);
  tk_staking : stakingAssets (w_assets w') = stakingAssets (w_assets w);
  tk_delegation : ∃ f, w_delegation w' = set_associatedOperators f (w_delegation w);
  tk_source :
    if RewardAsset q then
      stakerAssets (w_assets w') = stakerAssets (w_assets w) ∧ w_bank w' = w_bank w
    else if bool_decide (x = ImuachainAssetID) then
      stakerAssets (w_assets w') = stakerAssets (w_assets w) ∧
      bank_DelegateCoinsFromAccountToModule (StakerAddress q) DelegatedPoolName
        ImuachainAssetDenom (OpAmount q) (w_bank w) = (Ok tt, w_bank w')
    else
      w_bank w' = w_bank w ∧
      ∃ i0 i, stakerAssets (w_assets w) !! GetJoinedStoreKey [s; x] = Some i0 ∧
        OpAmount q ≤ sa_WithdrawableAmount i0 ∧
        staker_moved (stakerAssets (w_assets w)) (stakerAssets (w_assets w')) s x
          0 (- OpAmount q) 0 i;
}.

Lemma set_assoc_id (d : DelegationState) : d = set_associatedOperators (λ m, m) d.
Proof. by destruct d. Qed.

Lemma take_from_staker_Ok q s x w u w' :
  take_from_staker q s x w = (Ok u, w') → taken q s x w w'.
Proof.
  unfold take_from_staker. intros Hrun.
  destruct (RewardAsset q) eqn:Hrew.
  { go_inv. split; try done; [|by rewrite Hrew]. exists (λ m, m). apply set_assoc_id. }
  destruct (bool_decide (x = ImuachainAssetID)) eqn:Hx; cbn [negb] in Hrun; go_inv.
  - unfold on_bank in *. go_inv. repeat match goal with u : unit |- _ => destruct u end.
    destruct (bool_decide (StakerAddress q = OperatorAddress q)).
    + unfold on_delegation in *. go_inv.
      match goal with H : SetAssociatedOperator _ _ _ = _ |- _ =>
        apply SetAssociatedOperator_Ok in H as [f ->] end.
      split; try done; [by exists f|]. by rewrite Hrew, Hx.
    + go_inv. split; try done; [|by rewrite Hrew, Hx]. exists (λ m, m). apply set_assoc_id.
  - apply bool_decide_eq_false in Hx.
    match goal with H : staker_asset_info _ _ _ = _ |- _ =>
      apply staker_asset_info_Ok in H as [-> Hi]; [|done] end.
    call_inv. split; try done; [exists (λ m, m); apply set_assoc_id|].
    rewrite Hrew, bool_decide_false by done. split; [done|].
    eexists _, _. split; [exact Hi|]. split; [lia|exact Hstaker].
Qed.

Record delegated q (notGenesis : bool) (s x : string) (share : LegacyDec) w w'
    (p : OperatorAssetInfo) (v : DelegationAmounts) : Prop := {
  dl_ids : request_ids q = (s, x);
  dl_positive : 0 < OpAmount q;
  dl_operator : IsOperator (w_ext w) (OperatorAddress q) = true;
  dl_taken : ∃ w1, taken q s x w w1 ∧ w_bank w' = w_bank w1 ∧
    stakerAssets (w_assets w') = stakerAssets (w_assets w1);
  dl_share : share_for (operatorAssets (w_assets w) !!
    GetJoinedStoreKey [AccAddress_String (OperatorAddress q); x]) (OpAmount q) = Ok share;
  dl_pools : operatorAssets (w_assets w') =
    <[GetJoinedStoreKey [AccAddress_String (OperatorAddress q); x] := p]>
      (operatorAssets (w_assets w));
  dl_moved : pool_moved (default operator_zero (operatorAssets (w_assets w) !!
    GetJoinedStoreKey [AccAddress_String (OperatorAddress q); x])) p (OpAmount q) 0 share;
  dl_delegations : delegations (w_delegation w') =
    <[GetJoinedStoreKey [s; x; AccAddress_String (OperatorAddress q)] := v]>
      (delegations (w_delegation w));
  dl_changed : changed (default delegation_zero (delegations (w_delegation w) !!
      GetJoinedStoreKey [s; x; AccAddress_String (OperatorAddress q)]))
    {| dda_UndelegatableShare := if RewardAsset q then None else Some share;
       dda_PendingUndelegationAmount := None;
       dda_RewardUndelegatableShare := if RewardAsset q then Some share else None;
       dda_RewardPendingUndelegationAmount := None |} v;
  dl_listed : stakersByOperator (w_delegation w') =
    <[GetJoinedStoreKey [AccAddress_String (OperatorAddress q); x; s] := tt]>
      (stakersByOperator (w_delegation w));
  dl_records : ∃ f g h, w_delegation w' =
    set_stakersByOperator f (set_delegations g (set_associatedOperators h (w_delegation w)));
  dl_staking : stakingAssets (w_assets w') = stakingAssets (w_assets w);
}.

Lemma hook_Ok (b : bool) (m : M X error unit) w u w' :
  (if b then on_ext m else mret tt) w = (Ok u, w') → ∃ e, w' = put_ext e w.
Proof.
  destruct b; [unfold on_ext; intros (e & _ & ->)%zoom_Ok; eauto|].
  intros [_ ->]%ret_Ok. exists (w_ext w'). by destruct w'.
Qed.

Lemma append_Ok o x s w u w' :
  on_delegation (AppendStakerForOperator o x s) w = (Ok u, w') →
  w' = put_delegation (set_stakersByOperator (insert (GetJoinedStoreKey [o; x; s]) tt)
         (w_delegation w)) w.
Proof. unfold on_delegation. by intros (d & ->%modify_Ok & ->)%zoom_Ok. Qed.

Lemma delegateTo_Ok q notGenesis w r w' :
  delegateTo q notGenesis w = (Ok r, w') →
  ∃ s x p v, delegated q notGenesis s x r.1 w w' p v.
Proof.
  unfold delegateTo. intros Hrun. destruct (request_ids q) as [s x] eqn:Hids. go_inv.
  match goal with H : take_from_staker _ _ _ _ = _ |- _ => apply take_from_staker_Ok in H as Htk end.
  match goal with H : CalculateShare _ _ _ _ = _ |- _ =>
    rewrite CalculateShare_eq in H; injection H as Hsh <- end.
  call_inv.
  match goal with H : on_delegation (AppendStakerForOperator _ _ _) _ = _ |- _ =>
    apply append_Ok in H as -> end.
  match goal with H : (if _ then on_ext _ else _) _ = _ |- _ => apply hook_Ok in H as [e ->] end.
  pose proof Htk as [Hext Hpools Hstk [f Hf] _]. rewrite Hpools in *. rewrite Hpre in *.
  cbn in *. rewrite Hf in *. cbn in *. eexists s, x, p, _.
  split; cbn; rewrite ?Hpools, ?Hf; try done.
  - lia.
  - by apply negb_false_iff.
  - by eexists.
  - by eexists _, _, _.
Qed.
End Delegate.

(** ** Undelegating *)

(** The share an undelegation takes: at the rate of the pool, and the whole
    share of the staker when less than one token would be left. *)
Definition undelegated_share `{Sdk} (rew : bool) (v : DelegationAmounts) (pool : OperatorAssetInfo)
    (amount : Int) : result error LegacyDec :=
  let mine := if rew then da_RewardUndelegatableShare v else da_UndelegatableShare v in
  share ← SharesFromTokens (oa_TotalShare pool) amount (oa_TotalAmount pool);
  if (share =? 0) || (mine <? share) then Err delegationtypes.ErrInsufficientShares
  else
    tolerance ← SharesFromTokens (oa_TotalShare pool) 1 (oa_TotalAmount pool);
    Ok (if mine - share <? tolerance then mine else share).

Lemma undelegated_share_bounds `{SdkLaws} rew v pool amount share :
  operator_nonneg pool → 0 < amount → undelegated_share rew v pool amount = Ok share →
  0 < share ≤ if rew then da_RewardUndelegatableShare v else da_UndelegatableShare v.
Proof.
  intros (? & ? & ? & ?) Ha. unfold undelegated_share. set (mine := if rew then _ else _).
  destruct (SharesFromTokens _ amount _) as [sh| |] eqn:Hsh; [|done..]. cbn.
  apply SharesFromTokens_nonneg in Hsh; [|lia..].
  destruct (Z.eqb_spec sh 0), (Z.ltb_spec mine sh); try done. cbn.
  destruct (SharesFromTokens _ 1 _); [|done..]. cbn. case_match; intros [= <-]; lia.
Qed.

(** The share that is taken differs from the exact one by less than the share
    of one token. *)
Lemma undelegated_share_rate `{SdkLaws} rew v pool amount share :
  operator_nonneg pool → 0 < amount → undelegated_share rew v pool amount = Ok share →
  0 < oa_TotalAmount pool ∧
  share * oa_TotalAmount pool ≤ oa_TotalShare pool * (amount + 1) ∧
  oa_TotalShare pool * amount < share * oa_TotalAmount pool + oa_TotalAmount pool.
Proof.
  intros (? & ? & ? & ?) Ha. unfold undelegated_share. set (mine := if rew then _ else _).
  destruct (SharesFromTokens _ amount _) as [sh| |] eqn:Hsh; [|done..]. cbn.
  destruct (Z.eqb_spec sh 0), (Z.ltb_spec mine sh); try done. cbn.
  assert (0 < oa_TotalAmount pool).
  { destruct (decide (oa_TotalAmount pool = 0)) as [E|]; [|lia]. revert Hsh.
    unfold SharesFromTokens. rewrite E. cbn. case_match; [intros [= <-]; lia|done]. }
  apply SharesFromTokens_rate in Hsh; [|lia..].
  destruct (SharesFromTokens _ 1 _) as [tol| |] eqn:Htol; [|done..]. cbn.
  apply SharesFromTokens_rate in Htol; [|lia..].
  destruct (Z.ltb_spec (mine - sh) tol); intros [= <-]; split; nia.
Qed.

Lemma undelegated_tokens `{SdkLaws} rew v pool amount share t :
  operator_nonneg pool → 0 < amount → undelegated_share rew v pool amount = Ok share →
  0 < share ≤ oa_TotalShare pool → removed_tokens share pool = Ok t →
  oa_TotalAmount pool ≤ oa_TotalShare pool → amount - 1 ≤ t ≤ amount + 1.
Proof.
  intros Hp Ha Hsh Hs Ht HTS.
  pose proof (undelegated_share_rate _ _ _ _ _ Hp Ha Hsh) as (HT & Hup & Hlow).
  revert Ht. unfold removed_tokens. destruct (Z.eqb_spec (oa_TotalShare pool) share) as [E|].
  - intros [= <-]. rewrite E in *. nia.
  - intros Ht. split.
    + eapply (TokensFromShares_lower share); [| | | |done]; lia.
    + eapply (TokensFromShares_upper share); [| | | |done]; lia.
Qed.

Section Undelegate.
Context {sdk : Sdk} {B X : Type} {bk : BankKeeper B error} {kp : Keepers X}.
Implicit Types (w : World B X) (q : DelegationOrUndelegationParams X).

Lemma ValidateUndelegationAmount_Ok rew op s x amount w share w' :
  ValidateUndelegationAmount rew op s x amount w = (Ok share, w') →
  w' = w ∧ 0 < amount ∧ ∃ v p,
    delegations (w_delegation w) !! GetJoinedStoreKey [s; x; AccAddress_String op] = Some v ∧
    operatorAssets (w_assets w) !! GetJoinedStoreKey [AccAddress_String op; x] = Some p ∧
    undelegated_share rew v p amount = Ok share.
Proof.
  unfold ValidateUndelegationAmount. intros Hrun. go_inv. call_inv. go_inv.
  split; [done|]. split; [lia|]. do 2 eexists. split; [done|]. split; [done|].
  unfold undelegated_share. 
  repeat match goal with H : SharesFromTokens _ _ _ = Ok _ |- _ => rewrite H; clear H end. cbn.
  repeat match goal with H : _ = false |- _ => rewrite H; clear H end. done.
Qed.

Lemma expiration_Ok q w id n ratio pen w' :
  expiration q w = (Ok (id, n, ratio, pen), w') →
  w' = w ∧
  if InstantUnbonding q then
    ∃ b, GetInstantUnbondingExpiration (w_ext w) (OperatorAddress q) = Ok (b, id, n) ∧
      pen = if (b : bool) then Some (dec_TruncateInt (dec_MulInt (dec_QuoInt (dec_of_int
              (GetInstantUndelegationPenalty (w_delegation w))) 100) (OpAmount q))) else None
  else pen = None ∧ ∃ u, GetUnbondingExpiration (w_ext w) (OperatorAddress q) = Ok (id, n, u).
Proof.
  unfold expiration. destruct (InstantUnbonding q); intros Hrun; go_inv.
  - destruct v as [[b id'] n']. destruct b; go_inv; simplify_eq; eauto.
  - destruct v as [[id' n'] u]. go_inv; simplify_eq; eauto.
Qed.

Lemma reduce_rewards_Ok q ratio p w l w' :
  reduce_rewards q ratio p w = (Ok l, w') →
  ∃ e, w' = put_ext e w ∧ (RewardAsset q = false → e = w_ext w).
Proof.
  unfold reduce_rewards. destruct (RewardAsset q).
  - destruct (ReduceDelegationShare q); [|by intros ?%fail_Ok]. unfold on_ext.
    intros Hrun. go_inv. by eexists.
  - intros [_ <-]%ret_Ok. exists (w_ext w). by destruct w.
Qed.

Lemma SetUndelegationRecords_one es r hc d u d' :
  SetUndelegationRecords es false [{| uhc_Undelegation := r; uhc_HoldCount := hc |}] d
    = (Ok u, d') →
  not_past es r ∧ ∃ k, GetKey r = Ok k ∧ d' = add_record k r d.
Proof.
  unfold SetUndelegationRecords. cbn [for_each uhc_Undelegation uhc_HoldCount]. intros Hrun. go_inv.
  match goal with H : check_completion _ _ _ = _ |- _ => apply check_completion_Ok in H as [-> ?] end.
  eauto.
Qed.

Lemma IncrementLastUndelegationID_Ok d u d' :
  IncrementLastUndelegationID d = (Ok u, d') →
  GetLastUndelegationID d ≠ MaxUint64 ∧
  d' = set_lastUndelegationID (Some (GetLastUndelegationID d + 1)) d.
Proof.
  unfold IncrementLastUndelegationID, SetLastUndelegationID. intros Hrun. go_inv.
  split; [lia|done].
Qed.

(** What a successful undelegation does: a share is removed from the pool and
    the record [r] of the tokens is added, with the next ID. *)
Record undelegated (ctx : Ctx) q (s x : string) (share : LegacyDec) (r : UndelegationRecord)
    (rk : string) w w' (p0 p : OperatorAssetInfo) (v : DelegationAmounts) : Prop := {
  ud_ids : request_ids q = (s, x);
  ud_positive : 0 < OpAmount q;
  ud_operator : IsOperator (w_ext w) (OperatorAddress q) = true;
  ud_share : ∃ v0, delegations (w_delegation w) !!
      GetJoinedStoreKey [s; x; AccAddress_String (OperatorAddress q)] = Some v0 ∧
    undelegated_share (RewardAsset q) v0 p0 (OpAmount q) = Ok share;
  ud_removed : ∃ w1 e, share_removed true (RewardAsset q) s x
      (AccAddress_String (OperatorAddress q)) share (ur_Amount r) w w1 p0 p v ∧
    w' = put_ext e (put_delegation (set_lastUndelegationID
           (Some (GetLastUndelegationID (w_delegation w) + 1))
           (add_record rk r (w_delegation w1))) w1);
  ud_last : GetLastUndelegationID (w_delegation w) ≠ MaxUint64;
  ud_key : GetKey r = Ok rk;
  ud_not_past : RewardAsset q = false → not_past (ext_epochs (w_ext w)) r;
  ud_record : ∃ id n ratio pen rewards, expiration q w = (Ok (id, n, ratio, pen), w) ∧
    r = new_record ctx q s x (GetLastUndelegationID (w_delegation w)) (ur_Amount r) id n pen
          rewards;
}.

Lemma share_removed_last isU rew s x o share t w w' p0 p v :
  share_removed isU rew s x o share t w w' p0 p v →
  GetLastUndelegationID (w_delegation w') = GetLastUndelegationID (w_delegation w).
Proof. intros Hsr. by destruct (sr_records _ _ _ _ _ _ _ _ _ _ _ _ Hsr) as (f & g & ->). Qed.

(** The expiration reads only x/operator and the penalty. *)
Lemma expiration_frame q w w1 r :
  w_ext w1 = w_ext w → delegationParams (w_delegation w1) = delegationParams (w_delegation w) →
  expiration q w1 = (r, w1) → expiration q w = (r, w).
Proof.
  intros Hx Hp. unfold expiration, gets, mbind, M_bind, mret, M_ret.
  destruct (InstantUnbonding q); cbn; rewrite Hx.
  - destruct (GetInstantUnbondingExpiration _ _) as [[[[] ?] ?]| |]; cbn; try congruence.
    unfold GetInstantUndelegationPenalty, GetParams. rewrite Hp. congruence.
  - destruct (GetUnbondingExpiration _ _) as [[[??]?]| |]; cbn; congruence.
Qed.

Lemma UndelegateFrom_Ok ctx q w u w' :
  UndelegateFrom ctx q w = (Ok u, w') →
  ∃ s x share r rk p0 p v, undelegated ctx q s x share r rk w w' p0 p v.
Proof.
  unfold UndelegateFrom. intros Hrun. destruct (request_ids q) as [s x] eqn:Hids. go_inv.
  match goal with H : ValidateUndelegationAmount _ _ _ _ _ _ = _ |- _ =>
    apply ValidateUndelegationAmount_Ok in H as (-> & Hpos & v0 & p0 & Hv0 & Hp0 & Hshare) end.
  call_inv.
  match goal with H : RemoveShare _ _ _ _ _ _ _ = _ |- _ =>
    apply RemoveShare_Ok in H as (p0' & p & vn & Hsr) end.
  match goal with H : expiration _ _ = (Ok ?e, _) |- _ =>
    destruct e as [[[id n] ratio] pen]; pose proof H as [-> _]%expiration_Ok; rename H into Hexp end.
  cbv beta iota in *. go_inv.
  match goal with H : reduce_rewards _ _ _ _ = _ |- _ => apply reduce_rewards_Ok in H as (e1 & -> & He1) end.
  unfold on_delegation, on_ext in *. go_inv.
  match goal with H : SetUndelegationRecords _ _ _ _ = _ |- _ =>
    apply SetUndelegationRecords_one in H as (Hpast & rk & Hrk & ->) end.
  match goal with H : IncrementLastUndelegationID _ = _ |- _ =>
    apply IncrementLastUndelegationID_Ok in H as [Hmax ->] end.
  pose proof (share_removed_last _ _ _ _ _ _ _ _ _ _ _ _ Hsr) as Hlast.
  pose proof (sr_pool _ _ _ _ _ _ _ _ _ _ _ _ Hsr) as Hp0'.
  cbn [w_delegation put_delegation put_ext] in *.
  change (GetLastUndelegationID (add_record rk ?r ?d)) with (GetLastUndelegationID d) in *.
  rewrite Hlast in *. simplify_eq.
  eexists s, x, _, _, rk, _, p, vn. split; [done..| | | |done|done| |].
  - by apply negb_false_iff.
  - by eexists.
  - eexists _, _. split; [exact Hsr|]. done.
  - intros Hrew. rewrite <-(sr_ext _ _ _ _ _ _ _ _ _ _ _ _ Hsr), <-He1 by done. exact Hpast.
  - eexists id, n, ratio, pen, _. split; [|reflexivity].
    apply (expiration_frame q _ _ _ (sr_ext _ _ _ _ _ _ _ _ _ _ _ _ Hsr)) in Hexp; [done|].
    by destruct (sr_records _ _ _ _ _ _ _ _ _ _ _ _ Hsr) as (f & g & ->).
Qed.
End Undelegate.

(** ** Completing an undelegation *)

Section Complete.
Context {sdk : Sdk} {B X : Type} {bk : BankKeeper B error} {kp : Keepers X}.
Implicit Types (w : World B X) (r : UndelegationRecord).

(** Where the tokens of a completed record go. *)
Definition paid r w w' : Prop :=
  if ur_RewardAsset r then
    stakerAssets (w_assets w') = stakerAssets (w_assets w) ∧ w_bank w' = w_bank w
  else if bool_decide (ur_AssetId r = ImuachainAssetID) then
    stakerAssets (w_assets w') = stakerAssets (w_assets w) ∧
    0 ≤ ur_ActualCompletedAmount r ∧
    ∃ p acc, ParseID (ur_StakerId r) = Ok p ∧ hexutil_Decode p.1 = Some acc ∧
      bank_UndelegateCoinsFromModuleToAccount DelegatedPoolName acc ImuachainAssetDenom
        (ur_ActualCompletedAmount r) (w_bank w) = (Ok tt, w_bank w')
  else
    w_bank w' = w_bank w ∧
    ∃ i, staker_moved (stakerAssets (w_assets w)) (stakerAssets (w_assets w'))
      (ur_StakerId r) (ur_AssetId r) 0 (ur_ActualCompletedAmount r) (- ur_Amount r) i.

Record completed r w w' (acc rk : string) (p : OperatorAssetInfo) (v : DelegationAmounts) : Prop := {
  cp_operator : AccAddressFromBech32 (ur_OperatorAddr r) = Some acc;
  cp_key : GetKey r = Ok rk;
  cp_paid : paid r w w';
  cp_pools : operatorAssets (w_assets w') =
    <[GetJoinedStoreKey [AccAddress_String acc; ur_AssetId r] := p]> (operatorAssets (w_assets w));
  cp_moved : pool_moved (default operator_zero (operatorAssets (w_assets w) !!
    GetJoinedStoreKey [AccAddress_String acc; ur_AssetId r])) p 0 (- ur_Amount r) 0;
  cp_delegation : w_delegation w' =
    remove_record rk r (set_delegations (insert (record_delegation r) v) (w_delegation w));
  cp_changed : changed (default delegation_zero
    (delegations (w_delegation w) !! record_delegation r)) (completion_delta r) v;
  cp_staking : stakingAssets (w_assets w') = stakingAssets (w_assets w);
}.

Lemma pay_staker_Ok r w u w' :
  pay_staker r w = (Ok u, w') →
  paid r w w' ∧ w_delegation w' = w_delegation w ∧
  operatorAssets (w_assets w') = operatorAssets (w_assets w) ∧
  stakingAssets (w_assets w') = stakingAssets (w_assets w).
Proof.
  unfold pay_staker, paid. destruct (ur_RewardAsset r).
  { unfold on_ext. intros Hrun. by go_inv. }
  case_bool_decide; intros Hrun; go_inv.
  - destruct (hexutil_Decode _) as [acc|] eqn:Hacc; [|by go_inv].
    destruct (Z.ltb_spec (ur_ActualCompletedAmount r) 0); [by go_inv|].
    unfold on_bank in *. go_inv. destruct u. split; [|done]. split; [done|]. split; [done|].
    eexists _, acc. by split_and!.
  - call_inv. split; [|done]. split; [done|]. by eexists.
Qed.

Lemma complete_record_Ok r w u w' :
  complete_record r w = (Ok u, w') → ∃ acc rk p v, completed r w w' acc rk p v.
Proof.
  unfold complete_record. destruct (AccAddressFromBech32 _) as [acc|] eqn:Hacc; [|done].
  intros Hrun. go_inv. call_inv.
  match goal with H : pay_staker _ _ = _ |- _ =>
    apply pay_staker_Ok in H as (Hpay & Hd & Ho & Hs) end.
  call_inv. unfold on_delegation, DeleteUndelegationRecord in *. go_inv.
  rewrite Ho in *. rewrite Hpre in *. cbn in *.
  eexists acc, _, _, _. split; cbn; try done; [by rewrite Ho|by rewrite Hd].
Qed.
End Complete.
