(* ===== verification/DelegationSafety.v ===== *)
(** * Safety of x/delegation

    The operations keep the accounting invariant, and a reachable state
    satisfies it.  A message that fails is rolled back by the transaction, so
    the transitions of the chain are the calls that return without error, the
    end of a block, and the steps of the other modules on their own state. *)

From S2P Require Import Prelude Errors Sdk RefSdk KVStore Ledger Epochs Shares DelegationTypes.
From S2P Require Import Assets DelegationStore UndelegationStore DelegationInv Delegation.
From S2P Require Import DelegationEndBlock DelegationRuns.

(** What the module relies on of the state of x/operator: registered operators
    have 20-byte addresses, and unbonding ends at an epoch with an identifier
    and a number that fits in an int64.  OperatorUnbonding.v proves it of the
    model of x/operator. *)
Record keepers_ok {X} {kp : Keepers X} (x : X) : Prop := {
  operator_length op : IsOperator x op = true → String.length op = AccAddressLength;
  unbonding_epoch op id n u :
    GetUnbondingExpiration x op = Ok (id, n, u) → epoch_wf id n;
  instant_unbonding_epoch op b id n :
    GetInstantUnbondingExpiration x op = Ok (b, id, n) → epoch_wf id n;
}.

(** The identifiers that x/feedistribution passes for a reward are keys. *)
Definition request_wf {X} (q : DelegationOrUndelegationParams X) : Prop :=
  RewardAsset q = true → key_part (RewardStakerID q) ∧ key_part (RewardAssetID q).

Section Inv.
Context `{SdkLaws} {B X : Type} {bk : BankKeeper B error} {kp : Keepers X}.
Implicit Types (w : World B X) (q : DelegationOrUndelegationParams X).

Lemma request_parts q s x op :
  request_wf q → request_ids q = (s, x) → Forall key_part [s; x; AccAddress_String op].
Proof.
  unfold request_wf, request_ids, GetStakerIDAndAssetID. intros Hq Hids.
  assert (key_part (AccAddress_String op)) by apply bech32_charset.
  destruct (RewardAsset q); simplify_eq; repeat constructor; try done; try apply hex_id_key_part;
    by apply Hq.
Qed.

Lemma records_frame (d : DelegationState) f g h :
  records_inv d →
  records_inv (set_stakersByOperator f (set_delegations g (set_associatedOperators h d))).
Proof. by destruct 1. Qed.

Lemma delegation_nonneg_default (a : AssetsState) (d : DelegationState) k :
  core_inv a d → delegation_nonneg (default delegation_zero (delegations d !! k)).
Proof.
  intros Hi. destruct (delegations d !! k) as [v|] eqn:Hv; [|done].
  apply (ci_delegations _ _ Hi _ _ Hv).
Qed.

Lemma pool_ok_default (a : AssetsState) (d : DelegationState) k :
  core_inv a d → pool_ok (default operator_zero (operatorAssets a !! k)).
Proof.
  intros Hi. destruct (operatorAssets a !! k) as [p|] eqn:Hp; [|done].
  apply (ci_pools _ _ Hi _ _ Hp).
Qed.

(** ** Delegating *)

Lemma taken_inv q s x w w' :
  world_inv w → taken q s x w w' → core_inv (w_assets w') (w_delegation w).
Proof.
  intros Hw [_ Hp _ _ Hsrc].
  destruct (RewardAsset q); [by apply (core_inv_assets (w_assets w)); [apply Hsrc|..]|].
  case_bool_decide; [by apply (core_inv_assets (w_assets w)); [apply Hsrc|..]|].
  destruct Hsrc as (_ & i0 & i & _ & _ & [Hwr _ _ Hpend Hnn]).
  eapply core_inv_assets; [| |apply (core_inv_staker (w_assets w) _
    (GetJoinedStoreKey [s; x]) i)]; [done..|apply Hnn, Hw|lia].
Qed.

Lemma delegated_inv q ng s x share w w' p v :
  world_inv w → request_wf q → delegated q ng s x share w w' p v → world_inv w'.
Proof.
  intros Hw Hq [Hids Hpos _ (w1 & Htk & _ & Hst) Hsh Hpools Hmv Hds Hch Hls (f & g & h & Hrec) _].
  pose proof (request_parts q s x (OperatorAddress q) Hq Hids) as Hparts.
  pose proof (taken_inv _ _ _ _ _ Hw Htk) as Hw1. pose proof (tk_pools _ _ _ _ _ Htk) as Hp1.
  eapply core_inv_assets; [| |eapply (core_inv_shares s x (AccAddress_String (OperatorAddress q))
    Hparts (w_assets w1) (w_delegation w) (w_delegation w') p v)]; cbn; rewrite ?Hp1; try done.
  - eapply delegated_pool_ok; [|exact Hpos|exact Hsh|exact Hmv].
    destruct (operatorAssets (w_assets w) !! _) eqn:Hp; [by apply (ci_pools _ _ Hw _ _ Hp)|done].
  - apply Hch. by apply delegation_nonneg_default with (w_assets w).
  - destruct Hmv as [_ _ -> _], Hch as [Hc _ Hr _ _]. unfold shares. rewrite Hc, Hr.
    destruct (RewardAsset q); cbn; lia.
  - destruct Hmv as [_ -> _ _]. lia.
  - destruct Hch as [_ -> _ _ _]. cbn. lia.
  - destruct Hch as [_ _ _ -> _]. cbn. lia.
  - rewrite Hls. split; [by rewrite lookup_insert_eq|]. intros k' Hk'. by rewrite lookup_insert_ne.
  - by rewrite Hrec.
  - rewrite Hrec. apply records_frame, Hw.
Qed.

(** ** Removing a share *)

Lemma share_removed_shares isU rew s x o share t w w' p0 p v :
  share_removed isU rew s x o share t w w' p0 p v →
  shares v = shares (default delegation_zero
    (delegations (w_delegation w) !! GetJoinedStoreKey [s; x; o])) - share.
Proof.
  intros [???????? [Hc _ Hr _ _] ????]. unfold shares. rewrite Hc, Hr.
  destruct rew; cbn; lia.
Qed.

Lemma share_removed_list isU rew s x o share t w w' p0 p v :
  Forall key_part [s; x; o] → world_inv w → share_removed isU rew s x o share t w w' p0 p v →
  lists_staker s x o (stakersByOperator (w_delegation w)) (stakersByOperator (w_delegation w')) v.
Proof.
  intros Hparts Hw Hsr. pose proof (share_removed_shares _ _ _ _ _ _ _ _ _ _ _ _ Hsr) as Hv.
  pose proof (sr_share _ _ _ _ _ _ _ _ _ _ _ _ Hsr).
  rewrite (sr_listed _ _ _ _ _ _ _ _ _ _ _ _ Hsr).
  destruct (Z.eqb_spec (shares v) 0) as [Hz|Hz]; split; try done; try lia.
  - intros k' Hk'. by rewrite lookup_delete_ne.
  - intros Hpos. apply (core_inv_listed s x o Hparts (w_assets w)); [done|lia].
Qed.

(** A share removed without a record: the slash of a delegation. *)
Lemma slashed_inv s x o share t w w' p0 p v :
  Forall key_part [s; x; o] → world_inv w →
  share_removed false false s x o share t w w' p0 p v → world_inv w'.
Proof.
  intros Hparts Hw Hsr. pose proof (share_removed_list _ _ _ _ _ _ _ _ _ _ _ _ Hparts Hw Hsr).
  pose proof (share_removed_shares _ _ _ _ _ _ _ _ _ _ _ _ Hsr) as Hv.
  destruct Hsr as [_ _ Hp0 _ Htok Hpools Hmv Hds Hch _ (f & g & Hrec) Hst _].
  eapply core_inv_assets; [| |eapply (core_inv_shares s x o Hparts (w_assets w) (w_delegation w)
    (w_delegation w') p v)]; cbn; rewrite ?Hp0; try done.
  - eapply removed_pool_ok; [|exact Htok|exact Hmv]. by apply (ci_pools _ _ Hw _ _ Hp0).
  - apply Hch. by apply delegation_nonneg_default with (w_assets w).
  - destruct Hmv as [_ _ -> _]. cbn. lia.
  - destruct Hmv as [_ -> _ _]. cbn. lia.
  - destruct Hch as [_ -> _ _ _]. cbn. lia.
  - destruct Hch as [_ _ _ -> _]. cbn. lia.
  - by rewrite Hrec.
  - rewrite Hrec, (set_assoc_id (w_delegation w)). apply records_frame, Hw.
Qed.

(** ** Undelegating *)

Lemma record_wf_new ctx q s x w t id n pen l :
  world_inv w → request_wf q → request_ids q = (s, x) →
  String.length (OperatorAddress q) = AccAddressLength → epoch_wf id n →
  record_wf (new_record ctx q s x (GetLastUndelegationID (w_delegation w)) t id n pen l).
Proof.
  intros Hw Hq Hids Hop He.
  pose proof (request_parts q s x EmptyString Hq Hids) as Hparts. decompose_Forall_hyps.
  split; cbn; try done.
  - by exists (OperatorAddress q).
  - apply wrap_uint64_range.
  - pose proof (ri_last _ (ci_records _ _ Hw)). unfold is_u64, MaxUint64 in *. lia.
Qed.

Lemma new_record_wf ctx q s x share r rk w w' p0 p v :
  world_inv w → keepers_ok (w_ext w) → request_wf q → undelegated ctx q s x share r rk w w' p0 p v → record_wf r.
Proof.
  intros Hw Hx Hq [Hids _ Hop _ _ _ _ _ (id & n & ratio & pen & l & Hexp & ->)].
  apply record_wf_new; try done; [by eapply operator_length|].
  apply expiration_Ok in Hexp as [_ Hexp]. destruct (InstantUnbonding q).
  - destruct Hexp as (b & He & _). by eapply instant_unbonding_epoch.
  - destruct Hexp as (_ & u & He). by eapply unbonding_epoch.
Qed.

Lemma undelegated_fresh ctx q s x share r rk w w' p0 p v :
  world_inv w → keepers_ok (w_ext w) → request_wf q → undelegated ctx q s x share r rk w w' p0 p v →
  undelegations (w_delegation w) !! rk = None.
Proof.
  intros Hw Hx Hq Hu. pose proof (new_record_wf _ _ _ _ _ _ _ _ _ _ _ _ Hw Hx Hq Hu) as Hwf.
  destruct (ud_record _ _ _ _ _ _ _ _ _ _ _ _ Hu) as (id & n & ratio & pen & l & _ & Hr).
  eapply record_fresh; [apply Hw|done| |apply Hu]. by rewrite Hr.
Qed.

Lemma undelegated_inv ctx q s x share r rk w w' p0 p v :
  world_inv w → keepers_ok (w_ext w) → request_wf q → undelegated ctx q s x share r rk w w' p0 p v → world_inv w'.
Proof.
  intros Hw Hx Hq Hu. pose proof (new_record_wf _ _ _ _ _ _ _ _ _ _ _ _ Hw Hx Hq Hu) as Hwf.
  pose proof (undelegated_fresh _ _ _ _ _ _ _ _ _ _ _ _ Hw Hx Hq Hu) as Hfresh.
  destruct Hu as [Hids Hpos Hop _ (w1 & e & Hsr & ->) Hlast Hkey _ (id & n & ratio & pen & l & _ & Hr)].
  pose proof (request_parts q s x (OperatorAddress q) Hq Hids) as Hparts.
  pose proof (share_removed_list _ _ _ _ _ _ _ _ _ _ _ _ Hparts Hw Hsr) as Hlist.
  pose proof (share_removed_shares _ _ _ _ _ _ _ _ _ _ _ _ Hsr) as Hv.
  pose proof (share_removed_last _ _ _ _ _ _ _ _ _ _ _ _ Hsr) as Hl.
  assert (Hrew : ur_RewardAsset r = RewardAsset q) by (by rewrite Hr).
  assert (Hid : ur_UndelegationId r = GetLastUndelegationID (w_delegation w)) by (by rewrite Hr).
  destruct Hsr as [_ _ Hp0 Hsh Htok Hpools Hmv Hds Hch _ (f & g & Hrec) Hst _].
  assert (Hrecs : records_inv (w_delegation w1)).
  { rewrite Hrec, (set_assoc_id (w_delegation w)). apply records_frame, Hw. }
  assert (Hmax : GetLastUndelegationID (w_delegation w1) < MaxUint64).
  { pose proof (ri_last _ Hrecs). lia. }
  assert (Hpn : pool_ok p0) by (by apply (ci_pools _ _ Hw (GetJoinedStoreKey
    [AccAddress_String (OperatorAddress q); x]))).
  eapply (core_inv_undelegate s x (AccAddress_String (OperatorAddress q)) Hparts (w_assets w) _
    (w_delegation w) _ p v r rk); cbn; rewrite ?Hp0; try done.
  - by eapply removed_pool_ok.
  - apply Hch. by apply delegation_nonneg_default with (w_assets w).
  - apply (removed_tokens_bounds share p0); [lia|apply Hpn|done].
  - by rewrite Hr.
  - destruct Hmv as [_ _ -> _]. cbn. lia.
  - by destruct Hmv as [_ -> _ _].
  - destruct Hch as [_ -> _ _ _]. unfold staked. rewrite Hrew. by destruct (RewardAsset q).
  - destruct Hch as [_ _ _ -> _]. unfold rewarded. rewrite Hrew. by destruct (RewardAsset q).
  - by rewrite Hrec.
  - unfold moves_staker, deposited, staked, record_staker.
    assert (ur_StakerId r = s ∧ ur_AssetId r = x) as [-> ->] by (by rewrite Hr).
    rewrite Hrew. cbn [andb] in Hst. destruct (negb _ && negb _); [|done].
    destruct Hst as (i & [Hwr _ _ Hpend Hnn]). exists i. split; [done|]. split; [apply Hnn, Hw|done].
  - rewrite <-Hl. apply add_record_inv; [done|done|congruence|done|done].
Qed.

(** ** Completing *)

Lemma record_operator r acc :
  record_wf r → AccAddressFromBech32 (ur_OperatorAddr r) = Some acc →
  ur_OperatorAddr r = AccAddress_String acc.
Proof.
  intros [(acc0 & Hlen & Hop) ?????]. rewrite Hop.
  rewrite bech32_roundtrip by (by apply acc20_valid). by intros [= ->].
Qed.

Lemma record_parts r :
  record_wf r → Forall key_part [ur_StakerId r; ur_AssetId r; ur_OperatorAddr r].
Proof.
  intros [(acc0 & _ & ->) ?????]. repeat constructor; [done..|]. apply bech32_charset.
Qed.

Lemma paid_moves r w w' :
  world_inv w → paid r w w' → moves_staker (w_assets w) (w_assets w') r (- ur_Amount r).
Proof.
  intros Hw. unfold paid, moves_staker, deposited, staked, record_staker.
  destruct (ur_RewardAsset r); cbn; [by intros [? _]|].
  destruct (bool_decide (ur_AssetId r = ImuachainAssetID)); cbn; [by intros [? _]|].
  intros (_ & i & [Hwr _ _ Hpend Hnn]). exists i. split; [done|]. split; [apply Hnn, Hw|done].
Qed.

Lemma completed_inv r w w' acc rk p v :
  world_inv w → undelegations (w_delegation w) !! rk = Some r →
  completed r w w' acc rk p v → world_inv w'.
Proof.
  intros Hw Hr [Hacc Hkey Hpay Hpools Hmv Hd Hch _].
  pose proof (ri_wf _ (ci_records _ _ Hw) _ _ Hr) as Hwf.
  rewrite <-(record_operator r acc) in * by done.
  eapply (core_inv_complete (ur_StakerId r) (ur_AssetId r) (ur_OperatorAddr r) (record_parts r Hwf)
    (w_assets w) _ (w_delegation w) _ p v r rk); try done; try (by rewrite Hd).
  - pose proof (pool_ok_default (w_assets w) (w_delegation w) (record_pool r) Hw) as [Hnn Hz].
    destruct Hmv as [Ha _ Hs Hmv]. split; [by apply Hmv|]. fold (record_pool r) in *. lia.
  - apply Hch. by apply delegation_nonneg_default with (w_assets w).
  - destruct Hmv as [_ _ -> _]. lia.
  - destruct Hch as [-> _ _ _ _]. cbn. fold (record_delegation r). lia.
  - destruct Hch as [_ _ -> _ _]. cbn. fold (record_delegation r). lia.
  - destruct Hmv as [_ -> _ _]. lia.
  - destruct Hch as [_ -> _ _ _]. fold (record_delegation r). unfold completion_delta, staked.
    destruct (ur_RewardAsset r); cbn; lia.
  - destruct Hch as [_ _ _ -> _]. fold (record_delegation r). unfold completion_delta, rewarded.
    destruct (ur_RewardAsset r); cbn; lia.
  - by apply paid_moves.
  - rewrite Hd. apply remove_record_inv; [|done]. destruct (ci_records _ _ Hw). by split.
Qed.

(** ** Completion succeeds

    A record of staked tokens that x/assets keeps can always be completed: the
    pending amounts that it is taken from count it. *)

Definition payable r : Prop := deposited r = true ∧ 0 ≤ ur_ActualCompletedAmount r.

Definition addable (v : Z) (c : option Z) : Prop := 0 ≤ default 0 c ∨ 0 ≤ v + default 0 c.

Lemma UpdateAssetValue_run v c : addable v c → UpdateAssetValue v c = Ok (v + default 0 c).
Proof. intros Hc. by apply UpdateAssetValue_Ok. Qed.

Lemma UpdateAssetDecValue_run v c : addable v c → UpdateAssetDecValue v c = Ok (v + default 0 c).
Proof. apply UpdateAssetValue_run. Qed.

#[local] Ltac updates_run :=
  unfold gets, lift_result;
  repeat (unfold mbind at 1, M_bind at 1; cbv beta iota;
          first [rewrite UpdateAssetValue_run by done | rewrite UpdateAssetDecValue_run by done | idtac]);
  by do 2 eexists.

Lemma UpdateDelegationState_run s x o δ d :
  is_Some (AccAddressFromBech32 o) →
  let pre := default delegation_zero (delegations d !! GetJoinedStoreKey [s; x; o]) in
  addable (da_UndelegatableShare pre) (dda_UndelegatableShare δ) →
  addable (da_PendingUndelegationAmount pre) (dda_PendingUndelegationAmount δ) →
  addable (da_RewardUndelegatableShare pre) (dda_RewardUndelegatableShare δ) →
  addable (da_RewardPendingUndelegationAmount pre) (dda_RewardPendingUndelegationAmount δ) →
  ∃ r d', UpdateDelegationState s x o δ d = (Ok r, d').
Proof.
  intros [acc Hacc] pre H1 H2 H3 H4. unfold UpdateDelegationState. rewrite Hacc.
  updates_run.
Qed.

Lemma UpdateStakerAssetState_run s x δ (a : AssetsState) :
  let pre := default staker_zero (stakerAssets a !! GetJoinedStoreKey [s; x]) in
  addable (sa_TotalDepositAmount pre) (dsa_TotalDepositAmount δ) →
  addable (sa_WithdrawableAmount pre) (dsa_WithdrawableAmount δ) →
  addable (sa_PendingUndelegationAmount pre) (dsa_PendingUndelegationAmount δ) →
  ∃ i a', UpdateStakerAssetState s x δ a = (Ok i, a').
Proof.
  intros pre H1 H2 H3. unfold UpdateStakerAssetState.
  updates_run.
Qed.

Lemma UpdateOperatorAssetState_run op x δ (a : AssetsState) :
  let pre := default operator_zero
    (operatorAssets a !! GetJoinedStoreKey [AccAddress_String op; x]) in
  addable (oa_TotalAmount pre) (doa_TotalAmount δ) →
  addable (oa_PendingUndelegationAmount pre) (doa_PendingUndelegationAmount δ) →
  addable (oa_TotalShare pre) (doa_TotalShare δ) →
  addable (oa_OperatorShare pre) (doa_OperatorShare δ) →
  ∃ i a', UpdateOperatorAssetState op x δ a = (Ok i, a').
Proof.
  intros pre H1 H2 H3 H4. unfold UpdateOperatorAssetState.
  updates_run.
Qed.

(** The three balances that count a record are at least its amount. *)
Lemma pending_covers w rk r :
  world_inv w → undelegations (w_delegation w) !! rk = Some r → deposited r = true →
  ur_Amount r ≤ oa_PendingUndelegationAmount (default operator_zero
    (operatorAssets (w_assets w) !! record_pool r)) ∧
  ur_Amount r ≤ da_PendingUndelegationAmount (default delegation_zero
    (delegations (w_delegation w) !! record_delegation r)) ∧
  ur_Amount r ≤ sa_PendingUndelegationAmount (default staker_zero
    (stakerAssets (w_assets w) !! record_staker r)).
Proof.
  intros Hw Hr Hdep. assert (Hnn := ci_amounts _ _ Hw).
  assert (Hst : staked r = true) by (by apply andb_true_iff in Hdep as [? _]).
  split_and!; erewrite <-from_option_default by reflexivity.
  - eapply (ledger_part_le _ _ _ _ _ rk); [apply (ci_pool_pending _ _ Hw)|done..].
  - eapply (ledger_part_le _ _ _ _ _ rk); [apply (ci_pending _ _ Hw)|done..|].
    unfold when. by rewrite Hst.
  - eapply (ledger_part_le _ _ _ _ _ rk); [apply (ci_staker_pending _ _ Hw)|done..|].
    unfold when. by rewrite Hdep.
Qed.

Lemma complete_record_run w rk r :
  world_inv w → undelegations (w_delegation w) !! rk = Some r → payable r →
  ∃ w', complete_record r w = (Ok tt, w').
Proof.
  intros Hw Hr [Hdep Hact]. pose proof (pending_covers w rk r Hw Hr Hdep) as (Hp & Hd & Hs).
  pose proof (ri_wf _ (ci_records _ _ Hw) _ _ Hr) as Hwf.
  destruct (rw_operator r Hwf) as (acc & Hlen & Hop).
  assert (Hacc : AccAddressFromBech32 (ur_OperatorAddr r) = Some acc)
    by (rewrite Hop; by apply bech32_roundtrip, acc20_valid).
  apply andb_true_iff in Hdep as [Hst%negb_true_iff Hnat%negb_true_iff].
  destruct (delegation_nonneg_default (w_assets w) (w_delegation w) (record_delegation r) Hw)
    as (?&?&?&?).
  unfold complete_record, pay_staker, on_delegation, on_assets, completion_delta.
  rewrite Hacc, Hst, Hnat.
  destruct (UpdateDelegationState_run (ur_StakerId r) (ur_AssetId r) (ur_OperatorAddr r)
    {| dda_UndelegatableShare := None; dda_RewardUndelegatableShare := None;
       dda_PendingUndelegationAmount := Some (- ur_Amount r);
       dda_RewardPendingUndelegationAmount := None |} (w_delegation w))
    as (x1 & d1 & Hr1); [done|unfold addable; cbn; fold (record_delegation r); lia..|].
  erewrite bind_run by (by apply zoom_run).
  destruct (UpdateStakerAssetState_run (ur_StakerId r) (ur_AssetId r)
    {| dsa_TotalDepositAmount := None; dsa_WithdrawableAmount := Some (ur_ActualCompletedAmount r);
       dsa_PendingUndelegationAmount := Some (- ur_Amount r) |} (w_assets w))
    as (i & a1 & Hr2); [unfold addable; cbn; fold (record_staker r); lia..|].
  rewrite bind_assoc. erewrite bind_run by (apply zoom_run; exact Hr2). cbn [mret M_ret].
  pose proof (UpdateStakerAssetState_Ok _ _ _ _ _ _ Hr2) as (-> & _).
  destruct (UpdateOperatorAssetState_run acc (ur_AssetId r)
    {| doa_TotalAmount := None; doa_PendingUndelegationAmount := Some (- ur_Amount r);
       doa_TotalShare := None; doa_OperatorShare := None |}
    (set_stakerAssets (insert (GetJoinedStoreKey [ur_StakerId r; ur_AssetId r]) i) (w_assets w)))
    as (p & a2 & Hr3); [unfold addable; cbn; rewrite <-?Hop; fold (record_pool r); lia..|].
  erewrite (bind_run (mret tt)) by done. erewrite bind_run by (apply zoom_run; exact Hr3).
  unfold DeleteUndelegationRecord. rewrite (ri_key _ (ci_records _ _ Hw) _ _ Hr). by eexists.
Qed.

(** ** The end of a block *)

Definition stored w r : Prop := ∃ k, undelegations (w_delegation w) !! k = Some r.

Lemma completed_stored r w u w' :
  world_inv w → stored w r → complete_record r w = (Ok u, w') →
  ∃ acc rk p v, undelegations (w_delegation w) !! rk = Some r ∧ completed r w w' acc rk p v.
Proof.
  intros Hw [k Hk] (acc & rk & p & v & Hc)%complete_record_Ok. exists acc, rk, p, v.
  pose proof (ri_key _ (ci_records _ _ Hw) _ _ Hk) as Hkey.
  pose proof (cp_key _ _ _ _ _ _ _ Hc). split; [congruence|done].
Qed.

Lemma completed_undelegations r w w' acc rk p v :
  completed r w w' acc rk p v →
  undelegations (w_delegation w') = delete rk (undelegations (w_delegation w)).
Proof. intros [_ _ _ _ _ -> _ _]. done. Qed.

(** Two stored records under different keys are different. *)
Lemma stored_key w k k' r :
  world_inv w → undelegations (w_delegation w) !! k = Some r →
  undelegations (w_delegation w) !! k' = Some r → k = k'.
Proof.
  intros Hw Hk Hk'. pose proof (ri_key _ (ci_records _ _ Hw) _ _ Hk).
  pose proof (ri_key _ (ci_records _ _ Hw) _ _ Hk'). congruence.
Qed.

Definition complete_all (l : list UndelegationRecord) : M (World B X) error unit :=
  for_each l (λ record, log_and_continue (cached (complete_record record))).

(** What every completion of a record of the list preserves. *)
Lemma complete_all_ind (P : World B X → Prop) l w u w' :
  world_inv w → (∀ r, r ∈ l → stored w r) → NoDup l →
  (∀ r w1 w2 acc rk p v, r ∈ l → world_inv w1 → P w1 →
     undelegations (w_delegation w1) !! rk = Some r → completed r w1 w2 acc rk p v → P w2) →
  P w → complete_all l w = (Ok u, w') → world_inv w' ∧ P w'.
Proof.
  revert w. induction l as [|r l IH]; intros w Hw Hl Hnd Hstep HP.
  { cbn. by intros [_ <-]%ret_Ok. }
  apply NoDup_cons in Hnd as [Hr Hnd].
  assert (Hstep' : ∀ r w1 w2 acc rk p v, r ∈ l → world_inv w1 → P w1 →
     undelegations (w_delegation w1) !! rk = Some r → completed r w1 w2 acc rk p v → P w2).
  { intros; eapply Hstep; try done. by apply list_elem_of_further. }
  unfold complete_all. intros (u1 & w1 & H1%continue_Ok & H2)%for_each_cons.
  destruct H1 as [H1|[-> _]].
  - apply completed_stored in H1 as (acc & rk & p & v & Hrk & Hc);
      [|done|apply Hl, list_elem_of_here].
    apply (IH w1); try done; [by eapply completed_inv| |].
    + intros r' Hr'. destruct (Hl r') as [k Hk]; [by apply list_elem_of_further|]. exists k.
      rewrite (completed_undelegations _ _ _ _ _ _ _ Hc), lookup_delete_ne; [done|].
      intros ->. congruence.
    + eapply (Hstep r w); [apply list_elem_of_here|done..].
  - apply (IH w); try done. intros r' Hr'. by apply Hl, list_elem_of_further.
Qed.

Lemma complete_all_inv l w u w' :
  world_inv w → (∀ r, r ∈ l → stored w r) → NoDup l → complete_all l w = (Ok u, w') →
  world_inv w'.
Proof. intros Hw Hl Hnd Hrun. by apply (complete_all_ind (λ _, True) l w u w'). Qed.

Lemma complete_all_keeps l w u w' k r :
  world_inv w → (∀ r, r ∈ l → stored w r) → NoDup l →
  undelegations (w_delegation w) !! k = Some r → r ∉ l → complete_all l w = (Ok u, w') →
  undelegations (w_delegation w') !! k = Some r.
Proof.
  intros Hw Hl Hnd Hk Hr Hrun.
  apply (complete_all_ind (λ w, undelegations (w_delegation w) !! k = Some r) l w u w'); try done.
  intros r' w1 w2 acc rk p v Hr' _ Hk1 Hrk Hc.
  rewrite (completed_undelegations _ _ _ _ _ _ _ Hc), lookup_delete_ne; [done|]. congruence.
Qed.

(** Every error is logged. *)
Lemma complete_all_err l w e w' : complete_all l w ≠ (Err e, w').
Proof.
  revert w. induction l as [|r l IH]; intros w; [done|].
  unfold complete_all. cbn [for_each]. unfold mbind, M_bind, log_and_continue at 1, cached at 1.
  destruct (complete_record r w) as [[[]|e'|] w1]; [apply IH..|done].
Qed.

(** The records selected at the end of a block. *)
Definition selected w : list UndelegationRecord :=
  capped true (p_MaxUndelegationCompletions (GetParams (w_delegation w)))
    (completable (ext_epochs (w_ext w)) (w_delegation w)).

Definition block_ok w : Prop :=
  epochs_ok (ext_epochs (w_ext w)) ∧
  0 ≤ p_MaxUndelegationCompletions (GetParams (w_delegation w)) < 2 ^ 32.

Lemma EndBlock_eq w :
  world_inv w → block_ok w →
  EndBlock w = log_and_continue (complete_all (selected w)) w.
Proof.
  intros Hw [Hes Hlim]. unfold EndBlock, log_and_continue.
  unfold mbind at 1, M_bind at 1, gets. cbv beta iota.
  erewrite bind_run; [|by apply zoom_run, GetCompletableUndelegations_run; [apply Hw|..]].
  unfold complete_all, selected. by destruct w.
Qed.

Lemma selected_completable w r :
  r ∈ selected w → r ∈ completable (ext_epochs (w_ext w)) (w_delegation w).
Proof.
  unfold selected, capped. case_match; [|done]. intros Hr. by eapply elem_of_sublist, sublist_take.
Qed.

Lemma selected_stored w r : world_inv w → block_ok w → r ∈ selected w → stored w r.
Proof.
  intros Hw [Hes _] Hr'%selected_completable.
  apply elem_of_completable in Hr' as (k & Hk & _); [by exists k|apply Hw|done].
Qed.

Lemma NoDup_selected w : world_inv w → block_ok w → NoDup (selected w).
Proof.
  intros Hw [Hes _]. unfold selected, capped. case_match.
  - eapply sublist_NoDup; [|apply sublist_take]. by apply NoDup_completable; [apply Hw|].
  - by apply NoDup_completable; [apply Hw|].
Qed.

Lemma EndBlock_preserves w u w' :
  world_inv w → block_ok w → EndBlock w = (Ok u, w') → world_inv w'.
Proof.
  intros Hw Hok. rewrite EndBlock_eq by done. unfold log_and_continue.
  destruct (complete_all (selected w) w) as [[[]|e|] w1] eqn:Hrun; [|by apply complete_all_err in Hrun|done].
  intros [= _ <-]. eapply complete_all_inv; [done| |by apply NoDup_selected|done].
  intros r Hr. by apply selected_stored.
Qed.

(** What a staker can withdraw of an asset, by the key of the pair. *)
Definition withdrawable w (sk : string) : Int :=
  balance sa_WithdrawableAmount (stakerAssets (w_assets w)) sk.

(** What the records of a list pay to a staker. *)
Fixpoint paid_to (sk : string) (l : list UndelegationRecord) : Int :=
  match l with
  | [] => 0
  | r :: l => (if decide (record_staker r = sk) then ur_ActualCompletedAmount r else 0) + paid_to sk l
  end.

Lemma completed_withdrawable r w w' acc rk p v sk :
  completed r w w' acc rk p v →
  withdrawable w' sk = withdrawable w sk + (if deposited r then paid_to sk [r] else 0).
Proof.
  intros [_ _ Hpay _ _ _ _ _]. unfold paid in Hpay. unfold deposited, staked.
  destruct (ur_RewardAsset r); cbn.
  { destruct Hpay as [Hst _]. unfold withdrawable. rewrite Hst. lia. }
  destruct (bool_decide (ur_AssetId r = ImuachainAssetID)); cbn.
  { destruct Hpay as [Hst _]. unfold withdrawable. rewrite Hst. lia. }
  destruct Hpay as (_ & i & [Hwr _ Hwd _ _]).
  unfold withdrawable. rewrite Hwr, balance_insert. fold (record_staker r) in *.
  destruct (decide (record_staker r = sk)) as [Hsk|]; [|lia]. rewrite Hwd, <-Hsk.
  rewrite (balance_zero _ staker_zero) by done. lia.
Qed.

(** A completion that does not panic, whatever it returns. *)
Definition no_panic {S A} (m : M S error A) : Prop := ∀ s, (m s).1 ≠ Panic.

Lemma no_panic_bind {S A C} (m : M S error A) (k : A → M S error C) :
  no_panic m → (∀ v, no_panic (k v)) → no_panic (m ≫= k).
Proof.
  intros Hm Hk s. unfold mbind, M_bind. specialize (Hm s). destruct (m s) as [[v|e|] s1]; [apply Hk|done..].
Qed.

Lemma no_panic_zoom {S T A} (get : S → T) (put : T → S → S) (m : M T error A) :
  no_panic m → no_panic (zoom get put m).
Proof. intros Hm s. unfold zoom. specialize (Hm (get s)). by destruct (m (get s)). Qed.

Lemma no_panic_value {S} v c : no_panic (lift_result (UpdateAssetValue v c) : M S error Int).
Proof. intros s. unfold lift_result, UpdateAssetValue. cbn. repeat case_match; done. Qed.

#[local] Ltac solve_no_panic :=
  repeat first
    [ apply no_panic_bind; [|intros ?] | apply no_panic_zoom | apply no_panic_value | done
    | match goal with |- no_panic (match ?x with _ => _ end) => destruct x end ].

Lemma complete_record_no_panic w rk r :
  world_inv w → undelegations (w_delegation w) !! rk = Some r →
  (deposited r = false → no_panic (pay_staker r)) → no_panic (complete_record r).
Proof.
  intros Hw Hr Hpay. pose proof (ri_wf _ (ci_records _ _ Hw) _ _ Hr) as Hwf.
  destruct (rw_operator r Hwf) as (acc & Hlen & Hop).
  assert (Hacc : AccAddressFromBech32 (ur_OperatorAddr r) = Some acc)
    by (rewrite Hop; by apply bech32_roundtrip, acc20_valid).
  assert (Hp : no_panic (pay_staker r)).
  { destruct (deposited r) eqn:Hdep; [|by apply Hpay].
    apply andb_true_iff in Hdep as [Hst%negb_true_iff Hnat%negb_true_iff].
    unfold pay_staker, on_assets, UpdateStakerAssetState. rewrite Hst, Hnat. solve_no_panic. }
  unfold complete_record, on_delegation, on_assets, UpdateDelegationState, UpdateOperatorAssetState,
    UpdateAssetDecValue, DeleteUndelegationRecord. rewrite Hacc, (ri_key _ (ci_records _ _ Hw) _ _ Hr).
  solve_no_panic.
Qed.

(** Completing the records of a list one by one: those that can be paid are, another one
    may stay, and none stops the others. *)
Lemma complete_all_run l w :
  world_inv w → (∀ r, r ∈ l → stored w r ∧ (deposited r = false → no_panic (pay_staker r))) → NoDup l →
  ∃ w' paid_out, complete_all l w = (Ok tt, w') ∧ world_inv w' ∧
    paid_out `sublist_of` l ∧ (∀ r, r ∈ l → payable r → r ∈ paid_out) ∧
    undelegations (w_delegation w') =
      filter (λ kr, kr.2 ∉ paid_out) (undelegations (w_delegation w)) ∧
    ∀ sk, withdrawable w' sk = withdrawable w sk + paid_to sk (filter (λ r, deposited r = true) paid_out).
Proof.
  revert w. induction l as [|r l IH]; intros w Hw Hl Hnd.
  { exists w, []. split_and!; [done..|intros r []%elem_of_nil| |intros sk; cbn; lia].
    symmetry. apply map_filter_id. intros ???. apply not_elem_of_nil. }
  apply NoDup_cons in Hnd as [Hr Hnd].
  destruct (Hl r) as [[k Hk] Hpr]; [apply list_elem_of_here|].
  pose proof (complete_record_no_panic w k r Hw Hk Hpr w) as Hnp.
  destruct (complete_record r w) as [[[]|e|] w1] eqn:H1; [| |done].
  - destruct (completed_stored r w tt w1 Hw) as (acc & rk & p & v & Hrk & Hc); [by exists k|done|].
    pose proof (completed_undelegations _ _ _ _ _ _ _ Hc) as Hu.
    destruct (IH w1) as (w' & cs & H2 & Hw' & Hsub & Hall & Hu' & Hwd'); [by eapply completed_inv| |done|].
    { intros r' Hr'. destruct (Hl r') as [[k' Hk'] Hp']; [by apply list_elem_of_further|].
      split; [|done]. exists k'. rewrite Hu, lookup_delete_ne; [done|]. intros ->. congruence. }
    exists w', (r :: cs). split_and!; [|done|by apply sublist_skip| | |].
    + unfold complete_all. cbn [for_each]. erewrite bind_run by (by apply continue_run). done.
    + intros r' [->|Hr']%elem_of_cons Hp'; [left|right; by apply Hall].
    + rewrite Hu', Hu. apply map_eq. intros k'. apply option_eq. intros r'.
      rewrite !map_lookup_filter_Some, lookup_delete_Some, not_elem_of_cons; cbn.
      split; [|naive_solver]. intros [[Hne Hk'] Hin]. split; [done|]. split; [|done].
      intros ->. apply Hne. by apply (stored_key w _ _ r).
    + intros sk. rewrite Hwd', (completed_withdrawable _ _ _ _ _ _ _ sk Hc), filter_cons.
      destruct (deposited r); [rewrite decide_True by done|rewrite decide_False by done]; cbn; lia.
  - destruct (IH w) as (w' & cs & H2 & Hw' & Hsub & Hall & Hrest); [done| |done|].
    { intros r' Hr'. by apply Hl, list_elem_of_further. }
    exists w', cs. split_and!; [|done|by apply sublist_cons| |apply Hrest..].
    + unfold complete_all. cbn [for_each]. erewrite bind_run; [done|]. unfold log_and_continue, cached. by rewrite H1.
    + intros r' [->|Hr']%elem_of_cons Hp'; [|by apply Hall].
      destruct (complete_record_run w k r) as [w2 H2']; [done..|]. congruence.
Qed.

(** ** Native restaking *)

(** An update of a staker that leaves the pending amount. *)
Lemma staker_update_inv s x δ w i w' :
  world_inv w → on_assets (UpdateStakerAssetState s x δ) w = (Ok i, w') →
  default 0 (dsa_PendingUndelegationAmount δ) = 0 → world_inv w'.
Proof.
  intros Hw [-> [_ _ _ Hp Hnn]]%on_assets_update_staker Hδ.
  apply core_inv_staker; [done|apply Hnn, Hw|lia].
Qed.

Lemma slash_undelegation_Ok s x rk r (st : World B X * Int) b r' st' :
  slash_undelegation s x rk r st = (Ok (b, r'), st') →
  same_record r r' ∧ w_delegation st'.1 = w_delegation st.1 ∧
  (world_inv st.1 → world_inv st'.1).
Proof.
  unfold slash_undelegation, on_fst. intros Hrun. go_inv. cbn in *.
  match goal with H : (_, _) = (_, _) |- _ => injection H as <- <- end.
  split; [by repeat split|]. split.
  - by match goal with H : on_assets _ _ = _ |- _ => apply on_assets_update_staker in H as [-> _] end.
  - intros Hw. by eapply staker_update_inv.
Qed.

Lemma slash_undelegations_inv s x (st : World B X * Int) u st' :
  world_inv st.1 →
  IterateUndelegationsByStakerAndAsset (λ s, w_delegation s.1)
    (λ d s, (put_delegation d s.1, s.2)) s x true (slash_undelegation s x) st = (Ok u, st') →
  world_inv st'.1.
Proof.
  intros Hw. unfold IterateUndelegationsByStakerAndAsset. intros Hrun. go_inv.
  match goal with H : for_each_break _ _ _ = _ |- _ => revert H end.
  apply (for_each_break_inv (λ st, world_inv st.1)); [|done].
  intros [sk rk] st1 b st2 _ Hw1 Hrun. go_inv. cbn in *.
  destruct (undelegations _ !! rk) as [r|] eqn:Hr; go_inv.
  match goal with H : slash_undelegation _ _ _ _ _ = (Ok ?p, _) |- _ => destruct p as [b r'];
    apply slash_undelegation_Ok in H as (Hsame & Hd & Hw2) end.
  unfold store_record in *. go_inv. cbn. rewrite <-Hd in Hr.
  eapply core_inv_record; [by apply Hw2|done..].
Qed.

Lemma slash_delegation_inv s x prop keys amounts (st : World B X * Int) b st' :
  key_part s → key_part x → world_inv st.1 →
  slash_delegation s x prop keys amounts st = (Ok b, st') → world_inv st'.1.
Proof.
  intros Hs Hx Hw. unfold slash_delegation, on_fst.
  destruct (AccAddressFromBech32 _) as [acc|]; [|by intros ?%fail_Ok].
  intros Hrun. go_inv. cbn in *. call_inv.
  match goal with H : RemoveShare _ _ _ _ _ _ _ = _ |- _ =>
    apply RemoveShare_Ok in H as (p0 & p & vn & Hsr) end.
  apply slashed_inv in Hsr; [|repeat constructor; try done; apply bech32_charset|done].
  unfold on_ext in *. go_inv. cbn.
  eapply core_inv_staker; [done| |destruct Hstaker; cbn in *; lia].
  apply Hstaker, Hsr.
Qed.

Lemma staker_asset_info_ro s x w i w' : staker_asset_info s x w = (Ok i, w') → w' = w.
Proof.
  unfold staker_asset_info. apply ro_Ok. intros w0. apply ro_zoom; [by intros []|].
  unfold GetStakerSpecifiedAssetInfo. solve_read_only.
Qed.

Lemma TotalDelegated_ro s x w t w' :
  TotalDelegatedAmountForStakingAsset s x w = (Ok t, w') → w' = w.
Proof.
  unfold TotalDelegatedAmountForStakingAsset. intros [u Hu]%with_var_Ok. revert Hu.
  unfold IterateDelegationsForStakerAndAsset, IterateDelegations. intros Hrun. go_inv.
  match goal with H : for_each_break _ _ (?w0, _) = _ |- _ =>
    apply (for_each_break_inv (λ st, st.1 = w0)) in H; [exact H| |done] end.
  intros [dk da] st1 b st2 _ <- Hrun2. go_inv. cbn [fst snd] in *.
  destruct (da_UndelegatableShare da =? 0); go_inv; [done|].
  unfold on_fst, UndelegatableAmount in *. go_inv. cbn in *.
  destruct (AccAddressFromBech32 _); go_inv; call_inv; by go_inv.
Qed.

Lemma UpdateNSTBalance_inv s x amount w u w' :
  key_part s → key_part x → world_inv w → UpdateNSTBalance s x amount w = (Ok u, w') →
  world_inv w'.
Proof.
  intros Hs Hx Hw. unfold UpdateNSTBalance. destruct (0 <? amount).
  { intros (i & w1 & H1 & H2)%bind_Ok.
    apply staker_update_inv in H1; [|done..]. unfold on_assets in H2. go_inv.
    match goal with H : UpdateStakingAssetTotalAmount _ _ _ = _ |- _ =>
      apply UpdateStakingAssetTotalAmount_Ok in H as (sa & tot & _ & _ & ->) end.
    by eapply core_inv_assets; [..|exact H1]. }
  destruct (amount <? 0); [|by intros [_ <-]%ret_Ok].
  intros (i0 & w0 & H0 & (i & w1 & H1 & (rest & w2 & H2 & H3)%bind_Ok)%bind_Ok)%bind_Ok.
  assert (w0 = w) as -> by (eapply staker_asset_info_ro, H0).
  apply staker_update_inv in H1; [|done..].
  assert (Hw2 : world_inv w2).
  { destruct (0 <? _); [|by apply ret_Ok in H2 as [_ <-]].
    apply with_var_Ok in H2 as [u2 H2]. by apply slash_undelegations_inv in H2. }
  destruct (0 <? rest); [|by apply ret_Ok in H3 as [_ <-]].
  apply bind_Ok in H3 as (total & w3 & Ht & H3).
  assert (w3 = w2) as -> by (eapply TotalDelegated_ro, Ht).
  destruct (total =? 0); cbn [negb] in H3; [by apply ret_Ok in H3 as [_ <-]|].
  apply bind_Ok in H3 as (v & w4 & (u4 & H4)%with_var_Ok & [_ <-]%ret_Ok).
  change (world_inv (w4, v).1). revert H4.
  unfold IterateDelegationsForStakerAndAsset, IterateDelegations. intros H4. go_inv.
  match goal with H : for_each_break _ _ _ = _ |- _ => revert H end.
  apply (for_each_break_inv (λ st, world_inv st.1)); [|done].
  intros [dk da] st1 b st2 _ Hst1 Hrun. go_inv. cbn [fst snd] in *.
  match goal with H : slash_delegation _ _ _ _ _ _ = _ |- _ => by apply slash_delegation_inv in H end.
Qed.
End Inv.
