(* ===== verification/DelegationSteps.v ===== *)
(** * Reachable states of the restaking core

    The transitions of x/assets and x/delegation as a step relation, and the
    accounting invariant of the reachable states; then the sum of tokens that the
    steps conserve. *)

From S2P Require Import Prelude Errors Sdk RefSdk KVStore Epochs Shares DelegationTypes.
From S2P Require Import Assets Ledger DelegationStore UndelegationStore DelegationInv.
From S2P Require Import Delegation DelegationEndBlock DelegationRuns DelegationSafety.

Section Steps.
Context `{SdkLaws} {B X : Type} {bk : BankKeeper B error} {kp : Keepers X}.
Implicit Types (w : World B X) (q : DelegationOrUndelegationParams X).

(** ** The remaining operations *)

Lemma deposit_keeps p w r a' :
  world_inv w → PerformDepositOrWithdraw p (w_assets w) = (Ok r, a') →
  world_inv (put_assets a' w).
Proof.
  intros Hw Hrun. unfold PerformDepositOrWithdraw, GetStakerIDAndAssetID in Hrun. go_inv.
  match goal with H : match dwp_Action p with _ => _ end ?s = (Ok _, ?s1) |- _ =>
    assert (s1 = s) as -> by (unfold mret, M_ret, fail in H; case_match; congruence) end.
  match goal with H1 : UpdateStakerAssetState _ _ _ _ = _,
    H2 : UpdateStakingAssetTotalAmount _ _ _ = _ |- _ =>
      apply UpdateStakerAssetState_moved in H1 as [[_ _ _ Hp Hnn] ->];
      apply UpdateStakingAssetTotalAmount_Ok in H2 as (sa & tot & _ & _ & ->) end.
  eapply (core_inv_assets (set_stakerAssets _ _)); [done..|].
  apply core_inv_staker; [done|apply Hnn, Hw|cbn in Hp; lia].
Qed.

Lemma operator_share_inv op x o w old w' :
  world_inv w →
  on_assets (UpdateOperatorAssetState op x {| doa_TotalAmount := None;
    doa_PendingUndelegationAmount := None; doa_TotalShare := None;
    doa_OperatorShare := o |}) w = (Ok old, w') → world_inv w'.
Proof.
  intros Hw (-> & p & -> & [Ha Hp Hs Hnn])%on_assets_update_pool. cbn in *.
  apply core_inv_pool; [done| |lia..].
  pose proof (pool_ok_default (w_assets w) (w_delegation w)
    (GetJoinedStoreKey [AccAddress_String op; x]) Hw) as [? ?]. split; [by apply Hnn|lia].
Qed.

Lemma move_shares_inv op o sign s w u w' :
  world_inv w →
  IterateDelegationsForStaker w_delegation (move_operator_share op o sign) s w = (Ok u, w') →
  world_inv w'.
Proof.
  intros Hw. unfold IterateDelegationsForStaker, IterateDelegations. intros Hrun. go_inv.
  match goal with H : for_each_break _ _ _ = _ |- _ => revert H end.
  apply (for_each_break_inv world_inv); [|done].
  intros [dk dv] w1 b w2 _ Hw1 Hrun. unfold move_operator_share in Hrun. go_inv.
  case_bool_decide; go_inv; [|done]. by eapply operator_share_inv.
Qed.

Lemma AssociateOperatorWithStaker_inv lz op s w u w' :
  world_inv w → AssociateOperatorWithStaker lz op s w = (Ok u, w') → world_inv w'.
Proof.
  intros Hw. unfold AssociateOperatorWithStaker, on_delegation. intros Hrun. go_inv.
  match goal with H : IterateDelegationsForStaker _ _ _ _ = _ |- _ =>
    apply move_shares_inv in H; [|done] end.
  match goal with H : SetAssociatedOperator _ _ _ = _ |- _ =>
    apply SetAssociatedOperator_Ok in H as [f ->] end.
  by apply core_inv_assoc.
Qed.

Lemma DissociateOperatorFromStaker_inv lz s w u w' :
  world_inv w → DissociateOperatorFromStaker lz s w = (Ok u, w') → world_inv w'.
Proof.
  intros Hw. unfold DissociateOperatorFromStaker, on_delegation, DeleteAssociatedOperator.
  intros Hrun. go_inv. destruct (AccAddressFromBech32 _); go_inv.
  match goal with H : IterateDelegationsForStaker _ _ _ _ = _ |- _ =>
    apply move_shares_inv in H; [|done] end.
  by apply core_inv_assoc.
Qed.

(** ** Transitions *)

Inductive step w : World B X → Prop :=
| step_deposit p r a' :
    PerformDepositOrWithdraw p (w_assets w) = (Ok r, a') → step w (put_assets a' w)
| step_delegate q r w' : request_wf q → DelegateTo q w = (Ok r, w') → step w w'
| step_undelegate ctx q u w' :
    keepers_ok (w_ext w) → request_wf q → UndelegateFrom ctx q w = (Ok u, w') → step w w'
| step_associate lz op s u w' : AssociateOperatorWithStaker lz op s w = (Ok u, w') → step w w'
| step_dissociate lz s u w' : DissociateOperatorFromStaker lz s w = (Ok u, w') → step w w'
| step_nst s x amount u w' :
    key_part s → key_part x → UpdateNSTBalance s x amount w = (Ok u, w') → step w w'
| step_hold k u d' :
    IncrementUndelegationHoldCount k (w_delegation w) = (Ok u, d') → step w (put_delegation d' w)
| step_release k u d' :
    DecrementUndelegationHoldCount k (w_delegation w) = (Ok u, d') → step w (put_delegation d' w)
| step_params auth sender p u d' :
    UpdateParams auth sender p (w_delegation w) = (Ok u, d') → step w (put_delegation d' w)
| step_end_block u w' : block_ok w → EndBlock w = (Ok u, w') → step w w'
(** the other modules, and the users of the bank *)
| step_other b x : step w (put_bank b (put_ext x w)).

Lemma step_inv w w' : step w w' → world_inv w → world_inv w'.
Proof.
  intros Hstep Hw. destruct Hstep.
  - by eapply deposit_keeps.
  - apply delegateTo_Ok in H1 as (s & x & p & v & Hd). by eapply delegated_inv.
  - apply UndelegateFrom_Ok in H2 as (s & x & sh & r & rk & p0 & p & v & Hu).
    by eapply undelegated_inv.
  - by eapply AssociateOperatorWithStaker_inv.
  - by eapply DissociateOperatorFromStaker_inv.
  - by eapply UpdateNSTBalance_inv; [| | |exact H2].
  - unfold IncrementUndelegationHoldCount, set_hold in *. go_inv. by apply core_inv_holds.
  - unfold DecrementUndelegationHoldCount, set_hold in *. go_inv. by apply core_inv_holds.
  - unfold UpdateParams, SetParams in *. go_inv. by apply core_inv_params.
  - by eapply EndBlock_preserves.
  - done.
Qed.

Lemma steps_inv w w' : rtc step w w' → world_inv w → world_inv w'.
Proof. induction 1; eauto using step_inv. Qed.

(** No deposit, no pool and no delegation yet. *)
Definition initial w : Prop :=
  stakerAssets (w_assets w) = ∅ ∧ operatorAssets (w_assets w) = ∅ ∧
  ∃ p, w_delegation w = set_delegationParams p empty_delegation.

Lemma initial_inv w : initial w → world_inv w.
Proof.
  intros (Hs & Ho & p & Hd). unfold world_inv. rewrite Hd.
  apply core_inv_params. apply (core_inv_assets empty_assets); [done..|]. apply core_inv_empty.
Qed.
End Steps.

(** ** Conservation of tokens

    The tokens of an asset that the two modules account for: what the stakers
    can withdraw, what the pools hold, and what the open undelegations will pay.
    Delegating and completing leave the sum unchanged, undelegating lowers it by
    the instant penalty only. *)

Definition of_asset (x k : string) : bool := bool_decide (snd_part k = x).

Definition held {B X} (x : string) (w : World B X) : Int :=
  total (λ k _, of_asset x k) sa_WithdrawableAmount (stakerAssets (w_assets w)) +
  total (λ k _, of_asset x k) oa_TotalAmount (operatorAssets (w_assets w)) +
  total (λ _ r, bool_decide (ur_AssetId r = x)) ur_ActualCompletedAmount
    (undelegations (w_delegation w)).

(** One entry of a store is written. *)
Lemma total_write {V} (x : string) (amount : V → Z) (zero : V) m a b v :
  amount zero = 0 → key_part a → key_part b →
  total (λ k _, of_asset x k) amount (<[GetJoinedStoreKey [a; b] := v]> m) =
    total (λ k _, of_asset x k) amount m +
    (if bool_decide (b = x)
     then amount v - amount (default zero (m !! GetJoinedStoreKey [a; b])) else 0).
Proof.
  intros Hz Ha Hb. rewrite total_insert by done. unfold of_asset at 2.
  rewrite snd_part_join by done. by rewrite (from_option_default _ zero).
Qed.

Section Conservation.
Context `{SdkLaws} {B X : Type} {bk : BankKeeper B error} {kp : Keepers X}.
Implicit Types (w : World B X) (q : DelegationOrUndelegationParams X).

Lemma delegated_held q ng s x share w w' p v y :
  request_wf q → RewardAsset q = false → x ≠ ImuachainAssetID →
  delegated q ng s x share w w' p v → held y w' = held y w.
Proof.
  intros Hq Hrew Hnat [Hids _ _ (w1 & Htk & _ & Hst) _ Hpools Hmv _ _ _ (f & g & h & Hrec) _].
  pose proof (request_parts q s x (OperatorAddress q) Hq Hids) as Hparts. decompose_Forall_hyps.
  destruct Htk as [_ _ _ _ Hsrc]. rewrite Hrew, bool_decide_false in Hsrc by done.
  destruct Hsrc as (_ & i0 & i & _ & _ & [Hwr _ Hwd _ _]).
  unfold held. rewrite Hst, Hwr, Hpools, Hrec. cbn.
  rewrite (total_write y _ staker_zero), (total_write y _ operator_zero) by done.
  destruct Hmv as [-> _ _ _]. rewrite Hwd. case_bool_decide; lia.
Qed.

Lemma undelegated_held ctx q s x share r rk w w' p0 p v y :
  world_inv w → keepers_ok (w_ext w) → request_wf q → undelegated ctx q s x share r rk w w' p0 p v →
  held y w' = held y w -
    (if bool_decide (x = y) then ur_Amount r - ur_ActualCompletedAmount r else 0).
Proof.
  intros Hw Hk Hq Hu. pose proof (new_record_wf _ _ _ _ _ _ _ _ _ _ _ _ Hw Hk Hq Hu) as Hwf.
  destruct Hu as [Hids _ _ _ (w1 & e & Hsr & ->) _ Hkey _ (id & n & ratio & pen & l & _ & Hr)].
  pose proof (request_parts q s x (OperatorAddress q) Hq Hids) as Hparts. decompose_Forall_hyps.
  destruct Hsr as [_ _ Hp0 _ _ Hpools Hmv _ _ _ (f & g & Hrec) Hst _].
  assert (Hx : ur_AssetId r = x) by (by rewrite Hr).
  assert (Hfresh : undelegations (w_delegation w) !! rk = None).
  { eapply record_fresh, Hkey; [apply Hw|done|by rewrite Hr]. }
  assert (Hstk : total (λ k _, of_asset y k) sa_WithdrawableAmount (stakerAssets (w_assets w1)) =
    total (λ k _, of_asset y k) sa_WithdrawableAmount (stakerAssets (w_assets w))).
  { destruct (true && _ && _); [|by rewrite Hst]. destruct Hst as (i & [-> _ Hwd _ _]).
    rewrite (total_write y _ staker_zero) by done. rewrite Hwd. case_bool_decide; lia. }
  unfold held. cbn. rewrite Hstk, Hpools, Hrec. cbn.
  rewrite (total_write y _ operator_zero), Hp0 by done.
  rewrite total_insert by congruence. rewrite Hfresh, Hx. cbn.
  destruct Hmv as [-> _ _ _]. destruct (bool_decide (x = y)); lia.
Qed.

Lemma completed_held r w w' acc rk p v y :
  world_inv w → undelegations (w_delegation w) !! rk = Some r →
  completed r w w' acc rk p v →
  y ≠ ImuachainAssetID → (ur_AssetId r = y → ur_RewardAsset r = false) →
  held y w' = held y w.
Proof.
  intros Hw Hr Hc Hnat Hrew. pose proof (ri_wf _ (ci_records _ _ Hw) _ _ Hr) as Hwf.
  pose proof (record_parts r Hwf) as Hparts. decompose_Forall_hyps.
  pose proof (completed_undelegations _ _ _ _ _ _ _ Hc) as Hu.
  destruct Hc as [Hacc _ Hpay Hpools Hmv _ _ _].
  rewrite <-(record_operator r acc) in * by done.
  unfold held. rewrite Hpools, Hu. cbn.
  rewrite (total_write y _ operator_zero), (total_delete _ _ _ _ r) by done.
  destruct Hmv as [-> _ _ _]. unfold paid in Hpay.
  assert (Hstk : total (λ k _, of_asset y k) sa_WithdrawableAmount (stakerAssets (w_assets w')) =
    total (λ k _, of_asset y k) sa_WithdrawableAmount (stakerAssets (w_assets w)) +
    if bool_decide (ur_AssetId r = y) then ur_ActualCompletedAmount r else 0).
  { destruct (decide (ur_AssetId r = y)) as [Hx|Hx].
    - rewrite (bool_decide_true (ur_AssetId r = y)) by done.
      rewrite Hrew, bool_decide_false in Hpay by (done || congruence).
      destruct Hpay as (_ & i & [-> _ Hwd _ _]). rewrite (total_write y _ staker_zero) by done.
      rewrite bool_decide_true, Hwd by done. lia.
    - rewrite (bool_decide_false (ur_AssetId r = y)) by done.
      destruct (ur_RewardAsset r); [destruct Hpay as [-> _]; lia|].
      destruct (bool_decide (ur_AssetId r = ImuachainAssetID)); [destruct Hpay as [-> _]; lia|].
      destruct Hpay as (_ & i & [-> _ _ _ _]). rewrite (total_write y _ staker_zero) by done.
      rewrite bool_decide_false by done. lia. }
  rewrite Hstk. destruct (bool_decide (ur_AssetId r = y)); lia.
Qed.

(** The asset is staked only: no undelegation of rewards in it is open. *)
Definition staked_only w (y : string) : Prop :=
  ∀ k r, undelegations (w_delegation w) !! k = Some r → ur_AssetId r = y → ur_RewardAsset r = false.

Lemma complete_all_held l w u w' y :
  world_inv w → (∀ r, r ∈ l → stored w r) → NoDup l → y ≠ ImuachainAssetID → staked_only w y →
  complete_all l w = (Ok u, w') → held y w' = held y w.
Proof.
  intros Hw Hl Hnd Hnat Hst Hrun.
  apply (complete_all_ind (λ w1, staked_only w1 y ∧ held y w1 = held y w) l w u w'); try done.
  intros r w1 w2 acc rk p v _ Hw1 [Hst1 Hh] Hrk Hc. split.
  - intros k r'. rewrite (completed_undelegations _ _ _ _ _ _ _ Hc). intros [_ Hk]%lookup_delete_Some.
    by apply (Hst1 k).
  - rewrite <-Hh. by eapply completed_held; [| | | |apply (Hst1 rk)].
Qed.
End Conservation.
