(* ===== verification/DelegationLiveness.v ===== *)
(** * Requests succeed

    Sufficient conditions under which delegating and undelegating return
    without error: a staker who has the tokens can delegate them, and a staker
    who has the share can undelegate it. *)

From S2P Require Import Prelude Errors Sdk RefSdk KVStore Ledger Epochs Shares DelegationTypes.
From S2P Require Import Assets DelegationStore UndelegationStore DelegationInv Delegation.
From S2P Require Import DelegationEndBlock DelegationRuns DelegationSafety.

Section Runs.
Context `{SdkLaws} {B X : Type} {bk : BankKeeper B error} {kp : Keepers X}.
Implicit Types (w : World B X) (q : DelegationOrUndelegationParams X).

Lemma on_assets_run {A} (m : M AssetsState error A) w a s :
  m (w_assets w) = (Ok a, s) → on_assets m w = (Ok a, put_assets s w).
Proof. apply zoom_run. Qed.

Lemma on_delegation_run {A} (m : M DelegationState error A) w a d :
  m (w_delegation w) = (Ok a, d) → on_delegation m w = (Ok a, put_delegation d w).
Proof. apply zoom_run. Qed.

Lemma get_pool_run op x w p :
  operatorAssets (w_assets w) !! GetJoinedStoreKey [AccAddress_String op; x] = Some p →
  on_assets (GetOperatorSpecifiedAssetInfo op x) w = (Ok p, w).
Proof.
  intros Hp. rewrite (on_assets_run _ w p (w_assets w)); [by destruct w|].
  unfold GetOperatorSpecifiedAssetInfo, gets, mbind, M_bind. by rewrite Hp.
Qed.

Lemma get_delegation_run s x o w v :
  delegations (w_delegation w) !! GetJoinedStoreKey [s; x; o] = Some v →
  on_delegation (GetSingleDelegationInfo s x o) w = (Ok v, w).
Proof.
  intros Hv. rewrite (on_delegation_run _ w v (w_delegation w)); [by destruct w|].
  unfold GetSingleDelegationInfo, gets, mbind, M_bind. by rewrite Hv.
Qed.

Lemma ValidateUndelegationAmount_run rew op s x amount w v p share :
  0 < amount →
  delegations (w_delegation w) !! GetJoinedStoreKey [s; x; AccAddress_String op] = Some v →
  operatorAssets (w_assets w) !! GetJoinedStoreKey [AccAddress_String op; x] = Some p →
  undelegated_share rew v p amount = Ok share →
  ValidateUndelegationAmount rew op s x amount w = (Ok share, w).
Proof.
  intros Ha Hv Hp. unfold undelegated_share, ValidateUndelegationAmount.
  rewrite (proj2 (Z.leb_gt _ _)) by done. rewrite (bind_run (fail_if false _) _ w tt w) by done.
  rewrite (bind_run _ _ _ _ _ (get_delegation_run _ _ _ _ _ Hv)).
  rewrite (bind_run _ _ _ _ _ (get_pool_run _ _ _ _ Hp)).
  unfold lift_result, fail_if, fail, mbind, M_bind, result_bind.
  destruct (SharesFromTokens _ amount _) as [sh| |]; [|done..].
  destruct (sh =? 0); [done|]. cbn. destruct (_ <? sh); [done|].
  destruct (SharesFromTokens _ 1 _); [|done..]. cbn. by intros [= <-].
Qed.

(** The total of a delegation is at most the pool's. *)
Lemma delegation_le_pool s x o w v p :
  Forall key_part [s; x; o] → world_inv w →
  delegations (w_delegation w) !! GetJoinedStoreKey [s; x; o] = Some v →
  operatorAssets (w_assets w) !! GetJoinedStoreKey [o; x] = Some p →
  shares v ≤ oa_TotalShare p.
Proof.
  intros Hparts Hw Hv Hp.
  pose proof (ledger_part_le _ _ _ _ _ (GetJoinedStoreKey [s; x; o]) v
    (GetJoinedStoreKey [o; x]) (ci_shares _ _ Hw)) as Hle.
  unfold balance in Hle. rewrite Hp in Hle. apply Hle; [|done|by rewrite delegation_pool_join].
  intros k v' Hv'. destruct (ci_delegations _ _ Hw _ _ Hv') as [(?&?&?&?) _]. unfold shares. lia.
Qed.

Lemma removed_tokens_total share p :
  0 < share ≤ oa_TotalShare p → ∃ t, removed_tokens share p = Ok t.
Proof.
  intros Hs. unfold removed_tokens. case_match; [eauto|]. apply TokensFromShares_total; lia.
Qed.

(** Removing the share of a staker that is not the operator's own. *)
Lemma RemoveShareFromOperator_run op s x share w p :
  0 < share ≤ oa_TotalShare p → operator_nonneg p →
  operatorAssets (w_assets w) !! GetJoinedStoreKey [AccAddress_String op; x] = Some p →
  GetAssociatedOperator s (w_delegation w) ≠ AccAddress_String op →
  ∃ t a, removed_tokens share p = Ok t ∧
    RemoveShareFromOperator true op s x share w = (Ok t, put_assets a w) ∧
    stakerAssets a = stakerAssets (w_assets w).
Proof.
  intros Hs Hnn Hp Hassoc. destruct (removed_tokens_total share p Hs) as [t Ht].
  pose proof (removed_tokens_bounds share p t ltac:(lia) Hnn Ht) as Htb.
  destruct Hnn as (? & ? & ? & ?). unfold RemoveShareFromOperator.
  rewrite (proj2 (Z.leb_gt _ _)) by lia. rewrite (bind_run (fail_if false _) _ w tt w) by done.
  rewrite (bind_run _ _ _ _ _ (get_pool_run _ _ _ _ Hp)).
  rewrite (proj2 (Z.ltb_ge _ _)) by lia. rewrite (bind_run (fail_if false _) _ w tt w) by done.
  rewrite (bind_run _ _ w t w) by (unfold removed_tokens in Ht; case_match; [by simplify_eq|by rewrite Ht]).
  unfold gets. unfold mbind at 1, M_bind at 1. cbv beta iota.
  rewrite (bool_decide_false (_ = AccAddress_String op)), andb_false_r by done.
  destruct (UpdateOperatorAssetState_run op x {| doa_TotalAmount := Some (- t);
    doa_PendingUndelegationAmount := Some t; doa_TotalShare := Some (- share);
    doa_OperatorShare := None |} (w_assets w)) as (old & a & Hrun);
    [rewrite Hp; unfold addable; cbn; lia..|].
  exists t, a. split; [done|]. erewrite bind_run by (apply on_assets_run; exact Hrun).
  split; [done|]. by apply UpdateOperatorAssetState_moved in Hrun as (_ & p' & -> & _).
Qed.

Lemma SetUndelegationRecords_one_run es r hc d k :
  not_past es r → GetKey r = Ok k →
  SetUndelegationRecords es false [{| uhc_Undelegation := r; uhc_HoldCount := hc |}] d =
    (Ok tt, add_record k r d).
Proof.
  intros Hpast Hk. unfold SetUndelegationRecords. cbn [for_each uhc_Undelegation uhc_HoldCount].
  assert (Hc : check_completion es r d = (Ok tt, d)) by (by apply check_completion_Ok).
  rewrite bind_assoc, (bind_run _ _ _ _ _ Hc). by rewrite Hk.
Qed.

Lemma IncrementLastUndelegationID_run d :
  GetLastUndelegationID d < MaxUint64 →
  IncrementLastUndelegationID d =
    (Ok tt, set_lastUndelegationID (Some (GetLastUndelegationID d + 1)) d).
Proof.
  intros Hl. unfold IncrementLastUndelegationID, gets, mbind, M_bind.
  by rewrite (proj2 (Z.eqb_neq _ _)) by lia.
Qed.

Lemma removal_delta_run rew s x share t w :
  map_Forall (λ _ i, staker_nonneg i) (stakerAssets (w_assets w)) → 0 ≤ t →
  ∃ a, removal_delta true rew s x share t w = (Ok (share_delta true rew share t), put_assets a w).
Proof.
  intros Hnn Ht. unfold removal_delta, share_delta. destruct rew; cbn [negb andb].
  { exists (w_assets w). by destruct w. }
  destruct (negb (bool_decide (x = ImuachainAssetID))).
  2:{ exists (w_assets w). by destruct w. }
  destruct (UpdateStakerAssetState_run s x {| dsa_TotalDepositAmount := None;
    dsa_WithdrawableAmount := None; dsa_PendingUndelegationAmount := Some t |} (w_assets w))
    as (i & a & Hrun); [unfold addable; cbn; lia..|].
  exists a. rewrite bind_assoc. by erewrite bind_run by (apply on_assets_run; exact Hrun).
Qed.

Lemma RemoveShare_run (rew : bool) op s x share w v p :
  let o := AccAddress_String op in
  Forall key_part [s; x; o] → valid_addr op → world_inv w →
  delegations (w_delegation w) !! GetJoinedStoreKey [s; x; o] = Some v →
  operatorAssets (w_assets w) !! GetJoinedStoreKey [o; x] = Some p →
  0 < share ≤ (if rew then da_RewardUndelegatableShare v else da_UndelegatableShare v) →
  GetAssociatedOperator s (w_delegation w) ≠ o →
  ∃ t w1, RemoveShare true rew op s x share w = (Ok t, w1) ∧ removed_tokens share p = Ok t.
Proof.
  intros o Hparts Hop Hw Hv Hp Hs Hassoc.
  pose proof (delegation_le_pool s x o w v p Hparts Hw Hv Hp) as Hle.
  destruct (ci_delegations _ _ Hw _ _ Hv) as [(?&?&?&?) _].
  pose proof (ci_pools _ _ Hw _ _ Hp) as [Hpn _]. unfold shares in Hle.
  destruct (RemoveShareFromOperator_run op s x share w p) as (t & a & Ht & Hrun & Hst);
    [destruct rew; lia|done..|].
  pose proof (removed_tokens_bounds share p t ltac:(lia) Hpn Ht) as Htb.
  destruct (removal_delta_run rew s x share t (put_assets a w)) as [a' Hrun'];
    [cbn; rewrite Hst; apply Hw|lia|].
  destruct (UpdateDelegationState_run s x o (share_delta true rew share t) (w_delegation w))
    as (z & d & Hrun''); [unfold o; rewrite bech32_roundtrip by done; by eexists|rewrite Hv; unfold addable;
    destruct rew; cbn; lia..|].
  pose proof Hrun'' as (Hz2 & vn & Hd & Hch & Hz)%UpdateDelegationState_Ok.
  unfold RemoveShare. rewrite (proj2 (Z.leb_gt _ _)) by lia.
  rewrite (bind_run (fail_if false _) _ w tt w) by done. rewrite (bind_run _ _ _ _ _ Hrun).
  rewrite (bind_run _ _ _ _ _ Hrun').
  erewrite bind_run by (apply on_delegation_run; exact Hrun'').
  assert (Hdel : ∃ d', (if z.1 then on_delegation (DeleteStakerForOperator o x s) else mret tt)
    (put_delegation d (put_assets a' (put_assets a w))) = (Ok tt, d')).
  { destruct z.1; [|by eexists]. eexists. apply on_delegation_run.
    unfold DeleteStakerForOperator, gets, mbind, M_bind. rewrite Hd. cbn.
    rewrite (core_inv_listed s x o Hparts (w_assets w)); [done|done|].
    rewrite Hv. unfold shares. cbn. destruct rew; lia. }
  destruct Hdel as [d' Hdel]. rewrite (bind_run _ _ _ _ _ Hdel). by exists t, d'.
Qed.

Lemma take_from_staker_run q s x w i :
  RewardAsset q = false → x ≠ ImuachainAssetID → world_inv w →
  IsStakingAsset x (w_assets w) = true →
  stakerAssets (w_assets w) !! GetJoinedStoreKey [s; x] = Some i →
  0 < OpAmount q ≤ sa_WithdrawableAmount i →
  ∃ a, take_from_staker q s x w = (Ok tt, put_assets a w) ∧
    operatorAssets a = operatorAssets (w_assets w).
Proof.
  intros Hrew Hx Hw Hasset Hi Ha. unfold take_from_staker.
  rewrite Hrew, bool_decide_false by done. cbn [negb].
  rewrite (bind_run _ _ w i w).
  2:{ unfold staker_asset_info. rewrite (on_assets_run _ w i (w_assets w)); [by destruct w|].
      unfold GetStakerSpecifiedAssetInfo, gets, mbind, M_bind. rewrite Hasset. cbn.
      rewrite decide_False, Hi by done. done. }
  rewrite (proj2 (Z.ltb_ge _ _)) by lia. rewrite (bind_run (fail_if false _) _ w tt w) by done.
  destruct (ci_stakers _ _ Hw _ _ Hi) as (? & ? & ?).
  destruct (UpdateStakerAssetState_run s x {| dsa_TotalDepositAmount := None;
    dsa_WithdrawableAmount := Some (- OpAmount q); dsa_PendingUndelegationAmount := None |}
    (w_assets w)) as (i' & a & Hrun); [rewrite Hi; unfold addable; cbn; lia..|].
  exists a. erewrite bind_run by (apply on_assets_run; exact Hrun). split; [done|].
  by apply UpdateStakerAssetState_moved in Hrun as [_ ->].
Qed.

(** The worth of a delegation in its pool is always defined. *)
Lemma worth_total s x o w :
  Forall key_part [s; x; o] → world_inv w →
  let v := default delegation_zero (delegations (w_delegation w) !! GetJoinedStoreKey [s; x; o]) in
  let p := default operator_zero (operatorAssets (w_assets w) !! GetJoinedStoreKey [o; x]) in
  ∃ t, TokensFromShares (da_UndelegatableShare v + da_RewardUndelegatableShare v)
         (oa_TotalShare p) (oa_TotalAmount p) = Ok t.
Proof.
  intros Hparts Hw v p.
  assert (Hle : shares v ≤ oa_TotalShare p).
  { unfold v, p. destruct (delegations (w_delegation w) !! _) as [v0|] eqn:Hv; cbn.
    - destruct (operatorAssets (w_assets w) !! _) as [p0|] eqn:Hp; cbn.
      + by apply (delegation_le_pool s x o w).
      + destruct (ci_delegations _ _ Hw _ _ Hv) as [(?&?&?&?) _].
        pose proof (ledger_part_le _ _ _ _ _ (GetJoinedStoreKey [s; x; o]) v0
          (GetJoinedStoreKey [o; x]) (ci_shares _ _ Hw)) as Hle.
        unfold balance in Hle. rewrite Hp in Hle.
        apply Hle; [|done|by rewrite delegation_pool_join]. intros k' v' Hv'.
        destruct (ci_delegations _ _ Hw _ _ Hv') as [(?&?&?&?) _]. unfold shares. lia.
    - apply (pool_ok_default (w_assets w) (w_delegation w) (GetJoinedStoreKey [o; x]) Hw). }
  destruct (pool_ok_default (w_assets w) (w_delegation w) (GetJoinedStoreKey [o; x]) Hw)
    as [Hnn Hz]. fold p in Hnn, Hz. destruct Hnn as (?&?&?&?).
  unfold shares in Hle. destruct (decide (oa_TotalShare p = 0)) as [Hzero|Hzero].
  - unfold TokensFromShares. rewrite (proj2 (Z.ltb_ge _ _)) by lia.
    rewrite (proj2 (Z.eqb_eq (oa_TotalShare p) 0)), Hz by done. eauto.
  - apply TokensFromShares_total; lia.
Qed.
End Runs.

(** ** Properties *)

(** The hooks of the other modules accept what they are given. *)
Class HooksAccept {X} (kp : Keepers X) : Prop := {
  AfterDelegation_Ok s x op t p (e : X) : ∃ e', AfterDelegation s x op t p e = (Ok tt, e');
  AfterUndelegationStarted_Ok s x op k t p (e : X) :
    ∃ e', AfterUndelegationStarted s x op k t p e = (Ok tt, e');
}.

(** A staker can delegate what they can withdraw: when the accounting
    invariant holds, [DelegateTo] to a registered operator that is not frozen
    succeeds for any positive amount up to the withdrawable amount, and gives
    the share at the rate of the pool, provided that the rate is defined. *)
Theorem DelegateTo_succeeds `{SdkLaws} {B X} `{BankKeeper B error} {kp : Keepers X}
    `{!HooksAccept kp}
    (q : DelegationOrUndelegationParams X) (w : World B X) s x i share :
  world_inv w → keepers_ok (w_ext w) → request_ids q = (s, x) → RewardAsset q = false → x ≠ ImuachainAssetID →
  IsStakingAsset x (w_assets w) = true →
  stakerAssets (w_assets w) !! GetJoinedStoreKey [s; x] = Some i →
  0 < OpAmount q ≤ sa_WithdrawableAmount i →
  IsOperator (w_ext w) (OperatorAddress q) = true →
  IsOperatorFrozen (w_ext w) (OperatorAddress q) = false →
  share_for (operatorAssets (w_assets w) !!
    GetJoinedStoreKey [AccAddress_String (OperatorAddress q); x]) (OpAmount q) = Ok share →
  ∃ pre w', DelegateTo q w = (Ok (share, pre), w').
Proof.
  intros Hw Hk Hids Hrew Hnat Hasset Hi Ha Hop Hfr Hshare. set (op := OperatorAddress q) in *.
  assert (Hq : request_wf q) by (intros Hr; congruence).
  pose proof (request_parts q s x op Hq Hids) as Hparts.
  assert (Hvalid : valid_addr op) by (by apply acc20_valid, (operator_length (w_ext w) Hk)).
  assert (Hs : 0 ≤ share).
  { eapply share_for_nonneg; [|apply Ha|exact Hshare].
    destruct (operatorAssets (w_assets w) !! _) eqn:Hp; [by apply (ci_pools _ _ Hw _ _ Hp)|done]. }
  destruct (take_from_staker_run q s x w i) as (a & Htake & Hpools); try done.
  destruct (worth_total s x (AccAddress_String op) w Hparts Hw) as [pre Hpre].
  destruct (delegation_nonneg_default (w_assets w) (w_delegation w)
    (GetJoinedStoreKey [s; x; AccAddress_String op]) Hw) as (?&?&?&?).
  exists pre. unfold DelegateTo, delegateTo. rewrite Hids. cbv beta iota zeta. fold op.
  rewrite (proj2 (Z.leb_gt _ _)) by lia. rewrite (bind_run (fail_if false _) _ w tt w) by done.
  rewrite (bind_run _ _ w true w) by (unfold gets; by rewrite Hop).
  rewrite (bind_run (fail_if (negb true) _) _ w tt w) by done.
  rewrite (bind_run _ _ w false w) by (unfold gets; by rewrite Hfr).
  rewrite (bind_run (fail_if (true && false) _) _ w tt w) by done.
  rewrite (bind_run _ _ _ _ _ Htake).
  rewrite (bind_run _ _ (put_assets a w) share (put_assets a w)).
  2:{ rewrite CalculateShare_eq. cbn. by rewrite Hpools, Hshare. }
  unfold gets. unfold mbind at 1, M_bind at 1. cbv beta iota. rewrite Hrew.
  set (self := bool_decide _).
  destruct (UpdateOperatorAssetState_run op x {| doa_TotalAmount := Some (OpAmount q);
    doa_PendingUndelegationAmount := None; doa_TotalShare := Some share;
    doa_OperatorShare := if self then Some share else None |} a) as (old & a' & Hrun1);
    [unfold addable; cbn; rewrite Hpools;
     destruct (pool_ok_default (w_assets w) (w_delegation w)
       (GetJoinedStoreKey [AccAddress_String op; x]) Hw) as [(?&?&?&?) _];
     try destruct self; cbn; lia..|].
  erewrite bind_run by (apply on_assets_run; exact Hrun1).
  apply UpdateOperatorAssetState_moved in Hrun1 as (-> & _). rewrite Hpools.
  destruct (UpdateDelegationState_run s x (AccAddress_String op)
    {| dda_UndelegatableShare := Some share; dda_PendingUndelegationAmount := None;
       dda_RewardUndelegatableShare := None; dda_RewardPendingUndelegationAmount := None |}
    (w_delegation w)) as (z & d & Hrun2);
    [rewrite bech32_roundtrip by done; by eexists|unfold addable; cbn; lia..|].
  erewrite bind_run by (apply on_delegation_run; exact Hrun2).
  apply UpdateDelegationState_Ok in Hrun2 as (Hz & _).
  erewrite bind_run by (by apply on_delegation_run). rewrite Hz, Hpre.
  erewrite bind_run by done.
  destruct (AfterDelegation_Ok s x op pre (default operator_zero (operatorAssets (w_assets w) !!
    GetJoinedStoreKey [AccAddress_String op; x])) (w_ext w)) as [e' He'].
  eexists. erewrite bind_run; [done|]. unfold on_ext, zoom. cbn. by rewrite He'.
Qed.

(** A staker can always undelegate what they own: when the accounting
    invariant holds and the requested amount is worth a share that the staker
    has in the pool, [UndelegateFrom] returns without error and opens a record
    of exactly the tokens that the share is worth.  (The staker is not the
    operator's own, the completion epoch is not past, and an undelegation ID is
    left.) *)
Theorem UndelegateFrom_succeeds `{SdkLaws} {B X} `{BankKeeper B error} {kp : Keepers X}
    `{!HooksAccept kp}
    ctx (q : DelegationOrUndelegationParams X) (w : World B X) s x v p share id n u :
  world_inv w → keepers_ok (w_ext w) → request_ids q = (s, x) → RewardAsset q = false → InstantUnbonding q = false →
  0 < OpAmount q → IsOperator (w_ext w) (OperatorAddress q) = true →
  let o := AccAddress_String (OperatorAddress q) in
  delegations (w_delegation w) !! GetJoinedStoreKey [s; x; o] = Some v →
  operatorAssets (w_assets w) !! GetJoinedStoreKey [o; x] = Some p →
  undelegated_share false v p (OpAmount q) = Ok share →
  GetAssociatedOperator s (w_delegation w) ≠ o →
  GetUnbondingExpiration (w_ext w) (OperatorAddress q) = Ok (id, n, u) →
  id = NullEpochIdentifier ∨ (∃ e, ext_epochs (w_ext w) !! id = Some e ∧ ei_CurrentEpoch e ≤ n) →
  GetLastUndelegationID (w_delegation w) < MaxUint64 →
  ∃ t w' rk r, UndelegateFrom ctx q w = (Ok tt, w') ∧ removed_tokens share p = Ok t ∧
    undelegations (w_delegation w') !! rk = Some r ∧ ur_Amount r = t ∧
    ur_ActualCompletedAmount r = t ∧ ur_StakerId r = s ∧ ur_AssetId r = x.
Proof.
  intros Hw Hk Hids Hrew Hinst Hpos Hop o Hv Hp Hshare Hassoc Hexp Hep Hlast.
  assert (Hq : request_wf q) by (intros Hr; congruence).
  pose proof (request_parts q s x (OperatorAddress q) Hq Hids) as Hparts.
  pose proof (undelegated_share_bounds false v p _ _ (proj1 (ci_pools _ _ Hw _ _ Hp)) Hpos Hshare) as Hs.
  pose proof (delegation_le_pool s x o w v p Hparts Hw Hv Hp) as Hle.
  assert (Hvalid : valid_addr (OperatorAddress q)) by (by apply acc20_valid, (operator_length (w_ext w) Hk)).
  destruct (RemoveShare_run false (OperatorAddress q) s x share w v p) as (t & w1 & Hrun & Ht);
    try done.
  pose proof Hrun as (p0 & p1 & v1 & Hsr)%RemoveShare_Ok.
  pose proof (share_removed_last _ _ _ _ _ _ _ _ _ _ _ _ Hsr) as Hl1.
  pose proof (sr_ext _ _ _ _ _ _ _ _ _ _ _ _ Hsr) as Hx1.
  destruct (TokensFromShares_total (da_UndelegatableShare v + da_RewardUndelegatableShare v)
    (oa_TotalShare p) (oa_TotalAmount p)) as [pre Hpre]; [|done|].
  { destruct (ci_delegations _ _ Hw _ _ Hv) as [(?&?&?&?) _]. unfold shares in Hle. lia. }
  set (r := new_record ctx q s x (GetLastUndelegationID (w_delegation w)) t id n None
    (RewardUndelegations q)).
  assert (Hwf : record_wf r).
  { apply record_wf_new; try done; [by eapply operator_length|by eapply unbonding_epoch]. }
  destruct (GetKey_total r Hwf) as [rk Hrk].
  destruct (AfterUndelegationStarted_Ok s x (OperatorAddress q) rk pre p (w_ext w)) as [e' He'].
  exists t, (put_ext e' (put_delegation (set_lastUndelegationID
    (Some (GetLastUndelegationID (w_delegation w) + 1)) (add_record rk r (w_delegation w1))) w1)), rk, r.
  split_and!; [|done|cbn; apply lookup_insert_eq|done|cbn; lia|done..].
  - unfold UndelegateFrom. rewrite Hids. cbv beta iota zeta.
    rewrite (proj2 (Z.leb_gt _ _)) by done. rewrite (bind_run (fail_if false _) _ w tt w) by done.
    rewrite (bind_run _ _ w true w) by (unfold gets; by rewrite Hop).
    rewrite (bind_run (fail_if (negb true) _) _ w tt w) by done.
    rewrite Hrew. erewrite bind_run by (by eapply ValidateUndelegationAmount_run).
    rewrite (bind_run _ _ _ _ _ (get_pool_run _ _ _ _ Hp)).
    rewrite (bind_run _ _ _ _ _ (get_delegation_run _ _ _ _ _ Hv)).
    rewrite (bind_run _ _ w pre w) by (unfold lift_result; by rewrite Hpre).
    rewrite (bind_run _ _ _ _ _ Hrun).
    rewrite (bind_run _ _ w1 (GetLastUndelegationID (w_delegation w)) w1)
      by (unfold gets; by rewrite Hl1).
    rewrite (bind_run _ _ w1 (id, n, 0, None) w1).
    2:{ unfold expiration, mbind, M_bind. rewrite Hinst, Hx1, Hexp. done. }
    cbv beta iota.
    rewrite (bind_run _ _ w1 (RewardUndelegations q) w1) by (unfold reduce_rewards; by rewrite Hrew).
    fold r. rewrite (bind_run _ _ w1 (ext_epochs (w_ext w)) w1) by (unfold gets; by rewrite Hx1).
    erewrite bind_run by (by apply on_delegation_run, SetUndelegationRecords_one_run).
    erewrite bind_run by (apply on_delegation_run, IncrementLastUndelegationID_run;
      change (GetLastUndelegationID (w_delegation w1) < MaxUint64); lia).
    rewrite Hrk. erewrite bind_run by done. unfold on_ext, zoom.
    cbn [w_ext w_delegation put_delegation put_ext]. rewrite Hx1, He'.
    change (GetLastUndelegationID (add_record rk r (w_delegation w1)))
      with (GetLastUndelegationID (w_delegation w1)). by rewrite Hl1.
Qed.
