(* ===== verification/DelegationNST.v ===== *)
(** * Slashing of a native restaking balance (keeper/update_native_restaking_balance.go)

    What [UpdateNSTBalance] takes and in which order: first what the staker can
    withdraw, then their open undelegations, and the delegated shares only when
    those are used up. *)

From S2P Require Import Prelude Errors Sdk RefSdk KVStore Ledger Epochs Shares DelegationTypes.
From S2P Require Import Assets DelegationStore UndelegationStore DelegationInv Delegation.
From S2P Require Import DelegationEndBlock DelegationRuns DelegationSafety.
From S2P Require Import DelegationSteps DelegationLiveness.

(** A joined key begins with the prefix of its own staker and asset only. *)
Lemma staker_asset_prefix s x s' x' t :
  key_part s → key_part x → key_part s' → key_part x' →
  has_prefix (IteratorPrefixForStakerAsset s x) (GetJoinedStoreKey [s'; x'; t]) = true ↔
  s' = s ∧ x' = x.
Proof.
  intros Hs Hx Hs' Hx'. rewrite has_prefix_spec.
  assert (E : ∀ s x t, IteratorPrefixForStakerAsset s x +:+ t = s +:+ String "/" (x +:+ String "/" t)).
  { intros. unfold IteratorPrefixForStakerAsset. cbn [join_with].
    by rewrite !app_assoc_str, !app_cons, !app_empty_l. }
  assert (E' : GetJoinedStoreKey [s'; x'; t] = s' +:+ String "/" (x' +:+ String "/" t)).
  { unfold GetJoinedStoreKey. cbn [join_with]. by rewrite !app_cons, !app_empty_l. }
  split; [|intros [-> ->]; exists t; by rewrite E, E'].
  intros [u Heq%(f_equal (split_on "/"%char))]. rewrite E, E' in Heq.
  rewrite !split_on_app in Heq by done. by simplify_eq.
Qed.

Section Slash.
Context `{SdkLaws} {B X : Type} {bk : BankKeeper B error} {kp : Keepers X}.
Implicit Types (w : World B X) (st : World B X * Int).

(** What a run over the undelegations [keys] of the asset [x] does: [st.2] is
    the amount still to be slashed. *)
Record records_slashed (x : string) (keys : list string) st st' : Prop := {
  sl_pools : operatorAssets (w_assets st'.1) = operatorAssets (w_assets st.1);
  sl_delegations : delegations (w_delegation st'.1) = delegations (w_delegation st.1);
  sl_withdrawable sk : withdrawable st'.1 sk = withdrawable st.1 sk;
  sl_held : held x st'.1 = held x st.1 - (st.2 - Z.max 0 st'.2);
  sl_emptied k : 0 < st'.2 → k ∈ keys →
    ∃ r, undelegations (w_delegation st'.1) !! k = Some r ∧ ur_ActualCompletedAmount r = 0;
  sl_others k : k ∉ keys →
    undelegations (w_delegation st'.1) !! k = undelegations (w_delegation st.1) !! k;
}.

(** The body of the loop that slashes the undelegations. *)
Definition slash_visit (s x : string) (kv : string * string) : M (World B X * Int) error bool :=
  infoValue ← gets (λ st, undelegations (w_delegation st.1) !! kv.2);
  match infoValue with
  | None => fail delegationtypes.ErrNoKeyInTheStore
  | Some undelegation =>
      r ← slash_undelegation s x kv.2 undelegation;
      _ ← store_record (λ st, w_delegation st.1) (λ d st, (put_delegation d st.1, st.2)) kv.2 r.2;
      mret r.1
  end.

Lemma staker_deposit_held s x δ w i w' y :
  key_part s → key_part x →
  on_assets (UpdateStakerAssetState s x {| dsa_TotalDepositAmount := δ;
    dsa_WithdrawableAmount := None; dsa_PendingUndelegationAmount := None |}) w = (Ok i, w') →
  w_delegation w' = w_delegation w ∧
  operatorAssets (w_assets w') = operatorAssets (w_assets w) ∧
  (∀ sk, withdrawable w' sk = withdrawable w sk) ∧ held y w' = held y w.
Proof.
  intros Hs Hx [-> [_ _ Hwd _ _]]%on_assets_update_staker. cbn in Hwd. split_and!; [done..| |].
  - intros sk. unfold withdrawable. cbn. rewrite balance_insert.
    destruct (decide (GetJoinedStoreKey [s; x] = sk)) as [<-|]; [|done].
    rewrite Hwd, (balance_zero sa_WithdrawableAmount staker_zero) by done. lia.
  - unfold held. cbn. rewrite (total_write y _ staker_zero) by done. rewrite Hwd.
    case_bool_decide; lia.
Qed.

Lemma slash_undelegation_spec s x k r st b r' st' :
  key_part s → key_part x → slash_undelegation s x k r st = (Ok (b, r'), st') →
  b = (st'.2 <=? 0) ∧ st'.2 = st.2 - ur_ActualCompletedAmount r ∧
  ur_AssetId r' = ur_AssetId r ∧
  ur_ActualCompletedAmount r' = ur_ActualCompletedAmount r -
    (if 0 <? st'.2 then ur_ActualCompletedAmount r else st.2) ∧
  w_delegation st'.1 = w_delegation st.1 ∧
  operatorAssets (w_assets st'.1) = operatorAssets (w_assets st.1) ∧
  (∀ sk, withdrawable st'.1 sk = withdrawable st.1 sk) ∧ ∀ y, held y st'.1 = held y st.1.
Proof.
  intros Hs Hx. unfold slash_undelegation, on_fst. intros Hrun. go_inv. cbn in *.
  match goal with H : (_, _) = (_, _) |- _ => injection H as <- <- end.
  match goal with H : on_assets _ _ = (_, ?w') |- _ =>
    pose proof (λ y, staker_deposit_held _ _ _ _ _ _ y Hs Hx H) as Hframe end.
  destruct (Hframe x) as (? & ? & ? & _). split_and!; try done. intros y. by apply Hframe.
Qed.

(** The record [r] at [k] is replaced by [r']. *)
Lemma write_record_held x k r r' w :
  undelegations (w_delegation w) !! k = Some r → ur_AssetId r = x → ur_AssetId r' = x →
  held x (put_delegation (write_record k r' (w_delegation w)) w) =
    held x w + (ur_ActualCompletedAmount r' - ur_ActualCompletedAmount r).
Proof.
  intros Hr Hx Hx'. unfold held. cbn. rewrite total_insert.
  2:{ intros old. rewrite Hr. intros [= <-]. by rewrite Hx, Hx'. }
  rewrite Hr, bool_decide_true by done. cbn. lia.
Qed.

Lemma slash_visit_Ok s x kv r st b st' :
  key_part s → key_part x → 0 < st.2 →
  undelegations (w_delegation st.1) !! kv.2 = Some r → ur_AssetId r = x →
  slash_visit s x kv st = (Ok b, st') →
  b = (st'.2 <=? 0) ∧ records_slashed x [kv.2] st st'.
Proof.
  intros Hs Hx Hpos Hr Hasset. unfold slash_visit. intros Hrun. go_inv.
  rewrite Hr in *. go_inv.
  match goal with H : slash_undelegation _ _ _ _ _ = (Ok ?v, ?s1) |- _ =>
    destruct v as [b r'], s1 as [w1 p1];
    apply slash_undelegation_spec in H as (-> & Hp1 & Hx' & Hamt & Hd & Hp & Hwd & Hh); [|done..] end.
  cbn in Hp1. subst p1. unfold store_record in *. go_inv. cbn in *. rewrite <-Hd in Hr. split; [done|].
  split; cbn; rewrite ?Hd; try done.
  - rewrite <-(Hh (ur_AssetId r)), <-Hd. fold (write_record kv.2 r' (w_delegation w1)).
    rewrite (write_record_held _ kv.2 r r' w1) by done.
    rewrite Hamt. destruct (Z.ltb_spec 0 (st.2 - ur_ActualCompletedAmount r)); lia.
  - intros k Hlt ->%list_elem_of_singleton. exists r'. rewrite lookup_insert_eq. split; [done|].
    rewrite Hamt, (proj2 (Z.ltb_lt _ _)) by done. lia.
  - intros k Hk. rewrite lookup_insert_ne; [done|]. set_solver.
Qed.

Lemma records_slashed_stop x keys keys' st st' :
  st'.2 ≤ 0 → records_slashed x keys st st' → records_slashed x (keys ++ keys') st st'.
Proof. intros Hle []. split; try done; [lia|]. intros k Hk. apply sl_others0. set_solver. Qed.

Lemma records_slashed_trans x k keys st st1 st2 :
  0 < st1.2 → k ∉ keys → records_slashed x [k] st st1 → records_slashed x keys st1 st2 →
  records_slashed x (k :: keys) st st2.
Proof.
  intros Hpos Hk [P1 D1 W1 H1 E1 O1] [P2 D2 W2 H2 E2 O2]. split; try congruence.
  - lia.
  - intros k' Hpos' [->|Hk']%elem_of_cons; [|by apply E2]. rewrite O2 by done.
    apply E1; [done|]. apply list_elem_of_here.
  - intros k' Hk'. rewrite O2, O1; [done|set_solver..].
Qed.

Lemma slash_loop s x entries st u st' :
  key_part s → key_part x → 0 < st.2 → NoDup entries.*2 →
  (∀ k, k ∈ entries.*2 → ∃ r, undelegations (w_delegation st.1) !! k = Some r ∧ ur_AssetId r = x) →
  for_each_break entries (slash_visit s x) st = (Ok u, st') →
  records_slashed x entries.*2 st st'.
Proof.
  intros Hs Hx. revert st. induction entries as [|kv entries IH]; intros st Hpos Hnd Hall.
  - intros [_ <-]%ret_Ok. split; try done; [lia|]. by intros k _ ?%not_elem_of_nil.
  - cbn [for_each_break]. intros (b & st1 & Hv & Hrun)%bind_Ok.
    apply NoDup_cons in Hnd as [Hk Hnd].
    destruct (Hall kv.2) as (r & Hr & Hrx); [apply list_elem_of_here|].
    apply slash_visit_Ok with (r := r) in Hv as [-> Hv]; try done.
    destruct (Z.leb_spec st1.2 0) as [Hle|Hlt].
    + apply ret_Ok in Hrun as [_ <-]. by apply (records_slashed_stop x [kv.2]).
    + apply records_slashed_trans with st1; try done. apply IH; try done.
      intros k Hk'. rewrite (sl_others _ _ _ _ Hv) by set_solver.
      by apply Hall, list_elem_of_further.
Qed.

(** The index of a staker and an asset lists exactly their records. *)
Lemma staker_entries d s x :
  records_inv d → key_part s → key_part x →
  let l := prefix_iterator (IteratorPrefixForStakerAsset s x) (stakerUndelegations d) in
  NoDup l.*2 ∧
  ∀ k, k ∈ l.*2 ↔ ∃ r, undelegations d !! k = Some r ∧ ur_StakerId r = s ∧ ur_AssetId r = x.
Proof.
  intros Hd Hs Hx l.
  assert (Hin : ∀ sk k, (sk, k) ∈ l ↔ ∃ r, undelegations d !! k = Some r ∧ staker_key r = sk ∧
    ur_StakerId r = s ∧ ur_AssetId r = x).
  { intros sk k. unfold l. rewrite elem_of_prefix_iterator, (ri_staker _ Hd sk k). split.
    - intros [(r & Hr & <-) Hpfx]. exists r. destruct (ri_wf _ Hd _ _ Hr).
      by apply staker_asset_prefix in Hpfx as [-> ->].
    - intros (r & Hr & <- & <- & <-). split; [by eauto|]. by apply staker_asset_prefix. }
  split.
  - apply NoDup_fmap_2_strong; [|eapply NoDup_fmap_1, prefix_iterator_NoDup_keys].
    intros [sk k] [sk' k'] (r & Hr & <- & _)%Hin (r' & Hr' & <- & _)%Hin [= <-].
    cbn in *. congruence.
  - intros k. rewrite list_elem_of_fmap. split.
    + intros ([sk k'] & -> & (r & ?)%Hin). exists r. naive_solver.
    + intros (r & Hr & Hrest). exists (staker_key r, k). split; [done|]. apply Hin. eauto.
Qed.

(** The three stages of a slash. *)
Lemma withdrawable_stage s x c w i w' :
  key_part s → key_part x →
  on_assets (UpdateStakerAssetState s x {| dsa_TotalDepositAmount := Some (- c);
    dsa_WithdrawableAmount := Some (- c); dsa_PendingUndelegationAmount := None |}) w = (Ok i, w') →
  w_delegation w' = w_delegation w ∧
  operatorAssets (w_assets w') = operatorAssets (w_assets w) ∧
  withdrawable w' (GetJoinedStoreKey [s; x]) = withdrawable w (GetJoinedStoreKey [s; x]) - c ∧
  held x w' = held x w - c.
Proof.
  intros Hs Hx [-> [_ _ Hwd _ _]]%on_assets_update_staker. cbn in Hwd. split_and!; [done..| |].
  - unfold withdrawable. cbn. rewrite balance_insert, decide_True by done.
    rewrite Hwd, (balance_zero sa_WithdrawableAmount staker_zero) by done. lia.
  - unfold held. cbn. rewrite (total_write x _ staker_zero) by done. rewrite Hwd.
    rewrite bool_decide_true by done. lia.
Qed.

Lemma records_stage s x w p w' rest :
  world_inv w → key_part s → key_part x → 0 < p →
  with_var p (IterateUndelegationsByStakerAndAsset (λ s, w_delegation s.1)
    (λ d s, (put_delegation d s.1, s.2)) s x true (slash_undelegation s x)) w = (Ok rest, w') →
  operatorAssets (w_assets w') = operatorAssets (w_assets w) ∧
  delegations (w_delegation w') = delegations (w_delegation w) ∧
  (∀ sk, withdrawable w' sk = withdrawable w sk) ∧
  held x w' = held x w - (p - Z.max 0 rest) ∧
  (0 < rest → ∀ k r, undelegations (w_delegation w') !! k = Some r →
     ur_StakerId r = s → ur_AssetId r = x → ur_ActualCompletedAmount r = 0).
Proof.
  intros Hw Hs Hx Hp [u Hrun]%with_var_Ok. unfold IterateUndelegationsByStakerAndAsset in Hrun.
  apply bind_Ok in Hrun as (l & st & [-> ->]%gets_Ok & Hrun). cbn in Hrun.
  destruct (staker_entries (w_delegation w) s x (ci_records _ _ Hw) Hs Hx) as [Hnd Hin].
  set (l := prefix_iterator _ _) in *.
  apply slash_loop in Hrun as [? ? ? ? Hemp Hoth]; try done; cbn in *.
  - split_and!; try done. intros Hpos k r Hr Hrs Hrx.
    destruct (decide (k ∈ l.*2)) as [Hk|Hk].
    + destruct (Hemp k) as (r' & Hr' & Hz); [done..|]. by simplify_eq.
    + exfalso. apply Hk, Hin. exists r. by rewrite <-Hoth.
  - intros k (r & Hr & _ & Hrx)%Hin. eauto.
Qed.

Lemma shares_stage s x prop w p w' rest :
  key_part s → key_part x →
  with_var p (IterateDelegationsForStakerAndAsset (λ s, w_delegation s.1)
    (slash_delegation s x prop) s x) w = (Ok rest, w') →
  undelegations (w_delegation w') = undelegations (w_delegation w) ∧
  ∀ sk, withdrawable w' sk = withdrawable w sk.
Proof.
  intros Hs Hx [u Hrun]%with_var_Ok. revert Hrun.
  unfold IterateDelegationsForStakerAndAsset, IterateDelegations. intros Hrun. go_inv.
  match goal with H : for_each_break _ _ _ = _ |- _ => revert H end.
  apply (for_each_break_inv (λ st, undelegations (w_delegation st.1) = undelegations (w_delegation w) ∧
    ∀ sk, withdrawable st.1 sk = withdrawable w sk) _ _ ); [|done].
  intros [dk da] st1 b st2 _ [Hu1 Hw1] Hrun. go_inv. cbn [fst snd] in *.
  unfold slash_delegation, on_fst in *. destruct (AccAddressFromBech32 _) as [acc|]; [|by go_inv].
  go_inv. cbn in *. unfold on_ext in *. go_inv. cbn in *.
  match goal with H : on_assets (UpdateStakerAssetState _ _ _) _ = _ |- _ =>
    apply (staker_deposit_held _ _ _ _ _ _ x) in H as (Hd & _ & Hwd & _); [|done..] end.
  call_inv. match goal with H : RemoveShare _ _ _ _ _ _ _ = _ |- _ =>
    apply RemoveShare_Ok in H as (p0 & p1 & v9 & Hsr) end.
  destruct (sr_records _ _ _ _ _ _ _ _ _ _ _ _ Hsr) as (f & g & Hrec).
  pose proof (sr_stakers _ _ _ _ _ _ _ _ _ _ _ _ Hsr) as Hst. cbn in Hst.
  split; [by rewrite Hd, Hrec|]. intros sk. rewrite <-Hw1.
  etransitivity; [exact (Hwd sk)|]. unfold withdrawable. by rewrite Hst.
Qed.
End Slash.

(** C22.  A slash of a native restaking balance is taken in the documented
    order.  It lowers what the staker can withdraw, to zero at most, and touches
    nothing of x/delegation while something remains there; the pools and the
    delegated shares are untouched, and exactly the slashed amount is lost,
    unless it uses up every open undelegation of the staker. *)
Theorem UpdateNSTBalance_waterfall `{SdkLaws} {B X} `{BankKeeper B error} {kp : Keepers X}
    s x amount (w : World B X) u w' :
  world_inv w → key_part s → key_part x → x ≠ ImuachainAssetID → amount < 0 →
  UpdateNSTBalance s x amount w = (Ok u, w') →
  let sk := GetJoinedStoreKey [s; x] in
  withdrawable w' sk = Z.max 0 (withdrawable w sk + amount) ∧
  (0 < withdrawable w' sk → w_delegation w' = w_delegation w) ∧
  ((operatorAssets (w_assets w') = operatorAssets (w_assets w) ∧
    delegations (w_delegation w') = delegations (w_delegation w) ∧
    held x w' = held x w + amount) ∨
   (∀ k r, undelegations (w_delegation w') !! k = Some r →
      ur_StakerId r = s → ur_AssetId r = x → ur_ActualCompletedAmount r = 0)).
Proof.
  intros Hw Hs Hx Hnat Hneg Hrun sk. unfold UpdateNSTBalance in Hrun.
  rewrite (proj2 (Z.ltb_ge 0 amount)), (proj2 (Z.ltb_lt amount 0)) in Hrun by lia.
  apply bind_Ok in Hrun as (i & w0 & Hinfo & Hrun). apply staker_asset_info_Ok in Hinfo as [-> Hi]; [|done].
  apply bind_Ok in Hrun as (i1 & w1 & H1 & (rest & w2 & H2 & H3)%bind_Ok).
  pose proof (staker_update_inv _ _ _ _ _ _ Hw H1 eq_refl) as Hw1.
  apply withdrawable_stage in H1 as (Hd1 & Hp1 & Hwd1 & Hh1); [|done..]. fold sk in Hwd1.
  assert (Hwi : withdrawable w sk = sa_WithdrawableAmount i) by (unfold withdrawable, balance, sk; by rewrite Hi).
  destruct (ci_stakers _ _ Hw _ _ Hi) as (_ & Hge & _).
  destruct (Z.ltb_spec 0 (- amount - sa_WithdrawableAmount i)) as [Hlt|Hle].
  2:{ cbn in H2. apply ret_Ok in H2 as [<- <-]. cbn in H3. apply ret_Ok in H3 as [_ <-].
      rewrite Hd1, Hp1. split_and!; [lia|done|]. left. split_and!; [done..|lia]. }
  rewrite (proj2 (Z.ltb_lt _ _)) in H2 by done.
  apply records_stage in H2 as (Hp2 & Hd2 & Hwd2 & Hh2 & Hz2); [|done..].
  destruct (Z.ltb_spec 0 rest) as [Hpos|Hdone].
  2:{ apply ret_Ok in H3 as [_ <-]. rewrite Hwd2. split_and!; [lia|lia|].
      left. split_and!; [congruence..|lia]. }
  specialize (Hz2 Hpos). apply bind_Ok in H3 as (tot & w3 & ->%TotalDelegated_ro & H3).
  destruct (tot =? 0); cbn [negb] in H3.
  { apply ret_Ok in H3 as [_ <-]. rewrite Hwd2. split_and!; [lia|lia|]. by right. }
  apply bind_Ok in H3 as (v & w4 & [Hu Hwd4]%shares_stage & [_ <-]%ret_Ok); [|done..].
  rewrite Hwd4, Hwd2. split_and!; [lia|lia|]. right. by rewrite Hu.
Qed.
