(* ===== verification/DelegationGenesis.v ===== *)
(** * Genesis of the delegation module

    x/delegation/keeper/genesis.go and types/genesis.go: import, export and the
    validation of a genesis file.  Importing an export rebuilds the store; the
    validation of an export that holds an undelegation fails. *)

From S2P Require Import Prelude Errors Sdk RefSdk KVStore Ledger Epochs DelegationTypes Assets.
From S2P Require Import DelegationStore UndelegationStore Delegation.

Record GenesisState := {
  gs_Params : Params;
  (** staker ID, operator *)
  gs_Associations : list (string * string);
  (** joined key, state *)
  gs_DelegationStates : list (string * DelegationAmounts);
  gs_StakersByOperator : list string;
  gs_Undelegations : list UndelegationAndHoldCount;
  gs_LastUndelegationId : Z;
}.

(** ** Validation *)

(** [encoding/hex.DecodeString]; any error is [None] *)
Definition hex_value (c : ascii) : option Z :=
  let n := Z.of_nat (Ascii.nat_of_ascii c) in
  if (48 <=? n) && (n <=? 57) then Some (n - 48)
  else if (97 <=? n) && (n <=? 102) then Some (n - 87)
  else if (65 <=? n) && (n <=? 70) then Some (n - 55)
  else None.

Fixpoint hex_DecodeString (s : string) : option string :=
  match s with
  | EmptyString => Some EmptyString
  | String a (String b s) =>
      match hex_value a, hex_value b, hex_DecodeString s with
      | Some x, Some y, Some t =>
          Some (String (Ascii.ascii_of_nat (Z.to_nat (16 * x + y))) t)
      | _, _, _ => None
      end
  | String _ EmptyString => None
  end.

Section Validate.
Context {sdk : Sdk}.

(** Every error of the function is wrapped by its callers. *)
Definition ValidateIDAndOperator (stakerID assetID operator : string) : result error unit :=
  match AccAddressFromBech32 operator with
  | None => Err ErrLibrary
  | Some _ =>
      match ValidateID stakerID true false with
      | Ok (_, stakerClientChainID) =>
          match ValidateID assetID true false with
          | Ok (_, assetClientChainID) =>
              if stakerClientChainID =? assetClientChainID then Ok tt else Err ErrLibrary
          | _ => Err ErrLibrary
          end
      | _ => Err ErrLibrary
      end
  end.

Fixpoint validate_associations (l : list (string * string)) (associatedStakerIDs : gset string)
    : result error unit :=
  match l with
  | [] => Ok tt
  | (stakerID, operator) :: l =>
      match AccAddressFromBech32 operator with
      | None => Err delegationtypes.ErrInvalidGenesisData
      | Some _ =>
          match ValidateID stakerID true true with
          | Ok _ =>
              if bool_decide (stakerID ∈ associatedStakerIDs)
              then Err delegationtypes.ErrInvalidGenesisData
              else validate_associations l ({[ stakerID ]} ∪ associatedStakerIDs)
          | _ => Err delegationtypes.ErrInvalidGenesisData
          end
      end
  end.

Definition ValidateAssociations (gs : GenesisState) : result error unit :=
  validate_associations (gs_Associations gs) ∅.

(** The shares and amounts of a [DelegationAmounts] are never nil here. *)
Definition validate_delegation_state (_ : nat) (info : string * DelegationAmounts)
    : result error unit :=
  match ParseStakerAssetIDAndOperator info.1 with
  | Ok keys =>
      match ValidateIDAndOperator (sdr_StakerId keys) (sdr_AssetId keys) (sdr_OperatorAddr keys) with
      | Ok _ =>
          if (da_UndelegatableShare info.2 <? 0) || (da_PendingUndelegationAmount info.2 <? 0)
          then Err delegationtypes.ErrInvalidGenesisData else Ok tt
      | _ => Err delegationtypes.ErrInvalidGenesisData
      end
  | _ => Err delegationtypes.ErrInvalidGenesisData
  end.

Definition ValidateDelegationStates (gs : GenesisState) : result error unit :=
  _ ← common_validation ErrDuplicateElement (λ info, (info.1, tt)) validate_delegation_state
        (gs_DelegationStates gs) 0 ∅;
  Ok tt.

Definition validate_staker_list (_ : nat) (stakersByOperator : string) : result error unit :=
  match ParseJoinedKeyWithCount stakersByOperator 3 with
  | Ok [operator; assetID; stakerID] =>
      match AccAddressFromBech32 operator, ValidateID assetID true false,
            ValidateID stakerID true false with
      | Some _, Ok (_, assetClientChainID), Ok (_, stakerClientChainID) =>
          if stakerClientChainID =? assetClientChainID then Ok tt
          else Err delegationtypes.ErrInvalidGenesisData
      | _, _, _ => Err delegationtypes.ErrInvalidGenesisData
      end
  | _ => Err delegationtypes.ErrInvalidGenesisData
  end.

Definition ValidateStakerList (gs : GenesisState) : result error unit :=
  _ ← common_validation ErrDuplicateElement (λ info, (info, tt)) validate_staker_list
        (gs_StakersByOperator gs) 0 ∅;
  Ok tt.

Definition validate_undelegation (lastUndelegationID : Z) (_ : nat)
    (undelegationRecord : UndelegationAndHoldCount) : result error unit :=
  let undelegation := uhc_Undelegation undelegationRecord in
  match ValidateIDAndOperator (ur_StakerId undelegation) (ur_AssetId undelegation)
          (ur_OperatorAddr undelegation) with
  | Ok _ =>
      match hex_DecodeString (ur_TxHash undelegation) with
      | None => Err delegationtypes.ErrInvalidGenesisData
      | Some bytes =>
          if negb (String.length bytes =? HashLength)%nat
             || (ur_Amount undelegation <? ur_ActualCompletedAmount undelegation)
             || (lastUndelegationID <=? ur_UndelegationId undelegation)
             || (ur_CompletedEpochNumber undelegation <? 0)
             || negb (bool_decide (ur_CompletedEpochIdentifier undelegation ∈
                  [NullEpochIdentifier; MinuteEpochID; HourEpochID; DayEpochID; WeekEpochID]))
          then Err delegationtypes.ErrInvalidGenesisData else Ok tt
      end
  | _ => Err delegationtypes.ErrInvalidGenesisData
  end.

Definition ValidateUndelegations (gs : GenesisState) : result error unit :=
  _ ← common_validation ErrDuplicateElement
        (λ record, (ur_TxHash (uhc_Undelegation record), tt))
        (validate_undelegation (gs_LastUndelegationId gs)) (gs_Undelegations gs) 0 ∅;
  Ok tt.

Definition GenesisState_Validate (gs : GenesisState) : result error unit :=
  _ ← ValidateAssociations gs;
  _ ← ValidateDelegationStates gs;
  _ ← ValidateStakerList gs;
  _ ← ValidateUndelegations gs;
  Params_Validate (gs_Params gs).
End Validate.

(** ** Import and export *)

Section Keeper.
Context {sdk : Sdk} {B X : Type} {bk : BankKeeper B error} {kp : Keepers X}.
Abbreviation W := (World B X).

(** The errors of [ParseID] and [AccAddressFromBech32] are dropped. *)
Definition init_association (association : string * string) : M W error unit :=
  let '(stakerID, operatorAddress) := association in
  let '(stakerAddress, clientChainID) :=
    match ParseID stakerID with Ok r => r | _ => (EmptyString, 0) end in
  let stakerAddressBytes := FromHex stakerAddress in
  let accAddress := default EmptyString (AccAddressFromBech32 operatorAddress) in
  must (AssociateOperatorWithStaker clientChainID accAddress stakerAddressBytes).

Definition InitGenesis (gs : GenesisState) : M W error unit :=
  _ ← for_each (gs_Associations gs) init_association;
  _ ← must (on_delegation (SetAllDelegationStates (gs_DelegationStates gs)));
  _ ← must (on_delegation (SetAllStakerList (gs_StakersByOperator gs)));
  epochs ← gets (λ w, ext_epochs (w_ext w));
  _ ← must (on_delegation (SetUndelegationRecords epochs true (gs_Undelegations gs)));
  _ ← must (on_delegation (SetLastUndelegationID (gs_LastUndelegationId gs)));
  on_delegation (SetParams (gs_Params gs)).

Definition ExportGenesis (d : DelegationState) : GenesisState := {|
  gs_Associations := GetAllAssociations d;
  gs_DelegationStates := AllDelegationStates d;
  gs_StakersByOperator := AllStakerList d;
  gs_Undelegations := AllUndelegations d;
  gs_LastUndelegationId := GetLastUndelegationID d;
  gs_Params := GetParams d |}.
End Keeper.

(** ** Facts *)

(** The 0x of a hash is not hexadecimal. *)
Lemma hex_DecodeString_0x t : hex_DecodeString ("0x" +:+ t) = None.
Proof. by rewrite !app_cons, app_empty_l. Qed.

Lemma validate_undelegation_hash `{SdkLaws} last i rec h :
  ur_TxHash (uhc_Undelegation rec) = Hash_String h → validate_undelegation last i rec ≠ Ok tt.
Proof.
  intros Hh. destruct (hash_prefix h) as [t Ht]. unfold validate_undelegation.
  rewrite Hh, Ht, hex_DecodeString_0x. by case_match.
Qed.

(** A result that passes the whole validation passes each part of it. *)
Lemma Validate_undelegations `{Sdk} gs rec :
  GenesisState_Validate gs = Ok tt → rec ∈ gs_Undelegations gs →
  ∃ i, validate_undelegation (gs_LastUndelegationId gs) i rec = Ok tt.
Proof.
  unfold GenesisState_Validate.
  destruct (ValidateAssociations gs); [|done..]. cbn.
  destruct (ValidateDelegationStates gs); [|done..]. cbn.
  destruct (ValidateStakerList gs); [|done..]. cbn. unfold ValidateUndelegations.
  destruct (common_validation _ _ _ (gs_Undelegations gs) _ _) eqn:Hv; [|done..]. intros _.
  by eapply common_validation_all.
Qed.

Section Importing.
Context `{SdkLaws} {B X : Type} {bk : BankKeeper B error} {kp : Keepers X}.
Implicit Types (w : World B X) (d : DelegationState).

(** An association that the import accepts: the staker ID is made of an
    address and of a registered client chain, the operator is registered. *)
Definition association_ok w (association : string * string) : Prop :=
  ∃ addr lz acc, association = (join_id (hexutil_Encode addr) lz, AccAddress_String acc) ∧
    is_u64 lz ∧ valid_addr acc ∧ ClientChainExists lz (w_assets w) = true ∧
    IsOperator (w_ext w) acc = true.

Lemma init_association_run w s o :
  association_ok w (s, o) → delegations (w_delegation w) = ∅ →
  associatedOperators (w_delegation w) !! s = None →
  init_association (s, o) w =
    (Ok tt, put_delegation (set_associatedOperators (insert s o) (w_delegation w)) w).
Proof.
  intros (addr & lz & acc & [= -> ->] & Hlz & Hacc & Hc & Hop) Hd Hnone.
  unfold init_association. rewrite ParseID_join, FromHex_Encode, bech32_roundtrip by done.
  change (default EmptyString (Some acc)) with acc. apply must_run. unfold AssociateOperatorWithStaker.
  change (GetStakerIDAndAssetID lz (Some addr) None).1 with (join_id (hexutil_Encode addr) lz).
  rewrite (bind_run _ _ w true w) by (unfold gets; by rewrite Hc).
  rewrite (bind_run (fail_if (negb true) _) _ w tt w) by done.
  rewrite (bind_run _ _ w true w) by (unfold gets; by rewrite Hop).
  rewrite (bind_run (fail_if (negb true) _) _ w tt w) by done.
  cbv zeta. rewrite (bind_run _ _ w EmptyString w)
    by (unfold gets, GetAssociatedOperator; by rewrite Hnone).
  rewrite (bind_run (fail_if _ _) _ w tt w) by done.
  rewrite (bind_run _ _ w tt w).
  2:{ unfold IterateDelegationsForStaker, IterateDelegations.
      rewrite bool_decide_false by apply join_id_nonempty.
      rewrite (bind_run (fail_if false _) _ w tt w) by done.
      unfold gets, mbind, M_bind. by rewrite Hd. }
  unfold on_delegation, zoom, SetAssociatedOperator. by rewrite bech32_roundtrip.
Qed.

Lemma init_associations_run l w :
  Forall (association_ok w) l → NoDup l.*1 → delegations (w_delegation w) = ∅ →
  (∀ s, s ∈ l.*1 → associatedOperators (w_delegation w) !! s = None) →
  for_each l init_association w =
    (Ok tt, put_delegation (set_associatedOperators (insert_all l) (w_delegation w)) w).
Proof.
  intros Hok. revert w Hok. induction l as [|[s o] l IH]; intros w Hok Hnd Hd Hnone.
  { cbn. by destruct w as [? []]. }
  apply Forall_cons in Hok as [Hso Hok]. apply NoDup_cons in Hnd as [Hs Hnd]. cbn [for_each].
  erewrite bind_run by (apply init_association_run; [done..|apply Hnone, list_elem_of_here]).
  rewrite IH; [by destruct w as [? []]|done..|].
  intros s' Hs'. cbn. rewrite lookup_insert_ne; [|set_solver]. by apply Hnone, list_elem_of_further.
Qed.

(** The records of the list are written with their indexes and hold counts. *)
Lemma SetUndelegationRecords_run es (l : list (string * UndelegationRecord)) (hold : string → Z) d :
  (∀ k r, (k, r) ∈ l → GetKey r = Ok k ∧ not_past es r) →
  SetUndelegationRecords es true
    ((λ kv, {| uhc_Undelegation := kv.2; uhc_HoldCount := hold kv.1 |}) <$> l) d =
    (Ok tt, set_records (insert_all l) (insert_all ((λ kv, (staker_key kv.2, kv.1)) <$> l))
              (insert_all ((λ kv, (pending_key kv.2, kv.1)) <$> l))
              (insert_all ((λ kv, (kv.1, hold kv.1)) <$> l)) d).
Proof.
  unfold SetUndelegationRecords. revert d. induction l as [|[k r] l IH]; intros d Hl.
  { cbn. by destruct d. }
  destruct (Hl k r) as [Hk Hp]; [apply list_elem_of_here|].
  cbn [fmap list_fmap for_each uhc_Undelegation uhc_HoldCount fst snd].
  rewrite (bind_run _ _ d tt (set_records (insert k r) (insert (staker_key r) k)
    (insert (pending_key r) k) (insert k (hold k)) d)).
  - rewrite IH; [by destruct d|]. intros k' r' Hin. by apply Hl, list_elem_of_further.
  - rewrite (bind_run _ _ d tt d) by (by apply check_completion_Ok).
    rewrite (bind_run _ _ d k d) by (unfold lift_result; by rewrite Hk). reflexivity.
Qed.

Lemma unit_entries (l : list (string * unit)) : (λ k, (k, tt)) <$> l.*1 = l.
Proof. induction l as [|[k []] l IH]; [done|]. cbn. by rewrite IH. Qed.

Lemma iterator_map_lookup {V U} (m : gmap string V) (f : string → U) k :
  insert_all ((λ kv, (kv.1, f kv.1)) <$> prefix_iterator EmptyString m) ∅ !! k =
    (λ _, f k) <$> m !! k.
Proof.
  rewrite insert_all_union by (rewrite <-list_fmap_compose; apply prefix_iterator_NoDup_keys).
  rewrite map_union_empty. apply option_eq. intros u. rewrite fmap_Some, <-elem_of_list_to_map
    by (rewrite <-list_fmap_compose; apply prefix_iterator_NoDup_keys).
  rewrite list_elem_of_fmap. split.
  - intros ([k' x] & [= -> ->] & Hin%elem_of_iterator_all). eauto.
  - intros (x & Hx & ->). exists (k, x). split; [done|]. by apply elem_of_iterator_all.
Qed.

Lemma iterator_perm {V} (m : gmap string V) : prefix_iterator EmptyString m ≡ₚ map_to_list m.
Proof.
  rewrite prefix_iterator_perm. induction (map_to_list m) as [|[k v] l IH]; [done|].
  rewrite filter_cons_True by (by destruct k). by rewrite IH.
Qed.
End Importing.

(** ** Properties *)

(** Exporting the delegation module and importing the result into an empty
    store rebuilds it: the delegations, the lists of stakers, the undelegation
    records with both their indexes, the associations, the parameters and the
    next undelegation ID, and the hold count of every record.  It requires that
    no record is past its epoch, and that the operators and client chains of
    the associations are registered. *)
Theorem delegation_genesis_roundtrip `{SdkLaws} {B X} `{BankKeeper B error} {kp : Keepers X}
    (w : World B X) d :
  records_inv d → map_Forall (λ _ r, not_past (ext_epochs (w_ext w)) r) (undelegations d) →
  map_Forall (λ s o, association_ok w (s, o)) (associatedOperators d) →
  w_delegation w = empty_delegation →
  ∃ d', InitGenesis (ExportGenesis d) w = (Ok tt, put_delegation d' w) ∧
    delegations d' = delegations d ∧ stakersByOperator d' = stakersByOperator d ∧
    undelegations d' = undelegations d ∧ stakerUndelegations d' = stakerUndelegations d ∧
    pendingUndelegations d' = pendingUndelegations d ∧
    associatedOperators d' = associatedOperators d ∧ GetParams d' = GetParams d ∧
    GetLastUndelegationID d' = GetLastUndelegationID d ∧
    ∀ k, is_Some (undelegations d !! k) →
      GetUndelegationHoldCount k d' = GetUndelegationHoldCount k d.
Proof.
  intros Hr Hpast Hassoc Hempty.
  eexists. split.
  - unfold InitGenesis. erewrite bind_run.
    2:{ apply init_associations_run; [|apply prefix_iterator_NoDup_keys|by rewrite Hempty|by rewrite Hempty].
        apply Forall_forall. intros [s o] Ho%elem_of_iterator_all. by apply Hassoc. }
    erewrite bind_run by (by apply must_run, zoom_run). cbn.
    erewrite bind_run by (by apply must_run, zoom_run). cbn.
    erewrite bind_run by done. cbn.
    erewrite bind_run.
    2:{ apply must_run, zoom_run, (SetUndelegationRecords_run _ (prefix_iterator EmptyString
          (undelegations d)) (λ k, GetUndelegationHoldCount k d)).
        intros k r Hin%elem_of_iterator_all. split; [by apply Hr|by apply (Hpast k)]. }
    erewrite bind_run by (by apply must_run, zoom_run). cbn. by destruct w.
  - rewrite Hempty. cbn. unfold AllStakerList, AllDelegationStates, GetAllAssociations.
    rewrite unit_entries, !insert_all_iterator. split_and!; try done.
    + apply (indexed_insert_all _ (undelegations d)); [apply Hr|apply iterator_perm].
    + apply (indexed_insert_all _ (undelegations d)); [apply Hr|apply iterator_perm].
    + intros k [r Hk]. unfold GetUndelegationHoldCount at 1. cbn.
      pose proof (iterator_map_lookup (undelegations d) (λ k, GetUndelegationHoldCount k d) k) as E.
      cbn beta in E. by rewrite E, Hk.
Qed.
