(* ===== verification/DelegationProps.v ===== *)
(** * Properties of the restaking core

    The theorems about reachable states and about the operations of x/delegation,
    with runs of a sample chain on which their hypotheses hold. *)

From S2P Require Import Prelude Errors Sdk RefSdk KVStore Ledger Epochs Shares DelegationTypes.
From S2P Require Import Assets DelegationStore UndelegationStore DelegationInv Delegation.
From S2P Require Import DelegationEndBlock DelegationRuns DelegationSafety DelegationSteps.
From S2P Require Import DelegationLiveness DelegationGenesis.

Section Properties.
Context `{SdkLaws} {B X : Type} {bk : BankKeeper B error} {kp : Keepers X}.
Implicit Types (w : World B X) (q : DelegationOrUndelegationParams X).

(** ** Reachable states *)

(** C2.  The books of the restaking core balance in every reachable state.  For
    every operator and asset, the total share of the pool is the sum of the
    shares of its delegations and its pending amount is the sum of the open
    undelegations from it; the pending amounts of every delegation (of staked
    tokens and of rewards) and of every staker are the sums of their open
    undelegations; no balance is negative, and a pool without shares holds no
    tokens. *)
Theorem reachable_accounting w0 w :
  initial w0 → rtc step w0 w →
  let a := w_assets w in
  let d := w_delegation w in
  (∀ pool, balance oa_TotalShare (operatorAssets a) pool =
     grouped (λ k _, Some (delegation_pool k)) shares pool (delegations d)) ∧
  (∀ pool, balance oa_PendingUndelegationAmount (operatorAssets a) pool =
     grouped (when (λ _, true) record_pool) ur_Amount pool (undelegations d)) ∧
  (∀ k, balance da_PendingUndelegationAmount (delegations d) k =
     grouped (when staked record_delegation) ur_Amount k (undelegations d)) ∧
  (∀ k, balance da_RewardPendingUndelegationAmount (delegations d) k =
     grouped (when rewarded record_delegation) ur_Amount k (undelegations d)) ∧
  (∀ sk, balance sa_PendingUndelegationAmount (stakerAssets a) sk =
     grouped (when deposited record_staker) ur_Amount sk (undelegations d)) ∧
  map_Forall (λ _ i, staker_nonneg i) (stakerAssets a) ∧
  map_Forall (λ _ p, pool_ok p) (operatorAssets a) ∧
  map_Forall (λ _ v, delegation_nonneg v) (delegations d).
Proof.
  intros Hi Hs a d. destruct (steps_inv w0 w Hs (initial_inv w0 Hi)).
  split_and!; try done. intros k v Hv. apply (ci_delegations k v Hv).
Qed.

(** The stores of undelegation records are consistent in every reachable
    state: a record is stored under its own key, each of the two indexes lists
    exactly the records, and no two records have the same undelegation ID. *)
Theorem reachable_records w0 w :
  initial w0 → rtc step w0 w →
  let d := w_delegation w in
  (∀ k r, undelegations d !! k = Some r → GetKey r = Ok k) ∧
  (∀ sk k, stakerUndelegations d !! sk = Some k ↔
     ∃ r, undelegations d !! k = Some r ∧ staker_key r = sk) ∧
  (∀ pk k, pendingUndelegations d !! pk = Some k ↔
     ∃ r, undelegations d !! k = Some r ∧ pending_key r = pk) ∧
  (∀ k r k' r', undelegations d !! k = Some r → undelegations d !! k' = Some r' →
     ur_UndelegationId r = ur_UndelegationId r' → k = k').
Proof.
  intros Hi Hs d. destruct (steps_inv w0 w Hs (initial_inv w0 Hi)) as [???????? _ Hr].
  destruct Hr as [Hwf Hkey Hst Hp _ _ Huniq]. split_and!; try done.
Qed.

(** Every pool is solvent in every reachable state: at most 10^18
    delegators of a pool can be paid the worth of all their shares out of the
    tokens of the pool, whatever the rounding of each payment. *)
Theorem reachable_solvent w0 w pool p :
  initial w0 → rtc step w0 w → operatorAssets (w_assets w) !! pool = Some p →
  let members := group (λ k _, Some (delegation_pool k)) shares pool (delegations (w_delegation w)) in
  0 < oa_TotalShare p → Z.of_nat (length members) ≤ dec_one →
  tokens_sum members (oa_TotalShare p) (oa_TotalAmount p) ≤ oa_TotalAmount p.
Proof.
  intros Hi Hs Hp members Hpos Hlen. pose proof (steps_inv w0 w Hs (initial_inv w0 Hi)) as Hw.
  destruct (ci_pools _ _ Hw _ _ Hp) as [(? & _) _].
  apply tokens_sum_le; try done.
  - apply Forall_fmap, Forall_forall. intros [k v] [_ Hv]%list_elem_of_filter. cbn.
    apply elem_of_map_to_list in Hv.
    destruct (ci_delegations _ _ Hw _ _ Hv) as [(? & _ & ? & _) _]. unfold shares. lia.
  - unfold members. rewrite <-grouped_group, <-(ci_shares _ _ Hw). unfold balance.
    by rewrite Hp.
Qed.

(** ** Conservation *)

(** Delegating staked tokens creates and destroys none: for every asset,
    the sum of what the stakers can withdraw, what the pools hold and what the
    open undelegations will pay is the same before and after a successful
    [DelegateTo] of an asset that x/assets keeps. *)
Theorem DelegateTo_conserves q w r w' y :
  world_inv w → RewardAsset q = false → (request_ids q).2 ≠ ImuachainAssetID →
  DelegateTo q w = (Ok r, w') → held y w' = held y w.
Proof.
  intros Hw Hrew Hnat (s & x & p & v & Hd)%delegateTo_Ok.
  rewrite (dl_ids _ _ _ _ _ _ _ _ _ Hd) in Hnat.
  eapply delegated_held; [|done| |done]; [by intros ?; congruence|done].
Qed.

(** The penalty of a request: of an instant one that x/operator says to slash, the
    percentage of the parameters of the requested amount. *)
Definition instant_penalty q w : Z :=
  match InstantUnbonding q, GetInstantUnbondingExpiration (w_ext w) (OperatorAddress q) with
  | true, Ok (true, _, _) => (GetInstantUndelegationPenalty (w_delegation w) * OpAmount q) ÷ 100
  | _, _ => 0
  end.

Lemma expiration_penalty q w id n ratio pen w' :
  expiration q w = (Ok (id, n, ratio, pen), w') → default 0 pen = instant_penalty q w.
Proof.
  intros [_ Hexp]%expiration_Ok. unfold instant_penalty.
  destruct (InstantUnbonding q); [|by destruct Hexp as [-> _]].
  destruct Hexp as ([] & -> & ->); [|done]. cbn. rewrite MulInt_exact, QuoInt_trunc, TruncateInt_trunc by lia.
  unfold dec_of_int. set (p := GetInstantUndelegationPenalty _).
  replace (p * dec_one) with (p * (dec_one ÷ 100) * 100) by (rewrite <-Z.mul_assoc; done).
  rewrite Z.quot_mul by lia.
  replace (p * (dec_one ÷ 100) * OpAmount q) with (p * OpAmount q * (dec_one ÷ 100)) by lia.
  change dec_one with (100 * (dec_one ÷ 100)) at 2. apply Z.quot_mul_cancel_r; [lia|by vm_compute].
Qed.

(** C12.  Undelegating loses the instant penalty only.  A successful [UndelegateFrom] adds
    one record, under a key that was not in use, for the staker, the asset and the operator
    of the request, and it is to pay its amount less the penalty.  The sum that the two
    modules account for of this asset is lower by this penalty, and that of every other asset
    is unchanged.  The penalty is the configured percentage of the requested amount when the
    unbonding is instant and x/operator says that it is slashed, and zero otherwise. *)
Theorem UndelegateFrom_conserves ctx q w u w' s x :
  world_inv w → keepers_ok (w_ext w) → request_wf q → request_ids q = (s, x) →
  UndelegateFrom ctx q w = (Ok u, w') →
  ∃ k r, undelegations (w_delegation w) !! k = None ∧
    undelegations (w_delegation w') = <[k := r]> (undelegations (w_delegation w)) ∧
    ur_StakerId r = s ∧ ur_AssetId r = x ∧ ur_OperatorAddr r = AccAddress_String (OperatorAddress q) ∧
    ur_ActualCompletedAmount r = ur_Amount r - instant_penalty q w ∧
    ∀ y, held y w' = held y w - (if bool_decide (x = y) then instant_penalty q w else 0).
Proof.
  intros Hw Hx Hq Hids (s' & x' & sh & r & rk & p0 & p & v & Hu)%UndelegateFrom_Ok.
  assert (s' = s ∧ x' = x) as [-> ->]
    by (pose proof (ud_ids _ _ _ _ _ _ _ _ _ _ _ _ Hu); split; congruence).
  pose proof (undelegated_fresh _ _ _ _ _ _ _ _ _ _ _ _ Hw Hx Hq Hu) as Hfresh.
  destruct (ud_record _ _ _ _ _ _ _ _ _ _ _ _ Hu) as (id & n & ratio & pen & l & Hexp & Hr).
  apply expiration_penalty in Hexp as Hpen.
  assert (ur_ActualCompletedAmount r = ur_Amount r - instant_penalty q w) as Hactual
    by (rewrite Hr; cbn; by rewrite Hpen).
  exists rk, r. split_and!; try done; try (by rewrite Hr).
  - destruct (ud_removed _ _ _ _ _ _ _ _ _ _ _ _ Hu) as (w1 & e & Hsr & ->).
    destruct (sr_records _ _ _ _ _ _ _ _ _ _ _ _ Hsr) as (f & g & Hrec). cbn. by rewrite Hrec.
  - intros y. rewrite (undelegated_held _ _ _ _ _ _ _ _ _ _ _ _ y Hw Hx Hq Hu).
    case_bool_decide; lia.
Qed.

(** The end of a block pays what it owes and no more: for an asset that
    x/assets keeps and of which no rewards are being undelegated, the same sum
    is unchanged by [EndBlock], whichever records complete or fail. *)
Theorem EndBlock_conserves w u w' y :
  world_inv w → block_ok w → y ≠ ImuachainAssetID → staked_only w y →
  EndBlock w = (Ok u, w') → held y w' = held y w.
Proof.
  intros Hw Hok Hnat Hst. rewrite EndBlock_eq by done. unfold log_and_continue.
  destruct (complete_all (selected w) w) as [[[]|e|] w1] eqn:Hrun;
    [|by apply complete_all_err in Hrun|done].
  intros [= _ <-]. eapply complete_all_held; [done| |by apply (NoDup_selected w)|done..].
  intros r Hr. by apply (selected_stored w).
Qed.


(** ** Fairness between stakers *)

(** A new delegation does not dilute the others: after a successful
    [DelegateTo] the tokens per share of the pool have not decreased. *)
Theorem DelegateTo_no_dilution q w r w' s x p0 :
  world_inv w → request_wf q → request_ids q = (s, x) → DelegateTo q w = (Ok r, w') →
  let pool := GetJoinedStoreKey [AccAddress_String (OperatorAddress q); x] in
  operatorAssets (w_assets w) !! pool = Some p0 →
  ∃ p, operatorAssets (w_assets w') !! pool = Some p ∧
    oa_TotalAmount p0 * oa_TotalShare p ≤ oa_TotalAmount p * oa_TotalShare p0.
Proof.
  intros Hw Hq Hids (s' & x' & p & v & Hd)%delegateTo_Ok pool Hp0.
  assert (x' = x) as -> by (pose proof (dl_ids _ _ _ _ _ _ _ _ _ Hd); congruence).
  exists p. destruct Hd as [_ Hpos _ _ Hsh Hpools [Ha _ Hs _] _ _ _ _ _].
  split; [rewrite Hpools; apply lookup_insert_eq|]. fold pool in Hsh, Ha, Hs.
  rewrite Hp0 in *. cbn in *. destruct (ci_pools _ _ Hw _ _ Hp0) as [(?&?&?&?) Hz].
  rewrite Ha, Hs. destruct (Z.eqb_spec (oa_TotalShare p0) 0) as [Hz0|Hz0].
  - rewrite Hz, Hz0 by done. lia.
  - destruct (decide (oa_TotalAmount p0 = 0)) as [->|Hne]; [nia|].
    apply SharesFromTokens_Ok in Hsh; [|lia..]. rewrite Hsh.
    pose proof (Z.mul_div_le (oa_TotalShare p0 * OpAmount q) (oa_TotalAmount p0)). nia.
Qed.

(** ** What an undelegation opens *)

(** An undelegation gives what was asked: a successful [UndelegateFrom]
    opens one record, under a key that was not in use, for the staker, the asset
    and the operator of the request; its amount is the requested one up to one
    unit in a pool of at most one token per 10^-18 share; the tokens leave the
    pool and become pending in it. *)
Theorem UndelegateFrom_opens ctx q w u w' s x p0 :
  world_inv w → keepers_ok (w_ext w) → request_wf q → request_ids q = (s, x) →
  UndelegateFrom ctx q w = (Ok u, w') →
  let pool := GetJoinedStoreKey [AccAddress_String (OperatorAddress q); x] in
  operatorAssets (w_assets w) !! pool = Some p0 →
  ∃ k r p, undelegations (w_delegation w) !! k = None ∧
    undelegations (w_delegation w') = <[k := r]> (undelegations (w_delegation w)) ∧
    ur_StakerId r = s ∧ ur_AssetId r = x ∧
    ur_OperatorAddr r = AccAddress_String (OperatorAddress q) ∧
    (oa_TotalAmount p0 ≤ oa_TotalShare p0 → OpAmount q - 1 ≤ ur_Amount r ≤ OpAmount q + 1) ∧
    operatorAssets (w_assets w') !! pool = Some p ∧
    oa_TotalAmount p = oa_TotalAmount p0 - ur_Amount r ∧
    oa_PendingUndelegationAmount p = oa_PendingUndelegationAmount p0 + ur_Amount r.
Proof.
  intros Hw Hx Hq Hids (s' & x' & sh & r & rk & p0' & p & v & Hu)%UndelegateFrom_Ok pool Hp0.
  assert (s' = s ∧ x' = x) as [-> ->]
    by (pose proof (ud_ids _ _ _ _ _ _ _ _ _ _ _ _ Hu); split; congruence).
  pose proof (undelegated_fresh _ _ _ _ _ _ _ _ _ _ _ _ Hw Hx Hq Hu) as Hfresh.
  destruct Hu as [_ Hpos _ (v0 & _ & Hshare) (w1 & e & Hsr & Hw') _ _ _ (id & n & ra & pen & l & _ & Hr)].
  destruct Hsr as [_ _ Hpool Hsp Htok Hpools [Ham Hpend _ _] _ _ _ (f & g & Hrec) _ _].
  fold pool in Hpool, Hpools. rewrite Hp0 in Hpool. injection Hpool as <-.
  exists rk, r, p. split_and!; try done; try (by rewrite Hr).
  - rewrite Hw'. cbn. by rewrite Hrec.
  - intros HTS. eapply undelegated_tokens; try done. apply (ci_pools _ _ Hw _ _ Hp0).
  - rewrite Hw'. cbn. rewrite Hpools. apply lookup_insert_eq.
Qed.

(** Undelegating is local: a successful [UndelegateFrom] changes no
    delegation but the one of the request, no pool but the one of its operator
    and asset, and of what the stakers can withdraw nothing. *)
Theorem UndelegateFrom_local ctx q w u w' s x :
  request_ids q = (s, x) → UndelegateFrom ctx q w = (Ok u, w') →
  let o := AccAddress_String (OperatorAddress q) in
  (∀ k, k ≠ GetJoinedStoreKey [s; x; o] →
     delegations (w_delegation w') !! k = delegations (w_delegation w) !! k) ∧
  (∀ k, k ≠ GetJoinedStoreKey [o; x] →
     operatorAssets (w_assets w') !! k = operatorAssets (w_assets w) !! k) ∧
  (∀ sk, withdrawable w' sk = withdrawable w sk) ∧
  w_bank w' = w_bank w.
Proof.
  intros Hids (s' & x' & sh & r & rk & p0' & p & v & Hu)%UndelegateFrom_Ok o.
  assert (s' = s ∧ x' = x) as [-> ->]
    by (pose proof (ud_ids _ _ _ _ _ _ _ _ _ _ _ _ Hu); split; congruence).
  destruct (ud_removed _ _ _ _ _ _ _ _ _ _ _ _ Hu) as (w1 & e & Hsr & ->).
  destruct Hsr as [Hb _ _ _ _ Hpools _ Hdel _ _ _ Hst _]. unfold withdrawable. cbn.
  split_and!; [intros k Hk..| |done].
  - rewrite Hdel. by rewrite lookup_insert_ne.
  - rewrite Hpools. by rewrite lookup_insert_ne.
  - intros sk. case_match; [destruct Hst as [i [-> _ Hwd _ _]]|by rewrite Hst].
    rewrite balance_insert. destruct (decide (GetJoinedStoreKey [s; x] = sk)) as [<-|]; [|done]. rewrite Hwd.
    rewrite (balance_zero sa_WithdrawableAmount staker_zero) by done. lia.
Qed.

(** Nothing completes early: the record that a successful [UndelegateFrom]
    of staked tokens opens with an epoch identifier (the unbonding is not
    instant and an AVS is opted into) is not among those that the end of the
    block completes, nor of any later block before the end of its epoch. *)
Theorem UndelegateFrom_not_early ctx q w u w' :
  world_inv w → keepers_ok (w_ext w) → request_wf q → RewardAsset q = false →
  UndelegateFrom ctx q w = (Ok u, w') →
  ∃ k r, undelegations (w_delegation w) !! k = None ∧
    undelegations (w_delegation w') !! k = Some r ∧
    (ur_CompletedEpochIdentifier r ≠ NullEpochIdentifier →
     ∃ e, ext_epochs (w_ext w) !! ur_CompletedEpochIdentifier r = Some e ∧
       ei_CurrentEpoch e ≤ ur_CompletedEpochNumber r ∧
       ∀ w'' e'', world_inv w'' → block_ok w'' →
         ext_epochs (w_ext w'') !! ur_CompletedEpochIdentifier r = Some e'' →
         ei_CurrentEpoch e'' ≤ ur_CompletedEpochNumber r → r ∉ selected w'').
Proof.
  intros Hw Hx Hq Hrew (s & x & sh & r & rk & p0 & p & v & Hu)%UndelegateFrom_Ok. exists rk, r.
  split; [by eapply undelegated_fresh|].
  destruct (ud_removed _ _ _ _ _ _ _ _ _ _ _ _ Hu) as (w1 & e & _ & ->).
  split; [apply lookup_insert_eq|]. intros Hnull.
  destruct (ud_not_past _ _ _ _ _ _ _ _ _ _ _ _ Hu Hrew) as [?|(ei & Hei & Hle)]; [done|].
  exists ei. split_and!; [done..|]. intros w'' e'' Hw'' Hok'' He'' Hle''.
  intros Hr%selected_completable. destruct Hok'' as [Hes _].
  apply elem_of_completable in Hr as (k & _ & _ & [[? _]|(e2 & He2 & Hlt)]); [done| |apply Hw''|done].
  simplify_eq. lia.
Qed.

(** A hold is respected: a record whose hold count is positive is not
    completed by the end of a block. *)
Theorem held_not_completed w k r :
  world_inv w → block_ok w → undelegations (w_delegation w) !! k = Some r →
  0 < GetUndelegationHoldCount k (w_delegation w) →
  (r ∉ selected w) ∧
  ∀ u w', EndBlock w = (Ok u, w') → undelegations (w_delegation w') !! k = Some r.
Proof.
  intros Hw Hok Hr Hhold. assert (Hns : r ∉ selected w).
  { intros Hsel%selected_completable. destruct Hok as [Hes _].
    apply elem_of_completable in Hsel as (k' & Hk' & Hh & _); [|apply Hw|done].
    assert (k' = k) as ->; [|lia]. by apply (stored_key w k' k r). }
  split; [done|]. intros u w'. rewrite EndBlock_eq by done. unfold log_and_continue.
  destruct (complete_all (selected w) w) as [[[]|e|] w1] eqn:Hrun;
    [|by apply complete_all_err in Hrun|done].
  intros [= _ <-]. eapply complete_all_keeps; [done| |by apply (NoDup_selected w)|done..].
  intros r' Hr'. by apply (selected_stored w).
Qed.

(** ** The genesis file *)

(** A chain with an open undelegation exports a genesis file that its own
    validation refuses: the transaction hash of a record is stored with the 0x
    prefix that the hexadecimal decoder of the validation rejects. *)
Theorem exported_undelegation_invalid ctx q w u w' :
  UndelegateFrom ctx q w = (Ok u, w') →
  GenesisState_Validate (ExportGenesis (w_delegation w')) ≠ Ok tt.
Proof.
  intros (s & x & sh & r & rk & p0 & p & v & Hu)%UndelegateFrom_Ok Hvalid.
  destruct (ud_record _ _ _ _ _ _ _ _ _ _ _ _ Hu) as (id & n & ratio & pen & l & _ & Hr).
  destruct (ud_removed _ _ _ _ _ _ _ _ _ _ _ _ Hu) as (w1 & e & _ & ->).
  destruct (Validate_undelegations _ {| uhc_Undelegation := r; uhc_HoldCount :=
    GetUndelegationHoldCount rk (w_delegation w1) |} Hvalid) as [i Hi].
  - apply list_elem_of_fmap. exists (rk, r). split; [done|].
    apply elem_of_iterator_all, lookup_insert_eq.
  - revert Hi. apply (validate_undelegation_hash _ _ _ (TxHash q)). cbn. by rewrite Hr.
Qed.
End Properties.
