(* ===== verification/DelegationSample.v ===== *)
(** * A sample chain

    Expected keepers with concrete answers and a run of the restaking core on
    them: a deposit, a delegation, an undelegation, the end of its epoch and its
    completion.  The theorems about x/delegation are applied to its states. *)

From S2P Require Import Prelude Errors Sdk RefSdk KVStore Ledger Epochs Shares DelegationTypes.
From S2P Require Import Assets DelegationStore UndelegationStore DelegationInv Delegation.
From S2P Require Import DelegationEndBlock DelegationRuns DelegationSafety DelegationSteps.
From S2P Require Import DelegationLiveness DelegationNST.
From S2P Require Import DelegationGenesis DelegationProps.

(** One registered operator, whose undelegations complete with the second epoch
    of the timer "five"; the hooks do nothing. *)
#[export] Instance sample_keepers : Keepers EpochsState := {|
  IsOperator _ op := bool_decide (op = sample_acc);
  IsOperatorFrozen _ _ := false;
  GetUnbondingExpiration _ _ := Ok ("five", 2, 0);
  GetInstantUnbondingExpiration _ _ := Ok (true, NullEpochIdentifier, NullEpochNumber);
  ext_epochs es := es;
  AfterDelegation _ _ _ _ _ := mret tt;
  AfterUndelegationStarted _ _ _ _ _ _ := mret tt;
  AfterNSTDelegationSlashed _ _ _ _ _ := mret tt;
  CompleteRewardUndelegation _ := mret tt;
|}.

Lemma sample_keepers_ok (e : EpochsState) : keepers_ok e.
Proof.
  split; cbn.
  - intros op ->%bool_decide_eq_true. done.
  - intros op id n u [= <- <- _]. by vm_compute.
  - intros op b id n [= _ <- <-]. by vm_compute.
Qed.

#[export] Instance sample_hooks_accept : HooksAccept sample_keepers.
Proof. split; intros; by eexists. Qed.

Definition SampleWorld : Type := World refbank EpochsState.

Definition sample_request (amount : Int) (instant : bool)
    : DelegationOrUndelegationParams EpochsState := {|
  ClientChainID := 101; AssetsAddress := sample_asset_addr; OperatorAddress := sample_acc;
  StakerAddress := sample_staker_addr; OpAmount := amount; TxHash := zero_hash;
  InstantUnbonding := instant; RewardAsset := false; RewardAssetID := EmptyString;
  RewardStakerID := EmptyString; ReduceDelegationShare := None; RewardUndelegations := [] |}.

(** ** The states of the run *)

Definition sample_w0 : SampleWorld := {|
  w_assets := sample_assets0;
  w_delegation := set_delegationParams DefaultParams empty_delegation;
  w_bank := {| rb_accounts := ∅; rb_modules := ∅; rb_supply := ∅ |}; w_ext := sample_epochs |}.
Definition sample_deposited : SampleWorld :=
  put_assets (PerformDepositOrWithdraw (sample_op DepositLST 1000) sample_assets0).2 sample_w0.
Definition sample_delegated : SampleWorld :=
  (DelegateTo (sample_request 600 false) sample_deposited).2.
Definition sample_undelegated : SampleWorld :=
  (UndelegateFrom (at_time 17) (sample_request 100 false) sample_delegated).2.
Definition sample_epoch3 : EpochInfo := next_epoch (at_time 21) sample_epoch.
Definition sample_matured : SampleWorld :=
  put_bank (w_bank sample_undelegated) (put_ext {[ "five" := sample_epoch3 ]} sample_undelegated).
Definition sample_completed : SampleWorld := (EndBlock sample_matured).2.

Lemma sample_deposit_run :
  PerformDepositOrWithdraw (sample_op DepositLST 1000) (w_assets sample_w0) =
    (Ok 1000, w_assets sample_deposited).
Proof.
  refine (run_eta (PerformDepositOrWithdraw (sample_op DepositLST 1000)) sample_assets0 1000 _).
  conv_refl.
Qed.

Lemma sample_delegate_run :
  DelegateTo (sample_request 600 false) sample_deposited =
    (Ok (dec_of_int 600, 0), sample_delegated).
Proof.
  refine (run_eta (DelegateTo (sample_request 600 false)) sample_deposited (dec_of_int 600, 0) _).
  conv_refl.
Qed.

Lemma sample_undelegate_run :
  UndelegateFrom (at_time 17) (sample_request 100 false) sample_delegated =
    (Ok tt, sample_undelegated).
Proof.
  refine (run_eta (UndelegateFrom (at_time 17) (sample_request 100 false)) sample_delegated tt _).
  conv_refl.
Qed.

Lemma sample_end_block_run : EndBlock sample_matured = (Ok tt, sample_completed).
Proof. refine (run_eta EndBlock sample_matured tt _). conv_refl. Qed.

#[local] Opaque sample_deposited sample_delegated sample_undelegated sample_matured
  sample_completed.

Lemma sample_initial : initial sample_w0.
Proof. repeat split; try done. by exists DefaultParams. Qed.

Lemma sample_request_wf amount instant : request_wf (sample_request amount instant).
Proof. by intros [=]. Qed.

Lemma sample_run_deposited : rtc step sample_w0 sample_deposited.
Proof. exact (rtc_once _ _ (step_deposit _ _ _ _ sample_deposit_run)). Qed.

Lemma sample_run_delegated : rtc step sample_w0 sample_delegated.
Proof.
  etransitivity; [exact sample_run_deposited|].
  exact (rtc_once _ _ (step_delegate _ _ _ _ (sample_request_wf _ _) sample_delegate_run)).
Qed.

Lemma sample_run_undelegated : rtc step sample_w0 sample_undelegated.
Proof.
  etransitivity; [exact sample_run_delegated|].
  exact (rtc_once _ _ (step_undelegate _ _ _ _ _ (sample_keepers_ok _) (sample_request_wf _ _)
    sample_undelegate_run)).
Qed.

Lemma sample_run_matured : rtc step sample_w0 sample_matured.
Proof.
  etransitivity; [exact sample_run_undelegated|].
  exact (rtc_once _ _ (step_other sample_undelegated (w_bank sample_undelegated)
    {[ "five" := sample_epoch3 ]})).
Qed.

Lemma sample_block_ok_at (w : SampleWorld) :
  w_ext w = {[ "five" := sample_epoch3 ]} →
  p_MaxUndelegationCompletions (GetParams (w_delegation w)) =
    p_MaxUndelegationCompletions DefaultParams → block_ok w.
Proof.
  intros Hext Hmax. split; [|by rewrite Hmax]. rewrite Hext. cbn [ext_epochs sample_keepers]. split.
  - intros id e. by intros [<- <-]%lookup_singleton_Some.
  - conv_refl.
  - apply map_Forall_singleton. by vm_compute.
Qed.

Lemma sample_block_ok : block_ok sample_matured.
Proof. apply sample_block_ok_at; conv_refl. Qed.

Lemma sample_run_completed : rtc step sample_w0 sample_completed.
Proof.
  etransitivity; [exact sample_run_matured|].
  exact (rtc_once _ _ (step_end_block _ _ _ sample_block_ok sample_end_block_run)).
Qed.

Definition sample_inv {w : SampleWorld} (Hs : rtc step sample_w0 w) : world_inv w :=
  steps_inv sample_w0 w Hs (initial_inv sample_w0 sample_initial).

(** ** Witnesses *)

Definition sample_pool : string := GetJoinedStoreKey [AccAddress_String sample_acc; sample_assetID].
Definition sample_staker_asset : string := GetJoinedStoreKey [sample_stakerID; sample_assetID].

(** The record of the undelegation. *)
Definition sample_record : UndelegationRecord :=
  new_record (at_time 17) (sample_request 100 false) sample_stakerID sample_assetID 0 100
    "five" 2 None [].
Definition sample_record_key : string :=
  match GetKey sample_record with Ok k => k | _ => EmptyString end.

Lemma sample_records :
  undelegations (w_delegation sample_matured) = {[ sample_record_key := sample_record ]}.
Proof. conv_refl. Qed.

Lemma sample_record_stored :
  undelegations (w_delegation sample_matured) !! sample_record_key = Some sample_record.
Proof. rewrite sample_records. apply lookup_singleton_eq. Qed.

Lemma reachable_accounting_witness :
  balance oa_PendingUndelegationAmount (operatorAssets (w_assets sample_matured)) sample_pool =
    grouped (when (λ _, true) record_pool) ur_Amount sample_pool
      (undelegations (w_delegation sample_matured)) ∧
  balance oa_PendingUndelegationAmount (operatorAssets (w_assets sample_matured)) sample_pool = 100.
Proof.
  split; [|conv_refl].
  exact (proj1 (proj2 (reachable_accounting sample_w0 sample_matured sample_initial
    sample_run_matured)) sample_pool).
Defined.

Lemma reachable_records_witness :
  ∃ k r, undelegations (w_delegation sample_matured) !! k = Some r ∧ GetKey r = Ok k ∧
    ur_Amount r = 100.
Proof.
  exists sample_record_key, sample_record.
  split; [exact sample_record_stored|]. split; [|conv_refl].
  exact (proj1 (reachable_records sample_w0 sample_matured sample_initial sample_run_matured)
    sample_record_key sample_record sample_record_stored).
Defined.

(** The pool after the delegation and after the undelegation. *)
Definition sample_pool_of (w : SampleWorld) : OperatorAssetInfo :=
  default operator_zero (operatorAssets (w_assets w) !! sample_pool).

Lemma reachable_solvent_witness :
  tokens_sum [dec_of_int 500] (dec_of_int 500) 500 ≤ 500.
Proof.
  exact (reachable_solvent sample_w0 sample_matured sample_pool (sample_pool_of sample_matured)
    sample_initial sample_run_matured ltac:(conv_refl) ltac:(by vm_compute) ltac:(by vm_compute)).
Defined.

Lemma DelegateTo_conserves_witness :
  held sample_assetID sample_delegated = held sample_assetID sample_deposited.
Proof.
  apply (DelegateTo_conserves (sample_request 600 false) sample_deposited (dec_of_int 600, 0));
    [exact (sample_inv sample_run_deposited)|done|by vm_compute|exact sample_delegate_run].
Defined.

Lemma sample_ids : request_ids (sample_request 100 false) = (sample_stakerID, sample_assetID).
Proof. conv_refl. Qed.

(** An instant undelegation, for a quarter of its amount. *)
Definition sample_instant : SampleWorld :=
  (UndelegateFrom (at_time 17) (sample_request 100 true) sample_delegated).2.

Lemma UndelegateFrom_conserves_witness :
  ∃ k r, undelegations (w_delegation sample_instant) = <[k := r]> (undelegations (w_delegation sample_delegated)) ∧
    ur_ActualCompletedAmount r = ur_Amount r - 25 ∧
    held sample_assetID sample_instant = held sample_assetID sample_delegated - 25.
Proof.
  destruct (UndelegateFrom_conserves (at_time 17) (sample_request 100 true) sample_delegated tt
    sample_instant _ _ (sample_inv sample_run_delegated) (sample_keepers_ok _)
    (sample_request_wf _ _) sample_ids) as (k & r & _ & Hadd & _ & _ & _ & Hact & Hheld).
  - refine (run_eta (UndelegateFrom (at_time 17) (sample_request 100 true)) sample_delegated tt _). conv_refl.
  - exists k, r. split; [exact Hadd|]. split; [rewrite Hact; conv_refl|].
    rewrite Hheld. conv_refl.
Defined.


Lemma sample_staked_only : staked_only sample_matured sample_assetID.
Proof.
  intros k r. rewrite sample_records. by intros [_ <-]%lookup_singleton_Some.
Qed.

Lemma EndBlock_conserves_witness :
  held sample_assetID sample_completed = held sample_assetID sample_matured.
Proof.
  exact (EndBlock_conserves sample_matured tt sample_completed sample_assetID
    (sample_inv sample_run_matured) sample_block_ok ltac:(by vm_compute) sample_staked_only
    sample_end_block_run).
Defined.





(** A second delegation, of 300 tokens, to the pool of 600. *)
Definition sample_delegated2 : SampleWorld :=
  (DelegateTo (sample_request 300 false) sample_delegated).2.

Lemma DelegateTo_no_dilution_witness :
  ∃ p, operatorAssets (w_assets sample_delegated2) !! sample_pool = Some p ∧
    oa_TotalAmount (sample_pool_of sample_delegated) * oa_TotalShare p ≤
      oa_TotalAmount p * oa_TotalShare (sample_pool_of sample_delegated).
Proof.
  exact (DelegateTo_no_dilution (sample_request 300 false) sample_delegated (dec_of_int 300, 600)
    sample_delegated2 sample_stakerID sample_assetID (sample_pool_of sample_delegated)
    (sample_inv sample_run_delegated) (sample_request_wf _ _) sample_ids
    (run_eta (DelegateTo (sample_request 300 false)) sample_delegated (dec_of_int 300, 600)
      ltac:(conv_refl)) ltac:(conv_refl)).
Defined.

Lemma UndelegateFrom_opens_witness :
  ∃ k r p, undelegations (w_delegation sample_delegated) !! k = None ∧
    undelegations (w_delegation sample_undelegated) =
      <[k := r]> (undelegations (w_delegation sample_delegated)) ∧
    99 ≤ ur_Amount r ≤ 101 ∧
    operatorAssets (w_assets sample_undelegated) !! sample_pool = Some p ∧
    oa_TotalAmount p = oa_TotalAmount (sample_pool_of sample_delegated) - ur_Amount r.
Proof.
  destruct (UndelegateFrom_opens (at_time 17) (sample_request 100 false) sample_delegated tt
    sample_undelegated sample_stakerID sample_assetID (sample_pool_of sample_delegated)
    (sample_inv sample_run_delegated) (sample_keepers_ok _)
    (sample_request_wf _ _) sample_ids sample_undelegate_run
    ltac:(conv_refl)) as (k & r & p & Hnone & Hwrite & _ & _ & _ & Hamt & Hp & Htot & _).
  exists k, r, p. split; [exact Hnone|]. split; [exact Hwrite|].
  split; [apply Hamt; by vm_compute|]. split; [exact Hp|exact Htot].
Defined.

Lemma UndelegateFrom_local_witness :
  withdrawable sample_undelegated sample_staker_asset =
    withdrawable sample_delegated sample_staker_asset.
Proof.
  exact (proj1 (proj2 (proj2 (UndelegateFrom_local (at_time 17) (sample_request 100 false)
    sample_delegated tt sample_undelegated sample_stakerID sample_assetID sample_ids
    sample_undelegate_run))) sample_staker_asset).
Defined.

Lemma UndelegateFrom_not_early_witness :
  ∃ k r, undelegations (w_delegation sample_delegated) !! k = None ∧
    undelegations (w_delegation sample_undelegated) !! k = Some r.
Proof.
  destruct (UndelegateFrom_not_early (at_time 17) (sample_request 100 false) sample_delegated tt
    sample_undelegated (sample_inv sample_run_delegated) (sample_keepers_ok _)
    (sample_request_wf _ _) eq_refl
    sample_undelegate_run) as (k & r & Hnone & Hr & _).
  exists k, r. split; [exact Hnone|exact Hr].
Defined.

(** The record is held. *)
Definition sample_held : SampleWorld :=
  put_delegation (IncrementUndelegationHoldCount sample_record_key (w_delegation sample_matured)).2
    sample_matured.
Definition sample_held_completed : SampleWorld := (EndBlock sample_held).2.

Lemma sample_run_held : rtc step sample_w0 sample_held.
Proof.
  etransitivity; [exact sample_run_matured|].
  assert (Hrun : IncrementUndelegationHoldCount sample_record_key (w_delegation sample_matured) =
    (Ok tt, w_delegation sample_held)).
  { refine (run_eta (IncrementUndelegationHoldCount sample_record_key)
      (w_delegation sample_matured) tt _). conv_refl. }
  exact (rtc_once _ _ (step_hold _ _ _ _ Hrun)).
Qed.

Lemma sample_held_ok : block_ok sample_held.
Proof. apply sample_block_ok_at; conv_refl. Qed.

Lemma sample_held_stored :
  undelegations (w_delegation sample_held) !! sample_record_key = Some sample_record.
Proof. conv_refl. Qed.

Lemma held_not_completed_witness :
  (sample_record ∉ selected sample_held) ∧
  undelegations (w_delegation sample_held_completed) !! sample_record_key = Some sample_record.
Proof.
  destruct (held_not_completed sample_held sample_record_key sample_record
    (sample_inv sample_run_held) sample_held_ok sample_held_stored ltac:(by vm_compute))
    as [Hsel Hkeep].
  split; [exact Hsel|]. exact (Hkeep tt _ (run_eta EndBlock sample_held tt ltac:(conv_refl))).
Defined.

(** The client chain slashes 450 of the staker's balance: 400 of it can be
    withdrawn, and the rest is taken from the undelegation. *)
Definition sample_slashed : SampleWorld :=
  (UpdateNSTBalance sample_stakerID sample_assetID (-450) sample_matured).2.

Lemma UpdateNSTBalance_waterfall_witness :
  withdrawable sample_slashed sample_staker_asset =
    Z.max 0 (withdrawable sample_matured sample_staker_asset + -450) ∧
  ur_ActualCompletedAmount (default sample_record
    (undelegations (w_delegation sample_slashed) !! sample_record_key)) = 50.
Proof.
  split; [|conv_refl].
  exact (proj1 (UpdateNSTBalance_waterfall sample_stakerID sample_assetID (-450) sample_matured tt
    sample_slashed (sample_inv sample_run_matured) ltac:(by vm_compute) ltac:(by vm_compute)
    ltac:(by vm_compute) ltac:(by vm_compute)
    (run_eta (UpdateNSTBalance sample_stakerID sample_assetID (-450)) sample_matured tt
      ltac:(conv_refl)))).
Defined.

Lemma DelegateTo_succeeds_witness :
  ∃ pre w', DelegateTo (sample_request 600 false) sample_deposited = (Ok (dec_of_int 600, pre), w').
Proof.
  exact (DelegateTo_succeeds (sample_request 600 false) sample_deposited sample_stakerID
    sample_assetID (default staker_zero (stakerAssets (w_assets sample_deposited) !!
      sample_staker_asset)) (dec_of_int 600) (sample_inv sample_run_deposited) (sample_keepers_ok _)
    ltac:(conv_refl) eq_refl ltac:(by vm_compute) ltac:(conv_refl) ltac:(conv_refl) ltac:(by vm_compute)
    ltac:(conv_refl) eq_refl ltac:(conv_refl)).
Defined.

Lemma sample_not_past :
  "five" = NullEpochIdentifier ∨
  ∃ e, ext_epochs (w_ext sample_delegated) !! "five" = Some e ∧ ei_CurrentEpoch e ≤ 2.
Proof. right. exists sample_epoch. split; [conv_refl|by vm_compute]. Qed.

Lemma UndelegateFrom_succeeds_witness :
  ∃ t w' rk r, UndelegateFrom (at_time 17) (sample_request 100 false) sample_delegated =
      (Ok tt, w') ∧ removed_tokens (dec_of_int 100) (sample_pool_of sample_delegated) = Ok t ∧
    undelegations (w_delegation w') !! rk = Some r ∧ ur_Amount r = t ∧
    ur_ActualCompletedAmount r = t ∧ ur_StakerId r = sample_stakerID ∧
    ur_AssetId r = sample_assetID.
Proof.
  exact (UndelegateFrom_succeeds (at_time 17) (sample_request 100 false) sample_delegated
    sample_stakerID sample_assetID
    (default delegation_zero (delegations (w_delegation sample_delegated) !!
      GetJoinedStoreKey [sample_stakerID; sample_assetID; AccAddress_String sample_acc]))
    (sample_pool_of sample_delegated) (dec_of_int 100) "five" 2 0
    (sample_inv sample_run_delegated) (sample_keepers_ok _) sample_ids eq_refl eq_refl eq_refl ltac:(conv_refl)
    ltac:(conv_refl) ltac:(conv_refl) ltac:(conv_refl) ltac:(by vm_compute) eq_refl
    sample_not_past
    ltac:(by vm_compute)).
Defined.

Lemma GetCompletableUndelegations_spec_witness :
  ∃ l, GetCompletableUndelegations (w_ext sample_matured) true (w_delegation sample_matured) =
         (Ok (capped true (p_MaxUndelegationCompletions (GetParams (w_delegation sample_matured))) l),
          w_delegation sample_matured) ∧ NoDup l ∧
    ∀ r, r ∈ l ↔ ∃ k, undelegations (w_delegation sample_matured) !! k = Some r ∧
      GetUndelegationHoldCount k (w_delegation sample_matured) ≤ 0 ∧
      matured (w_ext sample_matured) r.
Proof.
  exact (GetCompletableUndelegations_spec (w_ext sample_matured) true (w_delegation sample_matured)
    (ci_records _ _ (sample_inv sample_run_matured)) (proj1 sample_block_ok)
    (proj2 sample_block_ok)).
Defined.

Lemma exported_undelegation_invalid_witness :
  GenesisState_Validate (ExportGenesis (w_delegation sample_undelegated)) ≠ Ok tt.
Proof.
  exact (exported_undelegation_invalid (at_time 17) (sample_request 100 false) sample_delegated tt
    sample_undelegated sample_undelegate_run).
Defined.

(** The new chain: the same assets and epochs, nothing delegated. *)
Definition sample_fresh : SampleWorld := put_delegation empty_delegation sample_undelegated.

Lemma delegation_genesis_roundtrip_witness :
  ∃ d', InitGenesis (ExportGenesis (w_delegation sample_undelegated)) sample_fresh =
      (Ok tt, put_delegation d' sample_fresh) ∧
    delegations d' = delegations (w_delegation sample_undelegated) ∧
    undelegations d' = undelegations (w_delegation sample_undelegated).
Proof.
  assert (Hpast : map_Forall (λ _ r, not_past (ext_epochs (w_ext sample_fresh)) r)
    (undelegations (w_delegation sample_undelegated))).
  { assert (E : undelegations (w_delegation sample_undelegated) =
      {[ sample_record_key := sample_record ]}) by conv_refl.
    rewrite E. apply map_Forall_singleton. right. exists sample_epoch.
    split; [conv_refl|by vm_compute]. }
  assert (Hassoc : map_Forall (λ s o, association_ok sample_fresh (s, o))
    (associatedOperators (w_delegation sample_undelegated))).
  { assert (E : associatedOperators (w_delegation sample_undelegated) = ∅) by conv_refl.
    rewrite E. apply map_Forall_empty. }
  destruct (delegation_genesis_roundtrip sample_fresh (w_delegation sample_undelegated)
    (ci_records _ _ (sample_inv sample_run_undelegated)) Hpast Hassoc eq_refl)
    as (d' & Hrun & Hd & _ & Hu & _).
  exists d'. split; [exact Hrun|]. split; [exact Hd|exact Hu].
Defined.
