(* ===== verification/Immint.v ===== *)
(** * The immint module (x/immint)

    Minting at the end of an epoch: a fixed reward, or a yearly inflation of
    the supply divided by the number of epochs in a year.  The module is a
    client of x/epochs through its hooks; the bank is the interface
    [BankKeeper].  A nil [Int] or [Dec] is [None]. *)

From S2P Require Import Prelude Errors Sdk RefSdk KVStore Epochs.

(** ** Data *)

Record InflationParams := {
  ip_Enable : bool;
  ip_StartTime : Z;
  ip_AnnualInflation : list (option LegacyDec);
}.

Record Params := {
  MintDenom : string;
  EpochReward : option Int;
  EpochIdentifier : string;
  p_InflationParams : InflationParams;
}.

(** The zero value of the struct, also what [GetParams] decodes from an empty
    store. *)
Definition no_inflation : InflationParams :=
  {| ip_Enable := false; ip_StartTime := 0; ip_AnnualInflation := [] |}.
Definition zero_params : Params :=
  {| MintDenom := EmptyString; EpochReward := None; EpochIdentifier := EmptyString;
     p_InflationParams := no_inflation |}.

(** The module's store and the bank it writes through its keeper. *)
Record ImmintState (B : Type) := { im_params : Params; im_bank : B }.
Arguments im_params {B}.
Arguments im_bank {B}.
Arguments Build_ImmintState {B}.

(** [types.ModuleName] *)
Definition ModuleName : string := "immint".
(** [utils.BaseDenom] *)
Definition BaseDenom : string := "hua".

(** ** Time *)

(** [time.Time.Unix]: whole seconds since 1970 *)
Definition Time_Unix (t : Z) : Z := t / 10 ^ 9 - 62135596800.

(** [int64(d.Seconds())].  [Seconds] adds the whole seconds and the fraction as
    [float64]: with [e] the binary exponent of the seconds, the sum is rounded to
    the next second when the distance to it is at most half a unit in the last
    place, that is [2^(e-53)].  (For a duration that is not positive the result
    is not positive either; the callers make no other use of it.) *)
Definition Duration_Seconds (d : Z) : Z :=
  let sec := Z.quot d (10 ^ 9) in
  let nsec := Z.rem d (10 ^ 9) in
  if (0 <? sec) && ((10 ^ 9 - nsec) * 2 ^ (53 - Z.log2 sec) <=? 10 ^ 9) then sec + 1 else sec.

Definition SecondsInYear : Z := 365 * 24 * 60 * 60.

(** ** Parameters (types/params.go) *)

Section Params.
Context {sdk : Sdk}.

Definition NewParams (mintDenom : string) (epochReward : option Int) (epochIdentifier : string)
    : Params :=
  {| MintDenom := mintDenom; EpochReward := epochReward; EpochIdentifier := epochIdentifier;
     p_InflationParams := no_inflation |}.

Definition DefaultParams : Params := NewParams BaseDenom (Some 20) DayEpochID.

Fixpoint validate_ratios (l : list (option LegacyDec)) : result error unit :=
  match l with
  | [] => Ok tt
  | None :: _ => Err imminttypes.ErrInvalidInflationRatio
  | Some r :: l => if r <? 0 then Err imminttypes.ErrInvalidInflationRatio else validate_ratios l
  end.

Definition ValidateInflationParam (p : Params) : result error unit :=
  if ip_StartTime (p_InflationParams p) <? 0 then Err imminttypes.ErrNegativeStartTime
  else validate_ratios (ip_AnnualInflation (p_InflationParams p)).

(** x/feedistribution/types/types.go *)
Definition ValidateRewardAssetDenomination (denomination : string) : result error unit :=
  if negb (no_char DelimiterForCombinedKey denomination) then Err imminttypes.ErrInvalidDenom
  else if ValidateDenom denomination then Ok tt else Err imminttypes.ErrInvalidDenom.

Definition ValidateMintDenom (i : string) : result error unit := ValidateRewardAssetDenomination i.

Definition ValidateEpochReward (i : option Int) : result error unit :=
  match i with
  | None => Err imminttypes.ErrNilReward
  | Some v => if v <? 0 then Err imminttypes.ErrNegativeReward else Ok tt
  end.

Definition Params_Validate (p : Params) : result error unit :=
  _ ← ValidateMintDenom (MintDenom p);
  _ ← ValidateEpochReward (EpochReward p);
  _ ← ValidateInflationParam p;
  ValidateEpochIdentifierString (EpochIdentifier p).

Definition Params_Copy (p : Params) : Params := {|
  MintDenom := MintDenom p;
  EpochReward := EpochReward p;
  EpochIdentifier := EpochIdentifier p;
  p_InflationParams := no_inflation;
|}.

Definition is_error {E A} (r : result E A) : bool :=
  match r with Ok _ => false | _ => true end.

Definition OverrideIfRequired (p prevParams : Params) : Params :=
  let overParams := Params_Copy p in
  {| MintDenom :=
       if is_error (ValidateRewardAssetDenomination (MintDenom p))
       then MintDenom prevParams else MintDenom overParams;
     EpochReward :=
       match EpochReward p with
       | None => EpochReward prevParams
       | Some r => if r <? 0 then EpochReward prevParams else EpochReward overParams
       end;
     EpochIdentifier :=
       if is_error (ValidateEpochIdentifierString (EpochIdentifier p))
       then EpochIdentifier prevParams else EpochIdentifier overParams;
     p_InflationParams := p_InflationParams overParams |}.

Definition Params_Equal (p p2 : Params) : bool :=
  match EpochReward p, EpochReward p2 with
  | Some r, Some r2 =>
      bool_decide (MintDenom p = MintDenom p2) && (r =? r2) &&
      bool_decide (EpochIdentifier p = EpochIdentifier p2)
  | _, _ => false
  end.
End Params.

(** ** The keeper *)

Section Keeper.
Context {sdk : Sdk} {B : Type} {bk : BankKeeper B error}.
Implicit Types (es : EpochsState).

Definition GetParams : M (ImmintState B) error Params := gets im_params.

Definition SetParams (params : Params) : M (ImmintState B) error unit :=
  modify (λ s, {| im_params := params; im_bank := im_bank s |}).

(** The mint amount of one epoch and the yearly ratio it comes from. *)
Definition GetEpochMintInfo (ctx : Ctx) es
    : M (ImmintState B) error (option Int * option LegacyDec) :=
  params ← GetParams;
  let blockTimeUnix := Time_Unix (BlockTime ctx) in
  let infl := p_InflationParams params in
  let inflationRatiosNumber := Z.of_nat (length (ip_AnnualInflation infl)) in
  if negb (ip_Enable infl) || (blockTimeUnix <? ip_StartTime infl)
     || (inflationRatiosNumber =? 0)
  then mret (EpochReward params, None)
  else
    let durFromStartTime := blockTimeUnix - ip_StartTime infl in
    let index := Z.quot durFromStartTime SecondsInYear in
    let index := if inflationRatiosNumber <=? index then inflationRatiosNumber - 1 else index in
    match ip_AnnualInflation infl !! Z.to_nat index with
    | None => panic
    | Some None => fail imminttypes.ErrInvalidParams
    | Some (Some inflation) =>
        _ ← fail_if (inflation <? 0) imminttypes.ErrInvalidParams;
        totalSupply ← gets (λ s, bank_GetSupply (im_bank s) (MintDenom params));
        let annualProvisions := dec_MulInt inflation totalSupply in
        match GetEpochInfo (EpochIdentifier params) es with
        | None => fail imminttypes.ErrInvalidParams
        | Some epochInfo =>
            let epochDurationSeconds := Duration_Seconds (ei_Duration epochInfo) in
            _ ← fail_if (epochDurationSeconds <=? 0) imminttypes.ErrInvalidParams;
            let epochNumberInYear := Z.quot SecondsInYear epochDurationSeconds in
            if epochNumberInYear =? 0 then panic
            else
              let epochMintAmount := dec_QuoInt annualProvisions epochNumberInYear in
              mret (Some (dec_TruncateInt epochMintAmount), Some inflation)
        end
    end.

(** A call to the bank keeper. *)
Definition with_bank {A} (m : M B error A) : M (ImmintState B) error A :=
  zoom im_bank (λ b s, {| im_params := im_params s; im_bank := b |}) m.

Context (feeCollectorName authority : string).

Definition MintCoins (denom : string) (amount : Int) : M (ImmintState B) error unit :=
  with_bank (bank_MintCoins ModuleName denom amount).

Definition AddCollectedFees (denom : string) (amount : Int) : M (ImmintState B) error unit :=
  with_bank (bank_SendCoinsFromModuleToModule ModuleName feeCollectorName denom amount).

(** The body of [AfterEpochEnd], whose errors are logged by the wrapper.
    [sdk.NewCoin] panics on a denomination that is not valid. *)
Definition mint_at_epoch_end (ctx : Ctx) es (params : Params) : M (ImmintState B) error unit :=
  info ← GetEpochMintInfo ctx es;
  match info.1 with
  | None => mret tt
  | Some epochMintAmount =>
      if epochMintAmount <=? 0 then mret tt
      else if negb (ValidateDenom (MintDenom params)) then panic
      else
        _ ← MintCoins (MintDenom params) epochMintAmount;
        AddCollectedFees (MintDenom params) epochMintAmount
  end.

(** Errors are logged and dropped; what was written before them stays. *)
Definition log_error {S} (m : M S error unit) : M S Empty_set unit := λ s,
  match m s with
  | (Panic, s') => (Panic, s')
  | (_, s') => (Ok tt, s')
  end.

Definition EpochsHooksWrapper_AfterEpochEnd (ctx : Ctx) (identifier : string) (number : Z) es
    : M (ImmintState B) Empty_set unit :=
  params ← gets im_params;
  if decide (identifier = EpochIdentifier params)
  then log_error (mint_at_epoch_end ctx es params)
  else mret tt.

Definition EpochsHooks : EpochHooks (ImmintState B) := {|
  AfterEpochEnd := EpochsHooksWrapper_AfterEpochEnd;
  BeforeEpochStart := λ _ _ _ _, mret tt;
|}.

Definition UpdateParams (msg_Authority : string) (msg_Params : Params) es
    : M (ImmintState B) error unit :=
  _ ← fail_if (negb (bool_decide (authority = msg_Authority))) imminttypes.ErrInvalidSigner;
  prevParams ← GetParams;
  let overParams := OverrideIfRequired msg_Params prevParams in
  _ ← fail_if (is_error (Params_Validate overParams)) imminttypes.ErrInvalidParams;
  let overParams :=
    match GetEpochInfo (EpochIdentifier overParams) es with
    | Some _ => overParams
    | None => {| MintDenom := MintDenom overParams; EpochReward := EpochReward overParams;
                 EpochIdentifier := EpochIdentifier prevParams;
                 p_InflationParams := p_InflationParams overParams |}
    end in
  SetParams overParams.

(** [panic] when the epoch is not registered *)
Definition immint_InitGenesis (params : Params) es : M (ImmintState B) error unit :=
  _ ← SetParams params;
  match GetEpochInfo (EpochIdentifier params) es with
  | None => panic
  | Some _ => mret tt
  end.

Definition immint_ExportGenesis : M (ImmintState B) error Params := GetParams.
End Keeper.

(** ** The selected ratio *)

Section Facts.
Context {sdk : Sdk} {B : Type} {bk : BankKeeper B error}.
Implicit Types (es : EpochsState) (s : ImmintState B).

(** The whole years elapsed since the start, capped at the last ratio. *)
Definition ratio_index (ctx : Ctx) (infl : InflationParams) : nat :=
  Z.to_nat (Z.min ((Time_Unix (BlockTime ctx) - ip_StartTime infl) / SecondsInYear)
                  (Z.of_nat (length (ip_AnnualInflation infl)) - 1)).

(** Inflation is in force: enabled, started, with a list of ratios. *)
Definition inflation_on (ctx : Ctx) (infl : InflationParams) : Prop :=
  ip_Enable infl = true ∧ ip_StartTime infl ≤ Time_Unix (BlockTime ctx) ∧
  ip_AnnualInflation infl ≠ [].

Lemma ratio_index_code ctx infl :
  inflation_on ctx infl →
  let n := Z.of_nat (length (ip_AnnualInflation infl)) in
  let index := Z.quot (Time_Unix (BlockTime ctx) - ip_StartTime infl) SecondsInYear in
  Z.to_nat (if n <=? index then n - 1 else index) = ratio_index ctx infl.
Proof.
  intros (_ & Hst & _). cbn zeta. unfold ratio_index.
  rewrite Z.quot_div_nonneg by (done || lia).
  case_match; f_equal; [rewrite Z.leb_le in *|rewrite Z.leb_gt in *]; lia.
Qed.

Lemma ratio_index_lt ctx infl :
  inflation_on ctx infl → (ratio_index ctx infl < length (ip_AnnualInflation infl))%nat.
Proof.
  intros (_ & Hst & Hne). unfold ratio_index.
  assert (0 < length (ip_AnnualInflation infl))%nat by (destruct (ip_AnnualInflation infl); [done|cbn; lia]).
  lia.
Qed.

Lemma validate_ratios_lookup l i x :
  validate_ratios l = Ok tt → l !! i = Some x → ∃ r, x = Some r ∧ 0 ≤ r.
Proof.
  revert i. induction l as [|[r|] l IH]; intros i; cbn; [done| |done].
  destruct (Z.ltb_spec r 0); [done|]. intros Hl. destruct i; cbn; [|by apply IH].
  intros [= <-]. eauto.
Qed.

Lemma Params_Validate_Ok p :
  Params_Validate p = Ok tt ↔
  ValidateRewardAssetDenomination (MintDenom p) = Ok tt ∧
  ValidateEpochReward (EpochReward p) = Ok tt ∧ ValidateInflationParam p = Ok tt ∧
  ValidateEpochIdentifierString (EpochIdentifier p) = Ok tt.
Proof.
  unfold Params_Validate, ValidateMintDenom. cbn.
  destruct (ValidateRewardAssetDenomination _) as [[]| |]; cbn; [|naive_solver..].
  destruct (ValidateEpochReward _) as [[]| |]; cbn; [|naive_solver..].
  destruct (ValidateInflationParam _) as [[]| |]; cbn; naive_solver.
Qed.

(** With valid parameters the selected ratio exists and is not negative. *)
Lemma selected_ratio ctx p :
  Params_Validate p = Ok tt → inflation_on ctx (p_InflationParams p) →
  ∃ r, ip_AnnualInflation (p_InflationParams p) !! ratio_index ctx (p_InflationParams p)
         = Some (Some r) ∧ 0 ≤ r.
Proof.
  intros (_ & _ & Hi & _)%Params_Validate_Ok Hon.
  destruct (lookup_lt_is_Some_2 _ _ (ratio_index_lt ctx _ Hon)) as [x Hx].
  unfold ValidateInflationParam in Hi. case_match; [done|].
  destruct (validate_ratios_lookup _ _ _ Hi Hx) as (r & -> & ?). eauto.
Qed.

(** The run of [GetEpochMintInfo] up to the division. *)
Lemma GetEpochMintInfo_run ctx es s r e :
  Params_Validate (im_params s) = Ok tt →
  let infl := p_InflationParams (im_params s) in
  inflation_on ctx infl →
  ip_AnnualInflation infl !! ratio_index ctx infl = Some (Some r) → 0 ≤ r →
  es !! EpochIdentifier (im_params s) = Some e → 0 < Duration_Seconds (ei_Duration e) →
  let n := Z.quot SecondsInYear (Duration_Seconds (ei_Duration e)) in
  GetEpochMintInfo ctx es s =
    if n =? 0 then (Panic, s)
    else (Ok (Some (dec_TruncateInt (dec_QuoInt (dec_MulInt r
                 (bank_GetSupply (im_bank s) (MintDenom (im_params s)))) n)), Some r), s).
Proof.
  intros Hv infl Hon Hr Hr0 He Hd n. unfold GetEpochMintInfo, GetParams, GetEpochInfo.
  go_run. fold infl. rewrite ratio_index_code by done. destruct Hon as (Hen & Hst & Hne).
  rewrite Hen, (proj2 (Z.ltb_ge _ _)) by lia. cbn [negb orb].
  rewrite (proj2 (Z.eqb_neq _ 0)) by (destruct (ip_AnnualInflation infl); [done|cbn; lia]).
  rewrite Hr, (proj2 (Z.ltb_ge r 0)) by done. cbn. rewrite He.
  rewrite (proj2 (Z.leb_gt _ 0)) by done. fold n. by destruct (n =? 0).
Qed.
End Facts.

Section Supply.
Context {sdk : Sdk} {B : Type} {bk : BankKeeper B error} {laws : BankLaws bk}.
Implicit Types (es : EpochsState) (s : ImmintState B).

Definition supply s d : Int := bank_GetSupply (im_bank s) d.

Lemma GetEpochMintInfo_ro ctx es : read_only (GetEpochMintInfo ctx es (bk := bk)).
Proof. unfold GetEpochMintInfo, GetParams. solve_read_only. Qed.

(** The supply added when minting ended with the result [r]. *)
Lemma mint_and_send_supply fee d a s r s' d' :
  (_ ← MintCoins d a; AddCollectedFees fee d a) s = (r, s') →
  im_params s' = im_params s ∧
  (supply s' d' = supply s d' ∨ supply s' d' = supply s d' + (if decide (d' = d) then a else 0)).
Proof.
  unfold MintCoins, AddCollectedFees, with_bank, zoom, supply. go_run.
  destruct (bank_MintCoins ModuleName d a (im_bank s)) as [r1 b1] eqn:H1.
  apply mint_supply with (d' := d') in H1.
  destruct r1 as [[]| |]; cbn.
  - destruct (bank_SendCoinsFromModuleToModule _ _ _ _ b1) as [r2 b2] eqn:H2.
    apply send_supply with (d' := d') in H2. intros [= _ <-]. cbn. split; [done|].
    right. rewrite H2, H1. repeat case_decide; naive_solver.
  - intros [= _ <-]. cbn. split; [done|]. left. rewrite H1, decide_False by naive_solver. lia.
  - intros [= _ <-]. cbn. split; [done|]. left. rewrite H1, decide_False by naive_solver. lia.
Qed.
End Supply.

(** ** Properties *)

(** With inflation in force and valid parameters, an epoch of at most a
    year mints the floor of [ratio * supply / epochs per year], where the ratio
    is the entry of the list for the number of whole years elapsed, the last
    entry once the list is exhausted; the epochs of a year together mint at
    most [ratio * supply]. *)
Theorem GetEpochMintInfo_inflation `{SdkLaws} {B} {bk : BankKeeper B error} ctx es
    (s : ImmintState B) e :
  Params_Validate (im_params s) = Ok tt →
  let infl := p_InflationParams (im_params s) in
  inflation_on ctx infl →
  es !! EpochIdentifier (im_params s) = Some e →
  0 < Duration_Seconds (ei_Duration e) ≤ SecondsInYear →
  let total := bank_GetSupply (im_bank s) (MintDenom (im_params s)) in
  0 ≤ total →
  let n := SecondsInYear / Duration_Seconds (ei_Duration e) in
  ∃ r a, ip_AnnualInflation infl !! ratio_index ctx infl = Some (Some r) ∧
    GetEpochMintInfo ctx es s = (Ok (Some a, Some r), s) ∧
    a = r * total / (n * dec_one) ∧ 0 ≤ a ∧ n * a * dec_one ≤ r * total.
Proof.
  intros Hv infl Hon He [Hd Hyear] total Ht n.
  destruct (selected_ratio ctx _ Hv Hon) as (r & Hr & Hr0).
  assert (Hn : 0 < n) by (apply Z.div_str_pos; lia).
  exists r, (r * total / (n * dec_one)). split; [done|].
  assert (0 ≤ r * total / (n * dec_one)) by (apply Z.div_pos; pose proof dec_one_pos; nia).
  split; [|split; [done|split; [done|]]].
  - rewrite (GetEpochMintInfo_run ctx es s r e) by done.
    rewrite Z.quot_div_nonneg by (unfold SecondsInYear; lia). fold n.
    rewrite (proj2 (Z.eqb_neq n 0)) by lia. fold total.
    rewrite MulInt_exact, QuoInt_trunc, TruncateInt_trunc by lia.
    pose proof dec_one_pos.
    rewrite (Z.quot_div_nonneg (r * total)) by nia.
    rewrite Z.quot_div_nonneg, Z.div_div by (nia || (apply Z.div_pos; nia)). done.
  - pose proof (Z.mul_div_le (r * total) (n * dec_one)). pose proof dec_one_pos. nia.
Qed.

(** C33.  The end of an epoch changes the supply of no denomination but the mint
    denomination, only for the module's own epoch, and adds to it either
    nothing or exactly the positive amount computed by [GetEpochMintInfo]; the
    parameters stay. *)
Theorem AfterEpochEnd_supply `{Sdk} {B} {bk : BankKeeper B error} `{!BankLaws bk} fee ctx
    identifier number es (s : ImmintState B) u s' d :
  EpochsHooksWrapper_AfterEpochEnd fee ctx identifier number es s = (Ok u, s') →
  im_params s' = im_params s ∧
  (supply s' d = supply s d ∨
   d = MintDenom (im_params s) ∧ identifier = EpochIdentifier (im_params s) ∧
   ∃ a ratio, GetEpochMintInfo ctx es s = (Ok (Some a, ratio), s) ∧ 0 < a ∧
     supply s' d = supply s d + a).
Proof.
  unfold EpochsHooksWrapper_AfterEpochEnd. intros Hrun. go_inv.
  case_decide as Hid; [|go_inv; auto]. revert Hrun1.
  unfold log_error, mint_at_epoch_end. unfold mbind, M_bind at 1.
  destruct (GetEpochMintInfo ctx es s) as [r s1] eqn:Hinfo.
  pose proof (GetEpochMintInfo_ro ctx es s) as Hro. rewrite Hinfo in Hro. cbn in Hro. subst s1.
  destruct r as [[[a|] ratio]| |]; cbn; [|by intros [= _ <-]; auto..].
  destruct (Z.leb_spec a 0); cbn; [by intros [= _ <-]; auto|].
  destruct (ValidateDenom _); cbn; [|done].
  fold (mbind (M := M (ImmintState B) error)
    (λ _ : unit, AddCollectedFees fee (MintDenom (im_params s)) a)
    (MintCoins (MintDenom (im_params s)) a)).
  destruct ((MintCoins _ a ≫= _) s) as [r2 s2] eqn:Hmint.
  pose proof (mint_and_send_supply fee _ a s r2 s2 d Hmint) as [Hp Hsup].
  intros Hs'. assert (s' = s2) as -> by (destruct r2; congruence).
  split; [done|]. destruct Hsup as [->|Hsup]; [auto|]. case_decide as Hden.
  - right. eauto 10.
  - left. lia.
Qed.

Lemma OverrideIfRequired_valid `{Sdk} p prev :
  Params_Validate prev = Ok tt → Params_Validate (OverrideIfRequired p prev) = Ok tt.
Proof.
  intros (Hd & Hr & _ & He)%Params_Validate_Ok. apply Params_Validate_Ok.
  unfold OverrideIfRequired; cbn. repeat split.
  - by destruct (ValidateRewardAssetDenomination (MintDenom p)) as [[]| |] eqn:?; cbn.
  - destruct (EpochReward p) as [r|]; [|done]. destruct (Z.ltb_spec r 0); [done|].
    cbn. by rewrite (proj2 (Z.ltb_ge r 0)).
  - by destruct (ValidateEpochIdentifierString (EpochIdentifier p)) as [[]| |] eqn:?; cbn.
Qed.

#[local] Arguments OverrideIfRequired : simpl never.
#[local] Arguments Params_Validate : simpl never.

(** An update of the parameters by the authority always succeeds, whatever
    it contains, and leaves valid parameters whose epoch is registered: each
    field that is missing or not valid keeps its previous value. *)
Theorem UpdateParams_valid `{Sdk} {B} authority p es (s : ImmintState B) :
  Params_Validate (im_params s) = Ok tt → is_Some (es !! EpochIdentifier (im_params s)) →
  ∃ s', UpdateParams authority authority p es s = (Ok tt, s') ∧
    Params_Validate (im_params s') = Ok tt ∧
    is_Some (es !! EpochIdentifier (im_params s')) ∧ im_bank s' = im_bank s.
Proof.
  intros Hv Hreg. pose proof (OverrideIfRequired_valid p _ Hv) as Ho.
  unfold UpdateParams, GetParams, SetParams, GetEpochInfo. go_run.
  rewrite bool_decide_true by done. cbn.
  set (q := OverrideIfRequired p (im_params s)) in *. clearbody q.
  rewrite Ho. cbn. eexists. split; [reflexivity|]. cbn.
  destruct (es !! EpochIdentifier q) eqn:He; cbn; [by rewrite He|].
  split; [|done]. apply Params_Validate_Ok in Hv as (_ & _ & _ & Hid).
  apply Params_Validate_Ok in Ho as (? & ? & ? & _). by apply Params_Validate_Ok.
Qed.

(** An update of the parameters erases the inflation settings: whatever the
    message and the previous parameters hold, inflation is disabled afterwards,
    because [Params.Copy] does not copy [InflationParams]. *)
Theorem UpdateParams_drops_inflation `{Sdk} {B} authority sender p es (s : ImmintState B) u s' :
  UpdateParams authority sender p es s = (Ok u, s') →
  p_InflationParams (im_params s') = no_inflation.
Proof.
  unfold UpdateParams, GetParams, SetParams. intros Hrun. go_inv. cbn.
  by case_match.
Qed.

(** ** Witnesses *)

Definition sample_params : Params := {|
  MintDenom := BaseDenom; EpochReward := Some 20; EpochIdentifier := MinuteEpochID;
  p_InflationParams := {| ip_Enable := true; ip_StartTime := 0;
    ip_AnnualInflation := [Some (dec_one / 10); Some (dec_one / 20)] |} |}.
Definition sample_immint : ImmintState refbank := {|
  im_params := sample_params;
  im_bank := {| rb_accounts := ∅; rb_modules := ∅; rb_supply := {[ BaseDenom := 10 ^ 9 ]} |} |}.
Definition minute_epochs : EpochsState :=
  InitGenesis {| BlockTime := 1; BlockHeight := 1 |} DefaultGenesis ∅.
(** one second after 1 January 1970 *)
Definition sample_ctx : Ctx := {| BlockTime := 62135596801 * 10 ^ 9; BlockHeight := 5 |}.

Lemma sample_inflation_on : inflation_on sample_ctx (p_InflationParams sample_params).
Proof. by vm_compute. Qed.

Definition minute_info : EpochInfo :=
  default (NewGenesisEpochInfo EmptyString 0) (minute_epochs !! MinuteEpochID).

Lemma GetEpochMintInfo_inflation_witness :
  let infl := p_InflationParams (im_params sample_immint) in
  let n := SecondsInYear / Duration_Seconds (ei_Duration minute_info) in
  let total := bank_GetSupply (im_bank sample_immint) (MintDenom (im_params sample_immint)) in
  ∃ r a, ip_AnnualInflation infl !! ratio_index sample_ctx infl = Some (Some r) ∧
    GetEpochMintInfo sample_ctx minute_epochs sample_immint = (Ok (Some a, Some r), sample_immint) ∧
    a = r * total / (n * dec_one) ∧ 0 ≤ a ∧ n * a * dec_one ≤ r * total.
Proof.
  intros infl n total.
  apply (GetEpochMintInfo_inflation sample_ctx minute_epochs sample_immint minute_info);
    [by vm_compute|apply sample_inflation_on|by vm_compute|by vm_compute|by vm_compute].
Defined.

Definition sample_minted : ImmintState refbank :=
  (EpochsHooksWrapper_AfterEpochEnd "fee_collector" sample_ctx MinuteEpochID 1 minute_epochs
     sample_immint).2.

Lemma AfterEpochEnd_supply_witness :
  im_params sample_minted = sample_params ∧
  (supply sample_minted BaseDenom = supply sample_immint BaseDenom ∨
   BaseDenom = BaseDenom ∧ MinuteEpochID = MinuteEpochID ∧
   ∃ a ratio, GetEpochMintInfo sample_ctx minute_epochs sample_immint
       = (Ok (Some a, ratio), sample_immint) ∧ 0 < a ∧
     supply sample_minted BaseDenom = supply sample_immint BaseDenom + a).
Proof.
  apply (AfterEpochEnd_supply "fee_collector" sample_ctx MinuteEpochID 1 minute_epochs
           sample_immint tt sample_minted BaseDenom).
  by vm_compute.
Defined.

Lemma UpdateParams_valid_witness :
  ∃ s', UpdateParams "gov" "gov" zero_params minute_epochs sample_immint = (Ok tt, s') ∧
    Params_Validate (im_params s') = Ok tt ∧
    is_Some (minute_epochs !! EpochIdentifier (im_params s')) ∧
    im_bank s' = im_bank sample_immint.
Proof.
  apply (UpdateParams_valid "gov" zero_params minute_epochs sample_immint); [by vm_compute|].
  by eexists.
Defined.

Lemma UpdateParams_drops_inflation_witness :
  p_InflationParams (im_params
    (UpdateParams "gov" "gov" sample_params minute_epochs sample_immint).2) = no_inflation.
Proof.
  apply (UpdateParams_drops_inflation "gov" "gov" sample_params minute_epochs sample_immint tt).
  by vm_compute.
Defined.

(** An epoch longer than a year makes [GetEpochMintInfo] divide by zero: the
    number of epochs in a year is zero. *)
Lemma mint_panics_on_long_epoch :
  (GetEpochMintInfo sample_ctx
    {[ MinuteEpochID := NewGenesisEpochInfo MinuteEpochID (time_Hour * 24 * 366) ]}
    sample_immint).1 = Panic.
Proof. by vm_compute. Qed.
