(* ===== verification/OperatorTypes.v ===== *)
(** * Data and store keys of x/operator

    types/tx.pb.go (the messages that the stores hold), types/general.go,
    types/utils.go, types/keys.go, types/validation.go, types/params.go,
    types/keys/consensus.go and utils/usd_value.go.  The theorems are that the
    keys of the stores determine what they were made of. *)

From S2P Require Import Prelude Errors Sdk RefSdk KVStore DelegationTypes Assets.

(** ** Data *)

(** cosmos-sdk's x/staking: the description of a validator and its commission. *)
Record Description := {
  de_Moniker : string;
  de_Identity : string;
  de_Website : string;
  de_SecurityContact : string;
  de_Details : string;
}.

Record Commission := {
  co_Rate : option LegacyDec;
  co_MaxRate : option LegacyDec;
  co_MaxChangeRate : option LegacyDec;
  co_UpdateTime : Z;
}.

Record ClientChainEarningAddrInfo := {
  ea_LzClientChainID : Z;
  ea_ClientChainEarningAddr : string;
}.

Record OperatorInfo := {
  oi_OperatorAddr : string;
  oi_Description : Description;
  oi_ClientChainEarningsAddr : option (list ClientChainEarningAddrInfo);
  oi_Commission : Commission;
  oi_DisableCompoundRewards : bool;
}.

Record OptedInfo := {
  op_SlashContract : string;
  op_OptedInHeight : Z;
  op_OptedOutHeight : Z;
  op_Jailed : bool;
  op_JailToggleHeights : list Z;
}.

Record OperatorOptedUSDValue := {
  uv_SelfUSDValue : LegacyDec;
  uv_TotalUSDValue : LegacyDec;
  uv_ActiveUSDValue : LegacyDec;
}.

Record OperatorVotingPower := { vp_OperatorAddr : string; vp_VotingPower : LegacyDec }.

Record VotingPowerSnapshot := {
  vs_TotalVotingPower : LegacyDec;
  vs_OperatorVotingPowers : list OperatorVotingPower;
  vs_LastChangedHeight : Z;
  vs_EpochIdentifier : string;
  vs_EpochNumber : Z;
}.

Record SlashFromUndelegationInfo := {
  su_StakerID : string;
  su_AssetID : string;
  su_Amount : Int;
  su_UndelegationId : Z;
  su_RewardAsset : bool;
}.

Record SlashAssetAmount := { sl_AssetID : string; sl_Amount : Int }.

Record SlashFromUnclaimedRewards := { sr_Avs : string; sr_SlashAssets : list SlashAssetAmount }.

Record SlashExecutionInfo := {
  se_SlashProportion : LegacyDec;
  se_SlashValue : LegacyDec;
  se_SlashUndelegations : list SlashFromUndelegationInfo;
  se_SlashAssetsPool : list SlashAssetAmount;
  se_UndelegationFilterHeight : Z;
  se_HistoricalVotingPower : Z;
  se_SlashUnclaimedRewards : list SlashFromUnclaimedRewards;
}.

Record OperatorSlashInfo := {
  si_SlashContract : string;
  si_SubmittedHeight : Z;
  si_EventHeight : Z;
  si_IsVetoed : bool;
  si_SlashProportion : LegacyDec;
  si_SlashType : Z;
  si_ExecutionInfo : SlashExecutionInfo;
}.

(** [types.OperatorStakingInfo] of general.go *)
Record OperatorStakingInfo := {
  os_Staking : LegacyDec;
  os_SelfStaking : LegacyDec;
  os_StakingAndWaitUnbonding : LegacyDec;
  os_CompoundingUSDValueSources : gmap string (gset string);
}.

(** [types.SlashInputInfo]; the operator is an [sdk.AccAddress]. *)
Record SlashInputInfo := {
  in_IsDogFood : bool;
  in_Power : Z;
  in_SlashType : Z;
  in_Operator : string;
  in_AVSAddr : string;
  in_SlashContract : string;
  in_SlashID : string;
  in_SlashEventHeight : Z;
  in_SlashProportion : LegacyDec;
}.

Record ImpactfulAVSInfo := { ia_AVSAddr : string; ia_OptOutUnbondingRemaining : Z }.

(** [oracletypes.Price] *)
Record Price := { pr_Value : Int; pr_Decimal : Z }.

Record OperatorParams := {
  opp_MinCommissionUpdateInterval : Z;
  opp_MinCommissionRate : option LegacyDec;
}.

Definition DefaultOptedOutHeight : Z := 2 ^ 64 - 1.
Definition InitialEpochNumber : Z := 1.
Definition AddressLength : nat := 20.

Definition usd_zero : OperatorOptedUSDValue :=
  {| uv_SelfUSDValue := 0; uv_TotalUSDValue := 0; uv_ActiveUSDValue := 0 |}.

Definition GetSpecifiedVotingPower (operator : string) (votingPowerSet : list OperatorVotingPower)
    : option OperatorVotingPower :=
  snd <$> list_find (λ vp, vp_OperatorAddr vp = operator) votingPowerSet.

(** ** Validation *)

(** What the module calls of cosmos-sdk's x/staking/types. *)
Class StakingTypes := {
  Description_EnsureLength : Description → result error unit;
  Description_UpdateDescription : Description → Description → result error Description;
  (** [CommissionRates.Validate] *)
  Commission_Validate : Commission → result error unit;
}.

Definition DefaultMinCommissionUpdateInterval : Z := 24 * 3600 * 10 ^ 9.
Definition DefaultMinCommissionRate : LegacyDec := 5 * 10 ^ 16.
(** [time.Unix(0, 0)], in nanoseconds since the zero [time.Time] *)
Definition DefaultCommissionUpdateTime : Z := 62135596800 * 10 ^ 9.

Definition DefaultParams : OperatorParams := {|
  opp_MinCommissionUpdateInterval := DefaultMinCommissionUpdateInterval;
  opp_MinCommissionRate := Some DefaultMinCommissionRate |}.

Definition ValidateNonNegativeDuration (duration : Z) : result error unit :=
  if duration <? 0 then Err operatortypes.ErrNegativeDuration else Ok tt.

Definition ValidateNonNegativeDec (dec : option LegacyDec) : result error unit :=
  match dec with
  | None => Err operatortypes.ErrNegativeDec
  | Some d => if d <? 0 then Err operatortypes.ErrNegativeDec else Ok tt
  end.

Definition OperatorParams_Validate (p : OperatorParams) : result error unit :=
  _ ← ValidateNonNegativeDuration (opp_MinCommissionUpdateInterval p);
  ValidateNonNegativeDec (opp_MinCommissionRate p).

Section Types.
Context {sdk : Sdk}.

Definition OperatorInfo_ValidateBasic {stk : StakingTypes} (info : option OperatorInfo)
    : result error unit :=
  match info with
  | None => Err operatortypes.ErrParameterInvalid
  | Some info =>
      match AccAddressFromBech32 (oi_OperatorAddr info) with
      | None => Err ErrLibrary
      | Some _ =>
          if bool_decide (de_Moniker (oi_Description info) = EmptyString)
          then Err operatortypes.ErrParameterInvalid
          else
            _ ← Description_EnsureLength (oi_Description info);
            let commission := oi_Commission info in
            if negb (is_some (co_Rate commission)) || negb (is_some (co_MaxRate commission))
               || negb (is_some (co_MaxChangeRate commission))
            then Err operatortypes.ErrParameterInvalid
            else Commission_Validate commission
      end
  end.

(** ** USD values (utils/usd_value.go) *)

(** [sdkmath.NewIntWithDecimal] *)
Definition NewIntWithDecimal (n dec : Z) : Int := n * 10 ^ dec.

Definition CalculateUSDValue (assetAmount price : Int) (assetDecimal priceDecimal : Z)
    : LegacyDec :=
  let assetValue := assetAmount * price in
  let assetValueDec := dec_of_int assetValue in
  let divisor := NewIntWithDecimal 1 (assetDecimal + priceDecimal) in
  dec_QuoInt assetValueDec divisor.

(** [LegacyDec.TruncateInt64] panics outside the range of an int64. *)
Definition dec_TruncateInt64 (d : LegacyDec) : result error Z :=
  let t := dec_TruncateInt d in
  if (- 2 ^ 63 <=? t) && (t <? 2 ^ 63) then Ok t else Panic.

(** ** Consensus keys (types/keys/consensus.go)

    A [WrappedConsKey] is an ed25519 key; its bytes determine every other
    representation of it. *)

Definition ToConsAddr (key : string) : string := GetConsAddress key.
Definition ToHex (key : string) : string := hexutil_Encode key.
Definition EqualsWrapped (key other : string) : bool := bool_decide (key = other).

Definition tmKeyFromHex (hex : string) : option string :=
  if negb (String.length hex =? 66)%nat then None else hexutil_Decode hex.

Definition NewWrappedConsKeyFromHex (hex : string) : option string := tmKeyFromHex hex.

(** ** Keys (types/utils.go, types/keys.go)

    The byte of the sub-store is left out: each sub-store is a map of its own. *)

Definition ChainIDWithLenKey (chainID : string) : string :=
  AppendMany [Uint64ToBigEndian (Z.of_nat (String.length chainID)); chainID].

Definition AddrAndChainIDKey (addr chainID : string) : string :=
  AppendMany [addr; ChainIDWithLenKey chainID].

Definition ChainIDAndAddrKey (chainID addr : string) : string :=
  AppendMany [ChainIDWithLenKey chainID; addr].

Definition KeyForVotingPowerSnapshot (avs : string) (height : Z) : string :=
  AppendMany [avs; Uint64ToBigEndian (wrap_uint64 height)].

(** [key[i:]] *)
Definition slice_from (i : nat) (key : string) : string := slice i (String.length key) key.

(** The address as a [common.Address]; the source hands out its hex form. *)
Definition ParseVotingPowerSnapshotKey (key : string) : result error (string * Z) :=
  if negb (String.length key =? AddressLength + ByteLengthForUint64)%nat then Err operatortypes.ErrInvalidKeyLength
  else Ok (slice 0 AddressLength key, wrap_int64 (BigEndianToUint64 (slice_from AddressLength key))).

(** [int(a + b + n)] compared with a length: the sum of uint64 values. *)
Definition sum_length (a b : nat) (n : Z) : Z :=
  wrap_int64 (wrap_uint64 (Z.of_nat a + Z.of_nat b + n)).

Definition ParseKeyForOperatorAndChainIDToConsKey (key : string)
    : result error (string * string) :=
  if (String.length key <? AccAddressLength + ByteLengthForUint64)%nat then Err operatortypes.ErrInvalidKeyLength
  else
    let addr := slice 0 AccAddressLength key in
    let chainIDLen := BigEndianToUint64 (slice AccAddressLength (AccAddressLength + ByteLengthForUint64) key) in
    if negb (Z.of_nat (String.length key) =? sum_length AccAddressLength ByteLengthForUint64 chainIDLen)
    then Err operatortypes.ErrInvalidKeyLength
    else Ok (addr, slice_from (AccAddressLength + ByteLengthForUint64) key).

Definition ParseKeyForOperatorKeyRemoval (key : string) : result error (string * string) :=
  if (String.length key <? AccAddressLength + ByteLengthForUint64)%nat then Err operatortypes.ErrInvalidKeyLength
  else
    let addr := slice 0 AccAddressLength key in
    let chainIDLen := BigEndianToUint64 (slice AccAddressLength (AccAddressLength + ByteLengthForUint64) key) in
    if negb (Z.of_nat (String.length key) =? sum_length AccAddressLength ByteLengthForUint64 chainIDLen)
    then Err operatortypes.ErrInvalidKeyLength
    else Ok (addr, slice_from (AccAddressLength + ByteLengthForUint64) key).

(** Slicing with a length that exceeds the key panics. *)
Definition ParsePrevConsKey (key : string) : result error (string * string) :=
  if (String.length key <? ByteLengthForUint64)%nat then Err operatortypes.ErrInvalidKeyLength
  else
    let chainIDLen := BigEndianToUint64 (slice 0 ByteLengthForUint64 key) in
    let stop := wrap_uint64 (8 + chainIDLen) in
    if Z.of_nat (String.length key) <? wrap_int64 stop
    then Err operatortypes.ErrInvalidKeyLength
    else if (stop <? 8) || (Z.of_nat (String.length key) <? stop) then Panic
    else
      let chainID := slice ByteLengthForUint64 (Z.to_nat stop) key in
      let addr := slice_from (Z.to_nat stop) key in
      if (String.length addr =? 0)%nat then Err operatortypes.ErrMissingAddress
      else Ok (chainID, addr).

Definition IterateOperatorsForAVSPrefix (avsAddr : string) : string := avsAddr +:+ "/".
End Types.

#[global] Arguments ChainIDWithLenKey : simpl never.
#[global] Arguments AddrAndChainIDKey : simpl never.
#[global] Arguments ChainIDAndAddrKey : simpl never.
#[global] Arguments KeyForVotingPowerSnapshot : simpl never.

(** ** Facts about keys *)

(** A string whose length fits an int64, as every Go string's does. *)
Definition go_string (s : string) : Prop := Z.of_nat (String.length s) < 2 ^ 63 - 2 ^ 10.

#[export] Instance go_string_dec s : Decision (go_string s).
Proof. unfold go_string. apply _. Defined.

Lemma slice_from_app s t i : i = String.length s → slice_from i (s +:+ t) = t.
Proof.
  intros ->. unfold slice_from. rewrite <-(app_empty_r t) at 2.
  apply slice_middle; [done|]. by rewrite length_app_str.
Qed.

Lemma slice_0_app s t i : i = String.length s → slice 0 i (s +:+ t) = s.
Proof. intros ->. apply (slice_middle _ _ EmptyString); done. Qed.

Section KeyFacts.
Context `{SdkLaws}.

Lemma go_string_u64 s : go_string s → is_u64 (Z.of_nat (String.length s)).
Proof. unfold go_string, is_u64. lia. Qed.

Lemma ChainIDWithLenKey_eq c :
  ChainIDWithLenKey c = Uint64ToBigEndian (Z.of_nat (String.length c)) +:+ c.
Proof. unfold ChainIDWithLenKey. cbn. by rewrite app_empty_r. Qed.

Lemma length_chain_key c : String.length (ChainIDWithLenKey c) = (8 + String.length c)%nat.
Proof. by rewrite ChainIDWithLenKey_eq, length_app_str, u64_length. Qed.

Lemma AddrAndChainIDKey_eq a c : AddrAndChainIDKey a c = a +:+ ChainIDWithLenKey c.
Proof. unfold AddrAndChainIDKey. cbn. by rewrite app_empty_r. Qed.

Lemma ChainIDAndAddrKey_eq c a : ChainIDAndAddrKey c a = ChainIDWithLenKey c +:+ a.
Proof. unfold ChainIDAndAddrKey. cbn. by rewrite app_empty_r. Qed.

Lemma chain_key_app_inj c c' t t' :
  go_string c → go_string c' →
  ChainIDWithLenKey c +:+ t = ChainIDWithLenKey c' +:+ t' → c = c' ∧ t = t'.
Proof.
  rewrite !ChainIDWithLenKey_eq, !app_assoc_str. intros Hc%go_string_u64 Hc'%go_string_u64 Heq.
  apply app_inj_len in Heq as [Hlen Heq]; [|by rewrite !u64_length].
  assert (String.length c = String.length c').
  { apply (f_equal BigEndianToUint64) in Hlen. rewrite !u64_roundtrip in Hlen by done. lia. }
  by apply app_inj_len in Heq.
Qed.

Lemma ChainIDAndAddrKey_inj c a c' a' :
  go_string c → go_string c' →
  ChainIDAndAddrKey c a = ChainIDAndAddrKey c' a' → c = c' ∧ a = a'.
Proof. rewrite !ChainIDAndAddrKey_eq. apply chain_key_app_inj. Qed.

Lemma AddrAndChainIDKey_inj a c a' c' :
  String.length a = String.length a' → go_string c → go_string c' →
  AddrAndChainIDKey a c = AddrAndChainIDKey a' c' → a = a' ∧ c = c'.
Proof.
  rewrite !AddrAndChainIDKey_eq. intros Hlen Hc Hc' [-> Heq]%app_inj_len; [|done].
  split; [done|]. rewrite <-(app_empty_r (ChainIDWithLenKey c)) in Heq.
  rewrite <-(app_empty_r (ChainIDWithLenKey c')) in Heq.
  by apply chain_key_app_inj in Heq as [].
Qed.

Lemma addr_chain_key_parts a c :
  String.length a = AccAddressLength → go_string c →
  let key := AddrAndChainIDKey a c in
  (String.length key <? AccAddressLength + ByteLengthForUint64)%nat = false ∧
  slice 0 AccAddressLength key = a ∧
  BigEndianToUint64 (slice AccAddressLength (AccAddressLength + ByteLengthForUint64) key) =
    Z.of_nat (String.length c) ∧
  Z.of_nat (String.length key) =
    sum_length AccAddressLength ByteLengthForUint64 (Z.of_nat (String.length c)) ∧
  slice_from (AccAddressLength + ByteLengthForUint64) key = c.
Proof.
  intros Ha Hc key. pose proof (go_string_u64 _ Hc).
  assert (Hk : key = a +:+ (Uint64ToBigEndian (Z.of_nat (String.length c)) +:+ c)).
  { unfold key. by rewrite AddrAndChainIDKey_eq, ChainIDWithLenKey_eq. }
  assert (Hlen : String.length key = (20 + (8 + String.length c))%nat).
  { by rewrite Hk, !length_app_str, u64_length, Ha. }
  split_and!.
  - rewrite Hlen. apply Nat.ltb_ge. unfold AccAddressLength, ByteLengthForUint64. lia.
  - rewrite Hk. by apply slice_0_app.
  - rewrite Hk, (slice_middle _ _ a); [by apply u64_roundtrip|done|]. by rewrite u64_length, Ha.
  - rewrite Hlen. unfold sum_length, AccAddressLength, ByteLengthForUint64, go_string in *.
    rewrite wrap_uint64_id, wrap_int64_id by lia. lia.
  - rewrite Hk, <-app_assoc_str. apply slice_from_app. by rewrite length_app_str, u64_length, Ha.
Qed.

Lemma ParseKeyForOperatorAndChainIDToConsKey_key a c :
  String.length a = AccAddressLength → go_string c →
  ParseKeyForOperatorAndChainIDToConsKey (AddrAndChainIDKey a c) = Ok (a, c).
Proof.
  intros Ha Hc. destruct (addr_chain_key_parts a c Ha Hc) as (H1 & H2 & H3 & H4 & H5).
  unfold ParseKeyForOperatorAndChainIDToConsKey. rewrite H1, H2, H3, <-H4, H5.
  by rewrite Z.eqb_refl.
Qed.

Lemma ParseKeyForOperatorKeyRemoval_key a c :
  String.length a = AccAddressLength → go_string c →
  ParseKeyForOperatorKeyRemoval (AddrAndChainIDKey a c) = Ok (a, c).
Proof. apply ParseKeyForOperatorAndChainIDToConsKey_key. Qed.

Lemma ParsePrevConsKey_key c a :
  go_string c → a ≠ EmptyString → ParsePrevConsKey (ChainIDAndAddrKey c a) = Ok (c, a).
Proof.
  intros Hc Ha. pose proof (go_string_u64 _ Hc). unfold ParsePrevConsKey.
  rewrite ChainIDAndAddrKey_eq, ChainIDWithLenKey_eq, app_assoc_str.
  rewrite (slice_0_app _ _ ByteLengthForUint64) by by rewrite u64_length.
  rewrite u64_roundtrip by done. rewrite !length_app_str, !u64_length. unfold go_string in Hc.
  rewrite wrap_uint64_id, wrap_int64_id by lia.
  rewrite (proj2 (Nat.ltb_ge _ _)) by (unfold ByteLengthForUint64; lia).
  rewrite (proj2 (Z.ltb_ge _ _)) by lia. rewrite (proj2 (Z.ltb_ge _ 8)) by lia. cbn [orb].
  rewrite (slice_middle ByteLengthForUint64 _ (Uint64ToBigEndian _) c)
    by (rewrite ?u64_length; unfold ByteLengthForUint64; lia).
  rewrite <-app_assoc_str, slice_from_app by (rewrite length_app_str, u64_length; lia).
  destruct a; [done|]. done.
Qed.

(** ** The keys of the voting power snapshots *)

Definition is_i64_pos (h : Z) : Prop := 0 ≤ h < 2 ^ 63.

Lemma snapshot_key_eq a h :
  is_i64_pos h → KeyForVotingPowerSnapshot a h = a +:+ Uint64ToBigEndian h.
Proof.
  intros [? ?]. unfold KeyForVotingPowerSnapshot. cbn. by rewrite app_empty_r, wrap_uint64_id by lia.
Qed.

Lemma ParseVotingPowerSnapshotKey_key a h :
  String.length a = AddressLength → is_i64_pos h →
  ParseVotingPowerSnapshotKey (KeyForVotingPowerSnapshot a h) = Ok (a, h).
Proof.
  intros Ha Hh. rewrite snapshot_key_eq by done. unfold ParseVotingPowerSnapshotKey.
  rewrite length_app_str, u64_length, Ha, Nat.eqb_refl. cbn [negb].
  rewrite slice_0_app, slice_from_app, u64_roundtrip by (done || (unfold is_i64_pos, is_u64 in *; lia)).
  by rewrite wrap_int64_id by (unfold is_i64_pos in *; lia).
Qed.

Lemma snapshot_key_inj a h h' :
  is_i64_pos h → is_i64_pos h' →
  KeyForVotingPowerSnapshot a h = KeyForVotingPowerSnapshot a h' → h = h'.
Proof.
  intros Hh Hh'. rewrite !snapshot_key_eq by done. intros [_ Heq]%app_inj_len; [|done].
  apply (f_equal BigEndianToUint64) in Heq.
  by rewrite !u64_roundtrip in Heq by (unfold is_i64_pos, is_u64 in *; lia).
Qed.

(** The byte order of the keys of an AVS is the order of the heights. *)
Lemma snapshot_key_le a h h' :
  is_i64_pos h → is_i64_pos h' →
  String.le (KeyForVotingPowerSnapshot a h) (KeyForVotingPowerSnapshot a h') → h ≤ h'.
Proof.
  intros Hh Hh' Hle. destruct (decide (h ≤ h')) as [|Hgt]; [done|exfalso].
  assert (h = h'); [|lia]. apply (snapshot_key_inj a); [done..|].
  apply (anti_symm String.le); [done|]. rewrite !snapshot_key_eq by done. apply le_app.
  apply u64_sortable; unfold is_i64_pos, is_u64 in *; lia.
Qed.
End KeyFacts.
