(* ===== verification/OperatorStore.v ===== *)
(** * The store of x/operator

    The sub-stores of the module, in four groups: the operators and what they
    opted into, the consensus keys, the USD values and the voting power
    snapshots.  keeper/operator.go (registration and opted info),
    keeper/freeze.go, keeper/commission.go, keeper/params.go and
    keeper/operator_slash_state.go.

    The theorems on the life of a registration are in OperatorRegistry.v. *)

From S2P Require Import Prelude Errors Sdk RefSdk KVStore DelegationTypes Assets OperatorTypes.

(** ** The store *)

Record InfoState := {
  (** the operators, by address bytes *)
  operatorInfos : gmap string OperatorInfo;
  (** operator/AVS -> OptedInfo *)
  optedInfos : gmap string OptedInfo;
  (** operator/AVS/slashID -> OperatorSlashInfo *)
  slashInfos : gmap string OperatorSlashInfo;
  (** the frozen operators, by address bytes *)
  frozenOperators : gmap string unit;
  (** the parameters, once set *)
  operatorParams : option OperatorParams;
}.

Record KeyState := {
  (** address and chain ID -> consensus key *)
  consKeys : gmap string string;
  (** chain ID and address -> consensus key *)
  chainConsKeys : gmap string string;
  (** chain ID and consensus address -> operator address *)
  consAddrs : gmap string string;
  (** chain ID and address -> previous consensus key *)
  prevConsKeys : gmap string string;
  (** address and chain ID of the removals under way *)
  keyRemovals : gmap string unit;
}.

Record USDState := {
  (** AVS -> USD value *)
  avsUSDValues : gmap string LegacyDec;
  (** AVS/operator -> USD values *)
  operatorUSDValues : gmap string OperatorOptedUSDValue;
  (** epoch/operator/asset -> USD value *)
  assetUSDValues : gmap string LegacyDec;
  (** AVS -> its assets at the last update, if they changed since *)
  avsAssets : gmap string (list string);
  (** AVS/operator/source AVS/denomination -> USD value *)
  rewardUSDValues : gmap string LegacyDec;
}.

Record SnapshotState := {
  (** AVS address and height -> VotingPowerSnapshot *)
  snapshots : gmap string VotingPowerSnapshot;
  (** AVS -> the height of the last change *)
  snapshotHelpers : gmap string Z;
}.

Record OperatorState := {
  st_info : InfoState;
  st_keys : KeyState;
  st_usd : USDState;
  st_snap : SnapshotState;
}.

(** ** Writing one field *)

Definition set_operatorInfos f (s : InfoState) : InfoState := {|
  operatorInfos := f (operatorInfos s); optedInfos := optedInfos s; slashInfos := slashInfos s;
  frozenOperators := frozenOperators s; operatorParams := operatorParams s |}.
Definition set_optedInfos f (s : InfoState) : InfoState := {|
  operatorInfos := operatorInfos s; optedInfos := f (optedInfos s); slashInfos := slashInfos s;
  frozenOperators := frozenOperators s; operatorParams := operatorParams s |}.
Definition set_slashInfos f (s : InfoState) : InfoState := {|
  operatorInfos := operatorInfos s; optedInfos := optedInfos s; slashInfos := f (slashInfos s);
  frozenOperators := frozenOperators s; operatorParams := operatorParams s |}.
Definition set_frozenOperators f (s : InfoState) : InfoState := {|
  operatorInfos := operatorInfos s; optedInfos := optedInfos s; slashInfos := slashInfos s;
  frozenOperators := f (frozenOperators s); operatorParams := operatorParams s |}.
Definition set_operatorParams f (s : InfoState) : InfoState := {|
  operatorInfos := operatorInfos s; optedInfos := optedInfos s; slashInfos := slashInfos s;
  frozenOperators := frozenOperators s; operatorParams := f (operatorParams s) |}.

Definition set_consKeys f (s : KeyState) : KeyState := {|
  consKeys := f (consKeys s); chainConsKeys := chainConsKeys s; consAddrs := consAddrs s;
  prevConsKeys := prevConsKeys s; keyRemovals := keyRemovals s |}.
Definition set_chainConsKeys f (s : KeyState) : KeyState := {|
  consKeys := consKeys s; chainConsKeys := f (chainConsKeys s); consAddrs := consAddrs s;
  prevConsKeys := prevConsKeys s; keyRemovals := keyRemovals s |}.
Definition set_consAddrs f (s : KeyState) : KeyState := {|
  consKeys := consKeys s; chainConsKeys := chainConsKeys s; consAddrs := f (consAddrs s);
  prevConsKeys := prevConsKeys s; keyRemovals := keyRemovals s |}.
Definition set_prevConsKeys f (s : KeyState) : KeyState := {|
  consKeys := consKeys s; chainConsKeys := chainConsKeys s; consAddrs := consAddrs s;
  prevConsKeys := f (prevConsKeys s); keyRemovals := keyRemovals s |}.
Definition set_keyRemovals f (s : KeyState) : KeyState := {|
  consKeys := consKeys s; chainConsKeys := chainConsKeys s; consAddrs := consAddrs s;
  prevConsKeys := prevConsKeys s; keyRemovals := f (keyRemovals s) |}.

Definition set_avsUSDValues f (s : USDState) : USDState := {|
  avsUSDValues := f (avsUSDValues s); operatorUSDValues := operatorUSDValues s;
  assetUSDValues := assetUSDValues s; avsAssets := avsAssets s;
  rewardUSDValues := rewardUSDValues s |}.
Definition set_operatorUSDValues f (s : USDState) : USDState := {|
  avsUSDValues := avsUSDValues s; operatorUSDValues := f (operatorUSDValues s);
  assetUSDValues := assetUSDValues s; avsAssets := avsAssets s;
  rewardUSDValues := rewardUSDValues s |}.
Definition set_assetUSDValues f (s : USDState) : USDState := {|
  avsUSDValues := avsUSDValues s; operatorUSDValues := operatorUSDValues s;
  assetUSDValues := f (assetUSDValues s); avsAssets := avsAssets s;
  rewardUSDValues := rewardUSDValues s |}.
Definition set_avsAssets f (s : USDState) : USDState := {|
  avsUSDValues := avsUSDValues s; operatorUSDValues := operatorUSDValues s;
  assetUSDValues := assetUSDValues s; avsAssets := f (avsAssets s);
  rewardUSDValues := rewardUSDValues s |}.
Definition set_rewardUSDValues f (s : USDState) : USDState := {|
  avsUSDValues := avsUSDValues s; operatorUSDValues := operatorUSDValues s;
  assetUSDValues := assetUSDValues s; avsAssets := avsAssets s;
  rewardUSDValues := f (rewardUSDValues s) |}.

Definition set_snapshots f (s : SnapshotState) : SnapshotState := {|
  snapshots := f (snapshots s); snapshotHelpers := snapshotHelpers s |}.
Definition set_snapshotHelpers f (s : SnapshotState) : SnapshotState := {|
  snapshots := snapshots s; snapshotHelpers := f (snapshotHelpers s) |}.

Definition put_info (x : InfoState) (s : OperatorState) : OperatorState := {|
  st_info := x; st_keys := st_keys s; st_usd := st_usd s; st_snap := st_snap s |}.
Definition put_keys (x : KeyState) (s : OperatorState) : OperatorState := {|
  st_info := st_info s; st_keys := x; st_usd := st_usd s; st_snap := st_snap s |}.
Definition put_usd (x : USDState) (s : OperatorState) : OperatorState := {|
  st_info := st_info s; st_keys := st_keys s; st_usd := x; st_snap := st_snap s |}.
Definition put_snap (x : SnapshotState) (s : OperatorState) : OperatorState := {|
  st_info := st_info s; st_keys := st_keys s; st_usd := st_usd s; st_snap := x |}.

Definition empty_operator : OperatorState := {|
    st_info := {| operatorInfos := ∅; optedInfos := ∅; slashInfos := ∅; frozenOperators := ∅;
    operatorParams := None |};
    st_keys := {| consKeys := ∅; chainConsKeys := ∅; consAddrs := ∅; prevConsKeys := ∅;
    keyRemovals := ∅ |};
    st_usd := {| avsUSDValues := ∅; operatorUSDValues := ∅; assetUSDValues := ∅; avsAssets := ∅;
    rewardUSDValues := ∅ |};
    st_snap := {| snapshots := ∅; snapshotHelpers := ∅ |} |}.

(** ** Operators (keeper/operator.go) *)

Section Operators.
Context {sdk : Sdk}.

Definition setOperatorInfo (opAccAddr : string) (info : OperatorInfo) : M InfoState error unit :=
  modify (set_operatorInfos (insert opAccAddr info)).

Definition IsOperator (addr : string) (s : InfoState) : bool :=
  bool_decide (is_Some (operatorInfos s !! addr)).

Definition GetOperatorInfo (addr : string) : M InfoState error OperatorInfo :=
  match AccAddressFromBech32 addr with
  | None => fail ErrLibrary
  | Some opAccAddr =>
      value ← gets (λ s, operatorInfos s !! opAccAddr);
      match value with
      | None => fail operatortypes.ErrNoKeyInTheStore
      | Some ret => mret ret
      end
  end.

(** The callback runs on [S]; true ends the iteration. *)
Definition IterateOperators {S} (get : S → InfoState)
    (opFunc : string → OperatorInfo → M S error bool) : M S error unit :=
  entries ← gets (λ s, prefix_iterator EmptyString (operatorInfos (get s)));
  for_each_break entries (λ kv, opFunc kv.1 kv.2).

Definition HasOperatorName (name : string) : M InfoState error bool :=
  with_var false (IterateOperators fst (λ _ operatorInfo,
    if bool_decide (de_Moniker (oi_Description operatorInfo) = name)
    then _ ← modify (λ s, (s.1, true)); mret true
    else mret false)).

Definition AllOperators (s : InfoState) : list OperatorInfo :=
  (prefix_iterator EmptyString (operatorInfos s)).*2.

Definition IsCompoundRewardsDisabled (addr : string) : M InfoState error bool :=
  operatorInfo ← GetOperatorInfo addr;
  mret (oi_DisableCompoundRewards operatorInfo).

(** ** Frozen operators (keeper/freeze.go) *)

Definition IsOperatorFrozen (addr : string) (s : InfoState) : bool :=
  bool_decide (is_Some (frozenOperators s !! addr)).

Definition IsOperatorFrozenStr (addr : string) (s : InfoState) : bool :=
  match AccAddressFromBech32 addr with
  | None => false
  | Some addrBech32 => IsOperatorFrozen addrBech32 s
  end.

Definition FreezeOperator (addr : string) : M InfoState error unit :=
  isOperator ← gets (IsOperator addr);
  _ ← fail_if (negb isOperator) operatortypes.ErrNoSuchOperator;
  frozen ← gets (IsOperatorFrozen addr);
  _ ← fail_if frozen operatortypes.ErrOperatorFrozenStateMismatch;
  modify (set_frozenOperators (insert addr tt)).

Definition UnfreezeOperator (addr : string) : M InfoState error unit :=
  isOperator ← gets (IsOperator addr);
  _ ← fail_if (negb isOperator) operatortypes.ErrNoSuchOperator;
  frozen ← gets (IsOperatorFrozen addr);
  _ ← fail_if (negb frozen) operatortypes.ErrOperatorFrozenStateMismatch;
  modify (set_frozenOperators (delete addr)).

Definition GetAllFrozenOperators (s : InfoState) : list string :=
  AccAddress_String <$> (prefix_iterator EmptyString (frozenOperators s)).*1.

(** ** Parameters (keeper/params.go) *)

Definition GetParams (s : InfoState) : OperatorParams := default DefaultParams (operatorParams s).

Definition SetParams (params : OperatorParams) : M InfoState error unit :=
  modify (set_operatorParams (λ _, Some params)).

Definition GetMinCommissionUpdateInterval (s : InfoState) : Z :=
  opp_MinCommissionUpdateInterval (GetParams s).
Definition GetMinCommissionRate (s : InfoState) : option LegacyDec :=
  opp_MinCommissionRate (GetParams s).

(** ** Registration *)

Section Register.
Context {stk : StakingTypes} (ctx : Ctx).

Definition with_commission (info : OperatorInfo) (c : Commission) : OperatorInfo := {|
  oi_OperatorAddr := oi_OperatorAddr info; oi_Description := oi_Description info;
  oi_ClientChainEarningsAddr := oi_ClientChainEarningsAddr info; oi_Commission := c;
  oi_DisableCompoundRewards := oi_DisableCompoundRewards info |}.

(** The loop over [EarningInfoList]; [assets] is the store the assets keeper
    reads. *)
Definition check_earnings (assets : AssetsState) (l : list ClientChainEarningAddrInfo)
    : M InfoState error unit :=
  for_each l (λ data,
    _ ← fail_if (bool_decide (ea_ClientChainEarningAddr data = EmptyString))
          operatortypes.ErrParameterInvalid;
    fail_if (negb (ClientChainExists (ea_LzClientChainID data) assets))
      operatortypes.ErrParameterInvalid).

Definition RegisterOperator (assets : AssetsState) (info : option OperatorInfo)
    : M InfoState error unit :=
  match info with
  | None => fail operatortypes.ErrParameterInvalid
  | Some info =>
      _ ← lift_result (OperatorInfo_ValidateBasic (Some info));
      let commission := oi_Commission info in
      let info := if co_UpdateTime commission =? DefaultCommissionUpdateTime
                  then with_commission info {|
                         co_Rate := co_Rate commission; co_MaxRate := co_MaxRate commission;
                         co_MaxChangeRate := co_MaxChangeRate commission;
                         co_UpdateTime := BlockTime ctx |}
                  else info in
      match AccAddressFromBech32 (oi_OperatorAddr info) with
      | None => fail ErrLibrary
      | Some opAccAddr =>
          isOperator ← gets (IsOperator opAccAddr);
          _ ← fail_if isOperator operatortypes.ErrOperatorAlreadyExists;
          has ← HasOperatorName (de_Moniker (oi_Description info));
          _ ← fail_if has operatortypes.ErrOperatorNameAlreadyExists;
          _ ← (match oi_ClientChainEarningsAddr info with
               | None => mret tt
               | Some l => check_earnings assets l
               end);
          setOperatorInfo opAccAddr info
      end
  end.

Definition empty_description : Description := {|
  de_Moniker := ""; de_Identity := ""; de_Website := ""; de_SecurityContact := "";
  de_Details := "" |}.

Definition Description_empty (d : Description) : bool :=
  bool_decide (de_Moniker d = EmptyString) && bool_decide (de_Identity d = EmptyString) &&
  bool_decide (de_Website d = EmptyString) && bool_decide (de_SecurityContact d = EmptyString) &&
  bool_decide (de_Details d = EmptyString).

Definition EditOperator (opAccAddr : string) (description : Description)
    : M InfoState error unit :=
  _ ← fail_if (Description_empty description) operatortypes.ErrParameterInvalid;
  info ← GetOperatorInfo (AccAddress_String opAccAddr);
  frozen ← gets (IsOperatorFrozen opAccAddr);
  _ ← fail_if frozen operatortypes.ErrOperatorIsFrozen;
  has ← HasOperatorName (de_Moniker description);
  _ ← fail_if has operatortypes.ErrOperatorNameAlreadyExists;
  finalDescription ← lift_result (Description_UpdateDescription (oi_Description info) description);
  let info := {| oi_OperatorAddr := oi_OperatorAddr info; oi_Description := finalDescription;
    oi_ClientChainEarningsAddr := oi_ClientChainEarningsAddr info;
    oi_Commission := oi_Commission info;
    oi_DisableCompoundRewards := oi_DisableCompoundRewards info |} in
  _ ← lift_result (OperatorInfo_ValidateBasic (Some info));
  setOperatorInfo opAccAddr info.

Definition UpdateRewardCompoundingFlag (opAccAddr : string) (disableCompoundRewards : bool)
    : M InfoState error unit :=
  info ← GetOperatorInfo (AccAddress_String opAccAddr);
  frozen ← gets (IsOperatorFrozen opAccAddr);
  _ ← fail_if frozen operatortypes.ErrOperatorIsFrozen;
  if Bool.eqb (oi_DisableCompoundRewards info) disableCompoundRewards then mret tt
  else setOperatorInfo opAccAddr {| oi_OperatorAddr := oi_OperatorAddr info;
    oi_Description := oi_Description info;
    oi_ClientChainEarningsAddr := oi_ClientChainEarningsAddr info;
    oi_Commission := oi_Commission info;
    oi_DisableCompoundRewards := disableCompoundRewards |}.

(** ** Commission (keeper/commission.go) *)

(** A decimal that must have been set. *)
Definition dec_value (d : option LegacyDec) : M InfoState error LegacyDec :=
  match d with Some v => mret v | None => panic end.

Definition ValidateAndUpdateCommissionRate (addr : string) (rate : LegacyDec)
    : M InfoState error unit :=
  operatorInfo ← GetOperatorInfo (AccAddress_String addr);
  frozen ← gets (IsOperatorFrozen addr);
  _ ← fail_if frozen operatortypes.ErrOperatorIsFrozen;
  min ← gets GetMinCommissionRate;
  minCommissionRate ← dec_value min;
  _ ← fail_if (rate <? minCommissionRate) stakingtypes.ErrCommissionLTMinRate;
  let commission := oi_Commission operatorInfo in
  interval ← gets GetMinCommissionUpdateInterval;
  _ ← fail_if (BlockTime ctx - co_UpdateTime commission <? interval)
        stakingtypes.ErrCommissionUpdateTime;
  _ ← fail_if (rate <? 0) stakingtypes.ErrCommissionNegative;
  maxRate ← dec_value (co_MaxRate commission);
  _ ← fail_if (maxRate <? rate) stakingtypes.ErrCommissionGTMaxRate;
  oldRate ← dec_value (co_Rate commission);
  maxChangeRate ← dec_value (co_MaxChangeRate commission);
  _ ← fail_if (maxChangeRate <? rate - oldRate) stakingtypes.ErrCommissionGTMaxChangeRate;
  setOperatorInfo addr (with_commission operatorInfo {|
    co_Rate := Some rate; co_MaxRate := co_MaxRate commission;
    co_MaxChangeRate := co_MaxChangeRate commission; co_UpdateTime := BlockTime ctx |}).
End Register.
End Operators.

(** ** Opted info (keeper/operator.go) *)

Section Opted.
Context {sdk : Sdk}.

Definition opted_key (operatorAddr avsAddr : string) : string :=
  GetJoinedStoreKey [operatorAddr; ToLower avsAddr].

(** [handleFunc] changes the info in place. *)
Definition HandleOptedInfo (operatorAddr avsAddr : string) (handleFunc : OptedInfo → OptedInfo)
    : M InfoState error unit :=
  match AccAddressFromBech32 operatorAddr with
  | None => fail ErrLibrary
  | Some _ =>
      let infoKey := opted_key operatorAddr avsAddr in
      value ← gets (λ s, optedInfos s !! infoKey);
      match value with
      | None => fail operatortypes.ErrNoKeyInTheStore
      | Some info => modify (set_optedInfos (insert infoKey (handleFunc info)))
      end
  end.

Definition SetOptedInfo (operatorAddr avsAddr : string) (info : OptedInfo)
    : M InfoState error unit :=
  match AccAddressFromBech32 operatorAddr with
  | None => fail assetstypes.ErrInvalidOperatorAddr
  | Some _ => modify (set_optedInfos (insert (opted_key operatorAddr avsAddr) info))
  end.

(** A query: the state it reads is an argument. *)
Definition GetOptedInfo (operatorAddr avsAddr : string) (s : InfoState)
    : result error OptedInfo :=
  match AccAddressFromBech32 operatorAddr with
  | None => Err ErrLibrary
  | Some _ =>
      match optedInfos s !! opted_key operatorAddr avsAddr with
      | None => Err operatortypes.ErrNoKeyInTheStore
      | Some ret => Ok ret
      end
  end.

Definition IsOptedIn (operatorAddr avsAddr : string) (s : InfoState) : bool :=
  match GetOptedInfo operatorAddr avsAddr s with
  | Ok optedInfo => op_OptedOutHeight optedInfo =? DefaultOptedOutHeight
  | _ => false
  end.

Definition IsJailed (operatorAddr avsAddr : string) (s : InfoState) : bool :=
  match GetOptedInfo operatorAddr avsAddr s with
  | Ok optedInfo => op_Jailed optedInfo
  | _ => false
  end.

(** [MustAccAddressFromBech32] panics; it is reached when the operator is opted
    in and not jailed. *)
Definition IsOptedInAndNotJailed (operatorAddr avsAddr : string) (s : InfoState)
    : result error bool :=
  if IsOptedIn operatorAddr avsAddr s && negb (IsJailed operatorAddr avsAddr s) then
    match AccAddressFromBech32 operatorAddr with
    | None => Panic
    | Some addr => Ok (negb (IsOperatorFrozen addr s))
    end
  else Ok false.

(** The callback returns [(isBreak, err)] and may update the captured [v]. *)
Fixpoint iterate_opt {V} (opFunc : string → OptedInfo → V → result error (bool * V))
    (entries : list (string * OptedInfo)) (v : V) : result error V :=
  match entries with
  | [] => Ok v
  | (key, optedInfo) :: entries =>
      r ← opFunc key optedInfo v;
      if (r.1 : bool) then Ok r.2 else iterate_opt opFunc entries r.2
  end.

Definition IterateOptInfo {V} (iteratePrefix : string)
    (opFunc : string → OptedInfo → V → result error (bool * V)) (v : V) (s : InfoState)
    : result error V :=
  iterate_opt opFunc (prefix_iterator iteratePrefix (optedInfos s)) v.

(** [keys[i]] of a parsed key. *)
Definition nth_key (i : nat) (keys : list string) : result error string :=
  match keys !! i with Some k => Ok k | None => Panic end.

Definition GetOptedInAVSForOperator (operatorAddr : string) (s : InfoState)
    : result error (list string) :=
  match AccAddressFromBech32 operatorAddr with
  | None => Err operatortypes.ErrParameterInvalid
  | Some _ =>
      IterateOptInfo operatorAddr (λ key optedInfo avsList,
        if op_OptedOutHeight optedInfo =? DefaultOptedOutHeight then
          keys ← ParseJoinedKeyWithCount key 2;
          avs ← nth_key 1 keys;
          Ok (false, avsList ++ [avs])
        else Ok (false, avsList)) [] s
  end.

Definition GetOptedInOperatorListByAVS (avsAddr : string) (s : InfoState)
    : result error (list string) :=
  IterateOptInfo EmptyString (λ key optedInfo operatorList,
    if op_OptedOutHeight optedInfo =? DefaultOptedOutHeight then
      keys ← ParseJoinedKeyWithCount key 2;
      avs ← nth_key 1 keys;
      operator ← nth_key 0 keys;
      Ok (false, if bool_decide (ToLower avsAddr = avs) then operatorList ++ [operator]
                 else operatorList)
    else Ok (false, operatorList)) [] s.

Definition SetAllOptedInfo (optedStates : list (string * OptedInfo)) : M InfoState error unit :=
  modify (set_optedInfos (insert_all optedStates)).

Definition GetAllOptedInfo (s : InfoState) : result error (list (string * OptedInfo)) :=
  IterateOptInfo EmptyString (λ key optedInfo ret, Ok (false, ret ++ [(key, optedInfo)])) [] s.

(** ** Slash info (keeper/operator_slash_state.go) *)

Definition slash_key (operatorAddr avsAddr slashID : string) : string :=
  GetJoinedStoreKey [operatorAddr; ToLower avsAddr; slashID].

(** [GetAVSSlashContract] is the call to the AVS keeper. *)
Definition UpdateOperatorSlashInfo (GetAVSSlashContract : string → result error string)
    (operatorAddr avsAddr slashID : string) (slashInfo : OperatorSlashInfo)
    : M InfoState error unit :=
  match AccAddressFromBech32 operatorAddr with
  | None => fail assetstypes.ErrInvalidOperatorAddr
  | Some _ =>
      let slashInfoKey := slash_key operatorAddr avsAddr slashID in
      has ← gets (λ s, is_some (slashInfos s !! slashInfoKey));
      _ ← fail_if has operatortypes.ErrSlashInfoExist;
      slashContract ← lift_result (GetAVSSlashContract avsAddr);
      _ ← fail_if (negb (bool_decide (si_SlashContract slashInfo = slashContract)))
            operatortypes.ErrSlashInfo;
      _ ← fail_if (si_SubmittedHeight slashInfo <? si_EventHeight slashInfo)
            operatortypes.ErrSlashInfo;
      _ ← fail_if ((si_SlashProportion slashInfo <? 0)
                   || (dec_of_int 1 <? si_SlashProportion slashInfo)) operatortypes.ErrSlashInfo;
      modify (set_slashInfos (insert slashInfoKey slashInfo))
  end.

Definition GetOperatorSlashInfo (avsAddr operatorAddr slashID : string) (s : InfoState)
    : result error OperatorSlashInfo :=
  match slashInfos s !! slash_key operatorAddr avsAddr slashID with
  | None => Err operatortypes.ErrNoKeyInTheStore
  | Some info => Ok info
  end.

Fixpoint slash_info_map (entries : list (string * OperatorSlashInfo))
    (ret : gmap string OperatorSlashInfo) : result error (gmap string OperatorSlashInfo) :=
  match entries with
  | [] => Ok ret
  | (key, slashInfo) :: entries =>
      keys ← ParseJoinedKeyWithCount key 3;
      id ← nth_key 2 keys;
      slash_info_map entries (<[id := slashInfo]> ret)
  end.

Definition AllOperatorSlashInfo (avsAddr operatorAddr : string) (s : InfoState)
    : result error (gmap string OperatorSlashInfo) :=
  slash_info_map
    (prefix_iterator (GetJoinedStoreKey [operatorAddr; ToLower avsAddr]) (slashInfos s)) ∅.

Definition SetAllSlashStates (slashStates : list (string * OperatorSlashInfo))
    : M InfoState error unit :=
  modify (set_slashInfos (insert_all slashStates)).

Definition GetAllSlashStates (s : InfoState) : list (string * OperatorSlashInfo) :=
  prefix_iterator EmptyString (slashInfos s).
End Opted.
