(* ===== verification/OperatorRegistry.v ===== *)
(** * The registry of the operators

    What the registration, the edit of a description and the update of a
    commission rate keep of the registry: an operator is stored under its own
    address, no two operators have the same name, and the commission rates are
    within the limits that were registered. *)

From S2P Require Import Prelude Errors Sdk RefSdk KVStore DelegationTypes Assets OperatorTypes.
From S2P Require Import OperatorStore.

Definition DoNotModifyDesc : string := "[do-not-modify]".

(** The rates of a commission that [CommissionRates.Validate] accepts. *)
Record rates_ok (c : Commission) (rate maxRate maxChangeRate : LegacyDec) : Prop := {
  ro_rate : co_Rate c = Some rate;
  ro_max : co_MaxRate c = Some maxRate;
  ro_change : co_MaxChangeRate c = Some maxChangeRate;
  ro_range : 0 ≤ rate ≤ maxRate ∧ maxRate ≤ dec_of_int 1;
  ro_change_range : 0 ≤ maxChangeRate ≤ maxRate;
}.

(** What x/operator relies on of the types of x/staking. *)
Class StakingLaws (stk : StakingTypes) : Prop := {
  update_moniker d d2 d' : Description_UpdateDescription d d2 = Ok d' →
    de_Moniker d' = if bool_decide (de_Moniker d2 = DoNotModifyDesc) then de_Moniker d else de_Moniker d2;
  commission_valid c : Commission_Validate c = Ok tt → is_Some (co_Rate c) →
    is_Some (co_MaxRate c) → is_Some (co_MaxChangeRate c) → ∃ r m ch, rates_ok c r m ch;
}.

Section Registry.
Context `{SdkLaws} {stk : StakingTypes} {sl : StakingLaws stk}.
Implicit Types (s : InfoState) (info : OperatorInfo).

#[local] Abbreviation name info := (de_Moniker (oi_Description info)).

(** ** Names *)

Lemma name_loop l nm s (b : bool) u s' b' :
  for_each_break (E := error) l (λ kv : string * OperatorInfo,
    if bool_decide (name kv.2 = nm) then _ ← modify (λ x : InfoState * bool, (x.1, true)); mret true
    else mret false) (s, b) = (Ok u, (s', b')) →
  s' = s ∧ (b' = false → ∀ kv, kv ∈ l → name kv.2 ≠ nm).
Proof.
  revert b. induction l as [|[k i] l IH]; intros b Hrun; cbn [for_each_break] in Hrun.
  { go_inv. simplify_eq. split; [done|]. intros _ kv Hin. by apply elem_of_nil in Hin. }
  apply bind_Ok in Hrun as (br & s1 & Hone & Hrest). cbn [snd] in Hone.
  case_bool_decide as Hn; go_inv; cbn in *; go_inv.
  - by simplify_eq.
  - apply IH in Hrest as [-> Hl]. split; [done|].
    intros Hb kv [->|Hin]%elem_of_cons; [done|by apply Hl].
Qed.

Lemma HasOperatorName_Ok nm s b s' :
  HasOperatorName nm s = (Ok b, s') →
  s' = s ∧ (b = false → ∀ a i, operatorInfos s !! a = Some i → name i ≠ nm).
Proof.
  intros [u Hrun]%with_var_Ok. unfold IterateOperators in Hrun.
  apply bind_Ok in Hrun as (l & x & Hg & Hrun). apply gets_Ok in Hg as [-> ->].
  apply name_loop in Hrun as [-> Hl]. split; [done|]. intros Hb a i Hi.
  apply (Hl Hb (a, i)). by apply elem_of_iterator_all.
Qed.

(** ** The invariant *)

Record operator_wf (a : string) info : Prop := {
  ow_addr : AccAddressFromBech32 (oi_OperatorAddr info) = Some a;
  ow_name : name info ≠ EmptyString;
  ow_rates : ∃ r m ch, rates_ok (oi_Commission info) r m ch;
}.

Record registry_inv s : Prop := {
  reg_operators : map_Forall operator_wf (operatorInfos s);
  reg_names a a' i i' : operatorInfos s !! a = Some i → operatorInfos s !! a' = Some i' →
    name i = name i' → a = a';
}.

(** An operator is written: under its address, with a name of its own. *)
Lemma registry_insert s a info :
  registry_inv s → operator_wf a info →
  (∀ a' i, operatorInfos s !! a' = Some i → a' ≠ a → name i ≠ name info) →
  registry_inv (set_operatorInfos (insert a info) s).
Proof.
  intros [Hwf Hn] Hi Hnew. split; cbn; [by apply map_Forall_insert_2|].
  intros a1 a2 i1 i2 [[<- <-]|[??]]%lookup_insert_Some [[<- <-]|[??]]%lookup_insert_Some Heq; try done.
  - by destruct (Hnew a2 i2).
  - by destruct (Hnew a1 i1).
  - by eapply Hn.
Qed.

Lemma ValidateBasic_Ok info :
  OperatorInfo_ValidateBasic (Some info) = Ok tt →
  name info ≠ EmptyString ∧ ∃ r m ch, rates_ok (oi_Commission info) r m ch.
Proof.
  unfold OperatorInfo_ValidateBasic. destruct (AccAddressFromBech32 _); [|done].
  case_bool_decide as Hn; [done|]. unfold mbind, result_bind. destruct (Description_EnsureLength _); [|done..].
  destruct (_ || _) eqn:Hs; [done|]. intros Hv. split; [done|].
  destruct (co_Rate _) eqn:E1, (co_MaxRate _) eqn:E2, (co_MaxChangeRate _) eqn:E3; try done.
  apply commission_valid; [done|by rewrite ?E1, ?E2, ?E3..].
Qed.

(** ** Transitions *)

Inductive registry_step (ctx : Ctx) s : InfoState → Prop :=
| reg_register assets (info : option OperatorInfo) u s' :
    RegisterOperator ctx assets info s = (Ok u, s') → registry_step ctx s s'
| reg_edit addr description u s' :
    valid_addr addr → EditOperator addr description s = (Ok u, s') → registry_step ctx s s'
| reg_flag addr disable u s' :
    valid_addr addr → UpdateRewardCompoundingFlag addr disable s = (Ok u, s') → registry_step ctx s s'
| reg_commission addr rate u s' :
    valid_addr addr → ValidateAndUpdateCommissionRate ctx addr rate s = (Ok u, s') → registry_step ctx s s'
| reg_freeze addr u s' : FreezeOperator addr s = (Ok u, s') → registry_step ctx s s'
| reg_unfreeze addr u s' : UnfreezeOperator addr s = (Ok u, s') → registry_step ctx s s'
| reg_params params u s' : SetParams params s = (Ok u, s') → registry_step ctx s s'.

Lemma GetOperatorInfo_Ok addr s i s' :
  valid_addr addr → GetOperatorInfo (AccAddress_String addr) s = (Ok i, s') →
  s' = s ∧ operatorInfos s !! addr = Some i.
Proof.
  intros Ha. unfold GetOperatorInfo. rewrite bech32_roundtrip by done. intros Hrun. go_inv.
  by destruct (operatorInfos s !! addr) eqn:Hi; go_inv.
Qed.

Lemma check_earnings_ro assets l : read_only (check_earnings assets l).
Proof. unfold check_earnings. induction l as [|e l IH]; cbn; solve_read_only. Qed.

Lemma RegisterOperator_inv ctx assets (info : option OperatorInfo) s u s' :
  registry_inv s → RegisterOperator ctx assets info s = (Ok u, s') → registry_inv s'.
Proof.
  intros Hs. unfold RegisterOperator, setOperatorInfo. destruct info as [info|]; [|by intros ?%fail_Ok].
  intros Hrun. go_inv.
  match goal with Hv : OperatorInfo_ValidateBasic _ = Ok ?v |- _ =>
    destruct v; apply ValidateBasic_Ok in Hv as [Hname Hrates] end.
  set (info' := if _ =? _ then _ else _) in *.
  assert (Hsame : oi_OperatorAddr info' = oi_OperatorAddr info ∧ name info' = name info ∧
    ∃ r m ch, rates_ok (oi_Commission info') r m ch).
  { subst info'. destruct (_ =? _); [|done]. split_and!; [done..|].
    destruct Hrates as (r & m & ch & []). by exists r, m, ch. }
  clearbody info'. destruct Hsame as (Haddr & Hname' & Hrates').
  destruct (AccAddressFromBech32 _) as [a|] eqn:Ha; go_inv.
  repeat match goal with
    | Hn : HasOperatorName _ _ = _ |- _ => apply HasOperatorName_Ok in Hn as [-> Hnew]
    | He : (match oi_ClientChainEarningsAddr _ with _ => _ end) _ = _ |- _ =>
        apply ro_Ok in He as ->; [|case_match; [apply check_earnings_ro|done]] end.
  apply registry_insert; [done|by split; rewrite ?Hname'|].
  intros a' i Hi _. by eapply Hnew.
Qed.

Lemma EditOperator_inv addr description s u s' :
  valid_addr addr → registry_inv s → EditOperator addr description s = (Ok u, s') → registry_inv s'.
Proof.
  intros Ha Hs Hrun. unfold EditOperator, setOperatorInfo in Hrun. go_inv.
  repeat match goal with
    | Hn : HasOperatorName _ _ = _ |- _ => apply HasOperatorName_Ok in Hn as [-> Hnew]
    | Hg : GetOperatorInfo _ _ = _ |- _ => apply GetOperatorInfo_Ok in Hg as [-> Hi]; [|done]
    | Hu : Description_UpdateDescription _ _ = _ |- _ => apply update_moniker in Hu as Hmon
    | Hv : OperatorInfo_ValidateBasic _ = Ok ?x |- _ =>
        destruct x; apply ValidateBasic_Ok in Hv as [Hname Hrates]; cbn in Hname, Hrates end.
  apply registry_insert; [done|split; [by apply (reg_operators _ Hs _ _ Hi)|done..]|].
  intros a' i Hi' Hne. cbn. rewrite Hmon. case_bool_decide as Hd.
  - intros Heq. apply Hne. by eapply (reg_names _ Hs).
  - by eapply Hnew.
Qed.

(** An operator whose address and name stay. *)
Lemma registry_update s a info info' :
  registry_inv s → operatorInfos s !! a = Some info → oi_OperatorAddr info' = oi_OperatorAddr info →
  oi_Description info' = oi_Description info → (∃ r m ch, rates_ok (oi_Commission info') r m ch) →
  registry_inv (set_operatorInfos (insert a info') s).
Proof.
  intros Hs Hi Ha Hd Hr. destruct (reg_operators _ Hs _ _ Hi) as [Hwa Hwn _].
  apply registry_insert; [done|split; by rewrite ?Ha, ?Hd|].
  intros a' i Hi' Hne Heq. rewrite Hd in Heq. apply Hne. by eapply (reg_names _ Hs).
Qed.

(** What an update of the rate checks. *)
Lemma commission_Ok ctx addr rate s u s' :
  valid_addr addr → ValidateAndUpdateCommissionRate ctx addr rate s = (Ok u, s') →
  ∃ info min old max change,
    operatorInfos s !! addr = Some info ∧ GetMinCommissionRate s = Some min ∧
    co_Rate (oi_Commission info) = Some old ∧ co_MaxRate (oi_Commission info) = Some max ∧
    co_MaxChangeRate (oi_Commission info) = Some change ∧
    0 ≤ rate ≤ max ∧ min ≤ rate ∧ rate - old ≤ change ∧
    GetMinCommissionUpdateInterval s ≤ BlockTime ctx - co_UpdateTime (oi_Commission info) ∧
    s' = set_operatorInfos (insert addr (with_commission info {|
      co_Rate := Some rate; co_MaxRate := Some max; co_MaxChangeRate := Some change;
      co_UpdateTime := BlockTime ctx |})) s.
Proof.
  intros Ha Hrun. unfold ValidateAndUpdateCommissionRate, setOperatorInfo, dec_value in Hrun. go_inv.
  match goal with Hg : GetOperatorInfo _ _ = _ |- _ => apply GetOperatorInfo_Ok in Hg as [-> Hi]; [|done] end.
  repeat match goal with Hm : (match ?o with Some _ => _ | None => _ end) _ = (Ok _, _) |- _ =>
    let E := fresh "E" in destruct o eqn:E; go_inv end.
  repeat match goal with Hl : (_ <? _) = false |- _ => apply Z.ltb_ge in Hl end.
  do 5 eexists. split_and!; try done.
Qed.

Lemma registry_step_inv ctx s s' : registry_inv s → registry_step ctx s s' → registry_inv s'.
Proof.
  intros Hs []; try by eauto using RegisterOperator_inv, EditOperator_inv.
  - unfold UpdateRewardCompoundingFlag, setOperatorInfo in *. go_inv.
    match goal with Hg : GetOperatorInfo _ _ = _ |- _ => apply GetOperatorInfo_Ok in Hg as [-> Hi]; [|done] end.
    destruct (Bool.eqb _ _); go_inv; [done|].
    eapply registry_update; [done..|]. apply (reg_operators _ Hs _ _ Hi).
  - match goal with Hc : ValidateAndUpdateCommissionRate _ _ _ _ = _ |- _ =>
      apply commission_Ok in Hc as (info & min & old & max & ch & Hi & _ & Eo & Em & Ec & Hr & _ & _ & _ & ->);
      [|done] end.
    eapply registry_update; [done..|]. exists rate, max, ch.
    destruct (reg_operators _ Hs _ _ Hi) as [_ _ (r & m & c & [])]. split; cbn; congruence || naive_solver lia.
  - unfold FreezeOperator in *. go_inv. by destruct Hs.
  - unfold UnfreezeOperator in *. go_inv. by destruct Hs.
  - unfold SetParams in *. go_inv. by destruct Hs.
Qed.

(** ** Properties *)

(** In every state of the registry that is reached from a consistent one, in
    particular from the empty one, every operator is stored under the address that
    it names, no two operators have the same name, and the commission rates are
    between zero and the maximum rate, which is at most one. *)
Theorem registry_consistent ctx s s' :
  registry_inv s → rtc (registry_step ctx) s s' → registry_inv s'.
Proof. intros Hs Hrtc. induction Hrtc; eauto using registry_step_inv. Qed.
End Registry.
