(* ===== verification/OperatorSnapshot.v ===== *)
(** * Voting power snapshots (x/operator/keeper/voting_power_snapshot.go)

    A snapshot is stored under the AVS and the height from which it is in
    force.  When no power changed, the snapshot holds no powers and points back
    to the height of the last change ([LastChangedHeight]), and old snapshots
    are pruned.  The theorems are that loading a snapshot gives the powers of the
    last change, as a store that kept every change would, and that pruning
    keeps this true for the epochs that are not pruned. *)

From S2P Require Import Prelude Errors Sdk RefSdk KVStore Epochs DelegationTypes Assets.
From S2P Require Import OperatorTypes OperatorStore.

Section Snapshot.
Context {sdk : Sdk}.

Definition SetVotingPowerSnapshot (key : string) (snapshot : VotingPowerSnapshot)
    : M SnapshotState error unit :=
  modify (set_snapshots (insert key snapshot)).

Definition GetVotingPowerSnapshot (key : string) (s : SnapshotState)
    : result error VotingPowerSnapshot :=
  match snapshots s !! key with
  | None => _ ← ParseVotingPowerSnapshotKey key; Err operatortypes.ErrNoKeyInTheStore
  | Some ret => Ok ret
  end.

(** The iteration of [GetSnapshotHeightAndKey]: the last key whose height is at
    most [height]. *)
Fixpoint find_snapshot (height : Z) (entries : list (string * VotingPowerSnapshot))
    (found : Z * string) : result error (Z * string) :=
  match entries with
  | [] => Ok found
  | (key, _) :: entries =>
      k ← ParseVotingPowerSnapshotKey key;
      if k.2 <=? height then find_snapshot height entries (k.2, key) else Ok found
  end.

Definition GetSnapshotHeightAndKey (avsAddr : string) (height : Z) (s : SnapshotState)
    : result error (Z * string) :=
  if negb (common_IsHexAddress avsAddr) then Err operatortypes.ErrParameterInvalid
  else if height <? 0 then Err operatortypes.ErrParameterInvalid
  else
    let avsEthAddr := HexToAddress avsAddr in
    let findKey := KeyForVotingPowerSnapshot avsEthAddr height in
    if is_some (snapshots s !! findKey) then Ok (height, findKey)
    else find_snapshot height (prefix_iterator avsEthAddr (snapshots s)) (height, findKey).

Definition GetEpochNumberByOptOutHeight (avsAddr : string) (optOutHeight : Z) (s : SnapshotState)
    : result error Z :=
  if optOutHeight <? 0 then Err operatortypes.ErrParameterInvalid
  else
    found ← GetSnapshotHeightAndKey avsAddr optOutHeight s;
    match snapshots s !! found.2 with
    | None => Ok NullEpochNumber
    | Some ret => Ok (vs_EpochNumber ret)
    end.

Definition LoadVotingPowerSnapshot (avsAddr : string) (height : Z) (s : SnapshotState)
    : result error (Z * VotingPowerSnapshot) :=
  found ← GetSnapshotHeightAndKey avsAddr height s;
  match snapshots s !! found.2 with
  | None => Err operatortypes.ErrNoKeyInTheStore
  | Some ret =>
      if negb (found.1 =? vs_LastChangedHeight ret) then
        match snapshots s !! KeyForVotingPowerSnapshot (HexToAddress avsAddr)
                               (vs_LastChangedHeight ret) with
        | None => Err operatortypes.ErrNoKeyInTheStore
        | Some ret => Ok (found.1, ret)
        end
      else Ok (found.1, ret)
  end.

(** The height of a key; the error of the parser is ignored. *)
Definition key_height (key : string) : Z :=
  match ParseVotingPowerSnapshotKey key with Ok (_, h) => h | _ => 0 end.

Definition delete_retained (retainedKey : option string)
    (m : gmap string VotingPowerSnapshot) : gmap string VotingPowerSnapshot :=
  match retainedKey with Some k => delete k m | None => m end.

(** The loop of [RemoveVotingPowerSnapshot]. *)
Fixpoint remove_snapshots (epochNumber : Z) (entries : list (string * VotingPowerSnapshot))
    (retainedKey : option string) (m : gmap string VotingPowerSnapshot)
    : gmap string VotingPowerSnapshot :=
  match entries with
  | [] => m
  | (key, snapshot) :: entries =>
      let height := key_height key in
      if epochNumber <? vs_EpochNumber snapshot then
        if height =? vs_LastChangedHeight snapshot then delete_retained retainedKey m else m
      else if height =? vs_LastChangedHeight snapshot then
        remove_snapshots epochNumber entries (Some key) (delete_retained retainedKey m)
      else remove_snapshots epochNumber entries retainedKey (delete key m)
  end.

Definition RemoveVotingPowerSnapshot (avsAddr : string) (epochNumber : Z)
    : M SnapshotState error unit :=
  _ ← fail_if (epochNumber <? 0) operatortypes.ErrParameterInvalid;
  entries ← gets (λ s, prefix_iterator (HexToAddress avsAddr) (snapshots s));
  modify (set_snapshots (remove_snapshots epochNumber entries None)).

(** ** The helper: the height of the last change *)

Definition SetSnapshotHelper (avsAddr : string) (lastChangedHeight : Z)
    : M SnapshotState error unit :=
  modify (set_snapshotHelpers (insert avsAddr lastChangedHeight)).

(** [opFunc] changes the helper; it starts as the zero value. *)
Definition UpdateSnapshotHelper (avsAddr : string) (opFunc : Z → result error Z)
    : M SnapshotState error unit :=
  helper ← gets (λ s, default 0 (snapshotHelpers s !! avsAddr));
  helper ← lift_result (opFunc helper);
  modify (set_snapshotHelpers (insert avsAddr helper)).

Definition SetLastChangedHeight (avsAddr : string) (lastChangeHeight : Z)
    : M SnapshotState error unit :=
  UpdateSnapshotHelper avsAddr (λ _, Ok lastChangeHeight).

Definition GetSnapshotHelper (avsAddr : string) (s : SnapshotState) : result error Z :=
  if negb (common_IsHexAddress avsAddr) then Err operatortypes.ErrParameterInvalid
  else match snapshotHelpers s !! ToLower avsAddr with
       | None => Err operatortypes.ErrNoKeyInTheStore
       | Some ret => Ok ret
       end.

Definition HasSnapshotHelper (avsAddr : string) (s : SnapshotState) : bool :=
  is_some (snapshotHelpers s !! avsAddr).

(** The end of [UpdateVotingPower] (keeper/abci.go): the snapshot of the update
    and the helper. *)
Definition store_snapshot (avsAddr epochIdentifier : string) (epochNumber snapshotHeight : Z)
    (isSnapshotChanged hasOptedOperator : bool) (avsVotingPower : LegacyDec)
    (votingPowerSet : list OperatorVotingPower) : M SnapshotState error unit :=
  has ← gets (HasSnapshotHelper avsAddr);
  helper ← (if negb has then mret 0
            else h ← gets (GetSnapshotHelper avsAddr); lift_result h);
  let isSnapshotChanged := negb has || isSnapshotChanged in
  let lastChanged := if isSnapshotChanged then snapshotHeight else helper in
  let votingPowerSnapshot := {|
    vs_TotalVotingPower := if isSnapshotChanged then avsVotingPower else 0;
    vs_OperatorVotingPowers := if isSnapshotChanged then votingPowerSet else [];
    vs_LastChangedHeight := lastChanged;
    vs_EpochIdentifier := epochIdentifier;
    vs_EpochNumber := epochNumber |} in
  let isSetSnapshot := isSnapshotChanged || hasOptedOperator in
  _ ← SetSnapshotHelper avsAddr lastChanged;
  if (isSetSnapshot : bool) then
    SetVotingPowerSnapshot (KeyForVotingPowerSnapshot (HexToAddress avsAddr) snapshotHeight)
      votingPowerSnapshot
  else mret tt.
End Snapshot.

(** ** The snapshots of one AVS *)

Section OneAVS.
Context `{SdkLaws} (avsAddr : string).
#[local] Abbreviation a := (HexToAddress avsAddr).
#[local] Abbreviation key := (KeyForVotingPowerSnapshot (HexToAddress avsAddr)).
Implicit Types (m : gmap string VotingPowerSnapshot) (v : VotingPowerSnapshot).

(** The snapshot holds the powers itself. *)
Definition changed_at (h : Z) v : Prop := vs_LastChangedHeight v = h.

Definition stored_at m (h : Z) v : Prop := is_i64_pos h ∧ m !! key h = Some v.

Record snapshots_wf m : Prop := {
  sw_keys k v : m !! k = Some v → has_prefix a k = true → ∃ h, is_i64_pos h ∧ k = key h;
  (** a snapshot points to a stored change, the last one before it *)
  sw_last h v : stored_at m h v → vs_LastChangedHeight v ≤ h ∧
    ∃ v', stored_at m (vs_LastChangedHeight v) v' ∧ changed_at (vs_LastChangedHeight v) v';
  sw_max h v h' v' : stored_at m h v → stored_at m h' v' → changed_at h' v' → h' ≤ h →
    h' ≤ vs_LastChangedHeight v;
  sw_epoch h v h' v' : stored_at m h v → stored_at m h' v' → h ≤ h' →
    vs_EpochNumber v ≤ vs_EpochNumber v';
}.

(** The snapshot in force at a height: the last one not after it. *)
Definition in_force m (height h : Z) v : Prop :=
  stored_at m h v ∧ h ≤ height ∧ ∀ h' v', stored_at m h' v' → h' ≤ height → h' ≤ h.

Lemma key_height_key h : is_i64_pos h → key_height (key h) = h.
Proof. intros Hh. unfold key_height. by rewrite ParseVotingPowerSnapshotKey_key by (apply address_length || done). Qed.

Lemma key_prefix h : is_i64_pos h → has_prefix a (key h) = true.
Proof. intros Hh. rewrite snapshot_key_eq by done. apply has_prefix_app. Qed.

(** An entry of the iterator, by its height. *)
Definition entry_wf (kv : string * VotingPowerSnapshot) : Prop :=
  ∃ h, is_i64_pos h ∧ kv.1 = key h.

(** The heights of the entries ascend. *)
Fixpoint ascending (entries : list (string * VotingPowerSnapshot)) : Prop :=
  match entries with
  | [] => True
  | kv :: entries =>
      entry_wf kv ∧ Forall (λ kv', key_height kv.1 < key_height kv'.1) entries ∧ ascending entries
  end.

Lemma ascending_iterator m : snapshots_wf m → ascending (prefix_iterator a m).
Proof.
  intros Hm. assert (Hwf : Forall entry_wf (prefix_iterator a m)).
  { apply Forall_forall. intros [k v] [Hk Hp]%elem_of_prefix_iterator. by eapply sw_keys. }
  pose proof (prefix_iterator_sorted a m) as Hs. pose proof (prefix_iterator_NoDup_keys a m) as Hnd.
  induction Hs as [|kv l Hs IH Hall]; [done|]. inversion Hwf as [|?? Hkv Hl]; subst.
  cbn in Hnd. apply NoDup_cons in Hnd as [Hnin Hnd]. split_and!; [done| |by apply IH].
  apply Forall_forall. intros kv' Hin. rewrite Forall_forall in Hall, Hl.
  destruct Hkv as (h & Hh & Heq), (Hl _ Hin) as (h' & Hh' & Heq'). specialize (Hall _ Hin).
  unfold key_le in Hall. rewrite Heq, Heq' in Hall |- *. rewrite !key_height_key by done.
  apply snapshot_key_le in Hall; [|done..]. assert (h ≠ h'); [|lia].
  intros <-. apply Hnin. rewrite Heq, <-Heq'. by apply list_elem_of_fmap_2.
Qed.

Lemma find_snapshot_run height entries found :
  ascending entries →
  (Forall (λ kv, height < key_height kv.1) entries ∧ find_snapshot height entries found = Ok found) ∨
  ∃ kv, kv ∈ entries ∧ key_height kv.1 ≤ height ∧
    Forall (λ kv', key_height kv'.1 ≤ height → key_height kv'.1 ≤ key_height kv.1) entries ∧
    find_snapshot height entries found = Ok (key_height kv.1, kv.1).
Proof.
  revert found. induction entries as [|[k v] entries IH]; intros found Hasc; [by left|].
  destruct Hasc as ((h & Hh & Heq) & Hall & Hasc). cbn in Heq, Hall. subst k.
  rewrite key_height_key in Hall by done. cbn [find_snapshot].
  rewrite ParseVotingPowerSnapshotKey_key by (apply address_length || done). cbn.
  destruct (Z.leb_spec h height) as [Hle|Hgt].
  - right. destruct (IH (h, key h) Hasc) as [[Hnone Hrun]|(kv & Hin & Hkv & Hmax & Hrun)].
    + exists (key h, v). cbn. rewrite key_height_key by done. split_and!; [set_solver|done| |done].
      constructor; cbn; [rewrite key_height_key by done; lia|].
      eapply Forall_impl; [exact Hnone|]. cbn. lia.
    + exists kv. split_and!; [set_solver|done| |done]. constructor; [|done]. cbn.
      rewrite key_height_key by done. rewrite Forall_forall in Hall. specialize (Hall _ Hin). lia.
  - left. split; [|done]. constructor; cbn; [by rewrite key_height_key by done|].
    eapply Forall_impl; [exact Hall|]. cbn. lia.
Qed.

Lemma stored_entry m kv :
  snapshots_wf m → kv ∈ prefix_iterator a m → stored_at m (key_height kv.1) kv.2 ∧
    kv.1 = key (key_height kv.1).
Proof.
  intros Hm. destruct kv as [k v]. intros [Hk Hp]%elem_of_prefix_iterator.
  destruct (sw_keys m Hm k v Hk Hp) as (h & Hh & ->). cbn. by rewrite key_height_key.
Qed.

Lemma entry_stored m h v : stored_at m h v → (key h, v) ∈ prefix_iterator a m.
Proof. intros [Hh Hk]. apply elem_of_prefix_iterator. split; [done|by apply key_prefix]. Qed.

(** The search finds the snapshot in force. *)
Lemma GetSnapshotHeightAndKey_run (Hhex : common_IsHexAddress avsAddr = true) s height h v :
  snapshots_wf (snapshots s) → is_i64_pos height → in_force (snapshots s) height h v →
  GetSnapshotHeightAndKey avsAddr height s = Ok (h, key h).
Proof.
  intros Hm Hpos (Hst & Hle & Hmax). unfold GetSnapshotHeightAndKey. rewrite Hhex. cbn [negb].
  rewrite (proj2 (Z.ltb_ge height 0)) by apply Hpos.
  destruct (snapshots s !! key height) as [v'|] eqn:Hv; cbn [is_some].
  { assert (height ≤ h) by (by eapply Hmax). by replace h with height by lia. }
  destruct (find_snapshot_run height (prefix_iterator a (snapshots s)) (height, key height)
    (ascending_iterator _ Hm)) as [[Hnone _]|(kv & Hin & Hkv & Hlast & ->)].
  { rewrite Forall_forall in Hnone. specialize (Hnone _ (entry_stored _ _ _ Hst)).
    cbn in Hnone. rewrite key_height_key in Hnone by apply Hst. lia. }
  destruct (stored_entry _ _ Hm Hin) as [Hkvst Heq]. rewrite Forall_forall in Hlast.
  specialize (Hlast _ (entry_stored _ _ _ Hst)). cbn in Hlast.
  rewrite key_height_key in Hlast by apply Hst. specialize (Hmax _ _ Hkvst Hkv).
  assert (key_height kv.1 = h) as Hk by lia. rewrite Hk in Heq |- *. by rewrite Heq.
Qed.

(** What is loaded: the snapshot of the last change before the height. *)
Lemma LoadVotingPowerSnapshot_run (Hhex : common_IsHexAddress avsAddr = true) s height h v :
  snapshots_wf (snapshots s) → is_i64_pos height → in_force (snapshots s) height h v →
  ∃ c v', LoadVotingPowerSnapshot avsAddr height s = Ok (h, v') ∧ c ≤ h ∧
    stored_at (snapshots s) c v' ∧ changed_at c v' ∧
    ∀ c' v'', stored_at (snapshots s) c' v'' → changed_at c' v'' → c' ≤ height → c' ≤ c.
Proof.
  intros Hm Hpos Hf. unfold LoadVotingPowerSnapshot.
  rewrite (GetSnapshotHeightAndKey_run Hhex s height h v) by done. cbn.
  destruct Hf as ([Hh Hv] & Hle & Hmax). rewrite Hv.
  destruct (sw_last _ Hm h v (conj Hh Hv)) as [Hlast (v' & [Hh' Hv'] & Hc)].
  assert (Hall : ∀ c' v'', stored_at (snapshots s) c' v'' → changed_at c' v'' → c' ≤ height →
    c' ≤ vs_LastChangedHeight v).
  { intros c' v'' Hst Hch Hc'. by eapply (sw_max _ Hm h v c' v''), (Hmax _ _ Hst). }
  destruct (Z.eqb_spec h (vs_LastChangedHeight v)) as [Heq|Hne]; cbn [negb].
  - exists h, v. split_and!; [done|lia|done|by unfold changed_at|].
    intros c' v'' Hst Hch Hc'. rewrite Heq. by eapply Hall.
  - rewrite Hv'. by exists (vs_LastChangedHeight v), v'.
Qed.

(** ** Pruning *)

Record pruned (e : Z) m m' : Prop := {
  pr_sub k v : m' !! k = Some v → m !! k = Some v;
  pr_new h v : stored_at m h v → e < vs_EpochNumber v → stored_at m' h v;
  pr_last h v : stored_at m' h v → ∃ v', stored_at m' (vs_LastChangedHeight v) v';
}.

(** The state of the loop: the entries before the current one are deleted, but
    for the last change among them. *)
Record loop_inv (e : Z) m (before after : list (string * VotingPowerSnapshot))
    (retained : option string) (dropped : bool) m' : Prop := {
  li_entries : prefix_iterator a m = before ++ after;
  li_old : Forall (λ kv, vs_EpochNumber kv.2 ≤ e) before;
  li_map k : m' !! k = if decide (k ∈ before.*1 ∧ (retained = Some k → dropped = true))
                       then None else m !! k;
  li_last kv : kv ∈ before → changed_at (key_height kv.1) kv.2 →
    ∃ c, retained = Some (key c) ∧ is_i64_pos c ∧ key_height kv.1 ≤ c;
  li_retained k : retained = Some k → ∃ v, (k, v) ∈ before ∧ changed_at (key_height k) v;
  (** the last change is dropped only for a newer one *)
  li_dropped : dropped = true →
    ∃ kv rest, after = kv :: rest ∧ changed_at (key_height kv.1) kv.2;
}.

Lemma ascending_app before after kv kv' :
  ascending (before ++ after) → kv ∈ before → kv' ∈ after → key_height kv.1 < key_height kv'.1.
Proof.
  induction before as [|x before IH]; [by intros _ ?%not_elem_of_nil|].
  intros (_ & Hall & Hasc) [->|Hin]%elem_of_cons Hin'; [|by apply IH].
  rewrite Forall_forall in Hall. apply Hall. set_solver.
Qed.

Lemma ascending_tail before after : ascending (before ++ after) → ascending after.
Proof. induction before; [done|]. by intros (_ & _ & ?%IHbefore). Qed.

Section Loop.
Context (e : Z) (m m' : gmap string VotingPowerSnapshot).
Context (before after : list (string * VotingPowerSnapshot)) (retained : option string).
Context (dropped : bool) (Hm : snapshots_wf m).
Context (Hinv : loop_inv e m before after retained dropped m').

Lemma loop_ascending : ascending (before ++ after).
Proof. rewrite <-(li_entries _ _ _ _ _ _ _ Hinv). by apply ascending_iterator. Qed.

Lemma loop_split h v : stored_at m h v → (key h, v) ∈ before ∨ (key h, v) ∈ after.
Proof.
  intros Hst%entry_stored. rewrite (li_entries _ _ _ _ _ _ _ Hinv) in Hst. by apply elem_of_app.
Qed.

Lemma loop_sub k v : m' !! k = Some v → m !! k = Some v.
Proof. rewrite (li_map _ _ _ _ _ _ _ Hinv). by decide_goal. Qed.

Lemma loop_after h v : stored_at m h v → (key h, v) ∈ after → stored_at m' h v.
Proof.
  intros [Hh Hv] Hin. split; [done|]. rewrite (li_map _ _ _ _ _ _ _ Hinv), decide_False; [done|].
  intros [([k' v'] & Heq & Hin')%list_elem_of_fmap _]. cbn in Heq. subst k'.
  pose proof (ascending_app _ _ _ _ loop_ascending Hin' Hin). cbn in *. lia.
Qed.

(** The change that is retained. *)
Lemma loop_change c v :
  stored_at m c v → changed_at c v → (key c, v) ∈ before →
  ∃ c' v', retained = Some (key c') ∧ c ≤ c' ∧ stored_at m c' v' ∧ changed_at c' v' ∧
    (key c', v') ∈ before.
Proof.
  destruct Hinv. intros Hst Hc Hin. pose proof Hst as [Hpos _].
  destruct (li_last0 _ Hin) as (c' & Hr & Hc'pos & Hmax).
  { cbn. by rewrite key_height_key. }
  cbn in Hmax. rewrite key_height_key in Hmax by done.
  destruct (li_retained0 _ Hr) as (vc & Hinc & Hcc). rewrite key_height_key in Hcc by done.
  exists c', vc. split_and!; [done..| |done|done]. split; [done|].
  apply (elem_of_prefix_iterator a). rewrite li_entries0. set_solver.
Qed.

(** It is there when a later snapshot points to it. *)
Lemma loop_retained h v c v' :
  stored_at m h v → (key h, v) ∈ after → vs_LastChangedHeight v = c → stored_at m c v' →
  (key c, v') ∈ before → retained = Some (key c) → stored_at m' c v'.
Proof.
  intros Hst Hin Hlast Hst' Hin' Hr. pose proof Hst as [Hpos _]. pose proof loop_ascending as Hasc.
  split; [apply Hst'|]. rewrite (li_map _ _ _ _ _ _ _ Hinv), decide_False; [apply Hst'|].
  intros [_ Hdrop].
  destruct (li_dropped _ _ _ _ _ _ _ Hinv (Hdrop Hr)) as (kv & rest & Hafter & Hkv).
  assert (Hkvst : stored_at m (key_height kv.1) kv.2).
  { apply stored_entry; [done|]. rewrite (li_entries _ _ _ _ _ _ _ Hinv), Hafter. set_solver. }
  assert (key_height kv.1 ≤ h).
  { apply ascending_tail in Hasc. rewrite Hafter in Hasc, Hin. destruct Hasc as (_ & Hall & _).
    rewrite Forall_forall in Hall.
    apply elem_of_cons in Hin as [<-|Hin]; cbn; [by rewrite key_height_key by done|].
    specialize (Hall _ Hin). cbn in Hall. rewrite key_height_key in Hall by done. lia. }
  assert (key_height kv.1 ≤ vs_LastChangedHeight v) by (by eapply (sw_max m Hm h v)).
  pose proof (ascending_app _ _ _ kv Hasc Hin' ltac:(rewrite Hafter; set_solver)) as Hlt.
  cbn in Hlt. rewrite key_height_key in Hlt by apply Hst'. lia.
Qed.

Lemma loop_inv_pruned : pruned e m m'.
Proof.
  split; [exact loop_sub|..].
  - intros h v Hst He. apply loop_after; [done|]. destruct (loop_split h v Hst) as [Hin|]; [|done].
    pose proof (li_old _ _ _ _ _ _ _ Hinv) as Hold. rewrite Forall_forall in Hold.
    specialize (Hold _ Hin). cbn in Hold. lia.
  - intros h v [Hh Hv]. pose proof (conj Hh (loop_sub _ _ Hv)) as Hst.
    destruct (sw_last m Hm h v Hst) as [Hle (v' & Hst' & Hc)].
    destruct (loop_split _ _ Hst') as [Hin'|Hin']; [|by eauto using loop_after].
    destruct (loop_change _ _ Hst' Hc Hin') as (c & vc & Hr & Hmax & Hstc & Hcc & Hinc).
    destruct (loop_split h v Hst) as [Hin|Hin].
    + rewrite (li_map _ _ _ _ _ _ _ Hinv) in Hv. revert Hv. decide_goal; [done|intros Hv].
      assert (retained = Some (key h)) as Hr'.
      { destruct (decide (retained = Some (key h))); [done|]. exfalso. apply Hd.
        split; [by apply (list_elem_of_fmap_2 fst) in Hin|done]. }
      rewrite Hr in Hr'. injection Hr' as Hr'. apply snapshot_key_inj in Hr' as ->; [|apply Hstc|done].
      destruct Hst as [_ Hst], Hstc as [_ Hstc]. rewrite Hst in Hstc. injection Hstc as ->.
      rewrite Hcc. exists vc. split; [done|]. rewrite (li_map _ _ _ _ _ _ _ Hinv).
      by rewrite decide_False.
    + assert (c < h).
      { pose proof (ascending_app _ _ _ _ loop_ascending Hinc Hin) as Hlt. cbn in Hlt.
        by rewrite !key_height_key in Hlt by (apply Hstc || done). }
      assert (c ≤ vs_LastChangedHeight v) by (by eapply (sw_max m Hm h v c vc); [..|lia]).
      assert (vs_LastChangedHeight v = c) as Heq by lia. rewrite Heq. exists vc.
      eapply loop_retained; [exact Hst|exact Hin|done..].
Qed.
End Loop.

(** One more entry is old: a change replaces the one retained before. *)
Lemma loop_inv_step e m before after retained m' k v :
  snapshots_wf m → loop_inv e m before ((k, v) :: after) retained false m' →
  vs_EpochNumber v ≤ e →
  loop_inv e m (before ++ [(k, v)]) after
    (if key_height k =? vs_LastChangedHeight v then Some k else retained) false
    (if key_height k =? vs_LastChangedHeight v then delete_retained retained m'
     else delete k m').
Proof.
  intros Hm Hinv He. pose proof (loop_ascending _ _ _ _ _ _ _ Hm Hinv) as Hasc. destruct Hinv.
  destruct (stored_entry m (k, v) Hm) as [[Hkpos Hkv] Hk]; [rewrite li_entries0; set_solver|].
  cbn in Hkpos, Hkv, Hk.
  assert (Hnin : k ∉ before.*1).
  { intros ([k' v'] & Heq & Hin)%list_elem_of_fmap. cbn in Heq. subst k'.
    pose proof (ascending_app _ _ _ (k, v) Hasc Hin ltac:(set_solver)). cbn in *. lia. }
  split; [by rewrite li_entries0, <-app_assoc|by apply Forall_app; split; [|constructor]|..].
  - intros k'. assert (Hel : k' ∈ (before ++ [(k, v)]).*1 ↔ k' ∈ before.*1 ∨ k' = k).
    { rewrite fmap_app, elem_of_app. cbn. by rewrite list_elem_of_singleton. }
    destruct (Z.eqb_spec (key_height k) (vs_LastChangedHeight v)) as [Hc|Hc].
    + assert (Hdel : delete_retained retained m' !! k' =
        if decide (k' ∈ before.*1) then None else m !! k').
      { unfold delete_retained. destruct retained as [r|].
        - destruct (li_retained0 r eq_refl) as (vr & Hinr & _).
          apply (list_elem_of_fmap_2 fst) in Hinr. cbn in Hinr.
          destruct (decide (k' = r)) as [->|Hne].
          + rewrite lookup_delete_eq. by rewrite decide_True.
          + rewrite lookup_delete_ne, li_map0 by done. repeat decide_goal; naive_solver.
        - rewrite li_map0. repeat decide_goal; naive_solver. }
      rewrite Hdel. repeat decide_goal; naive_solver.
    + destruct (decide (k' = k)) as [->|Hne].
      * rewrite lookup_delete_eq, decide_True; [done|]. split; [apply Hel; by right|]. intros Hr.
        destruct (li_retained0 k Hr) as (vr & Hinr & _). exfalso. apply Hnin.
        by apply (list_elem_of_fmap_2 fst) in Hinr.
      * rewrite lookup_delete_ne, li_map0 by done. repeat decide_goal; naive_solver.
  - intros kv [Hin|Heq%list_elem_of_singleton]%elem_of_app Hc; [|subst kv; cbn in Hc].
    + destruct (li_last0 kv Hin Hc) as (c & Hr & Hcp & Hle).
      destruct (Z.eqb_spec (key_height k) (vs_LastChangedHeight v)); [|by exists c].
      exists (key_height k). split_and!; [by rewrite <-Hk|done|].
      pose proof (ascending_app _ _ kv (k, v) Hasc Hin ltac:(set_solver)). cbn in *. lia.
    + unfold changed_at in Hc. rewrite Hc, Z.eqb_refl. exists (key_height k). by rewrite <-Hk.
  - intros k'. destruct (Z.eqb_spec (key_height k) (vs_LastChangedHeight v)) as [Hc|Hc].
    + intros [= <-]. exists v. split; [set_solver|by unfold changed_at].
    + intros (v' & Hin & Hv')%li_retained0. exists v'. set_solver.
  - done.
Qed.

Lemma remove_snapshots_inv e m before after retained m' :
  snapshots_wf m → loop_inv e m before after retained false m' →
  pruned e m (remove_snapshots e after retained m').
Proof.
  intros Hm. revert before retained m'. induction after as [|[k v] after IH];
    intros before retained m' Hinv; [by eapply loop_inv_pruned|].
  cbn [remove_snapshots]. destruct (Z.ltb_spec e (vs_EpochNumber v)) as [Hnew|Hold].
  - destruct (Z.eqb_spec (key_height k) (vs_LastChangedHeight v)) as [Hc|Hc];
      [|by eapply loop_inv_pruned].
    eapply (loop_inv_pruned _ _ _ before ((k, v) :: after) retained true); [done|]. destruct Hinv.
    split; [done..| |done|done|].
    + intros k'. unfold delete_retained. destruct retained as [r|].
      * destruct (li_retained0 r eq_refl) as (vr & Hinr & _).
        apply (list_elem_of_fmap_2 fst) in Hinr. cbn in Hinr.
        destruct (decide (k' = r)) as [->|Hne]; [by rewrite lookup_delete_eq, decide_True|].
        rewrite lookup_delete_ne, li_map0 by done. repeat decide_goal; naive_solver.
      * rewrite li_map0. repeat decide_goal; naive_solver.
    + intros _. by exists (k, v), after.
  - pose proof (loop_inv_step e m before after retained m' k v Hm Hinv Hold) as Hstep.
    destruct (key_height k =? vs_LastChangedHeight v); by eapply IH.
Qed.

Lemma remove_pruned e m :
  snapshots_wf m → pruned e m (remove_snapshots e (prefix_iterator a m) None m).
Proof.
  intros Hm. apply (remove_snapshots_inv e m []); [done|]. split; [done|done|..|done|done].
  - intros k. rewrite decide_False; [done|]. by intros [?%not_elem_of_nil _].
  - by intros kv ?%not_elem_of_nil.
Qed.

Lemma pruned_stored e m m' h v : pruned e m m' → stored_at m' h v → stored_at m h v.
Proof. intros Hp [Hh Hv]. split; [done|by eapply pr_sub]. Qed.

Lemma pruned_wf e m m' : snapshots_wf m → pruned e m m' → snapshots_wf m'.
Proof.
  intros Hm Hp. split.
  - intros k v Hk. apply (sw_keys m Hm k v). by eapply pr_sub.
  - intros h v Hst. pose proof (pruned_stored _ _ _ _ _ Hp Hst) as Hst'.
    destruct (sw_last m Hm h v Hst') as [Hle (v' & Hv' & Hc)]. split; [done|].
    destruct (pr_last e m m' Hp h v Hst) as [v'' Hv'']. exists v''. split; [done|].
    pose proof (pruned_stored _ _ _ _ _ Hp Hv'') as [_ Heq]. destruct Hv' as [_ Heq'].
    rewrite Heq' in Heq. by injection Heq as ->.
  - intros h v h' v' H1 H2. apply (sw_max m Hm); by eapply pruned_stored.
  - intros h v h' v' H1 H2. apply (sw_epoch m Hm); by eapply pruned_stored.
Qed.

(** A height whose snapshot belongs to a later epoch. *)
Lemma pruned_in_force e m m' height h v :
  snapshots_wf m → pruned e m m' → in_force m height h v → e < vs_EpochNumber v →
  in_force m' height h v.
Proof.
  intros Hm Hp (Hst & Hle & Hmax) He. split_and!; [by eapply pr_new|done|].
  intros h' v' Hst'. by apply (Hmax h' v'), (pruned_stored _ _ _ _ _ Hp).
Qed.
End OneAVS.

(** ** Loading refines a log of every update

    The specification is a store that keeps the powers of every update: the log,
    newest first.  An update that reports no change has the powers of the one
    before it. *)

Record update := {
  up_height : Z;
  up_epochIdentifier : string;
  up_epoch : Z;
  up_changed : bool;
  up_opted : bool;
  up_power : LegacyDec;
  up_set : list OperatorVotingPower;
}.

Definition up_powers (u : update) : LegacyDec * list OperatorVotingPower := (up_power u, up_set u).
Definition vs_powers (v : VotingPowerSnapshot) : LegacyDec * list OperatorVotingPower :=
  (vs_TotalVotingPower v, vs_OperatorVotingPowers v).

(** The update in force at a height. *)
Definition log_at (log : list update) (height : Z) : option update :=
  snd <$> list_find (λ u, up_height u ≤ height) log.

(** An update that may follow the log: later, of the same or a later epoch. *)
Definition follows (log : list update) (u : update) : Prop :=
  is_i64_pos (up_height u) ∧
  match log with
  | [] => True
  | u0 :: _ => up_height u0 < up_height u ∧ up_epoch u0 ≤ up_epoch u ∧
      (up_changed u = false → up_powers u = up_powers u0)
  end.

Fixpoint log_wf (log : list update) : Prop :=
  match log with [] => True | u :: log => follows log u ∧ log_wf log end.

Section Refine.
Context `{SdkLaws} (avsAddr : string) (Hhex : common_IsHexAddress avsAddr = true).
Context (Hlower : ToLower avsAddr = avsAddr).
#[local] Abbreviation a := (HexToAddress avsAddr).
#[local] Abbreviation key := (KeyForVotingPowerSnapshot (HexToAddress avsAddr)).
#[local] Abbreviation stored_at := (stored_at avsAddr).
Implicit Types (s : SnapshotState) (log : list update) (m : gmap string VotingPowerSnapshot).

Definition store_update (u : update) : M SnapshotState error unit :=
  store_snapshot avsAddr (up_epochIdentifier u) (up_epoch u) (up_height u) (up_changed u)
    (up_opted u) (up_power u) (up_set u).

(** [c] is the last change at or before [height], with the snapshot [v]. *)
Definition last_change m (height c : Z) v : Prop :=
  stored_at m c v ∧ changed_at c v ∧ c ≤ height ∧
  ∀ c' v', stored_at m c' v' → changed_at c' v' → c' ≤ height → c' ≤ c.

Record implements s log : Prop := {
  im_wf : snapshots_wf avsAddr (snapshots s);
  im_stored h v : stored_at (snapshots s) h v →
    ∃ u, u ∈ log ∧ up_height u = h ∧ up_epoch u = vs_EpochNumber v;
  im_log u : u ∈ log → ∃ c v, last_change (snapshots s) (up_height u) c v ∧ vs_powers v = up_powers u;
  im_helper : match log with
              | [] => snapshotHelpers s !! avsAddr = None
              | u :: _ => ∃ c v, snapshotHelpers s !! avsAddr = Some c ∧
                  last_change (snapshots s) (up_height u) c v ∧ vs_powers v = up_powers u
              end;
}.

Lemma log_wf_bound log u u' : log_wf (u :: log) → u' ∈ log → up_height u' < up_height u.
Proof.
  revert u. induction log as [|u0 log IH]; intros u; [by intros _ ?%not_elem_of_nil|].
  intros [[_ (Hlt & _)] Hwf] [->|Hin]%elem_of_cons; [done|]. pose proof (IH u0 Hwf Hin). lia.
Qed.

Lemma log_wf_epoch log u u' : log_wf (u :: log) → u' ∈ log → up_epoch u' ≤ up_epoch u.
Proof.
  revert u. induction log as [|u0 log IH]; intros u; [by intros _ ?%not_elem_of_nil|].
  intros [[_ (_ & Hle & _)] Hwf] [->|Hin]%elem_of_cons; [done|]. pose proof (IH u0 Hwf Hin). lia.
Qed.

(** What an update writes. *)
Definition written (log : list update) (c : Z) (u : update) : VotingPowerSnapshot :=
  let changed := match log with [] => true | _ => up_changed u end in {|
  vs_TotalVotingPower := if changed then up_power u else 0;
  vs_OperatorVotingPowers := if changed then up_set u else [];
  vs_LastChangedHeight := if changed then up_height u else c;
  vs_EpochIdentifier := up_epochIdentifier u;
  vs_EpochNumber := up_epoch u |}.

(** The three ways in which an update ends: the powers are stored, only a
    reference to the last change, or nothing. *)
Lemma store_update_run s log u :
  implements s log → ∃ s', store_update u s = (Ok tt, s') ∧
    match log with
    | [] => snapshotHelpers s' !! avsAddr = Some (up_height u) ∧
        snapshots s' = <[key (up_height u) := written log 0 u]> (snapshots s)
    | _ => ∃ c, snapshotHelpers s !! avsAddr = Some c ∧
        snapshotHelpers s' !! avsAddr = Some (if up_changed u then up_height u else c) ∧
        snapshots s' = if up_changed u || up_opted u
                       then <[key (up_height u) := written log c u]> (snapshots s)
                       else snapshots s
    end.
Proof.
  intros Him. pose proof (im_helper s log Him) as Hh.
  unfold store_update, store_snapshot, HasSnapshotHelper, GetSnapshotHelper.
  unfold mbind, M_bind, gets. cbn beta. destruct log as [|u0 log].
  - rewrite Hh. cbn [is_some negb orb]. eexists. split; [done|]. cbn.
    by rewrite lookup_insert_eq.
  - destruct Hh as (c & v & Hc & _). rewrite Hc. cbn. rewrite Hhex, Hlower. cbn. rewrite Hc. cbn.
    unfold written. destruct (up_changed u), (up_opted u); cbn; (eexists; split; [done|]);
      exists c; cbn; by rewrite lookup_insert_eq.
Qed.

Lemma stored_insert m h0 v0 h v :
  is_i64_pos h0 →
  stored_at (<[key h0 := v0]> m) h v ↔ (h = h0 ∧ v = v0) ∨ (h ≠ h0 ∧ stored_at m h v).
Proof.
  intros Hh0. unfold OperatorSnapshot.stored_at. split.
  - intros [Hh [[Heq <-]|[Hne Hv]]%lookup_insert_Some].
    + apply snapshot_key_inj in Heq; [|done..]. auto.
    + right. split; [|done]. by intros ->.
  - intros [[-> ->]|(Hne & Hh & Hv)]; [by rewrite lookup_insert_eq|]. split; [done|].
    rewrite lookup_insert_ne; [done|]. intros Heq. by apply snapshot_key_inj in Heq.
Qed.

(** A snapshot after all the others, with the powers or with a reference to
    the last change. *)
Lemma insert_wf m h0 v0 :
  snapshots_wf avsAddr m → is_i64_pos h0 →
  (∀ h v, stored_at m h v → h < h0 ∧ vs_EpochNumber v ≤ vs_EpochNumber v0) →
  (changed_at h0 v0 ∨
   (∃ vc, stored_at m (vs_LastChangedHeight v0) vc ∧ changed_at (vs_LastChangedHeight v0) vc) ∧
   ∀ c v, stored_at m c v → changed_at c v → c ≤ vs_LastChangedHeight v0) →
  snapshots_wf avsAddr (<[key h0 := v0]> m).
Proof.
  intros Hm Hpos Hlast Hv0. split.
  - intros k v [[<- _]|[_ Hk]]%lookup_insert_Some; [eauto|by apply (sw_keys _ m Hm k v)].
  - intros h v [[-> ->]|[Hne Hst]]%stored_insert; [| |done].
    + destruct Hv0 as [Hc|[(vc & Hvc & Hc) _]].
      * rewrite Hc. split; [done|]. exists v0. rewrite stored_insert by done. split; [by left|done].
      * pose proof (Hlast _ _ Hvc). split; [lia|]. exists vc. rewrite stored_insert by done.
        split; [right; split; [lia|done]|done].
    + destruct (sw_last _ m Hm h v Hst) as [Hle (v' & Hv' & Hc)]. split; [done|]. exists v'.
      rewrite stored_insert by done. split; [|done]. right. pose proof (Hlast _ _ Hst). split; [lia|done].
  - intros h v h' v' [[-> ->]|[Hne Hst]]%stored_insert [[-> ->]|[Hne' Hst']]%stored_insert Hc Hle;
      try done.
    + by rewrite Hc.
    + destruct Hv0 as [Hv0|[_ Hmax]]; [rewrite Hv0; pose proof (Hlast _ _ Hst'); lia|].
      by eapply Hmax.
    + pose proof (Hlast _ _ Hst). lia.
    + by eapply (sw_max _ m Hm h v h' v').
  - intros h v h' v' [[-> ->]|[Hne Hst]]%stored_insert [[-> ->]|[Hne' Hst']]%stored_insert Hle;
      try done.
    + pose proof (Hlast _ _ Hst'). lia.
    + by apply (Hlast h).
    + by eapply (sw_epoch _ m Hm h v h' v').
Qed.

(** The last change before an older height stays; at the new height it is the
    new snapshot, when that is a change. *)
Lemma last_change_insert m h0 v0 height c v :
  is_i64_pos h0 → height < h0 ∨ ¬ changed_at h0 v0 →
  last_change m height c v → (∀ h v, stored_at m h v → h < h0) →
  last_change (<[key h0 := v0]> m) height c v.
Proof.
  intros Hpos Hor (Hst & Hc & Hle & Hmax) Hlast. unfold last_change. split_and!; try done.
  - rewrite stored_insert by done. right. split; [|done]. pose proof (Hlast _ _ Hst). lia.
  - intros c' v' [[-> ->]|[_ Hst']]%stored_insert Hc' Hle'; [|by eapply Hmax|done].
    destruct Hor; [lia|done].
Qed.

Lemma last_change_new m h0 v0 :
  is_i64_pos h0 → changed_at h0 v0 →
  last_change (<[key h0 := v0]> m) h0 h0 v0.
Proof.
  intros Hpos Hc. unfold last_change. split_and!; [|done..]. rewrite stored_insert by done. auto.
Qed.

(** No snapshot is stored: the last change is still the last one. *)
Lemma last_change_later m height height' c v :
  last_change m height c v → height ≤ height' →
  (∀ h v, stored_at m h v → h ≤ height) → last_change m height' c v.
Proof.
  intros (Hst & Hc & Hle & Hmax) Hh Hlast. split_and!; [done..|lia|].
  intros c' v' Hst' Hc' _. eapply Hmax; [done..|]. by eapply Hlast.
Qed.

Lemma implements_bound s log u :
  implements s log → log_wf (u :: log) → ∀ h v, stored_at (snapshots s) h v →
  h < up_height u ∧ vs_EpochNumber v ≤ up_epoch u.
Proof.
  intros Him Hwf h v Hst. destruct (im_stored s log Him h v Hst) as (u' & Hin & <- & <-).
  split; [by eapply log_wf_bound|by eapply log_wf_epoch].
Qed.

(** The powers are written. *)
Lemma implements_change s s' log u v :
  implements s log → log_wf (u :: log) →
  snapshots s' = <[key (up_height u) := v]> (snapshots s) →
  snapshotHelpers s' !! avsAddr = Some (up_height u) →
  changed_at (up_height u) v → vs_EpochNumber v = up_epoch u → vs_powers v = up_powers u →
  implements s' (u :: log).
Proof.
  intros Him Hwf Hs Hh Hc He Hp. pose proof (implements_bound s log u Him Hwf) as Hb.
  pose proof (proj1 (proj1 Hwf)) as Hpos.
  assert (Hnew : last_change (snapshots s') (up_height u) (up_height u) v).
  { rewrite Hs. by apply last_change_new. }
  split.
  - rewrite Hs. apply insert_wf; [apply Him|done| |by left]. by rewrite He.
  - intros h w. rewrite Hs. intros [[-> ->]|[_ Hst]]%stored_insert; [| |done].
    + exists u. split; [set_solver|done].
    + destruct (im_stored s log Him h w Hst) as (u' & Hin & ?). exists u'. set_solver.
  - intros u' [->|Hin]%elem_of_cons; [eauto|]. rewrite Hs.
    destruct (im_log s log Him u' Hin) as (c & w & Hl & Hw). exists c, w. split; [|done].
    apply last_change_insert; [done|left; by eapply log_wf_bound|done|]. intros; by eapply Hb.
  - eauto.
Qed.

(** No power changed: a reference to the last change is written, or nothing. *)
Lemma implements_same s s' u0 log u c v (stores : bool) :
  implements s (u0 :: log) → log_wf (u :: u0 :: log) → up_powers u = up_powers u0 →
  snapshotHelpers s !! avsAddr = Some c → snapshotHelpers s' !! avsAddr = Some c →
  vs_LastChangedHeight v = c → vs_EpochNumber v = up_epoch u →
  snapshots s' = (if stores then <[key (up_height u) := v]> (snapshots s) else snapshots s) →
  implements s' (u :: u0 :: log).
Proof.
  intros Him Hwf Hp Hc Hc' Hv He Hs. pose proof (implements_bound s _ u Him Hwf) as Hb.
  pose proof (proj1 (proj1 Hwf)) as Hpos.
  destruct (im_helper s _ Him) as (c0 & v0 & Hc0 & Hl0 & Hv0). rewrite Hc in Hc0. injection Hc0 as <-.
  assert (Hold : ∀ h w, stored_at (snapshots s) h w → h ≤ up_height u0).
  { intros h w Hst. destruct (im_stored s _ Him h w Hst) as (u' & [->|Hin]%elem_of_cons & <- & _); [done|].
    destruct Hwf as [_ Hwf]. pose proof (log_wf_bound _ _ _ Hwf Hin). lia. }
  pose proof Hl0 as (Hst0 & Hch0 & _ & Hmax0).
  assert (Hne : ¬ changed_at (up_height u) v).
  { unfold changed_at. pose proof (Hb _ _ Hst0). lia. }
  assert (Hkeep : ∀ height c w, last_change (snapshots s) height c w →
    last_change (snapshots s') height c w).
  { intros height c' w Hl. rewrite Hs. destruct stores; [|done].
    apply last_change_insert; [done|by right|done|]. intros; by eapply Hb. }
  assert (Hnew : last_change (snapshots s') (up_height u) c v0).
  { apply Hkeep. apply (last_change_later _ (up_height u0)); [done| |done].
    destruct Hwf as [(_ & Hlt & _) _]. lia. }
  split.
  - rewrite Hs. destruct stores; [|apply Him].
    apply insert_wf; [apply Him|done|by rewrite He|]. right. rewrite Hv. split; [eauto|].
    intros c' w Hst Hch. eapply Hmax0; [done..|]. by eapply Hold.
  - assert (Hin' : ∀ h w, stored_at (snapshots s) h w → ∃ u', u' ∈ u :: u0 :: log ∧
      up_height u' = h ∧ up_epoch u' = vs_EpochNumber w).
    { intros h w Hst. destruct (im_stored s _ Him h w Hst) as (u' & ? & ?). exists u'. set_solver. }
    intros h w. rewrite Hs. destruct stores; [|by auto].
    intros [[-> ->]|[_ Hst]]%stored_insert; [|by auto|done]. exists u. split; [set_solver|done].
  - intros u' [->|Hin]%elem_of_cons; [exists c, v0; split; [done|by rewrite Hp]|].
    destruct (im_log s _ Him u' Hin) as (c' & w & Hl & Hw). exists c', w. eauto.
  - exists c, v0. split_and!; [done..|by rewrite Hp].
Qed.

Lemma store_update_implements s log u :
  implements s log → log_wf (u :: log) →
  ∃ s', store_update u s = (Ok tt, s') ∧ implements s' (u :: log).
Proof.
  intros Him Hwf. destruct (store_update_run s log u Him) as (s' & Hrun & Hs). exists s'.
  split; [done|]. destruct log as [|u0 log].
  - destruct Hs as [Hh Hs]. by eapply implements_change.
  - destruct Hs as (c & Hc & Hh & Hs). pose proof (proj2 (proj2 (proj1 Hwf))) as Hp.
    destruct (up_changed u) eqn:Hch.
    + cbn in Hs. eapply implements_change; [done..| | |]; unfold changed_at, vs_powers; cbn;
        by rewrite ?Hch.
    + eapply (implements_same s s' u0 log u c (written (u0 :: log) c u) (up_opted u)); try done;
        [naive_solver|]. cbn. by rewrite Hch.
Qed.
End Refine.

Section Loading.
Context `{SdkLaws} (avsAddr : string) (Hhex : common_IsHexAddress avsAddr = true).
Context (Hlower : ToLower avsAddr = avsAddr).

Lemma log_at_in_force log height u :
  log_wf log → log_at log height = Some u →
  u ∈ log ∧ up_height u ≤ height ∧
  ∀ u', u' ∈ log → up_height u' ≤ height → up_height u' ≤ up_height u.
Proof.
  unfold log_at. intros Hwf. destruct (list_find _ log) as [[i u0]|] eqn:Hf; [|done].
  intros [= ->]. apply list_find_Some in Hf as (Hi & Hle & Hfirst).
  split_and!; [by eapply list_elem_of_lookup_2|done|].
  revert i Hi Hfirst. induction log as [|u1 log IH]; intros i Hi Hfirst u' Hin Hu'; [done|].
  destruct i as [|i]; cbn in Hi.
  - injection Hi as ->. apply elem_of_cons in Hin as [->|Hin]; [done|].
    pose proof (log_wf_bound _ _ _ Hwf Hin). lia.
  - apply elem_of_cons in Hin as [->|Hin]; [exfalso; by apply (Hfirst 0%nat u1); [|lia|]|].
    eapply (IH (proj2 Hwf) i); [done| |done..]. intros j y Hj Hlt. apply (Hfirst (S j)); [done|lia].
Qed.

(** Loading gives the powers of the log. *)
Lemma implements_load s log height u :
  implements avsAddr s log → log_wf log → is_i64_pos height → log_at log height = Some u →
  ∃ h v, LoadVotingPowerSnapshot avsAddr height s = Ok (h, v) ∧ vs_powers v = up_powers u.
Proof.
  intros Him Hwf Hpos Hu. destruct (log_at_in_force log height u Hwf Hu) as (Hin & Hle & Hmax).
  destruct (im_log _ s log Him u Hin) as (c & v & (Hst & Hc & Hcle & Hcmax) & Hp).
  (* the snapshot in force is the last stored one *)
  assert (∃ h w, in_force avsAddr (snapshots s) height h w) as (h & w & Hf).
  { destruct (find_snapshot_run avsAddr height (prefix_iterator (HexToAddress avsAddr) (snapshots s))
      (0, EmptyString) (ascending_iterator _ _ (im_wf _ _ _ Him)))
      as [[Hnone _]|(kv & Hkv & Hle' & Hlast & _)].
    - rewrite Forall_forall in Hnone. specialize (Hnone _ (entry_stored _ _ _ _ Hst)). cbn in Hnone.
      rewrite key_height_key in Hnone by apply Hst. lia.
    - destruct (stored_entry _ _ _ (im_wf _ _ _ Him) Hkv) as [Hkvst _].
      exists (key_height kv.1), kv.2. split_and!; [done..|]. intros h' v' Hst' Hh'.
      rewrite Forall_forall in Hlast. specialize (Hlast _ (entry_stored _ _ _ _ Hst')). cbn in Hlast.
      rewrite key_height_key in Hlast by apply Hst'. auto. }
  destruct (LoadVotingPowerSnapshot_run avsAddr Hhex s height h w (im_wf _ _ _ Him) Hpos Hf)
    as (c' & v' & Hload & Hc'le & Hst' & Hc' & Hc'max).
  exists h, v'. split; [done|]. rewrite <-Hp. f_equal.
  assert (c = c') as <-.
  { assert (c ≤ c') by (eapply Hc'max; [done..|lia]). assert (c' ≤ c); [|lia].
    eapply Hcmax; [done..|]. destruct (im_stored _ _ _ Him _ _ Hst') as (u' & Hin' & <- & _).
    apply Hmax; [done|]. destruct Hf as (_ & ? & _). lia. }
  destruct Hst as [_ Hst], Hst' as [_ Hst']. congruence.
Qed.

(** An AVS without snapshots. *)
Definition no_snapshots (s : SnapshotState) : Prop :=
  snapshotHelpers s !! avsAddr = None ∧
  ∀ k v, snapshots s !! k = Some v → has_prefix (HexToAddress avsAddr) k = false.

Lemma no_snapshots_implements s : no_snapshots s → implements avsAddr s [].
Proof.
  intros [Hh Hno]. assert (Hnone : ∀ h v, ¬ stored_at avsAddr (snapshots s) h v).
  { intros h v [Hpos Hk]. pose proof (key_prefix avsAddr h Hpos). rewrite (Hno _ _ Hk) in *. done. }
  split; [split|..]; try done; try (intros; exfalso; by eapply Hnone).
  - intros k v Hk Hp. by rewrite (Hno _ _ Hk) in Hp.
  - by intros u ?%not_elem_of_nil.
Qed.

Lemma store_updates_implement us s log :
  implements avsAddr s log → log_wf (reverse us ++ log) →
  ∃ s', for_each us (store_update avsAddr) s = (Ok tt, s') ∧
    implements avsAddr s' (reverse us ++ log).
Proof.
  revert s log. induction us as [|u us IH]; intros s log Him Hwf; [by exists s|].
  rewrite reverse_cons, <-app_assoc in Hwf |- *. cbn [app] in Hwf |- *.
  assert (Hwf' : log_wf (u :: log)).
  { clear -Hwf. induction (reverse us); [done|]. apply IHl, Hwf. }
  destruct (store_update_implements avsAddr Hhex Hlower s log u Him Hwf') as (s1 & Hrun & Him1).
  destruct (IH s1 (u :: log) Him1 Hwf) as (s' & Hrun' & Him'). exists s'. split; [|done].
  cbn [for_each]. by rewrite (bind_run _ _ _ _ _ Hrun).
Qed.
End Loading.

(** ** Properties *)

(** C29.  The voting power snapshots refine a log of every update: after any
    sequence of updates of an AVS at strictly increasing heights, of which those that
    report no change have the powers of the one before, every update succeeded
    and loading the snapshot for a height gives the powers of the last update
    not after that height, although unchanged powers are not stored. *)
Theorem snapshots_refine_log `{SdkLaws} avsAddr s0 us :
  common_IsHexAddress avsAddr = true → ToLower avsAddr = avsAddr → no_snapshots avsAddr s0 →
  log_wf (reverse us) →
  ∃ s, for_each us (store_update avsAddr) s0 = (Ok tt, s) ∧
    ∀ height u, is_i64_pos height → log_at (reverse us) height = Some u →
      ∃ h v, LoadVotingPowerSnapshot avsAddr height s = Ok (h, v) ∧
        vs_TotalVotingPower v = up_power u ∧ vs_OperatorVotingPowers v = up_set u.
Proof.
  intros Hhex Hlower Hno Hwf. pose proof Hwf as Hwf'. rewrite <-(app_nil_r (reverse us)) in Hwf'.
  destruct (store_updates_implement avsAddr Hhex Hlower us s0 []) as (s & Hrun & Him);
    [by apply no_snapshots_implements|done|]. rewrite app_nil_r in Him.
  exists s. split; [done|]. intros height u Hpos Hu.
  destruct (implements_load avsAddr Hhex s _ height u Him Hwf Hpos Hu) as (h & v & Hload & [= ]).
  eauto.
Qed.

(** Pruning the snapshots of the epochs up to [epochNumber] is safe: the
    snapshots stay well formed, and for every height whose snapshot belongs to
    a later epoch the loaded powers are what they were. *)
Theorem RemoveVotingPowerSnapshot_keeps `{SdkLaws} avsAddr epochNumber s u s' height h v :
  common_IsHexAddress avsAddr = true → snapshots_wf avsAddr (snapshots s) →
  RemoveVotingPowerSnapshot avsAddr epochNumber s = (Ok u, s') →
  is_i64_pos height → in_force avsAddr (snapshots s) height h v → epochNumber < vs_EpochNumber v →
  snapshots_wf avsAddr (snapshots s') ∧
  LoadVotingPowerSnapshot avsAddr height s' = LoadVotingPowerSnapshot avsAddr height s.
Proof.
  intros Hhex Hwf Hrun Hpos Hf He. unfold RemoveVotingPowerSnapshot in Hrun. go_inv.
  pose proof (remove_pruned avsAddr epochNumber _ Hwf) as Hp. cbn [snapshots set_snapshots].
  pose proof (pruned_wf avsAddr _ _ _ Hwf Hp) as Hwf'. split; [done|].
  pose proof (pruned_in_force avsAddr _ _ _ _ _ _ Hwf Hp Hf He) as Hf'.
  unfold LoadVotingPowerSnapshot.
  rewrite !(GetSnapshotHeightAndKey_run avsAddr Hhex _ height h v) by done. cbn.
  destruct Hf as ([Hh Hk] & _), Hf' as (Hst' & _). pose proof Hst' as [_ Hk'].
  rewrite Hk, Hk'. case_match; [|done].
  destruct (sw_last _ _ Hwf' _ _ Hst') as [_ (v' & [_ Hv'] & _)].
  by rewrite Hv', (pr_sub _ _ _ _ Hp _ _ Hv').
Qed.

(** Two updates of an AVS in one block, of which the second reports no
    change (an epoch ends and then a slash leaves the powers of this AVS as
    they are), lose the powers: the second overwrites the snapshot of the first
    with one that holds none and that is its own last change, so that loading
    it gives no operator. *)
Theorem second_update_erases `{SdkLaws} avsAddr ident ident' epoch epoch' height opted p set p' set'
    s u s1 u' s2 :
  common_IsHexAddress avsAddr = true → ToLower avsAddr = avsAddr → is_i64_pos height →
  store_snapshot avsAddr ident epoch height true opted p set s = (Ok u, s1) →
  store_snapshot avsAddr ident' epoch' height false true p' set' s1 = (Ok u', s2) →
  ∃ v, LoadVotingPowerSnapshot avsAddr height s2 = Ok (height, v) ∧
    vs_OperatorVotingPowers v = [] ∧ vs_TotalVotingPower v = 0.
Proof.
  intros Hhex Hlower [Hpos _] H1 H2. unfold store_snapshot in H1. go_inv.
  assert (snapshotHelpers s1 !! avsAddr = Some height) as Hh.
  { unfold SetSnapshotHelper, SetVotingPowerSnapshot in *. rewrite !orb_true_r in *. go_inv.
    cbn [orb] in *. go_inv. cbn. by rewrite lookup_insert_eq. }
  unfold store_snapshot, HasSnapshotHelper, GetSnapshotHelper, mbind, M_bind, gets in H2.
  rewrite Hh, Hhex, Hlower in H2. cbn in H2. rewrite Hh in H2. cbn in H2.
  injection H2 as _ <-. unfold LoadVotingPowerSnapshot, GetSnapshotHeightAndKey.
  rewrite Hhex, (proj2 (Z.ltb_ge height 0)) by lia. cbn. rewrite lookup_insert_eq. cbn.
  rewrite lookup_insert_eq. cbn. rewrite Z.eqb_refl. cbn. by eexists.
Qed.

(** ** Examples *)

Definition sample_avs : string := "0x00000000000000000000000000000000000000a1".
Definition sample_snapshots0 : SnapshotState := {| snapshots := ∅; snapshotHelpers := ∅ |}.
Definition sample_update (h e : Z) (changed : bool) (p : LegacyDec) : update := {|
  up_height := h; up_epochIdentifier := "hour"; up_epoch := e; up_changed := changed;
  up_opted := true; up_power := p;
  up_set := [{| vp_OperatorAddr := "op"; vp_VotingPower := p |}] |}.
(** Powers set at height 10, unchanged at 20, changed at 30 and unchanged at 40. *)
Definition sample_updates : list update :=
  [sample_update 10 1 true 5; sample_update 20 2 false 5; sample_update 30 3 true 7;
   sample_update 40 4 false 7].
Definition sample_snapshots : SnapshotState :=
  (for_each sample_updates (store_update sample_avs) sample_snapshots0).2.

Lemma snapshots_refine_log_witness :
  ∃ h v, LoadVotingPowerSnapshot sample_avs 25 sample_snapshots = Ok (h, v) ∧
    vs_TotalVotingPower v = 5.
Proof.
  destruct (snapshots_refine_log sample_avs sample_snapshots0 sample_updates) as (s & Hrun & Hload).
  - by vm_compute.
  - by vm_compute.
  - split; [done|]. by intros k v.
  - repeat split; done.
  - destruct (Hload 25 (sample_update 20 2 false 5) ltac:(unfold is_i64_pos; lia) eq_refl)
      as (h & v & Hv & Hp & _).
    exists h, v. unfold sample_snapshots. rewrite Hrun. exact (conj Hv Hp).
Defined.

(** The height 45 belongs to epoch 4, and the snapshots up to epoch 2 go. *)
Lemma sample_updates_wf : log_wf (reverse sample_updates).
Proof. repeat split; done. Qed.

Lemma sample_snapshots_wf : snapshots_wf sample_avs (snapshots sample_snapshots).
Proof.
  destruct (store_updates_implement sample_avs ltac:(by vm_compute) ltac:(by vm_compute)
    sample_updates sample_snapshots0 []) as (s & Hrun & Him).
  - apply no_snapshots_implements. split; [done|]. by intros k v.
  - rewrite app_nil_r. exact sample_updates_wf.
  - unfold sample_snapshots. rewrite Hrun. apply Him.
Qed.

Lemma sample_entries :
  prefix_iterator (HexToAddress sample_avs) (snapshots sample_snapshots) =
    (λ h, (KeyForVotingPowerSnapshot (HexToAddress sample_avs) h,
       default {| vs_TotalVotingPower := 0; vs_OperatorVotingPowers := [];
                  vs_LastChangedHeight := 0; vs_EpochIdentifier := ""; vs_EpochNumber := 0 |}
         (snapshots sample_snapshots !! KeyForVotingPowerSnapshot (HexToAddress sample_avs) h)))
    <$> [10; 20; 30; 40].
Proof. by vm_compute. Qed.

Definition sample_last : VotingPowerSnapshot := {|
  vs_TotalVotingPower := 0; vs_OperatorVotingPowers := []; vs_LastChangedHeight := 30;
  vs_EpochIdentifier := "hour"; vs_EpochNumber := 4 |}.

Lemma sample_in_force : in_force sample_avs (snapshots sample_snapshots) 45 40 sample_last.
Proof.
  split_and!; [split; [unfold is_i64_pos; lia|by vm_compute]|lia|].
  intros h v Hst _. pose proof Hst as [Hpos _]. apply entry_stored in Hst.
  rewrite sample_entries in Hst.
  apply list_elem_of_fmap in Hst as (h' & Hk & Hin). apply (f_equal fst) in Hk. cbn [fst] in Hk.
  assert (is_i64_pos h' ∧ h' ≤ 40) as [Hpos' Hle].
  { repeat (apply elem_of_cons in Hin as [->|Hin]; [unfold is_i64_pos; lia|]).
    by apply not_elem_of_nil in Hin. }
  apply snapshot_key_inj in Hk; [lia|done..].
Qed.

Lemma RemoveVotingPowerSnapshot_keeps_witness :
  LoadVotingPowerSnapshot sample_avs 45
    (RemoveVotingPowerSnapshot sample_avs 2 sample_snapshots).2 =
  LoadVotingPowerSnapshot sample_avs 45 sample_snapshots.
Proof.
  apply (RemoveVotingPowerSnapshot_keeps sample_avs 2 sample_snapshots tt
    (RemoveVotingPowerSnapshot sample_avs 2 sample_snapshots).2 45 40 sample_last).
  - by vm_compute.
  - exact sample_snapshots_wf.
  - refine (run_eta (RemoveVotingPowerSnapshot sample_avs 2) sample_snapshots tt _). reflexivity.
  - unfold is_i64_pos. lia.
  - exact sample_in_force.
  - unfold sample_last. cbn. lia.
Defined.

Lemma second_update_erases_witness :
  ∃ v, LoadVotingPowerSnapshot sample_avs 30
    (store_snapshot sample_avs "hour" 3 30 false true 7 []
      (store_snapshot sample_avs "hour" 3 30 true true 7
        [{| vp_OperatorAddr := "op"; vp_VotingPower := 7 |}] sample_snapshots).2).2 = Ok (30, v) ∧
    vs_OperatorVotingPowers v = [] ∧ vs_TotalVotingPower v = 0.
Proof.
  eapply (second_update_erases sample_avs "hour" "hour" 3 3 30 true 7
    [{| vp_OperatorAddr := "op"; vp_VotingPower := 7 |}] 7 [] sample_snapshots tt _ tt _).
  - by vm_compute.
  - by vm_compute.
  - unfold is_i64_pos. lia.
  - apply run_eta. by vm_compute.
  - apply run_eta. by vm_compute.
Defined.
