(* ===== verification/OperatorKeepers.v ===== *)
(** * What x/operator expects of the other modules (types/expected_keepers.go)

    The state of x/operator lives beside the state [Y] of the modules that are
    not x/assets, x/delegation or the bank.  [Others] lists what x/operator
    calls of them: the queries of x/avs and x/oracle, the rewards of
    x/feedistribution, and the hooks of x/dogfood and x/feedistribution.  A
    query reads [Y] (and the stores of x/assets and x/operator where the
    callee does), a call that writes returns in the monad. *)

From S2P Require Import Prelude Errors Sdk RefSdk KVStore Epochs DelegationTypes Assets.
From S2P Require Import DelegationStore UndelegationStore Delegation OperatorTypes.
From S2P Require Import OperatorStore.

(** The state beside x/assets, x/delegation and the bank. *)
Record OperatorExt (Y : Type) := { oe_operator : OperatorState; oe_rest : Y }.
Arguments Build_OperatorExt {Y}.
Arguments oe_operator {Y}.
Arguments oe_rest {Y}.

Class Others (Y : Type) := {
  (** ** x/epochs *)
  y_epochs : Y → EpochsState;
  (** ** x/avs *)
  (** the list of the assets, and the map of them *)
  GetAVSSupportedAssets : AssetsState → Y → string → result error (list string * gset string);
  GetAVSSlashContract : Y → string → result error string;
  GetChainIDByAVSAddr : Y → string → option string;
  GetAVSMinimumSelfDelegation : Y → string → result error LegacyDec;
  GetEpochEndAVSs : Y → string → Z → list string;
  IsAVS : Y → string → result error bool;
  IsAVSByChainID : Y → string → option string;
  GetAVSEpochInfo : Y → string → result error EpochInfo;
  GetAVSUnbondingDuration : Y → string → result error Z;
  (** the answer, and the error *)
  IsWhitelisted : Y → string → string → bool * option error;
  GetAVSAssetsList : Y → string → result error (list string);
  (** ** x/oracle *)
  (** a price is returned together with the error *)
  GetSpecifiedAssetsPrice : Y → string → Price * option error;
  GetMultipleAssetsPrices : Y → gset string → result error (gmap string Price);
  (** ** x/feedistribution *)
  (** it may change the amounts of [RewardUndelegations] in the record *)
  SlashRewardUndelegation : UndelegationRecord → LegacyDec → M Y error UndelegationRecord;
  UpdateAllRewardsUSDForOperator : AssetsState → string → string → gset string →
    M (OperatorExt Y) error LegacyDec;
  OperatorTotalRewardsUSDValue : AssetsState → Y → string →
    result error (gmap string (gset string) * LegacyDec);
  SlashOperatorUnclaimedRewards : string → gmap string (gset string) → LegacyDec →
    M Y error (list SlashFromUnclaimedRewards);
  (** ** hooks: they read the stores of x/assets and x/operator and write their own; the
      last three return no error *)
  AfterOperatorKeySet : AssetsState → OperatorState → string → string → string → M Y error unit;
  AfterOperatorKeyReplaced : AssetsState → OperatorState → string → string → string → string →
    M Y error unit;
  AfterOperatorKeyRemovalInitiated : OperatorState → string → string → string →
    M Y Empty_set unit;
  AfterSlash : OperatorState → string → LegacyDec → list string → list SlashAssetAmount →
    list SlashFromUnclaimedRewards → M Y Empty_set unit;
  AfterJail : OperatorState → string → bool → list string → M Y Empty_set unit;
}.

Section Lenses.
Context {B Y A : Type}.
Abbreviation X := (OperatorExt Y).

Definition put_operator (o : OperatorState) (x : X) : X :=
  {| oe_operator := o; oe_rest := oe_rest x |}.
Definition put_rest (y : Y) (x : X) : X := {| oe_operator := oe_operator x; oe_rest := y |}.

(** A method of a part of the module, run on the world. *)
Definition w_operator (w : World B X) : OperatorState := oe_operator (w_ext w).
Definition w_rest (w : World B X) : Y := oe_rest (w_ext w).

Definition on_operator (m : M OperatorState error A) : M (World B X) error A :=
  on_ext (zoom oe_operator put_operator m).
Definition on_info (m : M InfoState error A) : M (World B X) error A :=
  on_operator (zoom st_info put_info m).
Definition on_keys (m : M KeyState error A) : M (World B X) error A :=
  on_operator (zoom st_keys put_keys m).
Definition on_usd (m : M USDState error A) : M (World B X) error A :=
  on_operator (zoom st_usd put_usd m).
Definition on_snap (m : M SnapshotState error A) : M (World B X) error A :=
  on_operator (zoom st_snap put_snap m).
Definition on_rest (m : M Y error A) : M (World B X) error A :=
  on_ext (zoom oe_rest put_rest m).
End Lenses.
