(* ===== verification/OperatorUnbonding.v ===== *)
(** * Opting and unbonding (x/operator/keeper/operator.go)

    Which AVSs an operator serves, and when an undelegation from it ends: at the
    end of the longest unbonding among the AVSs that it serves or left recently.
    The theorem is that the chosen epoch ends no earlier than the unbonding of
    any of those AVSs, and that the answers satisfy what x/delegation relies
    on. *)

From S2P Require Import Prelude Errors Sdk RefSdk KVStore Epochs DelegationTypes Assets.
From S2P Require Import DelegationStore UndelegationStore Delegation DelegationSafety.
From S2P Require Import OperatorTypes OperatorStore OperatorSnapshot OperatorKeepers.

Section Queries.
Context {sdk : Sdk} {Y : Type} {ot : Others Y}.
Implicit Types x : OperatorExt Y.

(** ** Opted out *)

Definition x_info x : InfoState := st_info (oe_operator x).
Definition x_snap x : SnapshotState := st_snap (oe_operator x).

(** [optedInfo.OptedOutHeight != Default && OptedOutHeight < uint64(StartHeight)] *)
Definition left_before_epoch (optedInfo : OptedInfo) (epochInfo : EpochInfo) : bool :=
  negb (op_OptedOutHeight optedInfo =? DefaultOptedOutHeight)
  && (op_OptedOutHeight optedInfo <? wrap_uint64 (ei_CurrentEpochStartHeight epochInfo)).

Definition IsOptedOutAndEffective (operatorAddr avsAddr : string) x : bool :=
  match GetOptedInfo operatorAddr avsAddr (x_info x) with
  | Ok optedInfo =>
      match GetAVSEpochInfo (oe_rest x) avsAddr with
      | Ok epochInfo => left_before_epoch optedInfo epochInfo
      | _ => true
      end
  | _ => true
  end.

Definition IsOptedOutButNotEffective (operatorAddr avsAddr : string) x : bool :=
  match GetOptedInfo operatorAddr avsAddr (x_info x) with
  | Ok optedInfo =>
      match GetAVSEpochInfo (oe_rest x) avsAddr with
      | Ok epochInfo =>
          negb (op_OptedOutHeight optedInfo =? DefaultOptedOutHeight)
          && (wrap_uint64 (ei_CurrentEpochStartHeight epochInfo) <=? op_OptedOutHeight optedInfo)
      | _ => false
      end
  | _ => false
  end.

Definition IsActive (operatorAddr avsAddr : string) x : bool :=
  negb (IsOptedOutAndEffective operatorAddr avsAddr x)
  && negb (IsJailed operatorAddr avsAddr (x_info x)).

(** ** The AVSs that hold an operator *)

(** Whether the AVS delays undelegations, and for how many epochs. *)
Definition isUnbondingRelated (avsAddr : string) (optedInfo : OptedInfo) x
    : result error (bool * Z) :=
  unbondingDuration ← GetAVSUnbondingDuration (oe_rest x) avsAddr;
  if op_OptedOutHeight optedInfo =? DefaultOptedOutHeight then Ok (true, unbondingDuration)
  else
    epochNumber ← GetEpochNumberByOptOutHeight avsAddr
                    (wrap_int64 (op_OptedOutHeight optedInfo)) (x_snap x);
    epochInfo ← GetAVSEpochInfo (oe_rest x) avsAddr;
    if ei_CurrentEpoch epochInfo <? epochNumber then Err operatortypes.ErrEpochOrder
    else if (0 <? epochNumber)
            && (wrap_uint64 (ei_CurrentEpoch epochInfo)
                <=? wrap_uint64 (wrap_uint64 epochNumber + unbondingDuration))
    then Ok (true, wrap_uint64 (wrap_uint64 epochNumber + unbondingDuration
                                - wrap_uint64 (ei_CurrentEpoch epochInfo)))
    else Ok (false, 0).

(** [keys[1]] is read before the error of the parser is checked: a key that is
    not a pair panics. *)
Definition second_key_unchecked (key : string) : result error string :=
  match ParseJoinedKeyWithCount key 2 with
  | Ok [_; avsAddr] => Ok avsAddr
  | _ => Panic
  end.

Definition add_related x (key : string) (optedInfo : OptedInfo)
    (avsList : list ImpactfulAVSInfo) : result error (bool * list ImpactfulAVSInfo) :=
  avsAddr ← second_key_unchecked key;
  r ← isUnbondingRelated avsAddr optedInfo x;
  Ok (false, if (r.1 : bool)
             then avsList ++ [{| ia_AVSAddr := avsAddr; ia_OptOutUnbondingRemaining := r.2 |}]
             else avsList).

Definition GetUnbondingRelatedAVS (operatorAddr : string) x
    : result error (list ImpactfulAVSInfo) :=
  IterateOptInfo operatorAddr (add_related x) [] (x_info x).

(** [time.Time.Sub]: the difference, at the bounds of an int64 when it exceeds
    them *)
Definition Time_Sub (t u : Z) : Z := Z.max (- 2 ^ 63) (Z.min (2 ^ 63 - 1) (t - u)).

(** [uint64(CurrentEpochStartTime.Add(Duration).Sub(BlockTime))], in nanoseconds *)
Definition remaining_time (ctx : Ctx) (epochInfo : EpochInfo) : Z :=
  wrap_uint64 (Time_Sub (ei_CurrentEpochStartTime epochInfo + ei_Duration epochInfo)
                        (BlockTime ctx)).

(** The loop of [GetUnbondingExpiration]: identifier, number and duration. *)
Fixpoint max_expiration (ctx : Ctx) (y : Y) (avsList : list ImpactfulAVSInfo)
    (best : string * Z * Z) : result error (string * Z * Z) :=
  match avsList with
  | [] => Ok best
  | avs :: avsList =>
      epochInfo ← GetAVSEpochInfo y (ia_AVSAddr avs);
      let unbondingDuration := ia_OptOutUnbondingRemaining avs in
      let epoch := wrap_uint64 (ei_CurrentEpoch epochInfo) in
      if 2 ^ 63 - 1 <? unbondingDuration + epoch then Err operatortypes.ErrExpirationOverflow
      else
        let seconds := wrap_uint64 (unbondingDuration * wrap_uint64 (ei_Duration epochInfo)
                                    + remaining_time ctx epochInfo) in
        max_expiration ctx y avsList
          (if best.2 <? seconds
           then (ei_Identifier epochInfo,
                 wrap_int64 (ei_CurrentEpoch epochInfo + wrap_int64 unbondingDuration), seconds)
           else best)
  end.

Definition GetUnbondingExpiration (ctx : Ctx) (operator : string) x
    : result error (string * Z * Z) :=
  avsList ← GetUnbondingRelatedAVS (AccAddress_String operator) x;
  max_expiration ctx (oe_rest x) avsList (NullEpochIdentifier, NullEpochNumber, 0).

(** The loop of [GetInstantUnbondingExpiration]; [handled] is the map of the
    epochs seen. *)
Fixpoint max_remaining (ctx : Ctx) (y : Y) (avsList : list ImpactfulAVSInfo)
    (handled : gset string) (best : string * Z * Z) : result error (string * Z * Z) :=
  match avsList with
  | [] => Ok best
  | avs :: avsList =>
      epochInfo ← GetAVSEpochInfo y (ia_AVSAddr avs);
      if bool_decide (ei_Identifier epochInfo ∈ handled)
      then max_remaining ctx y avsList handled best
      else
        let remainingTime := remaining_time ctx epochInfo in
        max_remaining ctx y avsList ({[ ei_Identifier epochInfo ]} ∪ handled)
          (if best.2 <? remainingTime
           then (ei_Identifier epochInfo, ei_CurrentEpoch epochInfo, remainingTime) else best)
  end.

Definition GetInstantUnbondingExpiration (ctx : Ctx) (operator : string) x
    : result error (bool * string * Z) :=
  avsList ← GetUnbondingRelatedAVS (AccAddress_String operator) x;
  instant ← max_remaining ctx (oe_rest x) avsList ∅ (NullEpochIdentifier, NullEpochNumber, 0);
  normal ← GetUnbondingExpiration ctx operator x;
  if instant.2 <? normal.2 then Ok (true, instant.1.1, instant.1.2)
  else Ok (false, normal.1.1, normal.1.2).

(** The AVSs and the epochs that the operator still serves. *)
Definition GetImpactfulEpochsAndAVSsForOperator (operatorAddr : string) x
    : result error (list string * list string) :=
  r ← IterateOptInfo operatorAddr (λ key optedInfo st,
    avsAddr ← second_key_unchecked key;
    epochInfo ← GetAVSEpochInfo (oe_rest x) avsAddr;
    if left_before_epoch optedInfo epochInfo then Ok (false, st)
    else
      let '(avsList, epochsList, epochsMap) := st in
      Ok (false, if bool_decide (ei_Identifier epochInfo ∈ (epochsMap : gset string))
                 then (avsList ++ [avsAddr], epochsList, epochsMap)
                 else (avsList ++ [avsAddr], epochsList ++ [ei_Identifier epochInfo],
                       {[ ei_Identifier epochInfo ]} ∪ epochsMap)))
    ([], [], ∅) (x_info x);
  Ok r.1.

Definition IsImpactfulEpochForOperator (epochIdentifier operatorAddr : string) x : bool :=
  match IterateOptInfo operatorAddr (λ key optedInfo isImpactfulEpoch,
    keys ← ParseJoinedKeyWithCount key 2;
    avsAddr ← nth_key 1 keys;
    epochInfo ← GetAVSEpochInfo (oe_rest x) avsAddr;
    if left_before_epoch optedInfo epochInfo then Ok (false, isImpactfulEpoch)
    else if bool_decide (ei_Identifier epochInfo = epochIdentifier) then Ok (true, true)
    else Ok (false, isImpactfulEpoch)) false (x_info x) with
  | Ok b => b
  | _ => false
  end.

(** An error of the iteration counts as true. *)
Definition IsUnbondingRelatedAVS (avsAddr : string) x : bool :=
  let avsAddr := ToLower avsAddr in
  match IterateOptInfo EmptyString (λ key optedInfo isUnbondingRelatedAVS,
    keys ← ParseJoinedKeyWithCount key 2;
    avs ← nth_key 1 keys;
    if bool_decide (avs = avsAddr) then
      r ← isUnbondingRelated avsAddr optedInfo x;
      Ok (r.1, r.1)
    else Ok (false, isUnbondingRelatedAVS)) false (x_info x) with
  | Ok b => b
  | _ => true
  end.
End Queries.

(** ** What x/delegation is promised *)

(** The hooks of x/delegation that x/feedistribution implements; they may read
    the store of x/operator. *)
Class DelegationHooks (Y : Type) := {
  y_AfterDelegation : OperatorState → string → string → string → Int → OperatorAssetInfo →
    M Y error unit;
  y_AfterUndelegationStarted : OperatorState → string → string → string → string → Int →
    OperatorAssetInfo → M Y error unit;
  y_AfterNSTDelegationSlashed : OperatorState → string → string → string → Int →
    OperatorAssetInfo → M Y error unit;
  y_CompleteRewardUndelegation : OperatorState → UndelegationRecord → M Y error unit;
}.

(** Run on the other modules, reading the store of x/operator. *)
Definition reading {Y A} (m : OperatorState → M Y error A) : M (OperatorExt Y) error A :=
  λ x, zoom oe_rest put_rest (m (oe_operator x)) x.

(** x/operator as the operator keeper that x/delegation expects. *)
#[export] Instance operator_keepers {sdk : Sdk} {Y} {ot : Others Y} {dh : DelegationHooks Y}
    (ctx : Ctx) : Keepers (OperatorExt Y) := {|
  Delegation.IsOperator x op := IsOperator op (x_info x);
  Delegation.IsOperatorFrozen x op := IsOperatorFrozen op (x_info x);
  Delegation.GetUnbondingExpiration x op := GetUnbondingExpiration ctx op x;
  Delegation.GetInstantUnbondingExpiration x op := GetInstantUnbondingExpiration ctx op x;
  ext_epochs x := y_epochs (oe_rest x);
  AfterDelegation s a op t p := reading (λ o, y_AfterDelegation o s a op t p);
  AfterUndelegationStarted s a op k t p :=
    reading (λ o, y_AfterUndelegationStarted o s a op k t p);
  AfterNSTDelegationSlashed s a op t p :=
    reading (λ o, y_AfterNSTDelegationSlashed o s a op t p);
  CompleteRewardUndelegation r := reading (λ o, y_CompleteRewardUndelegation o r);
|}.

Section Laws.
Context `{SdkLaws} {Y : Type} {ot : Others Y}.
Implicit Types (x : OperatorExt Y) (y : Y).

(** The epochs that x/avs gives are stored epochs. *)
Definition epoch_info_ok (e : EpochInfo) : Prop :=
  ei_Identifier e ≠ EmptyString ∧ Z.of_nat (String.length (ei_Identifier e)) < 2 ^ 63 ∧
  0 ≤ ei_CurrentEpoch e < 2 ^ 63.

(** What keeps [keepers_ok]: the registered addresses are 20 bytes long, the
    epochs of the AVSs are stored epochs, and their unbonding durations fit. *)
Record operator_ok x : Prop := {
  ok_registered op : IsOperator op (x_info x) = true → String.length op = AccAddressLength;
  ok_epochs avsAddr e : GetAVSEpochInfo (oe_rest x) avsAddr = Ok e → epoch_info_ok e;
  ok_durations avsAddr u :
    GetAVSUnbondingDuration (oe_rest x) avsAddr = Ok u → 0 ≤ u < 2 ^ 63;
}.

Lemma null_epoch_wf : epoch_wf NullEpochIdentifier NullEpochNumber.
Proof. by vm_compute. Qed.

(** ** The AVSs that hold an operator *)

(** The epoch at which an AVS releases an operator, counted from the current one:
    all of the unbonding if it is opted in, the rest of it otherwise. *)
Lemma isUnbondingRelated_Ok avsAddr info x b r :
  operator_ok x → isUnbondingRelated avsAddr info x = Ok (b, r) →
  ∃ u, GetAVSUnbondingDuration (oe_rest x) avsAddr = Ok u ∧ (b = true → 0 ≤ r ≤ u) ∧
    (op_OptedOutHeight info = DefaultOptedOutHeight → b = true ∧ r = u) ∧
    (op_OptedOutHeight info ≠ DefaultOptedOutHeight → ∀ k e,
       GetEpochNumberByOptOutHeight avsAddr (wrap_int64 (op_OptedOutHeight info)) (x_snap x) = Ok k →
       GetAVSEpochInfo (oe_rest x) avsAddr = Ok e → 0 < k → ei_CurrentEpoch e ≤ k + u →
       b = true ∧ ei_CurrentEpoch e + r = k + u).
Proof.
  intros [_ Hep Hdur]. unfold isUnbondingRelated.
  destruct (GetAVSUnbondingDuration _ _) as [u| |] eqn:Hu; cbn; try done.
  specialize (Hdur _ _ Hu). destruct (Z.eqb_spec (op_OptedOutHeight info) DefaultOptedOutHeight).
  { intros [= <- <-]. exists u. split_and!; [done|lia|done..]. }
  destruct (GetEpochNumberByOptOutHeight _ _ _) as [k| |]; cbn; try done.
  destruct (GetAVSEpochInfo _ _) as [e| |] eqn:He; cbn; try done.
  destruct (Hep _ _ He) as (_ & _ & Hc).
  destruct (Z.ltb_spec (ei_CurrentEpoch e) k); [done|]. rewrite (wrap_uint64_id (ei_CurrentEpoch e)) by lia.
  destruct (Z.ltb_spec 0 k); cbn [andb].
  2:{ intros [= <- <-]. exists u. split_and!; [done..|]. intros _ k' e' [= <-]. lia. }
  rewrite (wrap_uint64_id k), (wrap_uint64_id (k + u)) by lia.
  destruct (Z.leb_spec (ei_CurrentEpoch e) (k + u)); intros [= <- <-]; exists u.
  - rewrite wrap_uint64_id by lia. split_and!; [done|lia|done|].
    intros _ k' e' [= <-] [= <-]. split; [done|lia].
  - split_and!; [done..|]. intros _ k' e' [= <-] [= <-]. lia.
Qed.

(** The converse: what the remaining unbonding of an AVS that delays was counted from. *)
Lemma isUnbondingRelated_counted avsAddr info x r :
  operator_ok x → isUnbondingRelated avsAddr info x = Ok (true, r) →
  ∃ u, GetAVSUnbondingDuration (oe_rest x) avsAddr = Ok u ∧
    (op_OptedOutHeight info = DefaultOptedOutHeight → r = u) ∧
    (op_OptedOutHeight info ≠ DefaultOptedOutHeight → ∀ e, GetAVSEpochInfo (oe_rest x) avsAddr = Ok e →
       ∃ k, GetEpochNumberByOptOutHeight avsAddr (wrap_int64 (op_OptedOutHeight info)) (x_snap x) = Ok k ∧
         0 < k ∧ ei_CurrentEpoch e + r = k + u).
Proof.
  intros Hx Hr. destruct (isUnbondingRelated_Ok _ _ _ _ _ Hx Hr) as (u & Hu & _ & Hin & Hout).
  exists u. split; [done|]. split; [intros; by apply Hin|]. intros Hne e He.
  revert Hr. unfold isUnbondingRelated. rewrite Hu. cbn. rewrite (proj2 (Z.eqb_neq _ _) Hne).
  destruct (GetEpochNumberByOptOutHeight _ _ _) as [k| |] eqn:Hk; cbn; try done. rewrite He. cbn.
  destruct (ok_epochs _ Hx _ _ He) as (_ & _ & Hc). pose proof (ok_durations _ Hx _ _ Hu) as Hd.
  destruct (Z.ltb_spec (ei_CurrentEpoch e) k); [done|].
  destruct (Z.ltb_spec 0 k); cbn [andb]; [|done].
  rewrite (wrap_uint64_id (ei_CurrentEpoch e)), (wrap_uint64_id k), (wrap_uint64_id (k + u)) by lia.
  destruct (Z.leb_spec (ei_CurrentEpoch e) (k + u)); [|done]. intros _. exists k. split; [done|]. split; [done|].
  by apply (Hout Hne k e).
Qed.

Definition related (x : OperatorExt Y) (a : ImpactfulAVSInfo) : Prop :=
  ∃ info, isUnbondingRelated (ia_AVSAddr a) info x = Ok (true, ia_OptOutUnbondingRemaining a).

Lemma related_bounds x a :
  operator_ok x → related x a → ∃ u, GetAVSUnbondingDuration (oe_rest x) (ia_AVSAddr a) = Ok u ∧
    0 ≤ ia_OptOutUnbondingRemaining a ≤ u ∧ u < 2 ^ 63.
Proof.
  intros Hx [info Hr]. destruct (isUnbondingRelated_Ok _ _ _ _ _ Hx Hr) as (u & Hu & Hb & _).
  exists u. pose proof (ok_durations _ Hx _ _ Hu). specialize (Hb eq_refl). split; [done|lia].
Qed.

Lemma add_related_all x entries l0 l :
  iterate_opt (add_related x) entries l0 = Ok l → Forall (related x) l0 →
  Forall (related x) l ∧ l0 ⊆ l ∧ ∀ k info, (k, info) ∈ entries → ∃ avsAddr b r,
    second_key_unchecked k = Ok avsAddr ∧ isUnbondingRelated avsAddr info x = Ok (b, r) ∧
    (b = true → {| ia_AVSAddr := avsAddr; ia_OptOutUnbondingRemaining := r |} ∈ l).
Proof.
  revert l0. induction entries as [|[k info] entries IH]; intros l0; cbn [iterate_opt].
  { intros [= ->] Hl. split_and!; [done..|]. intros k info Hin. by apply elem_of_nil in Hin. }
  destruct (add_related x k info l0) as [v| |] eqn:Hadd; try done. revert Hadd. unfold add_related.
  destruct (second_key_unchecked k) as [avsAddr| |] eqn:Hk; try done. cbn.
  destruct (isUnbondingRelated avsAddr info x) as [[b r]| |] eqn:Hr; try done. cbn.
  intros [= <-] Hrun Hl. destruct (IH _ Hrun) as (Hall & Hsub & Hin).
  { destruct b; [|done]. apply Forall_app. split; [done|]. repeat constructor. by exists info. }
  split; [done|]. split; [destruct b; set_solver|].
  intros k' info' [[= -> ->]|Hin']%elem_of_cons; [|by apply Hin].
  exists avsAddr, b, r. split_and!; [done..|]. intros ->. set_solver.
Qed.

(** [GetUnbondingRelatedAVS] lists every AVS that holds the operator, and only
    AVSs that hold one. *)
Lemma GetUnbondingRelatedAVS_Ok operatorAddr x l :
  GetUnbondingRelatedAVS operatorAddr x = Ok l →
  Forall (related x) l ∧
  ∀ avsAddr info, key_part operatorAddr → key_part avsAddr →
    optedInfos (x_info x) !! GetJoinedStoreKey [operatorAddr; avsAddr] = Some info →
    ∃ b r, isUnbondingRelated avsAddr info x = Ok (b, r) ∧
      (b = true → {| ia_AVSAddr := avsAddr; ia_OptOutUnbondingRemaining := r |} ∈ l).
Proof.
  intros Hrun. destruct (add_related_all _ _ _ _ Hrun) as (Hall & _ & Hin); [done|].
  split; [done|]. intros avsAddr info Hop Havs Hk.
  destruct (Hin (GetJoinedStoreKey [operatorAddr; avsAddr]) info) as (a & b & r & Ha & Hr & Hb).
  { apply elem_of_prefix_iterator. split; [done|]. apply has_prefix_app. }
  unfold second_key_unchecked in Ha. rewrite parse_count2 in Ha by done.
  injection Ha as <-. by exists b, r.
Qed.

(** The AVSs of the list are ones that the operator is opted into or has left. *)
Definition opted_wf x : Prop := ∀ k, is_Some (optedInfos (x_info x) !! k) →
  ∃ op avsAddr, String.length op = AccAddressLength ∧ key_part avsAddr ∧
    k = GetJoinedStoreKey [AccAddress_String op; avsAddr].

Lemma add_related_from x entries l0 l a :
  iterate_opt (add_related x) entries l0 = Ok l → a ∈ l →
  a ∈ l0 ∨ ∃ k info, (k, info) ∈ entries ∧ second_key_unchecked k = Ok (ia_AVSAddr a) ∧
    isUnbondingRelated (ia_AVSAddr a) info x = Ok (true, ia_OptOutUnbondingRemaining a).
Proof.
  revert l0. induction entries as [|[k info] entries IH]; intros l0; cbn [iterate_opt].
  { intros [= ->]. by left. }
  destruct (add_related x k info l0) as [v| |] eqn:Hadd; try done. revert Hadd. unfold add_related.
  destruct (second_key_unchecked k) as [avsAddr| |] eqn:Hk; try done. cbn.
  destruct (isUnbondingRelated avsAddr info x) as [[b r]| |] eqn:Hr; try done. cbn.
  intros [= <-] Hrun Ha. destruct (IH _ Hrun Ha) as [Hl|(k' & info' & Hin & Hrest)].
  - destruct b; [|by left]. apply elem_of_app in Hl as [?|Hl]; [by left|right].
    apply list_elem_of_singleton in Hl as ->.
    exists k, info. split; [left|done].
  - right. exists k', info'. split; [by right|done].
Qed.

Lemma GetUnbondingRelatedAVS_own operator x l a :
  String.length operator = AccAddressLength → opted_wf x →
  GetUnbondingRelatedAVS (AccAddress_String operator) x = Ok l → a ∈ l →
  ∃ info, optedInfos (x_info x) !! GetJoinedStoreKey [AccAddress_String operator; ia_AVSAddr a] = Some info ∧
    isUnbondingRelated (ia_AVSAddr a) info x = Ok (true, ia_OptOutUnbondingRemaining a).
Proof.
  intros Hlen Hwf Hrun Ha.
  destruct (add_related_from _ _ _ _ _ Hrun Ha) as [Hnil|(k & info & Hin & Hk & Hr)]; [by apply elem_of_nil in Hnil|].
  apply elem_of_prefix_iterator in Hin as [Hinfo Hpre].
  destruct (Hwf k) as (op & avsAddr & Hop & Havs & ->); [eauto|].
  apply has_prefix_spec in Hpre as [t Heq]. cbn in Heq.
  apply app_inj_len in Heq as [Heq _]; [|apply bech32_length; congruence]. rewrite Heq in *.
  unfold second_key_unchecked in Hk. rewrite parse_count2 in Hk by (done || apply bech32_charset).
  injection Hk as ->. by exists info.
Qed.

(** ** The latest release *)

(** When epoch [n] of [e] ends, if every epoch lasts as long as the current one. *)
Definition finish (e : EpochInfo) (n : Z) : Z :=
  ei_CurrentEpochStartTime e + (n - ei_CurrentEpoch e + 1) * ei_Duration e.

(** The current epoch is under way. *)
Definition under_way (ctx : Ctx) (e : EpochInfo) : Prop :=
  0 < ei_Duration e < 2 ^ 63 ∧
  ei_CurrentEpochStartTime e ≤ BlockTime ctx ≤ ei_CurrentEpochStartTime e + ei_Duration e.

(** The AVSs of [y] have an epoch under way, and their unbonding fits in 64 bits. *)
Definition timely (ctx : Ctx) (y : Y) : Prop := ∀ avsAddr e,
  GetAVSEpochInfo y avsAddr = Ok e → under_way ctx e ∧
  ∀ u, GetAVSUnbondingDuration y avsAddr = Ok u → (u + 1) * ei_Duration e < 2 ^ 64.

Lemma remaining_time_eq ctx e :
  under_way ctx e →
  remaining_time ctx e = ei_CurrentEpochStartTime e + ei_Duration e - BlockTime ctx.
Proof.
  unfold under_way, remaining_time, Time_Sub. intros. rewrite wrap_uint64_id; lia.
Qed.

(** An entry of the list, with its epoch, and the end that it asks for. *)
Definition asks ctx x a e : Prop :=
  GetAVSEpochInfo (oe_rest x) (ia_AVSAddr a) = Ok e ∧ under_way ctx e ∧ epoch_info_ok e ∧
  ia_OptOutUnbondingRemaining a + ei_CurrentEpoch e < 2 ^ 63.

Lemma max_expiration_spec ctx x l best r :
  operator_ok x → timely ctx (oe_rest x) → Forall (related x) l → 0 ≤ best.2 →
  max_expiration ctx (oe_rest x) l best = Ok r →
  best.2 ≤ r.2 ∧
  (∀ a, a ∈ l → ∃ e, asks ctx x a e ∧
     finish e (ei_CurrentEpoch e + ia_OptOutUnbondingRemaining a) ≤ BlockTime ctx + r.2) ∧
  (r = best ∨ ∃ a e, a ∈ l ∧ asks ctx x a e ∧ r.1.1 = ei_Identifier e ∧
     r.1.2 = ei_CurrentEpoch e + ia_OptOutUnbondingRemaining a ∧
     BlockTime ctx + r.2 = finish e r.1.2).
Proof.
  intros Hx Ht. revert best. induction l as [|a l IH]; intros best Hl Hb; cbn [max_expiration].
  { intros [= <-]. split_and!; [done| |by left]. intros a Ha. by apply elem_of_nil in Ha. }
  inversion Hl as [|?? Ha Hl']; subst. destruct (related_bounds _ _ Hx Ha) as (u & Hu & Hr & Hu63).
  destruct (GetAVSEpochInfo _ (ia_AVSAddr a)) as [e| |] eqn:He; cbn; try done.
  destruct (Ht _ _ He) as [Huw Hfit]. specialize (Hfit _ Hu).
  pose proof (ok_epochs _ Hx _ _ He) as Hok. destruct (Hok) as (_ & _ & Hc).
  rewrite (wrap_uint64_id (ei_CurrentEpoch e)) by lia.
  destruct (Z.ltb_spec (2 ^ 63 - 1) (ia_OptOutUnbondingRemaining a + ei_CurrentEpoch e)); [done|].
  rewrite remaining_time_eq by done. pose proof Huw as [Hdur Hnow].
  set (rem := ia_OptOutUnbondingRemaining a) in *.
  assert (rem * ei_Duration e ≤ u * ei_Duration e) by (apply Z.mul_le_mono_nonneg_r; lia).
  assert (0 ≤ rem * ei_Duration e) by (apply Z.mul_nonneg_nonneg; lia).
  rewrite (wrap_uint64_id (ei_Duration e)), wrap_uint64_id by lia.
  rewrite (wrap_int64_id rem), wrap_int64_id by lia. intros Hrun.
  set (d := rem * _ + _) in *.
  assert (Hask : asks ctx x a e) by (split_and!; [done..|lia]).
  assert (Hfin : finish e (ei_CurrentEpoch e + rem) = BlockTime ctx + d) by (unfold finish, d; lia).
  apply IH in Hrun as (Hle & Hall & Hbest); [|done|destruct (_ <? _) eqn:?; cbn; lia].
  split_and!.
  - destruct (Z.ltb_spec best.2 d); cbn in *; lia.
  - intros a' [->|Ha']%elem_of_cons; [|by apply Hall]. exists e. split; [done|]. fold rem.
    rewrite Hfin. destruct (Z.ltb_spec best.2 d); cbn in *; lia.
  - destruct Hbest as [->|(a' & e' & Ha' & Hrest)]; [|right; exists a', e'; split; [by right|done]].
    destruct (best.2 <? d); [|by left]. right. exists a, e.
    split_and!; [by left|done..|]. cbn. by rewrite Hfin.
Qed.
(** ** [keepers_ok] *)

Lemma max_expiration_wf ctx x l best r :
  operator_ok x → Forall (related x) l → epoch_wf best.1.1 best.1.2 →
  max_expiration ctx (oe_rest x) l best = Ok r → epoch_wf r.1.1 r.1.2.
Proof.
  intros Hx. revert best. induction l as [|a l IH]; intros best Hl Hb; cbn [max_expiration].
  { by intros [= <-]. }
  inversion Hl as [|?? Ha Hl']; subst. destruct (related_bounds _ _ Hx Ha) as (u & _ & Hr & Hu).
  destruct (GetAVSEpochInfo _ (ia_AVSAddr a)) as [e| |] eqn:He; cbn; try done.
  destruct (ok_epochs _ Hx _ _ He) as (Hid & Hlen & Hn). rewrite (wrap_uint64_id (ei_CurrentEpoch e)) by lia.
  destruct (Z.ltb_spec (2 ^ 63 - 1) (ia_OptOutUnbondingRemaining a + ei_CurrentEpoch e)); [done|].
  apply IH; [done|]. destruct (_ <? _); [|done]. cbn. unfold epoch_wf.
  rewrite (wrap_int64_id (ia_OptOutUnbondingRemaining a)), wrap_int64_id by lia.
  split_and!; [done..|lia|lia].
Qed.

Lemma max_remaining_wf ctx x l handled best r :
  operator_ok x → epoch_wf best.1.1 best.1.2 →
  max_remaining ctx (oe_rest x) l handled best = Ok r → epoch_wf r.1.1 r.1.2.
Proof.
  intros Hx. revert handled best. induction l as [|a l IH]; intros handled best Hb; cbn [max_remaining].
  { by intros [= <-]. }
  destruct (GetAVSEpochInfo _ (ia_AVSAddr a)) as [e| |] eqn:He; cbn; try done.
  case_bool_decide; apply IH; [done|]. destruct (_ <? _); [|done]. apply (ok_epochs _ Hx _ _ He).
Qed.

Lemma operator_keepers_ok {dh : DelegationHooks Y} ctx x :
  operator_ok x → keepers_ok (kp := operator_keepers ctx) x.
Proof.
  intros Hx. assert (Hnormal : ∀ op r, GetUnbondingExpiration ctx op x = Ok r →
    epoch_wf r.1.1 r.1.2).
  { intros op r. unfold GetUnbondingExpiration.
    destruct (GetUnbondingRelatedAVS _ x) as [l| |] eqn:Hl; cbn; try done.
    destruct (GetUnbondingRelatedAVS_Ok _ _ _ Hl) as [Hrel _].
    by apply max_expiration_wf, null_epoch_wf. }
  split; cbn.
  - apply (ok_registered _ Hx).
  - intros op id n u Hrun. by apply (Hnormal op (id, n, u)).
  - intros op b id n. unfold GetInstantUnbondingExpiration.
    destruct (GetUnbondingRelatedAVS _ x) as [l| |]; cbn; try done.
    destruct (max_remaining _ _ _ _ _) as [r| |] eqn:Hmax; cbn; try done.
    apply max_remaining_wf in Hmax; [|done|by apply null_epoch_wf].
    destruct (GetUnbondingExpiration ctx op x) as [r'| |] eqn:Hn; cbn; try done.
    apply Hnormal in Hn. by destruct (_ <? _); intros [= _ <- <-].
Qed.

(** C15.  An undelegation outlasts every AVS that can slash it, and no longer.  For the
    epoch and the duration that [GetUnbondingExpiration] chooses for an operator: every AVS
    that the operator is opted into ends its unbonding, counted from the current epoch, no
    later than that; so does every AVS that it left in an epoch that has a snapshot, counted
    from that epoch; and the choice is the end of the unbonding, so counted, of one of these
    AVSs of the operator, or now, when there is none.  The epochs of the AVSs are under way
    and as long as they are now, and the unbondings fit in 64 bits ([timely]); for the second
    part the operator has a 20-byte address and so have those of the opt-in records. *)
Theorem GetUnbondingExpiration_covers ctx operator x id n d :
  operator_ok x → timely ctx (oe_rest x) →
  GetUnbondingExpiration ctx operator x = Ok (id, n, d) →
  (∀ avsAddr info e u, key_part avsAddr →
     optedInfos (x_info x) !! GetJoinedStoreKey [AccAddress_String operator; avsAddr] = Some info →
     GetAVSEpochInfo (oe_rest x) avsAddr = Ok e →
     GetAVSUnbondingDuration (oe_rest x) avsAddr = Ok u →
     (op_OptedOutHeight info = DefaultOptedOutHeight →
        finish e (ei_CurrentEpoch e + u) ≤ BlockTime ctx + d) ∧
     (op_OptedOutHeight info ≠ DefaultOptedOutHeight → ∀ k,
        GetEpochNumberByOptOutHeight avsAddr (wrap_int64 (op_OptedOutHeight info)) (x_snap x) =
          Ok k → 0 < k → finish e (k + u) ≤ BlockTime ctx + d)) ∧
  (String.length operator = AccAddressLength → opted_wf x →
   (id, n, d) = (NullEpochIdentifier, NullEpochNumber, 0) ∨
   ∃ avsAddr info e u,
     optedInfos (x_info x) !! GetJoinedStoreKey [AccAddress_String operator; avsAddr] = Some info ∧
     GetAVSEpochInfo (oe_rest x) avsAddr = Ok e ∧ GetAVSUnbondingDuration (oe_rest x) avsAddr = Ok u ∧
     id = ei_Identifier e ∧ BlockTime ctx + d = finish e n ∧
     (op_OptedOutHeight info = DefaultOptedOutHeight → n = ei_CurrentEpoch e + u) ∧
     (op_OptedOutHeight info ≠ DefaultOptedOutHeight → ∃ k,
        GetEpochNumberByOptOutHeight avsAddr (wrap_int64 (op_OptedOutHeight info)) (x_snap x) = Ok k ∧
        0 < k ∧ n = k + u)).
Proof.
  intros Hx Ht. unfold GetUnbondingExpiration.
  destruct (GetUnbondingRelatedAVS _ x) as [l| |] eqn:Hl; cbn; try done.
  apply GetUnbondingRelatedAVS_Ok in Hl as Hl'. destruct Hl' as [Hrel Hin]. intros Hrun.
  apply max_expiration_spec in Hrun as (Hd & Hall & Hbest); try done. cbn in *. split.
  - intros avsAddr info e u Havs Hinfo He Hu.
    destruct (Hin avsAddr info) as (b & r & Hr & Hb); [apply bech32_charset|done..|].
    destruct (isUnbondingRelated_Ok _ _ _ _ _ Hx Hr) as (u' & Hu' & _ & Hopted & Hleft).
    rewrite Hu in Hu'. injection Hu' as <-.
    assert (Hcov : b = true → finish e (ei_CurrentEpoch e + r) ≤ BlockTime ctx + d).
    { intros Htrue. destruct (Hall _ (Hb Htrue)) as (e' & [He' _] & Hle). cbn in *.
      rewrite He in He'. by injection He' as <-. }
    split; [intros Hd0; destruct (Hopted Hd0) as [Htrue ->]; by apply Hcov|].
    intros Hout k Hk Hpos. destruct (decide (ei_CurrentEpoch e ≤ k + u)).
    + destruct (Hleft Hout k e) as [Htrue <-]; [done..|]. by apply Hcov.
    + destruct (Ht _ _ He) as [[Hdur Hnow] _]. unfold finish. nia.
  - intros Hlen Hwf. destruct Hbest as [?|(a & e & Ha & [He _] & -> & -> & Hfin)]; [by left|right].
    destruct (GetUnbondingRelatedAVS_own _ _ _ _ Hlen Hwf Hl Ha) as (info & Hinfo & Hr).
    destruct (isUnbondingRelated_counted _ _ _ _ Hx Hr) as (u & Hu & Hopted & Hleft).
    exists (ia_AVSAddr a), info, e, u. split_and!; [done..| |].
    + intros Hd0. by rewrite (Hopted Hd0).
    + intros Hout. destruct (Hleft Hout e He) as (k & Hk & Hpos & Heq). by exists k.
Qed.
End Laws.
