(* ===== verification/OperatorUSD.v ===== *)
(** * USD values (x/operator/keeper/usd_value.go)

    The USD value of an AVS, of an operator in an AVS, of an asset of an operator
    at the end of an epoch, of the rewards that compound, and the asset list of
    an AVS at its last update. *)

From S2P Require Import Prelude Errors Sdk RefSdk KVStore Epochs Shares DelegationTypes Assets.
From S2P Require Import DelegationStore UndelegationStore Delegation.
From S2P Require Import OperatorTypes OperatorStore OperatorSnapshot OperatorKeepers.
From S2P Require Import OperatorUnbonding.

(** ** The value of an operator in an AVS *)

Section Store.
Context {sdk : Sdk}.

Definition usd_key (avsAddr operatorAddr : string) : string :=
  GetJoinedStoreKey [ToLower avsAddr; operatorAddr].

(** [DeltaOperatorUSDInfo]: self, total, active *)
Definition UpdateOperatorUSDValue (avsAddr operatorAddr : string)
    (deltaSelf deltaTotal deltaActive : option LegacyDec) : M USDState error unit :=
  _ ← fail_if (bool_decide (operatorAddr = EmptyString)) operatortypes.ErrParameterInvalid;
  let key := usd_key avsAddr operatorAddr in
  usdInfo ← gets (λ s, default usd_zero (operatorUSDValues s !! key));
  self ← lift_result (UpdateAssetDecValue (uv_SelfUSDValue usdInfo) deltaSelf);
  total ← lift_result (UpdateAssetDecValue (uv_TotalUSDValue usdInfo) deltaTotal);
  active ← lift_result (UpdateAssetDecValue (uv_ActiveUSDValue usdInfo) deltaActive);
  modify (set_operatorUSDValues (insert key
    {| uv_SelfUSDValue := self; uv_TotalUSDValue := total; uv_ActiveUSDValue := active |})).

Definition InitOperatorUSDValue (avsAddr operatorAddr : string) : M USDState error unit :=
  _ ← fail_if (bool_decide (operatorAddr = EmptyString)) operatortypes.ErrParameterInvalid;
  let key := usd_key avsAddr operatorAddr in
  has ← gets (λ s, is_some (operatorUSDValues s !! key));
  if (has : bool) then mret tt
  else modify (set_operatorUSDValues (insert key usd_zero)).

Definition DeleteOperatorUSDValues (avsAddr : string) (operators : list string)
    : M USDState error unit :=
  for_each operators (λ operatorAddr,
    _ ← fail_if (bool_decide (operatorAddr = EmptyString)) operatortypes.ErrParameterInvalid;
    modify (set_operatorUSDValues (delete (usd_key avsAddr operatorAddr)))).

Definition DeleteAllOperatorsUSDValueForAVS (avsAddr : string) : M USDState error unit :=
  entries ← gets (λ s,
    prefix_iterator (IterateOperatorsForAVSPrefix (ToLower avsAddr)) (operatorUSDValues s));
  for_each entries (λ kv,
    _ ← lift_result (ParseJoinedKeyWithCount kv.1 2);
    modify (set_operatorUSDValues (delete kv.1))).

(** ** The value of an AVS *)

(** A nil amount is [None]. *)
Definition UpdateAVSUSDValue (avsAddr : string) (opAmount : option LegacyDec)
    : M USDState error unit :=
  _ ← fail_if (match opAmount with None => true | Some a => a =? 0 end)
        operatortypes.ErrValueIsNilOrZero;
  let key := ToLower avsAddr in
  totalValue ← gets (λ s, default 0 (avsUSDValues s !! key));
  totalValue ← lift_result (UpdateAssetDecValue totalValue opAmount);
  modify (set_avsUSDValues (insert key totalValue)).

Definition SetAVSUSDValue (avsAddr : string) (amount : option LegacyDec) : M USDState error unit :=
  match amount with
  | None => fail operatortypes.ErrValueIsNilOrZero
  | Some amount => modify (set_avsUSDValues (insert (ToLower avsAddr) amount))
  end.

Definition DeleteAVSUSDValue (avsAddr : string) : M USDState error unit :=
  modify (set_avsUSDValues (delete (ToLower avsAddr))).

Definition GetAVSUSDValue (avsAddr : string) (s : USDState) : result error LegacyDec :=
  match avsUSDValues s !! ToLower avsAddr with
  | None => Err operatortypes.ErrNoKeyInTheStore
  | Some ret => Ok ret
  end.

(** ** Iterating the operators of an AVS *)

Section Iterate.
(** The state of the callback, which contains the store of the module. *)
Context {S : Type} (get : S → USDState) (put : USDState → S → S) (isUpdate : bool).
Context (opFunc : string → OperatorOptedUSDValue → M S error OperatorOptedUSDValue).

Fixpoint iterate_usd (entries : list (string * OperatorOptedUSDValue))
    : M S error (list (string * OperatorOptedUSDValue)) :=
  match entries with
  | [] => mret []
  | (key, optedUSDValues) :: entries =>
      keys ← lift_result (ParseJoinedKeyWithCount key 2);
      operator ← lift_result (nth_key 1 keys);
      optedUSDValues' ← opFunc operator optedUSDValues;
      updates ← iterate_usd entries;
      mret (if isUpdate then (key, optedUSDValues') :: updates else updates)
  end.

Definition IterateOperatorUSDValuesForAVS (avsAddr : string) : M S error unit :=
  entries ← gets (λ s, prefix_iterator (IterateOperatorsForAVSPrefix (ToLower avsAddr))
                         (operatorUSDValues (get s)));
  updates ← iterate_usd entries;
  modify (λ s, put (set_operatorUSDValues (insert_all updates) (get s)) s).
End Iterate.

(** ** Genesis *)

Definition SetAllOperatorUSDValues (usdValues : list (string * OperatorOptedUSDValue))
    : M USDState error unit := modify (set_operatorUSDValues (insert_all usdValues)).

Definition GetAllOperatorUSDValues (s : USDState) : list (string * OperatorOptedUSDValue) :=
  prefix_iterator EmptyString (operatorUSDValues s).

Definition SetAllAVSUSDValues (usdValues : list (string * LegacyDec)) : M USDState error unit :=
  modify (set_avsUSDValues (insert_all ((λ kv, (ToLower kv.1, kv.2)) <$> usdValues))).

Definition IterateAVSUSDValues {S} (get : S → USDState)
    (opFunc : string → LegacyDec → M S error unit) : M S error unit :=
  entries ← gets (λ s, prefix_iterator EmptyString (avsUSDValues (get s)));
  for_each entries (λ kv, opFunc kv.1 kv.2).

Definition GetAllAVSUSDValues : M USDState error (list (string * LegacyDec)) :=
  with_var [] (IterateAVSUSDValues fst (λ avsAddr avsUSDValue,
    modify (λ s, (s.1, s.2 ++ [(avsAddr, avsUSDValue)])))).

(** ** The assets of an operator at the end of an epoch *)

Definition asset_usd_key (epochIdentifier operator assetID : string) : string :=
  GetJoinedStoreKey [epochIdentifier; operator; assetID].

Definition SetOperatorAssetUSDValue (epochIdentifier operator assetID : string)
    (amount : option LegacyDec) : M USDState error unit :=
  match amount with
  | None => fail operatortypes.ErrValueIsNilOrZero
  | Some amount =>
      modify (set_assetUSDValues (insert (asset_usd_key epochIdentifier operator assetID) amount))
  end.

(** The prefix is the joined key without a trailing delimiter. *)
Definition DeleteOperatorAssetUSDValueByEpoch (epochIdentifier operator : string)
    : M USDState error unit :=
  entries ← gets (λ s,
    prefix_iterator (GetJoinedStoreKey [epochIdentifier; operator]) (assetUSDValues s));
  for_each entries (λ kv, modify (set_assetUSDValues (delete kv.1))).

Definition GetOperatorAssetUSDValue (epochIdentifier operator assetID : string) (s : USDState)
    : result error LegacyDec :=
  match assetUSDValues s !! asset_usd_key epochIdentifier operator assetID with
  | None => Err operatortypes.ErrNoKeyInTheStore
  | Some ret => Ok ret
  end.

Definition HasOperatorAssetUSDValue (epochIdentifier operator assetID : string) (s : USDState)
    : bool := is_some (assetUSDValues s !! asset_usd_key epochIdentifier operator assetID).

Definition SetAllOperatorAssetUSDValues (usdValues : list (string * LegacyDec))
    : M USDState error unit := modify (set_assetUSDValues (insert_all usdValues)).

Definition GetAllOperatorAssetUSDValues (s : USDState) : list (string * LegacyDec) :=
  prefix_iterator EmptyString (assetUSDValues s).

(** ** The assets of an AVS at its last update *)

Definition SetAVSAssetsPerEpoch (avsAddr : string) (assets : list string) : M USDState error unit :=
  match assets with
  | [] => mret tt
  | _ => modify (set_avsAssets (insert (ToLower avsAddr) assets))
  end.

Definition DeleteAllAVSAssetsPerEpoch : M USDState error unit :=
  entries ← gets (λ s, prefix_iterator EmptyString (avsAssets s));
  for_each entries (λ kv, modify (set_avsAssets (delete kv.1))).

Definition GetAVSAssetsPerEpoch (avsAddr : string) (s : USDState) : result error (list string) :=
  match avsAssets s !! ToLower avsAddr with
  | None => Err operatortypes.ErrNoKeyInTheStore
  | Some assets => Ok assets
  end.

Definition HasAVSAssetsPerEpoch (avsAddr : string) (s : USDState) : bool :=
  is_some (avsAssets s !! ToLower avsAddr).

(** ** Rewards that compound *)

Definition reward_key (receivingAVS operator rewardSourceAVS denomination : string) : string :=
  GetJoinedStoreKey [receivingAVS; operator; rewardSourceAVS; denomination].

Definition SetOperatorRewardUSDValue
    (receivingAVS rewardSourceAVS operator rewardDenomination : string)
    (amount : option LegacyDec) : M USDState error unit :=
  match amount with
  | None => fail operatortypes.ErrValueIsNilOrZero
  | Some amount => modify (set_rewardUSDValues
      (insert (reward_key receivingAVS operator rewardSourceAVS rewardDenomination) amount))
  end.

Definition RemoveAllStaleOperatorRewardUSDs (receivingAVS operator : string)
    (keysToKeep : gset string) : M USDState error unit :=
  entries ← gets (λ s,
    prefix_iterator (GetJoinedStoreKeyForPrefix [receivingAVS; operator]) (rewardUSDValues s));
  for_each entries (λ kv,
    if bool_decide (kv.1 ∈ keysToKeep) then mret tt
    else modify (set_rewardUSDValues (delete kv.1))).

(** [utils.GenericIterateStoreWithUpdate] on the rewards: [opFunc] returns
    [(isBreak, isChanged)] and the value that it may have changed in place. *)
Fixpoint iterate_rewards {S} (isUpdate : bool)
    (opFunc : string → string → LegacyDec → M S error (bool * bool * LegacyDec))
    (entries : list (string * LegacyDec)) : M S error (list (string * LegacyDec)) :=
  match entries with
  | [] => mret []
  | (key, value) :: entries =>
      keys ← lift_result (ParseJoinedKeyWithCount key 4);
      avs ← lift_result (nth_key 2 keys);
      symbol ← lift_result (nth_key 3 keys);
      r ← opFunc avs symbol value;
      let '(isBreak, isChanged, value') := r in
      if (isBreak : bool) then mret []
      else
        updates ← iterate_rewards isUpdate opFunc entries;
        mret (if isUpdate && isChanged then (key, value') :: updates else updates)
  end.

Definition IterateOperatorRewardsUSDValue {S} (get : S → USDState) (put : USDState → S → S)
    (receivingAVS operator : string) (isUpdate : bool)
    (opFunc : string → string → LegacyDec → M S error (bool * bool * LegacyDec))
    : M S error unit :=
  entries ← gets (λ s, prefix_iterator (GetJoinedStoreKeyForPrefix [receivingAVS; operator])
                         (rewardUSDValues (get s)));
  updates ← iterate_rewards isUpdate opFunc entries;
  modify (λ s, put (set_rewardUSDValues (insert_all updates) (get s)) s).

(** Rewards, grouped by the AVS they come from as the iteration meets them. *)
Definition add_reward (avs denomination : string) (usdValue : LegacyDec)
    (st : string * list (string * list (string * LegacyDec)))
    : string * list (string * list (string * LegacyDec)) :=
  let '(rewardSourceAVS, ret) := st in
  let fresh := bool_decide (rewardSourceAVS = EmptyString)
               || negb (bool_decide (rewardSourceAVS = avs)) in
  let rewardSourceAVS := if fresh then avs else rewardSourceAVS in
  let ret := if fresh then ret ++ [(avs, [])] else ret in
  (rewardSourceAVS,
   alter (λ e, (e.1, e.2 ++ [(denomination, usdValue)])) (pred (length ret)) ret).

Definition GetRewardsUSDValues (avs operator : string)
    : M USDState error (list (string * list (string * LegacyDec))) :=
  r ← with_var (EmptyString, []) (IterateOperatorRewardsUSDValue fst (λ u s, (u, s.2))
        avs operator false (λ src denomination usdValue,
          _ ← modify (λ s, (s.1, add_reward src denomination usdValue s.2));
          mret (false, false, usdValue)));
  mret r.2.
End Store.

(** ** Queries *)

Section Queries.
Context {sdk : Sdk} {Y : Type} {ot : Others Y}.
Implicit Types (a : AssetsState) (x : OperatorExt Y).

Definition x_usd x : USDState := st_usd (oe_operator x).

Definition GetOperatorOptedUSDValue (avsAddr operatorAddr : string) x
    : result error OperatorOptedUSDValue :=
  if IsOptedOutAndEffective operatorAddr avsAddr x then Ok usd_zero
  else if bool_decide (operatorAddr = EmptyString) then Err operatortypes.ErrParameterInvalid
  else match operatorUSDValues (x_usd x) !! usd_key avsAddr operatorAddr with
       | None => Err operatortypes.ErrNoKeyInTheStore
       | Some ret => Ok ret
       end.

Definition GetOperatorActiveUSDValue (avsAddr operatorAddr : string) x : result error LegacyDec :=
  optedUSDValue ← GetOperatorOptedUSDValue avsAddr operatorAddr x;
  Ok (uv_ActiveUSDValue optedUSDValue).

Fixpoint vote_powers (avsAddr : string) (operators : list string) x : result error (list Z) :=
  match operators with
  | [] => Ok []
  | operator :: operators =>
      optedUSDValues ← GetOperatorOptedUSDValue avsAddr (AccAddress_String operator) x;
      power ← dec_TruncateInt64 (uv_ActiveUSDValue optedUSDValues);
      powers ← vote_powers avsAddr operators x;
      Ok (power :: powers)
  end.

Definition GetVotePowerForChainID (operators : list string) (chainIDWithoutRevision : string) x
    : result error (list Z) :=
  match IsAVSByChainID (oe_rest x) chainIDWithoutRevision with
  | None => Err operatortypes.ErrUnknownChainID
  | Some avsAddr => vote_powers avsAddr operators x
  end.

(** The arguments of [GetOperatorOptedUSDValue] are swapped in the source. *)
Definition GetOperatorAssetValue (operator chainIDWithoutRevision : string) x : result error Z :=
  match IsAVSByChainID (oe_rest x) chainIDWithoutRevision with
  | None => Err operatortypes.ErrUnknownChainID
  | Some avsAddr =>
      optedUSDValues ← GetOperatorOptedUSDValue (AccAddress_String operator) avsAddr x;
      dec_TruncateInt64 (uv_ActiveUSDValue optedUSDValues)
  end.

(** ** Calculating the value of an operator *)

Definition staking_zero : OperatorStakingInfo := {|
  os_Staking := 0; os_SelfStaking := 0; os_StakingAndWaitUnbonding := 0;
  os_CompoundingUSDValueSources := ∅ |}.

(** [AddMut] on the fields *)
Definition add_staking (staking self wait : LegacyDec) (s : OperatorStakingInfo)
    : OperatorStakingInfo := {|
  os_Staking := os_Staking s + staking; os_SelfStaking := os_SelfStaking s + self;
  os_StakingAndWaitUnbonding := os_StakingAndWaitUnbonding s + wait;
  os_CompoundingUSDValueSources := os_CompoundingUSDValueSources s |}.

(** What one asset adds; a price that is not found is the zero price that comes
    with the error. *)
Definition asset_value (isForSlash : bool) (decimals : option (gmap string Z))
    (prices : option (gmap string Price)) (y : Y) (assetID : string) (state : OperatorAssetInfo)
    : M (AssetsState * OperatorStakingInfo) error OperatorAssetInfo :=
  if isForSlash then
    let price := (GetSpecifiedAssetsPrice y assetID).1 in
    assetInfo ← on_fst (GetStakingAssetInfo assetID);
    let usdValue := CalculateUSDValue (oa_TotalAmount state + oa_PendingUndelegationAmount state)
                      (pr_Value price) (ai_Decimals (AssetBasicInfo assetInfo)) (pr_Decimal price) in
    _ ← modify (λ s, (s.1, add_staking 0 0 usdValue s.2));
    mret state
  else
    match prices with
    | None => fail operatortypes.ErrValueIsNilOrZero
    | Some prices =>
        match prices !! assetID with
        | None => fail operatortypes.ErrKeyNotExistInMap
        | Some price =>
            match default ∅ decimals !! assetID with
            | None => fail operatortypes.ErrKeyNotExistInMap
            | Some decimal =>
                let staking := CalculateUSDValue (oa_TotalAmount state) (pr_Value price) decimal
                                 (pr_Decimal price) in
                _ ← modify (λ s, (s.1, add_staking staking 0 0 s.2));
                selfAmount ← lift_result (TokensFromShares (oa_OperatorShare state)
                               (oa_TotalShare state) (oa_TotalAmount state));
                let self := CalculateUSDValue selfAmount (pr_Value price) decimal
                              (pr_Decimal price) in
                _ ← modify (λ s, (s.1, add_staking 0 self 0 s.2));
                mret state
            end
        end
    end.

(** A method that only reads: its result. *)
Definition query {S A} (m : M S error A) (s : S) : result error A := (m s).1.

Definition CalculateRealTimeOperatorUSDValue (isForSlash : bool) (operator : string)
    (assetsFilter : option (gset string)) (decimals : option (gmap string Z))
    (prices : option (gmap string Price)) a x : result error OperatorStakingInfo :=
  ret ← query (with_var staking_zero (IterateAssetsForOperator fst (λ a s, (a, s.2)) false
          assetsFilter (asset_value isForSlash decimals prices (oe_rest x)) operator)) a;
  rewards ← OperatorTotalRewardsUSDValue a (oe_rest x) operator;
  let '(usdValueSources, compoundingUSDValue) := rewards in
  if isForSlash then
    Ok {| os_Staking := os_Staking ret; os_SelfStaking := os_SelfStaking ret;
          os_StakingAndWaitUnbonding := os_StakingAndWaitUnbonding ret + compoundingUSDValue;
          os_CompoundingUSDValueSources := usdValueSources |}
  else
    disabled ← query (IsCompoundRewardsDisabled operator) (x_info x);
    Ok (if (disabled : bool) then ret else add_staking compoundingUSDValue 0 0 ret).

(** One asset of the loop of [AggregateOperatorUSDValue]; an error skips it, and
    when the self staking cannot be computed the staking still counts. *)
Definition aggregate_asset (epochIdentifier operator operatorAccAddr : string) a x
    (ret : OperatorStakingInfo) (assetID : string) : OperatorStakingInfo :=
  match GetOperatorAssetUSDValue epochIdentifier operator assetID (x_usd x),
        query (GetOperatorSpecifiedAssetInfo operatorAccAddr assetID) a with
  | Ok totalUSDValue, Ok info =>
      let ret := add_staking totalUSDValue 0 0 ret in
      match TokenUSDValueFromShares (oa_OperatorShare info) (oa_TotalShare info) totalUSDValue with
      | Ok selfAmount => add_staking 0 selfAmount 0 ret
      | _ => ret
      end
  | _, _ => ret
  end.

Definition AggregateOperatorUSDValue (epochIdentifier operator : string)
    (assetsList : list string) a x : result error OperatorStakingInfo :=
  match AccAddressFromBech32 operator with
  | None => Err delegationtypes.ErrOperatorAddrIsNotAccAddr
  | Some operatorAccAddr =>
      Ok (foldl (aggregate_asset epochIdentifier operator operatorAccAddr a x)
            staking_zero assetsList)
  end.

(** Self, total and active values; the active value is left nil when the values
    are calculated. *)
Definition GetOrCalculateOperatorUSDValues (operator avsAddr : string) a x
    : result error (LegacyDec * LegacyDec * option LegacyDec) :=
  if IsOptedOutAndEffective (AccAddress_String operator) avsAddr x then
    supported ← GetAVSSupportedAssets a (oe_rest x) avsAddr;
    let assets := supported.2 in
    decimals ← GetAssetsDecimal (Some assets) a;
    prices ← GetMultipleAssetsPrices (oe_rest x) assets;
    stakingInfo ← CalculateRealTimeOperatorUSDValue false (AccAddress_String operator)
                    (Some assets) (Some decimals) (Some prices) a x;
    Ok (os_SelfStaking stakingInfo, os_Staking stakingInfo, None)
  else
    v ← GetOperatorOptedUSDValue avsAddr (AccAddress_String operator) x;
    Ok (uv_SelfUSDValue v, uv_TotalUSDValue v, Some (uv_ActiveUSDValue v)).

(** The USD value of a staker: the callback of [CalculateUSDValueForStaker]. *)
Definition staker_value (operator : string) (assets : gset string) (prices : gmap string Price) a
    (keys : SingleDelegationInfoReq) (amounts : DelegationAmounts)
    : M (DelegationState * LegacyDec) error bool :=
  if bool_decide (sdr_OperatorAddr keys = AccAddress_String operator)
     && bool_decide (sdr_AssetId keys ∈ assets)
  then
    match prices !! sdr_AssetId keys with
    | None => fail operatortypes.ErrKeyNotExistInMap
    | Some price =>
        operatorAsset ← lift_result (query (GetOperatorSpecifiedAssetInfo operator
                          (sdr_AssetId keys)) a);
        amount ← lift_result (TokensFromShares (da_UndelegatableShare amounts)
                   (oa_TotalShare operatorAsset) (oa_TotalAmount operatorAsset));
        assetInfo ← lift_result (query (GetStakingAssetInfo (sdr_AssetId keys)) a);
        let usdValue := CalculateUSDValue amount (pr_Value price)
                          (ai_Decimals (AssetBasicInfo assetInfo)) (pr_Decimal price) in
        _ ← modify (λ s, (s.1, s.2 + usdValue));
        mret false
    end
  else mret false.

Definition CalculateUSDValueForStaker (stakerID avsAddr operator : string) a (d : DelegationState) x
    : result error LegacyDec :=
  opted ← IsOptedInAndNotJailed (AccAddress_String operator) avsAddr (x_info x);
  if negb opted then Ok 0
  else
    optedUSDValues ← GetOperatorOptedUSDValue avsAddr (AccAddress_String operator) x;
    if uv_ActiveUSDValue optedUSDValues =? 0 then Ok 0
    else
      supported ← GetAVSSupportedAssets a (oe_rest x) avsAddr;
      prices ← GetMultipleAssetsPrices (oe_rest x) supported.2;
      query (with_var 0 (IterateDelegationsForStaker fst
        (staker_value operator supported.2 prices a) stakerID)) d.

Definition GetRecentEndedEpochAVSAssets (avsAddr : string) x : result error (list string) :=
  if HasAVSAssetsPerEpoch avsAddr (x_usd x) then GetAVSAssetsPerEpoch avsAddr (x_usd x)
  else GetAVSAssetsList (oe_rest x) avsAddr.
End Queries.

(** ** Updating the values of the assets *)

Section Update.
Context {sdk : Sdk} {B Y : Type} {ot : Others Y}.
Abbreviation W := (World B (OperatorExt Y)).

(** Set for every epoch; an error is logged. *)
Definition set_for_epochs (epochIdentifiers : list string) (operator assetID : string)
    (usdValue : LegacyDec) : M W error unit :=
  for_each epochIdentifiers (λ epochIdentifier, log_and_continue
    (on_usd (SetOperatorAssetUSDValue epochIdentifier operator assetID (Some usdValue)))).

(** The callback: an asset without a price or without a registration is skipped. *)
Definition update_asset_value (epochIdentifiers : list string) (operator assetID : string)
    (state : OperatorAssetInfo) : M W error OperatorAssetInfo :=
  p ← gets (λ w, GetSpecifiedAssetsPrice (w_rest w) assetID);
  let '(price, err) := p in
  if match err with
     | Some e => negb (bool_decide (e = oracletypes.ErrGetPriceRoundNotFound))
     | None => false
     end
  then mret state
  else
    info ← gets (λ w, query (GetStakingAssetInfo assetID) (w_assets w));
    match info with
    | Ok assetInfo =>
        let usdValue := CalculateUSDValue (oa_TotalAmount state) (pr_Value price)
                          (ai_Decimals (AssetBasicInfo assetInfo)) (pr_Decimal price) in
        _ ← set_for_epochs epochIdentifiers operator assetID usdValue;
        mret state
    | Err _ => mret state
    | Panic => panic
    end.

(** The values of the epochs that the operator no longer serves are deleted, the
    epochs that it serves are collected. *)
Fixpoint impactful_epochs (operator : string) (epochIdentifiers : list string)
    : M W error (list string) :=
  match epochIdentifiers with
  | [] => mret []
  | epochIdentifier :: rest =>
      impactful ← gets (λ w, IsImpactfulEpochForOperator epochIdentifier operator (w_ext w));
      if (impactful : bool) then
        l ← impactful_epochs operator rest; mret (epochIdentifier :: l)
      else
        _ ← log_and_continue (on_usd (DeleteOperatorAssetUSDValueByEpoch epochIdentifier operator));
        impactful_epochs operator rest
  end.

Definition UpdateOperatorAssetUSDValue (epochIdentifiers : list string) (operator : string)
    : M W error unit :=
  impactful ← impactful_epochs operator epochIdentifiers;
  match impactful with
  | [] => mret tt
  | _ => IterateAssetsForOperator w_assets put_assets false None
           (update_asset_value impactful operator) operator
  end.

Definition UpdateAllOperatorAssetUSDValues (epochIdentifiers : list string) : M W error unit :=
  IterateOperators (λ w, st_info (w_operator w)) (λ operatorAddr _,
    _ ← log_and_continue
          (UpdateOperatorAssetUSDValue epochIdentifiers (AccAddress_String operatorAddr));
    mret false).
End Update.
