(* ===== verification/OperatorVotingPower.v ===== *)
(** * The voting power update (x/operator/keeper/abci.go, impl_epoch_hook.go)

    At the end of an epoch, and after a slash, the USD values of the operators of
    an AVS are recalculated, summed into the value of the AVS and recorded in a
    snapshot.  The theorems are that the value of the AVS is the sum of the
    active values of its operators, and that the snapshots keep describing the
    values that are stored, so that a slash finds the powers that were in force
    at the height of the offence. *)

From S2P Require Import Prelude Errors Sdk RefSdk KVStore Ledger Epochs Shares DelegationTypes.
From S2P Require Import Assets.
From S2P Require Import DelegationStore UndelegationStore Delegation.
From S2P Require Import OperatorTypes OperatorStore OperatorSnapshot OperatorKeepers.
From S2P Require Import OperatorUnbonding OperatorUSD.

(** The variables that the callback of [UpdateVotingPower] captures. *)
Record VPVars := {
  v_isSnapshotChanged : bool;
  v_votingPowerSet : list OperatorVotingPower;
  v_avsVotingPower : LegacyDec;
  v_hasOptedOperator : bool;
  v_deletedOperators : list string;
}.

Definition vp_init : VPVars := {|
  v_isSnapshotChanged := false; v_votingPowerSet := []; v_avsVotingPower := 0;
  v_hasOptedOperator := false; v_deletedOperators := [] |}.

Section VotingPower.
Context {sdk : Sdk} {B Y : Type} {ot : Others Y}.
Abbreviation W := (World B (OperatorExt Y)).

(** An operator that opted out in this epoch. *)
Definition opted_out_vars (operator : string) (v : VPVars) : VPVars := {|
  v_isSnapshotChanged := true; v_votingPowerSet := v_votingPowerSet v;
  v_avsVotingPower := v_avsVotingPower v; v_hasOptedOperator := v_hasOptedOperator v;
  v_deletedOperators := v_deletedOperators v ++ [operator] |}.

(** An operator whose value was [last] and is [cur]; [counted] when it reaches
    the minimum self delegation and is not frozen. *)
Definition updated_vars (operator : string) (last cur : OperatorOptedUSDValue) (counted : bool)
    (v : VPVars) : VPVars := {|
  v_isSnapshotChanged := v_isSnapshotChanged v
    || negb (uv_ActiveUSDValue last =? uv_ActiveUSDValue cur);
  v_votingPowerSet := if 0 <? uv_ActiveUSDValue cur
    then v_votingPowerSet v ++
      [{| vp_OperatorAddr := operator; vp_VotingPower := uv_ActiveUSDValue cur |}]
    else v_votingPowerSet v;
  v_avsVotingPower := if counted then v_avsVotingPower v + uv_TotalUSDValue cur
    else v_avsVotingPower v;
  v_hasOptedOperator := true;
  v_deletedOperators := v_deletedOperators v |}.

(** The callback [opFunc]; it runs on [ctx], not on the cached context. *)
Definition update_operator (avsAddr epochIdentifier : string) (avsAssetsList : list string)
    (avsAssetsMap : gset string) (minimumSelfDelegation : LegacyDec)
    (operator : string) (optedUSDValues : OperatorOptedUSDValue)
    : M (W * VPVars) error OperatorOptedUSDValue :=
  out ← gets (λ s, IsOptedOutButNotEffective operator avsAddr (w_ext s.1));
  if (out : bool) then
    _ ← modify (λ s, (s.1, opted_out_vars operator s.2));
    mret optedUSDValues
  else
    info ← gets (λ s, AggregateOperatorUSDValue epochIdentifier operator avsAssetsList
                        (w_assets s.1) (w_ext s.1));
    stakingInfo ← lift_result info;
    a ← gets (λ s, w_assets s.1);
    rewardsUSDValue ← on_fst (on_ext
      (UpdateAllRewardsUSDForOperator a avsAddr operator avsAssetsMap));
    frozen ← gets (λ s, IsOperatorFrozenStr operator (x_info (w_ext s.1)));
    let total := os_Staking stakingInfo + rewardsUSDValue in
    let counted := (minimumSelfDelegation <=? os_SelfStaking stakingInfo) && negb frozen in
    let cur := {| uv_SelfUSDValue := os_SelfStaking stakingInfo; uv_TotalUSDValue := total;
                  uv_ActiveUSDValue := if counted then total else 0 |} in
    _ ← modify (λ s, (s.1, updated_vars operator optedUSDValues cur counted s.2));
    mret cur.

(** [IterateOperatorUSDValuesForAVS] in two parts: the iteration, which writes
    through the callback, and the updated values, which are written in the cached
    context with the rest of the update. *)
Definition UpdateVotingPower (ctx : Ctx) (avsAddr epochIdentifier : string) (epochNumber : Z)
    (isForSlash : bool) : M W error unit :=
  r ← gets (λ w, GetAVSSupportedAssets (w_assets w) (w_rest w) avsAddr);
  supported ← lift_result r;
  r ← gets (λ w, GetAVSMinimumSelfDelegation (w_rest w) avsAddr);
  minimumSelfDelegation ← lift_result r;
  entries ← gets (λ w, prefix_iterator (IterateOperatorsForAVSPrefix (ToLower avsAddr))
                         (operatorUSDValues (x_usd (w_ext w))));
  iterated ← (λ w, let '(r, (w', v)) := iterate_usd true
                 (update_operator avsAddr epochIdentifier supported.1 supported.2
                    minimumSelfDelegation) entries (w, vp_init) in
              ((updates ← r; Ok (updates, v)), w'));
  let '(updates, v) := iterated in
  cached (
    _ ← on_usd (modify (set_operatorUSDValues (insert_all updates)));
    _ ← on_usd (DeleteOperatorUSDValues avsAddr (v_deletedOperators v));
    _ ← on_usd (SetAVSUSDValue avsAddr (Some (v_avsVotingPower v)));
    _ ← on_usd DeleteAllAVSAssetsPerEpoch;
    on_snap (store_snapshot avsAddr epochIdentifier
      (if isForSlash then epochNumber else wrap_int64 (epochNumber + 1)) (BlockHeight ctx)
      (v_isSnapshotChanged v) (v_hasOptedOperator v) (v_avsVotingPower v) (v_votingPowerSet v))).

(** [return ErrX.Wrapf(..., err)] *)
Definition rewrap {S A} (e : error) (m : M S error A) : M S error A := λ s,
  match m s with (Err _, s') => (Err e, s') | r => r end.

Definition ClearVotingPowerSnapshot (avs : string) : M W error unit :=
  r ← gets (λ w, GetAVSUnbondingDuration (w_rest w) avs);
  unbondingDuration ← rewrap operatortypes.ErrFailToClearVPSnapshot (lift_result r);
  r ← gets (λ w, GetAVSEpochInfo (w_rest w) avs);
  epochInfo ← rewrap operatortypes.ErrFailToClearVPSnapshot (lift_result r);
  let clearEpochNumber := wrap_int64 (ei_CurrentEpoch epochInfo - wrap_int64 unbondingDuration) in
  if clearEpochNumber <? 0 then mret tt
  else rewrap operatortypes.ErrFailToClearVPSnapshot
         (on_snap (RemoveVotingPowerSnapshot avs clearEpochNumber)).

(** The hook of x/epochs; an AVS whose update fails does not stop the others, and
    its snapshots are not cleared. *)
Definition AfterEpochEnd (ctx : Ctx) (epochIdentifier : string) (epochNumber : Z)
    : M W error unit :=
  log_and_continue (
    _ ← UpdateAllOperatorAssetUSDValues [epochIdentifier];
    avsList ← gets (λ w, GetEpochEndAVSs (w_rest w) epochIdentifier epochNumber);
    for_each avsList (λ avs, log_and_continue (
      _ ← UpdateVotingPower ctx avs epochIdentifier epochNumber false;
      ClearVotingPowerSnapshot avs))).
End VotingPower.

Lemma keeps_rewrap {S T A} (f : S → T) e (m : M S error A) : keeps f m → keeps f (rewrap e m).
Proof. intros Hm s. specialize (Hm s). unfold rewrap. by destruct (m s) as [[] ?]. Qed.

(** ** The values of an AVS *)

Section Values.
Context {sdk : Sdk}.
Implicit Types (l : list (string * OperatorOptedUSDValue)) (u : USDState).

Definition entries_of (avsAddr : string) u : list (string * OperatorOptedUSDValue) :=
  prefix_iterator (IterateOperatorsForAVSPrefix (ToLower avsAddr)) (operatorUSDValues u).

(** The operator of a key. *)
Definition op_of (k : string) : string := default EmptyString (ParseJoinedKey k !! 1%nat).

Definition active_sum l : LegacyDec := foldr (λ kv acc, uv_ActiveUSDValue kv.2 + acc) 0 l.

Definition powers_of l : list OperatorVotingPower :=
  omap (λ kv, if 0 <? uv_ActiveUSDValue kv.2
              then Some {| vp_OperatorAddr := op_of kv.1; vp_VotingPower := uv_ActiveUSDValue kv.2 |}
              else None) l.

(** The voting power of an AVS: the total and the operators with a positive one. *)
Definition current_powers (avsAddr : string) u : LegacyDec * list OperatorVotingPower :=
  (active_sum (entries_of avsAddr u), powers_of (entries_of avsAddr u)).

(** The keys of the AVS are those of its operators. *)
Definition usd_keys_wf (avsAddr : string) u : Prop :=
  key_part (ToLower avsAddr) ∧
  ∀ k v, operatorUSDValues u !! k = Some v →
    has_prefix (IterateOperatorsForAVSPrefix (ToLower avsAddr)) k = true →
    op_of k ≠ EmptyString ∧ k = usd_key avsAddr (op_of k) ∧ key_part (op_of k).

Lemma usd_key_prefix avsAddr op :
  has_prefix (IterateOperatorsForAVSPrefix (ToLower avsAddr)) (usd_key avsAddr op) = true.
Proof.
  apply has_prefix_spec. exists op. unfold usd_key, IterateOperatorsForAVSPrefix. cbn.
  by rewrite app_assoc_str.
Qed.

(** One pass over the operators: those that left are deleted, the others get
    their new value. *)
Inductive updated (min : LegacyDec) (frozen : string → bool)
    : list (string * OperatorOptedUSDValue) → list (string * OperatorOptedUSDValue) →
      VPVars → VPVars → Prop :=
| updated_nil v : updated min frozen [] [] v v
| updated_out k value l l' v v' :
    updated min frozen l l' (opted_out_vars (op_of k) v) v' →
    updated min frozen ((k, value) :: l) ((k, value) :: l') v v'
| updated_in k last cur counted l l' v v' :
    counted = ((min <=? uv_SelfUSDValue cur) && negb (frozen (op_of k))) →
    uv_ActiveUSDValue cur = (if counted then uv_TotalUSDValue cur else 0) →
    updated min frozen l l' (updated_vars (op_of k) last cur counted v) v' →
    updated min frozen ((k, last) :: l) ((k, cur) :: l') v v'.

Lemma updated_keys min frozen l l' v v' : updated min frozen l l' v v' → l'.*1 = l.*1.
Proof. induction 1; cbn; congruence. Qed.

(** What is left: the operators that were not deleted. *)
Definition kept (deleted : list string) l : list (string * OperatorOptedUSDValue) :=
  filter (λ kv, op_of kv.1 ∉ deleted) l.

Lemma kept_cons_other op deleted l :
  op ∉ op_of <$> l.*1 → kept (op :: deleted) l = kept deleted l.
Proof.
  intros Hop. unfold kept. induction l as [|[k x] l IH]; [done|]. cbn in Hop.
  rewrite !filter_cons, IH by set_solver. cbn. repeat decide_goal; set_solver.
Qed.

(** A value counts when the operator holds enough of its own and is not frozen. *)
Definition counts (min : LegacyDec) (frozen : string → bool)
    (kv : string * OperatorOptedUSDValue) : Prop :=
  uv_ActiveUSDValue kv.2 =
    if (min <=? uv_SelfUSDValue kv.2) && negb (frozen (op_of kv.1)) then uv_TotalUSDValue kv.2 else 0.

Definition actives l : list (string * LegacyDec) := (λ kv, (kv.1, uv_ActiveUSDValue kv.2)) <$> l.

Lemma updated_spec min frozen l l' v v' :
  updated min frozen l l' v v' → NoDup (op_of <$> l.*1) → ∃ ds,
    v_deletedOperators v' = v_deletedOperators v ++ ds ∧ ds ⊆ op_of <$> l.*1 ∧
    v_avsVotingPower v' = v_avsVotingPower v + active_sum (kept ds l') ∧
    v_votingPowerSet v' = v_votingPowerSet v ++ powers_of (kept ds l') ∧
    Forall (counts min frozen) (kept ds l') ∧
    (v_isSnapshotChanged v' = false →
       v_isSnapshotChanged v = false ∧ ds = [] ∧ actives l' = actives l).
Proof.
  induction 1 as [v|k value l l' v v' Hup IH|k last cur counted l l' v v' Hc Hact Hup IH];
    cbn [fmap list_fmap fst]; intros Hnd.
  { exists []. rewrite !app_nil_r. cbn. split_and!; [done|set_solver|lia|done..]. }
  all: apply NoDup_cons in Hnd as [Hnin Hnd]; destruct (IH Hnd) as (ds & Hd & Hsub & Hp & Hset & Hall & Hch).
  all: assert (Hnin' : op_of k ∉ op_of <$> l'.*1) by (by rewrite (updated_keys _ _ _ _ _ _ Hup)).
  - exists (op_of k :: ds). unfold kept. rewrite filter_cons_False by (cbn; set_solver).
    fold (kept (op_of k :: ds) l'). rewrite kept_cons_other by done. cbn in *.
    split_and!; [by rewrite Hd, <-app_assoc|set_solver|done..|]. intros Hf. by destruct (Hch Hf).
  - exists ds. unfold kept. rewrite filter_cons_True by (cbn; set_solver). fold (kept ds l').
    cbn in *. split_and!; [done|set_solver|..].
    + rewrite Hp, Hact. fold (active_sum (kept ds l')). destruct counted; lia.
    + rewrite Hset. destruct (0 <? uv_ActiveUSDValue cur); cbn; [by rewrite <-app_assoc|done].
    + constructor; [|done]. unfold counts. cbn. by rewrite <-Hc.
    + intros Hf. destruct (Hch Hf) as (Hor & -> & Heq). apply orb_false_iff in Hor as [-> Hne].
      split_and!; [done..|]. unfold actives in *. cbn. rewrite Heq. do 2 f_equal.
      apply negb_false_iff, Z.eqb_eq in Hne. by rewrite Hne.
Qed.
End Values.

(** ** Running the update *)

(** What x/feedistribution may write while the values are updated: the rewards,
    and its own store. *)
Record rewards_only {Y} (x x' : OperatorExt Y) : Prop := {
  ro_info : x_info x' = x_info x;
  ro_keys : st_keys (oe_operator x') = st_keys (oe_operator x);
  ro_usd : set_rewardUSDValues (λ _, ∅) (x_usd x') = set_rewardUSDValues (λ _, ∅) (x_usd x);
  ro_snap : x_snap x' = x_snap x;
}.

Class RewardsFrame (Y : Type) {ot : Others Y} : Prop :=
  rewards_frame a avsAddr operator assets (x : OperatorExt Y) r x' :
    UpdateAllRewardsUSDForOperator a avsAddr operator assets x = (r, x') → rewards_only x x'.

Section Run.
Context `{SdkLaws} {B Y : Type} {ot : Others Y} {rf : RewardsFrame Y}.
Implicit Types (w : World B (OperatorExt Y)) (l : list (string * OperatorOptedUSDValue)).

Definition w_info w : InfoState := x_info (w_ext w).
Definition w_usd w : USDState := x_usd (w_ext w).
Definition w_snap w : SnapshotState := x_snap (w_ext w).

Record rewards_step w w' : Prop := {
  rs_assets : w_assets w' = w_assets w;
  rs_delegation : w_delegation w' = w_delegation w;
  rs_bank : w_bank w' = w_bank w;
  rs_ext : rewards_only (w_ext w) (w_ext w');
}.

#[export] Instance rewards_step_refl : Reflexive rewards_step.
Proof. intros w. by repeat split. Qed.
#[export] Instance rewards_step_trans : Transitive rewards_step.
Proof. intros w1 w2 w3 [??? [????]] [??? [????]]. split; [congruence..|split; congruence]. Qed.

Lemma ParseJoinedKeyWithCount_op k keys op :
  ParseJoinedKeyWithCount k 2 = Ok keys → nth_key 1 keys = Ok op → op = op_of k.
Proof.
  unfold ParseJoinedKeyWithCount, nth_key, op_of. case_match; [done|]. intros [= <-].
  by destruct (_ !! _) as [?|]; [intros [= ->]|].
Qed.

Lemma update_operator_Ok avsAddr ident al am min op value cur w v w' v' :
  update_operator avsAddr ident al am min op value (w, v) = (Ok cur, (w', v')) →
  rewards_step w w' ∧
  ((cur = value ∧ v' = opted_out_vars op v) ∨
   ∃ counted, counted = ((min <=? uv_SelfUSDValue cur) && negb (IsOperatorFrozenStr op (w_info w))) ∧
     uv_ActiveUSDValue cur = (if counted then uv_TotalUSDValue cur else 0) ∧
     v' = updated_vars op value cur counted v).
Proof.
  unfold update_operator, on_fst, on_ext. intros Hrun. go_inv.
  destruct (IsOptedOutButNotEffective _ _ _); go_inv; cbn in *.
  { simplify_eq. by split; [|left]. }
  simplify_eq. cbn in *. match goal with Hrew : UpdateAllRewardsUSDForOperator _ _ _ _ _ = _ |- _ =>
    apply rewards_frame in Hrew as Hro end.
  split; [by split|]. right. eexists. split; [reflexivity|]. cbn.
  by rewrite (ro_info _ _ Hro).
Qed.

Lemma iterate_updated avsAddr ident al am min l l' w v w' v' :
  iterate_usd true (update_operator avsAddr ident al am min) l (w, v) = (Ok l', (w', v')) →
  rewards_step w w' ∧ updated min (λ op, IsOperatorFrozenStr op (w_info w)) l l' v v'.
Proof.
  revert l' w v. induction l as [|[k value] l IH]; intros l' w v; cbn [iterate_usd]; intros Hrun;
    [go_inv; simplify_eq; split; [done|constructor]|].
  go_inv. rename H1 into Hkeys, H0 into Hop.
  pose proof (ParseJoinedKeyWithCount_op _ _ _ Hkeys Hop) as ->. destruct s1 as [w1 v1].
  apply update_operator_Ok in Hrun1 as [Hstep Hcase]. apply IH in Hrun2 as [Hstep' Hup].
  split; [by transitivity w1|]. unfold w_info in *.
  rewrite (ro_info _ _ (rs_ext _ _ Hstep)) in Hup.
  destruct Hcase as [[-> ->]|(counted & Hc & Hact & ->)]; [by apply updated_out|by eapply updated_in].
Qed.

Lemma DeleteOperatorUSDValues_Ok avsAddr ops (s : USDState) u s' :
  DeleteOperatorUSDValues avsAddr ops s = (Ok u, s') →
  (∀ k, operatorUSDValues s' !! k =
        if decide (k ∈ usd_key avsAddr <$> ops) then None else operatorUSDValues s !! k) ∧
  avsUSDValues s' = avsUSDValues s ∧ assetUSDValues s' = assetUSDValues s.
Proof.
  unfold DeleteOperatorUSDValues. revert s. induction ops as [|op ops IH]; intros s.
  { cbn. rewrite ret_Ok. intros [_ ->]. split; [|done]. intros k. rewrite decide_False; set_solver. }
  rewrite for_each_cons. intros (v & s1 & Hrun & (Hl & Ha & Hb)%IH). go_inv. cbn in *.
  split; [|done]. intros k. rewrite Hl. cbn.
  destruct (decide (k ∈ usd_key avsAddr <$> ops)) as [Hin|Hin];
    [by rewrite decide_True by set_solver|].
  destruct (decide (k = usd_key avsAddr op)) as [->|Hne].
  - rewrite decide_True by set_solver. apply lookup_delete_eq.
  - rewrite decide_False by set_solver. by rewrite lookup_delete_ne.
Qed.

Lemma DeleteAllAVSAssetsPerEpoch_Ok (s : USDState) u s' :
  DeleteAllAVSAssetsPerEpoch s = (Ok u, s') → s' = set_avsAssets (λ _, ∅) s.
Proof.
  unfold DeleteAllAVSAssetsPerEpoch. intros Hrun. go_inv.
  assert (Hgen : ∀ (es : list (string * list string)) s1,
    for_each (E := error) es (λ kv, modify (set_avsAssets (delete kv.1))) s1 = (Ok u, s') →
    s' = set_avsAssets (λ m, foldl (λ m k, delete k m) m es.*1) s1).
  { induction es as [|kv es IH]; intros s1; cbn [for_each].
    - rewrite ret_Ok. intros [_ ->]. by case s'.
    - clear Hrun1. intros Hrun'. go_inv. by rewrite (IH _ Hrun0). }
  apply Hgen in Hrun1 as ->. unfold set_avsAssets. f_equal. apply map_eq. intros k.
  rewrite lookup_empty.
  assert (Hdel : ∀ ks (m : gmap string (list string)), k ∈ ks ∨ m !! k = None →
    foldl (λ m k, delete k m) m ks !! k = None).
  { induction ks as [|k' ks IH]; intros m Hk; cbn; [set_solver|]. apply IH.
    destruct (decide (k = k')) as [->|Hne]; [right; apply lookup_delete_eq|].
    rewrite lookup_delete_ne by done. set_solver. }
  apply Hdel. destruct (avsAssets s !! k) as [l|] eqn:Hk; [left|by right].
  apply list_elem_of_fmap. exists (k, l). split; [done|]. by apply elem_of_iterator_all.
Qed.

Lemma entries_ops_NoDup avsAddr (u : USDState) :
  usd_keys_wf avsAddr u → NoDup (op_of <$> (entries_of avsAddr u).*1).
Proof.
  intros [_ Hwf]. apply NoDup_fmap_2_strong; [|apply prefix_iterator_NoDup_keys].
  intros k1 k2 ([? v1] & -> & [Hk1 Hp1]%elem_of_prefix_iterator)%list_elem_of_fmap
    ([? v2] & -> & [Hk2 Hp2]%elem_of_prefix_iterator)%list_elem_of_fmap.
  destruct (Hwf _ _ Hk1 Hp1) as (_ & H1 & _), (Hwf _ _ Hk2 Hp2) as (_ & H2 & _). cbn in *.
  congruence.
Qed.

Lemma NoDup_filter_keys {V} (P : string * V → Prop) `{!∀ kv, Decision (P kv)} (l : list (string * V)) :
  NoDup l.*1 → NoDup (filter P l).*1.
Proof.
  induction l as [|kv l IH]; [done|]. cbn [fmap list_fmap]. intros [Hnin Hnd]%NoDup_cons.
  rewrite filter_cons. case_decide; [|by apply IH]. cbn. apply NoDup_cons. split; [|by apply IH].
  intros (kv' & Heq & [_ Hin]%list_elem_of_filter)%list_elem_of_fmap. apply Hnin. rewrite Heq.
  by apply list_elem_of_fmap_2.
Qed.

(** The entries after the write and the deletions are those that were kept. *)
Lemma entries_kept avsAddr min frozen (u u' : USDState) l' v v' ds :
  usd_keys_wf avsAddr u → updated min frozen (entries_of avsAddr u) l' v v' →
  ds ⊆ op_of <$> (entries_of avsAddr u).*1 →
  (∀ k, operatorUSDValues u' !! k =
        if decide (k ∈ usd_key avsAddr <$> ds) then None
        else insert_all l' (operatorUSDValues u) !! k) →
  entries_of avsAddr u' = kept ds l'.
Proof.
  intros Hwf Hup Hds Hl. pose proof (updated_keys _ _ _ _ _ _ Hup) as Hkeys.
  assert (Hnd : NoDup l'.*1) by (rewrite Hkeys; apply prefix_iterator_NoDup_keys).
  assert (Hin : ∀ k, k ∈ l'.*1 → k = usd_key avsAddr (op_of k)).
  { intros k. rewrite Hkeys. intros ([? x] & -> & [Hk Hp]%elem_of_prefix_iterator)%list_elem_of_fmap.
    apply (proj2 Hwf _ _ Hk Hp). }
  apply iterator_unique.
  - apply key_sorted_filter, key_sorted. rewrite Hkeys. apply key_sorted, prefix_iterator_sorted.
  - by apply NoDup_filter_keys.
  - assert (Hop : ∀ d, d ∈ ds → op_of (usd_key avsAddr d) = d).
    { intros d (k & -> & Hk)%Hds%list_elem_of_fmap. rewrite <-Hkeys in Hk.
      by rewrite <-(Hin k Hk). }
    intros k x. rewrite Hl, insert_all_union by done. unfold kept. rewrite list_elem_of_filter. cbn.
    split.
    + intros [Hnot Hkx]. assert (Hk : k ∈ l'.*1) by (apply list_elem_of_fmap; by exists (k, x)).
      rewrite decide_False.
      2:{ intros (d & -> & Hd)%list_elem_of_fmap. by rewrite Hop in Hnot. }
      split; [|by rewrite (Hin k Hk); apply usd_key_prefix].
      apply lookup_union_Some_l. by apply elem_of_list_to_map_1.
    + intros [Hlook Hp]. destruct (decide _) as [|Hnot]; [done|].
      apply lookup_union_Some_raw in Hlook as [Hx|[Hnone Hx]].
      * apply elem_of_list_to_map in Hx; [|done]. split; [|done]. intros Hd. apply Hnot.
        apply list_elem_of_fmap. exists (op_of k). split; [|done]. apply Hin.
        apply list_elem_of_fmap. by exists (k, x).
      * exfalso. apply not_elem_of_list_to_map in Hnone. apply Hnone. rewrite Hkeys.
        apply list_elem_of_fmap. exists (k, x). split; [done|]. by apply elem_of_prefix_iterator.
Qed.

Lemma on_usd_Ok {A} (m : M USDState error A) w a w' :
  on_usd m w = (Ok a, w') → ∃ u, m (w_usd w) = (Ok a, u) ∧
    w' = put_ext (put_operator (put_usd u (w_operator w)) (w_ext w)) w.
Proof. unfold on_usd, on_operator, on_ext. intros Hrun. go_inv. eauto. Qed.

Lemma on_snap_Ok {A} (m : M SnapshotState error A) w a w' :
  on_snap m w = (Ok a, w') → ∃ s, m (w_snap w) = (Ok a, s) ∧
    w' = put_ext (put_operator (put_snap s (w_operator w)) (w_ext w)) w.
Proof. unfold on_snap, on_operator, on_ext. intros Hrun. go_inv. eauto. Qed.

(** What a successful update did, to the values [powers] of the AVS. *)
Record powers_updated (ctx : Ctx) (avsAddr ident : string) (n : Z) (isForSlash : bool) w w'
    (min : LegacyDec) (changed opted : bool) : Prop := {
  pu_min : GetAVSMinimumSelfDelegation (w_rest w) avsAddr = Ok min;
  pu_counts : Forall (counts min (λ op, IsOperatorFrozenStr op (w_info w)))
                (entries_of avsAddr (w_usd w'));
  pu_total : avsUSDValues (w_usd w') !! ToLower avsAddr =
               Some (active_sum (entries_of avsAddr (w_usd w')));
  pu_same : changed = false →
    current_powers avsAddr (w_usd w') = current_powers avsAddr (w_usd w);
  pu_snap : store_snapshot avsAddr ident (if isForSlash then n else wrap_int64 (n + 1))
      (BlockHeight ctx) changed opted (current_powers avsAddr (w_usd w')).1
      (current_powers avsAddr (w_usd w')).2 (w_snap w) = (Ok tt, w_snap w');
  pu_cleared : avsAssets (w_usd w') = ∅;
  pu_assets : w_assets w' = w_assets w;
  pu_delegation : w_delegation w' = w_delegation w;
  pu_bank : w_bank w' = w_bank w;
  pu_info : w_info w' = w_info w;
}.

Lemma powers_of_actives l l' : actives l' = actives l → powers_of l' = powers_of l ∧ active_sum l' = active_sum l.
Proof.
  revert l'. induction l as [|[k x] l IH]; intros [|[k' x'] l'] Heq; try done.
  unfold actives in *. cbn in Heq. injection Heq as -> Hx Heq. destruct (IH _ Heq) as [Hp Hs].
  unfold powers_of, active_sum in *. cbn. by rewrite Hx, Hs, Hp.
Qed.

Lemma kept_nil l : kept [] l = l.
Proof.
  induction l as [|kv l IH]; [done|]. unfold kept in *. rewrite filter_cons_True by set_solver.
  by rewrite IH.
Qed.

(** The part of the update in the cached context. *)
Lemma write_powers_Ok avsAddr l' ops p (snap : M SnapshotState error unit) w u w' :
  cached (
    _ ← on_usd (modify (set_operatorUSDValues (insert_all l')));
    _ ← on_usd (DeleteOperatorUSDValues avsAddr ops);
    _ ← on_usd (SetAVSUSDValue avsAddr (Some p));
    _ ← on_usd DeleteAllAVSAssetsPerEpoch;
    on_snap snap) w = (Ok u, w') →
  (∀ k, operatorUSDValues (w_usd w') !! k =
        if decide (k ∈ usd_key avsAddr <$> ops) then None
        else insert_all l' (operatorUSDValues (w_usd w)) !! k) ∧
  avsUSDValues (w_usd w') !! ToLower avsAddr = Some p ∧
  avsAssets (w_usd w') = ∅ ∧ snap (w_snap w) = (Ok tt, w_snap w') ∧
  w_assets w' = w_assets w ∧ w_delegation w' = w_delegation w ∧ w_bank w' = w_bank w ∧
  w_info w' = w_info w.
Proof.
  destruct u. intros Hrun. go_inv. repeat match goal with
    | Hm : on_usd _ _ = _ |- _ => apply on_usd_Ok in Hm as (? & ? & ->)
    | Hm : on_snap _ _ = _ |- _ => apply on_snap_Ok in Hm as (? & ? & ->) end.
  go_inv. cbn in *.
  match goal with Hd : DeleteOperatorUSDValues _ _ _ = _ |- _ =>
    apply DeleteOperatorUSDValues_Ok in Hd as (Hdel & _ & _) end.
  match goal with Hd : DeleteAllAVSAssetsPerEpoch _ = _ |- _ =>
    apply DeleteAllAVSAssetsPerEpoch_Ok in Hd as -> end.
  cbn in *. go_inv. cbn in *. split_and!; try done. by rewrite lookup_insert_eq.
Qed.

Lemma UpdateVotingPower_Ok ctx avsAddr ident n isForSlash w u w' :
  usd_keys_wf avsAddr (w_usd w) →
  UpdateVotingPower ctx avsAddr ident n isForSlash w = (Ok u, w') →
  ∃ min changed opted, powers_updated ctx avsAddr ident n isForSlash w w' min changed opted.
Proof.
  intros Hwf. unfold UpdateVotingPower. intros Hrun. go_inv. rename H0 into Hmin.
  destruct (iterate_usd _ _ _ _) as [[l'| |] [w1 v]] eqn:Hit; cbn [mbind result_bind] in *; simplify_eq.
  apply iterate_updated in Hit as [Hstep Hup].
  destruct (updated_spec _ _ _ _ _ _ Hup (entries_ops_NoDup _ _ Hwf))
    as (ds & Hds & Hsub & Hsum & Hset & Hcounts & Hch). cbn in Hds, Hsum, Hset.
  match goal with Hw : cached _ _ = _ |- _ => apply write_powers_Ok in Hw
    as (Hdel & Htot & Hclr & Hsnap & Ha & Hd & Hb & Hi) end.
  destruct Hstep as [Ha1 Hd1 Hb1 [Hi1 _ Hu1 Hs1]].
  pose proof (f_equal operatorUSDValues Hu1) as Hu1'. cbn in Hu1'.
  unfold w_usd, w_info, w_snap in *. rewrite Hu1' in Hdel. rewrite Hds in Hdel.
  pose proof (entries_kept avsAddr _ _ _ _ _ _ _ ds Hwf Hup Hsub Hdel) as Hent.
  exists v2, (v_isSnapshotChanged v), (v_hasOptedOperator v).
  split; unfold w_usd, w_info, w_snap; try congruence.
  - by rewrite Htot, Hent, Hsum.
  - intros Hf. destruct (Hch Hf) as (_ & -> & Heq). rewrite kept_nil in Hent.
    unfold current_powers. rewrite Hent. by destruct (powers_of_actives _ _ Heq) as [-> ->].
  - unfold current_powers. rewrite Hent. cbn [fst snd]. rewrite <-Hs1, <-Hsnap, Hset. f_equal. lia.
Qed.
End Run.

(** ** Properties *)

Section Properties.
Context `{SdkLaws} {B Y : Type} {ot : Others Y} {rf : RewardsFrame Y}.
Implicit Types (w : World B (OperatorExt Y)).

(** After a successful [UpdateVotingPower] the value of the AVS is the sum of
    the active values that are stored for its operators, and each of them is the
    total value of the operator if its own stake reaches the minimum of the AVS
    and it is not frozen, and zero otherwise; stakes and balances are untouched. *)
Theorem UpdateVotingPower_sums ctx avsAddr ident n isForSlash w u w' :
  usd_keys_wf avsAddr (w_usd w) →
  UpdateVotingPower ctx avsAddr ident n isForSlash w = (Ok u, w') →
  ∃ min, GetAVSMinimumSelfDelegation (w_rest w) avsAddr = Ok min ∧
    GetAVSUSDValue avsAddr (w_usd w') = Ok (active_sum (entries_of avsAddr (w_usd w'))) ∧
    (∀ op v, operatorUSDValues (w_usd w') !! usd_key avsAddr op = Some v →
       let counted := (min <=? uv_SelfUSDValue v) &&
                      negb (IsOperatorFrozenStr (op_of (usd_key avsAddr op)) (w_info w)) in
       uv_ActiveUSDValue v = if counted then uv_TotalUSDValue v else 0) ∧
    w_assets w' = w_assets w ∧ w_delegation w' = w_delegation w ∧ w_bank w' = w_bank w.
Proof.
  intros Hwf Hrun. destruct (UpdateVotingPower_Ok _ _ _ _ _ _ _ _ Hwf Hrun)
    as (min & ch & opted & [Hmin Hcounts Htot _ _ _ Ha Hd Hb _]).
  exists min. split_and!; [done| | |done..].
  - unfold GetAVSUSDValue. by rewrite Htot.
  - intros op v Hv counted. rewrite Forall_forall in Hcounts. apply (Hcounts (_, v)).
    apply elem_of_prefix_iterator. split; [done|apply usd_key_prefix].
Qed.

(** The last update of the log has the powers that are stored now. *)
Definition describes (avsAddr : string) (log : list update) (u : USDState) : Prop :=
  match log with [] => True | up :: _ => up_powers up = current_powers avsAddr u end.

(** The update comes after those of the log. *)
Definition comes_after (log : list update) (height epoch : Z) : Prop :=
  is_i64_pos height ∧
  match log with [] => True | up :: _ => up_height up < height ∧ up_epoch up ≤ epoch end.

(** C13.  The snapshots follow the stored values: if they implement a log of the
    updates of the AVS, the last of which has the powers stored now, then after
    a successful [UpdateVotingPower] at a later height they implement the log
    with one more update, which has the powers stored then, and loading the
    snapshot of this height gives exactly the operators with a positive active
    value and their total, whether the powers changed or not.  The update is at a
    strictly later height than the last one of the log, and its epoch is not an
    earlier one ([comes_after]): a second update in one block may erase the first. *)
Theorem UpdateVotingPower_snapshot ctx avsAddr ident n (isForSlash : bool) w u w' log :
  common_IsHexAddress avsAddr = true → ToLower avsAddr = avsAddr →
  usd_keys_wf avsAddr (w_usd w) →
  implements avsAddr (w_snap w) log → log_wf log → describes avsAddr log (w_usd w) →
  comes_after log (BlockHeight ctx) (if isForSlash then n else wrap_int64 (n + 1)) →
  UpdateVotingPower ctx avsAddr ident n isForSlash w = (Ok u, w') →
  ∃ up h v, implements avsAddr (w_snap w') (up :: log) ∧ log_wf (up :: log) ∧
    describes avsAddr (up :: log) (w_usd w') ∧ up_height up = BlockHeight ctx ∧
    LoadVotingPowerSnapshot avsAddr (BlockHeight ctx) (w_snap w') = Ok (h, v) ∧
    vs_powers v = current_powers avsAddr (w_usd w').
Proof.
  intros Hhex Hlow Hwf Him Hlog Hdesc [Hpos Hafter] Hrun.
  destruct (UpdateVotingPower_Ok _ _ _ _ _ _ _ _ Hwf Hrun)
    as (min & ch & opted & [_ _ _ Hsame Hsnap _ _ _ _ _]).
  set (up := {| up_height := BlockHeight ctx; up_epochIdentifier := ident;
    up_epoch := if isForSlash then n else wrap_int64 (n + 1); up_changed := ch; up_opted := opted;
    up_power := (current_powers avsAddr (w_usd w')).1;
    up_set := (current_powers avsAddr (w_usd w')).2 |}).
  assert (Hup : log_wf (up :: log)).
  { split; [|done]. split; [done|]. destruct log as [|u0 log]; [done|].
    destruct Hafter as [Hh He]. split_and!; [done..|]. cbn. intros Hf. by rewrite Hdesc, <-Hsame. }
  destruct (store_update_implements avsAddr Hhex Hlow _ _ up Him Hup) as (s & Hs & Him').
  assert (Hs' : store_update avsAddr up (w_snap w) = (Ok tt, w_snap w')) by exact Hsnap.
  rewrite Hs' in Hs. injection Hs as <-.
  destruct (implements_load avsAddr Hhex (w_snap w') (up :: log) (BlockHeight ctx) up Him' Hup Hpos)
    as (h & v & Hload & Hv).
  { unfold log_at. cbn. by rewrite decide_True by done. }
  exists up, h, v. split_and!; try done; rewrite ?Hv; by destruct (current_powers _ _).
Qed.

(** An update forgets the asset lists of the other AVSs: after a successful
    [UpdateVotingPower] of one AVS no AVS has a list of the assets at its last
    update, so the one that x/feedistribution reads for any of them is the list
    that is in force now, even for an AVS whose epoch has not ended and whose
    assets changed since its last update. *)
Theorem UpdateVotingPower_forgets ctx avsAddr ident n isForSlash w u w' avs :
  usd_keys_wf avsAddr (w_usd w) →
  UpdateVotingPower ctx avsAddr ident n isForSlash w = (Ok u, w') →
  HasAVSAssetsPerEpoch avs (w_usd w') = false ∧
  GetRecentEndedEpochAVSAssets avs (w_ext w') = GetAVSAssetsList (w_rest w') avs.
Proof.
  intros Hwf Hrun. destruct (UpdateVotingPower_Ok _ _ _ _ _ _ _ _ Hwf Hrun)
    as (min & ch & opted & Hup). pose proof (pu_cleared _ _ _ _ _ _ _ _ _ _ Hup) as Hclr.
  unfold GetRecentEndedEpochAVSAssets, HasAVSAssetsPerEpoch.
  change (x_usd (w_ext w')) with (w_usd w'). rewrite Hclr. done.
Qed.
End Properties.
