(* ===== verification/OperatorKeys.v ===== *)
(** * Consensus keys (x/operator/keeper/consensus_keys.go)

    The consensus key of an operator on a chain, in both directions, the
    operator of a consensus address, the key that was replaced in the current
    epoch and the removals under way.  The theorem is that the lookups stay
    consistent under every operation: the two forward lookups agree, the
    consensus address of a key leads back to its operator, and so no two
    operators of a chain share a key. *)

From S2P Require Import Prelude Errors Sdk RefSdk KVStore Epochs Shares DelegationTypes Assets.
From S2P Require Import DelegationStore UndelegationStore Delegation.
From S2P Require Import OperatorTypes OperatorStore OperatorSnapshot OperatorKeepers.
From S2P Require Import OperatorUnbonding OperatorUSD.

Section Keys.
Context {sdk : Sdk} {Y : Type} {ot : Others Y}.
Abbreviation X := (OperatorExt Y).
Implicit Types x : X.

Definition x_keys x : KeyState := st_keys (oe_operator x).

(** A method of the key store, and a method of the other modules. *)
Definition keys_of {A} (m : M KeyState error A) : M X error A :=
  zoom x_keys (λ k x, put_operator (put_keys k (oe_operator x)) x) m.
Definition rest_of {A} (m : M Y error A) : M X error A := zoom oe_rest put_rest m.

(** ** The keys of the store (types/keys.go) *)

Definition KeyForOperatorAndChainIDToConsKey (addr chainID : string) : string :=
  AddrAndChainIDKey addr chainID.
Definition KeyForChainIDAndOperatorToPrevConsKey (chainID addr : string) : string :=
  ChainIDAndAddrKey chainID addr.
Definition KeyForChainIDAndOperatorToConsKey (chainID addr : string) : string :=
  ChainIDAndAddrKey chainID addr.
Definition KeyForChainIDAndConsKeyToOperator (chainID consAddr : string) : string :=
  ChainIDAndAddrKey chainID consAddr.
Definition KeyForOperatorKeyRemovalForChainID (addr chainID : string) : string :=
  AddrAndChainIDKey addr chainID.

(** ** Lookups *)

Definition getOperatorConsKeyForChainID (opAccAddr chainID : string) (s : KeyState)
    : option string := consKeys s !! KeyForOperatorAndChainIDToConsKey opAccAddr chainID.

Definition getOperatorPrevConsKeyForChainID (opAccAddr chainID : string) (s : KeyState)
    : option string := prevConsKeys s !! KeyForChainIDAndOperatorToPrevConsKey chainID opAccAddr.

Definition check_operator_and_chain (opAccAddr chainID : string) x : result error unit :=
  if negb (OperatorStore.IsOperator opAccAddr (x_info x)) then Err delegationtypes.ErrOperatorNotExist
  else match IsAVSByChainID (oe_rest x) chainID with
       | None => Err operatortypes.ErrUnknownChainID
       | Some _ => Ok tt
       end.

Definition GetOperatorPrevConsKeyForChainID (opAccAddr chainID : string) x
    : result error (option string) :=
  _ ← check_operator_and_chain opAccAddr chainID x;
  Ok (getOperatorPrevConsKeyForChainID opAccAddr chainID (x_keys x)).

Definition GetOperatorConsKeyForChainID (opAccAddr chainID : string) x
    : result error (option string) :=
  _ ← check_operator_and_chain opAccAddr chainID x;
  Ok (getOperatorConsKeyForChainID opAccAddr chainID (x_keys x)).

Definition GetOperatorAddressForChainIDAndConsAddr (chainID consAddr : string) x
    : option string :=
  match IsAVSByChainID (oe_rest x) chainID with
  | None => None
  | Some _ => consAddrs (x_keys x) !! KeyForChainIDAndConsKeyToOperator chainID consAddr
  end.

Definition IsOperatorRemovingKeyFromChainID (opAccAddr chainID : string) (s : KeyState) : bool :=
  is_some (keyRemovals s !! KeyForOperatorKeyRemovalForChainID opAccAddr chainID).

(** ** Setting a key *)

Definition setOperatorConsKeyForChainIDUnchecked (opAccAddr chainID wrappedKey : string)
    : M KeyState error unit :=
  _ ← modify (set_consKeys
        (insert (KeyForOperatorAndChainIDToConsKey opAccAddr chainID) wrappedKey));
  _ ← modify (set_chainConsKeys
        (insert (KeyForChainIDAndOperatorToConsKey chainID opAccAddr) wrappedKey));
  modify (set_consAddrs
    (insert (KeyForChainIDAndConsKeyToOperator chainID (ToConsAddr wrappedKey)) opAccAddr)).

Definition setOperatorPrevConsKeyForChainID (opAccAddr chainID prevKey : string)
    : M KeyState error unit :=
  modify (set_prevConsKeys
    (insert (KeyForChainIDAndOperatorToPrevConsKey chainID opAccAddr) prevKey)).

(** A key that is already set is a no-op, which discards the cached context like
    an error but returns none. *)
Definition setOperatorConsKeyForChainID (a : AssetsState) (opAccAddr chainID wrappedKey : string)
    (genesis : bool) : M X error unit :=
  cached (
    frozen ← gets (λ x, OperatorStore.IsOperatorFrozen opAccAddr (x_info x));
    _ ← fail_if (negb genesis && frozen) operatortypes.ErrOperatorIsFrozen;
    removing ← gets (λ x, IsOperatorRemovingKeyFromChainID opAccAddr chainID (x_keys x));
    _ ← fail_if removing operatortypes.ErrAlreadyRemovingKey;
    inUse ← gets (GetOperatorAddressForChainIDAndConsAddr chainID (ToConsAddr wrappedKey));
    _ ← fail_if (is_some inUse) operatortypes.ErrConsKeyAlreadyInUse;
    found ← gets (λ x, getOperatorConsKeyForChainID opAccAddr chainID (x_keys x));
    match found with
    | Some prevKey =>
        if EqualsWrapped prevKey wrappedKey then mret tt
        else
          recorded ← gets (λ x, getOperatorPrevConsKeyForChainID opAccAddr chainID (x_keys x));
          let alreadyRecorded := is_some recorded in
          _ ← (if alreadyRecorded then mret tt
               else keys_of (setOperatorPrevConsKeyForChainID opAccAddr chainID prevKey));
          _ ← keys_of (setOperatorConsKeyForChainIDUnchecked opAccAddr chainID wrappedKey);
          if negb genesis && negb alreadyRecorded then
            o ← gets oe_operator;
            rest_of (AfterOperatorKeyReplaced a o opAccAddr prevKey wrappedKey chainID)
          else mret tt
    | None =>
        _ ← keys_of (setOperatorConsKeyForChainIDUnchecked opAccAddr chainID wrappedKey);
        if negb genesis then
          o ← gets oe_operator;
          rest_of (AfterOperatorKeySet a o opAccAddr chainID wrappedKey)
        else mret tt
    end).

Definition SetOperatorConsKeyForChainID (a : AssetsState) (opAccAddr chainID wrappedKey : string)
    : M X error unit :=
  setOperatorConsKeyForChainID a opAccAddr chainID wrappedKey false.

(** ** Removing a key *)

(** A nil key panics when the event is emitted, after the removal is stored. *)
Definition InitiateOperatorKeyRemovalForChainID (opAccAddr chainID : string) : M X error unit :=
  found ← gets (λ x, getOperatorConsKeyForChainID opAccAddr chainID (x_keys x));
  _ ← keys_of (modify (set_keyRemovals
        (insert (KeyForOperatorKeyRemovalForChainID opAccAddr chainID) tt)));
  match found with
  | None => panic
  | Some key =>
      o ← gets oe_operator;
      rest_of (no_error (AfterOperatorKeyRemovalInitiated o opAccAddr chainID key))
  end.

Definition CompleteOperatorKeyRemovalForChainID (opAccAddr chainID : string) : M X error unit :=
  r ← gets (check_operator_and_chain opAccAddr chainID);
  _ ← lift_result r;
  removing ← gets (λ x, IsOperatorRemovingKeyFromChainID opAccAddr chainID (x_keys x));
  _ ← fail_if (negb removing) operatortypes.ErrOperatorNotRemovingKey;
  found ← gets (λ x, getOperatorConsKeyForChainID opAccAddr chainID (x_keys x));
  match found with
  | None => fail operatortypes.ErrNoKeyInTheStore
  | Some prevKey =>
      let consAddr := ToConsAddr prevKey in
      _ ← keys_of (modify (set_consAddrs
            (delete (KeyForChainIDAndConsKeyToOperator chainID consAddr))));
      _ ← keys_of (modify (set_consKeys
            (delete (KeyForOperatorAndChainIDToConsKey opAccAddr chainID))));
      _ ← keys_of (modify (set_chainConsKeys
            (delete (KeyForChainIDAndOperatorToConsKey chainID opAccAddr))));
      keys_of (modify (set_keyRemovals
        (delete (KeyForOperatorKeyRemovalForChainID opAccAddr chainID))))
  end.

Definition DeleteOperatorAddressForChainIDAndConsAddr (chainID consAddr : string)
    : M KeyState error unit :=
  modify (set_consAddrs (delete (KeyForChainIDAndConsKeyToOperator chainID consAddr))).

Definition ClearPreviousConsensusKeys (chainID : string) : M KeyState error unit :=
  entries ← gets (λ s, prefix_iterator (ChainIDWithLenKey chainID) (prevConsKeys s));
  for_each entries (λ kv, modify (set_prevConsKeys (delete kv.1))).

(** ** The operators of a chain *)

(** The addresses and the keys, in the order of the addresses. *)
Definition GetOperatorsForChainID (chainID : string) x : list (string * string) :=
  match IsAVSByChainID (oe_rest x) chainID with
  | None => []
  | Some _ =>
      let prefix := ChainIDAndAddrKey chainID EmptyString in
      (λ kv, (slice_from (String.length prefix) kv.1, kv.2)) <$>
        prefix_iterator prefix (chainConsKeys (x_keys x))
  end.

Fixpoint active_operators (avsAddr : string) (operators : list (string * string))
    (s : InfoState) : result error (list (string * string)) :=
  match operators with
  | [] => Ok []
  | (operator, pk) :: operators =>
      active ← IsOptedInAndNotJailed (AccAddress_String operator) avsAddr s;
      rest ← active_operators avsAddr operators s;
      Ok (if (active : bool) then (operator, pk) :: rest else rest)
  end.

Definition GetActiveOperatorsForChainID (chainID : string) x
    : result error (list (string * string)) :=
  match IsAVSByChainID (oe_rest x) chainID with
  | None => Ok []
  | Some avsAddr => active_operators avsAddr (GetOperatorsForChainID chainID x) (x_info x)
  end.

(** [keeper/slash.go] *)
Definition IsOperatorJailedForChainID (consAddr chainID : string) x : bool :=
  match GetOperatorAddressForChainIDAndConsAddr chainID consAddr x with
  | None => false
  | Some operatorAddr =>
      match IsAVSByChainID (oe_rest x) chainID with
      | None => false
      | Some avsAddr =>
          match GetOptedInfo (AccAddress_String operatorAddr) avsAddr (x_info x) with
          | Ok optInfo => op_Jailed optInfo
          | _ => false
          end
      end
  end.

(** What the module fills in of [stakingtypes.Validator]. *)
Record StakingValidator := {
  val_Operator : string;
  val_ConsKey : string;
  val_Jailed : bool;
  val_MinSelfDelegation : Int;
  val_Tokens : Int;
  val_DelegatorShares : LegacyDec;
}.

(** [sdk.TokensFromConsensusPower]; the reduction is set by the application. *)
Definition TokensFromConsensusPower (power powerReduction : Z) : Int := power * powerReduction.

(** [None] is [(Validator{}, false)]; errors are logged. *)
Definition ValidatorByConsAddrForChainID (powerReduction : Z)
    (consAddr chainIDWithoutRevision : string) (a : AssetsState) x
    : result error (option StakingValidator) :=
  match IsAVSByChainID (oe_rest x) chainIDWithoutRevision,
        GetOperatorAddressForChainIDAndConsAddr chainIDWithoutRevision consAddr x with
  | Some avsAddr, Some operatorAddr =>
      match GetOperatorConsKeyForChainID operatorAddr chainIDWithoutRevision x,
            GetAVSMinimumSelfDelegation (oe_rest x) avsAddr with
      | Ok (Some wrappedKey), Ok minSelfDelegation =>
          min ← dec_TruncateInt64 minSelfDelegation;
          match GetOrCalculateOperatorUSDValues operatorAddr avsAddr a x with
          | Ok (_, total, _) =>
              power ← dec_TruncateInt64 total;
              let tokens := TokensFromConsensusPower power powerReduction in
              Ok (Some {| val_Operator := operatorAddr; val_ConsKey := wrappedKey;
                val_Jailed := IsOperatorJailedForChainID consAddr chainIDWithoutRevision x;
                val_MinSelfDelegation := TokensFromConsensusPower min powerReduction;
                val_Tokens := tokens; val_DelegatorShares := dec_of_int tokens |})
          | Err _ => Ok None
          | Panic => Panic
          end
      | Panic, _ | _, Panic => Panic
      | _, _ => Ok None
      end
  | _, _ => Ok None
  end.
End Keys.

(** ** The lookups are consistent *)

Section Consistency.
Context `{SdkLaws} {Y : Type} {ot : Others Y}.
Implicit Types (x : OperatorExt Y) (s : KeyState).

Definition acc20 (op : string) : Prop := String.length op = AccAddressLength.

Record keys_inv s : Prop := {
  ki_shape k key : chainConsKeys s !! k = Some key →
    ∃ ch op, go_string ch ∧ acc20 op ∧ k = ChainIDAndAddrKey ch op;
  ki_agree op ch : acc20 op → go_string ch →
    consKeys s !! AddrAndChainIDKey op ch = chainConsKeys s !! ChainIDAndAddrKey ch op;
  ki_back op ch key : acc20 op → go_string ch →
    consKeys s !! AddrAndChainIDKey op ch = Some key →
    consAddrs s !! ChainIDAndAddrKey ch (ToConsAddr key) = Some op;
  ki_removal op ch : acc20 op → go_string ch →
    is_Some (keyRemovals s !! AddrAndChainIDKey op ch) →
    is_Some (consKeys s !! AddrAndChainIDKey op ch);
}.

(** Two stores that agree but for the previous keys. *)
Lemma keys_inv_prev s f : keys_inv s → keys_inv (set_prevConsKeys f s).
Proof. intros [????]. by split. Qed.

Lemma addr_chain_ne op ch op' ch' :
  acc20 op → acc20 op' → go_string ch → go_string ch' →
  (op, ch) ≠ (op', ch') ↔ AddrAndChainIDKey op ch ≠ AddrAndChainIDKey op' ch'.
Proof.
  intros Hop Hop' Hch Hch'. split; [|by intros Hne [= -> ->]].
  intros Hne [-> ->]%AddrAndChainIDKey_inj; [done|by rewrite Hop, Hop'|done..].
Qed.

Lemma chain_addr_ne op ch op' ch' :
  go_string ch → go_string ch' →
  (op, ch) ≠ (op', ch') ↔ ChainIDAndAddrKey ch op ≠ ChainIDAndAddrKey ch' op'.
Proof.
  intros Hch Hch'. split; [|by intros Hne [= -> ->]].
  by intros Hne [-> ->]%ChainIDAndAddrKey_inj.
Qed.

(** A key that no operator uses is set. *)
Lemma keys_inv_set op ch key s u s' :
  acc20 op → go_string ch → keys_inv s →
  consAddrs s !! ChainIDAndAddrKey ch (ToConsAddr key) = None →
  setOperatorConsKeyForChainIDUnchecked op ch key s = (Ok u, s') → keys_inv s'.
Proof.
  intros Hop Hch [Hshape Hagree Hback Hrem] Hfree. unfold setOperatorConsKeyForChainIDUnchecked.
  intros Hrun. go_inv. unfold KeyForOperatorAndChainIDToConsKey, KeyForChainIDAndOperatorToConsKey,
    KeyForChainIDAndConsKeyToOperator. split; cbn.
  - intros k key' [[<- _]|[_ Hk]]%lookup_insert_Some; eauto.
  - intros op' ch' Hop' Hch'. destruct (decide ((op, ch) = (op', ch'))) as [[= <- <-]|Hne].
    + by rewrite !lookup_insert_eq.
    + rewrite !lookup_insert_ne by (by apply addr_chain_ne || by apply chain_addr_ne). by apply Hagree.
  - intros op' ch' key' Hop' Hch'. destruct (decide ((op, ch) = (op', ch'))) as [[= <- <-]|Hne].
    + rewrite !lookup_insert_eq. intros [= <-]. by rewrite lookup_insert_eq.
    + rewrite lookup_insert_ne by (by apply addr_chain_ne). intros Hk.
      rewrite lookup_insert_ne; [by apply Hback|]. intros Heq. rewrite Heq in Hfree.
      by rewrite (Hback op' ch' key') in Hfree.
  - intros op' ch' Hop' Hch' Hr. destruct (decide ((op, ch) = (op', ch'))) as [[= <- <-]|Hne].
    + rewrite lookup_insert_eq. eauto.
    + rewrite lookup_insert_ne by (by apply addr_chain_ne). by apply Hrem.
Qed.

Lemma keys_inv_delete op ch key s :
  acc20 op → go_string ch → keys_inv s → consKeys s !! AddrAndChainIDKey op ch = Some key →
  keys_inv (set_keyRemovals (delete (AddrAndChainIDKey op ch))
    (set_chainConsKeys (delete (ChainIDAndAddrKey ch op))
      (set_consKeys (delete (AddrAndChainIDKey op ch))
        (set_consAddrs (delete (ChainIDAndAddrKey ch (ToConsAddr key))) s)))).
Proof.
  intros Hop Hch [Hshape Hagree Hback Hrem] Hkey. split; cbn.
  - intros k key' [_ Hk]%lookup_delete_Some. eauto.
  - intros op' ch' Hop' Hch'. destruct (decide ((op, ch) = (op', ch'))) as [[= <- <-]|Hne].
    + by rewrite !lookup_delete_eq.
    + rewrite !lookup_delete_ne by (by apply addr_chain_ne || by apply chain_addr_ne). by apply Hagree.
  - intros op' ch' key' Hop' Hch' [Hne Hk]%lookup_delete_Some.
    rewrite lookup_delete_ne; [by apply Hback|].
    intros Heq. pose proof (Hback op ch key Hop Hch Hkey) as Hb. rewrite Heq in Hb.
    rewrite (Hback op' ch' key') in Hb by done. injection Hb as ->.
    apply ChainIDAndAddrKey_inj in Heq as [-> _]; done.
  - intros op' ch' Hop' Hch' [? [Hne Hr]%lookup_delete_Some].
    rewrite lookup_delete_ne by done. eauto.
Qed.

(** ** Every operation keeps them consistent *)

Lemma keys_of_Ok {A} (m : M KeyState error A) x v x' :
  keys_of m x = (Ok v, x') → ∃ k, m (x_keys x) = (Ok v, k) ∧
    x' = put_operator (put_keys k (oe_operator x)) x.
Proof. unfold keys_of. intros Hrun. go_inv. eauto. Qed.

Lemma rest_of_Ok {A} (m : M Y error A) x v x' :
  rest_of m x = (Ok v, x') → x_keys x' = x_keys x ∧ x_info x' = x_info x.
Proof. unfold rest_of. intros Hrun. go_inv. done. Qed.

Lemma record_prev_Ok (recorded : bool) op ch prev x v x' :
  (if recorded then mret tt else keys_of (setOperatorPrevConsKeyForChainID op ch prev)) x =
    (Ok v, x') → keys_inv (x_keys x) →
  keys_inv (x_keys x') ∧ consAddrs (x_keys x') = consAddrs (x_keys x).
Proof.
  destruct recorded; intros Hrun Hinv; [go_inv; done|]. apply keys_of_Ok in Hrun as (k & Hrun & ->).
  unfold setOperatorPrevConsKeyForChainID in Hrun. go_inv. split; [by apply keys_inv_prev|done].
Qed.

Lemma set_and_hook_inv op ch key (calls : bool) (hook : OperatorState → M Y error unit) x u x' :
  (_ ← keys_of (setOperatorConsKeyForChainIDUnchecked op ch key);
   if calls then o ← gets oe_operator; rest_of (hook o) else mret tt) x = (Ok u, x') →
  acc20 op → go_string ch → keys_inv (x_keys x) →
  consAddrs (x_keys x) !! ChainIDAndAddrKey ch (ToConsAddr key) = None → keys_inv (x_keys x').
Proof.
  intros Hrun Hop Hch Hinv Hfree. apply bind_Ok in Hrun as (v & x1 & Hset & Hhook).
  apply keys_of_Ok in Hset as (k & Hset & ->). apply keys_inv_set in Hset; [|done..].
  destruct calls; go_inv; [|done].
  match goal with Hr : rest_of _ _ = _ |- _ => apply rest_of_Ok in Hr as [-> _] end. done.
Qed.

Lemma setOperatorConsKey_inv a op ch key genesis x u x' :
  acc20 op → go_string ch → is_Some (IsAVSByChainID (oe_rest x) ch) →
  setOperatorConsKeyForChainID a op ch key genesis x = (Ok u, x') →
  keys_inv (x_keys x) → keys_inv (x_keys x').
Proof.
  intros Hop Hch [avs Havs] Hrun Hinv. unfold setOperatorConsKeyForChainID in Hrun. go_inv.
  match goal with Hf : is_some _ = false |- _ => rename Hf into Hfree end.
  unfold GetOperatorAddressForChainIDAndConsAddr in Hfree. rewrite Havs in Hfree.
  destruct (consAddrs (x_keys x) !! _) eqn:Hfree'; [done|]. clear Hfree.
  destruct (getOperatorConsKeyForChainID _ _ _) as [prevKey|] eqn:Hprev.
  2:{ by eapply (set_and_hook_inv op ch key _ (λ o, AfterOperatorKeySet a o op ch key)). }
  destruct (EqualsWrapped prevKey key); [go_inv; done|].
  match goal with Hr : mbind _ _ x = (Ok u, x') |- _ => apply bind_Ok in Hr as (? & ? & [-> ->]%gets_Ok & Hr);
    apply bind_Ok in Hr as (? & x1 & Hrec & Hset) end.
  apply record_prev_Ok in Hrec as [Hinv1 Hca]; [|done].
  eapply (set_and_hook_inv op ch key _ (λ o, AfterOperatorKeyReplaced a o op prevKey key ch));
    [exact Hset|done..|by rewrite Hca].
Qed.

Lemma InitiateOperatorKeyRemoval_inv op ch x u x' :
  acc20 op → go_string ch → InitiateOperatorKeyRemovalForChainID op ch x = (Ok u, x') →
  keys_inv (x_keys x) → keys_inv (x_keys x').
Proof.
  intros Hop Hch Hrun Hinv. unfold InitiateOperatorKeyRemovalForChainID in Hrun. go_inv.
  match goal with Hm : keys_of _ _ = _ |- _ => apply keys_of_Ok in Hm as (k & Hk & ->) end.
  unfold getOperatorConsKeyForChainID in *.
  destruct (consKeys (x_keys x) !! _) as [key|] eqn:Hkey; [|done]. go_inv.
  match goal with Hr : rest_of _ _ = _ |- _ => apply rest_of_Ok in Hr as [-> _] end. cbn.
  destruct Hinv as [Hshape Hagree Hback Hrem]. split; cbn; [done..|].
  intros op' ch' Hop' Hch'. destruct (decide ((op, ch) = (op', ch'))) as [[= <- <-]|Hne]; [eauto|].
  rewrite lookup_insert_ne by (by apply addr_chain_ne). by apply Hrem.
Qed.

Lemma CompleteOperatorKeyRemoval_inv op ch x u x' :
  acc20 op → go_string ch → CompleteOperatorKeyRemovalForChainID op ch x = (Ok u, x') →
  keys_inv (x_keys x) → keys_inv (x_keys x').
Proof.
  intros Hop Hch Hrun Hinv. unfold CompleteOperatorKeyRemovalForChainID in Hrun. go_inv.
  unfold getOperatorConsKeyForChainID in *.
  destruct (consKeys (x_keys x) !! _) as [key|] eqn:Hkey; [|done]. go_inv.
  repeat match goal with Hk : keys_of _ _ = _ |- _ => apply keys_of_Ok in Hk as (? & ? & ->) end.
  go_inv. by apply keys_inv_delete.
Qed.

(** A consensus address that no operator uses now: of a key that was replaced. *)
Definition retired (ch consAddr : string) s : Prop := ∀ op key, acc20 op →
  consKeys s !! AddrAndChainIDKey op ch = Some key → ToConsAddr key ≠ consAddr.

Lemma keys_inv_prune ch consAddr s u s' :
  go_string ch → retired ch consAddr s →
  DeleteOperatorAddressForChainIDAndConsAddr ch consAddr s = (Ok u, s') →
  keys_inv s → keys_inv s'.
Proof.
  intros Hch Hret Hrun [Hshape Hagree Hback Hrem].
  unfold DeleteOperatorAddressForChainIDAndConsAddr in Hrun. go_inv. split; cbn; [done..| |done].
  intros op ch' key Hop Hch' Hk. rewrite lookup_delete_ne; [by apply Hback|].
  intros [-> Heq]%ChainIDAndAddrKey_inj; [|done..]. by eapply Hret.
Qed.

Lemma ClearPreviousConsensusKeys_inv ch s u s' :
  ClearPreviousConsensusKeys ch s = (Ok u, s') → keys_inv s → keys_inv s'.
Proof.
  intros Hrun Hinv. unfold ClearPreviousConsensusKeys in Hrun. go_inv.
  match goal with Hf : for_each _ _ _ = _ |- _ => revert Hf end.
  apply for_each_inv; [|done]. intros kv s1 v s2 _ Hs1 Hrun. go_inv. by apply keys_inv_prev.
Qed.

(** The operations on the keys, in any order, and steps that leave them alone. *)
Inductive key_step x : OperatorExt Y → Prop :=
| key_set a op ch key u x' :
    acc20 op → go_string ch → is_Some (IsAVSByChainID (oe_rest x) ch) →
    SetOperatorConsKeyForChainID a op ch key x = (Ok u, x') → key_step x x'
| key_initiate op ch u x' :
    acc20 op → go_string ch → InitiateOperatorKeyRemovalForChainID op ch x = (Ok u, x') →
    key_step x x'
| key_complete op ch u x' :
    acc20 op → go_string ch → CompleteOperatorKeyRemovalForChainID op ch x = (Ok u, x') →
    key_step x x'
| key_prune ch consAddr u x' :
    go_string ch → retired ch consAddr (x_keys x) →
    keys_of (DeleteOperatorAddressForChainIDAndConsAddr ch consAddr) x = (Ok u, x') → key_step x x'
| key_clear ch u x' :
    keys_of (ClearPreviousConsensusKeys ch) x = (Ok u, x') → key_step x x'
| key_other x' : x_keys x' = x_keys x → key_step x x'.

Lemma key_step_inv x x' : key_step x x' → keys_inv (x_keys x) → keys_inv (x_keys x').
Proof.
  intros Hstep Hinv. destruct Hstep as
    [a op ch key u x' ??? Hrun|op ch u x' ?? Hrun|op ch u x' ?? Hrun|ch ca u x' ?? Hrun|ch u x' Hrun|x' Heq].
  - by eapply setOperatorConsKey_inv.
  - by eapply InitiateOperatorKeyRemoval_inv.
  - by eapply CompleteOperatorKeyRemoval_inv.
  - apply keys_of_Ok in Hrun as (k & Hrun & ->). by eapply keys_inv_prune.
  - apply keys_of_Ok in Hrun as (k & Hrun & ->). by eapply ClearPreviousConsensusKeys_inv.
  - by rewrite Heq.
Qed.

Lemma keys_inv_empty : keys_inv (st_keys empty_operator).
Proof. split; cbn; intros *; by rewrite ?lookup_empty. Qed.

(** C21.  Consensus keys stay consistent.  In every state reached from an empty
    key store by setting, replacing, removing and pruning keys, in any order:
    the operators and keys listed for a registered chain are exactly those of
    the direct lookup; the consensus address of an operator's key leads back to
    the operator, as a slash needs; and no two operators of a chain have keys of
    the same consensus address. *)
Theorem keys_consistent x0 x ch :
  x_keys x0 = st_keys empty_operator → rtc key_step x0 x → go_string ch →
  is_Some (IsAVSByChainID (oe_rest x) ch) →
  (∀ op key, acc20 op → (op, key) ∈ GetOperatorsForChainID ch x ↔
     getOperatorConsKeyForChainID op ch (x_keys x) = Some key) ∧
  (∀ op key, acc20 op → getOperatorConsKeyForChainID op ch (x_keys x) = Some key →
     GetOperatorAddressForChainIDAndConsAddr ch (ToConsAddr key) x = Some op) ∧
  (∀ op op' key key', acc20 op → acc20 op' →
     getOperatorConsKeyForChainID op ch (x_keys x) = Some key →
     getOperatorConsKeyForChainID op' ch (x_keys x) = Some key' →
     ToConsAddr key = ToConsAddr key' → op = op').
Proof.
  intros Hx0 Hsteps Hch [avs Havs]. assert (Hinv : keys_inv (x_keys x)).
  { assert (Hinv0 : keys_inv (x_keys x0)) by (rewrite Hx0; apply keys_inv_empty).
    clear Hx0 Havs. induction Hsteps; eauto using key_step_inv. }
  destruct Hinv as [Hshape Hagree Hback _]. unfold getOperatorConsKeyForChainID,
    KeyForOperatorAndChainIDToConsKey, GetOperatorAddressForChainIDAndConsAddr,
    KeyForChainIDAndConsKeyToOperator. rewrite Havs. split_and!.
  - intros op key Hop. unfold GetOperatorsForChainID. rewrite Havs, Hagree by done.
    rewrite list_elem_of_fmap. assert (Hpre : ∀ a, ChainIDAndAddrKey ch a =
      ChainIDAndAddrKey ch EmptyString +:+ a).
    { intros a. by rewrite !ChainIDAndAddrKey_eq, app_empty_r. }
    split.
    + intros ([k v] & [= -> ->] & [Hk Hp]%elem_of_prefix_iterator). cbn in *.
      apply has_prefix_spec in Hp as [t ->]. rewrite slice_from_app by done. by rewrite Hpre.
    + intros Hk. exists (ChainIDAndAddrKey ch op, key). cbn [fst snd]. split.
      * by rewrite (Hpre op), slice_from_app by done.
      * apply elem_of_prefix_iterator. split; [done|]. rewrite (Hpre op). apply has_prefix_app.
  - intros op key Hop. by apply Hback.
  - intros op op' key key' Hop Hop' Hk Hk' Heq. apply Hback in Hk; [|done..].
    apply Hback in Hk'; [|done..]. rewrite Heq, Hk' in Hk. by injection Hk.
Qed.
End Consistency.
