(* ===== verification/OperatorOpt.v ===== *)
(** * Opting in and out, jailing, and the message server (x/operator)

    keeper/opt.go, the jailing functions of keeper/slash.go and
    keeper/msg_server.go.  A message that fails is rolled back by the
    transaction. *)

From S2P Require Import Prelude Errors Sdk RefSdk KVStore Epochs Shares DelegationTypes Assets.
From S2P Require Import DelegationStore UndelegationStore Delegation.
From S2P Require Import OperatorTypes OperatorStore OperatorSnapshot OperatorKeepers.
From S2P Require Import OperatorUnbonding OperatorUSD.
From S2P Require Import OperatorKeys.

Section Opt.
Context {sdk : Sdk} {B Y : Type} {ot : Others Y} {stk : StakingTypes}.
Abbreviation W := (World B (OperatorExt Y)).

(** [isAVS, _ := k.avsKeeper.IsAVS(...)]: the error is ignored. *)
Definition is_avs (avsAddr : string) (w : W) : bool :=
  match IsAVS (w_rest w) avsAddr with Ok b => b | _ => false end.

Definition check_opt (operatorAddress avsAddr : string) : M W error unit :=
  isOperator ← gets (λ w, OperatorStore.IsOperator operatorAddress (x_info (w_ext w)));
  _ ← fail_if (negb isOperator) delegationtypes.ErrOperatorNotExist;
  frozen ← gets (λ w, OperatorStore.IsOperatorFrozen operatorAddress (x_info (w_ext w)));
  _ ← fail_if frozen operatortypes.ErrOperatorIsFrozen;
  isAVS ← gets (is_avs avsAddr);
  fail_if (negb isAVS) operatortypes.ErrNoSuchAvs.

(** The self staked value; without a price it is zero. *)
Definition self_value (operatorAddress avsAddr : string) : M W error LegacyDec :=
  r ← gets (λ w, GetOrCalculateOperatorUSDValues operatorAddress avsAddr (w_assets w) (w_ext w));
  match r with
  | Ok (self, _, _) => mret self
  | Err e => if bool_decide (e = oracletypes.ErrGetPriceRoundNotFound) then mret 0 else fail e
  | Panic => panic
  end.

Definition OptIn (ctx : Ctx) (operatorAddress avsAddr : string) : M W error unit :=
  let operator := AccAddress_String operatorAddress in
  _ ← check_opt operatorAddress avsAddr;
  whitelisted ← gets (λ w, IsWhitelisted (w_rest w) avsAddr operator);
  _ ← (match whitelisted.2 with Some e => fail e | None => mret tt end);
  optedIn ← gets (λ w, IsOptedIn operator avsAddr (x_info (w_ext w)));
  _ ← fail_if optedIn operatortypes.ErrAlreadyOptedIn;
  jailed ← gets (λ w, IsJailed operator avsAddr (x_info (w_ext w)));
  _ ← fail_if jailed operatortypes.ErrIsJailed;
  self ← self_value operatorAddress avsAddr;
  r ← gets (λ w, GetAVSMinimumSelfDelegation (w_rest w) avsAddr);
  minSelfDelegation ← lift_result r;
  _ ← fail_if (self <? minSelfDelegation) operatortypes.ErrMinDelegationNotMet;
  _ ← on_usd (InitOperatorUSDValue avsAddr operator);
  r ← gets (λ w, GetAVSSlashContract (w_rest w) avsAddr);
  slashContract ← lift_result r;
  on_info (SetOptedInfo operator avsAddr {|
    op_SlashContract := slashContract; op_OptedInHeight := wrap_uint64 (BlockHeight ctx);
    op_OptedOutHeight := DefaultOptedOutHeight; op_Jailed := false;
    op_JailToggleHeights := [] |}).

(** The chain ID is the empty string when the AVS is not a chain. *)
Definition OptInWithConsKey (ctx : Ctx) (operatorAddress avsAddr key : string) : M W error unit :=
  _ ← OptIn ctx operatorAddress avsAddr;
  chainID ← gets (λ w, GetChainIDByAVSAddr (w_rest w) avsAddr);
  a ← gets w_assets;
  on_ext (SetOperatorConsKeyForChainID a operatorAddress (default EmptyString chainID) key).

Definition opted_out_at (ctx : Ctx) (info : OptedInfo) : OptedInfo := {|
  op_SlashContract := op_SlashContract info; op_OptedInHeight := op_OptedInHeight info;
  op_OptedOutHeight := wrap_uint64 (BlockHeight ctx); op_Jailed := op_Jailed info;
  op_JailToggleHeights := op_JailToggleHeights info |}.

(** The deferred function removes the key of a chain-type AVS. *)
Definition OptOut (ctx : Ctx) (operatorAddress avsAddr : string) : M W error unit :=
  let operator := AccAddress_String operatorAddress in
  _ ← check_opt operatorAddress avsAddr;
  optedIn ← gets (λ w, IsOptedIn operator avsAddr (x_info (w_ext w)));
  _ ← fail_if (negb optedIn) operatortypes.ErrNotOptedIn;
  chainID ← gets (λ w, GetChainIDByAVSAddr (w_rest w) avsAddr);
  _ ← on_info (HandleOptedInfo operator avsAddr (opted_out_at ctx));
  match chainID with
  | Some chainIDWithoutRevision =>
      on_ext (InitiateOperatorKeyRemovalForChainID operatorAddress chainIDWithoutRevision)
  | None => mret tt
  end.

(** ** Jailing (keeper/slash.go) *)

Definition jailed_at (ctx : Ctx) (jailed : bool) (info : OptedInfo) : OptedInfo := {|
  op_SlashContract := op_SlashContract info; op_OptedInHeight := op_OptedInHeight info;
  op_OptedOutHeight := op_OptedOutHeight info; op_Jailed := jailed;
  op_JailToggleHeights := op_JailToggleHeights info ++ [wrap_uint64 (BlockHeight ctx)] |}.

(** It returns nothing: errors are logged. *)
Definition SetJailedState (ctx : Ctx) (consAddr chainID : string) (jailed : bool)
    : M W error unit :=
  found ← gets (λ w, GetOperatorAddressForChainIDAndConsAddr chainID consAddr (w_ext w));
  isAVS ← gets (λ w, IsAVSByChainID (w_rest w) chainID);
  match found, isAVS with
  | Some operatorAddr, Some avsAddr =>
      let operator := AccAddress_String operatorAddr in
      _ ← log_and_continue (on_info (HandleOptedInfo operator avsAddr (jailed_at ctx jailed)));
      r ← gets (λ w, GetImpactfulEpochsAndAVSsForOperator operator (w_ext w));
      match r with
      | Ok (affectedAVSList, _) =>
          o ← gets w_operator;
          on_rest (no_error (AfterJail o operatorAddr (negb jailed) affectedAVSList))
      | Err _ => mret tt
      | Panic => panic
      end
  | _, _ => mret tt
  end.

Definition Jail (ctx : Ctx) (consAddr chainID : string) : M W error unit :=
  SetJailedState ctx consAddr chainID true.
Definition Unjail (ctx : Ctx) (consAddr chainID : string) : M W error unit :=
  SetJailedState ctx consAddr chainID false.

(** ** The message server (keeper/msg_server.go) *)

(** [accAddr, _ := sdk.AccAddressFromBech32(...)] *)
Definition acc_of (addr : string) : string := default EmptyString (AccAddressFromBech32 addr).

Definition msg_RegisterOperator (ctx : Ctx) (info : option OperatorInfo) : M W error unit :=
  a ← gets w_assets; on_info (RegisterOperator ctx a info).

(** [pubKey] is what the JSON of the message gives: no JSON, or the key if it is
    valid. *)
Definition OptIntoAVS (ctx : Ctx) (fromAddress avsAddress : string)
    (pubKey : option (option string)) : M W error unit :=
  chainID ← gets (λ w, GetChainIDByAVSAddr (w_rest w) avsAddress);
  let accAddr := acc_of fromAddress in
  match chainID with
  | None =>
      _ ← fail_if (is_some pubKey) operatortypes.ErrInvalidPubKey;
      OptIn ctx accAddr avsAddress
  | Some _ =>
      match pubKey with
      | Some (Some key) => OptInWithConsKey ctx accAddr avsAddress key
      | _ => fail operatortypes.ErrInvalidPubKey
      end
  end.

Definition OptOutOfAVS (ctx : Ctx) (fromAddress avsAddress : string) : M W error unit :=
  cached (OptOut ctx (acc_of fromAddress) avsAddress).

Definition SetConsKey (address avsAddress : string) (pubKey : option string) : M W error unit :=
  chainID ← gets (λ w, GetChainIDByAVSAddr (w_rest w) avsAddress);
  match chainID with
  | None => fail operatortypes.ErrNoSuchAvs
  | Some chainID =>
      let accAddr := acc_of address in
      optedIn ← gets (λ w, IsOptedIn (AccAddress_String accAddr) avsAddress (x_info (w_ext w)));
      _ ← fail_if (negb optedIn) operatortypes.ErrIsOptedOutOrJailed;
      match pubKey with
      | None => fail operatortypes.ErrInvalidPubKey
      | Some wrappedKey =>
          a ← gets w_assets; on_ext (SetOperatorConsKeyForChainID a accAddr chainID wrappedKey)
      end
  end.

(** A message whose address must parse. *)
Definition with_address (address : string) (f : string → M InfoState error unit)
    : M W error unit :=
  match AccAddressFromBech32 address with
  | None => fail ErrLibrary
  | Some accAddr => on_info (f accAddr)
  end.

Definition UpdateCommissionRate (ctx : Ctx) (address : string) (rate : LegacyDec)
    : M W error unit :=
  with_address address (λ accAddr, ValidateAndUpdateCommissionRate ctx accAddr rate).
Definition msg_EditOperator (address : string) (description : Description) : M W error unit :=
  with_address address (λ accAddr, EditOperator accAddr description).
Definition msg_UpdateRewardCompoundingFlag (address : string) (disable : bool) : M W error unit :=
  with_address address (λ accAddr, UpdateRewardCompoundingFlag accAddr disable).

Definition UpdateParams (authority reqAuthority : string) (params : OperatorParams)
    : M W error unit :=
  _ ← fail_if (negb (bool_decide (authority = reqAuthority))) operatortypes.ErrInvalidSigner;
  _ ← lift_result (OperatorParams_Validate params);
  on_info (OperatorStore.SetParams params).

Definition msg_UnfreezeOperator (authority reqAuthority operatorAddress : string)
    : M W error unit :=
  _ ← fail_if (negb (bool_decide (authority = reqAuthority))) operatortypes.ErrInvalidSigner;
  match AccAddressFromBech32 operatorAddress with
  | None => panic
  | Some addr => on_info (UnfreezeOperator addr)
  end.
End Opt.
