(* ===== verification/OperatorSlashSafety.v ===== *)
(** * Safety of slashing

    The steps of a slash, and what each of them keeps of the accounting invariant:
    the undelegations, the pools that are reduced and the pools that are
    emptied. *)

From S2P Require Import Prelude Errors Sdk RefSdk KVStore Ledger Epochs Shares DelegationTypes.
From S2P Require Import Assets.
From S2P Require Import DelegationStore UndelegationStore DelegationInv Delegation.
From S2P Require Import DelegationEndBlock.
From S2P Require Import DelegationRuns DelegationSafety.
From S2P Require Import OperatorTypes OperatorStore OperatorSnapshot OperatorKeepers.
From S2P Require Import OperatorUnbonding OperatorUSD.
From S2P Require Import OperatorVotingPower OperatorKeys OperatorSlash.

(** ** Clearing a pool *)

Section Clear.
Context `{SdkLaws} (o x : string) (Ho : key_part o) (Hx : key_part x).
Implicit Types (a : AssetsState) (d : DelegationState).
#[local] Abbreviation pk := (GetJoinedStoreKey [o; x]).

(** The staker lists under the prefix of the pool are those of the pool: no
    asset ID extends that of another asset. *)
Definition own_list d : Prop := ∀ k, is_Some (stakersByOperator d !! k) →
  has_prefix pk k = true → ∃ s, key_part s ∧ k = GetJoinedStoreKey [o; x; s].

Lemma pk_prefix s : has_prefix pk (GetJoinedStoreKey [o; x; s]) = true.
Proof.
  apply has_prefix_spec. exists ("/" +:+ s). unfold GetJoinedStoreKey. cbn.
  by rewrite !app_assoc_str.
Qed.

Lemma set_pool_twice a p p' :
  set_operatorAssets (insert pk p') (set_operatorAssets (insert pk p) a) =
  set_operatorAssets (insert pk p') a.
Proof. unfold set_operatorAssets. cbn. by rewrite insert_insert_eq. Qed.

Definition zero_shares (v : DelegationAmounts) : DelegationAmounts := {|
  da_UndelegatableShare := 0;
  da_PendingUndelegationAmount := da_PendingUndelegationAmount v;
  da_RewardUndelegatableShare := 0;
  da_RewardPendingUndelegationAmount := da_RewardPendingUndelegationAmount v |}.

(** A pool without tokens, of which only the shares differ. *)
Definition drained (p p' : OperatorAssetInfo) : Prop :=
  oa_TotalAmount p' = 0 ∧ 0 ≤ oa_TotalShare p' ∧
  oa_PendingUndelegationAmount p' = oa_PendingUndelegationAmount p ∧
  oa_OperatorShare p' = oa_OperatorShare p.

(** The share of one staker is cleared. *)
Lemma zero_one_inv a d s p v :
  key_part s → core_inv a d → operatorAssets a !! pk = Some p → oa_TotalAmount p = 0 →
  delegations d !! GetJoinedStoreKey [s; x; o] = Some v →
  ∃ p', drained p p' ∧ core_inv (set_operatorAssets (insert pk p') a)
    (set_delegations (insert (GetJoinedStoreKey [s; x; o]) (zero_shares v)) d).
Proof.
  intros Hs Hinv Hp Hz Hv. set (k := GetJoinedStoreKey [s; x; o]) in *.
  assert (Hparts : Forall key_part [s; x; o]) by (by repeat constructor).
  destruct (ci_delegations _ _ Hinv _ _ Hv) as [(H1 & H2 & H3 & H4) _].
  destruct (ci_pools _ _ Hinv _ _ Hp) as [(P1 & P2 & P3 & P4) _].
  assert (Hle : shares v ≤ oa_TotalShare p).
  { pose proof (ledger_part_le _ _ _ _ _ k v pk (ci_shares _ _ Hinv)) as Hle.
    unfold balance in Hle. rewrite Hp in Hle. apply Hle; [|done|by apply f_equal, delegation_pool_join].
    intros k' v' Hv'. destruct (ci_delegations _ _ Hinv _ _ Hv') as [(?&?&?&?) _]. unfold shares. lia. }
  set (p' := {| oa_TotalAmount := 0;
    oa_PendingUndelegationAmount := oa_PendingUndelegationAmount p;
    oa_TotalShare := oa_TotalShare p - shares v; oa_OperatorShare := oa_OperatorShare p |}).
  exists p'. split; [repeat split; cbn; lia|].
  apply (core_inv_shares s x o Hparts a d _ p' (zero_shares v));
    fold k; rewrite ?Hp, ?Hv; cbn; try done.
  - split; [repeat split; cbn; lia|done].
  - unfold shares. cbn. lia.
  - destruct (ci_records _ _ Hinv). by split.
Qed.

(** The state of the loop over the stakers. *)
Lemma SetStakerShareToZero_inv stakers a d p u d' :
  Forall key_part stakers → core_inv a d → operatorAssets a !! pk = Some p → oa_TotalAmount p = 0 →
  SetStakerShareToZero o x stakers d = (Ok u, d') →
  ∃ p', drained p p' ∧ core_inv (set_operatorAssets (insert pk p') a) d' ∧
    stakersByOperator d' = stakersByOperator d ∧ undelegations d' = undelegations d ∧
    (∀ s v, s ∈ stakers → delegations d' !! GetJoinedStoreKey [s; x; o] = Some v → shares v = 0) ∧
    (∀ k v, delegations d' !! k = Some v → shares v ≠ 0 → delegations d !! k = Some v).
Proof.
  revert a d p. induction stakers as [|s stakers IH]; intros a d p Hst Hinv Hp Hz Hrun.
  { cbn in Hrun. apply ret_Ok in Hrun as [_ ->]. exists p. split_and!; try done.
    - repeat split; [done|]. apply (ci_pools _ _ Hinv _ _ Hp).
    - unfold set_operatorAssets. rewrite insert_id by done. by destruct a.
    - intros s v Hs. by apply not_elem_of_nil in Hs. }
  inversion Hst as [|?? Hs Hst']; subst. unfold SetStakerShareToZero in Hrun.
  apply for_each_cons in Hrun as (z & d1 & Hone & Hrest). go_inv.
  set (k := GetJoinedStoreKey [s; x; o]) in *.
  assert (Hstep : ∃ p1, drained p p1 ∧ core_inv (set_operatorAssets (insert pk p1) a) d1 ∧
    stakersByOperator d1 = stakersByOperator d ∧ undelegations d1 = undelegations d ∧
    (∀ v, delegations d1 !! k = Some v → shares v = 0) ∧
    (∀ k' v, delegations d1 !! k' = Some v → shares v ≠ 0 → delegations d !! k' = Some v)).
  { destruct (delegations d !! k) as [v|] eqn:Hv; go_inv.
    - destruct (zero_one_inv a d s p v Hs Hinv Hp Hz Hv) as (p1 & Hd1 & Hinv1).
      exists p1. split_and!; try done; cbn.
      + rewrite lookup_insert_eq. by intros v' [= <-].
      + intros k' v' [[<- <-]|[_ ?]]%lookup_insert_Some; [|done]. unfold shares. cbn. lia.
    - exists p. split_and!; try done.
      + repeat split; [done|]. apply (ci_pools _ _ Hinv _ _ Hp).
      + unfold set_operatorAssets. rewrite insert_id by done. by destruct a.
      + intros v. by rewrite Hv. }
  destruct Hstep as (p1 & Hd1 & Hinv1 & Hl1 & Hu1 & Hk1 & Hsub1).
  destruct (IH (set_operatorAssets (insert pk p1) a) d1 p1) as (p' & Hd' & Hinv' & Hl' & Hu' & Hz' & Hsub');
    try done; [apply lookup_insert_eq|apply Hd1|].
  exists p'. rewrite set_pool_twice in Hinv'. destruct Hd1 as (_ & _ & ? & ?), Hd' as (? & ? & ? & ?).
  split_and!; try congruence; [repeat split; congruence|..].
  - intros s' v [->|Hin]%elem_of_cons Hv; [|by eapply Hz'].
    destruct (decide (shares v = 0)) as [|Hne]; [done|]. by eapply Hk1, Hsub'.
  - eauto.
Qed.

(** No delegation appears or disappears. *)
Lemma SetStakerShareToZero_dom stakers d u d' :
  SetStakerShareToZero o x stakers d = (Ok u, d') → dom (delegations d') = dom (delegations d).
Proof.
  revert d. induction stakers as [|s stakers IH]; intros d Hrun; unfold SetStakerShareToZero in *.
  { cbn in Hrun. by apply ret_Ok in Hrun as [_ ->]. }
  apply for_each_cons in Hrun as (z & d1 & Hone & Hrest). apply IH in Hrest as ->.
  go_inv. destruct (delegations d !! _) eqn:Hv; go_inv; [|done]. cbn. by eapply dom_insert_lookup_L.
Qed.

Lemma clear_stakers_dom d u d' :
  clear_stakers o x d = (Ok u, d') → dom (delegations d') = dom (delegations d).
Proof.
  unfold clear_stakers, GetStakersByOperator, DeleteStakersListForOperator. intros Hrun. go_inv. cbn.
  match goal with Hz : SetStakerShareToZero _ _ _ _ = _ |- _ => by apply SetStakerShareToZero_dom in Hz end.
Qed.

(** The stakers of the list. *)
Lemma third_parts_own (entries : list (string * unit)) l :
  (∀ k u, (k, u) ∈ entries → ∃ s, key_part s ∧ k = GetJoinedStoreKey [o; x; s]) →
  third_parts entries = Ok l →
  Forall key_part l ∧ ∀ s, key_part s → (GetJoinedStoreKey [o; x; s], tt) ∈ entries → s ∈ l.
Proof.
  revert l. induction entries as [|[k []] entries IH]; intros l Hown; cbn [third_parts].
  { intros [= <-]. split; [done|]. intros s _ Hin. by apply elem_of_nil in Hin. }
  destruct (Hown k tt) as (s & Hs & ->); [apply list_elem_of_here|].
  rewrite parse_count3 by done. cbn.
  destruct (third_parts entries) as [l'| |] eqn:Hl; cbn; try done. intros [= <-].
  destruct (IH l') as [Hall Hin]; [intros; eapply Hown; by apply list_elem_of_further|done|].
  split; [by constructor|]. intros s' Hs' [Heq|Hin']%elem_of_cons; [|right; by apply Hin].
  injection Heq as Heq. apply join3_inj in Heq as (_ & _ & ->); [left|done..].
Qed.

(** When every positive share is cleared, so is the share of the pool. *)
Lemma pool_share_zero a d p :
  core_inv a d → operatorAssets a !! pk = Some p →
  (∀ s v, key_part s → delegations d !! GetJoinedStoreKey [s; x; o] = Some v → shares v = 0) →
  oa_TotalShare p = 0.
Proof.
  intros Hinv Hp Hz. pose proof (ci_shares _ _ Hinv pk) as Hl. unfold balance in Hl.
  rewrite Hp in Hl. cbn in Hl. rewrite Hl. apply map_sum_zero. intros k v Hv. unfold part.
  case_decide as Hk; [|done]. injection Hk as Hk.
  destruct (ci_delegations _ _ Hinv _ _ Hv) as [_ (s & x' & o' & Hparts & -> & _)].
  rewrite delegation_pool_join in Hk by done. decompose_Forall_hyps.
  apply join2_inj in Hk as [-> ->]; [|done..]. by apply (Hz s).
Qed.

(** Taking stakers without a share off the list. *)
Lemma core_inv_unlist a d f :
  core_inv a d →
  (∀ s x' o' v, Forall key_part [s; x'; o'] →
     delegations d !! GetJoinedStoreKey [s; x'; o'] = Some v → 0 < shares v →
     f (stakersByOperator d) !! GetJoinedStoreKey [o'; x'; s] =
       stakersByOperator d !! GetJoinedStoreKey [o'; x'; s]) →
  core_inv a (set_stakersByOperator f d).
Proof.
  intros [Hstk Hpools Hd Hsh Hpp Hpd Hrp Hsp Ham Hrec] Hf.
  split; try done; [|by destruct Hrec].
  intros k v Hv. destruct (Hd k v Hv) as [Hnn (s & x' & o' & Hp & -> & Hin)].
  split; [done|]. exists s, x', o'. split_and!; [done..|]. intros Hpos. cbn.
  rewrite (Hf s x' o' v) by done. by apply Hin.
Qed.

(** All the shares of an emptied pool are cleared, and its list. *)
Lemma clear_stakers_inv a d p u d' :
  core_inv a d → operatorAssets a !! pk = Some p → own_list d →
  clear_stakers o x d = (Ok u, d') →
  core_inv (set_operatorAssets (insert pk (slashed_pool p true 0)) a) d' ∧
  undelegations d' = undelegations d ∧ stakersByOperator d' ⊆ stakersByOperator d.
Proof.
  intros Hinv Hp Hown Hrun. unfold clear_stakers in Hrun. go_inv.
  unfold GetStakersByOperator, DeleteStakersListForOperator in *. go_inv.
  match goal with Ht : third_parts _ = Ok ?l |- _ => rename Ht into Hparts; rename l into stakers end.
  match goal with Hz : SetStakerShareToZero _ _ _ _ = (Ok _, ?e) |- _ => rename Hz into Hzero; rename e into d1 end.
  apply third_parts_own in Hparts as [Hst Hin].
  2:{ intros k [] [Hk Hpre]%elem_of_prefix_iterator. apply Hown; eauto. }
  set (p0 := slashed_pool p false 0).
  destruct (ci_pools _ _ Hinv _ _ Hp) as [(P1 & P2 & P3 & P4) _].
  assert (Hinv0 : core_inv (set_operatorAssets (insert pk p0) a) d).
  { apply core_inv_pool; rewrite ?Hp; cbn; try done. }
  destruct (SetStakerShareToZero_inv stakers _ d p0 _ _ Hst Hinv0 (lookup_insert_eq _ _ _) eq_refl Hzero)
    as (p1 & Hd1 & Hinv1 & Hl1 & Hu1 & Hz1 & Hsub1).
  rewrite set_pool_twice in Hinv1.
  assert (Hclear : ∀ s v, key_part s → delegations d1 !! GetJoinedStoreKey [s; x; o] = Some v →
    shares v = 0).
  { intros s v Hs Hv. destruct (ci_delegations _ _ Hinv1 _ _ Hv) as [(?&?&?&?) _].
    destruct (decide (shares v = 0)) as [|Hne]; [done|]. apply (Hz1 s); [|done]. apply Hin; [done|].
    apply elem_of_prefix_iterator. split; [|apply pk_prefix].
    rewrite <-Hl1. apply (core_inv_listed s x o ltac:(by repeat constructor) _ d1 Hinv1).
    rewrite Hv. cbn. unfold shares in *. lia. }
  assert (Hz : oa_TotalShare p1 = 0).
  { apply (pool_share_zero _ d1 p1 Hinv1); [apply lookup_insert_eq|done]. }
  destruct Hd1 as (Ht1 & _ & Hp1 & Ho1). split_and!; [|done|].
  - apply core_inv_unlist.
    + rewrite <-(set_pool_twice a p1). apply core_inv_pool; cbn; rewrite ?lookup_insert_eq; cbn; try done.
    + intros s x' o' v Hparts Hv Hpos. rewrite delete_entries_lookup, decide_False; [done|].
      intros ([k []] & Heq & [Hk Hpre]%elem_of_prefix_iterator)%list_elem_of_fmap. cbn in Heq. subst k.
      rewrite Hl1 in Hk. destruct (Hown _ (mk_is_Some _ _ Hk) Hpre) as (s' & Hs' & Heq).
      decompose_Forall_hyps. apply join3_inj in Heq as (-> & -> & ->); [|done..].
      specialize (Hclear s' v). unfold shares in *. naive_solver lia.
  - cbn. rewrite Hl1. apply map_subseteq_spec. intros k t. rewrite delete_entries_lookup.
    by destruct (decide _).
Qed.
End Clear.

(** ** What does not touch the ledgers *)

Section Frame.
Context `{SdkLaws} {B Y : Type} {ot : Others Y}.
Abbreviation W := (World B (OperatorExt Y)).

(** The ledgers, and the registry of x/operator. *)
Definition core_of (w : W) : AssetsState * DelegationState * B * InfoState :=
  (w_assets w, w_delegation w, w_bank w, w_info w).

Lemma keeps_on_usd {A} (m : M USDState error A) : keeps core_of (on_usd m).
Proof. intros w. unfold on_usd, on_operator, on_ext, zoom. cbn. by destruct (m _). Qed.
Lemma keeps_on_snap {A} (m : M SnapshotState error A) : keeps core_of (on_snap m).
Proof. intros w. unfold on_snap, on_operator, on_ext, zoom. cbn. by destruct (m _). Qed.
Lemma keeps_on_rest {A} (m : M Y error A) : keeps core_of (on_rest m).
Proof. intros w. unfold on_rest, on_ext, zoom. cbn. by destruct (m _). Qed.

#[local] Hint Resolve keeps_on_usd keeps_on_snap keeps_on_rest : keeps.

Lemma keeps_iterate_assets (f : string → OperatorAssetInfo → M W error OperatorAssetInfo) filter l :
  (∀ x p, keeps core_of (f x p)) → keeps core_of (iterate_assets false filter f l).
Proof. intros Hf. induction l as [|[k p] l IH]; cbn; solve_keeps. Qed.

Lemma iterate_assets_query (f : string → OperatorAssetInfo → M W error OperatorAssetInfo) filter l w l' w' :
  iterate_assets false filter f l w = (Ok l', w') → l' = [].
Proof.
  revert w. induction l as [|[k p] l IH]; cbn; intros w Hrun; [by apply ret_Ok in Hrun as [-> _]|].
  go_inv. repeat case_match; go_inv; by eauto.
Qed.

Lemma keeps_IterateAssets (f : string → OperatorAssetInfo → M W error OperatorAssetInfo) filter o :
  (∀ x p, keeps core_of (f x p)) →
  keeps core_of (IterateAssetsForOperator w_assets put_assets false filter f o).
Proof.
  intros Hf w. unfold IterateAssetsForOperator. destruct (AccAddressFromBech32 o); [|done].
  unfold mbind, M_bind, gets. cbn.
  pose proof (keeps_iterate_assets f filter (prefix_iterator o (operatorAssets (w_assets w))) Hf w) as Hk.
  destruct (iterate_assets _ _ _ _ w) as [[l'| |] w1] eqn:Hrun; [|done..].
  apply iterate_assets_query in Hrun as ->. cbn in *. rewrite <-Hk. unfold core_of. cbn.
  unfold set_operatorAssets. cbn. by destruct (w_assets w1).
Qed.

Lemma keeps_update_assets ids : keeps core_of (UpdateAllOperatorAssetUSDValues ids : M W error unit).
Proof.
  assert (Hep : ∀ o l, keeps core_of (impactful_epochs o l : M W error _)).
  { intros o l. induction l as [|i l IH]; cbn; solve_keeps. }
  unfold UpdateAllOperatorAssetUSDValues, IterateOperators, UpdateOperatorAssetUSDValue.
  solve_keeps. apply keeps_IterateAssets. intros x p. unfold update_asset_value, set_for_epochs.
  solve_keeps.
Qed.

Lemma keeps_iterate_usd {S T} (g : S → T) b f l :
  (∀ o v, keeps g (f o v)) → keeps g (iterate_usd b f l).
Proof. intros Hf. induction l as [|[k v] l IH]; cbn; solve_keeps. Qed.

Lemma keeps_rewards {rf : RewardsFrame Y} a avs op assets :
  keeps core_of (on_ext (UpdateAllRewardsUSDForOperator a avs op assets) : M W error LegacyDec).
Proof.
  intros w. unfold on_ext, zoom. destruct (UpdateAllRewardsUSDForOperator _ _ _ _ _) as [r x'] eqn:Hr.
  apply rewards_frame in Hr as [Hi _ _ _]. unfold core_of, w_info. cbn. by rewrite Hi.
Qed.

#[local] Hint Resolve keeps_rewards : keeps.

Lemma keeps_UpdateVotingPower {rf : RewardsFrame Y} ctx avs ident n b :
  keeps core_of (UpdateVotingPower ctx avs ident n b : M W error unit).
Proof.
  unfold UpdateVotingPower. repeat (apply keeps_bind; [solve [solve_keeps]|intros]).
  apply keeps_bind; [|solve_keeps].
  intros w. pose proof (keeps_iterate_usd (λ s : W * VPVars, core_of s.1) true
    (update_operator avs ident a0.1 a0.2 a2) a3) as Hk.
  specialize (Hk ltac:(intros; unfold update_operator; solve_keeps) (w, vp_init)).
  by destruct (iterate_usd _ _ _ _) as [? [? ?]].
Qed.
End Frame.

(** ** The undelegations *)

(** Only the amounts of the rewards in a record change. *)
Definition with_rewards (r r' : UndelegationRecord) : UndelegationRecord := {|
  ur_StakerId := ur_StakerId r; ur_AssetId := ur_AssetId r;
  ur_OperatorAddr := ur_OperatorAddr r; ur_TxHash := ur_TxHash r;
  ur_BlockNumber := ur_BlockNumber r;
  ur_CompletedEpochIdentifier := ur_CompletedEpochIdentifier r;
  ur_CompletedEpochNumber := ur_CompletedEpochNumber r;
  ur_UndelegationId := ur_UndelegationId r; ur_Amount := ur_Amount r;
  ur_ActualCompletedAmount := ur_ActualCompletedAmount r; ur_InstantUnbonding := ur_InstantUnbonding r;
  ur_ApplySlash := ur_ApplySlash r; ur_InstantPenaltyAmount := ur_InstantPenaltyAmount r;
  ur_RewardAsset := ur_RewardAsset r; ur_RewardUndelegations := ur_RewardUndelegations r' |}.

(** x/feedistribution only writes the rewards of the record it is handed. *)
Class RewardRecords (Y : Type) {ot : Others Y} : Prop :=
  reward_record r prop (y : Y) r' y' :
    SlashRewardUndelegation r prop y = (Ok r', y') → r' = with_rewards r r'.

Section Records.
Context `{SdkLaws} {B Y : Type} {ot : Others Y} {rr : RewardRecords Y}.
Abbreviation W := (World B (OperatorExt Y)).
Implicit Types (w : W) (r : UndelegationRecord) (prop : LegacyDec).

(** What a slash leaves of a record. *)
Definition record_left prop r : Int :=
  let actual := ur_ActualCompletedAmount r in
  if actual =? 0 then 0
  else if actual <=? slash_amount prop (ur_Amount r) then 0
  else actual - slash_amount prop (ur_Amount r).

Definition record_slashed prop r r' : Prop :=
  same_record r r' ∧ ur_ActualCompletedAmount r' = record_left prop r.

(** The record was made at or after the height. *)
Definition late (h : Z) (k : string) : bool :=
  match ParseUndelegationRecordKey k with
  | Ok f => negb (ukf_BlockHeight f <? h)
  | _ => false
  end.

Lemma slash_record_Ok prop r w l r' w' l' :
  slash_record prop r (w, l) = (Ok r', (w', l')) →
  core_of w' = core_of w ∧ record_slashed prop r r'.
Proof.
  intros Hrun. split.
  { assert (Hk : keeps (λ s : W * list SlashFromUndelegationInfo, core_of s.1) (slash_record prop r)).
    { unfold slash_record. solve_keeps. apply keeps_on_rest. }
    exact (keeps_Ok _ _ _ _ _ Hk Hrun). }
  unfold slash_record, on_fst, on_rest, on_ext, SlashFromUndelegation in Hrun.
  unfold record_slashed, record_left. go_inv.
  destruct (ur_ActualCompletedAmount r =? 0) eqn:Hz; go_inv; cbn in *; go_inv.
  { split; [by repeat split|]. by apply Z.eqb_eq. }
  destruct (ur_ActualCompletedAmount r <=? _) eqn:Hle;
    destruct (ur_RewardAsset r) eqn:Hra; go_inv; cbn in *; go_inv; split; try by repeat split.
  all: match goal with Hs : SlashRewardUndelegation _ _ _ = _ |- _ => apply reward_record in Hs; rewrite Hs end.
  all: by repeat split.
Qed.

#[local] Abbreviation get := (λ s : W * list SlashFromUndelegationInfo, w_delegation s.1).
#[local] Abbreviation put := (λ d (s : W * list SlashFromUndelegationInfo), (put_delegation d s.1, s.2)).

Lemma visit_slashed prop h entries w l ups w' l' :
  visit_operator_records (Some h) true (slash_record prop) entries (w, l) = (Ok ups, (w', l')) →
  core_of w' = core_of w ∧ ups.*1 = filter (λ k, late h k = true) entries.*1 ∧
  ∀ k r', (k, r') ∈ ups → ∃ r, (k, r) ∈ entries ∧ record_slashed prop r r'.
Proof.
  revert w l ups. induction entries as [|[k r] entries IH]; intros w l ups Hrun.
  { cbn in Hrun. go_inv. simplify_eq. split_and!; [done..|]. intros k r' Hin. by apply elem_of_nil in Hin. }
  cbn [visit_operator_records] in Hrun. go_inv. cbn [fmap list_fmap fst].
  match goal with Hp : ParseUndelegationRecordKey k = Ok ?f |- _ =>
    assert (Hlate : late h k = negb (ukf_BlockHeight f <? h)) by (unfold late; by rewrite Hp) end.
  destruct (_ <? h); cbn in Hlate; go_inv.
  - match goal with Hv : visit_operator_records _ _ _ _ _ = _ |- _ =>
      apply IH in Hv as (Hc & Hk & Hin) end.
    rewrite filter_cons_False by (by rewrite Hlate).
    split_and!; [done..|]. intros k' r' (r0 & ? & ?)%Hin. exists r0. split; [by right|done].
  - match goal with Hs : slash_record _ _ _ = (Ok _, ?s1),
      Hv : visit_operator_records _ _ _ _ ?s1 = _ |- _ =>
      destruct s1 as [w1 l1]; apply slash_record_Ok in Hs as [Hc1 Hr];
      apply IH in Hv as (Hc & Hk & Hin) end.
    rewrite filter_cons_True by done. cbn. rewrite Hk, Hc. split_and!; [done..|].
    intros k' r' [[= -> ->]|(r0 & ? & ?)%Hin]%elem_of_cons; [exists r|exists r0]; (split; [|done]);
      [left|by right].
Qed.

(** The new records are stored. *)
Lemma store_records_inv ups w l u w' l' a :
  NoDup ups.*1 → core_inv a (w_delegation w) →
  (∀ k r', (k, r') ∈ ups → ∃ r, undelegations (w_delegation w) !! k = Some r ∧ same_record r r') →
  for_each ups (λ kv, store_record get put kv.1 kv.2) (w, l) = (Ok u, (w', l')) →
  core_inv a (w_delegation w') ∧ l' = l ∧
  w' = put_delegation (set_records (insert_all ups) (λ m, m) (λ m, m) (λ m, m) (w_delegation w)) w.
Proof.
  revert w. induction ups as [|[k r'] ups IH]; intros w Hnd Hinv Hin Hrun.
  { cbn in Hrun. go_inv. simplify_eq. split_and!; [done..|]. unfold put_delegation, set_records. cbn.
    by destruct w' as [? [] ? ?]. }
  apply for_each_cons in Hrun as (z & s1 & Hone & Hrest). unfold store_record in Hone. go_inv.
  cbn [fst snd] in Hrest. apply NoDup_cons in Hnd as [Hnin Hnd].
  destruct (Hin k r') as (r & Hr & Hsame); [left|].
  apply IH in Hrest as (Hinv' & -> & ->); [by split_and!|done|..]; cbn.
  - by apply (core_inv_record a (w_delegation w) k r r').
  - intros k' r1 Hk. destruct (Hin k' r1) as (r0 & ? & ?); [by right|]. exists r0.
    split; [|done]. rewrite lookup_insert_ne; [done|]. intros ->. apply Hnin.
    apply list_elem_of_fmap. by exists (k', r1).
Qed.
(** The records that a slash of the operator [acc] reaches. *)
Definition hit (acc : string) (h : Z) r : bool :=
  bool_decide (ur_OperatorAddr r = AccAddress_String acc) && (h <=? ur_BlockNumber r).

Lemma key_selects acc h r k :
  acc20 acc → record_wf r → GetKey r = Ok k → has_prefix acc k && late h k = hit acc h r.
Proof.
  intros Hacc [(acc' & Hacc' & Hop) Hb Hid _ _ _]. unfold GetKey, hit. rewrite Hop.
  rewrite (record_key_shape _ _ _ _ acc') by (by apply bech32_roundtrip, acc20_valid). intros [= <-].
  unfold late. rewrite record_key_parse by done. cbn. rewrite <-Z.leb_antisym. f_equal.
  apply Bool.eq_iff_eq_true. rewrite bool_decide_eq_true, has_prefix_spec. split.
  - intros [t Heq]. apply app_inj_len in Heq as [-> _]; [done|congruence].
  - intros Heq. assert (acc' = acc) as ->; [|eauto].
    apply (f_equal AccAddressFromBech32) in Heq.
    rewrite !bech32_roundtrip in Heq by (by apply acc20_valid). by injection Heq.
Qed.

Definition records_slashed (acc : string) (h : Z) prop (u u' : gmap string UndelegationRecord) : Prop :=
  ∀ k, option_Forall2 (λ r r', if hit acc h r then record_slashed prop r r' else r' = r) (u !! k) (u' !! k).

Lemma operator_records_inv acc h prop w l w' :
  acc20 acc → world_inv w →
  slash_undelegations (AccAddress_String acc) h prop w = (Ok l, w') →
  world_inv w' ∧ w_assets w' = w_assets w ∧ w_bank w' = w_bank w ∧ w_info w' = w_info w ∧
  stakersByOperator (w_delegation w') = stakersByOperator (w_delegation w) ∧
  delegations (w_delegation w') = delegations (w_delegation w) ∧
  records_slashed acc (wrap_uint64 h) prop (undelegations (w_delegation w)) (undelegations (w_delegation w')).
Proof.
  intros Hacc Hw [u Hrun]%with_var_Ok. unfold IterateUndelegationsByOperator in Hrun.
  rewrite bech32_roundtrip in Hrun by (by apply acc20_valid). go_inv.
  match goal with Hv : visit_operator_records _ _ _ _ _ = (Ok ?us, ?s1) |- _ =>
    rename us into ups; destruct s1 as [w2 l2]; apply visit_slashed in Hv as (Hc & Hk & Hin) end.
  cbn [fst] in *. injection Hc as Ha Hd Hb Hi.
  assert (Hnd : NoDup ups.*1).
  { rewrite Hk. apply NoDup_filter, prefix_iterator_NoDup_keys. }
  match goal with Hs : for_each _ _ _ = _ |- _ =>
    apply (store_records_inv _ _ _ _ _ _ (w_assets w)) in Hs as (Hinv & _ & ->); [|done|by rewrite Hd|] end.
  2:{ rewrite Hd. intros k r' (r & [Hr _]%elem_of_prefix_iterator & [Hs _])%Hin. eauto. }
  unfold world_inv. cbn in *. rewrite Ha, Hb, Hd in *. split_and!; [done..|].
  intros k. apply (insert_all_related (record_slashed prop) (λ _, hit acc (wrap_uint64 h))); [done|..].
  - intros j r' (r & [Hr _]%elem_of_prefix_iterator & Hs)%Hin. eauto.
  - intros j r Hr. destruct (ci_records _ _ Hw) as [Hwf Hkey _ _ _ _ _].
    rewrite Hk, <-(key_selects acc (wrap_uint64 h) r j Hacc (Hwf _ _ Hr) (Hkey _ _ Hr)).
    rewrite andb_true_iff, list_elem_of_filter, (iterator_keys _ _ _ r Hr). tauto.
Qed.
End Records.
