(* ===== verification/OperatorSlashProps.v ===== *)
(** * What a slash takes, and what it keeps

    The pools of the operator lose the same proportion of their tokens, the
    undelegations that the slash reaches lose it too, and the accounting invariant
    of x/assets and x/delegation holds afterwards, whatever the result. *)

From S2P Require Import Prelude Errors Sdk RefSdk KVStore Ledger Epochs Shares DelegationTypes.
From S2P Require Import Assets.
From S2P Require Import DelegationStore UndelegationStore DelegationInv Delegation.
From S2P Require Import DelegationEndBlock.
From S2P Require Import DelegationRuns DelegationSafety DelegationSteps.
From S2P Require Import OperatorTypes OperatorStore OperatorSnapshot OperatorKeepers.
From S2P Require Import OperatorUnbonding OperatorUSD.
From S2P Require Import OperatorVotingPower OperatorKeys OperatorSlash OperatorSlashSafety.

Section Pools.
Context `{SdkLaws} {B Y : Type} {ot : Others Y}.
Abbreviation W := (World B (OperatorExt Y)).
Implicit Types (w : W) (p : OperatorAssetInfo) (prop : LegacyDec).

Lemma slash_amount_le prop t : prop ≤ dec_of_int 1 → 0 ≤ t → slash_amount prop t ≤ t.
Proof.
  intros Hprop Ht. unfold slash_amount. rewrite MulInt_exact, TruncateInt_trunc.
  unfold dec_of_int, dec_one in *. destruct (Z.le_gt_cases 0 prop).
  - apply Z.quot_le_upper_bound; nia.
  - assert (prop * t ÷ 10 ^ 18 ≤ 0); [|lia]. rewrite <-(Z.opp_involutive (prop * t)), Z.quot_opp_l by lia.
    assert (0 ≤ - (prop * t) ÷ 10 ^ 18); [|lia]. apply Z.quot_pos; nia.
Qed.

(** A pool, before and after. *)
Definition pool_slashed prop p p' : Prop :=
  oa_TotalAmount p' = oa_TotalAmount p - Z.max 0 (slash_amount prop (oa_TotalAmount p)) ∧
  0 ≤ oa_TotalAmount p' ∧
  oa_PendingUndelegationAmount p' = oa_PendingUndelegationAmount p ∧
  (oa_TotalShare p' = oa_TotalShare p ∧ oa_OperatorShare p' = oa_OperatorShare p ∨
   oa_TotalAmount p' = 0 ∧ oa_TotalShare p' = 0 ∧ oa_OperatorShare p' = 0).

(** What the callback of a pool may change. *)
Record pools_step w w' : Prop := {
  ps_assets : w_assets w' = w_assets w;
  ps_bank : w_bank w' = w_bank w;
  ps_ext : w_ext w' = w_ext w;
  ps_records : undelegations (w_delegation w') = undelegations (w_delegation w);
  ps_lists : stakersByOperator (w_delegation w') ⊆ stakersByOperator (w_delegation w);
  ps_delegations : dom (delegations (w_delegation w')) = dom (delegations (w_delegation w));
}.

#[export] Instance pools_step_refl : Reflexive pools_step.
Proof. by intros w. Qed.
#[export] Instance pools_step_trans : Transitive pools_step.
Proof. intros w1 w2 w3 [] []. split; [congruence..|by etransitivity|congruence]. Qed.

Lemma own_list_subset o x d d' :
  stakersByOperator d' ⊆ stakersByOperator d → own_list o x d → own_list o x d'.
Proof. intros Hsub Hown k [u Hk] Hpre. apply Hown; [|done]. exists u. by eapply lookup_weaken. Qed.

Lemma slash_pool_inv prop o x a p w l p' w' l' :
  key_part o → key_part x → prop ≤ dec_of_int 1 → core_inv a (w_delegation w) →
  operatorAssets a !! GetJoinedStoreKey [o; x] = Some p → own_list o x (w_delegation w) →
  slash_pool o prop x p (w, l) = (Ok p', (w', l')) →
  core_inv (set_operatorAssets (insert (GetJoinedStoreKey [o; x]) p') a) (w_delegation w') ∧
  pool_slashed prop p p' ∧ pools_step w w'.
Proof.
  intros Ho Hx Hprop Hinv Hp Hown Hrun. unfold slash_pool in Hrun.
  destruct (ci_pools _ _ Hinv _ _ Hp) as [(P1 & P2 & P3 & P4) Pz].
  pose proof (slash_amount_le prop (oa_TotalAmount p) Hprop P1) as Hle.
  destruct (slash_amount prop (oa_TotalAmount p) <=? 0) eqn:Hpos; go_inv.
  { simplify_eq. split_and!; [|repeat split; lia || auto|done].
    unfold set_operatorAssets. rewrite insert_id by done. by destruct a. }
  destruct ((oa_TotalAmount p - _ =? 0) && _) eqn:Hcl; unfold on_fst, on_delegation in *; go_inv; cbn in *.
  - apply andb_true_iff in Hcl as [Hz%Z.eqb_eq _]. rewrite Hz.
    match goal with Hc : clear_stakers _ _ _ = _ |- _ => apply clear_stakers_dom in Hc as Hdom;
      apply (clear_stakers_inv o x Ho Hx a _ p) in Hc as (Hinv' & Hu & Hsub); [|done..] end.
    simplify_eq. split_and!; [done| |by split]. repeat split; cbn; [lia..|by right].
  - simplify_eq. split_and!; [|repeat split; cbn; [lia..|by left]|done].
    apply core_inv_pool; rewrite ?Hp; cbn; try done.
    split; [repeat split; cbn; lia|cbn; lia].
Qed.
(** The loop over the pools; [a] is the store as it will be written. *)
Lemma slash_pools_loop prop o entries a w l ups w' l' :
  key_part o → prop ≤ dec_of_int 1 → NoDup entries.*1 → core_inv a (w_delegation w) →
  (∀ k p, (k, p) ∈ entries → operatorAssets a !! k = Some p ∧
     ∃ x, key_part x ∧ k = GetJoinedStoreKey [o; x] ∧ own_list o x (w_delegation w)) →
  iterate_assets true None (slash_pool o prop) entries (w, l) = (Ok ups, (w', l')) →
  core_inv (set_operatorAssets (insert_all ups) a) (w_delegation w') ∧ pools_step w w' ∧
  ups.*1 = entries.*1 ∧
  ∀ k p', (k, p') ∈ ups → ∃ p, (k, p) ∈ entries ∧ pool_slashed prop p p'.
Proof.
  intros Ho Hprop. revert a w l ups.
  induction entries as [|[k p] entries IH]; intros a w l ups Hnd Hinv Hin Hrun.
  { cbn in Hrun. go_inv. simplify_eq. split_and!; [|done..|].
    - unfold set_operatorAssets. cbn. by destruct a.
    - intros k p' Hk. by apply elem_of_nil in Hk. }
  cbn [fmap list_fmap fst] in Hnd. apply NoDup_cons in Hnd as [Hnin Hnd].
  destruct (Hin k p) as (Hp & x & Hx & -> & Hown); [left|].
  cbn [iterate_assets] in Hrun. rewrite parse_count2 in Hrun by done. go_inv. simplify_eq. go_inv.
  match goal with Hs : slash_pool _ _ _ _ _ = (Ok ?q, ?s1), Hi : iterate_assets _ _ _ _ ?s1 = (Ok ?us, _) |- _ =>
    rename q into p'; rename us into ups; destruct s1 as [w1 l1]; rename Hi into Hrest;
    apply (slash_pool_inv prop o x a p w) in Hs as (Hinv1 & Hsl & Hst); [|done..] end.
  apply (IH (set_operatorAssets (insert (GetJoinedStoreKey [o; x]) p') a)) in Hrest
    as (Hinv' & Hst' & Hk' & Hin'); [|done..|].
  - split_and!; [done|by etransitivity|cbn; by rewrite Hk'|].
    intros k0 p0 [[= -> ->]|(q & ? & ?)%Hin']%elem_of_cons; [exists p|exists q]; (split; [|done]);
      [left|by right].
  - intros k0 p0 Hk0. destruct (Hin k0 p0) as (Hp0 & x0 & Hx0 & Heq & Hown0); [by right|].
    split; [|exists x0; split_and!; try done; by apply (own_list_subset o x0 _ _ (ps_lists _ _ Hst))].
    cbn. rewrite lookup_insert_ne; [done|]. intros Hk. apply Hnin.
    rewrite Hk. apply list_elem_of_fmap. by exists (k0, p0).
Qed.

(** The keys of the pools and of the lists of stakers are well formed: an operator
    is 20 bytes long, and no asset ID extends that of another asset. *)
Record slash_ready w : Prop := {
  sr_pools k : is_Some (operatorAssets (w_assets w) !! k) →
    ∃ acc x, acc20 acc ∧ key_part x ∧ k = GetJoinedStoreKey [AccAddress_String acc; x];
  sr_lists o x : is_Some (operatorAssets (w_assets w) !! GetJoinedStoreKey [o; x]) →
    own_list o x (w_delegation w);
}.

(** The pools of the operator. *)
Definition own_pool (acc k : string) : bool := has_prefix (AccAddress_String acc) k.

Definition pools_slashed acc prop (m m' : gmap string OperatorAssetInfo) : Prop :=
  ∀ k, option_Forall2 (λ p p', if own_pool acc k then pool_slashed prop p p' else p' = p) (m !! k) (m' !! k).

Lemma own_pool_key acc acc' x :
  acc20 acc → acc20 acc' →
  own_pool acc (GetJoinedStoreKey [AccAddress_String acc'; x]) = true ↔ acc' = acc.
Proof.
  intros Hacc Hacc'. unfold own_pool. rewrite has_prefix_spec. split.
  - intros [t Heq]. cbn in Heq. apply app_inj_len in Heq as [Heq _]; [|apply bech32_length; congruence].
    apply (f_equal AccAddressFromBech32) in Heq.
    rewrite !bech32_roundtrip in Heq by (by apply acc20_valid). by injection Heq.
  - intros ->. cbn. eauto.
Qed.

Lemma slash_pools_inv acc prop w l w' :
  acc20 acc → prop ≤ dec_of_int 1 → world_inv w → slash_ready w →
  slash_pools (AccAddress_String acc) prop w = (Ok l, w') →
  world_inv w' ∧ w_bank w' = w_bank w ∧ w_ext w' = w_ext w ∧
  undelegations (w_delegation w') = undelegations (w_delegation w) ∧
  stakersByOperator (w_delegation w') ⊆ stakersByOperator (w_delegation w) ∧
  dom (delegations (w_delegation w')) = dom (delegations (w_delegation w)) ∧
  pools_slashed acc prop (operatorAssets (w_assets w)) (operatorAssets (w_assets w')) ∧
  stakerAssets (w_assets w') = stakerAssets (w_assets w).
Proof.
  intros Hacc Hprop Hw Hready [u Hrun]%with_var_Ok. unfold IterateAssetsForOperator in Hrun.
  rewrite bech32_roundtrip in Hrun by (by apply acc20_valid). go_inv.
  match goal with Hi : iterate_assets _ _ _ _ _ = (Ok ?us, ?s1) |- _ =>
    rename us into ups; destruct s1 as [w1 l1];
    apply (slash_pools_loop prop _ _ (w_assets w)) in Hi as (Hinv & Hst & Hk & Hin);
    [|apply bech32_charset|done|apply prefix_iterator_NoDup_keys|done|] end.
  2:{ intros k p [Hp Hpre]%elem_of_prefix_iterator. cbn in Hp. split; [done|].
      destruct (sr_pools w Hready k) as (acc' & x & Hacc' & Hx & ->); [eauto|].
      apply own_pool_key in Hpre as ->; [|done..]. exists x. split_and!; try done.
      apply Hready. eauto. }
  simplify_eq. destruct Hst as [Ha Hb He Hu Hl Hdl]. unfold world_inv. cbn in *. rewrite Ha in *.
  split_and!; [done..| |done]. intros k.
  assert (Hnd : NoDup ups.*1) by (rewrite Hk; apply prefix_iterator_NoDup_keys).
  apply (insert_all_related (pool_slashed prop) (λ k _, own_pool acc k)); [done|..].
  - intros j p' (p & [Hp _]%elem_of_prefix_iterator & Hs)%Hin. eauto.
  - intros j p Hp. rewrite Hk. by apply (iterator_keys _ _ _ p).
Qed.
End Pools.

(** ** The slash *)

Section Slash.
Context `{SdkLaws} {B Y : Type} {ot : Others Y} {rr : RewardRecords Y}.
Abbreviation W := (World B (OperatorExt Y)).
Implicit Types (w : W) (parameter : SlashInputInfo).

(** What a slash of [acc] by [prop] does to the ledgers; [reaches] when it was
    committed before this block, so that undelegations are slashed. *)
Record slash_effect (acc : string) (reaches : bool) (h : Z) (prop : LegacyDec) w w' : Prop := {
  ef_inv : world_inv w';
  ef_pools : pools_slashed acc prop (operatorAssets (w_assets w)) (operatorAssets (w_assets w'));
  ef_records : if reaches then
      records_slashed acc h prop (undelegations (w_delegation w)) (undelegations (w_delegation w'))
    else undelegations (w_delegation w') = undelegations (w_delegation w);
  ef_stakers : stakerAssets (w_assets w') = stakerAssets (w_assets w);
  ef_lists : stakersByOperator (w_delegation w') ⊆ stakersByOperator (w_delegation w);
  ef_delegations : dom (delegations (w_delegation w')) = dom (delegations (w_delegation w));
  ef_bank : w_bank w' = w_bank w;
}.

Lemma slash_effect_core acc b h prop w w1 w' :
  slash_effect acc b h prop w w1 →
  w_assets w' = w_assets w1 → w_delegation w' = w_delegation w1 → w_bank w' = w_bank w1 →
  slash_effect acc b h prop w w'.
Proof. intros [] Ha Hd Hb. split; unfold world_inv; by rewrite ?Ha, ?Hd, ?Hb. Qed.

Lemma new_proportion_le power slashProportion value prop :
  new_proportion power slashProportion value = Ok prop → prop ≤ dec_of_int 1.
Proof. unfold new_proportion. case_match; [done|]. intros [= <-]. lia. Qed.

(** The unclaimed rewards that x/feedistribution took, with the same proportion and from
    the sources of the compounding value; the slash of undelegations of rewards may have
    changed its state before. *)
Definition rewards_slashed (ctx : Ctx) parameter w (e : SlashExecutionInfo)
    (sources : gmap string (gset string)) : Prop :=
  ∃ y y', ((in_SlashEventHeight parameter <? BlockHeight ctx) = false → y = w_rest w) ∧
    SlashOperatorUnclaimedRewards (AccAddress_String (in_Operator parameter)) sources
      (se_SlashProportion e) y = (Ok (se_SlashUnclaimedRewards e), y').

(** The proportion that is taken of everything, from the value of the tokens. *)
Definition proportion_of (ctx : Ctx) parameter w (e : SlashExecutionInfo) : Prop :=
  ∃ st, CalculateRealTimeOperatorUSDValue true (AccAddress_String (in_Operator parameter)) None None
          None (w_assets w) (w_ext w) = Ok st ∧
    new_proportion (se_HistoricalVotingPower e) (in_SlashProportion parameter)
      (os_StakingAndWaitUnbonding st) = Ok (se_SlashProportion e) ∧
    rewards_slashed ctx parameter w e (os_CompoundingUSDValueSources st).

Lemma SlashAssets_Ok ctx h parameter w info w' :
  acc20 (in_Operator parameter) → world_inv w → slash_ready w →
  SlashAssets ctx h parameter w = (Ok info, w') →
  se_SlashProportion info ≤ dec_of_int 1 ∧ se_UndelegationFilterHeight info = h ∧
  se_HistoricalVotingPower info = in_Power parameter ∧ proportion_of ctx parameter w info ∧
  w_info w' = w_info w ∧
  slash_effect (in_Operator parameter) (in_SlashEventHeight parameter <? BlockHeight ctx)
    (wrap_uint64 h) (se_SlashProportion info) w w'.
Proof.
  intros Hacc Hw Hready Hrun. unfold SlashAssets in Hrun. go_inv. cbn.
  match goal with Hn : new_proportion _ _ _ = Ok ?q |- _ =>
    rename q into prop; apply new_proportion_le in Hn as Hprop end.
  match goal with Hp : slash_pools _ _ ?wa = (_, ?wb), Hr : on_rest _ ?wb = _ |- _ =>
    rename wa into w1; rename wb into w2; rename Hp into Hpools; rename Hr into Hrest end.
  pose proof (keeps_Ok core_of _ _ _ _ (keeps_on_rest _) Hrest) as Hc.
  assert (Hrec : world_inv w1 ∧ w_assets w1 = w_assets w ∧ w_bank w1 = w_bank w ∧ w_info w1 = w_info w ∧
    stakersByOperator (w_delegation w1) = stakersByOperator (w_delegation w) ∧
    delegations (w_delegation w1) = delegations (w_delegation w) ∧
    if in_SlashEventHeight parameter <? BlockHeight ctx
    then records_slashed (in_Operator parameter) (wrap_uint64 h) prop (undelegations (w_delegation w))
           (undelegations (w_delegation w1))
    else undelegations (w_delegation w1) = undelegations (w_delegation w) ∧ w_ext w1 = w_ext w).
  { destruct (_ <? _); go_inv; [|done].
    match goal with Hu : slash_undelegations _ _ _ _ = _ |- _ =>
      apply operator_records_inv in Hu as (? & ? & ? & ? & ? & ? & ?); [|done..] end. done. }
  destruct Hrec as (Hw1 & Ha1 & Hb1 & Hi1 & Hl1 & Hd1 & Hr1).
  apply slash_pools_inv in Hpools as (Hw2 & Hb2 & He2 & Hu2 & Hl2 & Hd2 & Hp2 & Hs2); [|done..|].
  - rewrite Ha1 in Hp2, Hs2. rewrite Hl1 in Hl2. rewrite Hd1 in Hd2. split_and!; [done..| | |].
    + eexists. split_and!; [done..|]. unfold on_rest, on_ext in Hrest. go_inv. cbn. eexists _, _. split; [|eassumption].
      destruct (_ <? _); [done|]. unfold w_rest. by rewrite He2, (proj2 Hr1).
    + injection Hc as _ _ _ ->. unfold w_info in *. by rewrite He2.
    + injection Hc as ? ? ? _. apply (slash_effect_core _ _ _ _ _ w2); [|done..].
      split; rewrite ?Hu2, ?Hb2; try done. destruct (_ <? _); [done|apply Hr1].
  - destruct Hready as [Hk Hl]. split; rewrite Ha1; [done|]. intros o x Hx k. rewrite Hl1. by apply Hl.
Qed.
(** The information that is stored. *)
Definition slash_info_of (ctx : Ctx) parameter (e : SlashExecutionInfo) : OperatorSlashInfo := {|
  si_SlashContract := in_SlashContract parameter; si_SubmittedHeight := BlockHeight ctx;
  si_EventHeight := in_SlashEventHeight parameter; si_IsVetoed := false;
  si_SlashProportion := in_SlashProportion parameter;
  si_SlashType := in_SlashType parameter; si_ExecutionInfo := e |}.

Definition slash_info_key parameter : string :=
  slash_key (AccAddress_String (in_Operator parameter)) (in_AVSAddr parameter) (in_SlashID parameter).

Record slash_executed (ctx : Ctx) parameter w w' (e : SlashExecutionInfo) : Prop := {
  ex_new : slashInfos (w_info w) !! slash_info_key parameter = None;
  ex_info : slashInfos (w_info w') = <[slash_info_key parameter := slash_info_of ctx parameter e]>
              (slashInfos (w_info w));
  ex_range : 0 ≤ in_SlashProportion parameter ≤ dec_of_int 1;
  ex_prop : se_SlashProportion e ≤ dec_of_int 1;
  ex_effect : slash_effect (in_Operator parameter) (in_SlashEventHeight parameter <? BlockHeight ctx)
    (wrap_uint64 (se_UndelegationFilterHeight e)) (se_SlashProportion e) w w';
}.

Lemma execute_slash_Ok {rf : RewardsFrame Y} ctx parameter h affected y w u w' :
  acc20 (in_Operator parameter) → world_inv w → slash_ready w →
  execute_slash ctx parameter h affected y w = (Ok u, w') →
  ∃ e, slash_executed ctx parameter w w' e ∧ se_UndelegationFilterHeight e = h ∧
    se_HistoricalVotingPower e = in_Power parameter ∧ proportion_of ctx parameter w e.
Proof.
  intros Hacc Hw Hready Hrun. unfold execute_slash in Hrun.
  apply bind_Ok in Hrun as (e & w1 & Hassets & Hrun).
  apply SlashAssets_Ok in Hassets as (Hprop & Hh & Hpow & Hval & Hi1 & Heff); [|done..].
  go_inv. match goal with v : list string * list string |- _ => destruct v as [avss epochs] end. go_inv.
  match goal with Hu : UpdateAllOperatorAssetUSDValues _ _ = _, Hf : for_each avss _ ?wa = (_, ?wb) |- _ =>
    assert (Hc : core_of wb = core_of w1); [|clear Hf Hu; rename wb into w2] end.
  { etransitivity; [eapply keeps_Ok; [|done]|by eapply keeps_Ok; [apply keeps_update_assets|]].
    apply keeps_for_each. intros avs. apply keeps_bind; [by apply keeps_ro, ro_lift|]. intros.
    apply keeps_UpdateVotingPower. }
  injection Hc as Ha Hd Hb Hi. unfold on_rest, on_info, on_operator, on_ext, UpdateOperatorSlashInfo in *.
  rewrite bech32_roundtrip in * by (by apply acc20_valid). go_inv. cbn in *.
  exists e. split; [|done].
  match goal with Ho : (_ <? 0) || _ = false |- _ => apply orb_false_iff in Ho as [Hlo%Z.ltb_ge Hhi%Z.ltb_ge] end.
  match goal with Hn : false = is_some (_ !! _) |- _ => rename Hn into Hnew end.
  unfold w_info, x_info in *. rewrite Hi, Hi1 in Hnew.
  split; cbn; unfold w_info, x_info; try done.
  - unfold slash_info_key. by destruct (_ !! _).
  - by rewrite Hi, Hi1.
  - by apply (slash_effect_core _ _ _ _ _ w1).
Qed.

Lemma slash_executed_power ctx parameter n w w' e :
  slash_executed ctx (with_power parameter n) w w' e → slash_executed ctx parameter w w' e.
Proof. by intros []. Qed.

(** The power that the operator had when the offence was committed, and the snapshot. *)
Definition power_found parameter w (snapshot : Z * VotingPowerSnapshot) (power : Z) : Prop :=
  LoadVotingPowerSnapshot (in_AVSAddr parameter) (in_SlashEventHeight parameter) (w_snap w) =
    Ok snapshot ∧
  historical_power parameter snapshot.2 = Ok power.

(** A slash that fails, or that finds no power at the height of the offence,
    leaves the state as it was. *)
Lemma Slash_cases {rf : RewardsFrame Y} ctx parameter w r w' :
  acc20 (in_Operator parameter) → world_inv w → slash_ready w →
  Slash ctx parameter w = (r, w') →
  w' = w ∧ (r = Ok tt → ∃ snapshot, power_found parameter w snapshot 0) ∨
  ∃ e snapshot, r = Ok tt ∧ slash_executed ctx parameter w w' e ∧ proportion_of ctx parameter w e ∧
    power_found parameter w (se_UndelegationFilterHeight e, snapshot) (se_HistoricalVotingPower e).
Proof.
  intros Hacc Hw Hready. unfold Slash, lift_result, gets, mbind, M_bind.
  destruct (CheckSlashParameter _ _); [|intros [= <- <-]; by left..].
  destruct (LoadVotingPowerSnapshot _ _ _) as [[h snapshot]| |] eqn:Hl; [|intros [= <- <-]; by left..].
  cbn [fst snd]. destruct (historical_power _ _) as [power| |] eqn:Hp; [|intros [= <- <-]; by left..].
  destruct (power =? 0) eqn:Hz.
  { apply Z.eqb_eq in Hz as ->. intros [= <- <-]. left. split; [done|]. intros _. by exists (h, snapshot). }
  unfold cached.
  destruct (execute_slash _ _ _ _ _ _) as [[[]| |] w1] eqn:Hrun; intros [= <- <-]; [right|by left..].
  apply execute_slash_Ok in Hrun as (e & Hex%slash_executed_power & Hh & Hpow & Hval); [|done..].
  exists e, snapshot. split_and!; [done..|]. rewrite Hh, Hpow. done.
Qed.

Lemma slash_ready_step {w w'} acc b h prop :
  slash_ready w → slash_effect acc b h prop w w' → slash_ready w'.
Proof.
  intros [Hk Hl] [_ Hp _ _ Hsub _ _]. unfold pools_slashed in Hp.
  assert (Hdom : ∀ k, is_Some (operatorAssets (w_assets w') !! k) → is_Some (operatorAssets (w_assets w) !! k)).
  { intros k. specialize (Hp k). destruct Hp; [eauto|by intros []]. }
  split; [by auto|]. intros o x Hx. apply (own_list_subset o x (w_delegation w)); auto.
Qed.

(** The invariant survives a slash, whatever its result. *)
Lemma Slash_inv {rf : RewardsFrame Y} ctx parameter w r w' :
  acc20 (in_Operator parameter) → world_inv w → slash_ready w →
  Slash ctx parameter w = (r, w') → world_inv w' ∧ slash_ready w'.
Proof.
  intros Hacc Hw Hready Hrun.
  destruct (Slash_cases ctx parameter w r w' Hacc Hw Hready Hrun) as [[-> _]|(e & snapshot & _ & Hex & _)]; [done|].
  split; [apply Hex|]. by eapply slash_ready_step, Hex.
Qed.
End Slash.

(** ** Properties *)

Section Properties.
Context `{SdkLaws} {B Y : Type} {ot : Others Y} {rr : RewardRecords Y} {rf : RewardsFrame Y}.
Abbreviation W := (World B (OperatorExt Y)).
Implicit Types (w : W) (parameter : SlashInputInfo).


(** No slash is executed twice: while the information of a slash is stored,
    another slash of the operator for the AVS with the same ID changes nothing. *)
Theorem Slash_once ctx parameter w r w' :
  acc20 (in_Operator parameter) → world_inv w → slash_ready w →
  is_Some (slashInfos (w_info w) !! slash_info_key parameter) →
  Slash ctx parameter w = (r, w') → w' = w.
Proof.
  intros Hacc Hw Hready [i Hi] Hrun.
  destruct (Slash_cases ctx parameter w r w' Hacc Hw Hready Hrun) as [[-> _]|(e & snapshot & _ & Hex & _)]; [done|].
  pose proof (ex_new _ _ _ _ _ Hex). congruence.
Qed.

(** When the tokens of the operator have no value, a slash for a positive power
    panics instead of failing, because it divides by the value. *)
Theorem Slash_worthless_panics ctx parameter w snapshot power st :
  CheckSlashParameter ctx parameter = Ok tt →
  LoadVotingPowerSnapshot (in_AVSAddr parameter) (in_SlashEventHeight parameter) (w_snap w) = Ok snapshot →
  historical_power parameter snapshot.2 = Ok power → power ≠ 0 →
  CalculateRealTimeOperatorUSDValue true (AccAddress_String (in_Operator parameter)) None None None
    (w_assets w) (w_ext w) = Ok st →
  os_StakingAndWaitUnbonding st = 0 →
  Slash ctx parameter w = (Panic, w).
Proof.
  intros Hc Hl Hp Hne Hcalc Hz. unfold Slash, lift_result, gets, mbind, M_bind. rewrite Hc.
  unfold w_snap in Hl. rewrite Hl, Hp, (proj2 (Z.eqb_neq _ _) Hne). unfold cached, execute_slash, SlashAssets.
  unfold gets, lift_result, mbind, M_bind. cbn. rewrite Hcalc. unfold new_proportion. by rewrite Hz.
Qed.
End Properties.

(** ** Clearing a pool whose asset ID is a prefix of another one *)

Section Prefix.
Context `{SdkLaws}.
Implicit Types (a : AssetsState) (d : DelegationState).

Lemma third_parts_key (entries : list (string * unit)) l :
  (∀ k u, (k, u) ∈ entries → ∃ o x s, Forall key_part [o; x; s] ∧ k = GetJoinedStoreKey [o; x; s]) →
  third_parts entries = Ok l → Forall key_part l.
Proof.
  revert l. induction entries as [|[k []] entries IH]; intros l Hown; cbn [third_parts].
  { by intros [= <-]. }
  destruct (Hown k tt) as (o & x & s & Hs & ->); [apply list_elem_of_here|].
  pose proof Hs as Hs'. decompose_Forall_hyps. rewrite parse_count3 by done. cbn.
  destruct (third_parts entries) as [l'| |] eqn:Hl; cbn; try done. intros [= <-].
  constructor; [done|]. apply IH; [|done]. intros. eapply Hown. by apply list_elem_of_further.
Qed.

Lemma SetStakerShareToZero_frame o x stakers d u d' k :
  (∀ s, s ∈ stakers → k ≠ GetJoinedStoreKey [s; x; o]) →
  SetStakerShareToZero o x stakers d = (Ok u, d') →
  delegations d' !! k = delegations d !! k ∧ stakersByOperator d' = stakersByOperator d.
Proof.
  revert d. induction stakers as [|s stakers IH]; intros d Hne Hrun; unfold SetStakerShareToZero in *.
  { cbn in Hrun. by apply ret_Ok in Hrun as [_ ->]. }
  apply for_each_cons in Hrun as (z & d1 & Hone & Hrest).
  apply IH in Hrest as [-> ->]; [|intros; apply Hne; by right].
  go_inv. destruct (delegations d !! _); go_inv; [|done]. cbn. split; [|done].
  apply lookup_insert_ne. symmetry. apply Hne. left.
Qed.

(** Clearing the delegators of a pool also takes the delegators of another pool
    of the operator off their list when the ID of its asset starts with the ID of
    the first one: they keep their shares but are no longer listed, so that no
    state of x/assets makes the accounting invariant hold again. *)
Theorem clear_stakers_overreaches o x t s a d u d' v :
  Forall key_part [s; x +:+ t; o] → key_part x → t ≠ EmptyString → core_inv a d →
  (∀ k, is_Some (stakersByOperator d !! k) →
     ∃ o' x' s', Forall key_part [o'; x'; s'] ∧ k = GetJoinedStoreKey [o'; x'; s']) →
  delegations d !! GetJoinedStoreKey [s; x +:+ t; o] = Some v → 0 < shares v →
  clear_stakers o x d = (Ok u, d') → ∀ a', ¬ core_inv a' d'.
Proof.
  intros Hparts Hx Ht Hinv Hl Hv Hpos Hrun a' Hinv'. unfold clear_stakers in Hrun. go_inv.
  unfold GetStakersByOperator, DeleteStakersListForOperator in *. go_inv.
  match goal with Hz : SetStakerShareToZero _ _ ?l _ = (Ok _, ?e) |- _ =>
    rename l into stakers; rename e into d1; rename Hz into Hzero end.
  assert (Hst : Forall key_part stakers).
  { eapply third_parts_key; [|done]. intros k [] [Hk _]%elem_of_prefix_iterator. apply Hl; eauto. }
  apply (SetStakerShareToZero_frame _ _ _ _ _ _ (GetJoinedStoreKey [s; x +:+ t; o])) in Hzero as [Hd1 Hl1].
  2:{ intros s' Hs' Heq. decompose_Forall_hyps. apply join3_inj in Heq as (_ & Heq & _); try done.
      - apply Ht. by apply (f_equal String.length) in Heq; rewrite length_app_str in Heq; destruct t; [|cbn in Heq; lia].
      - by eapply Forall_forall. }
  pose proof (core_inv_listed s (x +:+ t) o Hparts a' _ Hinv') as Hlist. cbn in Hlist.
  rewrite Hd1, Hv in Hlist. specialize (Hlist Hpos). rewrite delete_entries_lookup in Hlist.
  destruct (decide _) as [|Hnin]; [done|]. apply Hnin. rewrite (iterator_keys _ _ _ tt).
  - apply has_prefix_spec. exists (t +:+ ("/" +:+ s)). unfold GetJoinedStoreKey. cbn. by rewrite !app_assoc_str.
  - done.
Qed.
End Prefix.
