(* ===== verification/OperatorSystem.v ===== *)
(** * The restaking system

    x/assets, x/delegation and x/operator together: x/delegation runs with
    x/operator as its operator keeper, and x/operator slashes the pools and the
    undelegations of x/assets and x/delegation.  The step relation lists what
    the messages, the hooks of the epochs and the slashing module may do, and the
    theorem is that the accounting invariant holds in every reachable state, for assets of
    which no ID starts with another one.  The last section is about frozen operators: only
    the message of the authority unfreezes one. *)

From S2P Require Import Prelude Errors Sdk RefSdk KVStore Ledger Epochs Shares DelegationTypes.
From S2P Require Import Assets.
From S2P Require Import DelegationStore UndelegationStore DelegationInv Delegation.
From S2P Require Import DelegationEndBlock.
From S2P Require Import DelegationRuns DelegationSafety DelegationSteps.
From S2P Require Import OperatorTypes OperatorStore OperatorSnapshot OperatorKeepers.
From S2P Require Import OperatorUnbonding OperatorUSD.
From S2P Require Import OperatorVotingPower OperatorKeys OperatorOpt OperatorSlash.
From S2P Require Import OperatorSlashSafety OperatorSlashProps.

Section System.
Context `{SdkLaws} {B Y : Type} {bk : BankKeeper B error} {ot : Others Y} {dh : DelegationHooks Y}.
Context {rr : RewardRecords Y} {rf : RewardsFrame Y} {stk : StakingTypes}.
Abbreviation W := (World B (OperatorExt Y)).
Implicit Types (w : W).

(** ** What x/operator does without touching the ledgers *)

Definition ledgers_of w : AssetsState * DelegationState := (w_assets w, w_delegation w).

Lemma keeps_core {A} (m : M W error A) : keeps core_of m → keeps ledgers_of m.
Proof. intros Hm w. specialize (Hm w). unfold core_of, ledgers_of in *. congruence. Qed.

Lemma keeps_ext {A} (m : M (OperatorExt Y) error A) : keeps ledgers_of (on_ext m).
Proof. by apply keeps_zoom. Qed.

Lemma keeps_info {A} (m : M InfoState error A) : keeps ledgers_of (on_info m).
Proof. apply keeps_ext. Qed.

Lemma keeps_usd {A} (m : M USDState error A) : keeps ledgers_of (on_usd m).
Proof. apply keeps_ext. Qed.

Lemma keeps_snap {A} (m : M SnapshotState error A) : keeps ledgers_of (on_snap m).
Proof. apply keeps_ext. Qed.

Lemma keeps_updates ids : keeps ledgers_of (UpdateAllOperatorAssetUSDValues ids : M W error unit).
Proof. apply keeps_core, keeps_update_assets. Qed.

Lemma keeps_powers ctx avs ident n b : keeps ledgers_of (UpdateVotingPower ctx avs ident n b : M W error unit).
Proof. apply keeps_core, keeps_UpdateVotingPower. Qed.

#[local] Hint Resolve keeps_ext keeps_info keeps_usd keeps_snap keeps_updates keeps_powers : keeps.

Lemma keeps_AfterEpochEnd ctx ident n : keeps ledgers_of (AfterEpochEnd ctx ident n : M W error unit).
Proof.
  unfold AfterEpochEnd, ClearVotingPowerSnapshot. solve_keeps; apply keeps_rewrap; solve_keeps.
Qed.

Lemma keeps_OptIn ctx op avs : keeps ledgers_of (OptIn ctx op avs : M W error unit).
Proof. unfold OptIn, check_opt, self_value. solve_keeps. Qed.

#[local] Hint Resolve keeps_OptIn : keeps.

Lemma keeps_OptIntoAVS ctx from avs key : keeps ledgers_of (OptIntoAVS ctx from avs key : M W error unit).
Proof. unfold OptIntoAVS, OptInWithConsKey. solve_keeps. Qed.

Lemma keeps_OptOutOfAVS ctx from avs : keeps ledgers_of (OptOutOfAVS ctx from avs : M W error unit).
Proof. unfold OptOutOfAVS, OptOut, check_opt. solve_keeps. Qed.

Lemma keeps_SetConsKey addr avs key : keeps ledgers_of (SetConsKey addr avs key : M W error unit).
Proof. unfold SetConsKey. solve_keeps. Qed.

Lemma keeps_SetJailedState ctx cons chain b : keeps ledgers_of (SetJailedState ctx cons chain b : M W error unit).
Proof. unfold SetJailedState. solve_keeps. Qed.

Lemma keeps_with_address addr f : keeps ledgers_of (with_address addr f : M W error unit).
Proof. unfold with_address. solve_keeps. Qed.

(** ** Transitions *)

(** The calls of x/operator other than a slash, with any result. *)
Inductive operator_call (ctx : Ctx) : M W error unit → Prop :=
| call_register info : operator_call ctx (msg_RegisterOperator ctx info)
| call_opt_in from avs key : operator_call ctx (OptIntoAVS ctx from avs key)
| call_opt_out from avs : operator_call ctx (OptOutOfAVS ctx from avs)
| call_cons_key addr avs key : operator_call ctx (SetConsKey addr avs key)
| call_commission addr rate : operator_call ctx (OperatorOpt.UpdateCommissionRate ctx addr rate)
| call_edit addr d : operator_call ctx (msg_EditOperator addr d)
| call_flag addr b : operator_call ctx (msg_UpdateRewardCompoundingFlag addr b)
| call_unfreeze auth sender addr : operator_call ctx (msg_UnfreezeOperator auth sender addr)
| call_params auth sender params : operator_call ctx (OperatorOpt.UpdateParams auth sender params)
| call_jail cons chain : operator_call ctx (Jail ctx cons chain)
| call_unjail cons chain : operator_call ctx (Unjail ctx cons chain)
| call_epoch_end ident n : operator_call ctx (AfterEpochEnd ctx ident n).

Lemma operator_call_keeps ctx m : operator_call ctx m → keeps ledgers_of m.
Proof.
  intros []; auto using keeps_AfterEpochEnd, keeps_OptIntoAVS, keeps_OptOutOfAVS, keeps_SetConsKey.
  - unfold msg_RegisterOperator. solve_keeps.
  - apply keeps_with_address.
  - apply keeps_with_address.
  - apply keeps_with_address.
  - unfold msg_UnfreezeOperator. solve_keeps.
  - unfold OperatorOpt.UpdateParams. solve_keeps.
  - apply keeps_SetJailedState.
  - apply keeps_SetJailedState.
Qed.

(** ** The keys of the pools

    The assets of the pools are among [ids], and the operators are 20 bytes long.  The steps
    keep this, so that a slash finds the stakers of its own pools only, when no identifier
    extends another one. *)

Section Keys.
Context (ids : string → Prop).

Definition prefix_free : Prop := ∀ x t, ids x → ids (x +:+ t) → t = EmptyString.

Definition legal_operator (o : string) : Prop := ∃ acc, acc20 acc ∧ o = AccAddress_String acc.
Definition legal_asset (x : string) : Prop := key_part x ∧ ids x.

Definition pool_key (k : string) : Prop :=
  ∃ o x, legal_operator o ∧ legal_asset x ∧ k = GetJoinedStoreKey [o; x].
Definition delegation_key (k : string) : Prop :=
  ∃ s x o, key_part s ∧ legal_asset x ∧ legal_operator o ∧ k = GetJoinedStoreKey [s; x; o].
Definition list_key (k : string) : Prop :=
  ∃ o x s, legal_operator o ∧ legal_asset x ∧ key_part s ∧ k = GetJoinedStoreKey [o; x; s].

Definition keys_in {V} (P : string → Prop) (m : gmap string V) : Prop := ∀ k, is_Some (m !! k) → P k.

Record keyed w : Prop := {
  kd_pools : keys_in pool_key (operatorAssets (w_assets w));
  kd_delegations : keys_in delegation_key (delegations (w_delegation w));
  kd_lists : keys_in list_key (stakersByOperator (w_delegation w));
  kd_records : map_Forall (λ _ r, ids (ur_AssetId r)) (undelegations (w_delegation w));
}.

Lemma keys_in_insert {V} P k (v : V) m : P k → keys_in P m → keys_in P (<[k := v]> m).
Proof. intros Hk Hm k' [v' [[<- _]|[_ ?]]%lookup_insert_Some]; [done|]. apply Hm. eauto. Qed.

Lemma keys_in_dom {V} P (m m' : gmap string V) : dom m' ⊆ dom m → keys_in P m → keys_in P m'.
Proof. intros Hd Hm k Hk%elem_of_dom. apply Hm, elem_of_dom. by apply Hd. Qed.

Lemma keys_in_delete {V} P k (m : gmap string V) : keys_in P m → keys_in P (delete k m).
Proof. apply keys_in_dom. set_solver. Qed.

Lemma legal_part o : legal_operator o → key_part o.
Proof. intros (acc & _ & ->). apply bech32_charset. Qed.

Lemma pool_key_parts o x : key_part o → key_part x → pool_key (GetJoinedStoreKey [o; x]) →
  legal_operator o ∧ legal_asset x.
Proof.
  intros Ho Hx (o' & x' & Ho' & Hx' & Heq).
  apply join2_inj in Heq as [-> ->]; [done|done|done|by apply legal_part|apply Hx'].
Qed.

(** ** The lists of a pool are its own *)

Lemma extends_part c (x y s t : string) :
  no_char c x = true → y +:+ String c s = x +:+ t → ∃ t', y = x +:+ t'.
Proof.
  revert y. induction x as [|d x IH]; intros y Hx Heq; [by exists y|]. cbn [no_char] in Hx.
  apply andb_true_iff in Hx as [Hd%negb_true_iff Hx]. rewrite app_cons in Heq.
  destruct y as [|e y]; cbn in Heq; injection Heq as -> Heq.
  - by rewrite Ascii.eqb_refl in Hd.
  - destruct (IH y Hx Heq) as [t' ->]. by exists t'.
Qed.

Lemma keyed_own_list o x d :
  prefix_free → keys_in list_key (stakersByOperator d) →
  legal_operator o → legal_asset x → own_list o x d.
Proof.
  intros Hfree Hl (acc & Hacc & ->) [Hx Hxi] k Hk Hpre.
  destruct (Hl k Hk) as (o2 & x2 & s2 & (acc2 & Hacc2 & ->) & [Hx2 Hxi2] & Hs2 & ->).
  apply has_prefix_spec in Hpre as [t Heq]. unfold GetJoinedStoreKey in Heq. cbn [join_with] in Heq.
  rewrite ?app_assoc_str in Heq. apply app_inj_len in Heq as [Ho Heq]; [|apply bech32_length; congruence].
  rewrite !app_cons in Heq. injection Heq as Heq. cbn in Heq.
  destruct (extends_part _ _ _ _ _ Hx Heq) as [t' ->].
  assert (t' = EmptyString) as -> by (by apply (Hfree x)). rewrite app_empty_r in *. exists s2. split; [done|]. by rewrite Ho.
Qed.

Lemma keyed_ready w : prefix_free → keyed w → slash_ready w.
Proof.
  intros Hfree [Hp _ Hl _]. split.
  - intros k (o & x & (acc & ? & ->) & [? ?] & ->)%Hp. by exists acc, x.
  - intros o x (o' & x' & Ho & Hx & Heq)%Hp k Hk Hpre. rewrite Heq in Hpre.
    destruct (keyed_own_list o' x' _ Hfree Hl Ho Hx k Hk Hpre) as (s & Hs & ->).
    exists s. split; [done|]. unfold GetJoinedStoreKey in *. cbn [join_with] in *.
    rewrite <-!app_assoc_str in *. by rewrite Heq.
Qed.

(** ** The steps *)

Section Moves.
Context {kp : Keepers (OperatorExt Y)}.
Implicit Types (q : DelegationOrUndelegationParams (OperatorExt Y)).

Lemma keyed_same w w' :
  keyed w → operatorAssets (w_assets w') = operatorAssets (w_assets w) →
  delegations (w_delegation w') = delegations (w_delegation w) →
  stakersByOperator (w_delegation w') = stakersByOperator (w_delegation w) →
  undelegations (w_delegation w') = undelegations (w_delegation w) → keyed w'.
Proof. intros [] Hp Hd Hl Hu. split; by rewrite ?Hp, ?Hd, ?Hl, ?Hu. Qed.

Lemma delegated_keyed q ng s x share w w' p v :
  request_wf q → acc20 (OperatorAddress q) → ids x → keyed w →
  delegated q ng s x share w w' p v → keyed w'.
Proof.
  intros Hq Hacc Hid [Hp Hd Hl Hr] [Hids _ _ _ _ Hpools _ Hds _ Hls (f & g & h & Hrec) _].
  pose proof (request_parts q s x (OperatorAddress q) Hq Hids) as Hparts. decompose_Forall_hyps.
  assert (legal_operator (AccAddress_String (OperatorAddress q))) by (by eexists).
  assert (legal_asset x) by done.
  split; [rewrite Hpools|rewrite Hds|rewrite Hls|by rewrite Hrec]; apply keys_in_insert; try done.
  - by exists (AccAddress_String (OperatorAddress q)), x.
  - by exists s, x, (AccAddress_String (OperatorAddress q)).
  - by exists (AccAddress_String (OperatorAddress q)), x, s.
Qed.

Lemma share_removed_keyed isU rew s x o share t w w' p0 p v :
  Forall key_part [s; x; o] → keyed w →
  share_removed isU rew s x o share t w w' p0 p v → keyed w' ∧ ids x.
Proof.
  intros Hparts [Hp Hd Hl Hr] [_ _ Hp0 _ _ Hpools _ Hds _ Hls (f & g & Hrec) _ _]. decompose_Forall_hyps.
  assert (Hk : pool_key (GetJoinedStoreKey [o; x])) by (apply Hp; eauto).
  destruct (pool_key_parts o x) as [Ho Hx]; [done..|]. split; [|apply Hx].
  split; [rewrite Hpools|rewrite Hds|rewrite Hls|by rewrite Hrec]; [by apply keys_in_insert| |].
  - apply keys_in_insert; [by exists s, x, o|done].
  - by destruct (_ =? _); [apply keys_in_delete|].
Qed.

Lemma undelegated_keyed ctx q s x share r rk w w' p0 p v :
  request_wf q → keyed w → undelegated ctx q s x share r rk w w' p0 p v → keyed w'.
Proof.
  intros Hq Hw [Hids _ _ _ (w1 & e & Hsr & ->) _ _ _ (id & n & ratio & pen & l & _ & Hr)].
  apply share_removed_keyed in Hsr as [[Hp Hd Hl Hrec] Hx]; [|by eapply request_parts|done].
  split; cbn; try done. apply map_Forall_insert_2; [by rewrite Hr|done].
Qed.

Lemma completed_keyed r w w' acc rk p v :
  world_inv w → undelegations (w_delegation w) !! rk = Some r → keyed w →
  completed r w w' acc rk p v → keyed w'.
Proof.
  intros Hw Hr [Hp Hd Hl Hrec] [Hacc _ _ Hpools _ Hdel _ _].
  pose proof (ri_wf _ (ci_records _ _ Hw) _ _ Hr) as Hwf. pose proof (record_parts r Hwf) as Hparts.
  decompose_Forall_hyps. destruct (rw_operator r Hwf) as (acc' & Hlen & Hop).
  assert (legal_operator (ur_OperatorAddr r)) by (by exists acc').
  assert (legal_asset (ur_AssetId r)) by (split; [done|by eapply Hrec]).
  rewrite <-(record_operator r acc) in Hpools by done.
  split; rewrite ?Hpools, ?Hdel; cbn; [apply keys_in_insert; [by exists (ur_OperatorAddr r), (ur_AssetId r)|done]| |done|].
  - apply keys_in_insert; [by exists (ur_StakerId r), (ur_AssetId r), (ur_OperatorAddr r)|done].
  - by apply map_Forall_delete.
Qed.

Lemma EndBlock_keyed w u w' :
  world_inv w → block_ok w → keyed w → EndBlock w = (Ok u, w') → keyed w'.
Proof.
  intros Hw Hok Hk. rewrite EndBlock_eq by done. unfold log_and_continue.
  destruct (complete_all (selected w) w) as [[[]|e|] w1] eqn:Hrun; [|by apply complete_all_err in Hrun|done].
  intros [= _ <-]. apply (complete_all_ind keyed (selected w) w) in Hrun as [_ ?]; try done.
  - intros r Hr. by apply selected_stored.
  - by apply NoDup_selected.
  - intros. by eapply completed_keyed.
Qed.

Lemma move_shares_keyed op o sign s w u w' :
  (∀ acc, acc20 acc → o = AccAddress_String acc → AccAddress_String op = o) → keyed w →
  IterateDelegationsForStaker w_delegation (move_operator_share op o sign) s w = (Ok u, w') → keyed w'.
Proof.
  intros Ho Hw. unfold IterateDelegationsForStaker, IterateDelegations. intros Hrun. go_inv.
  match goal with H : for_each_break _ _ _ = _ |- _ => revert H end.
  apply (for_each_break_inv keyed); [|done].
  intros [dk dv] w1 b w2 [Hdk _]%elem_of_prefix_iterator Hw1 Hrun. cbn in Hdk.
  destruct (kd_delegations _ Hw dk) as (s' & x & o' & Hs & Hx & Hleg & ->); [eauto|].
  assert (ParseStakerAssetIDAndOperator (GetJoinedStoreKey [s'; x; o']) =
    Ok {| sdr_StakerId := s'; sdr_AssetId := x; sdr_OperatorAddr := o' |}) as Hparse.
  { unfold ParseStakerAssetIDAndOperator. by rewrite parse_count3 by (done || apply Hx || by apply legal_part). }
  cbn [fst snd] in Hrun. rewrite Hparse in Hrun. unfold move_operator_share in Hrun. go_inv. simplify_eq. cbn in *.
  case_bool_decide; go_inv; [|done].
  match goal with H : on_assets _ _ = _ |- _ => apply on_assets_update_pool in H as (-> & p & -> & _) end.
  destruct Hleg as (acc & Hacc & Hl). rewrite (Ho acc Hacc Hl). destruct Hw1. split; try done. cbn.
  apply keys_in_insert; [|done]. eexists _, x. split; [by exists acc|done].
Qed.

Lemma AssociateOperatorWithStaker_keyed lz op s w u w' :
  keyed w → AssociateOperatorWithStaker lz op s w = (Ok u, w') → keyed w'.
Proof.
  intros Hw. unfold AssociateOperatorWithStaker, on_delegation. intros Hrun. go_inv.
  match goal with H : IterateDelegationsForStaker _ _ _ _ = _ |- _ =>
    apply move_shares_keyed in H; [|done..] end.
  match goal with H : SetAssociatedOperator _ _ _ = _ |- _ => apply SetAssociatedOperator_Ok in H as [f ->] end.
  by eapply keyed_same.
Qed.

Lemma DissociateOperatorFromStaker_keyed lz s w u w' :
  keyed w → DissociateOperatorFromStaker lz s w = (Ok u, w') → keyed w'.
Proof.
  intros Hw. unfold DissociateOperatorFromStaker, on_delegation, DeleteAssociatedOperator.
  intros Hrun. go_inv. destruct (AccAddressFromBech32 _) eqn:Ho; go_inv.
  match goal with H : IterateDelegationsForStaker _ _ _ _ = _ |- _ => apply move_shares_keyed in H; [|  |done] end.
  - by eapply keyed_same.
  - intros acc Hacc Heq. rewrite Heq, bech32_roundtrip in Ho by (by apply acc20_valid). by injection Ho as ->.
Qed.

Lemma deposit_keyed p w r a' :
  keyed w → PerformDepositOrWithdraw p (w_assets w) = (Ok r, a') → keyed (put_assets a' w).
Proof.
  intros Hw Hrun. unfold PerformDepositOrWithdraw, GetStakerIDAndAssetID in Hrun. go_inv.
  match goal with H : match dwp_Action p with _ => _ end ?s = (Ok _, ?s1) |- _ =>
    assert (s1 = s) as -> by (unfold mret, M_ret, fail in H; case_match; congruence) end.
  match goal with H1 : UpdateStakerAssetState _ _ _ _ = _, H2 : UpdateStakingAssetTotalAmount _ _ _ = _ |- _ =>
    apply UpdateStakerAssetState_moved in H1 as [_ ->];
    apply UpdateStakingAssetTotalAmount_Ok in H2 as (sa & tot & _ & _ & ->) end.
  by apply (keyed_same w).
Qed.

Lemma staker_update_keyed s x δ w i w' :
  keyed w → on_assets (UpdateStakerAssetState s x δ) w = (Ok i, w') → keyed w'.
Proof. intros Hw [-> _]%on_assets_update_staker. by eapply keyed_same. Qed.

Lemma slash_undelegation_keyed s x rk r (st : W * Int) b r' st' :
  keyed st.1 → slash_undelegation s x rk r st = (Ok (b, r'), st') → keyed st'.1.
Proof.
  intros Hw. unfold slash_undelegation, on_fst. intros Hrun. go_inv. cbn in *.
  match goal with H : (_, _) = (_, _) |- _ => injection H as <- <- end. by eapply staker_update_keyed.
Qed.

Lemma slash_undelegations_keyed s x (st : W * Int) u st' :
  keyed st.1 →
  IterateUndelegationsByStakerAndAsset (λ s, w_delegation s.1)
    (λ d s, (put_delegation d s.1, s.2)) s x true (slash_undelegation s x) st = (Ok u, st') → keyed st'.1.
Proof.
  intros Hw. unfold IterateUndelegationsByStakerAndAsset. intros Hrun. go_inv.
  match goal with H : for_each_break _ _ _ = _ |- _ => revert H end.
  apply (for_each_break_inv (λ st, keyed st.1)); [|done].
  intros [sk rk] st1 b st2 _ Hw1 Hrun. go_inv. cbn in *.
  destruct (undelegations _ !! rk) as [r|] eqn:Hr; go_inv.
  match goal with H : slash_undelegation _ _ _ _ _ = (Ok ?p, _) |- _ => destruct p as [b r'];
    pose proof (slash_undelegation_keyed _ _ _ _ _ _ _ _ Hw1 H) as [Hp Hd Hl Hrec];
    apply slash_undelegation_Ok in H as (((_ & Hx & _) & _) & _) end.
  unfold store_record in *. go_inv. cbn. split; try done. apply map_Forall_insert_2; [|done].
  rewrite Hx. by eapply (kd_records _ Hw1).
Qed.

Lemma slash_delegation_keyed s x prop keys amounts (st : W * Int) b st' :
  key_part s → key_part x → keyed st.1 →
  slash_delegation s x prop keys amounts st = (Ok b, st') → keyed st'.1.
Proof.
  intros Hs Hx Hw. unfold slash_delegation, on_fst.
  destruct (AccAddressFromBech32 _) as [acc|]; [|by intros ?%fail_Ok].
  intros Hrun. go_inv. cbn in *. call_inv.
  match goal with H : RemoveShare _ _ _ _ _ _ _ = _ |- _ =>
    apply RemoveShare_Ok in H as (p0 & p & vn & Hsr) end.
  apply share_removed_keyed in Hsr as [Hk _]; [|repeat constructor; try done; apply bech32_charset|done].
  unfold on_ext in *. go_inv. cbn. by eapply keyed_same.
Qed.

Lemma UpdateNSTBalance_keyed s x amount w u w' :
  key_part s → key_part x → keyed w → UpdateNSTBalance s x amount w = (Ok u, w') → keyed w'.
Proof.
  intros Hs Hx Hw. unfold UpdateNSTBalance. destruct (0 <? amount).
  { intros (i & w1 & H1 & H2)%bind_Ok. apply staker_update_keyed in H1; [|done..]. unfold on_assets in H2. go_inv.
    match goal with H : UpdateStakingAssetTotalAmount _ _ _ = _ |- _ =>
      apply UpdateStakingAssetTotalAmount_Ok in H as (sa & tot & _ & _ & ->) end. by apply (keyed_same w1). }
  destruct (amount <? 0); [|by intros [_ <-]%ret_Ok].
  intros (i0 & w0 & H0 & (i & w1 & H1 & (rest & w2 & H2 & H3)%bind_Ok)%bind_Ok)%bind_Ok.
  assert (w0 = w) as -> by (eapply staker_asset_info_ro, H0). apply staker_update_keyed in H1; [|done..].
  assert (Hw2 : keyed w2).
  { destruct (0 <? _); [|by apply ret_Ok in H2 as [_ <-]].
    apply with_var_Ok in H2 as [u2 H2]. by apply slash_undelegations_keyed in H2. }
  destruct (0 <? rest); [|by apply ret_Ok in H3 as [_ <-]].
  apply bind_Ok in H3 as (total & w3 & Ht & H3). assert (w3 = w2) as -> by (eapply TotalDelegated_ro, Ht).
  destruct (total =? 0); cbn [negb] in H3; [by apply ret_Ok in H3 as [_ <-]|].
  apply bind_Ok in H3 as (v & w4 & (u4 & H4)%with_var_Ok & [_ <-]%ret_Ok).
  change (keyed (w4, v).1). revert H4.
  unfold IterateDelegationsForStakerAndAsset, IterateDelegations. intros H4. go_inv.
  match goal with H : for_each_break _ _ _ = _ |- _ => revert H end.
  apply (for_each_break_inv (λ st, keyed st.1)); [|done].
  intros [dk da] st1 b st2 _ Hst1 Hrun. go_inv. cbn [fst snd] in *.
  match goal with H : slash_delegation _ _ _ _ _ _ = _ |- _ => by apply slash_delegation_keyed in H end.
Qed.

Lemma slash_effect_keyed acc b h prop w w' : keyed w → slash_effect acc b h prop w w' → keyed w'.
Proof.
  intros [Hp Hd Hl Hr] [_ Hpools Hrec _ Hsub Hdom _]. split.
  - intros k Hk. apply Hp. specialize (Hpools k). destruct Hpools; [eauto|by destruct Hk].
  - by apply (keys_in_dom _ (delegations (w_delegation w))); [rewrite Hdom|].
  - by apply (keys_in_dom _ (stakersByOperator (w_delegation w))); [apply subseteq_dom|].
  - destruct b; [|by rewrite Hrec]. intros k r' Hk. specialize (Hrec k). rewrite Hk in Hrec.
    inversion Hrec as [r0 ? Hrel Hr0|]; subst. symmetry in Hr0. apply Hr in Hr0.
    destruct (hit acc h r0); [|by subst]. destruct Hrel as [((_ & -> & _) & _) _]. done.
Qed.
End Moves.
End Keys.

(** ** Transitions of the system

    [ids] are the assets that can be delegated: registered ones, of which no identifier
    extends another one. *)

Section Run.
Context (ids : string → Prop).

Inductive system_step w : W → Prop :=
| system_deposit p r a' :
    PerformDepositOrWithdraw p (w_assets w) = (Ok r, a') → system_step w (put_assets a' w)
| system_delegate ctx q r w' :
    operator_ok (w_ext w) → request_wf q → ids (request_ids q).2 →
    DelegateTo (kp := operator_keepers ctx) q w = (Ok r, w') → system_step w w'
| system_undelegate ctx q u w' :
    operator_ok (w_ext w) → request_wf q →
    UndelegateFrom (kp := operator_keepers ctx) ctx q w = (Ok u, w') → system_step w w'
| system_associate ctx lz op s u w' :
    AssociateOperatorWithStaker (kp := operator_keepers ctx) lz op s w = (Ok u, w') → system_step w w'
| system_dissociate lz s u w' : DissociateOperatorFromStaker lz s w = (Ok u, w') → system_step w w'
| system_nst ctx s x amount u w' :
    key_part s → key_part x →
    UpdateNSTBalance (kp := operator_keepers ctx) s x amount w = (Ok u, w') → system_step w w'
| system_hold k u d' :
    IncrementUndelegationHoldCount k (w_delegation w) = (Ok u, d') → system_step w (put_delegation d' w)
| system_release k u d' :
    DecrementUndelegationHoldCount k (w_delegation w) = (Ok u, d') → system_step w (put_delegation d' w)
| system_params auth sender p u d' :
    DelegationStore.UpdateParams auth sender p (w_delegation w) = (Ok u, d') → system_step w (put_delegation d' w)
| system_end_block ctx u w' :
    block_ok (kp := operator_keepers ctx) w → EndBlock (kp := operator_keepers ctx) w = (Ok u, w') →
    system_step w w'
| system_operator ctx m r w' : operator_call ctx m → m w = (r, w') → system_step w w'
| system_slash ctx parameter r w' :
    acc20 (in_Operator parameter) → Slash ctx parameter w = (r, w') → system_step w w'
| system_infraction ctx chainID addr h power factor infraction r w' :
    acc20 addr → SlashWithInfractionReason ctx chainID addr h power factor infraction w = (r, w') →
    system_step w w'
(** the other modules, and the users of the bank *)
| system_other b x : system_step w (put_bank b (put_ext x w)).

Lemma infraction_cases ctx chainID addr h power factor infraction w r w' :
  SlashWithInfractionReason ctx chainID addr h power factor infraction w = (r, w') →
  w' = w ∨ ∃ parameter rs, in_Operator parameter = addr ∧ Slash ctx parameter w = (rs, w').
Proof.
  unfold SlashWithInfractionReason. destruct factor as [f|]; [|intros [= <- <-]; by left].
  destruct (f <=? 0); [intros [= <- <-]; by left|]. unfold gets, mbind, M_bind.
  destruct (IsAVSByChainID _ _) as [avs|]; [|intros [= <- <-]; by left]. unfold log_and_continue.
  destruct (Slash _ _ _) as [rs w1] eqn:Hrun. intros Heq. right. eexists _, rs.
  split; [|rewrite Hrun; by destruct rs; injection Heq as <- <-]. done.
Qed.

(** The books balance, and the keys of the pools are legal. *)
Definition system_inv w : Prop := world_inv w ∧ keyed ids w.

Lemma Slash_system ctx parameter w r w' :
  prefix_free ids → acc20 (in_Operator parameter) → system_inv w →
  Slash ctx parameter w = (r, w') → system_inv w'.
Proof.
  intros Hfree Hacc [Hw Hk] Hrun. pose proof (keyed_ready ids w Hfree Hk) as Hready.
  destruct (Slash_cases ctx parameter w r w' Hacc Hw Hready Hrun) as [[-> _]|(e & snapshot & _ & Hex & _)]; [done|].
  split; [apply Hex|]. eapply slash_effect_keyed, Hex; done.
Qed.

Lemma delegate_system ctx q r w w' :
  operator_ok (w_ext w) → request_wf q → ids (request_ids q).2 → system_inv w →
  DelegateTo (kp := operator_keepers ctx) q w = (Ok r, w') → system_inv w'.
Proof.
  intros Hok Hq Hid [Hw Hk] (s & x & p & v & Hd)%delegateTo_Ok. split; [by eapply delegated_inv|].
  pose proof (dl_ids _ _ _ _ _ _ _ _ _ Hd) as Hids. rewrite Hids in Hid.
  eapply (delegated_keyed ids); [done| |done|done|exact Hd].
  apply (ok_registered _ Hok), (dl_operator _ _ _ _ _ _ _ _ _ Hd).
Qed.

Lemma undelegate_system ctx q u w w' :
  operator_ok (w_ext w) → request_wf q → system_inv w →
  UndelegateFrom (kp := operator_keepers ctx) ctx q w = (Ok u, w') → system_inv w'.
Proof.
  intros Hok Hq [Hw Hk] (s & x & sh & r & rk & p0 & p & v & Hu)%UndelegateFrom_Ok.
  split; [eapply undelegated_inv, Hu; [done|by apply operator_keepers_ok|done]|by eapply undelegated_keyed].
Qed.

Lemma system_step_inv w w' : prefix_free ids → system_step w w' → system_inv w → system_inv w'.
Proof.
  intros Hfree Hstep Hi. pose proof Hi as [Hw Hk]. destruct Hstep as
    [p r a' Hrun|ctx q r w' Hok Hq Hid Hrun|ctx q u w' Hok Hq Hrun|ctx lz op s u w' Hrun|lz s u w' Hrun
    |ctx s x am u w' Hs Hx Hrun|k u d' Hrun|k u d' Hrun|auth sender p u d' Hrun|ctx u w' Hok Hrun
    |ctx m r w' Hm Hrun|ctx p r w' Ha Hrun|ctx c addr h pw f i r w' Ha Hrun|b x].
  - split; [by eapply deposit_keeps|by eapply deposit_keyed].
  - by eapply delegate_system.
  - by eapply undelegate_system.
  - split; [by eapply AssociateOperatorWithStaker_inv|by eapply AssociateOperatorWithStaker_keyed].
  - split; [by eapply DissociateOperatorFromStaker_inv|by eapply DissociateOperatorFromStaker_keyed].
  - split; [by eapply UpdateNSTBalance_inv; [..|exact Hrun]|by eapply UpdateNSTBalance_keyed; [..|exact Hrun]].
  - unfold IncrementUndelegationHoldCount, set_hold in *. go_inv.
    split; [by apply core_inv_holds|by apply (keyed_same ids w)].
  - unfold DecrementUndelegationHoldCount, set_hold in *. go_inv.
    split; [by apply core_inv_holds|by apply (keyed_same ids w)].
  - unfold DelegationStore.UpdateParams, DelegationStore.SetParams in *. go_inv.
    split; [by apply core_inv_params|by apply (keyed_same ids w)].
  - split; [by eapply EndBlock_preserves|by eapply EndBlock_keyed].
  - apply operator_call_keeps in Hm. pose proof (keeps_Ok _ _ _ _ _ Hm Hrun) as Heq. injection Heq as Ha Hd.
    split; [unfold world_inv; by rewrite Ha, Hd|]. by apply (keyed_same ids w); rewrite ?Ha, ?Hd.
  - by eapply Slash_system.
  - apply infraction_cases in Hrun as [->|(p & rs & <- & Hrun)]; [done|]. by eapply Slash_system.
  - split; [exact Hw|by apply (keyed_same ids w)].
Qed.

Lemma initial_system w : initial w → system_inv w.
Proof.
  intros Hi. split; [by apply initial_inv|]. destruct Hi as (_ & Ho & p & Hd).
  split; rewrite ?Ho, ?Hd; by intros k [].
Qed.

Lemma system_steps_inv w0 w : prefix_free ids → rtc system_step w0 w → system_inv w0 → system_inv w.
Proof. intros Hfree. induction 1; eauto using system_step_inv. Qed.

(** ** Properties *)

(** C1.  In every state that the system reaches from the empty ledgers, by deposits,
    delegations, undelegations, changes of native balances, the ends of blocks and epochs,
    operators that register, opt in and out, change their keys or are jailed, and slashes,
    whether they succeed or not, the accounting of x/assets and x/delegation is consistent:
    the share of every pool is the sum of the shares of its delegators, and the pending
    amounts are the sums of the open undelegations.  The assets that are delegated are among
    [ids], of which no identifier starts with another one: without that a slash that empties
    a pool takes the stakers of the other asset off their list.  Registered operators and
    those slashed have 20-byte addresses. *)
Theorem system_accounts w0 w :
  prefix_free ids → initial w0 → rtc system_step w0 w → core_inv (w_assets w) (w_delegation w).
Proof. intros Hfree Hi Hrtc. by apply (system_steps_inv w0 w Hfree Hrtc), initial_system. Qed.
End Run.
(** ** Frozen operators

    Only a message of the authority unfreezes an operator. *)

Section Frozen.

Definition frozen_of w : gmap string unit := frozenOperators (x_info (w_ext w)).

Lemma frozen_core {A} (m : M W error A) : keeps core_of m → keeps frozen_of m.
Proof. intros Hm w. specialize (Hm w). unfold core_of, frozen_of, w_info in *. congruence. Qed.

Lemma frozen_assets {A} (m : M AssetsState error A) : keeps frozen_of (on_assets m).
Proof. by apply keeps_zoom. Qed.
Lemma frozen_delegation {A} (m : M DelegationState error A) : keeps frozen_of (on_delegation m).
Proof. by apply keeps_zoom. Qed.
Lemma frozen_rest {A} (m : M Y error A) : keeps frozen_of (on_rest m).
Proof. apply frozen_core, keeps_on_rest. Qed.
Lemma frozen_usd {A} (m : M USDState error A) : keeps frozen_of (on_usd m).
Proof. apply frozen_core, keeps_on_usd. Qed.
Lemma frozen_snap {A} (m : M SnapshotState error A) : keeps frozen_of (on_snap m).
Proof. apply frozen_core, keeps_on_snap. Qed.
Lemma frozen_info {A} (m : M InfoState error A) : keeps frozenOperators m → keeps frozen_of (on_info m).
Proof.
  intros Hm w. specialize (Hm (x_info (w_ext w))). unfold frozen_of, on_info, on_operator, on_ext, zoom, x_info in *.
  by destruct (m _).
Qed.
Lemma frozen_updates epochs : keeps frozen_of (UpdateAllOperatorAssetUSDValues epochs : M W error unit).
Proof. apply frozen_core, keeps_update_assets. Qed.
Lemma frozen_powers ctx avs ident n b : keeps frozen_of (UpdateVotingPower ctx avs ident n b : M W error unit).
Proof. apply frozen_core, keeps_UpdateVotingPower. Qed.

Lemma frozen_cons_key a op c key : keeps frozen_of (on_ext (SetOperatorConsKeyForChainID a op c key) : M W error unit).
Proof.
  assert (Hk : keeps (λ x : OperatorExt Y, frozenOperators (x_info x)) (SetOperatorConsKeyForChainID a op c key)).
  { unfold SetOperatorConsKeyForChainID, setOperatorConsKeyForChainID, keys_of, rest_of. solve_keeps. }
  intros w. specialize (Hk (w_ext w)). unfold frozen_of, on_ext, zoom. by destruct (SetOperatorConsKeyForChainID _ _ _ _ _).
Qed.
Lemma frozen_key_removal op c : keeps frozen_of (on_ext (InitiateOperatorKeyRemovalForChainID op c) : M W error unit).
Proof.
  assert (Hk : keeps (λ x : OperatorExt Y, frozenOperators (x_info x)) (InitiateOperatorKeyRemovalForChainID op c)).
  { unfold InitiateOperatorKeyRemovalForChainID, keys_of, rest_of. solve_keeps. }
  intros w. specialize (Hk (w_ext w)). unfold frozen_of, on_ext, zoom. by destruct (InitiateOperatorKeyRemovalForChainID _ _ _).
Qed.

#[local] Hint Resolve frozen_assets frozen_delegation frozen_rest frozen_usd frozen_snap frozen_updates
  frozen_powers frozen_cons_key frozen_key_removal : keeps.

Lemma frozen_opted o avs f : keeps frozenOperators (HandleOptedInfo o avs f).
Proof. unfold HandleOptedInfo. solve_keeps. Qed.
Lemma frozen_set_opted o avs i : keeps frozenOperators (SetOptedInfo o avs i).
Proof. unfold SetOptedInfo. solve_keeps. Qed.

#[local] Hint Resolve frozen_info frozen_opted frozen_set_opted : keeps.

Lemma frozen_OptIn ctx op avs : keeps frozen_of (OptIn ctx op avs : M W error unit).
Proof. unfold OptIn, check_opt, self_value. solve_keeps. Qed.
#[local] Hint Resolve frozen_OptIn : keeps.

Lemma frozen_name n : keeps frozenOperators (HasOperatorName n).
Proof. unfold HasOperatorName, IterateOperators. solve_keeps. Qed.
Lemma frozen_get_info addr : keeps frozenOperators (GetOperatorInfo addr).
Proof. unfold GetOperatorInfo. solve_keeps. Qed.
#[local] Hint Resolve frozen_name frozen_get_info : keeps.

Lemma frozen_register ctx a info : keeps frozenOperators (RegisterOperator ctx a info).
Proof. unfold RegisterOperator, setOperatorInfo, check_earnings. solve_keeps. Qed.
Lemma frozen_edit addr d : keeps frozenOperators (EditOperator addr d).
Proof. unfold EditOperator, setOperatorInfo. solve_keeps. Qed.
Lemma frozen_flag addr b : keeps frozenOperators (UpdateRewardCompoundingFlag addr b).
Proof. unfold UpdateRewardCompoundingFlag, setOperatorInfo. solve_keeps. Qed.
Lemma frozen_commission ctx addr r : keeps frozenOperators (ValidateAndUpdateCommissionRate ctx addr r).
Proof. unfold ValidateAndUpdateCommissionRate, setOperatorInfo, dec_value. solve_keeps. Qed.
#[local] Hint Resolve frozen_register frozen_edit frozen_flag frozen_commission : keeps.

Lemma frozen_jail ctx cons chain b : keeps frozen_of (SetJailedState ctx cons chain b : M W error unit).
Proof. unfold SetJailedState. solve_keeps. Qed.

Lemma frozen_epoch_end ctx ident n : keeps frozen_of (AfterEpochEnd ctx ident n : M W error unit).
Proof. unfold AfterEpochEnd, ClearVotingPowerSnapshot. solve_keeps; apply keeps_rewrap; solve_keeps. Qed.

Lemma operator_call_frozen ctx m acc w r w' :
  operator_call ctx m → (∀ auth addr, m = msg_UnfreezeOperator auth auth addr → AccAddressFromBech32 addr ≠ Some acc) →
  m w = (r, w') → is_Some (frozen_of w !! acc) → is_Some (frozen_of w' !! acc).
Proof.
  intros Hm Hno Hrun. assert (Hcase : keeps frozen_of m ∨ ∃ auth sender addr, m = msg_UnfreezeOperator auth sender addr).
  { destruct Hm; try (right; by do 3 eexists); left; eauto using frozen_jail, frozen_epoch_end.
    - unfold msg_RegisterOperator. solve_keeps.
    - unfold OptIntoAVS, OptInWithConsKey. solve_keeps.
    - unfold OptOutOfAVS, OptOut, check_opt. solve_keeps.
    - unfold SetConsKey. solve_keeps.
    - unfold OperatorOpt.UpdateCommissionRate, with_address. solve_keeps.
    - unfold msg_EditOperator, with_address. solve_keeps.
    - unfold msg_UpdateRewardCompoundingFlag, with_address. solve_keeps.
    - unfold OperatorOpt.UpdateParams, OperatorStore.SetParams. solve_keeps. }
  destruct Hcase as [Hk|(auth & sender & addr & ->)].
  { by rewrite (keeps_Ok _ _ _ _ _ Hk Hrun). }
  revert Hrun. unfold msg_UnfreezeOperator, fail_if, mbind, M_bind. case_bool_decide as Ha; cbn; [subst|by intros [= <- <-]].
  destruct (AccAddressFromBech32 addr) as [a|] eqn:Haddr; [|by intros [= <- <-]].
  intros Hrun. assert (a ≠ acc) by (intros ->; by eapply Hno). intros Hf.
  unfold on_info, on_operator, on_ext, zoom, UnfreezeOperator, fail_if, gets, mbind, M_bind, frozen_of, x_info in *.
  cbn in *. destruct (negb _); cbn in *; [by simplify_eq|]. destruct (negb _); cbn in *; simplify_eq; [done|].
  cbn. by rewrite lookup_delete_ne.
Qed.

Lemma keeps_iterate_pools {T V} (g : T → V) upd filter (f : string → OperatorAssetInfo → M T error OperatorAssetInfo) l :
  (∀ x p, keeps g (f x p)) → keeps g (iterate_assets upd filter f l).
Proof. intros Hf. induction l as [|[k p] l IH]; cbn; solve_keeps. Qed.

Lemma keeps_visit {T V} (g : T → V) h upd (f : UndelegationRecord → M T error UndelegationRecord) l :
  (∀ r, keeps g (f r)) → keeps g (visit_operator_records h upd f l).
Proof. intros Hf. induction l as [|[k p] l IH]; cbn; solve_keeps. Qed.

Lemma frozen_SlashAssets ctx h p : keeps frozen_of (SlashAssets ctx h p : M W error _).
Proof.
  unfold SlashAssets, slash_undelegations, slash_pools, IterateUndelegationsByOperator, IterateAssetsForOperator.
  solve_keeps.
  all: try (apply keeps_visit; intros; unfold slash_record; solve_keeps).
  all: try (apply keeps_iterate_pools; intros; unfold slash_pool, on_delegation; solve_keeps).
Qed.

Lemma frozen_Slash ctx p : keeps frozen_of (Slash ctx p : M W error unit).
Proof.
  assert (Hinfo : ∀ sc o avs id i, keeps frozenOperators (UpdateOperatorSlashInfo sc o avs id i)).
  { intros. unfold UpdateOperatorSlashInfo. solve_keeps. }
  assert (Hassets : ∀ h q, keeps frozen_of (SlashAssets ctx h q : M W error _)) by (intros; apply frozen_SlashAssets).
  unfold Slash, execute_slash. solve_keeps.
Qed.
End Frozen.
End System.
