(* ===== verification/OperatorSample.v ===== *)
(** * A sample chain with an operator

    The other modules with concrete answers, and a run of the system on them: an
    operator opts into an AVS with its consensus key, its voting power is updated
    at the end of an epoch, a delegator leaves and the operator is slashed.  The
    theorems about x/operator are applied to the states of the run. *)

From S2P Require Import Prelude Errors Sdk RefSdk KVStore Ledger Epochs Shares DelegationTypes.
From S2P Require Import Assets.
From S2P Require Import DelegationStore UndelegationStore DelegationInv Delegation.
From S2P Require Import DelegationEndBlock.
From S2P Require Import DelegationRuns DelegationSafety DelegationSteps.
From S2P Require Import OperatorTypes OperatorStore OperatorRegistry OperatorSnapshot.
From S2P Require Import OperatorKeepers.
From S2P Require Import OperatorUnbonding OperatorUSD OperatorVotingPower OperatorKeys.
From S2P Require Import OperatorOpt.
From S2P Require Import OperatorSlash OperatorSlashSafety OperatorSlashProps OperatorSystem.

(** ** The other modules *)

Definition sample_chain : string := "imua".
Definition sample_price : Price := {| pr_Value := 10 ^ 6; pr_Decimal := 0 |}.

(** One AVS, of the chain, that supports one asset and unbonds in two epochs of the
    timer "five"; the hooks do nothing. *)
#[export] Instance sample_others : Others EpochsState := {|
  y_epochs y := y;
  GetAVSSupportedAssets _ _ _ := Ok ([sample_assetID], {[ sample_assetID ]});
  GetAVSSlashContract _ _ := Ok EmptyString;
  GetChainIDByAVSAddr _ _ := Some sample_chain;
  GetAVSMinimumSelfDelegation _ _ := Ok 0;
  GetEpochEndAVSs _ _ _ := [sample_avs];
  IsAVS _ _ := Ok true;
  IsAVSByChainID _ ch := if bool_decide (ch = sample_chain) then Some sample_avs else None;
  GetAVSEpochInfo y _ := match y !! "five" with
    | Some e => Ok e | None => Err operatortypes.ErrNoSuchAvs end;
  GetAVSUnbondingDuration _ _ := Ok 2;
  IsWhitelisted _ _ _ := (true, None);
  GetAVSAssetsList _ _ := Ok [sample_assetID];
  GetSpecifiedAssetsPrice _ _ := (sample_price, None);
  GetMultipleAssetsPrices _ _ := Ok {[ sample_assetID := sample_price ]};
  SlashRewardUndelegation r _ := mret r;
  UpdateAllRewardsUSDForOperator _ _ _ _ := mret 0;
  OperatorTotalRewardsUSDValue _ _ _ := Ok (∅, 0);
  SlashOperatorUnclaimedRewards _ _ _ := mret [];
  AfterOperatorKeySet _ _ _ _ _ := mret tt;
  AfterOperatorKeyReplaced _ _ _ _ _ _ := mret tt;
  AfterOperatorKeyRemovalInitiated _ _ _ _ := mret tt;
  AfterSlash _ _ _ _ _ _ := mret tt;
  AfterJail _ _ _ _ := mret tt;
|}.

#[export] Instance sample_delegation_hooks : DelegationHooks EpochsState := {|
  y_AfterDelegation _ _ _ _ _ _ := mret tt;
  y_AfterUndelegationStarted _ _ _ _ _ _ _ := mret tt;
  y_AfterNSTDelegationSlashed _ _ _ _ _ _ := mret tt;
  y_CompleteRewardUndelegation _ _ := mret tt;
|}.

#[export] Instance sample_rewards_frame : RewardsFrame EpochsState.
Proof. intros a avs op assets x r x' [= _ <-]. by split. Qed.

#[export] Instance sample_reward_records : RewardRecords EpochsState.
Proof. intros r prop y r' y' [= <- _]. by destruct r. Qed.

#[export] Instance sample_staking : StakingTypes := {|
  Description_EnsureLength _ := Ok tt;
  Description_UpdateDescription d d2 := Ok {|
    de_Moniker := if bool_decide (de_Moniker d2 = DoNotModifyDesc) then de_Moniker d else de_Moniker d2;
    de_Identity := de_Identity d2; de_Website := de_Website d2;
    de_SecurityContact := de_SecurityContact d2; de_Details := de_Details d2 |};
  Commission_Validate c :=
    match co_Rate c, co_MaxRate c, co_MaxChangeRate c with
    | Some r, Some m, Some ch =>
        if (0 <=? r) && (r <=? m) && (m <=? dec_of_int 1) && (0 <=? ch) && (ch <=? m) then Ok tt
        else Err stakingtypes.ErrCommissionGTMaxRate
    | _, _, _ => Ok tt
    end;
|}.

#[export] Instance sample_staking_laws : StakingLaws sample_staking.
Proof.
  split.
  - by intros d d2 d' [= <-].
  - intros c Hc [r Hr] [m Hm] [ch Hch]. cbn in Hc. rewrite Hr, Hm, Hch in Hc.
    destruct (_ && _) eqn:Hb in Hc; [|done].
    repeat match type of Hb with _ && _ = true => apply andb_true_iff in Hb as [Hb ?] end.
    exists r, m, ch. split; [done..|lia|lia].
Qed.

(** ** The run *)

Definition sample_info : OperatorInfo := {|
  oi_OperatorAddr := AccAddress_String sample_acc;
  oi_Description := {| de_Moniker := "first"; de_Identity := ""; de_Website := "";
    de_SecurityContact := ""; de_Details := "" |};
  oi_ClientChainEarningsAddr := None;
  oi_Commission := {| co_Rate := Some (5 * 10 ^ 16); co_MaxRate := Some (10 ^ 17);
    co_MaxChangeRate := Some (10 ^ 16); co_UpdateTime := 1 |};
  oi_DisableCompoundRewards := false |}.

Definition SampleSystem : Type := World refbank (OperatorExt EpochsState).

Definition sample_s0 : SampleSystem := {|
  w_assets := sample_assets0;
  w_delegation := set_delegationParams DelegationTypes.DefaultParams empty_delegation;
  w_bank := {| rb_accounts := ∅; rb_modules := ∅; rb_supply := ∅ |};
  w_ext := {| oe_operator := empty_operator; oe_rest := sample_epochs |} |}.

Definition sample_ask (amount : Int) : DelegationOrUndelegationParams (OperatorExt EpochsState) := {|
  ClientChainID := 101; AssetsAddress := sample_asset_addr; OperatorAddress := sample_acc;
  StakerAddress := sample_staker_addr; OpAmount := amount; TxHash := zero_hash;
  InstantUnbonding := false; RewardAsset := false; RewardAssetID := EmptyString;
  RewardStakerID := EmptyString; ReduceDelegationShare := None; RewardUndelegations := [] |}.

Definition sample_s1 : SampleSystem := (msg_RegisterOperator (at_time 15) (Some sample_info) sample_s0).2.
Definition sample_s2 : SampleSystem :=
  put_assets (PerformDepositOrWithdraw (sample_op DepositLST 1000) (w_assets sample_s1)).2 sample_s1.
Definition sample_s3 : SampleSystem :=
  (DelegateTo (kp := operator_keepers (at_time 15)) (sample_ask 600) sample_s2).2.
Definition sample_key : string := "consensus-key".
Definition sample_s4 : SampleSystem :=
  (OptIntoAVS (at_time 15) (AccAddress_String sample_acc) sample_avs (Some (Some sample_key)) sample_s3).2.
Definition sample_s5 : SampleSystem := (AfterEpochEnd (at_time 16) "five" 1 sample_s4).2.
Definition sample_s6 : SampleSystem :=
  (UndelegateFrom (kp := operator_keepers (at_time 17)) (at_time 17) (sample_ask 100) sample_s5).2.
Definition sample_offence : SlashInputInfo := {|
  in_IsDogFood := true; in_Power := 600; in_SlashType := 1; in_Operator := sample_acc;
  in_AVSAddr := sample_avs; in_SlashContract := EmptyString; in_SlashID := "slash-1";
  in_SlashEventHeight := 16; in_SlashProportion := 5 * 10 ^ 17 |}.
Definition sample_s7 : SampleSystem := (Slash (at_time 18) sample_offence sample_s6).2.

Lemma sample_register_run :
  msg_RegisterOperator (at_time 15) (Some sample_info) sample_s0 = (Ok tt, sample_s1).
Proof. refine (run_eta _ sample_s0 tt _). conv_refl. Qed.

Lemma sample_s_deposit_run :
  PerformDepositOrWithdraw (sample_op DepositLST 1000) (w_assets sample_s1) = (Ok 1000, w_assets sample_s2).
Proof. refine (run_eta _ (w_assets sample_s1) 1000 _). conv_refl. Qed.

Lemma sample_s_delegate_run :
  DelegateTo (kp := operator_keepers (at_time 15)) (sample_ask 600) sample_s2 =
    (Ok (dec_of_int 600, 0), sample_s3).
Proof. refine (run_eta _ sample_s2 (dec_of_int 600, 0) _). conv_refl. Qed.

Lemma sample_opt_in_run :
  OptIntoAVS (at_time 15) (AccAddress_String sample_acc) sample_avs (Some (Some sample_key)) sample_s3 =
    (Ok tt, sample_s4).
Proof. refine (run_eta _ sample_s3 tt _). conv_refl. Qed.

Lemma sample_epoch_end_run : AfterEpochEnd (at_time 16) "five" 1 sample_s4 = (Ok tt, sample_s5).
Proof. refine (run_eta _ sample_s4 tt _). conv_refl. Qed.

Lemma sample_s_undelegate_run :
  UndelegateFrom (kp := operator_keepers (at_time 17)) (at_time 17) (sample_ask 100) sample_s5 =
    (Ok tt, sample_s6).
Proof. refine (run_eta _ sample_s5 tt _). conv_refl. Qed.

Lemma sample_slash_run : Slash (at_time 18) sample_offence sample_s6 = (Ok tt, sample_s7).
Proof. refine (run_eta _ sample_s6 tt _). conv_refl. Qed.

(** ** Facts about the states *)

Definition sample_op_addr : string := AccAddress_String sample_acc.
Lemma sample_registered : operatorInfos (w_info sample_s5) = {[ sample_acc := sample_info ]}.
Proof. conv_refl. Qed.
Lemma sample_rest : w_rest sample_s5 = sample_epochs.
Proof. conv_refl. Qed.
Definition sample_opted_info : OptedInfo := {|
  op_SlashContract := EmptyString; op_OptedInHeight := 15; op_OptedOutHeight := DefaultOptedOutHeight;
  op_Jailed := false; op_JailToggleHeights := [] |}.
Lemma sample_opted : optedInfos (x_info (w_ext sample_s5)) =
  {[ GetJoinedStoreKey [sample_op_addr; sample_avs] := sample_opted_info ]}.
Proof. conv_refl. Qed.
Lemma sample_registered2 : operatorInfos (w_info sample_s2) = {[ sample_acc := sample_info ]}.
Proof. conv_refl. Qed.
Lemma sample_rest2 : w_rest sample_s2 = sample_epochs.
Proof. conv_refl. Qed.
Lemma sample_lists : stakersByOperator (w_delegation sample_s6) =
  {[ GetJoinedStoreKey [sample_op_addr; sample_assetID; sample_stakerID] := tt ]}.
Proof. conv_refl. Qed.

Lemma sample_slash_stored :
  is_some (slashInfos (w_info sample_s7) !! slash_info_key sample_offence) = true.
Proof. conv_refl. Qed.

(** The values of the assets are updated, and the powers of the AVS. *)
Definition sample_valued : SampleSystem := (UpdateAllOperatorAssetUSDValues ["five"] sample_s4).2.
Definition sample_powered : SampleSystem :=
  (UpdateVotingPower (at_time 16) sample_avs "five" 1 false sample_valued).2.

Lemma sample_power_run :
  UpdateVotingPower (at_time 16) sample_avs "five" 1 false sample_valued = (Ok tt, sample_powered).
Proof. refine (run_eta _ sample_valued tt _). conv_refl. Qed.
Lemma sample_usd_values :
  operatorUSDValues (w_usd sample_valued) = {[ usd_key sample_avs sample_op_addr := usd_zero ]}.
Proof. conv_refl. Qed.
Lemma sample_no_snapshots : w_snap sample_valued = sample_snapshots0.
Proof. conv_refl. Qed.

(** The tokens of the operator are gone. *)
Definition sample_worthless : SampleSystem := put_assets sample_assets0 sample_s5.
Definition sample_loaded : Z * VotingPowerSnapshot :=
  match LoadVotingPowerSnapshot sample_avs 16 (w_snap sample_worthless) with
  | Ok s => s | _ => (0, sample_last) end.
Lemma sample_load : LoadVotingPowerSnapshot sample_avs 16 (w_snap sample_worthless) = Ok sample_loaded.
Proof.
  assert (Hok : (if LoadVotingPowerSnapshot sample_avs 16 (w_snap sample_worthless) is Ok _
                 then true else false) = true) by conv_refl.
  unfold sample_loaded. by destruct (LoadVotingPowerSnapshot _ _ _).
Qed.
Lemma sample_worthless_value :
  CalculateRealTimeOperatorUSDValue true (AccAddress_String sample_acc) None None None
    (w_assets sample_worthless) (w_ext sample_worthless) = Ok staking_zero.
Proof. conv_refl. Qed.

(** The ID of an asset at the same address of another chain, 6 and not 101. *)
Definition sample_short_id : string := join_id (hexutil_Encode sample_asset_addr) 6.
Definition sample_share : DelegationAmounts := {|
  da_UndelegatableShare := dec_of_int 500; da_PendingUndelegationAmount := 100;
  da_RewardUndelegatableShare := 0; da_RewardPendingUndelegationAmount := 0 |}.
Lemma sample_short_prefix : sample_assetID = sample_short_id +:+ "5".
Proof. conv_refl. Qed.
Lemma sample_share_stored :
  delegations (w_delegation sample_s6) !! GetJoinedStoreKey [sample_stakerID; sample_short_id +:+ "5"; sample_op_addr] =
    Some sample_share.
Proof. conv_refl. Qed.
Definition sample_cleared : DelegationState :=
  (clear_stakers sample_op_addr sample_short_id (w_delegation sample_s6)).2.
Lemma sample_clear_run :
  clear_stakers sample_op_addr sample_short_id (w_delegation sample_s6) = (Ok tt, sample_cleared).
Proof. refine (run_eta _ (w_delegation sample_s6) tt _). conv_refl. Qed.

Definition sample_registry : InfoState :=
  (RegisterOperator (at_time 15) sample_assets0 (Some sample_info) (st_info empty_operator)).2.
Lemma sample_registry_run :
  RegisterOperator (at_time 15) sample_assets0 (Some sample_info) (st_info empty_operator) =
    (Ok tt, sample_registry).
Proof. refine (run_eta _ (st_info empty_operator) tt _). conv_refl. Qed.

(** The consensus key of the operator. *)
Definition sample_x0 : OperatorExt EpochsState := w_ext sample_s3.
Definition sample_x1 : OperatorExt EpochsState :=
  (SetOperatorConsKeyForChainID sample_assets0 sample_acc sample_chain sample_key sample_x0).2.
Lemma sample_key_run :
  SetOperatorConsKeyForChainID sample_assets0 sample_acc sample_chain sample_key sample_x0 =
  (Ok tt, sample_x1).
Proof. refine (run_eta _ sample_x0 tt _). conv_refl. Qed.
Lemma sample_no_keys : x_keys sample_x0 = st_keys empty_operator.
Proof. conv_refl. Qed.
Lemma sample_key_stored :
  getOperatorConsKeyForChainID sample_acc sample_chain (x_keys sample_x1) = Some sample_key.
Proof. conv_refl. Qed.
Lemma sample_key_rest : oe_rest sample_x1 = sample_epochs.
Proof. conv_refl. Qed.
Lemma sample_expiration :
  GetUnbondingExpiration (at_time 17) sample_acc (w_ext sample_s5) = Ok ("five", 4, 13).
Proof. conv_refl. Qed.

#[local] Opaque sample_cleared sample_valued sample_powered sample_worthless sample_loaded sample_x0 sample_x1.
#[local] Opaque sample_s1 sample_s2 sample_s3 sample_s4 sample_s5 sample_s6 sample_s7.

Lemma sample_operator_ok_at (x : OperatorExt EpochsState) :
  operatorInfos (x_info x) = {[ sample_acc := sample_info ]} → oe_rest x = sample_epochs → operator_ok x.
Proof.
  intros Hi Hr. split.
  - intros op. unfold IsOperator. rewrite Hi, bool_decide_eq_true. intros [i [<- _]%lookup_singleton_Some]. done.
  - intros avs e. rewrite Hr. cbn. intros [= <-]. by vm_compute.
  - intros avs u [= <-]. lia.
Qed.

Lemma sample_operator_ok : operator_ok (w_ext sample_s5).
Proof. exact (sample_operator_ok_at _ sample_registered sample_rest). Qed.

Lemma sample_s_initial : initial sample_s0.
Proof. repeat split; try done. by exists DelegationTypes.DefaultParams. Qed.

Lemma sample_ask_wf amount : request_wf (sample_ask amount).
Proof. by intros [=]. Qed.

(** The assets that are delegated: one. *)
Definition sample_ids (x : string) : Prop := x = sample_assetID.

Lemma sample_prefix_free : prefix_free sample_ids.
Proof.
  intros x t -> Heq. apply (f_equal String.length) in Heq. rewrite length_app_str in Heq.
  destruct t; [done|cbn in Heq; lia].
Qed.

Lemma sample_ask_id amount : sample_ids (request_ids (sample_ask amount)).2.
Proof. unfold sample_ids. conv_refl. Qed.

Lemma sample_system_run6 : rtc (system_step sample_ids) sample_s0 sample_s6.
Proof.
  eapply rtc_l; [exact (system_operator _ _ _ _ _ _ (call_register _ _) sample_register_run)|].
  eapply rtc_l; [exact (system_deposit _ sample_s1 _ _ _ sample_s_deposit_run)|].
  eapply rtc_l; [exact (system_delegate _ _ _ _ _ _
    (sample_operator_ok_at _ sample_registered2 sample_rest2) (sample_ask_wf _) (sample_ask_id _) sample_s_delegate_run)|].
  eapply rtc_l; [exact (system_operator _ _ _ _ _ _ (call_opt_in _ _ _ _) sample_opt_in_run)|].
  eapply rtc_l; [exact (system_operator _ _ _ _ _ _ (call_epoch_end _ _ _) sample_epoch_end_run)|].
  eapply rtc_l; [exact (system_undelegate _ _ _ _ _ _ sample_operator_ok (sample_ask_wf _) sample_s_undelegate_run)|].
  apply rtc_refl.
Qed.

Lemma sample_acc20 : acc20 (in_Operator sample_offence).
Proof. done. Qed.

Lemma sample_system_run7 : rtc (system_step sample_ids) sample_s0 sample_s7.
Proof.
  etransitivity; [exact sample_system_run6|].
  exact (rtc_once _ _ (system_slash _ _ _ _ _ _ sample_acc20 sample_slash_run)).
Qed.

(** ** Witnesses *)

Lemma system_accounts_witness : core_inv (w_assets sample_s7) (w_delegation sample_s7).
Proof.
  exact (system_accounts sample_ids sample_s0 sample_s7 sample_prefix_free sample_s_initial sample_system_run7).
Defined.

Lemma sample_s6_system : system_inv sample_ids sample_s6.
Proof. exact (system_steps_inv _ _ _ sample_prefix_free sample_system_run6 (initial_system _ _ sample_s_initial)). Qed.
Lemma sample_s6_inv : world_inv sample_s6.
Proof. exact (proj1 sample_s6_system). Qed.
Lemma sample_slash_ready : slash_ready sample_s6.
Proof. exact (keyed_ready _ _ sample_prefix_free (proj2 sample_s6_system)). Qed.
Lemma sample_s7_inv : world_inv sample_s7.
Proof. exact (proj1 (system_steps_inv _ _ _ sample_prefix_free sample_system_run7 (initial_system _ _ sample_s_initial))). Qed.


Lemma sample_slash_ready7 : slash_ready sample_s7.
Proof.
  exact (proj2 (Slash_inv _ _ _ _ _ sample_acc20 sample_s6_inv sample_slash_ready sample_slash_run)).
Qed.

Lemma Slash_once_witness : (Slash (at_time 19) sample_offence sample_s7).2 = sample_s7.
Proof.
  refine (Slash_once (at_time 19) sample_offence sample_s7 _ _ sample_acc20 sample_s7_inv
    sample_slash_ready7 _ (surjective_pairing _)).
  pose proof sample_slash_stored as Hs. by destruct (_ !! _).
Defined.

Lemma Slash_worthless_panics_witness :
  Slash (at_time 18) sample_offence sample_worthless = (Panic, sample_worthless).
Proof.
  exact (Slash_worthless_panics (at_time 18) sample_offence sample_worthless sample_loaded 600
    staking_zero eq_refl sample_load eq_refl ltac:(lia) sample_worthless_value eq_refl).
Defined.

Lemma registry_consistent_witness : registry_inv sample_registry.
Proof.
  refine (registry_consistent (at_time 15) (st_info empty_operator) _ _
    (rtc_once _ _ (reg_register _ _ _ _ _ _ sample_registry_run))).
  split; [apply map_Forall_empty|]. intros a a' i i' Hi. cbn in Hi. by rewrite lookup_empty in Hi.
Defined.

Lemma sample_chain_avs : is_Some (IsAVSByChainID (oe_rest sample_x1) sample_chain).
Proof. exists sample_avs. reflexivity. Qed.

Lemma keys_consistent_witness :
  GetOperatorAddressForChainIDAndConsAddr sample_chain (ToConsAddr sample_key) sample_x1 = Some sample_acc.
Proof.
  assert (Hrun : rtc key_step sample_x0 sample_x1).
  { refine (rtc_once _ _ (key_set _ sample_assets0 sample_acc sample_chain sample_key tt _ sample_acc20 _ _ sample_key_run)); [by vm_compute|].
    exists sample_avs. reflexivity. }
  destruct (keys_consistent sample_x0 sample_x1 sample_chain sample_no_keys Hrun ltac:(by vm_compute)
    sample_chain_avs) as (_ & Hback & _).
  exact (Hback sample_acc sample_key sample_acc20 sample_key_stored).
Defined.

Lemma sample_timely : timely (at_time 17) (w_rest sample_s5).
Proof.
  rewrite sample_rest. intros avs e [= <-]. split; [by repeat split|]. intros u [= <-]. by vm_compute.
Qed.

Lemma sample_opted_wf : opted_wf (w_ext sample_s5).
Proof.
  intros k. rewrite sample_opted. intros [i [<- _]%lookup_singleton_Some].
  exists sample_acc, sample_avs. by split_and!; vm_compute.
Qed.

Lemma GetUnbondingExpiration_covers_witness :
  ("five", 4, 13) = (NullEpochIdentifier, NullEpochNumber, 0) ∨
  ∃ avsAddr info e u,
    optedInfos (x_info (w_ext sample_s5)) !! GetJoinedStoreKey [AccAddress_String sample_acc; avsAddr] = Some info ∧
    GetAVSEpochInfo (w_rest sample_s5) avsAddr = Ok e ∧
    GetAVSUnbondingDuration (w_rest sample_s5) avsAddr = Ok u ∧
    "five" = ei_Identifier e ∧ BlockTime (at_time 17) + 13 = finish e 4 ∧
    (op_OptedOutHeight info = DefaultOptedOutHeight → 4 = ei_CurrentEpoch e + u) ∧
    (op_OptedOutHeight info ≠ DefaultOptedOutHeight → ∃ k,
       GetEpochNumberByOptOutHeight avsAddr (wrap_int64 (op_OptedOutHeight info)) (x_snap (w_ext sample_s5)) = Ok k ∧
       0 < k ∧ 4 = k + u).
Proof.
  exact (proj2 (GetUnbondingExpiration_covers (at_time 17) sample_acc (w_ext sample_s5) "five" 4 13
    sample_operator_ok sample_timely sample_expiration) sample_acc20 sample_opted_wf).
Defined.

Lemma sample_usd_keys : usd_keys_wf sample_avs (w_usd sample_valued).
Proof.
  split; [by vm_compute|]. rewrite sample_usd_values.
  intros k v [<- _]%lookup_singleton_Some _. split_and!; [by vm_compute| |by vm_compute].
  vm_compute. reflexivity.
Qed.

Lemma UpdateVotingPower_sums_witness : ∃ min,
  GetAVSMinimumSelfDelegation (w_rest sample_valued) sample_avs = Ok min ∧
  GetAVSUSDValue sample_avs (w_usd sample_powered) =
    Ok (active_sum (entries_of sample_avs (w_usd sample_powered))).
Proof.
  destruct (UpdateVotingPower_sums (at_time 16) sample_avs "five" 1 false sample_valued tt sample_powered
    sample_usd_keys sample_power_run) as (min & Hmin & Hsum & _).
  exact (ex_intro _ min (conj Hmin Hsum)).
Defined.

Lemma sample_implements : implements sample_avs (w_snap sample_valued) [].
Proof.
  rewrite sample_no_snapshots. apply no_snapshots_implements. split; [done|]. by intros k v.
Qed.

Lemma sample_after : comes_after [] (BlockHeight (at_time 16)) (wrap_int64 (1 + 1)).
Proof. by repeat split. Qed.

Lemma UpdateVotingPower_snapshot_witness : ∃ h v,
  LoadVotingPowerSnapshot sample_avs 16 (w_snap sample_powered) = Ok (h, v) ∧
  vs_powers v = current_powers sample_avs (w_usd sample_powered).
Proof.
  assert (Hhex : common_IsHexAddress sample_avs = true) by (by vm_compute).
  assert (Hlow : ToLower sample_avs = sample_avs) by (by vm_compute).
  destruct (UpdateVotingPower_snapshot (at_time 16) sample_avs "five" 1 false sample_valued tt
    sample_powered [] Hhex Hlow sample_usd_keys sample_implements I I sample_after sample_power_run)
    as (up & h & v & _ & _ & _ & _ & Hload & Hv).
  exact (ex_intro _ h (ex_intro _ v (conj Hload Hv))).
Defined.

Lemma UpdateVotingPower_forgets_witness :
  HasAVSAssetsPerEpoch sample_avs (w_usd sample_powered) = false.
Proof.
  exact (proj1 (UpdateVotingPower_forgets (at_time 16) sample_avs "five" 1 false sample_valued tt
    sample_powered sample_avs sample_usd_keys sample_power_run)).
Defined.

Lemma clear_stakers_overreaches_witness : ¬ core_inv (w_assets sample_s6) sample_cleared.
Proof.
  refine (clear_stakers_overreaches sample_op_addr sample_short_id "5" sample_stakerID (w_assets sample_s6)
    (w_delegation sample_s6) tt sample_cleared sample_share _ _ _ sample_s6_inv _ sample_share_stored _
    sample_clear_run (w_assets sample_s6)).
  - repeat constructor; by vm_compute.
  - by vm_compute.
  - done.
  - rewrite sample_lists. intros k [u [<- _]%lookup_singleton_Some].
    exists sample_op_addr, sample_assetID, sample_stakerID. split; [|done]. repeat constructor; by vm_compute.
  - by vm_compute.
Defined.
