(* ===== verification/OperatorGenesis.v ===== *)
(** * Genesis of x/operator (types/genesis.go, keeper/genesis.go and the exports of the keys)

    The validation of a genesis file, its import and the export of the stores.  The
    consensus keys survive an export and an import; the lookups of the keys that were
    replaced do not. *)

From S2P Require Import Prelude Errors Sdk RefSdk KVStore Epochs DelegationTypes Assets.
From S2P Require Import DelegationStore UndelegationStore Delegation OperatorTypes.
From S2P Require Import OperatorStore OperatorSnapshot OperatorKeepers OperatorUnbonding OperatorUSD.
From S2P Require Import OperatorVotingPower OperatorKeys.

(** ** Data (types/genesis.pb.go) *)

Record OperatorGenesisState := {
  og_Operators : list OperatorInfo;
  (** operator, (chain, hex of the key) *)
  og_OperatorRecords : list (string * list (string * string));
  (** joined key, state *)
  og_OptStates : list (string * OptedInfo);
  og_OperatorUSDValues : list (string * OperatorOptedUSDValue);
  og_AVSUSDValues : list (string * LegacyDec);
  og_SlashStates : list (string * OperatorSlashInfo);
  og_PreConsKeys : list (string * string);
  og_OperatorKeyRemovals : list string;
  og_OperatorAssetUsdValues : list (string * LegacyDec);
  og_Params : OperatorParams;
  og_FrozenOperators : list string;
}.

Definition og_default : OperatorGenesisState := {|
  og_Operators := []; og_OperatorRecords := []; og_OptStates := []; og_OperatorUSDValues := [];
  og_AVSUSDValues := []; og_SlashStates := []; og_PreConsKeys := []; og_OperatorKeyRemovals := [];
  og_OperatorAssetUsdValues := []; og_Params := OperatorTypes.DefaultParams; og_FrozenOperators := [] |}.

(** ** Validation (types/genesis.go) *)

Section Validate.
Context {sdk : Sdk} {stk : StakingTypes}.
Abbreviation invalid := (Err operatortypes.ErrInvalidGenesisData).

Definition known (operators : gset string) (operator : string) : bool :=
  bool_decide (operator ∈ operators).

(** The earning addresses of an operator. *)
Fixpoint validate_earnings (l : list ClientChainEarningAddrInfo) (lzIDs : gset Z) : result error unit :=
  match l with
  | [] => Ok tt
  | info :: l =>
      let lzID := ea_LzClientChainID info in
      if bool_decide (lzID ∈ lzIDs) then invalid
      else if negb (common_IsHexAddress (ea_ClientChainEarningAddr info)) then invalid
      else validate_earnings l ({[ lzID ]} ∪ lzIDs)
  end.

(** A nil minimum makes the comparison panic. *)
Definition validate_commission (minCommissionRate : option LegacyDec) (c : Commission)
    : result error unit :=
  match co_Rate c, co_MaxRate c, co_MaxChangeRate c with
  | Some rate, Some _, Some _ =>
      match Commission_Validate c with
      | Ok _ =>
          match minCommissionRate with
          | Some min => if rate <? min then invalid else Ok tt
          | None => Panic
          end
      | Err _ => invalid
      | Panic => Panic
      end
  | _, _, _ => invalid
  end.

Fixpoint validate_operators (minCommissionRate : option LegacyDec) (l : list OperatorInfo)
    (operators operatorNames : gset string) : result error (gset string) :=
  match l with
  | [] => Ok operators
  | op :: l =>
      let address := oi_OperatorAddr op in
      let name := de_Moniker (oi_Description op) in
      if known operators address then invalid
      else if bool_decide (name ∈ operatorNames) then invalid
      else
        match OperatorInfo_ValidateBasic (Some op) with
        | Ok _ =>
            _ ← match oi_ClientChainEarningsAddr op with
                | Some earnings => validate_earnings earnings ∅
                | None => Ok tt
                end;
            _ ← validate_commission minCommissionRate (oi_Commission op);
            validate_operators minCommissionRate l ({[ address ]} ∪ operators)
              ({[ name ]} ∪ operatorNames)
        | Err _ => invalid
        | Panic => Panic
        end
  end.

Definition ValidateOperators (gs : OperatorGenesisState) : result error (gset string) :=
  validate_operators (opp_MinCommissionRate (og_Params gs)) (og_Operators gs) ∅ ∅.

(** The keys of the chains of a record; the keys seen so far are pairs of a chain and a key. *)
Fixpoint validate_chains (chains : list (string * string)) (keysByChainID : gset (string * string))
    : result error (gset (string * string)) :=
  match chains with
  | [] => Ok keysByChainID
  | (chainID, consensusKey) :: chains =>
      if negb (is_some (NewWrappedConsKeyFromHex consensusKey)) then invalid
      else if bool_decide ((chainID, consensusKey) ∈ keysByChainID) then invalid
      else validate_chains chains ({[ (chainID, consensusKey) ]} ∪ keysByChainID)
  end.

Fixpoint validate_records (operators : gset string) (l : list (string * list (string * string)))
    (operatorRecords : gset string) (keysByChainID : gset (string * string)) : result error unit :=
  match l with
  | [] => Ok tt
  | (addr, chains) :: l =>
      match AccAddressFromBech32 addr with
      | None => invalid
      | Some _ =>
          if bool_decide (addr ∈ operatorRecords) then invalid
          else if negb (known operators addr) then invalid
          else keys ← validate_chains chains keysByChainID;
               validate_records operators l ({[ addr ]} ∪ operatorRecords) keys
      end
  end.

Definition ValidateOperatorConsKeyRecords (operators : gset string) (gs : OperatorGenesisState)
    : result error unit :=
  validate_records operators (og_OperatorRecords gs) ∅ ∅.

Fixpoint ascending_heights (l : list Z) : bool :=
  match l with
  | h :: ((h' :: _) as l) => (h <? h') && ascending_heights l
  | _ => true
  end.

(** The second part of a joined key of two. *)
Definition second_key (key : string) : string := default EmptyString (ParseJoinedKey key !! 1%nat).

Definition validate_opted_state (operators : gset string) (_ : nat) (state : string * OptedInfo)
    : result error unit :=
  match ParseJoinedKeyWithCount state.1 2 with
  | Ok [operator; avsAddr] =>
      let info := state.2 in
      if negb (known operators operator) then invalid
      else if op_OptedOutHeight info <? op_OptedInHeight info then invalid
      else if negb (bool_decide (ToLower avsAddr = avsAddr)) then invalid
      else if negb (common_IsHexAddress avsAddr) then invalid
      else if negb (Bool.eqb (op_Jailed info) (Nat.odd (length (op_JailToggleHeights info)))) then invalid
      else if negb (ascending_heights (op_JailToggleHeights info)) then invalid
      else Ok tt
  | _ => invalid
  end.

(** The AVSs that are opted into. *)
Definition ValidateOptedStates (operators : gset string) (gs : OperatorGenesisState)
    : result error (gset string) :=
  _ ← common_validation ErrDuplicateElement (λ state, (state.1, tt)) (validate_opted_state operators)
        (og_OptStates gs) 0 ∅;
  Ok (list_to_set ((λ state, second_key state.1) <$> og_OptStates gs)).

(** The amount is never nil here, as the other amounts below. *)
Definition validate_avs_value (optedAVS : gset string) (_ : nat) (v : string * LegacyDec)
    : result error unit :=
  if negb (common_IsHexAddress v.1) then invalid
  else if negb (known optedAVS v.1) then invalid
  else if v.2 <? 0 then invalid
  else Ok tt.

Definition ValidateAVSUSDValues (optedAVS : gset string) (gs : OperatorGenesisState)
    : result error (gmap string LegacyDec) :=
  _ ← common_validation ErrDuplicateElement (λ v, (v.1, tt)) (validate_avs_value optedAVS)
        (og_AVSUSDValues gs) 0 ∅;
  Ok (insert_all (og_AVSUSDValues gs) ∅).

Definition validate_operator_value (operators : gset string) (avsUSDValues : gmap string LegacyDec)
    (_ : nat) (v : string * OperatorOptedUSDValue) : result error unit :=
  let '(key, value) := v in
  if (uv_SelfUSDValue value <? 0) || (uv_TotalUSDValue value <? 0) || (uv_ActiveUSDValue value <? 0)
  then invalid
  else
    match ParseJoinedKeyWithCount key 2 with
    | Ok [avsAddress; operator] =>
        if negb (known operators operator) then invalid
        else
          match avsUSDValues !! avsAddress with
          | None => invalid
          | Some avsUSDValue =>
              if avsUSDValue <? uv_TotalUSDValue value then invalid
              else if uv_TotalUSDValue value <? uv_SelfUSDValue value then invalid
              else if uv_TotalUSDValue value <? uv_ActiveUSDValue value then invalid
              else Ok tt
          end
    | _ => invalid
    end.

Definition ValidateOperatorUSDValues (operators : gset string) (avsUSDValues : gmap string LegacyDec)
    (gs : OperatorGenesisState) : result error unit :=
  _ ← common_validation ErrDuplicateElement (λ v, (v.1, tt))
        (validate_operator_value operators avsUSDValues) (og_OperatorUSDValues gs) 0 ∅;
  Ok tt.

Definition validate_slash_undelegation (_ : nat) (s : SlashFromUndelegationInfo) : result error unit :=
  if su_Amount s <=? 0 then invalid else Ok tt.
Definition validate_slash_pool (_ : nat) (s : SlashAssetAmount) : result error unit :=
  if sl_Amount s <? 0 then invalid else Ok tt.

Definition validate_slash_state (operators avs : gset string) (_ : nat)
    (slash : string * OperatorSlashInfo) : result error unit :=
  match ParseJoinedKeyWithCount slash.1 3 with
  | Ok [operator; avsAddr; _] =>
      let info := slash.2 in
      let exec := si_ExecutionInfo info in
      if negb (known operators operator) then invalid
      else if negb (known avs avsAddr) then invalid
      else if si_SubmittedHeight info <? si_EventHeight info then invalid
      else if si_SlashProportion info <=? 0 then invalid
      else if se_SlashProportion exec <? 0 then invalid
      else if se_SlashValue exec <? 0 then invalid
      else
        _ ← common_validation ErrDuplicateElement
              (λ s, (GetJoinedStoreKey [su_StakerID s; su_AssetID s], tt)) validate_slash_undelegation
              (se_SlashUndelegations exec) 0 ∅;
        _ ← common_validation ErrDuplicateElement (λ s, (sl_AssetID s, tt)) validate_slash_pool
              (se_SlashAssetsPool exec) 0 ∅;
        Ok tt
  | _ => invalid
  end.

Definition ValidateSlashStates (operators avs : gset string) (gs : OperatorGenesisState)
    : result error unit :=
  _ ← common_validation ErrDuplicateElement (λ s, (s.1, tt)) (validate_slash_state operators avs)
        (og_SlashStates gs) 0 ∅;
  Ok tt.

Definition validate_prev_key (operators : gset string) (_ : nat) (prevConsKey : string * string)
    : result error unit :=
  match ParseJoinedKeyWithCount prevConsKey.1 2 with
  | Ok [_; operator] =>
      if negb (known operators operator) then invalid
      else if negb (is_some (NewWrappedConsKeyFromHex prevConsKey.2)) then invalid
      else Ok tt
  | _ => invalid
  end.

Definition ValidatePrevConsKeys (operators : gset string) (gs : OperatorGenesisState)
    : result error unit :=
  _ ← common_validation ErrDuplicateElement (λ k, (k.1, tt)) (validate_prev_key operators)
        (og_PreConsKeys gs) 0 ∅;
  Ok tt.

Definition validate_key_removal (operators : gset string) (_ : nat) (key : string) : result error unit :=
  keys ← ParseJoinedKeyWithCount key 2;
  operator ← nth_key 0 keys;
  if negb (known operators operator) then invalid else Ok tt.

Definition ValidateOperatorKeyRemovals (operators : gset string) (gs : OperatorGenesisState)
    : result error unit :=
  _ ← common_validation ErrDuplicateElement (λ k, (k, tt)) (validate_key_removal operators)
        (og_OperatorKeyRemovals gs) 0 ∅;
  Ok tt.

Definition validate_asset_value (operators : gset string) (_ : nat) (v : string * LegacyDec)
    : result error unit :=
  match ParseJoinedKeyWithCount v.1 3 with
  | Ok [epochIdentifier; operator; assetID] =>
      match ValidateEpochIdentifierString epochIdentifier with
      | Ok _ =>
          if negb (known operators operator) then invalid
          else match ValidateID assetID true false with Ok _ => Ok tt | _ => invalid end
      | _ => invalid
      end
  | _ => invalid
  end.

Definition ValidateOperatorAssetUSDValues (operators : gset string) (gs : OperatorGenesisState)
    : result error unit :=
  _ ← common_validation ErrDuplicateElement (λ v, (v.1, tt)) (validate_asset_value operators)
        (og_OperatorAssetUsdValues gs) 0 ∅;
  Ok tt.

Definition validate_frozen (operators : gset string) (_ : nat) (operator : string) : result error unit :=
  match AccAddressFromBech32 operator with
  | None => invalid
  | Some _ => if negb (known operators operator) then invalid else Ok tt
  end.

Definition ValidateFrozenOperators (operators : gset string) (gs : OperatorGenesisState)
    : result error unit :=
  _ ← common_validation ErrDuplicateElement (λ o, (o, tt)) (validate_frozen operators)
        (og_FrozenOperators gs) 0 ∅;
  Ok tt.

Definition OperatorGenesis_Validate (gs : OperatorGenesisState) : result error unit :=
  _ ← OperatorParams_Validate (og_Params gs);
  operators ← ValidateOperators gs;
  _ ← ValidateOperatorConsKeyRecords operators gs;
  avsMap ← ValidateOptedStates operators gs;
  avsUSDValueMap ← ValidateAVSUSDValues avsMap gs;
  _ ← ValidateOperatorUSDValues operators avsUSDValueMap gs;
  _ ← ValidateSlashStates operators avsMap gs;
  _ ← ValidatePrevConsKeys operators gs;
  _ ← ValidateOperatorKeyRemovals operators gs;
  _ ← ValidateOperatorAssetUSDValues operators gs;
  ValidateFrozenOperators operators gs.
End Validate.

(** ** The keys in a genesis file (keeper/consensus_keys.go) *)

Section Keys.
Context {sdk : Sdk}.

(** A key that is not one would be nil, which panics. *)
Definition SetAllPrevConsKeys (prevConsKeys : list (string * string)) : M KeyState error unit :=
  for_each prevConsKeys (λ prevKey,
    keys ← lift_result (ParseJoinedKeyWithCount prevKey.1 2);
    chainID ← lift_result (nth_key 0 keys);
    operator ← lift_result (nth_key 1 keys);
    match AccAddressFromBech32 operator with
    | None => fail ErrLibrary
    | Some opAccAddr =>
        match NewWrappedConsKeyFromHex prevKey.2 with
        | None => panic
        | Some wrappedKey => setOperatorPrevConsKeyForChainID opAccAddr chainID wrappedKey
        end
    end).

Fixpoint prev_cons_keys (entries : list (string * string)) : result error (list (string * string)) :=
  match entries with
  | [] => Ok []
  | (k, consKey) :: entries =>
      '(chainID, operatorAddr) ← ParsePrevConsKey k;
      ret ← prev_cons_keys entries;
      Ok ((GetJoinedStoreKey [chainID; AccAddress_String operatorAddr], ToHex consKey) :: ret)
  end.
Definition GetAllPrevConsKeys (s : KeyState) : result error (list (string * string)) :=
  prev_cons_keys (prefix_iterator EmptyString (prevConsKeys s)).

Definition SetAllOperatorKeyRemovals (operatorKeyRemoval : list string) : M KeyState error unit :=
  for_each operatorKeyRemoval (λ keyRemoval,
    keys ← lift_result (ParseJoinedKeyWithCount keyRemoval 2);
    chainID ← lift_result (nth_key 1 keys);
    operator ← lift_result (nth_key 0 keys);
    match AccAddressFromBech32 operator with
    | None => fail ErrLibrary
    | Some opAccAddr =>
        modify (set_keyRemovals (insert (KeyForOperatorKeyRemovalForChainID opAccAddr chainID) tt))
    end).

Fixpoint key_removals (entries : list (string * unit)) : result error (list string) :=
  match entries with
  | [] => Ok []
  | (k, _) :: entries =>
      '(operatorAddr, chainID) ← ParseKeyForOperatorKeyRemoval k;
      ret ← key_removals entries;
      Ok (GetJoinedStoreKey [AccAddress_String operatorAddr; chainID] :: ret)
  end.
Definition GetAllOperatorKeyRemovals (s : KeyState) : result error (list string) :=
  key_removals (prefix_iterator EmptyString (keyRemovals s)).

(** The records in the order of the keys: a new one when the operator changes. *)
Definition add_record (operator chainID key : string) (previousOperator : string)
    (ret : list (string * list (string * string))) : list (string * list (string * string)) :=
  let ret := if bool_decide (previousOperator = operator) then ret else ret ++ [(operator, [])] in
  alter (λ r, (r.1, r.2 ++ [(chainID, key)])) (length ret - 1)%nat ret.

Fixpoint cons_key_records (entries : list (string * string)) (previousOperator : string)
    (ret : list (string * list (string * string)))
    : result error (list (string * list (string * string))) :=
  match entries with
  | [] => Ok ret
  | (k, consKey) :: entries =>
      '(operator, chainID) ← ParseKeyForOperatorAndChainIDToConsKey k;
      let operator := AccAddress_String operator in
      cons_key_records entries operator (add_record operator chainID (ToHex consKey) previousOperator ret)
  end.
Definition GetAllOperatorConsKeyRecords (s : KeyState)
    : result error (list (string * list (string * string))) :=
  cons_key_records (prefix_iterator EmptyString (consKeys s)) EmptyString [].
End Keys.

(** ** Import and export (keeper/genesis.go, keeper/voting_power_snapshot.go) *)

Section Keeper.
Context {sdk : Sdk} {stk : StakingTypes} {B Y : Type} {ot : Others Y}.
Context (ctx : Ctx).
Abbreviation W := (World B (OperatorExt Y)).

Definition init_operator (op : OperatorInfo) : M W error unit :=
  if BlockTime ctx <? co_UpdateTime (oi_Commission op) then panic
  else a ← gets w_assets; must (on_info (RegisterOperator ctx a (Some op))).

Definition init_record (record : string * list (string * string)) : M W error unit :=
  let operatorAddr := default EmptyString (AccAddressFromBech32 record.1) in
  for_each record.2 (λ detail,
    match NewWrappedConsKeyFromHex detail.2 with
    | None => panic
    | Some wrappedKey =>
        on_keys (setOperatorConsKeyForChainIDUnchecked operatorAddr detail.1 wrappedKey)
    end).

Definition init_frozen (frozenOp : string) : M W error unit :=
  match AccAddressFromBech32 frozenOp with
  | None => panic
  | Some accAddr => must (on_info (FreezeOperator accAddr))
  end.

Definition Operator_InitGenesis (state : OperatorGenesisState) : M W error unit :=
  _ ← must (lift_result (OperatorParams_Validate (og_Params state)));
  _ ← on_info (OperatorStore.SetParams (og_Params state));
  _ ← for_each (og_Operators state) init_operator;
  _ ← for_each (og_OperatorRecords state) init_record;
  _ ← must (on_info (SetAllOptedInfo (og_OptStates state)));
  _ ← must (on_usd (SetAllOperatorUSDValues (og_OperatorUSDValues state)));
  _ ← must (on_usd (SetAllAVSUSDValues (og_AVSUSDValues state)));
  _ ← must (on_info (SetAllSlashStates (og_SlashStates state)));
  _ ← must (on_keys (SetAllPrevConsKeys (og_PreConsKeys state)));
  _ ← must (on_keys (SetAllOperatorKeyRemovals (og_OperatorKeyRemovals state)));
  _ ← must (on_usd (SetAllOperatorAssetUSDValues (og_OperatorAssetUsdValues state)));
  for_each (og_FrozenOperators state) init_frozen.

(** An error of an export panics. *)
Definition Operator_ExportGenesis (o : OperatorState) : result error OperatorGenesisState :=
  match GetAllOperatorConsKeyRecords (st_keys o), GetAllOptedInfo (st_info o),
        (GetAllAVSUSDValues (st_usd o)).1, GetAllPrevConsKeys (st_keys o),
        GetAllOperatorKeyRemovals (st_keys o) with
  | Ok records, Ok optStates, Ok avsUSDValues, Ok preConsKeys, Ok removals => Ok {|
      og_Params := OperatorStore.GetParams (st_info o);
      og_Operators := AllOperators (st_info o);
      og_OperatorRecords := records;
      og_OptStates := optStates;
      og_AVSUSDValues := avsUSDValues;
      og_OperatorUSDValues := GetAllOperatorUSDValues (st_usd o);
      og_SlashStates := GetAllSlashStates (st_info o);
      og_PreConsKeys := preConsKeys;
      og_OperatorKeyRemovals := removals;
      og_OperatorAssetUsdValues := GetAllOperatorAssetUSDValues (st_usd o);
      og_FrozenOperators := GetAllFrozenOperators (st_info o) |}
  | _, _, _, _, _ => Panic
  end.

(** The powers of an AVS at genesis. *)
Definition genesis_powers (avsAddr : string) : M W error (list OperatorVotingPower) :=
  with_var [] (IterateOperatorUSDValuesForAVS (λ s, x_usd (w_ext s.1)) (λ _ s, s) false
    (λ operator v,
       _ ← (if 0 <? uv_ActiveUSDValue v
            then modify (λ s, (s.1, s.2 ++ [{| vp_OperatorAddr := operator;
                                               vp_VotingPower := uv_ActiveUSDValue v |}]))
            else mret tt);
       mret v) avsAddr).

Definition InitGenesisVPSnapshot : M W error unit :=
  IterateAVSUSDValues (λ w, x_usd (w_ext w)) (λ avsAddr avsUSDValue,
    votingPowerSet ← genesis_powers avsAddr;
    r ← gets (λ w, GetAVSEpochInfo (w_rest w) avsAddr);
    epochInfo ← lift_result r;
    let genesisSnapshotHeight := BlockHeight ctx + 1 in
    let epochNumber := if ei_EpochCountingStarted epochInfo then ei_CurrentEpoch epochInfo
                       else InitialEpochNumber in
    _ ← on_snap (SetVotingPowerSnapshot
          (KeyForVotingPowerSnapshot (HexToAddress avsAddr) genesisSnapshotHeight) {|
            vs_TotalVotingPower := avsUSDValue; vs_OperatorVotingPowers := votingPowerSet;
            vs_LastChangedHeight := genesisSnapshotHeight;
            vs_EpochIdentifier := ei_Identifier epochInfo; vs_EpochNumber := epochNumber |});
    on_snap (SetSnapshotHelper avsAddr genesisSnapshotHeight)).
End Keeper.

(** ** The keys through a genesis file *)

Section Roundtrip.
Context `{SdkLaws} {B Y : Type}.
Abbreviation W := (World B (OperatorExt Y)).
Implicit Types (k : KeyState) (w : W) (records : list (string * list (string * string))).

(** Operator, chain, key. *)
Definition triple : Type := string * string * string.
Implicit Types (t : triple) (l : list triple).

Definition triple_wf t : Prop :=
  acc20 t.1.1 ∧ go_string t.1.2 ∧ String.length (ToHex t.2) = 66%nat.

(** The entry of a record for a triple. *)
Definition entry_of t : triple := (AccAddress_String t.1.1, t.1.2, ToHex t.2).
Definition flat records : list triple := records ≫= λ r, (λ c, (r.1, c.1, c.2)) <$> r.2.

Lemma alter_last {A} (f : A → A) (init : list A) a :
  alter f (length (init ++ [a]) - 1)%nat (init ++ [a]) = init ++ [f a].
Proof.
  rewrite length_app. cbn. replace (length init + 1 - 1)%nat with (length init) by lia.
  induction init as [|b init IH]; [done|]. cbn. f_equal. exact IH.
Qed.

Lemma flat_snoc records r : flat (records ++ [r]) = flat records ++ ((λ c, (r.1, c.1, c.2)) <$> r.2).
Proof. unfold flat. rewrite bind_app. cbn. by rewrite app_nil_r. Qed.

(** The last record is that of the previous operator. *)
Definition prev_ok (prev : string) records : Prop :=
  prev = EmptyString ∧ records = [] ∨ ∃ init chains, records = init ++ [(prev, chains)].

Lemma add_record_flat op ch key prev records :
  op ≠ EmptyString → prev_ok prev records →
  flat (add_record op ch key prev records) = flat records ++ [(op, ch, key)] ∧
  prev_ok op (add_record op ch key prev records).
Proof.
  intros Hop Hprev. unfold add_record. case_bool_decide as Heq.
  - subst prev. destruct Hprev as [[? _]|(init & chains & ->)]; [done|].
    rewrite alter_last. cbn. rewrite !flat_snoc. cbn. rewrite fmap_app, app_assoc.
    split; [done|]. right. eauto.
  - rewrite alter_last. cbn. rewrite flat_snoc. split; [done|]. right. eauto.
Qed.

Lemma acc_string_nonempty op : acc20 op → AccAddress_String op ≠ EmptyString.
Proof.
  intros Hop Heq. apply (f_equal AccAddressFromBech32) in Heq.
  by rewrite bech32_roundtrip, bech32_empty in Heq by by apply acc20_valid.
Qed.

Definition stored t : string * string := (AddrAndChainIDKey t.1.1 t.1.2, t.2).

Lemma cons_key_records_flat l prev records :
  Forall triple_wf l → prev_ok prev records →
  ∃ r, cons_key_records (stored <$> l) prev records = Ok r ∧ flat r = flat records ++ (entry_of <$> l).
Proof.
  intros Hl. revert prev records. induction Hl as [|[[op ch] key] l (Hop & Hch & _) _ IH]; intros prev records Hprev.
  { exists records. by rewrite app_nil_r. }
  cbn [fmap list_fmap stored cons_key_records fst snd] in *.
  rewrite ParseKeyForOperatorAndChainIDToConsKey_key by done.
  destruct (add_record_flat (AccAddress_String op) ch (ToHex key) prev records) as [Hflat Hprev'];
    [by apply acc_string_nonempty|done|].
  destruct (IH (AccAddress_String op) _ Hprev') as (r & Hr & Hfr). exists r. split; [exact Hr|].
  rewrite Hfr, Hflat, <-app_assoc. done.
Qed.

(** *** The import *)

Definition w_key_state w : KeyState := x_keys (w_ext w).
Definition put_key_state k w : W := {|
  w_assets := w_assets w; w_delegation := w_delegation w; w_bank := w_bank w;
  w_ext := put_operator (put_keys k (oe_operator (w_ext w))) (w_ext w) |}.

Definition set_key t k : KeyState :=
  set_consAddrs (insert (ChainIDAndAddrKey t.1.2 (ToConsAddr t.2)) t.1.1)
    (set_chainConsKeys (insert (ChainIDAndAddrKey t.1.2 t.1.1) t.2)
      (set_consKeys (insert (AddrAndChainIDKey t.1.1 t.1.2) t.2) k)).

Definition import_entry (e : triple) : M W error unit :=
  match NewWrappedConsKeyFromHex e.2 with
  | None => panic
  | Some wrappedKey =>
      on_keys (setOperatorConsKeyForChainIDUnchecked (default EmptyString (AccAddressFromBech32 e.1.1)) e.1.2 wrappedKey)
  end.

Lemma init_records_flat records w :
  for_each records init_record w = for_each (flat records) import_entry w.
Proof.
  unfold flat. rewrite <-for_each_bind. apply for_each_ext. intros r s. by rewrite for_each_fmap.
Qed.

Lemma import_entry_run t w :
  triple_wf t → import_entry (entry_of t) w = (Ok tt, put_key_state (set_key t (w_key_state w)) w).
Proof.
  destruct t as [[op ch] key]. intros (Hop & Hch & Hlen). unfold import_entry, entry_of. cbn [fst snd] in *.
  unfold NewWrappedConsKeyFromHex, tmKeyFromHex. rewrite Hlen. cbn [negb Nat.eqb].
  unfold ToHex. rewrite hex_roundtrip, bech32_roundtrip by by apply acc20_valid. done.
Qed.

Lemma import_run l w :
  Forall triple_wf l →
  for_each (entry_of <$> l) import_entry w = (Ok tt, put_key_state (foldl (λ k t, set_key t k) (w_key_state w) l) w).
Proof.
  intros Hl. revert w. induction Hl as [|t l Ht _ IH]; intros w.
  { by destruct w as [??? [[] ?]]. }
  cbn [fmap list_fmap for_each]. rewrite (bind_run _ _ _ _ _ (import_entry_run t w Ht)). rewrite IH. done.
Qed.

(** *** The stores after the import *)

(** Distinct operators and chains, and distinct addresses in a chain. *)
Definition distinct l : Prop :=
  NoDup ((λ t : triple, (t.1.1, t.1.2)) <$> l) ∧ NoDup ((λ t : triple, (t.1.2, ToConsAddr t.2)) <$> l).

Record imported l k : Prop := {
  im_inv : keys_inv k;
  im_keys x v : consKeys k !! x = Some v ↔ (x, v) ∈ stored <$> l;
  im_addrs ch ca op : go_string ch →
    consAddrs k !! ChainIDAndAddrKey ch ca = Some op ↔ ∃ key, (op, ch, key) ∈ l ∧ ToConsAddr key = ca;
}.

Lemma distinct_snoc l op ch key :
  distinct (l ++ [(op, ch, key)]) →
  distinct l ∧ (∀ key', (op, ch, key') ∉ l) ∧ (∀ op' key', (op', ch, key') ∈ l → ToConsAddr key' ≠ ToConsAddr key).
Proof.
  unfold distinct. rewrite !fmap_app, !NoDup_app. intros [(H1 & D1 & _) (H2 & D2 & _)]. split_and!; [done..| |].
  - intros key' Hin. apply (D1 (op, ch)); [|apply list_elem_of_here].
    apply list_elem_of_fmap. by exists (op, ch, key').
  - intros op' key' Hin Heq. apply (D2 (ch, ToConsAddr key)); [|apply list_elem_of_here].
    apply list_elem_of_fmap. exists (op', ch, key'). cbn. by rewrite Heq.
Qed.

Lemma stored_op_chain l op ch v :
  Forall triple_wf l → acc20 op → go_string ch →
  (AddrAndChainIDKey op ch, v) ∈ stored <$> l ↔ (op, ch, v) ∈ l.
Proof.
  intros Hl Hop Hch. rewrite list_elem_of_fmap. split.
  - intros ([[op' ch'] key'] & [= Heq ->] & Hin). cbn in Heq.
    destruct (proj1 (Forall_forall _ _) Hl _ Hin) as (Hop' & Hch' & _).
    apply AddrAndChainIDKey_inj in Heq as [-> ->]; [done|by rewrite Hop, Hop'|done..].
  - intros Hin. by exists (op, ch, v).
Qed.

Lemma imported_snoc l op ch key k :
  triple_wf (op, ch, key) → Forall triple_wf l → distinct (l ++ [(op, ch, key)]) → imported l k →
  imported (l ++ [(op, ch, key)]) (set_key (op, ch, key) k).
Proof.
  intros (Hop & Hch & Hlen) Hl (Hd & Hnew & Hca)%distinct_snoc [Hinv Hk Ha]. cbn [fst snd] in *.
  assert (Hfree : consAddrs k !! ChainIDAndAddrKey ch (ToConsAddr key) = None).
  { apply eq_None_not_Some. intros [op' (key' & Hin & Heq)%Ha]; [by eapply Hca|done]. }
  split.
  - by eapply (keys_inv_set op ch key k).
  - intros x v. cbn [set_key consKeys set_consAddrs set_chainConsKeys set_consKeys fst snd].
    rewrite lookup_insert_Some, Hk, fmap_app, elem_of_app.
    change (stored <$> [(op, ch, key)]) with [(AddrAndChainIDKey op ch, key)]. rewrite list_elem_of_singleton. split; [intros [[<- <-]|[_ ?]]; auto|]. intros [Hin|[= -> ->]]; [|by left].
    right. split; [|done]. intros <-. apply stored_op_chain in Hin; [|done..]. by eapply Hnew.
  - intros ch' ca op' Hch'. cbn. rewrite lookup_insert_Some. setoid_rewrite elem_of_app.
    setoid_rewrite list_elem_of_singleton. rewrite Ha by done. split.
    + intros [[[-> <-]%ChainIDAndAddrKey_inj <-]|[_ (key' & ? & ?)]]; eauto.
    + intros (key' & [Hin|[= -> -> ->]] & Heq); [|by left; rewrite Heq].
      right. split; [|eauto]. intros [-> Heq']%ChainIDAndAddrKey_inj; [|done..]. apply (Hca op' key' Hin). congruence.
Qed.

Lemma imported_all l1 l2 k :
  Forall triple_wf (l1 ++ l2) → distinct (l1 ++ l2) → imported l1 k →
  imported (l1 ++ l2) (foldl (λ k t, set_key t k) k l2).
Proof.
  revert l1 k. induction l2 as [|[[op ch] key] l2 IH]; intros l1 k Hwf Hd Him; [by rewrite app_nil_r|].
  rewrite (cons_middle (op, ch, key)), app_assoc in *. apply IH; [done..|].
  apply Forall_app in Hwf as [[Hwf [Ht _]%Forall_cons]%Forall_app _]. apply imported_snoc; [done..| |done].
  unfold distinct in *. rewrite !(fmap_app _ (l1 ++ _) l2) in Hd. destruct Hd as [D1 D2].
  apply NoDup_app in D1 as [D1 _]. by apply NoDup_app in D2 as [D2 _].
Qed.

(** Every key is stored for an operator and a chain, and is an ed25519 key. *)
Definition keys_wf k : Prop := ∀ x v, consKeys k !! x = Some v →
  ∃ op ch, x = AddrAndChainIDKey op ch ∧ triple_wf (op, ch, v).

Lemma stored_triples k :
  keys_wf k → ∃ l, prefix_iterator EmptyString (consKeys k) = stored <$> l ∧ Forall triple_wf l.
Proof.
  intros Hwf. assert (Hall : Forall (λ xv, ∃ t, triple_wf t ∧ stored t = xv) (prefix_iterator EmptyString (consKeys k))).
  { apply Forall_forall. intros [x v] [Hx _]%elem_of_prefix_iterator.
    destruct (Hwf x v Hx) as (op & ch & -> & ?). by exists (op, ch, v). }
  induction Hall as [|xv entries (t & Ht & <-) _ (l & -> & Hl)]; [by exists []|].
  exists (t :: l). split; [done|by constructor].
Qed.

Lemma triples_distinct k l :
  keys_inv k → prefix_iterator EmptyString (consKeys k) = stored <$> l → Forall triple_wf l → distinct l.
Proof.
  intros Hinv Heq Hl.
  assert (Hin : ∀ op ch v, (op, ch, v) ∈ l → acc20 op ∧ go_string ch ∧ consKeys k !! AddrAndChainIDKey op ch = Some v).
  { intros op ch v Hin. destruct (proj1 (Forall_forall _ _) Hl _ Hin) as (Hop & Hch & _). split_and!; [done..|].
    apply (elem_of_prefix_iterator EmptyString). rewrite Heq. by apply stored_op_chain. }
  assert (Hnd : NoDup l).
  { eapply NoDup_fmap_1. rewrite <-Heq. eapply NoDup_fmap_1, prefix_iterator_NoDup_keys. }
  split; (apply NoDup_fmap_2_strong; [|done]); intros [[op ch] v] [[op' ch'] v'] (Hop & Hch & Hv)%Hin (Hop' & Hch' & Hv')%Hin.
  - cbn. intros [= -> ->]. by rewrite Hv in Hv'; injection Hv' as ->.
  - cbn. intros [= <- Hca]. pose proof (ki_back _ Hinv _ _ _ Hop Hch Hv) as Hb.
    pose proof (ki_back _ Hinv _ _ _ Hop' Hch Hv') as Hb'. rewrite Hca, Hb' in Hb. injection Hb as ->.
    by rewrite Hv in Hv'; injection Hv' as ->.
Qed.

Lemma chain_keys_determined k k' :
  keys_inv k → keys_inv k' → (∀ op ch, acc20 op → go_string ch →
    consKeys k' !! AddrAndChainIDKey op ch = consKeys k !! AddrAndChainIDKey op ch) →
  chainConsKeys k' = chainConsKeys k.
Proof.
  intros Hinv Hinv' Heq. apply map_eq. intros x.
  assert (Hgo : ∀ k1 k2, keys_inv k1 → keys_inv k2 → (∀ op ch, acc20 op → go_string ch →
    consKeys k2 !! AddrAndChainIDKey op ch = consKeys k1 !! AddrAndChainIDKey op ch) →
    ∀ v, chainConsKeys k1 !! x = Some v → chainConsKeys k2 !! x = Some v).
  { intros k1 k2 H1 H2 H12 v Hv. destruct (ki_shape _ H1 _ _ Hv) as (ch & op & Hch & Hop & ->).
    rewrite <-(ki_agree _ H2) by done. rewrite H12, (ki_agree _ H1) by done. done. }
  apply option_eq. intros v. split; apply Hgo; try done. intros. by rewrite Heq.
Qed.

(** The consensus keys survive an export and an import: the records that are exported
    are accepted, and they rebuild both lookups by operator and by chain in an empty
    store.  The lookup by consensus address holds the keys in use and nothing else: an
    address that was replaced, and that is still to be pruned, is not known any
    more. *)
Theorem genesis_keys_roundtrip k w :
  keys_inv k → keys_wf k → x_keys (w_ext w) = st_keys empty_operator →
  ∃ records w', GetAllOperatorConsKeyRecords k = Ok records ∧
    for_each records init_record w = (Ok tt, w') ∧ let k' := x_keys (w_ext w') in
    keys_inv k' ∧ consKeys k' = consKeys k ∧ chainConsKeys k' = chainConsKeys k ∧
    ∀ ch ca op, go_string ch → acc20 op →
      consAddrs k' !! ChainIDAndAddrKey ch ca = Some op ↔
      ∃ key, consKeys k !! AddrAndChainIDKey op ch = Some key ∧ ToConsAddr key = ca.
Proof.
  intros Hinv Hwf Hempty. destruct (stored_triples k Hwf) as (l & Hl & Hlwf).
  destruct (cons_key_records_flat l EmptyString []) as (records & Hrec & Hflat); [done|by left|]. cbn [flat mbind list_bind app] in Hflat.
  pose proof (import_run l w Hlwf) as Hrun. rewrite <-Hflat, <-init_records_flat in Hrun.
  assert (Him : imported l (foldl (λ k t, set_key t k) (w_key_state w) l)).
  { apply (imported_all []); [done|by eapply triples_distinct|]. unfold w_key_state. rewrite Hempty.
    split; [apply keys_inv_empty| |]; intros *; cbn; rewrite lookup_empty; set_solver. }
  exists records, (put_key_state (foldl (λ k t, set_key t k) (w_key_state w) l) w).
  unfold GetAllOperatorConsKeyRecords. rewrite Hl. split; [exact Hrec|]. split; [exact Hrun|]. cbv zeta.
  change (x_keys (w_ext (put_key_state ?k w))) with k. destruct Him as [Hinv' Hk Ha].
  assert (Heq : consKeys (foldl (λ k t, set_key t k) (w_key_state w) l) = consKeys k).
  { apply map_eq. intros x. apply option_eq. intros v. rewrite Hk, <-Hl, elem_of_prefix_iterator.
    rewrite has_prefix_spec. split; [by intros [? _]|]. intros ?. split; [done|]. by exists x. }
  split_and!; [done|done| |].
  - apply chain_keys_determined; [done..|]. intros. by rewrite Heq.
  - intros ch ca op Hch Hop. rewrite Ha by done. setoid_rewrite <-Heq. setoid_rewrite Hk.
    split; intros (key & Hin & Hca); exists key; (split; [|done]); revert Hin; by rewrite (stored_op_chain l op ch key).
Qed.
End Roundtrip.
