(* ===== verification/ChainUtils.v ===== *)
(** * Chain identifiers, AVS addresses and sorting by power (utils/utils.go)

    The part of utils that the validator set and the AVS registry use, over the
    library calls it makes: the revision format of ibc-go, keccak and the
    addresses of go-ethereum, and the packed keys and the bech32 form of the
    consensus addresses of cosmos-sdk. *)

From S2P Require Import Prelude Errors Sdk RefSdk KVStore DelegationTypes Assets OperatorTypes.

Class ChainSdk := {
  (** ** ibc-go 02-client *)
  IsRevisionFormat : string → bool;
  (** ** go-ethereum *)
  Keccak256 : string → string;
  BytesToAddress : string → string;
  (** ** sdk.ConsAddress *)
  ConsAddress_String : string → string;
  ConsAddressFromBech32 : string → option string;
  (** ** codectypes.NewAnyWithValue of a public key; [None] is its error *)
  NewAnyWithValue : string → option string;
  (** ** [PublicKey.String] of a CometBFT key *)
  PublicKey_String : string → string;
  (** ** [sdk.DefaultPowerReduction], and two constants of x/staking *)
  DefaultPowerReduction : Z;
  staking_DefaultMaxValidators : Z;
  staking_DefaultHistoricalEntries : Z;
  (** ** the order of the validators in a [stakingtypes.HistoricalInfo] *)
  SortByVotingPower : list (string * Int) → list (string * Int);
}.

Class ChainLaws (sdk : Sdk) (chain : ChainSdk) : Prop := {
  cons_bech32_roundtrip a : valid_addr a → ConsAddressFromBech32 (ConsAddress_String a) = Some a;
  cons_bech32_empty : ConsAddressFromBech32 EmptyString = None;
  (** the first 20 bytes of a hash *)
  cons_address_length key : String.length (GetConsAddress key) = 20%nat;
  (** an ed25519 key can be packed *)
  any_packs key : NewAnyWithValue key = Some key;
  power_reduction_pos : 0 < DefaultPowerReduction;
  voting_power_sorts l : SortByVotingPower l ≡ₚ l;
}.

(** ** Chain identifiers *)

Definition ChainIDPrefix : string := "chain-id-prefix".
Definition MainnetChainID : string := "imuachain_234".
Definition TestnetChainID : string := "imuachaintestnet_233".
Definition BaseDenom : string := "hua".

Definition IsMainnet (chainID : string) : bool := has_prefix MainnetChainID chainID.
Definition IsTestnet (chainID : string) : bool := has_prefix TestnetChainID chainID.

(** [strings.LastIndex] of a character; [None] is -1. *)
Fixpoint LastIndex (c : ascii) (s : string) : option nat :=
  match s with
  | EmptyString => None
  | String a s =>
      match LastIndex c s with
      | Some i => Some (S i)
      | None => if decide (a = c) then Some 0%nat else None
      end
  end.

Section ChainID.
Context {sdk : Sdk} {chain : ChainSdk}.

Definition IsValidRevisionChainID (chainID : string) : bool :=
  if IsJoinedStoreKey chainID then false else IsRevisionFormat chainID.

Definition IsValidChainIDWithoutRevision (chainID : string) : bool :=
  if IsJoinedStoreKey chainID then false else negb (IsRevisionFormat chainID).

Definition ChainIDWithoutRevision (chainID : string) : string :=
  if negb (IsRevisionFormat chainID) then chainID
  else match LastIndex "-"%char chainID with
       | None => chainID
       | Some idx => slice 0 idx chainID
       end.

Definition GenerateAVSAddress (chainID : string) : string :=
  ToLower (Address_Hex (BytesToAddress (Keccak256 (ChainIDPrefix +:+ chainID)))).
End ChainID.

(** ** Sorting by power *)

(** The order of [SortByPower] on (operator, key, power): descending power, then
    ascending address.  The addresses are distinct, so the order of equal
    elements, which [sort.Slice] leaves open, does not matter. *)
Definition power_le : relation (string * string * Z) := λ a b,
  b.2 < a.2 ∨ (a.2 = b.2 ∧ String.le a.1.1 b.1.1).

#[export] Instance power_le_dec : RelDecision power_le.
Proof. intros a b. unfold power_le. apply _. Defined.
#[export] Instance power_le_trans : Transitive power_le.
Proof.
  intros a b c [H1|[E1 H1]] [H2|[E2 H2]]; unfold power_le; [left; lia..|right].
  split; [lia|by etransitivity].
Qed.
#[export] Instance power_le_total : Total power_le.
Proof.
  intros a b. unfold power_le. destruct (Z.lt_trichotomy a.2 b.2) as [?|[?|?]]; [tauto| |tauto].
  destruct (total String.le a.1.1 b.1.1); [left|right]; auto.
Qed.

(** The operators, keys and powers, which the caller gives with equal lengths. *)
Definition zip3 (operatorAddrs pubKeys : list string) (powers : list Z)
    : list (string * string * Z) := zip (zip operatorAddrs pubKeys) powers.

Definition SortByPower (operatorAddrs pubKeys : list string) (powers : list Z)
    : list string * list string * list Z :=
  let sorted := merge_sort power_le (zip3 operatorAddrs pubKeys powers) in
  (sorted.*1.*1, sorted.*1.*2, sorted.*2).

Lemma zip3_split (l : list (string * string * Z)) : zip3 l.*1.*1 l.*1.*2 l.*2 = l.
Proof. unfold zip3. rewrite (zip_fst_snd l.*1). apply zip_fst_snd. Qed.

(** The three slices of the result are those of one sorted list. *)
Lemma SortByPower_sorted ops keys powers ops' keys' powers' :
  SortByPower ops keys powers = (ops', keys', powers') →
  zip3 ops' keys' powers' ≡ₚ zip3 ops keys powers ∧
  StronglySorted power_le (zip3 ops' keys' powers').
Proof.
  unfold SortByPower. intros [= <- <- <-]. rewrite zip3_split. split.
  - apply merge_sort_Permutation.
  - apply StronglySorted_merge_sort; apply _.
Qed.
