(* ===== verification/DogfoodTypes.v ===== *)
(** * Data of the validator set module (x/dogfood/types)

    The parameters with their validation, the validators, the updates handed to
    the consensus engine, and the keys of the stores. *)

From S2P Require Import Prelude Errors Sdk RefSdk KVStore Epochs Assets OperatorTypes ChainUtils.

(** ** Parameters (types/params.go) *)

Record Params := {
  (** uint32 *)
  dp_EpochsUntilUnbonded : Z;
  dp_EpochIdentifier : string;
  dp_MaxValidators : Z;
  dp_HistoricalEntries : Z;
  dp_AssetIDs : list string;
  dp_MinSelfDelegation : option Int;
}.

(** The zero value, which an empty store decodes to. *)
Definition Params_zero : Params := {|
  dp_EpochsUntilUnbonded := 0; dp_EpochIdentifier := EmptyString; dp_MaxValidators := 0;
  dp_HistoricalEntries := 0; dp_AssetIDs := []; dp_MinSelfDelegation := None |}.

Definition DefaultEpochsUntilUnbonded : Z := 7.
Definition DefaultEpochIdentifier : string := "day".

Definition ValidatePositiveUint32 (val : Z) : result error unit :=
  if val =? 0 then Err dogfoodtypes.ErrInvalidParam else Ok tt.

Definition ValidateNonNegativeInt (val : option Int) : result error unit :=
  match val with
  | None => Err dogfoodtypes.ErrInvalidParam
  | Some v => if v <? 0 then Err dogfoodtypes.ErrInvalidParam else Ok tt
  end.

Section Params.
Context {sdk : Sdk} {chain : ChainSdk}.

Definition DefaultParams : Params := {|
  dp_EpochsUntilUnbonded := DefaultEpochsUntilUnbonded;
  dp_EpochIdentifier := DefaultEpochIdentifier;
  dp_MaxValidators := staking_DefaultMaxValidators;
  dp_HistoricalEntries := staking_DefaultHistoricalEntries;
  dp_AssetIDs := []; dp_MinSelfDelegation := Some 0 |}.

Fixpoint check_asset_ids (val : list string) (seen : gset string) : result error unit :=
  match val with
  | [] => Ok tt
  | assetID :: val =>
      match ParseID assetID with
      | Ok _ =>
          if bool_decide (assetID ∈ seen) then Err dogfoodtypes.ErrInvalidParam
          else check_asset_ids val ({[ assetID ]} ∪ seen)
      | _ => Err dogfoodtypes.ErrInvalidParam
      end
  end.

Definition ValidateAssetIDs (val : list string) : result error unit :=
  match val with
  | [] => Err dogfoodtypes.ErrInvalidParam
  | _ => check_asset_ids val ∅
  end.

Definition Params_Validate (p : Params) : result error unit :=
  _ ← ValidatePositiveUint32 (dp_EpochsUntilUnbonded p);
  _ ← ValidateEpochIdentifierString (dp_EpochIdentifier p);
  _ ← ValidatePositiveUint32 (dp_MaxValidators p);
  _ ← ValidatePositiveUint32 (dp_HistoricalEntries p);
  _ ← ValidateAssetIDs (dp_AssetIDs p);
  ValidateNonNegativeInt (dp_MinSelfDelegation p).
End Params.

(** ** Validators (types/validator.go, types/dogfood.pb.go) *)

(** [iv_Pubkey] is the cached value of the packed key, when that is a key. *)
Record ImuachainValidator := {
  iv_Address : string;
  iv_Power : Z;
  iv_Pubkey : option string;
}.

Definition NewImuachainValidator {chain : ChainSdk} (address : string) (power : Z) (pubKey : string)
    : result error ImuachainValidator :=
  match NewAnyWithValue pubKey with
  | None => Err dogfoodtypes.ErrPackKey
  | Some pkAny => Ok {| iv_Address := address; iv_Power := power; iv_Pubkey := Some pkAny |}
  end.

Definition ConsPubKey (v : ImuachainValidator) : result error string :=
  match iv_Pubkey v with
  | None => Err dogfoodtypes.ErrInvalidType
  | Some pk => Ok pk
  end.

(** [keytypes.WrappedConsKeyWithPower] and [abci.ValidatorUpdate] *)
Record KeyWithPower := { kp_Key : string; kp_Power : Z }.
Record ValidatorUpdate := { vu_PubKey : string; vu_Power : Z }.

#[export] Instance ValidatorUpdate_eq_dec : EqDecision ValidatorUpdate.
Proof. solve_decision. Defined.

(** [stakingtypes.HistoricalInfo]: the header, and the public keys and tokens of
    the bonded validators. *)
Record HistoricalInfo := { hi_Header : Ctx; hi_Valset : list (string * Int) }.

(** ** Keys (types/keys.go)

    The byte of the sub-store is left out.  A key of a negative number is nil. *)

Definition SafeInt64ToUint64 (id : Z) : option Z := if id <? 0 then None else Some id.
Definition SafeUint64ToInt64 (id : Z) : option Z := if 2 ^ 63 - 1 <? id then None else Some id.

Section Keys.
Context {sdk : Sdk}.

Definition OptOutsToFinishKey (epoch : Z) : option string :=
  Uint64ToBigEndian <$> SafeInt64ToUint64 epoch.
Definition ConsensusAddrsToPruneKey (epoch : Z) : option string :=
  Uint64ToBigEndian <$> SafeInt64ToUint64 epoch.
Definition HistoricalInfoKey (height : Z) : option string :=
  Uint64ToBigEndian <$> SafeInt64ToUint64 height.
End Keys.

(** [utils.go] *)
Fixpoint RemoveFromBytesList (l : list string) (addr : string) : result error (list string) :=
  match l with
  | [] => Panic
  | a :: l =>
      if bool_decide (a = addr) then Ok l
      else rest ← RemoveFromBytesList l addr; Ok (a :: rest)
  end.

(** ** Facts *)

Lemma SafeInt64ToUint64_pos n : 0 ≤ n → SafeInt64ToUint64 n = Some n.
Proof. intros ?. unfold SafeInt64ToUint64. destruct (Z.ltb_spec n 0); [lia|done]. Qed.

Section KeyFacts.
Context `{SdkLaws}.

(** The numbers of epochs and heights that the store can hold. *)
Definition is_number (n : Z) : Prop := 0 ≤ n < 2 ^ 63.

Lemma epoch_key n : is_number n → OptOutsToFinishKey n = Some (Uint64ToBigEndian n).
Proof. intros [? _]. unfold OptOutsToFinishKey. by rewrite SafeInt64ToUint64_pos. Qed.

Lemma u64_inj m n : is_number m → is_number n → Uint64ToBigEndian m = Uint64ToBigEndian n → m = n.
Proof.
  intros Hm Hn Heq. apply (f_equal BigEndianToUint64) in Heq.
  rewrite !u64_roundtrip in Heq by (unfold is_u64, is_number in *; lia). done.
Qed.
End KeyFacts.
