(* ===== verification/DogfoodStore.v ===== *)
(** * The store of x/dogfood (keeper/keeper.go, params.go, pending.go, opt_out.go, validators.go)

    The store in three parts: the validators with what is reported of them, the
    queues of the opt-outs and of the consensus addresses to prune, and the
    parameters with the two markers.  A queue is keyed by the big-endian number of
    the epoch; a negative number has a nil key, with which the store panics.  The last section is
    about the historical headers. *)

From S2P Require Import Prelude Errors Sdk RefSdk KVStore Epochs DelegationTypes Assets.
From S2P Require Import DelegationStore UndelegationStore Delegation OperatorTypes.
From S2P Require Import OperatorStore OperatorKeepers OperatorKeys ChainUtils DogfoodTypes.

Record ValidatorState := {
  (** consensus address -> ImuachainValidator *)
  validators : gmap string ImuachainValidator;
  (** height -> HistoricalInfo *)
  historicalInfos : gmap string HistoricalInfo;
  lastTotalPower : option Int;
  validatorUpdates : option (list ValidatorUpdate);
}.

Record QueueState := {
  (** epoch -> operator addresses *)
  optOutsToFinish : gmap string (list string);
  (** operator address -> epoch, a uint64 *)
  optOutFinishEpochs : gmap string Z;
  (** epoch -> consensus addresses *)
  consAddrsToPrune : gmap string (list string);
  pendingOptOuts : option (list string);
  pendingConsAddrs : option (list string);
}.

Record DogfoodState := {
  ds_vals : ValidatorState;
  ds_queues : QueueState;
  dogfoodParams : option Params;
  shouldUpdate : bool;
  emitAvsEvent : bool;
}.

(** ** Writing one field *)

Definition set_validators f (s : ValidatorState) : ValidatorState := {|
  validators := f (validators s); historicalInfos := historicalInfos s;
  lastTotalPower := lastTotalPower s; validatorUpdates := validatorUpdates s |}.
Definition set_historicalInfos f (s : ValidatorState) : ValidatorState := {|
  validators := validators s; historicalInfos := f (historicalInfos s);
  lastTotalPower := lastTotalPower s; validatorUpdates := validatorUpdates s |}.
Definition set_lastTotalPower p (s : ValidatorState) : ValidatorState := {|
  validators := validators s; historicalInfos := historicalInfos s;
  lastTotalPower := p; validatorUpdates := validatorUpdates s |}.
Definition set_validatorUpdates u (s : ValidatorState) : ValidatorState := {|
  validators := validators s; historicalInfos := historicalInfos s;
  lastTotalPower := lastTotalPower s; validatorUpdates := u |}.

Definition set_optOutsToFinish f (s : QueueState) : QueueState := {|
  optOutsToFinish := f (optOutsToFinish s); optOutFinishEpochs := optOutFinishEpochs s;
  consAddrsToPrune := consAddrsToPrune s; pendingOptOuts := pendingOptOuts s;
  pendingConsAddrs := pendingConsAddrs s |}.
Definition set_optOutFinishEpochs f (s : QueueState) : QueueState := {|
  optOutsToFinish := optOutsToFinish s; optOutFinishEpochs := f (optOutFinishEpochs s);
  consAddrsToPrune := consAddrsToPrune s; pendingOptOuts := pendingOptOuts s;
  pendingConsAddrs := pendingConsAddrs s |}.
Definition set_consAddrsToPrune f (s : QueueState) : QueueState := {|
  optOutsToFinish := optOutsToFinish s; optOutFinishEpochs := optOutFinishEpochs s;
  consAddrsToPrune := f (consAddrsToPrune s); pendingOptOuts := pendingOptOuts s;
  pendingConsAddrs := pendingConsAddrs s |}.
Definition set_pendingOptOuts p (s : QueueState) : QueueState := {|
  optOutsToFinish := optOutsToFinish s; optOutFinishEpochs := optOutFinishEpochs s;
  consAddrsToPrune := consAddrsToPrune s; pendingOptOuts := p;
  pendingConsAddrs := pendingConsAddrs s |}.
Definition set_pendingConsAddrs p (s : QueueState) : QueueState := {|
  optOutsToFinish := optOutsToFinish s; optOutFinishEpochs := optOutFinishEpochs s;
  consAddrsToPrune := consAddrsToPrune s; pendingOptOuts := pendingOptOuts s;
  pendingConsAddrs := p |}.

Definition put_vals (v : ValidatorState) (s : DogfoodState) : DogfoodState := {|
  ds_vals := v; ds_queues := ds_queues s; dogfoodParams := dogfoodParams s;
  shouldUpdate := shouldUpdate s; emitAvsEvent := emitAvsEvent s |}.
Definition put_queues (q : QueueState) (s : DogfoodState) : DogfoodState := {|
  ds_vals := ds_vals s; ds_queues := q; dogfoodParams := dogfoodParams s;
  shouldUpdate := shouldUpdate s; emitAvsEvent := emitAvsEvent s |}.
Definition set_dogfoodParams p (s : DogfoodState) : DogfoodState := {|
  ds_vals := ds_vals s; ds_queues := ds_queues s; dogfoodParams := p;
  shouldUpdate := shouldUpdate s; emitAvsEvent := emitAvsEvent s |}.
Definition set_shouldUpdate b (s : DogfoodState) : DogfoodState := {|
  ds_vals := ds_vals s; ds_queues := ds_queues s; dogfoodParams := dogfoodParams s;
  shouldUpdate := b; emitAvsEvent := emitAvsEvent s |}.
Definition set_emitAvsEvent b (s : DogfoodState) : DogfoodState := {|
  ds_vals := ds_vals s; ds_queues := ds_queues s; dogfoodParams := dogfoodParams s;
  shouldUpdate := shouldUpdate s; emitAvsEvent := b |}.

Definition empty_dogfood : DogfoodState := {|
  ds_vals := {| validators := ∅; historicalInfos := ∅; lastTotalPower := None;
    validatorUpdates := None |};
  ds_queues := {| optOutsToFinish := ∅; optOutFinishEpochs := ∅; consAddrsToPrune := ∅;
    pendingOptOuts := None; pendingConsAddrs := None |};
  dogfoodParams := None; shouldUpdate := false; emitAvsEvent := false |}.

Section Store.
Context {E A : Type}.
Definition on_vals (m : M ValidatorState E A) : M DogfoodState E A :=
  zoom ds_vals put_vals m.
Definition on_queues (m : M QueueState E A) : M DogfoodState E A :=
  zoom ds_queues put_queues m.
End Store.

(** ** Markers (keeper.go) *)

Definition MarkUpdateValidatorSetFlag : DogfoodState → DogfoodState := set_shouldUpdate true.
Definition ShouldUpdateValidatorSet (s : DogfoodState) : bool := shouldUpdate s.
Definition ClearValidatorSetUpdateFlag : DogfoodState → DogfoodState := set_shouldUpdate false.
Definition MarkEmitAvsEventFlag : DogfoodState → DogfoodState := set_emitAvsEvent true.
Definition ShouldEmitAvsEvent (s : DogfoodState) : bool := emitAvsEvent s.
Definition ClearEmitAvsEventFlag : DogfoodState → DogfoodState := set_emitAvsEvent false.

(** ** Parameters (params.go) *)

Definition SetParams (params : Params) : DogfoodState → DogfoodState :=
  set_dogfoodParams (Some params).
Definition GetDogfoodParams (s : DogfoodState) : Params := default Params_zero (dogfoodParams s).
Definition GetEpochsUntilUnbonded (s : DogfoodState) : Z := dp_EpochsUntilUnbonded (GetDogfoodParams s).
Definition GetEpochIdentifier (s : DogfoodState) : string := dp_EpochIdentifier (GetDogfoodParams s).
Definition GetMaxValidators (s : DogfoodState) : Z := dp_MaxValidators (GetDogfoodParams s).
Definition GetHistoricalEntries (s : DogfoodState) : Z := dp_HistoricalEntries (GetDogfoodParams s).
Definition GetAssetIDs (s : DogfoodState) : list string := dp_AssetIDs (GetDogfoodParams s).
Definition GetMinSelfDelegation (s : DogfoodState) : option Int :=
  dp_MinSelfDelegation (GetDogfoodParams s).

(** ** Pending operations (pending.go) *)

Definition SetPendingOptOuts (addrs : list string) : QueueState → QueueState :=
  set_pendingOptOuts (Some addrs).
Definition GetPendingOptOuts (s : QueueState) : list string := default [] (pendingOptOuts s).
Definition ClearPendingOptOuts : QueueState → QueueState := set_pendingOptOuts None.
Definition SetPendingConsensusAddrs (addrs : list string) : QueueState → QueueState :=
  set_pendingConsAddrs (Some addrs).
Definition GetPendingConsensusAddrs (s : QueueState) : list string := default [] (pendingConsAddrs s).
Definition ClearPendingConsensusAddrs : QueueState → QueueState := set_pendingConsAddrs None.

(** ** The queues (opt_out.go) *)

(** A nil key makes the store panic. *)
Definition with_key {S E A} (key : option string) (f : string → M S E A) : M S E A :=
  match key with None => panic | Some key => f key end.

(** None of the methods returns an error. *)

Section Queues.
Context {sdk : Sdk} {E : Type}.

Definition GetOptOutsToFinish (epoch : Z) : M QueueState E (list string) :=
  with_key (OptOutsToFinishKey epoch) (λ key, gets (λ s, default [] (optOutsToFinish s !! key))).

Definition setOptOutsToFinish (epoch : Z) (addrs : list string) : M QueueState E unit :=
  with_key (OptOutsToFinishKey epoch) (λ key, modify (set_optOutsToFinish (insert key addrs))).

Definition AppendOptOutToFinish (epoch : Z) (operatorAddr : string) : M QueueState E unit :=
  prev ← GetOptOutsToFinish epoch;
  setOptOutsToFinish epoch (prev ++ [operatorAddr]).

Definition ClearOptOutsToFinish (epoch : Z) : M QueueState E unit :=
  with_key (OptOutsToFinishKey epoch) (λ key, modify (set_optOutsToFinish (delete key))).

(** The epochs with the bech32 form of the addresses. *)
Definition GetAllOptOutsToFinish (s : QueueState) : list (Z * list string) :=
  (λ kv : string * list string,
     (default 0 (SafeUint64ToInt64 (BigEndianToUint64 kv.1)), AccAddress_String <$> kv.2)) <$>
    prefix_iterator EmptyString (optOutsToFinish s).

Definition SetOperatorOptOutFinishEpoch (operatorAddr : string) (epoch : Z)
    : M QueueState E unit :=
  modify (set_optOutFinishEpochs (insert operatorAddr (default 0 (SafeInt64ToUint64 epoch)))).

Definition GetOperatorOptOutFinishEpoch (operatorAddr : string) (s : QueueState) : Z :=
  match optOutFinishEpochs s !! operatorAddr with
  | None => -1
  | Some bz => wrap_int64 bz
  end.

Definition DeleteOperatorOptOutFinishEpoch (operatorAddr : string) : M QueueState E unit :=
  modify (set_optOutFinishEpochs (delete operatorAddr)).

Definition GetConsensusAddrsToPrune (epoch : Z) : M QueueState E (list string) :=
  with_key (ConsensusAddrsToPruneKey epoch)
    (λ key, gets (λ s, default [] (consAddrsToPrune s !! key))).

Definition setConsensusAddrsToPrune (epoch : Z) (addrs : list string) : M QueueState E unit :=
  with_key (ConsensusAddrsToPruneKey epoch)
    (λ key, modify (set_consAddrsToPrune (insert key addrs))).

Definition AppendConsensusAddrToPrune (epoch : Z) (operatorAddr : string)
    : M QueueState E unit :=
  prev ← GetConsensusAddrsToPrune epoch;
  setConsensusAddrsToPrune epoch (prev ++ [operatorAddr]).

Definition ClearConsensusAddrsToPrune (epoch : Z) : M QueueState E unit :=
  with_key (ConsensusAddrsToPruneKey epoch) (λ key, modify (set_consAddrsToPrune (delete key))).

Definition GetAllConsAddrsToPrune {chain : ChainSdk} (s : QueueState) : list (Z * list string) :=
  (λ kv : string * list string,
     (default 0 (SafeUint64ToInt64 (BigEndianToUint64 kv.1)), ConsAddress_String <$> kv.2)) <$>
    prefix_iterator EmptyString (consAddrsToPrune s).
End Queues.

(** ** The validators (validators.go) *)

Section Validators.
Context {sdk : Sdk} {chain : ChainSdk} {E : Type}.

Definition SetImuachainValidator (validator : ImuachainValidator) : M ValidatorState E unit :=
  modify (set_validators (insert (iv_Address validator) validator)).
Definition GetImuachainValidator (addr : string) (s : ValidatorState) : option ImuachainValidator :=
  validators s !! addr.
Definition IsImuachainValidator (addr : string) (s : ValidatorState) : bool :=
  is_some (validators s !! addr).
Definition DeleteImuachainValidator (addr : string) : M ValidatorState E unit :=
  modify (set_validators (delete addr)).
Definition GetAllImuachainValidators (s : ValidatorState) : list ImuachainValidator :=
  (prefix_iterator EmptyString (validators s)).*2.

Definition GetLastTotalPower (s : ValidatorState) : Int := default 0 (lastTotalPower s).
Definition SetLastTotalPower (power : Int) : M ValidatorState E unit :=
  modify (set_lastTotalPower (Some power)).
Definition SetValidatorUpdates (valUpdates : list ValidatorUpdate) : M ValidatorState E unit :=
  modify (set_validatorUpdates (Some valUpdates)).
Definition GetValidatorUpdates (s : ValidatorState) : list ValidatorUpdate :=
  default [] (validatorUpdates s).

Fixpoint abci_updates (vals : list ImuachainValidator) : result error (list ValidatorUpdate) :=
  match vals with
  | [] => Ok []
  | v :: vals =>
      match ConsPubKey v with
      | Ok pk => rest ← abci_updates vals; Ok ({| vu_PubKey := pk; vu_Power := iv_Power v |} :: rest)
      | _ => Panic
      end
  end.

Definition MustGetCurrentValidatorsAsABCIUpdates (s : ValidatorState)
    : result error (list ValidatorUpdate) := abci_updates (GetAllImuachainValidators s).

(** ** Historical information *)

Definition GetHistoricalInfo (height : Z) : M ValidatorState E (option HistoricalInfo) :=
  with_key (HistoricalInfoKey height) (λ key, gets (λ s, historicalInfos s !! key)).
Definition SetHistoricalInfo (height : Z) (hi : HistoricalInfo) : M ValidatorState E unit :=
  with_key (HistoricalInfoKey height) (λ key, modify (set_historicalInfos (insert key hi))).
Definition DeleteHistoricalInfo (height : Z) : M ValidatorState E unit :=
  with_key (HistoricalInfoKey height) (λ key, modify (set_historicalInfos (delete key))).

(** The loop from the height [i] down to 0, which stops at the first height
    without an entry; [fuel] bounds the iterations. *)
Fixpoint prune_historical (fuel : nat) (i : Z) : M ValidatorState E unit :=
  match fuel with
  | O => mret tt
  | S fuel =>
      if i <? 0 then mret tt
      else
        found ← GetHistoricalInfo i;
        match found with
        | Some _ => _ ← DeleteHistoricalInfo i; prune_historical fuel (i - 1)
        | None => mret tt
        end
  end.

(** A validator whose key cannot be read or packed again is left out. *)
Definition historical_validators (vals : list ImuachainValidator) : list (string * Int) :=
  omap (λ v, match ConsPubKey v with
             | Ok pk => pk' ← NewAnyWithValue pk;
                      Some (pk', TokensFromConsensusPower (iv_Power v) DefaultPowerReduction)
             | _ => None
             end) vals.

Definition TrackHistoricalInfo (ctx : Ctx) : M DogfoodState E unit :=
  numHistoricalEntries ← gets GetHistoricalEntries;
  let start := BlockHeight ctx - numHistoricalEntries in
  _ ← on_vals (prune_historical (Z.to_nat (start + 1)) start);
  if numHistoricalEntries =? 0 then mret tt
  else
    lastVals ← gets (λ s, historical_validators (GetAllImuachainValidators (ds_vals s)));
    on_vals (SetHistoricalInfo (BlockHeight ctx)
      {| hi_Header := ctx; hi_Valset := SortByVotingPower lastVals |}).
End Validators.

(** ** The historical information of x/dogfood (TrackHistoricalInfo of keeper/validators.go)

    At the beginning of every block the header and the validators are stored under the
    height, and the entries that are too old are removed.  The loop that removes them
    ends, and exactly the last [HistoricalEntries] heights are kept. *)

Section History.
Context `{SdkLaws} {chain : ChainSdk}.
Implicit Types (s : ValidatorState) (d : DogfoodState) (i h lo : Z).

Definition info_at s h : option HistoricalInfo := historicalInfos s !! Uint64ToBigEndian h.

Lemma height_key h : is_number h → HistoricalInfoKey h = Some (Uint64ToBigEndian h).
Proof. intros [? _]. unfold HistoricalInfoKey. by rewrite SafeInt64ToUint64_pos. Qed.

Lemma height_key_ne h h' : is_number h → is_number h' → h ≠ h' → Uint64ToBigEndian h ≠ Uint64ToBigEndian h'.
Proof. intros ? ? Hne Heq. by apply Hne, u64_inj. Qed.

(** ** The loop *)

(** The loop that removes old entries ends by itself: from the height [i] downwards it makes at
    most [i + 1] iterations, so any larger bound gives the same result on every store. *)
Theorem prune_historical_terminates fuel i s :
  (Z.to_nat (i + 1) ≤ fuel)%nat →
  prune_historical (E := error) fuel i s = prune_historical (Z.to_nat (i + 1)) i s.
Proof.
  revert i s. induction fuel as [|fuel IH]; intros i s Hle.
  { by replace (Z.to_nat (i + 1)) with 0%nat by lia. }
  destruct (Z.ltb_spec i 0) as [Hneg|Hpos].
  - replace (Z.to_nat (i + 1)) with 0%nat by lia. cbn [prune_historical].
    by destruct (Z.ltb_spec i 0); [|lia].
  - replace (Z.to_nat (i + 1)) with (S (Z.to_nat (i - 1 + 1))) by lia. cbn [prune_historical].
    destruct (Z.ltb_spec i 0); [lia|]. unfold mbind, M_bind.
    destruct (GetHistoricalInfo i s) as [[[info|]| |] s1]; [|done..].
    destruct (DeleteHistoricalInfo i s1) as [[| |] s2]; [|done..]. apply IH. lia.
Qed.

(** Only the historical information changes. *)
Definition with_history s (m : gmap string HistoricalInfo) : ValidatorState := set_historicalInfos (λ _, m) s.

Lemma prune_historical_run i lo s :
  i < 2 ^ 63 → (∀ h, 0 ≤ h ≤ i → is_Some (info_at s h) ↔ lo ≤ h) →
  ∃ m, prune_historical (E := error) (Z.to_nat (i + 1)) i s = (Ok tt, with_history s m) ∧
    ∀ h, is_number h → m !! Uint64ToBigEndian h = if decide (h ≤ i) then None else info_at s h.
Proof.
  intros Hi. remember (Z.to_nat (i + 1)) as n eqn:Hn. revert i s Hi Hn.
  induction n as [|n IH]; intros i s Hi Hn Hs.
  { exists (historicalInfos s). split; [by destruct s|]. intros h [? _]. by rewrite decide_False by lia. }
  assert (Hnum : is_number i) by (unfold is_number; lia). cbn [prune_historical].
  destruct (Z.ltb_spec i 0); [lia|]. unfold GetHistoricalInfo, DeleteHistoricalInfo, with_key.
  rewrite height_key by done. unfold mbind, M_bind, gets, modify. cbn [fst snd]. fold (info_at s i).
  destruct (info_at s i) as [info|] eqn:Hfound.
  - assert (Hlo : lo ≤ i) by (apply Hs; [lia|by rewrite Hfound]).
    destruct (IH (i - 1) (set_historicalInfos (delete (Uint64ToBigEndian i)) s)) as (m & Hrun & Hm); [lia|lia| |].
    { intros h Hh. rewrite <-(Hs h) by lia. unfold info_at. cbn.
      rewrite lookup_delete_ne; [done|]. apply height_key_ne; [done|unfold is_number in *; lia|lia]. }
    exists m. rewrite Hrun. split; [done|]. intros h Hh. rewrite Hm by done. unfold info_at. cbn.
    destruct (decide (h = i)) as [->|Hne].
    + rewrite (decide_False (P := i ≤ i - 1)), decide_True, lookup_delete_eq by lia. done.
    + rewrite lookup_delete_ne by by apply height_key_ne. repeat decide_goal; lia || done.
  - assert (Hlo : ¬ lo ≤ i) by (rewrite <-(Hs i) by lia; rewrite Hfound; by intros []).
    exists (historicalInfos s). split; [by destruct s|]. intros h Hh. decide_goal; [|done].
    apply eq_None_not_Some. intros Hsome. apply Hlo. transitivity h; [|done].
    apply Hs; [unfold is_number in *; lia|exact Hsome].
Qed.

(** ** A block *)

(** The heights that are stored. *)
Definition stored_heights s lo hi : Prop := ∀ h, is_number h → is_Some (info_at s h) ↔ lo ≤ h < hi.

(** C31.  At the height [h] with [n] entries to keep, at least one, and the heights from [lo] on stored, the block
    stores its header with the validators and keeps exactly the last [n] heights: the older ones are
    removed, the others are unchanged, and nothing else of the module changes. *)
Theorem TrackHistoricalInfo_keeps_last ctx d lo :
  let h := BlockHeight ctx in let n := GetHistoricalEntries d in
  is_number h → 1 ≤ n → lo ≤ h → stored_heights (ds_vals d) lo h →
  ∃ m, TrackHistoricalInfo (E := error) ctx d = (Ok tt, put_vals (with_history (ds_vals d) m) d) ∧
    stored_heights (with_history (ds_vals d) m) (lo `max` (h - n + 1)) (h + 1) ∧
    (∀ h', is_number h' → h - n < h' < h → m !! Uint64ToBigEndian h' = info_at (ds_vals d) h') ∧
    m !! Uint64ToBigEndian h = Some {| hi_Header := ctx;
      hi_Valset := SortByVotingPower (historical_validators (GetAllImuachainValidators (ds_vals d))) |}.
Proof.
  intros h n Hh Hn Hlo Hs. unfold is_number in Hh.
  destruct (prune_historical_run (h - n) lo (ds_vals d)) as (m & Hrun & Hm); [lia| |].
  { intros h' Hh'. rewrite (Hs h') by (unfold is_number; lia). lia. }
  set (info := {| hi_Header := ctx; hi_Valset := _ |}).
  exists (<[Uint64ToBigEndian h := info]> m). split_and!.
  - unfold TrackHistoricalInfo, mbind, M_bind, gets, on_vals, zoom. fold h n. rewrite Hrun.
    destruct (Z.eqb_spec n 0); [lia|]. unfold SetHistoricalInfo, with_key. rewrite height_key by done. done.
  - intros h' Hh'. unfold info_at. cbn. destruct (decide (h' = h)) as [->|Hne].
    + rewrite lookup_insert_eq. split; [lia|by eexists].
    + rewrite lookup_insert_ne by (apply height_key_ne; [done..|congruence]). rewrite Hm by done.
      decide_goal; [split; [by intros []|lia]|]. rewrite (Hs h') by done. lia.
  - intros h' Hh' Hr. rewrite lookup_insert_ne by (apply height_key_ne; [done..|lia]).
    rewrite Hm, decide_False by (done || lia). done.
  - by rewrite lookup_insert_eq.
Qed.
End History.
