(* ===== verification/DogfoodKeepers.v ===== *)
(** * What x/dogfood expects of the other modules (types/expected_keepers.go, types/hooks.go)

    The state of x/dogfood lives beside the state [R] of the modules that remain:
    x/slashing of cosmos-sdk, x/epochs, x/avs, x/oracle and x/feedistribution.  The
    class [SlashingKeeper] lists what is called of x/slashing (DogfoodProps.v states
    its documented behaviour), [AVSKeeper] what is called of x/avs. *)

From S2P Require Import Prelude Errors Sdk RefSdk KVStore Epochs DelegationTypes Assets.
From S2P Require Import DelegationStore UndelegationStore Delegation OperatorTypes.
From S2P Require Import OperatorStore OperatorSnapshot OperatorKeepers OperatorUnbonding OperatorUSD.
From S2P Require Import OperatorKeys ChainUtils DogfoodTypes DogfoodStore.

(** ** x/slashing *)

(** [slashingtypes.ValidatorSigningInfo] *)
Record ValidatorSigningInfo := {
  si_Address : string;
  si_StartHeight : Z;
  si_IndexOffset : Z;
  si_JailedUntil : Z;
  si_Tombstoned : bool;
  si_MissedBlocksCounter : Z;
}.

(** The hooks of the module.  [AfterValidatorCreated] asks x/dogfood for the validator
    of the address, and is given the answer. *)
Record DogfoodHooks (R : Type) := {
  AfterValidatorBonded : Ctx → string → M R error unit;
  AfterValidatorRemoved : Ctx → string → M R error unit;
  AfterValidatorCreated : Ctx → string → result error (option StakingValidator) → M R error unit;
}.
Arguments AfterValidatorBonded {R}.
Arguments AfterValidatorRemoved {R}.
Arguments AfterValidatorCreated {R}.

Definition MultiDogfoodHooks {R} (hooks : list (DogfoodHooks R)) : DogfoodHooks R := {|
  AfterValidatorBonded := λ ctx consAddr,
    for_each hooks (λ hook, AfterValidatorBonded hook ctx consAddr);
  AfterValidatorRemoved := λ ctx consAddr,
    for_each hooks (λ hook, AfterValidatorRemoved hook ctx consAddr);
  AfterValidatorCreated := λ ctx operator validator,
    for_each hooks (λ hook, AfterValidatorCreated hook ctx operator validator);
|}.

Class SlashingKeeper (R : Type) := {
  GetValidatorSigningInfo : R → string → option ValidatorSigningInfo;
  SetValidatorSigningInfo : string → ValidatorSigningInfo → R → R;
  (** the bit of an index *)
  GetValidatorMissedBlockBitArray : R → string → Z → bool;
  SetValidatorMissedBlockBitArray : string → Z → bool → R → R;
  ClearValidatorMissedBlockBitArray : string → R → R;
  ResetValidatorSigningInfo : string → R → R;
  IsTombstoned : R → string → bool;
  DowntimeJailDuration : R → Z;
  (** [evidencetypes.DoubleSignJailEndTime] *)
  DoubleSignJailEndTime : Z;
  (** the hooks that the application registers with x/dogfood *)
  dogfoodHooks : list (DogfoodHooks R);
}.

(** ** x/avs *)

(** [avstypes.AVSRegisterOrDeregisterParams], as far as x/dogfood fills it in. *)
Record ChainAVSParams := {
  ca_AvsName : string;
  ca_AssetIDs : list string;
  ca_UnbondingPeriod : Z;
  ca_MinSelfDelegation : Z;
  ca_EpochIdentifier : string;
  ca_ChainID : string;
}.

Class AVSKeeper (R : Type) := {
  (** whether the AVS existed, and its address *)
  RegisterAVSWithChainID : AssetsState → ChainAVSParams → M (OperatorExt R) error (bool * string);
  (** the address of the AVS, and [UpdateAction] *)
  UpdateAVSInfo : AssetsState → string → ChainAVSParams → M (OperatorExt R) error unit;
}.

(** ** The state *)

Record DogfoodExt (R : Type) := { de_dogfood : DogfoodState; de_rest : R }.
Arguments Build_DogfoodExt {R}.
Arguments de_dogfood {R}.
Arguments de_rest {R}.

Section Lenses.
Context {B R E A : Type}.
Abbreviation Y := (DogfoodExt R).
Abbreviation W := (World B (OperatorExt Y)).

Definition put_dogfood (d : DogfoodState) (y : Y) : Y := {| de_dogfood := d; de_rest := de_rest y |}.
Definition put_others (r : R) (y : Y) : Y := {| de_dogfood := de_dogfood y; de_rest := r |}.

(** A method of a part of the module, on the state of the module and the rest. *)
Definition dogfood_of (m : M DogfoodState E A) : M Y E A := zoom de_dogfood put_dogfood m.
Definition queues_of (m : M QueueState E A) : M Y E A := dogfood_of (on_queues m).
Definition vals_of (m : M ValidatorState E A) : M Y E A := dogfood_of (on_vals m).
Definition others_of (m : M R E A) : M Y E A := zoom de_rest put_others m.

(** The same on the world. *)
Definition w_dogfood (w : W) : DogfoodState := de_dogfood (w_rest w).
Definition w_others (w : W) : R := de_rest (w_rest w).
Definition w_vals (w : W) : ValidatorState := ds_vals (w_dogfood w).
Definition w_queues (w : W) : QueueState := ds_queues (w_dogfood w).

(** A method of x/operator that does not see x/dogfood. *)
Definition drop_dogfood (x : OperatorExt Y) : OperatorExt R :=
  {| oe_operator := oe_operator x; oe_rest := de_rest (oe_rest x) |}.
Definition put_dropped (x' : OperatorExt R) (x : OperatorExt Y) : OperatorExt Y :=
  {| oe_operator := oe_operator x'; oe_rest := put_others (oe_rest x') (oe_rest x) |}.
Definition below_dogfood (m : M (OperatorExt R) error A) : M (OperatorExt Y) error A :=
  zoom drop_dogfood put_dropped m.
End Lenses.
