(* ===== verification/DogfoodHooks.v ===== *)
(** * The hooks of x/dogfood (keeper/impl_operator_hooks.go, impl_epochs_hooks.go, unbonding.go)

    x/operator tells x/dogfood when a consensus key is set, replaced or removed and
    when an operator is slashed or jailed; x/epochs tells it when an epoch ends.  The
    instance [dogfood_others] gives x/operator these hooks, followed by those of the
    modules below. *)

From S2P Require Import Prelude Errors Sdk RefSdk KVStore Epochs DelegationTypes Assets.
From S2P Require Import DelegationStore UndelegationStore Delegation OperatorTypes.
From S2P Require Import OperatorStore OperatorSnapshot OperatorKeepers OperatorUnbonding OperatorUSD.
From S2P Require Import OperatorVotingPower OperatorKeys OperatorSlash OperatorSlashSafety.
From S2P Require Import ChainUtils DogfoodTypes DogfoodStore DogfoodKeepers.

(** [stakingtypes.Infraction] *)
Definition INFRACTION_UNSPECIFIED : Z := 0.
Definition INFRACTION_DOUBLE_SIGN : Z := 1.
Definition INFRACTION_DOWNTIME : Z := 2.

(** [time.Unix(0, 0)], in nanoseconds since the zero [time.Time] *)
Definition UnixEpoch : Z := 62135596800 * 10 ^ 9.

Section Hooks.
Context {sdk : Sdk} {chain : ChainSdk} {R : Type} {ot : Others R} {sk : SlashingKeeper R}.
(** The context of the call: the header, and the identifier of the chain. *)
Context (ctx : Ctx) (ChainID : string).
Abbreviation Y := (DogfoodExt R).

(** ** Signing information (impl_sdk.go) *)

Definition NewValidatorSigningInfo (consAddr : string) (startHeight indexOffset jailedUntil : Z)
    (tombstoned : bool) (missedBlocksCounter : Z) : ValidatorSigningInfo := {|
  si_Address := ConsAddress_String consAddr; si_StartHeight := startHeight;
  si_IndexOffset := indexOffset; si_JailedUntil := jailedUntil; si_Tombstoned := tombstoned;
  si_MissedBlocksCounter := missedBlocksCounter |}.

Definition copied_info (newConsAddr : string) (found : option ValidatorSigningInfo)
    : ValidatorSigningInfo :=
  match found with
  | Some info =>
      NewValidatorSigningInfo newConsAddr (si_StartHeight info) (si_IndexOffset info)
        (si_JailedUntil info) (si_Tombstoned info) (si_MissedBlocksCounter info)
  | None => NewValidatorSigningInfo newConsAddr (BlockHeight ctx) 0 UnixEpoch false 0
  end.

(** [for i := int64(0); i < n; i++] *)
Definition set_missed (consAddr : string) (n : Z) (r : R) : R :=
  foldl (λ r i, SetValidatorMissedBlockBitArray consAddr i true r) r (seqZ 0 n).

Definition CopyValidatorSigningInfo (oldConsAddr newConsAddr : string) (infraction : Z) (r : R) : R :=
  let info := copied_info newConsAddr (GetValidatorSigningInfo r oldConsAddr) in
  let '(info, r) :=
    if infraction =? INFRACTION_DOUBLE_SIGN then
      ({| si_Address := si_Address info; si_StartHeight := si_StartHeight info;
          si_IndexOffset := si_IndexOffset info; si_JailedUntil := DoubleSignJailEndTime;
          si_Tombstoned := true; si_MissedBlocksCounter := si_MissedBlocksCounter info |}, r)
    else if infraction =? INFRACTION_DOWNTIME then
      ({| si_Address := si_Address info; si_StartHeight := si_StartHeight info;
          si_IndexOffset := 0; si_JailedUntil := BlockTime ctx + DowntimeJailDuration r;
          si_Tombstoned := si_Tombstoned info; si_MissedBlocksCounter := 0 |},
       ClearValidatorMissedBlockBitArray newConsAddr r)
    else if infraction =? INFRACTION_UNSPECIFIED then
      ({| si_Address := si_Address info; si_StartHeight := si_StartHeight info;
          si_IndexOffset := 0; si_JailedUntil := si_JailedUntil info;
          si_Tombstoned := si_Tombstoned info;
          si_MissedBlocksCounter := si_MissedBlocksCounter info |},
       set_missed newConsAddr (si_MissedBlocksCounter info)
         (ClearValidatorMissedBlockBitArray newConsAddr r))
    else (info, r) in
  SetValidatorSigningInfo newConsAddr info r.

(** ** Scheduling (unbonding.go, opt_out.go) *)

Section Scheduling.
Context {E : Type}.

Definition GetUnbondingCompletionEpoch : M Y E Z :=
  params ← gets (λ y, GetDogfoodParams (de_dogfood y));
  epochInfo ← gets (λ y, GetEpochInfo (dp_EpochIdentifier params) (y_epochs (de_rest y)));
  match epochInfo with
  | None => panic
  | Some epochInfo => mret (wrap_int64 (ei_CurrentEpoch epochInfo + dp_EpochsUntilUnbonded params))
  end.

Definition ScheduleOperatorOptOut (addr consAddr : string) : M Y E unit :=
  unbondingCompletionEpoch ← GetUnbondingCompletionEpoch;
  _ ← queues_of (AppendOptOutToFinish unbondingCompletionEpoch addr);
  _ ← queues_of (SetOperatorOptOutFinishEpoch addr unbondingCompletionEpoch);
  queues_of (AppendConsensusAddrToPrune unbondingCompletionEpoch consAddr).
End Scheduling.

(** ** The validator of an address (validators.go) *)

(** The state that the operator keeper reads. *)
Definition operator_view (o : OperatorState) (y : Y) : OperatorExt R :=
  {| oe_operator := o; oe_rest := de_rest y |}.

Definition GetValidator (valAddr : string) (a : AssetsState) (x : OperatorExt R)
    : result error (option StakingValidator) :=
  let chainID := ChainIDWithoutRevision ChainID in
  match GetOperatorConsKeyForChainID valAddr chainID x with
  | Ok (Some wrappedKey) =>
      ValidatorByConsAddrForChainID DefaultPowerReduction (ToConsAddr wrappedKey) chainID a x
  | Panic => Panic
  | _ => Ok None
  end.

(** ** The hooks of x/operator *)

Definition Hooks : DogfoodHooks R := MultiDogfoodHooks dogfoodHooks.

Definition afterValidatorCreated (a : AssetsState) (o : OperatorState) (accAddress : string)
    : M Y error unit :=
  cached (
    validator ← gets (λ y, GetValidator accAddress a (operator_view o y));
    others_of (AfterValidatorCreated Hooks ctx accAddress validator)).

Definition is_this_chain (chainID : string) : bool :=
  bool_decide (chainID = ChainIDWithoutRevision ChainID).

Definition dogfood_AfterOperatorKeySet (a : AssetsState) (o : OperatorState)
    (accAddress chainID wrappedKey : string) : M Y error unit :=
  if is_this_chain chainID then
    _ ← afterValidatorCreated a o accAddress;
    tombstoned ← gets (λ y, IsTombstoned (de_rest y) (ToConsAddr wrappedKey));
    fail_if tombstoned dogfoodtypes.ErrConsKeyAlreadyTombstoned
  else mret tt.

Definition dogfood_AfterOperatorKeyReplaced (a : AssetsState) (o : OperatorState)
    (accAddress oldKey newKey chainID : string) : M Y error unit :=
  if is_this_chain chainID then
    _ ← afterValidatorCreated a o accAddress;
    let newConsAddr := ToConsAddr newKey in
    tombstoned ← gets (λ y, IsTombstoned (de_rest y) newConsAddr);
    _ ← fail_if tombstoned dogfoodtypes.ErrConsKeyAlreadyTombstoned;
    let oldConsAddr := ToConsAddr oldKey in
    unbondingEpoch ← GetUnbondingCompletionEpoch;
    _ ← queues_of (AppendConsensusAddrToPrune unbondingEpoch oldConsAddr);
    others_of (modify (CopyValidatorSigningInfo oldConsAddr newConsAddr INFRACTION_UNSPECIFIED))
  else mret tt.

Definition dogfood_AfterOperatorKeyRemovalInitiated (operator chainID key : string)
    : M Y Empty_set unit :=
  if is_this_chain chainID then ScheduleOperatorOptOut operator (ToConsAddr key) else mret tt.

(** The loop over the affected AVSs stops at the first one that is this chain. *)
Definition afterStakingOrJailChange (o : OperatorState) (operator : string) (isUnjail : bool)
    (affectedAVSList : list string) : M Y Empty_set unit :=
  let chainIDWithoutRevision := ChainIDWithoutRevision ChainID in
  let dogfoodAVSAddr := GenerateAVSAddress chainIDWithoutRevision in
  if bool_decide (dogfoodAVSAddr ∈ affectedAVSList) then
    key ← gets (λ y, GetOperatorConsKeyForChainID operator chainIDWithoutRevision (operator_view o y));
    match key with
    | Ok (Some wrappedKey) =>
        isValidator ← gets (λ y,
          is_some (GetImuachainValidator (ToConsAddr wrappedKey) (ds_vals (de_dogfood y))));
        if isUnjail || isValidator then dogfood_of (modify MarkUpdateValidatorSetFlag) else mret tt
    | _ => mret tt
    end
  else mret tt.

(** ** The hook of x/epochs *)

Definition dogfood_AfterEpochEnd (identifier : string) (epoch : Z) : M DogfoodState Empty_set unit :=
  ident ← gets GetEpochIdentifier;
  if bool_decide (identifier = ident) then
    _ ← modify MarkUpdateValidatorSetFlag;
    optOuts ← on_queues (GetOptOutsToFinish epoch);
    _ ← on_queues (modify (SetPendingOptOuts optOuts));
    _ ← for_each optOuts (λ addr, on_queues (DeleteOperatorOptOutFinishEpoch addr));
    _ ← on_queues (ClearOptOutsToFinish epoch);
    consAddresses ← on_queues (GetConsensusAddrsToPrune epoch);
    _ ← on_queues (modify (SetPendingConsensusAddrs consAddresses));
    on_queues (ClearConsensusAddrsToPrune epoch)
  else mret tt.

(** ** The other modules, as x/operator sees them *)

(** A hook of the modules below. *)
Definition then_below {E} (m : M Y E unit) (below : M R E unit) : M Y E unit :=
  _ ← m; others_of below.

Definition dogfood_others : Others Y := {|
  y_epochs y := y_epochs (de_rest y);
  GetAVSSupportedAssets a y := GetAVSSupportedAssets a (de_rest y);
  GetAVSSlashContract y := GetAVSSlashContract (de_rest y);
  GetChainIDByAVSAddr y := GetChainIDByAVSAddr (de_rest y);
  GetAVSMinimumSelfDelegation y := GetAVSMinimumSelfDelegation (de_rest y);
  GetEpochEndAVSs y := GetEpochEndAVSs (de_rest y);
  IsAVS y := IsAVS (de_rest y);
  IsAVSByChainID y := IsAVSByChainID (de_rest y);
  GetAVSEpochInfo y := GetAVSEpochInfo (de_rest y);
  GetAVSUnbondingDuration y := GetAVSUnbondingDuration (de_rest y);
  IsWhitelisted y := IsWhitelisted (de_rest y);
  GetAVSAssetsList y := GetAVSAssetsList (de_rest y);
  GetSpecifiedAssetsPrice y := GetSpecifiedAssetsPrice (de_rest y);
  GetMultipleAssetsPrices y := GetMultipleAssetsPrices (de_rest y);
  SlashRewardUndelegation r p := others_of (SlashRewardUndelegation r p);
  UpdateAllRewardsUSDForOperator a avs op assets :=
    below_dogfood (UpdateAllRewardsUSDForOperator a avs op assets);
  OperatorTotalRewardsUSDValue a y := OperatorTotalRewardsUSDValue a (de_rest y);
  SlashOperatorUnclaimedRewards op src p := others_of (SlashOperatorUnclaimedRewards op src p);
  AfterOperatorKeySet a o acc ch key :=
    then_below (dogfood_AfterOperatorKeySet a o acc ch key) (AfterOperatorKeySet a o acc ch key);
  AfterOperatorKeyReplaced a o acc old new ch :=
    then_below (dogfood_AfterOperatorKeyReplaced a o acc old new ch)
      (AfterOperatorKeyReplaced a o acc old new ch);
  AfterOperatorKeyRemovalInitiated o op ch key :=
    then_below (dogfood_AfterOperatorKeyRemovalInitiated op ch key)
      (AfterOperatorKeyRemovalInitiated o op ch key);
  AfterSlash o op p avss assets rewards :=
    then_below (afterStakingOrJailChange o op false avss) (AfterSlash o op p avss assets rewards);
  AfterJail o op isUnjail avss :=
    then_below (afterStakingOrJailChange o op isUnjail avss) (AfterJail o op isUnjail avss);
|}.
End Hooks.

#[global] Arguments Hooks : simpl never.
