(* ===== verification/DogfoodEndBlock.v ===== *)
(** * The blocks of x/dogfood (keeper/abci.go, ApplyValidatorChanges of keeper/validators.go)

    At the end of a block that was marked, the opt-outs and the consensus addresses
    that have matured are completed, the active operators are sorted by their power
    and the changes of the validator set are stored and handed to the consensus
    engine. *)

From S2P Require Import Prelude Errors Sdk RefSdk KVStore Epochs DelegationTypes Assets.
From S2P Require Import DelegationStore UndelegationStore Delegation OperatorTypes.
From S2P Require Import OperatorStore OperatorSnapshot OperatorKeepers OperatorUnbonding OperatorUSD.
From S2P Require Import OperatorVotingPower OperatorKeys OperatorSlash OperatorSlashSafety.
From S2P Require Import ChainUtils DogfoodTypes DogfoodStore DogfoodKeepers DogfoodHooks.

(** ** Collecting the elements that fail *)

Fixpoint collect_failures {S E A} (f : A → M S E unit) (l : list A) : M S E (list A) :=
  match l with
  | [] => mret []
  | x :: l => λ s,
      match f x s with
      | (Ok _, s') => collect_failures f l s'
      | (Err _, s') => (failed ← collect_failures f l; mret (x :: failed)) s'
      | (Panic, s') => (Panic, s')
      end
  end.

(** ** The order of the updates *)

Section Updates.
Context {sdk : Sdk} {chain : ChainSdk}.

(** Descending power, then descending string of the key. *)
Definition update_le : relation ValidatorUpdate := λ a b,
  vu_Power b < vu_Power a ∨
  (vu_Power a = vu_Power b ∧ String.le (PublicKey_String (vu_PubKey b)) (PublicKey_String (vu_PubKey a))).

#[global] Instance update_le_dec : RelDecision update_le.
Proof. intros a b. unfold update_le. apply _. Defined.
#[global] Instance update_le_trans : Transitive update_le.
Proof.
  intros a b c [H1|[E1 H1]] [H2|[E2 H2]]; unfold update_le; [left; lia..|right].
  split; [lia|by etransitivity].
Qed.
#[global] Instance update_le_total : Total update_le.
Proof.
  intros a b. unfold update_le.
  destruct (Z.lt_trichotomy (vu_Power a) (vu_Power b)) as [?|[?|?]]; [tauto| |tauto].
  destruct (total String.le (PublicKey_String (vu_PubKey b)) (PublicKey_String (vu_PubKey a)));
    [left|right]; auto.
Qed.

(** ** The changes of the validator set *)

(** The powers of the previous validators by consensus address. *)
Definition prev_powers (prevList : list ImuachainValidator) : gmap string Z :=
  foldl (λ prevMap v,
    match ConsPubKey v with
    | Ok pubKey => <[ConsAddress_String (GetConsAddress pubKey) := iv_Power v]> prevMap
    | _ => prevMap
    end) ∅ prevList.

(** The loop over the sorted operators: what is left of the previous powers, the
    changes, and the total power. *)
Fixpoint power_loop (maxVals i : Z) (l : list (string * string * Z)) (prevMap : gmap string Z)
    (res : list KeyWithPower) (totalPower : Int)
    : gmap string Z * list KeyWithPower * Int :=
  match l with
  | [] => (prevMap, res, totalPower)
  | (_, wrappedKey, power) :: l =>
      if maxVals <=? i then (prevMap, res, totalPower)
      else if power <? 1 then (prevMap, res, totalPower)
      else
        let addressString := ConsAddress_String (ToConsAddr wrappedKey) in
        let update := {| kp_Key := wrappedKey; kp_Power := power |} in
        match prevMap !! addressString with
        | Some prevPower =>
            power_loop maxVals (i + 1) l (delete addressString prevMap)
              (if negb (prevPower =? power) then res ++ [update] else res) (totalPower + power)
        | None =>
            power_loop maxVals (i + 1) l prevMap (res ++ [update]) (totalPower + power)
        end
  end.

(** The previous validators that are left get the power 0.  A key that cannot be
    read is nil, whose address panics. *)
Fixpoint removed_validators (prevMap : gmap string Z) (prevList : list ImuachainValidator)
    : result error (list KeyWithPower) :=
  match prevList with
  | [] => Ok []
  | v :: prevList =>
      match ConsPubKey v with
      | Ok pubKey =>
          rest ← removed_validators prevMap prevList;
          Ok (if is_some (prevMap !! ConsAddress_String (GetConsAddress pubKey))
              then {| kp_Key := pubKey; kp_Power := 0 |} :: rest else rest)
      | _ => Panic
      end
  end.
End Updates.

Section Dogfood.
Context {sdk : Sdk} {chain : ChainSdk} {B R : Type} {ot : Others R} {sk : SlashingKeeper R}.
Context (ctx : Ctx) (ChainID : string).
Abbreviation Y := (DogfoodExt R).
Abbreviation W := (World B (OperatorExt Y)).

(** ** ApplyValidatorChanges *)

Definition with_power (val : ImuachainValidator) (power : Z) : ImuachainValidator :=
  {| iv_Address := iv_Address val; iv_Power := power; iv_Pubkey := iv_Pubkey val |}.

(** A new validator; [false] when its key or a hook fails, which leaves the stores as
    they were. *)
Definition bond_validator (addr : string) (change : KeyWithPower) : M Y error bool :=
  match NewImuachainValidator addr (kp_Power change) (kp_Key change) with
  | Ok icVal => λ y,
      match cached (_ ← vals_of (SetImuachainValidator icVal);
                    others_of (AfterValidatorBonded Hooks ctx addr)) y with
      | (Ok _, y') => (Ok true, y')
      | (Err _, y') => (Ok false, y')
      | (Panic, y') => (Panic, y')
      end
  | _ => mret false
  end.

(** Whether the change is forwarded. *)
Definition apply_change (change : KeyWithPower) : M Y error bool :=
  let addr := ToConsAddr (kp_Key change) in
  found ← gets (λ y, GetImuachainValidator addr (ds_vals (de_dogfood y)));
  match found with
  | Some val =>
      _ ← (if kp_Power change <? 1 then vals_of (DeleteImuachainValidator addr)
           else vals_of (SetImuachainValidator (with_power val (kp_Power change))));
      mret true
  | None => if 0 <? kp_Power change then bond_validator addr change else mret false
  end.

Fixpoint apply_changes (changes : list KeyWithPower) : M Y error (list ValidatorUpdate) :=
  match changes with
  | [] => mret []
  | change :: changes =>
      forwarded ← apply_change change;
      rest ← apply_changes changes;
      mret (if (forwarded : bool)
            then {| vu_PubKey := kp_Key change; vu_Power := kp_Power change |} :: rest else rest)
  end.

Definition ApplyValidatorChanges (changes : list KeyWithPower) : M Y error (list ValidatorUpdate) :=
  ret ← apply_changes changes;
  let ret := merge_sort update_le ret in
  _ ← vals_of (SetValidatorUpdates ret);
  mret ret.

(** ** BeginBlock *)

Definition BeginBlock : M DogfoodState error unit :=
  _ ← TrackHistoricalInfo ctx;
  emit ← gets ShouldEmitAvsEvent;
  if (emit : bool) then modify ClearEmitAvsEventFlag else mret tt.

(** ** EndBlock *)

Definition prune_address (chainID consAddr : string) : M W error unit :=
  cached (
    _ ← on_rest (others_of (AfterValidatorRemoved Hooks ctx consAddr));
    _ ← on_keys (DeleteOperatorAddressForChainIDAndConsAddr chainID consAddr);
    _ ← on_rest (others_of (modify (ClearValidatorMissedBlockBitArray consAddr)));
    on_rest (others_of (modify (ResetValidatorSigningInfo consAddr)))).

Definition finish_opt_outs (chainID : string) (nextEpochNumber : Z) : M W error unit :=
  optOuts ← gets (λ w, GetPendingOptOuts (w_queues w));
  failed ← collect_failures (λ addr,
    on_ext (below_dogfood (CompleteOperatorKeyRemovalForChainID addr chainID))) optOuts;
  _ ← for_each failed (λ addr,
        _ ← on_rest (queues_of (AppendOptOutToFinish nextEpochNumber addr));
        on_rest (queues_of (SetOperatorOptOutFinishEpoch addr nextEpochNumber)));
  on_rest (queues_of (modify ClearPendingOptOuts)).

Definition finish_pruning (chainID : string) (nextEpochNumber : Z) : M W error unit :=
  consensusAddrs ← gets (λ w, GetPendingConsensusAddrs (w_queues w));
  failedConsAddrs ← collect_failures (prune_address chainID) consensusAddrs;
  _ ← for_each failedConsAddrs (λ addr,
        on_rest (queues_of (AppendConsensusAddrToPrune nextEpochNumber addr)));
  on_rest (queues_of (modify ClearPendingConsensusAddrs)).

(** What has matured, before the validator set is updated. *)
Definition finish_matured (chainID : string) (nextEpochNumber : Z) : M W error unit :=
  _ ← on_keys (ClearPreviousConsensusKeys chainID);
  _ ← finish_opt_outs chainID nextEpochNumber;
  finish_pruning chainID nextEpochNumber.

(** The active operators with their keys and powers, sorted; [None] is the error of
    the voting powers, which ends the block. *)
Definition sorted_operators (chainID : string) (x : OperatorExt R)
    : result error (option (list (string * string * Z))) :=
  active ← GetActiveOperatorsForChainID chainID x;
  match GetVotePowerForChainID active.*1 chainID x with
  | Ok powers =>
      let '(operators, keys, powers) := SortByPower active.*1 active.*2 powers in
      Ok (Some (zip3 operators keys powers))
  | Err _ => Ok None
  | Panic => Panic
  end.

Definition update_validators (chainID : string) : M W error (list ValidatorUpdate) :=
  prevList ← gets (λ w, GetAllImuachainValidators (w_vals w));
  sorted ← gets (λ w, sorted_operators chainID (drop_dogfood (w_ext w)));
  sorted ← lift_result sorted;
  match sorted with
  | None => mret []
  | Some sorted =>
      maxVals ← gets (λ w, GetMaxValidators (w_dogfood w));
      let '(prevMap, res, totalPower) := power_loop maxVals 0 sorted (prev_powers prevList) [] 0 in
      removed ← lift_result (removed_validators prevMap prevList);
      let res := res ++ removed in
      _ ← (if bool_decide (res = []) then mret tt
           else on_rest (vals_of (SetLastTotalPower totalPower)));
      on_rest (ApplyValidatorChanges res)
  end.

Definition EndBlock : M W error (list ValidatorUpdate) :=
  update ← gets (λ w, ShouldUpdateValidatorSet (w_dogfood w));
  if negb update then
    _ ← on_rest (vals_of (SetValidatorUpdates [])); mret []
  else
    let chainIDWithoutRevision := ChainIDWithoutRevision ChainID in
    epochInfo ← gets (λ w, GetEpochInfo (GetEpochIdentifier (w_dogfood w)) (y_epochs (w_others w)));
    match epochInfo with
    | None => panic
    | Some epochInfo =>
        let nextEpochNumber := wrap_int64 (ei_CurrentEpoch epochInfo + 1) in
        _ ← finish_matured chainIDWithoutRevision nextEpochNumber;
        updates ← update_validators chainIDWithoutRevision;
        _ ← on_rest (dogfood_of (modify ClearValidatorSetUpdateFlag));
        mret updates
    end.
End Dogfood.
