(* ===== verification/DogfoodValidators.v ===== *)
(** * The validator set is the active operators with the highest powers

    The changes that the end of a block computes, their effect on the stored set,
    and the updates that the consensus engine receives. *)

From S2P Require Import Prelude Errors Sdk RefSdk KVStore Epochs DelegationTypes Assets.
From S2P Require Import DelegationStore UndelegationStore Delegation OperatorTypes.
From S2P Require Import OperatorStore OperatorSnapshot OperatorKeepers OperatorUnbonding OperatorUSD.
From S2P Require Import OperatorVotingPower OperatorKeys OperatorSlash OperatorSlashSafety.
From S2P Require Import ChainUtils DogfoodTypes DogfoodStore DogfoodKeepers DogfoodHooks.
From S2P Require Import DogfoodEndBlock.

Lemma filter_none {A} (P : A → Prop) `{!∀ x, Decision (P x)} (l : list A) :
  (∀ x, x ∈ l → ¬ P x) → filter P l = [].
Proof.
  induction l as [|x l IH]; intros HP; [done|].
  rewrite filter_cons_False by (apply HP, list_elem_of_here). apply IH.
  intros y Hy. by apply HP, list_elem_of_further.
Qed.

(** ** Changing a map of powers *)

Section Powers.
Context `{SdkLaws} {chain : ChainSdk} {cl : ChainLaws sdk chain}.
Implicit Types (m : gmap string Z) (c : KeyWithPower).

Definition addr_of c : string := ToConsAddr (kp_Key c).

(** What the consensus engine does with an update: the power 0 removes a validator. *)
Definition apply_power m c : gmap string Z :=
  if kp_Power c <? 1 then delete (addr_of c) m else <[addr_of c := kp_Power c]> m.
Definition apply_powers m (res : list KeyWithPower) : gmap string Z := foldl apply_power m res.

Lemma apply_power_ne m c a : addr_of c ≠ a → apply_power m c !! a = m !! a.
Proof.
  intros Hne. unfold apply_power. destruct (_ <? _); [by rewrite lookup_delete_ne|by rewrite lookup_insert_ne].
Qed.

Lemma apply_power_eq m c :
  apply_power m c !! addr_of c = if kp_Power c <? 1 then None else Some (kp_Power c).
Proof.
  unfold apply_power. destruct (_ <? _); [by rewrite lookup_delete_eq|by rewrite lookup_insert_eq].
Qed.

Lemma apply_powers_notin m res a :
  a ∉ addr_of <$> res → apply_powers m res !! a = m !! a.
Proof.
  revert m. induction res as [|c res IH]; intros m; [done|]. cbn. intros [Hne Hnin]%not_elem_of_cons.
  unfold apply_powers in IH. by rewrite IH, apply_power_ne.
Qed.

Lemma apply_powers_in m res c :
  NoDup (addr_of <$> res) → c ∈ res →
  apply_powers m res !! addr_of c = if kp_Power c <? 1 then None else Some (kp_Power c).
Proof.
  revert m. induction res as [|c' res IH]; intros m; [by intros _ ?%not_elem_of_nil|].
  cbn [fmap list_fmap]. change (apply_powers m (c' :: res)) with (apply_powers (apply_power m c') res).
  intros [Hnin Hnd]%NoDup_cons [<-|Hin]%elem_of_cons.
  - by rewrite apply_powers_notin, apply_power_eq.
  - by apply IH.
Qed.

(** The order of updates of different validators does not matter. *)
Lemma apply_powers_perm m res res' :
  NoDup (addr_of <$> res) → res ≡ₚ res' → apply_powers m res = apply_powers m res'.
Proof.
  intros Hnd Hperm. assert (Hnd' : NoDup (addr_of <$> res')) by by rewrite <-Hperm.
  apply map_eq. intros a. destruct (decide (a ∈ addr_of <$> res)) as [Hin|Hnin].
  - pose proof Hin as (c & -> & Hc)%list_elem_of_fmap.
    rewrite !apply_powers_in; [done..|by rewrite <-Hperm|done|done].
  - rewrite !apply_powers_notin; [done|by rewrite <-Hperm|done].
Qed.

(** ** The operators that are chosen *)

Implicit Types (e : string * string * Z) (l : list (string * string * Z)).

Definition op_addr e : string := ToConsAddr e.1.2.
Definition op_change e : KeyWithPower := {| kp_Key := e.1.2; kp_Power := e.2 |}.

(** The first [n] operators, those with no power left out. *)
Definition top_powers (n : Z) l : list (string * string * Z) :=
  filter (λ e, 1 ≤ e.2) (take (Z.to_nat n) l).

(** What the loop visits before it breaks. *)
Fixpoint visited (maxVals i : Z) l : list (string * string * Z) :=
  match l with
  | [] => []
  | e :: l => if (maxVals <=? i) || (e.2 <? 1) then [] else e :: visited maxVals (i + 1) l
  end.

Lemma visited_top maxVals i l :
  StronglySorted power_le l → visited maxVals i l = top_powers (maxVals - i) l.
Proof.
  intros Hs. revert i. induction Hs as [|e l Hs IH Hall]; intros i; unfold top_powers.
  { by rewrite take_nil. }
  cbn [visited]. destruct (Z.leb_spec maxVals i); cbn [orb].
  { by rewrite Z2Nat.nonpos by lia. }
  destruct (Z.ltb_spec e.2 1) as [Hlow|Hlow].
  - symmetry. apply filter_none. intros e' (k & Hk & _)%elem_of_take Hp.
    apply list_elem_of_lookup_2 in Hk. apply elem_of_cons in Hk as [->|Hin]; [lia|]. rewrite Forall_forall in Hall.
    destruct (Hall _ Hin) as [?|[? _]]; lia.
  - replace (Z.to_nat (maxVals - i)) with (S (Z.to_nat (maxVals - (i + 1)))) by lia. cbn [take].
    rewrite filter_cons_True by done. by rewrite IH.
Qed.

Definition changes (pm : gmap string Z) l : list KeyWithPower :=
  omap (λ e, if bool_decide (pm !! ConsAddress_String (op_addr e) = Some e.2) then None
             else Some (op_change e)) l.
Definition drop_addrs (pm : gmap string Z) l : gmap string Z :=
  foldl (λ pm e, delete (ConsAddress_String (op_addr e)) pm) pm l.
Definition total_power l : Z := foldr (λ e t, e.2 + t) 0 l.

(** The bech32 form tells the consensus addresses apart. *)
Lemma cons_string_inj k k' :
  ConsAddress_String (ToConsAddr k) = ConsAddress_String (ToConsAddr k') → ToConsAddr k = ToConsAddr k'.
Proof.
  intros Heq. apply (f_equal ConsAddressFromBech32) in Heq.
  assert (Hv : ∀ k, valid_addr (ToConsAddr k)).
  { intros k0. split; [intros Hempty; pose proof (cons_address_length k0) as Hl; unfold ToConsAddr in Hempty;
      by rewrite Hempty in Hl|unfold ToConsAddr; rewrite cons_address_length; lia]. }
  rewrite !cons_bech32_roundtrip in Heq by apply Hv. by injection Heq.
Qed.

Lemma changes_delete pm e l :
  op_addr e ∉ op_addr <$> l → changes (delete (ConsAddress_String (op_addr e)) pm) l = changes pm l.
Proof.
  intros Hnin. unfold changes. apply list_omap_ext, Forall2_same_length_lookup_2; [done|].
  intros i e1 e2 H1 H2. assert (e1 = e2) as -> by congruence. rewrite lookup_delete_ne; [done|].
  intros Heq%cons_string_inj. apply Hnin. apply list_elem_of_fmap. exists e2. split; [done|].
  by eapply list_elem_of_lookup_2.
Qed.

Lemma power_loop_spec maxVals i l pm res total :
  NoDup (op_addr <$> visited maxVals i l) →
  power_loop maxVals i l pm res total =
    (drop_addrs pm (visited maxVals i l), res ++ changes pm (visited maxVals i l),
     total + total_power (visited maxVals i l)).
Proof.
  revert i pm res total. induction l as [|[[o key] p] l IH]; intros i pm res total; cbn [power_loop visited].
  { intros _. cbn. by rewrite app_nil_r, Z.add_0_r. }
  cbn [snd]. destruct (maxVals <=? i); cbn [orb]; [intros _; cbn; by rewrite app_nil_r, Z.add_0_r|].
  destruct (p <? 1); [intros _; cbn; by rewrite app_nil_r, Z.add_0_r|].
  cbn [fmap list_fmap]. intros [Hnin Hnd]%NoDup_cons. set (v := visited maxVals (i + 1) l) in *.
  change (ConsAddress_String (ToConsAddr key)) with (ConsAddress_String (op_addr (o, key, p))).
  change {| kp_Key := key; kp_Power := p |} with (op_change (o, key, p)).
  set (e := (o, key, p)) in *. change (total_power (e :: v)) with (p + total_power v).
  assert (Hch : changes pm (e :: v) =
    (if bool_decide (pm !! ConsAddress_String (op_addr e) = Some p) then [] else [op_change e]) ++ changes pm v).
  { cbn. by destruct (bool_decide _). }
  change (drop_addrs pm (e :: v)) with (drop_addrs (delete (ConsAddress_String (op_addr e)) pm) v).
  destruct (pm !! ConsAddress_String (op_addr e)) as [q|] eqn:Hq; rewrite IH by done; fold v.
  - rewrite changes_delete, Hch by done. f_equal; [f_equal|lia].
    destruct (Z.eqb_spec q p) as [->|]; cbn [negb]; [by rewrite bool_decide_true|].
    rewrite bool_decide_false by congruence. by rewrite <-app_assoc.
  - rewrite Hch, bool_decide_false by done. rewrite delete_id by done. f_equal; [f_equal|lia].
    by rewrite <-app_assoc.
Qed.

(** ** The previous validators *)

Implicit Types (s : ValidatorState) (v : ImuachainValidator).

(** A validator is stored under the address of its key, with a positive power. *)
Record validator_wf (a : string) v : Prop := {
  vw_address : iv_Address v = a;
  vw_key : ∃ pk, iv_Pubkey v = Some pk ∧ GetConsAddress pk = a;
  vw_power : 1 ≤ iv_Power v;
}.
Definition vals_wf s : Prop := map_Forall validator_wf (validators s).
Definition powers s : gmap string Z := iv_Power <$> validators s.

(** The key of a validator, the empty string when it has none. *)
Definition key_of v : string := default EmptyString (iv_Pubkey v).

Lemma elem_of_validators s v :
  vals_wf s → v ∈ GetAllImuachainValidators s ↔ validators s !! ToConsAddr (key_of v) = Some v ∧
    iv_Pubkey v = Some (key_of v) ∧ iv_Address v = ToConsAddr (key_of v).
Proof.
  intros Hwf. unfold GetAllImuachainValidators. rewrite list_elem_of_fmap. split.
  - intros ([a v'] & -> & Hv%elem_of_iterator_all). cbn in *.
    destruct (Hwf _ _ Hv) as [Ha (pk & Hpk & Hg) _]. unfold key_of, ToConsAddr. rewrite Hpk. cbn.
    rewrite Hg. done.
  - intros [Hv _]. exists (ToConsAddr (key_of v), v). split; [done|]. by apply elem_of_iterator_all.
Qed.

Lemma validators_NoDup s :
  vals_wf s → NoDup ((λ v, ToConsAddr (key_of v)) <$> GetAllImuachainValidators s).
Proof.
  intros Hwf. unfold GetAllImuachainValidators. rewrite <-list_fmap_compose.
  pose proof (prefix_iterator_NoDup_keys EmptyString (validators s)) as Hnd.
  assert (Heq : ∀ l : list (string * ImuachainValidator), Forall (λ kv, validator_wf kv.1 kv.2) l →
    ((λ v, ToConsAddr (key_of v)) ∘ snd) <$> l = l.*1).
  { intros l Hl. apply list_fmap_ext. intros i [a v] Hi. rewrite Forall_lookup in Hl.
    destruct (Hl _ _ Hi) as [_ (pk & Hpk & Hg) _]. cbn in *. unfold key_of, ToConsAddr. by rewrite Hpk. }
  rewrite Heq; [done|]. apply Forall_forall. intros [a v] Hv%elem_of_iterator_all. by apply Hwf.
Qed.

Definition prev_entry v : string * Z := (ConsAddress_String (ToConsAddr (key_of v)), iv_Power v).

Lemma prev_entries_NoDup s : vals_wf s → NoDup (prev_entry <$> GetAllImuachainValidators s).*1.
Proof.
  intros Hwf. pose proof (validators_NoDup s Hwf) as Hnd. rewrite <-list_fmap_compose. revert Hnd.
  generalize (GetAllImuachainValidators s) as l. induction l as [|v l IH]; [constructor|].
  cbn. intros [Hnin Hnd]%NoDup_cons. apply NoDup_cons. split; [|by apply IH].
  intros (v' & Heq & Hv')%list_elem_of_fmap. apply cons_string_inj in Heq. apply Hnin.
  rewrite Heq. apply list_elem_of_fmap. eauto.
Qed.

Lemma prev_powers_eq s :
  vals_wf s → prev_powers (GetAllImuachainValidators s) =
    list_to_map (prev_entry <$> GetAllImuachainValidators s).
Proof.
  intros Hwf. transitivity (insert_all (prev_entry <$> GetAllImuachainValidators s) ∅).
  - unfold prev_powers, insert_all. rewrite foldl_fmap.
    assert (Hk : Forall (λ v, iv_Pubkey v = Some (key_of v)) (GetAllImuachainValidators s)).
    { apply Forall_forall. intros v Hv. apply elem_of_validators in Hv as (_ & ? & _); done. }
    generalize (∅ : gmap string Z) as m. induction Hk as [|v l Hv _ IH]; intros m; [done|].
    cbn [foldl]. unfold ConsPubKey. rewrite Hv. apply IH.
  - by rewrite insert_all_union, map_union_empty by by apply prev_entries_NoDup.
Qed.

Lemma prev_powers_lookup s key :
  vals_wf s → prev_powers (GetAllImuachainValidators s) !! ConsAddress_String (ToConsAddr key) =
    powers s !! ToConsAddr key.
Proof.
  intros Hwf. rewrite prev_powers_eq by done. apply option_eq. intros p.
  unfold powers. rewrite lookup_fmap_Some. rewrite <-elem_of_list_to_map.
  2:{ by apply prev_entries_NoDup. }
  rewrite list_elem_of_fmap. split.
  - intros (v & [= Heq ->] & Hv). apply elem_of_validators in Hv as (Hv & _ & _); [|done].
    apply cons_string_inj in Heq. exists v. by rewrite Heq.
  - intros (v & Hp & Hv). exists v. unfold prev_entry. destruct (Hwf _ _ Hv) as [Ha (pk & Hpk & Hg) _].
    assert (Hk : ToConsAddr (key_of v) = ToConsAddr key).
    { unfold key_of, ToConsAddr. by rewrite Hpk. }
    rewrite Hk, Hp. split; [done|]. apply elem_of_validators; [done|]. rewrite Hk. split_and!; [done| |done].
    unfold key_of. by rewrite Hpk.
Qed.

(** ** All changes together *)

Definition removal v : KeyWithPower := {| kp_Key := key_of v; kp_Power := 0 |}.
Definition is_left (pm : gmap string Z) v : Prop :=
  is_Some (pm !! ConsAddress_String (ToConsAddr (key_of v))).

Lemma removed_eq pm (l : list ImuachainValidator) :
  Forall (λ v, iv_Pubkey v = Some (key_of v)) l →
  removed_validators pm l = Ok (removal <$> filter (is_left pm) l).
Proof.
  induction 1 as [|v l Hv _ IH]; [done|]. cbn [removed_validators]. unfold ConsPubKey. rewrite Hv, IH.
  rewrite filter_cons. destruct (decide (is_left pm v)) as [[p Hp]|Hn]; unfold mbind, result_bind, is_some;
    unfold ToConsAddr in *; [by rewrite Hp|]. destruct (pm !! _) eqn:Hp; [|done].
  exfalso. apply Hn. unfold is_left, ToConsAddr. eauto.
Qed.

Lemma drop_addrs_lookup pm l key :
  drop_addrs pm l !! ConsAddress_String (ToConsAddr key) =
  if decide (ToConsAddr key ∈ op_addr <$> l) then None else pm !! ConsAddress_String (ToConsAddr key).
Proof.
  revert pm. induction l as [|e l IH]; intros pm; [done|].
  change (drop_addrs pm (e :: l)) with (drop_addrs (delete (ConsAddress_String (op_addr e)) pm) l).
  rewrite IH. cbn [fmap list_fmap]. destruct (decide (ToConsAddr key ∈ op_addr <$> l)).
  { rewrite decide_True; [done|]. by apply list_elem_of_further. }
  destruct (decide (op_addr e = ToConsAddr key)) as [Heq|Hne].
  - rewrite decide_True by (rewrite Heq; apply list_elem_of_here). rewrite Heq. apply lookup_delete_eq.
  - rewrite decide_False by (by intros [?|?]%elem_of_cons).
    apply lookup_delete_ne. by intros ?%cons_string_inj.
Qed.

(** The changes that make the set [s] the operators [l]. *)
Definition all_changes s l : list KeyWithPower :=
  changes (prev_powers (GetAllImuachainValidators s)) l ++
  (removal <$> filter (is_left (drop_addrs (prev_powers (GetAllImuachainValidators s)) l))
    (GetAllImuachainValidators s)).

Lemma elem_of_changes s l c :
  vals_wf s → c ∈ changes (prev_powers (GetAllImuachainValidators s)) l ↔
    ∃ e, e ∈ l ∧ c = op_change e ∧ powers s !! op_addr e ≠ Some e.2.
Proof.
  intros Hwf. unfold changes. rewrite list_elem_of_omap. unfold op_addr. split.
  - intros (e & He & Hc). case_bool_decide as Hp; [done|]. injection Hc as <-.
    rewrite prev_powers_lookup in Hp by done. eauto.
  - intros (e & He & -> & Hp). exists e. split; [done|]. rewrite bool_decide_false; [done|].
    by rewrite prev_powers_lookup.
Qed.

Lemma elem_of_removed s l c :
  vals_wf s → c ∈ (removal <$> filter (is_left (drop_addrs (prev_powers (GetAllImuachainValidators s)) l))
    (GetAllImuachainValidators s)) ↔
  ∃ v, validators s !! ToConsAddr (key_of v) = Some v ∧ c = removal v ∧
    ToConsAddr (key_of v) ∉ op_addr <$> l.
Proof.
  intros Hwf. rewrite list_elem_of_fmap. setoid_rewrite list_elem_of_filter. unfold is_left.
  setoid_rewrite drop_addrs_lookup. split.
  - intros (v & -> & Hl & Hv). exists v. apply elem_of_validators in Hv as (Hv & _ & _); [|done].
    split_and!; [done..|]. intros Hin. by rewrite decide_True in Hl.
  - intros (v & Hv & -> & Hnin). exists v. split; [done|]. rewrite decide_False by done.
    rewrite prev_powers_lookup by done. unfold powers. rewrite lookup_fmap, Hv. split; [done|].
    apply elem_of_validators; [done|]. destruct (Hwf _ _ Hv) as [Ha (pk & Hpk & _) _].
    split_and!; [done| |done]. unfold key_of. by rewrite Hpk.
Qed.

(** The set of the operators [l] by consensus address. *)
Definition set_of l : gmap string Z := list_to_map ((λ e, (op_addr e, e.2)) <$> l).

Lemma set_of_lookup l a p :
  NoDup (op_addr <$> l) → set_of l !! a = Some p ↔ ∃ e, e ∈ l ∧ op_addr e = a ∧ e.2 = p.
Proof.
  intros Hnd. unfold set_of. rewrite <-elem_of_list_to_map by by rewrite <-list_fmap_compose.
  rewrite list_elem_of_fmap. split; [intros (e & [= -> ->] & ?); eauto|intros (e & ? & <- & <-); eauto].
Qed.

Lemma changes_NoDup pm l : NoDup (op_addr <$> l) → NoDup (addr_of <$> changes pm l).
Proof.
  induction l as [|e l IH]; cbn; [constructor|]. intros [Hnin Hnd]%NoDup_cons.
  destruct (bool_decide _); [by apply IH|]. cbn. apply NoDup_cons. split; [|by apply IH].
  intros (c & Heq & (e' & He' & Hc)%list_elem_of_omap)%list_elem_of_fmap. case_bool_decide; [done|].
  injection Hc as <-. apply Hnin. apply list_elem_of_fmap. by exists e'.
Qed.

Lemma all_changes_NoDup s l : vals_wf s → NoDup (op_addr <$> l) → NoDup (addr_of <$> all_changes s l).
Proof.
  intros Hwf Hnd. unfold all_changes. rewrite fmap_app. apply NoDup_app. split_and!.
  - by apply changes_NoDup.
  - intros a (c & -> & (e & He & -> & _)%elem_of_changes)%list_elem_of_fmap; [|done].
    intros (c' & Heq & (v & Hv & -> & Hnin)%elem_of_removed)%list_elem_of_fmap; [|done].
    apply Hnin. unfold addr_of in Heq. cbn in Heq. rewrite <-Heq. apply list_elem_of_fmap. by exists e.
  - rewrite <-list_fmap_compose.
    eapply sublist_NoDup; [by apply validators_NoDup|]. apply fmap_sublist, sublist_filter.
Qed.

Lemma all_changes_wf s l c :
  vals_wf s → Forall (λ e, 1 ≤ e.2) l → c ∈ all_changes s l →
  1 ≤ kp_Power c ∨ kp_Power c = 0 ∧ is_Some (powers s !! addr_of c).
Proof.
  intros Hwf Hpos [Hc|Hc]%elem_of_app.
  - apply elem_of_changes in Hc as (e & He & -> & _); [|done]. left. rewrite Forall_forall in Hpos. by apply Hpos.
  - apply elem_of_removed in Hc as (v & Hv & -> & _); [|done]. right. split; [done|].
    unfold addr_of, powers. cbn. rewrite lookup_fmap, Hv. eauto.
Qed.

(** Applied to the previous set, the changes give the operators. *)
Lemma all_changes_apply s l :
  vals_wf s → NoDup (op_addr <$> l) → Forall (λ e, 1 ≤ e.2) l →
  apply_powers (powers s) (all_changes s l) = set_of l.
Proof.
  intros Hwf Hnd Hpos. pose proof (all_changes_NoDup s l Hwf Hnd) as Hcn. apply map_eq. intros a.
  destruct (decide (a ∈ addr_of <$> all_changes s l)) as [(c & -> & Hc)%list_elem_of_fmap|Hnin].
  - rewrite apply_powers_in by done. unfold all_changes in Hc. apply elem_of_app in Hc as [Hc|Hc].
    + apply elem_of_changes in Hc as (e & He & -> & _); [|done]. rewrite Forall_forall in Hpos.
      pose proof (Hpos e He) as Hp. cbn. rewrite (proj2 (Z.ltb_ge _ _)) by done. symmetry.
      apply set_of_lookup; [done|]. by exists e.
    + apply elem_of_removed in Hc as (v & Hv & -> & Hout); [|done]. cbn. symmetry.
      apply eq_None_not_Some. intros [p (e & He & Heq & _)%set_of_lookup]; [|done].
      apply Hout. apply list_elem_of_fmap. by exists e.
  - rewrite apply_powers_notin by done. destruct (decide (a ∈ op_addr <$> l)) as [Hin|Hout].
    + apply list_elem_of_fmap in Hin as (e & -> & He).
      assert (Hp : powers s !! op_addr e = Some e.2).
      { destruct (decide (powers s !! op_addr e = Some e.2)) as [|Hne]; [done|]. exfalso. apply Hnin.
        apply list_elem_of_fmap. exists (op_change e). split; [done|]. apply elem_of_app. left.
        apply elem_of_changes; [done|]. by exists e. }
      rewrite Hp. symmetry. apply set_of_lookup; [done|]. by exists e.
    + trans (None : option Z).
      * apply eq_None_not_Some. intros [p (v & _ & Hv)%lookup_fmap_Some]. apply Hnin.
        destruct (Hwf _ _ Hv) as [Ha (pk & Hpk & Hg) _].
        assert (Hk : ToConsAddr (key_of v) = a) by (unfold key_of, ToConsAddr; by rewrite Hpk).
        apply list_elem_of_fmap. exists (removal v). split; [done|]. apply elem_of_app. right.
        apply elem_of_removed; [done|]. exists v. by rewrite Hk.
      * symmetry. apply eq_None_not_Some. intros [p (e & He & <- & _)%set_of_lookup]; [|done].
        apply Hout. apply list_elem_of_fmap. by exists e.
Qed.
End Powers.

(** ** Storing the changes *)

(** A validator that joins the set is accepted: the hook of x/slashing never returns an
    error. *)
Class BondAccepts (R : Type) {sk : SlashingKeeper R} : Prop :=
  bond_accepts ctx addr (r : R) : ∃ r', AfterValidatorBonded Hooks ctx addr r = (Ok tt, r').

Section Apply.
Context `{SdkLaws} {chain : ChainSdk} {cl : ChainLaws sdk chain}.
Context {R : Type} {sk : SlashingKeeper R} {ba : BondAccepts R}.
Implicit Types (y : DogfoodExt R) (c : KeyWithPower) (m : gmap string ImuachainValidator).

(** Only the validators and the modules below change. *)
Definition with_validators m (r : R) y : DogfoodExt R := {|
  de_dogfood := put_vals (set_validators (λ _, m) (ds_vals (de_dogfood y))) (de_dogfood y);
  de_rest := r |}.

Lemma with_validators_id y : y = with_validators (validators (ds_vals (de_dogfood y))) (de_rest y) y.
Proof. by destruct y as [[[] ????] ?]. Qed.

Definition change_ok y c : Prop :=
  1 ≤ kp_Power c ∨ kp_Power c = 0 ∧ is_Some (powers (ds_vals (de_dogfood y)) !! addr_of c).

Lemma validator_wf_new c :
  1 ≤ kp_Power c →
  validator_wf (addr_of c)
    {| iv_Address := addr_of c; iv_Power := kp_Power c; iv_Pubkey := Some (kp_Key c) |}.
Proof. intros Hp. split; [done|by exists (kp_Key c)|done]. Qed.

Lemma apply_change_spec ctx c y :
  vals_wf (ds_vals (de_dogfood y)) → change_ok y c →
  ∃ m r, apply_change ctx c y = (Ok true, with_validators m r y) ∧
    iv_Power <$> m = apply_power (powers (ds_vals (de_dogfood y))) c ∧ map_Forall validator_wf m.
Proof.
  intros Hwf Hok. unfold apply_change, gets, mbind, M_bind, GetImuachainValidator.
  change (ToConsAddr (kp_Key c)) with (addr_of c). unfold change_ok, powers in *.
  destruct (validators _ !! addr_of c) as [v|] eqn:Hv.
  - pose proof (Hwf _ _ Hv) as [Ha Hk Hp]. destruct (Z.ltb_spec (kp_Power c) 1) as [Hlt|Hge].
    + eexists (delete (addr_of c) _), _. split; [reflexivity|]. unfold apply_power.
      rewrite (proj2 (Z.ltb_lt _ _)) by done. split; [by rewrite fmap_delete|by apply map_Forall_delete].
    + eexists (<[iv_Address v := with_power v (kp_Power c)]> _), _. split; [reflexivity|].
      unfold apply_power. rewrite (proj2 (Z.ltb_ge _ _)) by done. rewrite Ha. split; [by rewrite fmap_insert|].
      apply map_Forall_insert_2; [|done]. by split.
  - destruct Hok as [Hpos|[_ [p Hp]]]; [|by rewrite lookup_fmap, Hv in Hp].
    rewrite (proj2 (Z.ltb_lt 0 _)) by lia. unfold bond_validator, NewImuachainValidator. rewrite any_packs.
    set (icVal := {| iv_Address := addr_of c; iv_Power := kp_Power c; iv_Pubkey := Some (kp_Key c) |}).
    destruct (bond_accepts ctx (addr_of c) (de_rest y)) as [r Hr].
    exists (<[addr_of c := icVal]> (validators (ds_vals (de_dogfood y)))), r. split_and!.
    + unfold cached, mbind, M_bind, vals_of, dogfood_of, on_vals, others_of, SetImuachainValidator, zoom, modify.
      cbn. by rewrite Hr.
    + unfold apply_power. rewrite (proj2 (Z.ltb_ge _ _)) by done. by rewrite fmap_insert.
    + apply map_Forall_insert_2; [by apply validator_wf_new|done].
Qed.

Lemma apply_changes_spec ctx (res : list KeyWithPower) y :
  vals_wf (ds_vals (de_dogfood y)) → NoDup (addr_of <$> res) → (∀ c, c ∈ res → change_ok y c) →
  ∃ m r, apply_changes ctx res y =
      (Ok ((λ c, {| vu_PubKey := kp_Key c; vu_Power := kp_Power c |}) <$> res), with_validators m r y) ∧
    iv_Power <$> m = apply_powers (powers (ds_vals (de_dogfood y))) res ∧ map_Forall validator_wf m.
Proof.
  revert y. induction res as [|c res IH]; intros y Hwf Hnd Hok.
  { eexists _, _. split; [by rewrite <-with_validators_id|]. done. }
  cbn [fmap list_fmap] in Hnd. apply NoDup_cons in Hnd as [Hnin Hnd].
  destruct (apply_change_spec ctx c y Hwf (Hok c (list_elem_of_here _ _))) as (m1 & r1 & Hrun & Hm1 & Hwf1).
  destruct (IH (with_validators m1 r1 y)) as (m & r & Hruns & Hm & Hwf2); [done|done| |].
  { intros c' Hc'. destruct (Hok c' (list_elem_of_further _ _ _ Hc')) as [|[Hz Hs]]; [by left|right].
    split; [done|]. unfold powers. cbn. rewrite Hm1, apply_power_ne; [done|].
    intros Heq. apply Hnin. rewrite Heq. apply list_elem_of_fmap. eauto. }
  exists m, r. split; [|split; [|done]].
  - cbn [apply_changes]. rewrite (bind_run _ _ _ _ _ Hrun), (bind_run _ _ _ _ _ Hruns). done.
  - rewrite Hm. unfold powers. cbn. by rewrite Hm1.
Qed.
End Apply.

(** ** The sorted operators have different consensus addresses *)

Section Sorted.
Context `{SdkLaws} {Y : Type} {ot : Others Y}.
Implicit Types (x : OperatorExt Y).

Lemma operator_key ch op key x :
  keys_inv (x_keys x) → go_string ch → (op, key) ∈ GetOperatorsForChainID ch x →
  acc20 op ∧ consKeys (x_keys x) !! AddrAndChainIDKey op ch = Some key.
Proof.
  intros [Hshape Hagree _ _] Hch. unfold GetOperatorsForChainID.
  destruct (IsAVSByChainID _ _); [|by intros ?%not_elem_of_nil].
  intros ([k v] & [= -> ->] & [Hk Hp]%elem_of_prefix_iterator)%list_elem_of_fmap. cbn in *.
  apply has_prefix_spec in Hp as [t ->]. rewrite slice_from_app by done.
  destruct (Hshape _ _ Hk) as (ch' & op' & Hch' & Hop' & Heq).
  rewrite !ChainIDAndAddrKey_eq, app_empty_r in Heq. apply chain_key_app_inj in Heq as [<- <-]; [|done..].
  split; [done|]. rewrite Hagree by done. rewrite <-Hk, !ChainIDAndAddrKey_eq, app_empty_r. done.
Qed.

Lemma operators_NoDup ch x :
  keys_inv (x_keys x) → go_string ch → NoDup ((λ kv, ToConsAddr kv.2) <$> GetOperatorsForChainID ch x).
Proof.
  intros Hinv Hch. apply NoDup_fmap_2_strong.
  - intros [op key] [op' key'] [Hop Hk]%operator_key [Hop' Hk']%operator_key Heq; [|done..]. cbn in Heq.
    assert (op = op') as <-.
    { pose proof (ki_back _ Hinv _ _ _ Hop Hch Hk) as H1. pose proof (ki_back _ Hinv _ _ _ Hop' Hch Hk') as H2.
      rewrite Heq, H2 in H1. by injection H1. }
    by rewrite Hk in Hk'; injection Hk' as ->.
  - unfold GetOperatorsForChainID. destruct (IsAVSByChainID _ _); [|constructor].
    apply NoDup_fmap_2_strong; [|eapply NoDup_fmap_1, prefix_iterator_NoDup_keys].
    intros [k v] [k' v'] [Hk [t ->]%has_prefix_spec]%elem_of_prefix_iterator
      [Hk' [t' ->]%has_prefix_spec]%elem_of_prefix_iterator. cbn [fst snd].
    rewrite !slice_from_app by done. by intros [= -> ->].
Qed.

Lemma active_sublist avs (ops : list (string * string)) (s : InfoState) act :
  active_operators avs ops s = Ok act → act `sublist_of` ops.
Proof.
  revert act. induction ops as [|[op key] ops IH]; intros act; cbn; [by intros [= <-]|].
  destruct (IsOptedInAndNotJailed _ _ _) as [b| |]; [|done..]. cbn.
  destruct (active_operators avs ops s) as [rest| |]; [|done..]. intros [= <-].
  destruct b; [by apply sublist_skip, IH|by apply sublist_cons, IH].
Qed.

Lemma vote_powers_length avs ops x ps : vote_powers avs ops x = Ok ps → length ps = length ops.
Proof.
  revert ps. induction ops as [|op ops IH]; intros ps; cbn; [by intros [= <-]|].
  destruct (GetOperatorOptedUSDValue _ _ _); [|done..]. cbn. destruct (dec_TruncateInt64 _); [|done..]. cbn.
  destruct (vote_powers avs ops x) as [ps'| |]; [|done..]. intros [= <-]. cbn. f_equal. by apply IH.
Qed.

Lemma sorted_operators_spec ch x sorted :
  keys_inv (x_keys x) → go_string ch → sorted_operators ch x = Ok (Some sorted) →
  StronglySorted power_le sorted ∧ NoDup (op_addr <$> sorted).
Proof.
  intros Hinv Hch. unfold sorted_operators.
  destruct (GetActiveOperatorsForChainID ch x) as [act| |] eqn:Hact; [|done..]. cbn.
  destruct (GetVotePowerForChainID act.*1 ch x) as [ps| |] eqn:Hps; [|done..].
  intros [= <-]. destruct (SortByPower_sorted act.*1 act.*2 ps _ _ _ eq_refl) as [Hperm Hs].
  split; [exact Hs|]. rewrite Hperm.
  assert (Hsub : act `sublist_of` GetOperatorsForChainID ch x).
  { unfold GetActiveOperatorsForChainID in Hact. destruct (IsAVSByChainID _ _);
      [by apply active_sublist in Hact|injection Hact as <-; apply sublist_nil_l]. }
  assert (Hlen : length ps = length act).
  { unfold GetVotePowerForChainID in Hps. destruct (IsAVSByChainID _ _); [|done].
    apply vote_powers_length in Hps. by rewrite length_fmap in Hps. }
  assert (Heq : op_addr <$> zip3 act.*1 act.*2 ps = (λ kv, ToConsAddr kv.2) <$> act).
  { unfold zip3. rewrite zip_fst_snd. change op_addr with ((λ kv : string * string, ToConsAddr kv.2) ∘ fst (B := Z)).
    rewrite list_fmap_compose, fst_zip by lia. done. }
  rewrite Heq. eapply sublist_NoDup; [by apply operators_NoDup|by apply fmap_sublist].
Qed.
End Sorted.

(** ** What matures leaves the validator set alone *)

Ltac unfold_zooms :=
  unfold on_rest, on_keys, on_operator, on_ext, queues_of, vals_of, dogfood_of, on_queues, on_vals,
    others_of, below_dogfood, zoom.

Section Frame.
Context {sdk : Sdk} {chain : ChainSdk} {B R : Type} {ot : Others R} {sk : SlashingKeeper R}.
Abbreviation W := (World B (OperatorExt (DogfoodExt R))).

(** All of the module but its queues. *)
Definition outside_queues (w : W) : ValidatorState * option Params * bool * bool :=
  (w_vals w, dogfoodParams (w_dogfood w), shouldUpdate (w_dogfood w), emitAvsEvent (w_dogfood w)).

Lemma keeps_queues {A} (m : M QueueState error A) : keeps outside_queues (on_rest (queues_of m)).
Proof.
  intros w. unfold_zooms. unfold outside_queues. cbn. by destruct (m _).
Qed.

Lemma keeps_others {A} (m : M R error A) : keeps outside_queues (on_rest (others_of m)).
Proof. intros w. unfold_zooms. unfold outside_queues. cbn. by destruct (m _). Qed.

Lemma keeps_below {A} (m : M (OperatorExt R) error A) :
  keeps outside_queues (on_ext (below_dogfood m)).
Proof. intros w. unfold_zooms. unfold outside_queues. cbn. by destruct (m _). Qed.

Lemma keeps_keys {A} (m : M KeyState error A) : keeps outside_queues (on_keys m).
Proof. intros w. unfold_zooms. unfold outside_queues. cbn. by destruct (m _). Qed.

Lemma keeps_collect {S T E A} (f : S → T) (g : A → M S E unit) (l : list A) :
  (∀ a, keeps f (g a)) → keeps f (collect_failures g l).
Proof.
  intros Hg. induction l as [|a l IH]; [done|]. intros s. cbn.
  pose proof (Hg a s) as Hs. destruct (g a s) as [[?|?|] s']; cbn in *; [by rewrite IH| |done].
  rewrite <-Hs, <-(IH s'). unfold mbind, M_bind. by destruct (collect_failures g l s') as [[]?].
Qed.

Hint Resolve keeps_queues keeps_others keeps_below keeps_keys : keeps.

Lemma finish_matured_keeps ctx ch next : keeps outside_queues (finish_matured ctx ch next).
Proof.
  unfold finish_matured, finish_opt_outs, finish_pruning, prune_address.
  repeat first [apply keeps_collect; intros | progress solve_keeps].
Qed.
End Frame.

(** ** The validator set after the end of a block *)

Section EndBlock.
Context `{SdkLaws} {chain : ChainSdk} {cl : ChainLaws sdk chain}.
Context {B R : Type} {ot : Others R} {sk : SlashingKeeper R} {ba : BondAccepts R}.
Abbreviation W := (World B (OperatorExt (DogfoodExt R))).
Implicit Types (s : ValidatorState) (w : W) (u : ValidatorUpdate).

(** The validators are well formed and the total power is the sum of their powers. *)
Record set_inv s : Prop := {
  sv_wf : vals_wf s;
  sv_total : GetLastTotalPower s = map_sum (λ _ p, p) (powers s);
}.

Definition to_update (c : KeyWithPower) : ValidatorUpdate :=
  {| vu_PubKey := kp_Key c; vu_Power := kp_Power c |}.
Definition of_update u : KeyWithPower := {| kp_Key := vu_PubKey u; kp_Power := vu_Power u |}.
Definition update_addr u : string := GetConsAddress (vu_PubKey u).

(** What the consensus engine makes of the updates. *)
Definition apply_updates (m : gmap string Z) (us : list ValidatorUpdate) : gmap string Z :=
  apply_powers m (of_update <$> us).

Lemma of_to_updates res us :
  us ≡ₚ (to_update <$> res) → (of_update <$> us) ≡ₚ res.
Proof.
  intros ->. rewrite <-list_fmap_compose, (list_fmap_ext _ id); [by rewrite list_fmap_id|].
  by intros ? [] _.
Qed.

Lemma map_sum_set_of l : NoDup (op_addr <$> l) → map_sum (λ _ p, p) (set_of l) = total_power l.
Proof.
  induction l as [|e l IH]; [done|]. cbn [fmap list_fmap]. intros [Hnin Hnd]%NoDup_cons.
  unfold set_of in *. cbn [fmap list_fmap list_to_map foldr uncurry].
  rewrite map_sum_fresh; [cbn; by rewrite IH|]. apply not_elem_of_list_to_map_1.
  by rewrite <-list_fmap_compose.
Qed.

(** What an update of the set leaves. *)
Record set_updated (l : list (string * string * Z)) (us : list ValidatorUpdate) s s' : Prop := {
  su_powers : powers s' = set_of l;
  su_inv : set_inv s';
  su_engine : apply_updates (powers s) us = powers s';
  su_distinct : NoDup (update_addr <$> us);
  su_known : ∀ u, u ∈ us → 1 ≤ vu_Power u ∨ vu_Power u = 0 ∧ is_Some (powers s !! update_addr u);
  su_sorted : StronglySorted update_le us;
  su_stored : GetValidatorUpdates s' = us;
}.

Lemma updates_distinct res us :
  us ≡ₚ (to_update <$> res) → NoDup (addr_of <$> res) → NoDup (update_addr <$> us).
Proof. intros -> Hnd. by rewrite <-list_fmap_compose. Qed.

Lemma ApplyValidatorChanges_spec ctx l total (y : DogfoodExt R) :
  let s := ds_vals (de_dogfood y) in
  vals_wf s → NoDup (op_addr <$> l) → Forall (λ e, 1 ≤ e.2) l →
  default 0 total = map_sum (λ _ p, p) (set_of l) →
  ∃ us y', ApplyValidatorChanges ctx (all_changes s l)
      {| de_dogfood := put_vals (set_lastTotalPower total s) (de_dogfood y); de_rest := de_rest y |} =
    (Ok us, y') ∧ us ≡ₚ to_update <$> all_changes s l ∧
    set_updated l us s (ds_vals (de_dogfood y')) ∧
    dogfoodParams (de_dogfood y') = dogfoodParams (de_dogfood y) ∧ ds_queues (de_dogfood y') = ds_queues (de_dogfood y).
Proof.
  intros s Hwf Hnd Hpos Htot. set (y0 := {| de_rest := _ |}).
  pose proof (all_changes_NoDup s l Hwf Hnd) as Hcn.
  destruct (apply_changes_spec ctx (all_changes s l) y0) as (m & r & Hrun & Hm & Hmwf); [done..| |].
  { intros c Hc. apply (all_changes_wf s l c Hwf Hpos Hc). }
  change (powers _) with (powers s) in Hm. rewrite all_changes_apply in Hm by done.
  assert (Hperm : merge_sort update_le (to_update <$> all_changes s l) ≡ₚ to_update <$> all_changes s l)
    by apply merge_sort_Permutation.
  set (us := merge_sort _ _) in Hperm.
  assert (∃ y', ApplyValidatorChanges ctx (all_changes s l) y0 = (Ok us, y') ∧
    de_dogfood y' = put_vals (set_validatorUpdates (Some us) (ds_vals (de_dogfood (with_validators m r y0))))
      (de_dogfood y0)) as (y' & Hrun' & Hd).
  { eexists. unfold ApplyValidatorChanges, mbind, M_bind. by rewrite Hrun. }
  exists us, y'. rewrite Hd. split_and!; [done|done| |done|done]. split.
  - done.
  - split; [done|]. by rewrite <-Hm in Htot.
  - change (powers (ds_vals (put_vals _ _))) with (iv_Power <$> m). rewrite Hm.
    rewrite <-(all_changes_apply s l) by done. symmetry.
    apply apply_powers_perm; [done|]. symmetry. by apply of_to_updates.
  - by eapply updates_distinct.
  - intros u Hu. rewrite Hperm in Hu. apply list_elem_of_fmap in Hu as (c & -> & Hc).
    exact (all_changes_wf s l c Hwf Hpos Hc).
  - apply StronglySorted_merge_sort; apply _.
  - done.
Qed.

(** The top of the sorted operators keeps what is needed. *)
Lemma top_powers_spec n l :
  NoDup (op_addr <$> l) → NoDup (op_addr <$> top_powers n l) ∧ Forall (λ e, 1 ≤ e.2) (top_powers n l).
Proof.
  intros Hnd. split.
  - eapply sublist_NoDup; [exact Hnd|]. apply fmap_sublist. unfold top_powers.
    etransitivity; [apply sublist_filter|apply sublist_take].
  - apply Forall_forall. by intros e [? _]%list_elem_of_filter.
Qed.

Lemma all_changes_nil s l :
  vals_wf s → NoDup (op_addr <$> l) → Forall (λ e, 1 ≤ e.2) l → all_changes s l = [] → powers s = set_of l.
Proof. intros Hwf Hnd Hpos Hnil. by rewrite <-(all_changes_apply s l), Hnil. Qed.

Lemma on_rest_run {A} (m : M (DogfoodExt R) error A) w r y' :
  m (w_rest w) = (r, y') → ∃ w', on_rest m w = (r, w') ∧ w_rest w' = y'.
Proof. unfold w_rest. intros Hm. eexists. unfold on_rest, on_ext, zoom. by rewrite Hm. Qed.

Lemma update_validators_spec ctx ch w sorted :
  set_inv (w_vals w) → StronglySorted power_le sorted → NoDup (op_addr <$> sorted) →
  sorted_operators ch (drop_dogfood (w_ext w)) = Ok (Some sorted) →
  ∃ us w', update_validators ctx ch w = (Ok us, w') ∧
    set_updated (top_powers (GetMaxValidators (w_dogfood w)) sorted) us (w_vals w) (w_vals w').
Proof.
  intros [Hwf Htot] Hs Hnd Hsort. set (n := GetMaxValidators (w_dogfood w)).
  destruct (top_powers_spec n sorted Hnd) as [Hnd' Hpos]. set (l := top_powers n sorted) in *.
  assert (Hv : visited n 0 sorted = l) by by rewrite visited_top, Z.sub_0_r.
  unfold update_validators, mbind, M_bind. cbn -[ApplyValidatorChanges power_loop removed_validators].
  rewrite Hsort. cbn -[ApplyValidatorChanges power_loop removed_validators].
  fold n. rewrite power_loop_spec, Hv by by rewrite Hv. cbn -[ApplyValidatorChanges removed_validators].
  rewrite removed_eq.
  2:{ apply Forall_forall. intros v Hin%elem_of_validators; [|done]. tauto. }
  cbn -[ApplyValidatorChanges]. fold (all_changes (w_vals w) l). case_bool_decide as Hnil.
  - destruct (ApplyValidatorChanges_spec ctx l (lastTotalPower (w_vals w)) (w_rest w))
      as (us & y' & Hrun & _ & Hset & _); [done..| |].
    { unfold GetLastTotalPower in Htot. rewrite Htot. f_equal. by apply all_changes_nil. }
    replace {| de_dogfood := _ |} with (w_rest w) in Hrun by by destruct w as [??? [? [[[] ????] ?]]].
    apply on_rest_run in Hrun as (w' & Hrun & Hw'). exists us, w'. unfold w_vals, w_dogfood. by rewrite Hw'.
  - destruct (ApplyValidatorChanges_spec ctx l (Some (total_power l)) (w_rest w))
      as (us & y' & Hrun & _ & Hset & _); [done..|by rewrite map_sum_set_of|].
    edestruct (on_rest_run (vals_of (SetLastTotalPower (total_power l))) w) as (w1 & Hrun1 & Hw1); [done|].
    rewrite Z.add_0_l, Hrun1. replace {| de_dogfood := _ |} with (w_rest w1) in Hrun.
    apply on_rest_run in Hrun as (w' & Hrun & Hw'). exists us, w'. unfold w_vals, w_dogfood in *. by rewrite Hw'.
Qed.
End EndBlock.
