(* ===== verification/DogfoodQueues.v ===== *)
(** * The queues of x/dogfood and the keys of x/operator

    An operator that replaces its consensus key, or that opts out, leaves a consensus
    address that must stay known until the epoch at which a slash can no longer reach it;
    then the address is pruned.  Here: the queues hold an address at most once, no address
    of a key in use is pruned, and every operator that is removing its key is
    queued exactly once. *)

From S2P Require Import Prelude Errors Sdk RefSdk KVStore Epochs DelegationTypes Assets.
From S2P Require Import DelegationStore UndelegationStore Delegation OperatorTypes.
From S2P Require Import OperatorStore OperatorSnapshot OperatorKeepers OperatorUnbonding OperatorUSD.
From S2P Require Import OperatorVotingPower OperatorKeys OperatorSlash OperatorSlashSafety.
From S2P Require Import ChainUtils DogfoodTypes DogfoodStore DogfoodKeepers DogfoodHooks DogfoodEndBlock.
From S2P Require Import DogfoodValidators.

(** ** Slots

    A slot is the key of an epoch, or [None] for what has matured. *)

Implicit Types (q : QueueState) (k : KeyState) (slot : option string).

Definition ops_at q slot : list string :=
  match slot with
  | None => GetPendingOptOuts q
  | Some e => default [] (optOutsToFinish q !! e)
  end.
Definition addrs_at q slot : list string :=
  match slot with
  | None => GetPendingConsensusAddrs q
  | Some e => default [] (consAddrsToPrune q !! e)
  end.

(** Every element is in one slot, and there once. *)
Definition once (at_ : option string → list string) : Prop :=
  (∀ slot, NoDup (at_ slot)) ∧ ∀ a slot slot', a ∈ at_ slot → a ∈ at_ slot' → slot = slot'.

(** An element appended to a slot. *)
Definition put_at (e : option string) (a : string) (at_ : option string → list string) slot : list string :=
  if decide (slot = e) then at_ slot ++ [a] else at_ slot.

Lemma elem_of_put_at e a at_ slot b :
  b ∈ put_at e a at_ slot ↔ b ∈ at_ slot ∨ slot = e ∧ b = a.
Proof. unfold put_at. decide_goal; [rewrite elem_of_app, list_elem_of_singleton|]; naive_solver. Qed.

Lemma once_put e a at_ : once at_ → (∀ slot, a ∉ at_ slot) → once (put_at e a at_).
Proof.
  intros [Hnd Hone] Hnin. split.
  - intros slot. unfold put_at. decide_goal; [|done]. apply NoDup_app. split_and!; [done| |apply NoDup_singleton].
    intros b Hb ->%list_elem_of_singleton. by eapply Hnin.
  - intros b slot slot' [Hb|[-> ->]]%elem_of_put_at [Hb'|[-> Hba]]%elem_of_put_at; subst; [eauto|..|done];
      by exfalso; eapply Hnin.
Qed.

Lemma once_ext at_ at_' : (∀ slot, at_' slot = at_ slot) → once at_ → once at_'.
Proof. intros Heq [Hnd Hone]. split; [intros; by rewrite Heq|]. intros *. rewrite !Heq. apply Hone. Qed.

(** What an epoch has is what matures. *)
Definition mature (e : string) (at_ : option string → list string) slot : list string :=
  match slot with
  | None => at_ (Some e)
  | Some e' => if decide (e' = e) then [] else at_ slot
  end.
(** The slot an element comes from, and the slot it goes to. *)
Definition slot_from e slot : option string := match slot with None => Some e | Some _ => slot end.
Definition slot_to e slot : option string := if decide (slot = Some e) then None else slot.

Lemma mature_from e at_ slot a : a ∈ mature e at_ slot → a ∈ at_ (slot_from e slot).
Proof. destruct slot as [e'|]; cbn; [|done]. decide_goal; [by intros ?%not_elem_of_nil|done]. Qed.

Lemma mature_to e at_ slot a : at_ None = [] → a ∈ at_ slot → a ∈ mature e at_ (slot_to e slot).
Proof.
  intros Hnone Hin. unfold slot_to. decide_goal; [by subst|].
  destruct slot as [e'|]; cbn; [|by rewrite Hnone in Hin; apply not_elem_of_nil in Hin]. rewrite decide_False; [done|congruence].
Qed.

Lemma mature_slot e at_ slot a : a ∈ mature e at_ slot → slot_to e (slot_from e slot) = slot.
Proof.
  unfold slot_to. destruct slot as [e'|]; cbn; [|by rewrite decide_True].
  destruct (decide (e' = e)); [by intros ?%not_elem_of_nil|]. intros _. by rewrite decide_False by congruence.
Qed.

Lemma once_mature e at_ : once at_ → once (mature e at_).
Proof.
  intros [Hnd Hone]. split.
  - intros [e'|]; cbn; [|done]. decide_goal; [constructor|done].
  - intros a slot slot' Ha Ha'. rewrite <-(mature_slot e at_ slot a Ha), <-(mature_slot e at_ slot' a Ha').
    f_equal. eapply Hone; by apply mature_from.
Qed.

(** What has matured is completed. *)
Definition completed (at_ : option string → list string) slot : list string :=
  match slot with None => [] | Some _ => at_ slot end.

Lemma elem_of_completed at_ slot a : a ∈ completed at_ slot ↔ a ∈ at_ slot ∧ slot ≠ None.
Proof. destruct slot; cbn; [naive_solver|]. split; [by intros ?%not_elem_of_nil|naive_solver]. Qed.

Lemma once_completed at_ : once at_ → once (completed at_).
Proof.
  intros [Hnd Hone]. split; [intros []; [apply Hnd|constructor]|].
  intros a slot slot' [Ha _]%elem_of_completed [Ha' _]%elem_of_completed. eauto.
Qed.

(** ** The invariant *)

Section Inv.
Context `{SdkLaws}.
Context (ch : string) (Hch : go_string ch).
Implicit Types (reg : string → bool).

Definition key_of_op k op : option string := consKeys k !! AddrAndChainIDKey op ch.
Definition owner k ca : option string := consAddrs k !! ChainIDAndAddrKey ch ca.
Definition removing k op : bool := IsOperatorRemovingKeyFromChainID op ch k.

Record queue_inv reg k (ops addrs : option string → list string) : Prop := {
  (** a queued operator is removing its key, whose address is queued for the same time *)
  qi_op op slot : op ∈ ops slot →
    acc20 op ∧ reg op = true ∧ removing k op = true ∧
    ∃ key, key_of_op k op = Some key ∧ ToConsAddr key ∈ addrs slot;
  (** a queued address is known; if it is in use, its operator is queued for the same time *)
  qi_addr ca slot : ca ∈ addrs slot →
    ∃ op, acc20 op ∧ owner k ca = Some op ∧
      ∀ key, key_of_op k op = Some key → ToConsAddr key = ca → op ∈ ops slot;
  qi_removing op : acc20 op → removing k op = true → ∃ slot, op ∈ ops slot;
  qi_ops_once : once ops;
  qi_addrs_once : once addrs;
}.

(** The keys of the chain are all that counts. *)
Record same_chain k k' : Prop := {
  sc_key op : acc20 op → key_of_op k' op = key_of_op k op;
  sc_owner ca : owner k' ca = owner k ca;
  sc_removing op : acc20 op → removing k' op = removing k op;
}.

Lemma queue_inv_chain reg reg' k k' ops addrs :
  same_chain k k' → (∀ op, reg op = true → reg' op = true) →
  queue_inv reg k ops addrs → queue_inv reg' k' ops addrs.
Proof.
  intros [Hk Ho Hr] Hreg [Hop Haddr Hrem ??]. split; [..|done|done].
  - intros op slot Hin. destruct (Hop op slot Hin) as (Hacc & ? & Hrm & key & Hkey & Hca).
    rewrite Hr, Hk by done. split_and!; eauto.
  - intros ca slot Hin. destruct (Haddr ca slot Hin) as (op & Hacc & Hown & Huse).
    exists op. rewrite Ho, Hk by done. eauto.
  - intros op Hacc. rewrite Hr by done. by apply Hrem.
Qed.

Lemma queue_inv_slots reg k ops addrs ops' addrs' :
  (∀ slot, ops' slot = ops slot) → (∀ slot, addrs' slot = addrs slot) →
  queue_inv reg k ops addrs → queue_inv reg k ops' addrs'.
Proof.
  intros Ho Ha [Hop Haddr Hrem Hoo Hao].
  split; [setoid_rewrite Ho; setoid_rewrite Ha; done|setoid_rewrite Ho; setoid_rewrite Ha; done|
    setoid_rewrite Ho; done|by eapply once_ext|by eapply once_ext].
Qed.

(** A key that is in use and not being removed is not queued. *)
Lemma active_not_queued reg k ops addrs op key slot :
  queue_inv reg k ops addrs → keys_inv k → acc20 op → key_of_op k op = Some key → removing k op = false →
  ToConsAddr key ∉ addrs slot.
Proof.
  intros Hinv Hkeys Hacc Hkey Hrem Hin. destruct (qi_addr _ _ _ _ Hinv _ _ Hin) as (op' & _ & Hown & Huse).
  pose proof (ki_back _ Hkeys _ _ _ Hacc Hch Hkey) as Hb. unfold owner in Hown. rewrite Hb in Hown.
  injection Hown as <-. apply Huse in Hkey; [|done].
  apply (qi_op _ _ _ _ Hinv) in Hkey as (_ & _ & Hr & _). congruence.
Qed.

(** ** Setting a key *)

Lemma set_key_view op key k u k' :
  acc20 op → setOperatorConsKeyForChainIDUnchecked op ch key k = (Ok u, k') →
  (∀ op', acc20 op' → key_of_op k' op' = if decide (op' = op) then Some key else key_of_op k op') ∧
  (∀ ca, owner k' ca = if decide (ca = ToConsAddr key) then Some op else owner k ca) ∧
  (∀ op', removing k' op' = removing k op').
Proof.
  intros Hop Hrun. unfold setOperatorConsKeyForChainIDUnchecked in Hrun. go_inv.
  unfold key_of_op, owner, KeyForOperatorAndChainIDToConsKey, KeyForChainIDAndConsKeyToOperator. cbn.
  split_and!; [| |done].
  - intros op' Hop'. decide_goal; [subst; by rewrite lookup_insert_eq|].
    rewrite lookup_insert_ne; [done|]. apply addr_chain_ne; naive_solver.
  - intros ca. decide_goal; [subst; by rewrite lookup_insert_eq|].
    rewrite lookup_insert_ne; [done|]. apply chain_addr_ne; naive_solver.
Qed.

Lemma queue_inv_set reg k ops addrs op key u k' :
  queue_inv reg k ops addrs → acc20 op → removing k op = false → owner k (ToConsAddr key) = None →
  setOperatorConsKeyForChainIDUnchecked op ch key k = (Ok u, k') → queue_inv reg k' ops addrs.
Proof.
  intros [Hop Haddr Hrem ??] Hacc Hnr Hfree (Hk & Ho & Hr)%set_key_view; [|done]. split; [..|done|done].
  - intros op' slot Hin. destruct (Hop op' slot Hin) as (Hacc' & ? & Hrm & key' & Hkey & ?).
    rewrite Hr, Hk by done. split_and!; [done..|]. exists key'. by rewrite decide_False by congruence.
  - intros ca slot Hin. destruct (Haddr ca slot Hin) as (op' & Hacc' & Hown & Huse).
    assert (ca ≠ ToConsAddr key) as Hne by congruence.
    exists op'. rewrite Ho, Hk, decide_False by done. split_and!; [done..|]. intros key'. decide_goal; [|apply Huse].
    intros [= <-]. congruence.
  - intros op'. rewrite Hr. apply Hrem.
Qed.

Lemma queue_inv_append reg k ops addrs e op ca :
  queue_inv reg k ops addrs → acc20 op → owner k ca = Some op →
  (∀ key, key_of_op k op = Some key → ToConsAddr key ≠ ca) → (∀ slot, ca ∉ addrs slot) →
  queue_inv reg k ops (put_at e ca addrs).
Proof.
  intros [Hop Haddr Hrem ??] Hacc Hown Hold Hnin. split; [..|done|by apply once_put].
  - intros op' slot Hin. destruct (Hop op' slot Hin) as (? & ? & ? & key & ? & ?).
    split_and!; [done..|]. exists key. rewrite elem_of_put_at. auto.
  - intros ca' slot [Hin|[-> ->]]%elem_of_put_at; [eauto|]. exists op. split_and!; [done..|].
    intros key Hkey Heq. by destruct (Hold key).
  - done.
Qed.

(** ** Removing a key *)

Lemma removing_insert op op' k :
  acc20 op → acc20 op' →
  removing (set_keyRemovals (insert (AddrAndChainIDKey op ch) tt) k) op' =
  if decide (op' = op) then true else removing k op'.
Proof.
  intros Hop Hop'. unfold removing, IsOperatorRemovingKeyFromChainID, KeyForOperatorKeyRemovalForChainID. cbn.
  decide_goal; [subst; by rewrite lookup_insert_eq|]. rewrite lookup_insert_ne; [done|].
  apply addr_chain_ne; naive_solver.
Qed.

Lemma queue_inv_initiate reg k ops addrs e op key :
  queue_inv reg k ops addrs → keys_inv k → acc20 op → reg op = true → key_of_op k op = Some key →
  removing k op = false →
  queue_inv reg (set_keyRemovals (insert (AddrAndChainIDKey op ch) tt) k)
    (put_at e op ops) (put_at e (ToConsAddr key) addrs).
Proof.
  intros Hinv Hkeys Hacc Hreg Hkey Hnr. pose proof Hinv as [Hop Haddr Hrem ??].
  assert (Hnin : ∀ slot, op ∉ ops slot) by (intros slot (_ & _ & ? & _)%Hop; congruence).
  split; [| | |by apply once_put|].
  - intros op' slot [Hin|[-> ->]]%elem_of_put_at.
    + destruct (Hop op' slot Hin) as (Hacc' & ? & Hr & key' & ? & ?). split_and!; [done..| |].
      * rewrite removing_insert by done. by decide_goal.
      * exists key'. rewrite elem_of_put_at. auto.
    + split_and!; [done..| |].
      * rewrite removing_insert by done. by decide_goal.
      * exists key. rewrite elem_of_put_at. auto.
  - intros ca slot [Hin|[-> ->]]%elem_of_put_at.
    + destruct (Haddr ca slot Hin) as (op' & ? & ? & Huse). exists op'. split_and!; [done..|].
      intros key' Hk' Hca. apply elem_of_put_at. eauto.
    + exists op. split_and!; [done|by apply (ki_back _ Hkeys)|]. intros _ _ _. apply elem_of_put_at. auto.
  - intros op' Hacc'. rewrite removing_insert by done. decide_goal.
    + intros _. exists e. apply elem_of_put_at. auto.
    + intros [slot ?]%Hrem; [|done]. exists slot. apply elem_of_put_at. auto.
  - apply once_put; [done|]. intros slot. by eapply (active_not_queued reg k ops addrs op key slot Hinv).
Qed.

(** ** The end of an epoch *)

Lemma queue_inv_mature reg k ops addrs e :
  queue_inv reg k ops addrs → ops None = [] → addrs None = [] →
  queue_inv reg k (mature e ops) (mature e addrs).
Proof.
  intros [Hop Haddr Hrem ??] Ho Ha. split; [| | |by apply once_mature..].
  - intros op slot Hin. destruct (Hop op (slot_from e slot)) as (? & ? & ? & key & ? & Hca);
      [by apply mature_from|]. split_and!; [done..|]. exists key. split; [done|].
    rewrite <-(mature_slot e ops slot op) by done. by apply mature_to.
  - intros ca slot Hin. destruct (Haddr ca (slot_from e slot)) as (op & ? & ? & Huse);
      [by apply mature_from|]. exists op. split_and!; [done..|]. intros key Hkey Heq.
    rewrite <-(mature_slot e addrs slot ca) by done. apply mature_to; eauto.
  - intros op Hacc [slot Hin]%Hrem; [|done]. exists (slot_to e slot). by apply mature_to.
Qed.

(** ** Completing what has matured *)

Record finished k k' (ops addrs : list string) : Prop := {
  fi_key op : acc20 op → key_of_op k' op = if decide (op ∈ ops) then None else key_of_op k op;
  fi_removing op : acc20 op → removing k' op = if decide (op ∈ ops) then false else removing k op;
  fi_owner ca : owner k' ca = if decide (ca ∈ addrs) then None else owner k ca;
}.

Lemma queue_inv_finished reg k k' ops addrs :
  queue_inv reg k ops addrs → finished k k' (ops None) (addrs None) →
  queue_inv reg k' (completed ops) (completed addrs).
Proof.
  intros [Hop Haddr Hrem Hoo Hao] [Hk Hr Ho]. split; [| | |by apply once_completed..].
  - intros op slot [Hin Hne]%elem_of_completed. destruct (Hop op slot Hin) as (? & ? & ? & key & ? & Hca).
    rewrite Hr, Hk, !decide_False by (done || by intros ?; destruct Hne; apply Hoo with op).
    split_and!; [done..|]. exists key. by rewrite elem_of_completed.
  - intros ca slot [Hin Hne]%elem_of_completed. destruct (Haddr ca slot Hin) as (op & ? & ? & Huse).
    exists op. rewrite Ho, Hk, decide_False by (done || by intros ?; destruct Hne; apply Hao with ca).
    split_and!; [done..|]. intros key. decide_goal; [done|]. intros Hkey Heq. apply elem_of_completed. eauto.
  - intros op Hacc. rewrite Hr by done. decide_goal; [done|]. intros [slot Hin]%Hrem; [|done].
    exists slot. apply elem_of_completed. split; [done|]. by intros ->.
Qed.

(** The addresses that have matured are of no key that is left. *)
Lemma matured_retired reg k k' ops addrs ca :
  queue_inv reg k ops addrs → keys_inv k' →
  (∀ op, acc20 op → key_of_op k' op = if decide (op ∈ ops None) then None else key_of_op k op) →
  (∀ ca op, owner k' ca = Some op → owner k ca = Some op) →
  ca ∈ addrs None → retired ch ca k'.
Proof.
  intros Hinv Hkeys Hk Ho Hin op key Hacc Hkey Heq. subst ca.
  pose proof (ki_back _ Hkeys _ _ _ Hacc Hch Hkey) as Hown%Ho.
  destruct (qi_addr _ _ _ _ Hinv _ _ Hin) as (op' & _ & Hown' & Huse).
  rewrite Hown in Hown'. injection Hown' as <-. specialize (Hk op Hacc). unfold key_of_op at 1 in Hk.
  rewrite Hkey in Hk. destruct (decide _) as [|Hnin]; [done|]. by apply Hnin, (Huse key).
Qed.
End Inv.


(** ** What the hooks do to the queues *)

Section Hooks.
Context `{SdkLaws} {chain : ChainSdk} {R : Type} {ot : Others R} {sk : SlashingKeeper R}.
Context (ctx : Ctx) (ChainID : string).
Implicit Types (y : DogfoodExt R).

Definition y_queues y : QueueState := ds_queues (de_dogfood y).

(** The operators or the addresses change as told. *)
Record queue_change (fo fa : (option string → list string) → option string → list string) q q' : Prop := {
  qc_ops slot : ops_at q' slot = fo (ops_at q) slot;
  qc_addrs slot : addrs_at q' slot = fa (addrs_at q) slot;
}.

Lemma append_slot {A} (m : gmap string (list A)) e a e' :
  default [] (<[e := default [] (m !! e) ++ [a]]> m !! e') =
  if decide (Some e' = Some e) then default [] (m !! e') ++ [a] else default [] (m !! e').
Proof.
  decide_goal; [simplify_eq; by rewrite lookup_insert_eq|]. rewrite lookup_insert_ne; congruence.
Qed.

Lemma AppendConsensusAddrToPrune_Ok {E} n ca q u q' :
  AppendConsensusAddrToPrune n ca q = (Ok u : result E unit, q') →
  ∃ e, ConsensusAddrsToPruneKey n = Some e ∧ queue_change id (put_at (Some e) ca) q q'.
Proof.
  unfold AppendConsensusAddrToPrune, GetConsensusAddrsToPrune, setConsensusAddrsToPrune, with_key.
  intros Hrun. destruct (ConsensusAddrsToPruneKey n) as [e|]; [|by go_inv]. go_inv. exists e.
  split; [done|]. split; [by intros []|]. intros [e'|]; [apply append_slot|done].
Qed.

Lemma AppendOptOutToFinish_Ok {E} n op q u q' :
  AppendOptOutToFinish n op q = (Ok u : result E unit, q') →
  ∃ e, OptOutsToFinishKey n = Some e ∧ queue_change (put_at (Some e) op) id q q'.
Proof.
  unfold AppendOptOutToFinish, GetOptOutsToFinish, setOptOutsToFinish, with_key.
  intros Hrun. destruct (OptOutsToFinishKey n) as [e|]; [|by go_inv]. go_inv. exists e.
  split; [done|]. split; [|by intros []]. intros [e'|]; [apply append_slot|done].
Qed.

Lemma keeps_queues_others {E A} (m : M R E A) : keeps y_queues (others_of m).
Proof. by apply keeps_zoom. Qed.

Hint Resolve keeps_queues_others : keeps.

Lemma afterValidatorCreated_keeps a o acc :
  keeps y_queues (afterValidatorCreated ctx ChainID a o acc).
Proof. unfold afterValidatorCreated. solve_keeps. Qed.

Lemma AfterOperatorKeySet_keeps a o acc c key :
  keeps y_queues (dogfood_AfterOperatorKeySet ctx ChainID a o acc c key).
Proof.
  pose proof afterValidatorCreated_keeps. unfold dogfood_AfterOperatorKeySet. solve_keeps.
Qed.

Lemma queues_of_Ok {E A} (m : M QueueState E A) y v y' :
  queues_of m y = (Ok v, y') → m (y_queues y) = (Ok v, y_queues y').
Proof. unfold queues_of, dogfood_of, on_queues. intros Hrun. go_inv. done. Qed.

Lemma GetUnbondingCompletionEpoch_Ok {E} y n y' :
  GetUnbondingCompletionEpoch y = (Ok n : result E Z, y') → y' = y.
Proof.
  unfold GetUnbondingCompletionEpoch. intros Hrun. go_inv.
  destruct (GetEpochInfo _ _); go_inv; done.
Qed.

Lemma AfterOperatorKeyReplaced_queues a o acc old new c y u y' :
  dogfood_AfterOperatorKeyReplaced ctx ChainID a o acc old new c y = (Ok u, y') →
  if is_this_chain ChainID c then ∃ e, queue_change id (put_at (Some e) (ToConsAddr old)) (y_queues y) (y_queues y')
  else y_queues y' = y_queues y.
Proof.
  unfold dogfood_AfterOperatorKeyReplaced. destruct (is_this_chain _ _); intros Hrun; [|by go_inv].
  apply bind_Ok in Hrun as (? & y1 & Hcr & Hrun). apply keeps_Ok with (f := y_queues) in Hcr as <-;
    [|apply afterValidatorCreated_keeps].
  go_inv. match goal with Hr : GetUnbondingCompletionEpoch _ = _ |- _ =>
    apply GetUnbondingCompletionEpoch_Ok in Hr as -> end.
  match goal with Hr : queues_of _ _ = _ |- _ => apply queues_of_Ok, AppendConsensusAddrToPrune_Ok in Hr as (e & _ & Hq) end.
  exists e. match goal with Hr : others_of _ _ = _ |- _ => apply keeps_Ok with (f := y_queues) in Hr as -> end;
    [done|apply keeps_queues_others].
Qed.

Lemma ScheduleOperatorOptOut_queues {E} op ca y u y' :
  ScheduleOperatorOptOut op ca y = (Ok u : result E unit, y') →
  ∃ e, queue_change (put_at (Some e) op) (put_at (Some e) ca) (y_queues y) (y_queues y').
Proof.
  unfold ScheduleOperatorOptOut. intros Hrun. go_inv.
  match goal with Hr : GetUnbondingCompletionEpoch _ = _ |- _ =>
    apply GetUnbondingCompletionEpoch_Ok in Hr as -> end.
  repeat match goal with Hr : queues_of _ _ = _ |- _ => apply queues_of_Ok in Hr end.
  match goal with Hr : AppendOptOutToFinish _ _ _ = _ |- _ => apply AppendOptOutToFinish_Ok in Hr as (e & He & [Ho Ha]) end.
  match goal with Hr : AppendConsensusAddrToPrune _ _ _ = _ |- _ =>
    apply AppendConsensusAddrToPrune_Ok in Hr as (e' & He' & [Ho' Ha']) end.
  assert (e' = e) as -> by (unfold OptOutsToFinishKey, ConsensusAddrsToPruneKey in *; congruence).
  unfold SetOperatorOptOutFinishEpoch in *. go_inv.
  match goal with Hs : y_queues _ = set_optOutFinishEpochs _ _ |- _ => rewrite Hs in Ho', Ha' end.
  exists e. split; intros slot.
  - rewrite Ho'. rewrite <-Ho. by destruct slot.
  - rewrite Ha'. unfold put_at. unfold id in Ha. decide_goal; rewrite <-(Ha slot); by destruct slot.
Qed.
End Hooks.

(** ** The steps of a block *)

Section Steps.
Context `{SdkLaws} {chain : ChainSdk} {R : Type} {ot : Others R} {sk : SlashingKeeper R}.
Context (ctx : Ctx) (ChainID : string).
Abbreviation ch := (ChainIDWithoutRevision ChainID).
Context (Hch : go_string ch).
#[local] Instance ot_dogfood : Others (DogfoodExt R) := dogfood_others ctx ChainID.
Abbreviation X := (OperatorExt (DogfoodExt R)).
Implicit Types (x : X) (d : DogfoodState).

Definition x_queues x : QueueState := y_queues (oe_rest x).
Definition registered x (op : string) : bool := OperatorStore.IsOperator op (x_info x).

Record sched_inv x : Prop := {
  si_keys : keys_inv (x_keys x);
  si_queue : queue_inv ch (registered x) (x_keys x) (ops_at (x_queues x)) (addrs_at (x_queues x));
}.

Lemma sched_inv_change x x' fo fa k :
  x_info x' = x_info x → x_keys x' = k → keys_inv k →
  queue_change fo fa (x_queues x) (x_queues x') →
  queue_inv ch (registered x) k (fo (ops_at (x_queues x))) (fa (addrs_at (x_queues x))) → sched_inv x'.
Proof.
  intros Hi Hk Hkeys [Ho Ha] Hq. split; [by rewrite Hk|]. unfold registered. rewrite Hi, Hk.
  eapply queue_inv_slots; [exact Ho|exact Ha|exact Hq].
Qed.

Lemma queue_change_id q q' : q' = q → queue_change id id q q'.
Proof. by intros ->. Qed.

Lemma rest_of_run {A} (m : M (DogfoodExt R) error A) x v x' :
  rest_of m x = (Ok v, x') → ∃ y', m (oe_rest x) = (Ok v, y') ∧ x' = put_rest y' x.
Proof. unfold rest_of. intros Hrun. go_inv. eauto. Qed.

(** The stores that [setOperatorConsKeyForChainID] leaves. *)
Record key_was_set a op c key x x' : Prop := {
  ks_removing : IsOperatorRemovingKeyFromChainID op c (x_keys x) = false;
  ks_free : consAddrs (x_keys x) !! ChainIDAndAddrKey c (ToConsAddr key) = None;
  ks_info : x_info x' = x_info x;
  ks_set : ∃ f v, setOperatorConsKeyForChainIDUnchecked op c key (set_prevConsKeys f (x_keys x)) =
    (Ok v, x_keys x');
  ks_hook : x_queues x' = x_queues x ∨
    ∃ prev o v', consKeys (x_keys x) !! AddrAndChainIDKey op c = Some prev ∧
      AfterOperatorKeyReplaced a o op prev key c (oe_rest x) = (Ok v', oe_rest x');
}.

Lemma AfterOperatorKeySet_queues a o op c key (y : DogfoodExt R) v y' :
  AfterOperatorKeySet a o op c key y = (Ok v, y') → y_queues y' = y_queues y.
Proof.
  intros Hrun. eapply keeps_Ok; [|exact Hrun]. apply keeps_bind; [apply AfterOperatorKeySet_keeps|].
  intros _. apply keeps_queues_others.
Qed.

Lemma set_prev_id (k : KeyState) : k = set_prevConsKeys id k.
Proof. by destruct k. Qed.

Lemma setOperatorConsKey_Ok a op c key x u x' :
  is_Some (IsAVSByChainID (oe_rest x) c) →
  SetOperatorConsKeyForChainID a op c key x = (Ok u, x') → x' = x ∨ key_was_set a op c key x x'.
Proof.
  intros [avs Havs] Hrun. unfold SetOperatorConsKeyForChainID, setOperatorConsKeyForChainID in Hrun. go_inv.
  match goal with Hf : is_some (GetOperatorAddressForChainIDAndConsAddr _ _ _) = false |- _ => rename Hf into Hfree end.
  unfold GetOperatorAddressForChainIDAndConsAddr in Hfree. rewrite Havs in Hfree.
  destruct (consAddrs (x_keys x) !! _) eqn:Hfree'; [done|]. clear Hfree.
  destruct (getOperatorConsKeyForChainID op c (x_keys x)) as [prev|] eqn:Hprev.
  - destruct (EqualsWrapped prev key); [left; by go_inv|]. right.
    destruct (is_some (getOperatorPrevConsKeyForChainID op c (x_keys x))) eqn:Hrec; go_inv;
      rewrite Hrec in *; cbn [negb andb] in *; go_inv;
      repeat match goal with Hk : keys_of _ _ = _ |- _ => apply keys_of_Ok in Hk as (? & ? & ->) end.
    + split; [done..| |by left]. exists id. rewrite <-set_prev_id. eauto.
    + match goal with Hr : rest_of _ _ = _ |- _ => apply rest_of_run in Hr as (y' & Hr & ->) end.
      unfold setOperatorPrevConsKeyForChainID in *. go_inv. split; [done..| |right; by eexists _, _, _].
      eexists (insert (KeyForChainIDAndOperatorToPrevConsKey c op) prev), _. eassumption.
  - right. cbn [negb andb] in *. go_inv.
    match goal with Hk : keys_of _ _ = _ |- _ => apply keys_of_Ok in Hk as (? & ? & ->) end.
    match goal with Hr : rest_of _ _ = _ |- _ => apply rest_of_run in Hr as (y' & Hr & ->) end.
    split; [done..| |left; by eapply AfterOperatorKeySet_queues]. exists id. rewrite <-set_prev_id. eauto.
Qed.

Lemma AfterOperatorKeyReplaced_slots a o op prev key c (y : DogfoodExt R) v y' :
  AfterOperatorKeyReplaced a o op prev key c y = (Ok v, y') →
  if is_this_chain ChainID c then ∃ e, queue_change id (put_at (Some e) (ToConsAddr prev)) (y_queues y) (y_queues y')
  else y_queues y' = y_queues y.
Proof.
  intros (? & y1 & Hrun & Hbelow)%bind_Ok. apply AfterOperatorKeyReplaced_queues in Hrun.
  apply keeps_Ok with (f := y_queues) in Hbelow; [|apply keeps_queues_others]. by rewrite Hbelow.
Qed.

Lemma same_chain_prev f k : same_chain ch k (set_prevConsKeys f k).
Proof. done. Qed.

Lemma same_chain_set c op key f k v k' :
  acc20 op → go_string c → c ≠ ch →
  setOperatorConsKeyForChainIDUnchecked op c key (set_prevConsKeys f k) = (Ok v, k') → same_chain ch k k'.
Proof.
  intros Hop Hc Hne Hrun. unfold setOperatorConsKeyForChainIDUnchecked in Hrun. go_inv.
  unfold KeyForOperatorAndChainIDToConsKey, KeyForChainIDAndConsKeyToOperator.
  split; unfold key_of_op, owner; [|..|done]; cbn.
  - intros op' Hop'. rewrite lookup_insert_ne; [done|]. apply addr_chain_ne; naive_solver.
  - intros ca. rewrite lookup_insert_ne; [done|]. apply chain_addr_ne; naive_solver.
Qed.

Lemma sched_inv_replaced a op key x x' :
  acc20 op → sched_inv x → key_was_set a op ch key x x' → keys_inv (x_keys x') →
  queue_inv ch (registered x) (x_keys x') (ops_at (x_queues x)) (addrs_at (x_queues x)) → sched_inv x'.
Proof.
  intros Hop [Hkeys Hinv] [Hnr Hfree Hinfo (f & v & Hset) Hhook] Hkeys' Hq.
  destruct Hhook as [Hsame|(prev & o & v' & Hprev & Hrun)].
  { by eapply (sched_inv_change x x' id id); [done..|apply queue_change_id|]. }
  apply AfterOperatorKeyReplaced_slots in Hrun. unfold is_this_chain in Hrun.
  rewrite bool_decide_true in Hrun by done. destruct Hrun as [e Hchange].
  apply set_key_view in Hset as (Hk & Ho & _); [|done|done].
  pose proof (ki_back _ Hkeys _ _ _ Hop Hch Hprev) as Hback.
  eapply (sched_inv_change x x' id (put_at (Some e) (ToConsAddr prev))); [done..|].
  eapply queue_inv_append with (op := op); [done|done| | |].
  - rewrite Ho. decide_goal; [done|exact Hback].
  - intros key'. rewrite Hk, decide_True by done. intros [= <-] Heq. congruence.
  - intros slot. by apply (active_not_queued ch Hch _ _ _ _ op prev slot Hinv).
Qed.

Lemma sched_inv_set a op c key x u x' :
  acc20 op → go_string c → is_Some (IsAVSByChainID (oe_rest x) c) →
  SetOperatorConsKeyForChainID a op c key x = (Ok u, x') → sched_inv x → sched_inv x'.
Proof.
  intros Hop Hc Havs Hrun Hinv.
  assert (Hkeys' : keys_inv (x_keys x')) by by eapply setOperatorConsKey_inv, si_keys.
  apply setOperatorConsKey_Ok in Hrun as [->|Hset]; [done| |done].
  pose proof Hset as [Hnr Hfree Hinfo (f & v & Hrun) Hhook]. destruct (decide (c = ch)) as [->|Hne].
  - eapply sched_inv_replaced; [done..|]. eapply queue_inv_set with (k := set_prevConsKeys f (x_keys x)); [done| |done..].
    eapply queue_inv_chain; [apply same_chain_prev|done|apply Hinv].
  - eapply (sched_inv_change x x' id id); [done..| |].
    + apply queue_change_id. destruct Hhook as [|(prev & o & v' & _ & Hr)]; [done|].
      apply AfterOperatorKeyReplaced_slots in Hr. unfold is_this_chain in Hr. by rewrite bool_decide_false in Hr.
    + eapply queue_inv_chain; [by eapply same_chain_set|done|apply Hinv].
Qed.

Lemma AfterOperatorKeyRemovalInitiated_slots o op c key (y : DogfoodExt R) v y' :
  AfterOperatorKeyRemovalInitiated o op c key y = (Ok v, y') →
  if is_this_chain ChainID c
  then ∃ e, queue_change (put_at (Some e) op) (put_at (Some e) (ToConsAddr key)) (y_queues y) (y_queues y')
  else y_queues y' = y_queues y.
Proof.
  intros (? & y1 & Hrun & Hbelow)%bind_Ok.
  apply keeps_Ok with (f := y_queues) in Hbelow; [|apply keeps_queues_others]. rewrite Hbelow.
  unfold dogfood_AfterOperatorKeyRemovalInitiated in Hrun. destruct (is_this_chain _ _); [|by go_inv].
  by apply ScheduleOperatorOptOut_queues in Hrun.
Qed.

Lemma sched_inv_initiate op c x u x' :
  acc20 op → go_string c → registered x op = true →
  IsOperatorRemovingKeyFromChainID op c (x_keys x) = false →
  InitiateOperatorKeyRemovalForChainID op c x = (Ok u, x') → sched_inv x → sched_inv x'.
Proof.
  intros Hop Hc Hreg Hnr Hrun [Hkeys Hinv].
  assert (Hkeys' : keys_inv (x_keys x')) by by eapply InitiateOperatorKeyRemoval_inv.
  unfold InitiateOperatorKeyRemovalForChainID in Hrun. go_inv.
  match goal with Hm : keys_of _ _ = _ |- _ => apply keys_of_Ok in Hm as (k & Hk & ->) end.
  destruct (getOperatorConsKeyForChainID _ _ _) as [key|] eqn:Hkey; [|done]. go_inv.
  match goal with Hr : rest_of _ _ = _ |- _ => apply rest_of_run in Hr as (y' & Hr & ->) end. go_inv.
  match goal with Hr : AfterOperatorKeyRemovalInitiated _ _ _ _ _ = _ |- _ =>
    apply AfterOperatorKeyRemovalInitiated_slots in Hr as Hslots end.
  unfold is_this_chain in Hslots. destruct (decide (c = ch)) as [->|Hne].
  - rewrite bool_decide_true in Hslots by done. destruct Hslots as [e Hchange].
    eapply (sched_inv_change x); [reflexivity|reflexivity|done|exact Hchange|].
    by apply queue_inv_initiate.
  - rewrite bool_decide_false in Hslots by done.
    eapply (sched_inv_change x _ id id); [reflexivity|reflexivity|done|by apply queue_change_id|].
    eapply queue_inv_chain; [|done|exact Hinv]. split; [done..|]. intros op' Hop'. cbn.
    unfold removing, IsOperatorRemovingKeyFromChainID, KeyForOperatorKeyRemovalForChainID. cbn.
    rewrite lookup_insert_ne; [done|]. apply addr_chain_ne; naive_solver.
Qed.

(** ** The end of an epoch *)

Lemma delete_finish_epochs {E} (l : list string) d u d' :
  for_each l (λ addr, on_queues (DeleteOperatorOptOutFinishEpoch addr)) d = (Ok u : result E unit, d') →
  ∃ f, d' = put_queues (set_optOutFinishEpochs f (ds_queues d)) d.
Proof.
  revert d. induction l as [|a l IH]; cbn; intros d Hrun; go_inv.
  { exists id. by destruct d' as [? [] ???]. }
  unfold on_queues, DeleteOperatorOptOutFinishEpoch in *. go_inv.
  match goal with Hr : for_each _ _ _ = _ |- _ => apply IH in Hr as [f ->] end.
  by eexists (λ m, f (delete a m)).
Qed.

Lemma AfterEpochEnd_slots identifier epoch d u d' :
  dogfood_AfterEpochEnd identifier epoch d = (Ok u, d') →
  if decide (identifier = GetEpochIdentifier d)
  then (∃ e, OptOutsToFinishKey epoch = Some e ∧
         queue_change (mature e) (mature e) (ds_queues d) (ds_queues d')) ∧ shouldUpdate d' = true
  else d' = d.
Proof.
  unfold dogfood_AfterEpochEnd. intros Hrun. go_inv. rewrite bool_decide_decide in *. decide_goal; [|by go_inv].
  go_inv. unfold on_queues, GetOptOutsToFinish, ClearOptOutsToFinish, GetConsensusAddrsToPrune,
    ClearConsensusAddrsToPrune, with_key in *.
  change (ConsensusAddrsToPruneKey epoch) with (OptOutsToFinishKey epoch) in *.
  destruct (OptOutsToFinishKey epoch) as [e|]; go_inv.
  match goal with Hr : for_each _ _ _ = _ |- _ => apply delete_finish_epochs in Hr as [f ->] end.
  split; [|done]. exists e. split; [done|]. split; intros [e'|]; cbn; [|done|..|done]; decide_goal; subst;
    by rewrite ?lookup_delete_eq, ?lookup_delete_ne.
Qed.

Lemma sched_inv_epoch identifier epoch x u d' :
  GetPendingOptOuts (x_queues x) = [] → GetPendingConsensusAddrs (x_queues x) = [] →
  dogfood_AfterEpochEnd identifier epoch (de_dogfood (oe_rest x)) = (Ok u, d') →
  sched_inv x → sched_inv (put_rest (put_dogfood d' (oe_rest x)) x).
Proof.
  intros Ho Ha Hrun%AfterEpochEnd_slots [Hkeys Hinv]. destruct (decide _) as [Hid|].
  - destruct Hrun as [(e & _ & Hchange) _]. eapply (sched_inv_change x); [done|done|done|exact Hchange|].
    by apply queue_inv_mature.
  - subst d'. by split.
Qed.
End Steps.

(** ** The end of a block completes what has matured *)

(** x/slashing lets a validator go: its hook never returns an error. *)
Class RemoveAccepts (R : Type) {sk : SlashingKeeper R} : Prop :=
  remove_accepts ctx addr (r : R) : ∃ r', AfterValidatorRemoved Hooks ctx addr r = (Ok tt, r').

Section Finish.
Context `{SdkLaws} {chain : ChainSdk} {B R : Type} {ot : Others R} {sk : SlashingKeeper R} {ra : RemoveAccepts R}.
Context (ctx : Ctx) (ch : string) (Hch : go_string ch).
Abbreviation W := (World B (OperatorExt (DogfoodExt R))).
Implicit Types (w : W).

Definition w_keys w : KeyState := x_keys (w_ext w).
Definition with_keys k w : W := {|
  w_assets := w_assets w; w_delegation := w_delegation w; w_bank := w_bank w;
  w_ext := put_operator (put_keys k (oe_operator (w_ext w))) (w_ext w) |}.

Definition removed_key (op key : string) k : KeyState :=
  set_keyRemovals (delete (AddrAndChainIDKey op ch))
    (set_chainConsKeys (delete (ChainIDAndAddrKey ch op))
      (set_consKeys (delete (AddrAndChainIDKey op ch))
        (set_consAddrs (delete (ChainIDAndAddrKey ch (ToConsAddr key))) k))).

Lemma complete_run op key w :
  registered (w_ext w) op = true → is_Some (IsAVSByChainID (w_others w) ch) →
  removing ch (w_keys w) op = true → key_of_op ch (w_keys w) op = Some key →
  on_ext (below_dogfood (CompleteOperatorKeyRemovalForChainID op ch)) w =
    (Ok tt, with_keys (removed_key op key (w_keys w)) w).
Proof.
  intros Hreg [avs Havs] Hrem Hkey. unfold on_ext, below_dogfood, CompleteOperatorKeyRemovalForChainID, zoom.
  unfold check_operator_and_chain, registered, removing, key_of_op, w_keys in *. go_run.
  unfold x_info, x_keys, w_others, w_rest in *. cbn in *. rewrite Hreg. cbn. rewrite Havs. cbn. rewrite Hrem. cbn.
  unfold getOperatorConsKeyForChainID, KeyForOperatorAndChainIDToConsKey, x_keys. cbn. rewrite Hkey. cbn.
  by destruct w as [??? [? []]].
Qed.

Lemma removed_view op key k :
  acc20 op →
  (∀ op', acc20 op' → key_of_op ch (removed_key op key k) op' = if decide (op' = op) then None else key_of_op ch k op') ∧
  (∀ op', acc20 op' → removing ch (removed_key op key k) op' = if decide (op' = op) then false else removing ch k op') ∧
  (∀ ca, owner ch (removed_key op key k) ca = if decide (ca = ToConsAddr key) then None else owner ch k ca).
Proof.
  intros Hop. unfold key_of_op, removing, owner, IsOperatorRemovingKeyFromChainID, KeyForOperatorKeyRemovalForChainID.
  cbn. split_and!.
  - intros op' Hop'. decide_goal; [subst; by rewrite lookup_delete_eq|].
    rewrite lookup_delete_ne; [done|]. apply addr_chain_ne; naive_solver.
  - intros op' Hop'. decide_goal; [subst; by rewrite lookup_delete_eq|].
    rewrite lookup_delete_ne; [done|]. apply addr_chain_ne; naive_solver.
  - intros ca. decide_goal; [subst; by rewrite lookup_delete_eq|].
    rewrite lookup_delete_ne; [done|]. apply chain_addr_ne; naive_solver.
Qed.

(** The operators are gone, and no address but theirs. *)
Record operators_removed k k' (l addrs : list string) : Prop := {
  or_inv : keys_inv k';
  or_key op : acc20 op → key_of_op ch k' op = if decide (op ∈ l) then None else key_of_op ch k op;
  or_removing op : acc20 op → removing ch k' op = if decide (op ∈ l) then false else removing ch k op;
  or_owner ca op : owner ch k' ca = Some op → owner ch k ca = Some op;
  or_other ca : ca ∉ addrs → owner ch k' ca = owner ch k ca;
}.

Lemma operators_removed_cons k k' op key l addrs :
  acc20 op → op ∉ l → ToConsAddr key ∈ addrs →
  operators_removed (removed_key op key k) k' l addrs → operators_removed k k' (op :: l) addrs.
Proof.
  intros Hop Hnin Hca [Hinv Hk Hr Ho Hother]. destruct (removed_view op key k Hop) as (Vk & Vr & Vo).
  assert (Hif : ∀ (op' : string) A (a b : A), (if decide (op' ∈ l) then a else if decide (op' = op) then a else b) =
    if decide (op' ∈ op :: l) then a else b).
  { intros op' A a b. repeat decide_goal; try done; set_solver. }
  split; [done|..].
  - intros op' Hop'. by rewrite Hk, Vk, Hif.
  - intros op' Hop'. by rewrite Hr, Vr, Hif.
  - intros ca op'. intros Hown%Ho. rewrite Vo in Hown. by destruct (decide _).
  - intros ca Hnca. rewrite Hother, Vo by done. decide_goal; [by subst|done].
Qed.

Lemma complete_loop l addrs w :
  NoDup l → keys_inv (w_keys w) → is_Some (IsAVSByChainID (w_others w) ch) →
  (∀ op, op ∈ l → acc20 op ∧ registered (w_ext w) op = true ∧ removing ch (w_keys w) op = true ∧
    ∃ key, key_of_op ch (w_keys w) op = Some key ∧ ToConsAddr key ∈ addrs) →
  ∃ k', collect_failures (λ addr, on_ext (below_dogfood (CompleteOperatorKeyRemovalForChainID addr ch))) l w =
      (Ok [], with_keys k' w) ∧ operators_removed (w_keys w) k' l addrs.
Proof.
  revert w. induction l as [|op l IH]; intros w Hnd Hinv Havs Hl.
  { exists (w_keys w). split; [by destruct w as [??? [[] ?]]|]. split; [done..|eauto|done]. }
  apply NoDup_cons in Hnd as [Hnin Hnd].
  destruct (Hl op) as (Hop & Hreg & Hrem & key & Hkey & Hca); [apply list_elem_of_here|].
  destruct (removed_view op key (w_keys w) Hop) as (Vk & Vr & Vo).
  destruct (IH (with_keys (removed_key op key (w_keys w)) w)) as (k' & Hrun & Hrm); [done| |done| |].
  { by apply keys_inv_delete. }
  { intros op' Hin. destruct (Hl op') as (Hop' & Hreg' & Hrem' & key' & Hkey' & Hca'); [by apply list_elem_of_further|].
    change (w_keys (with_keys ?k w)) with k. rewrite Vk, Vr, decide_False by (done || by intros ->).
    split_and!; [done..|]. exists key'. by rewrite decide_False by by intros ->. }
  exists k'. cbn [collect_failures]. rewrite (complete_run op key) by done. rewrite Hrun.
  split; [done|]. by eapply operators_removed_cons.
Qed.

(** Only the keys, and what x/slashing knows, change. *)
Record only_keys w w' : Prop := {
  ok_info : x_info (w_ext w') = x_info (w_ext w);
  ok_dogfood : w_dogfood w' = w_dogfood w;
}.

Lemma only_keys_trans w1 w2 w3 : only_keys w1 w2 → only_keys w2 w3 → only_keys w1 w3.
Proof. intros [??] [??]. split; congruence. Qed.

Lemma prune_run ca w :
  ∃ w', prune_address ctx ch ca w = (Ok tt, w') ∧ only_keys w w' ∧
    w_keys w' = set_consAddrs (delete (ChainIDAndAddrKey ch ca)) (w_keys w).
Proof.
  destruct (remove_accepts ctx ca (w_others w)) as [r' Hr'].
  unfold prune_address, cached, mbind, M_bind. unfold_zooms. cbn -[Hooks]. unfold w_others, w_rest in Hr'.
  rewrite Hr'. cbn. eexists. split; [done|]. done.
Qed.

Lemma prune_loop l w :
  keys_inv (w_keys w) → (∀ ca, ca ∈ l → retired ch ca (w_keys w)) →
  ∃ w', collect_failures (prune_address ctx ch) l w = (Ok [], w') ∧ only_keys w w' ∧ keys_inv (w_keys w') ∧
    consKeys (w_keys w') = consKeys (w_keys w) ∧ keyRemovals (w_keys w') = keyRemovals (w_keys w) ∧
    ∀ ca, owner ch (w_keys w') ca = if decide (ca ∈ l) then None else owner ch (w_keys w) ca.
Proof.
  revert w. induction l as [|ca l IH]; intros w Hinv Hret; [by exists w|].
  destruct (prune_run ca w) as (w1 & Hrun1 & Hok1 & Hk1).
  destruct (IH w1) as (w' & Hrun & Hok & Hinv' & Hck & Hkr & Hown).
  { rewrite Hk1. eapply keys_inv_prune; [done|apply Hret, list_elem_of_here|reflexivity|done]. }
  { intros ca' Hin. rewrite Hk1. apply (Hret ca'). by apply list_elem_of_further. }
  rewrite Hk1 in Hck, Hkr. exists w'. cbn [collect_failures]. rewrite Hrun1, Hrun.
  split_and!; [done|by eapply only_keys_trans|done..|]. intros ca'. rewrite Hown, Hk1. unfold owner. cbn.
  destruct (decide (ca' = ca)) as [->|Hne].
  - rewrite lookup_delete_eq, (decide_True (P := ca ∈ ca :: l)) by apply list_elem_of_here. by decide_goal.
  - rewrite lookup_delete_ne by (by intros [_ ->]%ChainIDAndAddrKey_inj).
    rewrite (decide_ext (ca' ∈ ca :: l) (ca' ∈ l)); [done|]. rewrite elem_of_cons. tauto.
Qed.

Lemma ClearPreviousConsensusKeys_run k :
  ∃ f, ClearPreviousConsensusKeys ch k = (Ok tt, set_prevConsKeys f k).
Proof.
  unfold ClearPreviousConsensusKeys. go_run.
  generalize (prefix_iterator (ChainIDWithLenKey ch) (prevConsKeys k)) as l. intros l. revert k.
  induction l as [|kv l IH]; intros k; [exists id; by destruct k|].
  destruct (IH (set_prevConsKeys (delete kv.1) k)) as [f Hf]. exists (λ m, f (delete kv.1 m)). exact Hf.
Qed.

Lemma finish_opt_outs_run next w :
  keys_inv (w_keys w) → is_Some (IsAVSByChainID (w_others w) ch) →
  queue_inv ch (registered (w_ext w)) (w_keys w) (ops_at (w_queues w)) (addrs_at (w_queues w)) →
  ∃ k' w', finish_opt_outs ch next w = (Ok tt, w') ∧ w_keys w' = k' ∧ x_info (w_ext w') = x_info (w_ext w) ∧
    w_queues w' = ClearPendingOptOuts (w_queues w) ∧
    operators_removed (w_keys w) k' (ops_at (w_queues w) None) (addrs_at (w_queues w) None).
Proof.
  intros Hkeys Havs Hinv.
  destruct (complete_loop (ops_at (w_queues w) None) (addrs_at (w_queues w) None) w) as (k' & Hrun & Hrm);
    [apply (qi_ops_once _ _ _ _ _ Hinv)|done|done|intros op Hop; by apply (qi_op _ _ _ _ _ Hinv)|].
  unfold finish_opt_outs, mbind, M_bind, gets. cbn -[collect_failures on_rest].
  change (GetPendingOptOuts (w_queues w)) with (ops_at (w_queues w) None). rewrite Hrun.
  eexists k', _. split; [reflexivity|]. done.
Qed.

Lemma finish_pruning_run next w l :
  keys_inv (w_keys w) → GetPendingConsensusAddrs (w_queues w) = l →
  (∀ ca, ca ∈ l → retired ch ca (w_keys w)) →
  ∃ w', finish_pruning ctx ch next w = (Ok tt, w') ∧ keys_inv (w_keys w') ∧ x_info (w_ext w') = x_info (w_ext w) ∧
    w_queues w' = ClearPendingConsensusAddrs (w_queues w) ∧
    consKeys (w_keys w') = consKeys (w_keys w) ∧ keyRemovals (w_keys w') = keyRemovals (w_keys w) ∧
    ∀ ca, owner ch (w_keys w') ca = if decide (ca ∈ l) then None else owner ch (w_keys w) ca.
Proof.
  intros Hkeys Hl Hret. destruct (prune_loop l w Hkeys Hret) as (w' & Hrun & [Hi Hd] & Hinv' & Hrest).
  unfold finish_pruning, mbind, M_bind, gets. cbn -[collect_failures on_rest]. rewrite Hl, Hrun.
  eexists. split; [reflexivity|]. split; [exact Hinv'|]. split; [done|]. split; [|exact Hrest].
  unfold w_queues. rewrite <-Hd. done.
Qed.

(** What the end of the block leaves of the keys and the queues. *)
Record matured_done w w' : Prop := {
  md_keys : keys_inv (w_keys w');
  md_finished : finished ch (w_keys w) (w_keys w') (GetPendingOptOuts (w_queues w))
    (GetPendingConsensusAddrs (w_queues w));
  md_queues : queue_change completed completed (w_queues w) (w_queues w');
  md_info : x_info (w_ext w') = x_info (w_ext w);
}.

Lemma finish_matured_run next w :
  keys_inv (w_keys w) → is_Some (IsAVSByChainID (w_others w) ch) →
  queue_inv ch (registered (w_ext w)) (w_keys w) (ops_at (w_queues w)) (addrs_at (w_queues w)) →
  ∃ w', finish_matured ctx ch next w = (Ok tt, w') ∧ matured_done w w'.
Proof.
  intros Hkeys Havs Hinv. destruct (ClearPreviousConsensusKeys_run (w_keys w)) as [f Hf].
  set (w1 := with_keys (set_prevConsKeys f (w_keys w)) w).
  assert (Hclear : on_keys (ClearPreviousConsensusKeys ch) w = (Ok tt, w1)).
  { unfold on_keys, on_operator, on_ext, zoom. change (st_keys _) with (w_keys w). by rewrite Hf. }
  destruct (finish_opt_outs_run next w1) as (k2 & w2 & Hrun2 & Hk2 & Hi2 & Hq2 & Hrm);
    [by apply keys_inv_prev|done|by eapply queue_inv_chain; [| |exact Hinv]|]. pose proof Hrm as [Hinv2 Vk Vr Vo Vother].
  destruct (finish_pruning_run next w2 (addrs_at (w_queues w) None)) as (w3 & Hrun3 & Hinv3 & Hi3 & Hq3 & Hck & Hkr & Hown).
  { by rewrite Hk2. }
  { by rewrite Hq2. }
  { intros ca Hin. rewrite Hk2. eapply (matured_retired ch Hch); [exact Hinv|done| |exact Vo|done]. exact Vk. }
  exists w3. split; [unfold finish_matured, mbind, M_bind; by rewrite Hclear, Hrun2|]. subst k2.
  split; [done|split| |by rewrite Hi3, Hi2].
  - intros op Hop. unfold key_of_op at 1. rewrite Hck. by apply Vk.
  - intros op Hop. unfold removing at 1, IsOperatorRemovingKeyFromChainID. rewrite Hkr. by apply Vr.
  - intros ca. rewrite Hown. decide_goal; [by rewrite decide_True|]. rewrite decide_False by done. by apply Vother.
  - split; intros []; by rewrite Hq3, Hq2.
Qed.
End Finish.
