(* ===== verification/DogfoodBlocks.v ===== *)
(** * Blocks of x/dogfood

    A block ends an epoch or not, runs transactions that set and remove consensus keys, and
    ends.  In every chain of blocks the queues and the keys of x/operator stay consistent,
    what matures is completed in the block that ends its epoch, and the validator set is
    the top of the active operators. *)

From S2P Require Import Prelude Errors Sdk RefSdk KVStore Epochs DelegationTypes Assets.
From S2P Require Import DelegationStore UndelegationStore Delegation OperatorTypes.
From S2P Require Import OperatorStore OperatorSnapshot OperatorKeepers OperatorUnbonding OperatorUSD.
From S2P Require Import OperatorVotingPower OperatorKeys OperatorSlash OperatorSlashSafety.
From S2P Require Import ChainUtils DogfoodTypes DogfoodStore DogfoodKeepers DogfoodHooks DogfoodEndBlock.
From S2P Require Import DogfoodValidators DogfoodQueues.

Section Blocks.
Context `{SdkLaws} {chain : ChainSdk} {cl : ChainLaws sdk chain}.
Context {B R : Type} {ot : Others R} {sk : SlashingKeeper R} {ba : BondAccepts R} {ra : RemoveAccepts R}.
Context (ChainID : string).
Abbreviation ch := (ChainIDWithoutRevision ChainID).
Context (Hch : go_string ch).
Abbreviation X := (OperatorExt (DogfoodExt R)).
Abbreviation W := (World B X).
Implicit Types (w : W) (x : X) (ctx : Ctx).

(** ** The steps *)

Definition with_ext x w : W := {|
  w_assets := w_assets w; w_delegation := w_delegation w; w_bank := w_bank w; w_ext := x |}.

(** A transaction sets a key, starts to remove one (an operator that is registered and not
    doing so already: it has to be opted in), or leaves the keys and the queues
    alone. *)
Inductive tx_step ctx w : W → Prop :=
| tx_set op c key u x' :
    acc20 op → go_string c → is_Some (IsAVSByChainID (w_others w) c) →
    SetOperatorConsKeyForChainID (ot := dogfood_others ctx ChainID) (w_assets w) op c key (w_ext w) = (Ok u, x') →
    tx_step ctx w (with_ext x' w)
| tx_initiate op c u x' :
    acc20 op → go_string c → registered (w_ext w) op = true →
    IsOperatorRemovingKeyFromChainID op c (w_keys w) = false →
    InitiateOperatorKeyRemovalForChainID (ot := dogfood_others ctx ChainID) op c (w_ext w) = (Ok u, x') →
    tx_step ctx w (with_ext x' w)
| tx_other w' :
    w_keys w' = w_keys w → w_queues w' = w_queues w →
    (∀ op, registered (w_ext w) op = true → registered (w_ext w') op = true) →
    (shouldUpdate (w_dogfood w) = true → shouldUpdate (w_dogfood w') = true) → tx_step ctx w w'.

(** The end of an epoch, at the beginning of a block. *)
Definition epoch_ends identifier epoch w w1 : Prop :=
  ∃ u d', dogfood_AfterEpochEnd identifier epoch (w_dogfood w) = (Ok u, d') ∧
    w1 = with_ext (put_rest (put_dogfood d' (w_rest w)) (w_ext w)) w.

Inductive block w w' : Prop :=
| block_run ctx w1 w2 us :
    w1 = w ∨ (∃ identifier epoch, epoch_ends identifier epoch w w1) →
    rtc (tx_step ctx) w1 w2 →
    is_Some (IsAVSByChainID (w_others w2) ch) →
    EndBlock ctx ChainID w2 = (Ok us, w') → block w w'.

(** ** Inside a block *)

Abbreviation inv w := (sched_inv ChainID (w_ext w)).

(** What has matured stays, and the marker with it. *)
Record in_block w1 w2 : Prop := {
  ib_inv : inv w1 → inv w2;
  ib_ops : ops_at (w_queues w2) None = ops_at (w_queues w1) None;
  ib_addrs : addrs_at (w_queues w2) None = addrs_at (w_queues w1) None;
  ib_flag : shouldUpdate (w_dogfood w1) = true → shouldUpdate (w_dogfood w2) = true;
}.

#[local] Instance in_block_preorder : PreOrder in_block.
Proof. split; [done|]. intros w1 w2 w3 [????] [????]. split; [auto|congruence..|auto]. Qed.

Definition matured (y : DogfoodExt R) : list string * list string * bool :=
  (ops_at (y_queues y) None, addrs_at (y_queues y) None, shouldUpdate (de_dogfood y)).

Lemma keeps_matured_others {E A} (m : M R E A) : keeps matured (others_of m).
Proof. by apply keeps_zoom. Qed.

Lemma keeps_matured_append {E} e a :
  keeps matured (queues_of (AppendConsensusAddrToPrune e a) : M (DogfoodExt R) E unit).
Proof.
  intros y. unfold AppendConsensusAddrToPrune, GetConsensusAddrsToPrune, setConsensusAddrsToPrune, with_key.
  by destruct (ConsensusAddrsToPruneKey e).
Qed.

Lemma keeps_matured_opt_out {E} e a :
  keeps matured (queues_of (AppendOptOutToFinish e a) : M (DogfoodExt R) E unit).
Proof.
  intros y. unfold AppendOptOutToFinish, GetOptOutsToFinish, setOptOutsToFinish, with_key.
  by destruct (OptOutsToFinishKey e).
Qed.

Lemma keeps_matured_epoch {E} e a :
  keeps matured (queues_of (SetOperatorOptOutFinishEpoch a e) : M (DogfoodExt R) E unit).
Proof. done. Qed.

Hint Resolve keeps_matured_others keeps_matured_append keeps_matured_opt_out keeps_matured_epoch : keeps.

Lemma keeps_matured_keys {A} (m : M KeyState error A) : keeps (λ x, matured (oe_rest x)) (keys_of m).
Proof. by apply keeps_zoom. Qed.

Lemma keeps_matured_rest {A} (m : M (DogfoodExt R) error A) :
  keeps matured m → keeps (λ x, matured (oe_rest x)) (rest_of m).
Proof. intros Hm x. unfold rest_of, zoom. specialize (Hm (oe_rest x)). by destruct (m (oe_rest x)). Qed.

Hint Resolve keeps_matured_keys : keeps.

Section Hooks.
Context (ctx : Ctx).
#[local] Instance hooks : Others (DogfoodExt R) := dogfood_others ctx ChainID.

Lemma keeps_matured_unbonding {E} :
  keeps matured (GetUnbondingCompletionEpoch : M (DogfoodExt R) E Z).
Proof. unfold GetUnbondingCompletionEpoch. solve_keeps. Qed.

Lemma keeps_matured_set a o acc c key : keeps matured (AfterOperatorKeySet a o acc c key : M (DogfoodExt R) _ _).
Proof.
  cbn. unfold then_below, dogfood_AfterOperatorKeySet, afterValidatorCreated. solve_keeps.
Qed.

Lemma keeps_matured_replaced a o acc old new c :
  keeps matured (AfterOperatorKeyReplaced a o acc old new c : M (DogfoodExt R) _ _).
Proof.
  pose proof @keeps_matured_unbonding.
  cbn. unfold then_below, dogfood_AfterOperatorKeyReplaced, afterValidatorCreated. solve_keeps.
Qed.

Lemma keeps_matured_initiated o op c key :
  keeps matured (AfterOperatorKeyRemovalInitiated o op c key : M (DogfoodExt R) _ _).
Proof.
  pose proof @keeps_matured_unbonding.
  cbn. unfold then_below, dogfood_AfterOperatorKeyRemovalInitiated, ScheduleOperatorOptOut. solve_keeps.
Qed.

Lemma keeps_no_error {S T E A} (f : S → T) (m : M S Empty_set A) : keeps f m → keeps f (no_error m : M S E A).
Proof. intros Hm s. specialize (Hm s). unfold no_error. by destruct (m s) as [[| |] ?]. Qed.

Lemma keeps_matured_setKey a op c key :
  keeps (λ x, matured (oe_rest x)) (SetOperatorConsKeyForChainID a op c key : M X _ _).
Proof.
  pose proof keeps_matured_set. pose proof keeps_matured_replaced. pose proof @keeps_matured_rest.
  unfold SetOperatorConsKeyForChainID, setOperatorConsKeyForChainID.
  repeat first [apply keeps_matured_rest | progress solve_keeps]; auto.
Qed.

Lemma keeps_matured_initiate op c :
  keeps (λ x, matured (oe_rest x)) (InitiateOperatorKeyRemovalForChainID op c : M X _ _).
Proof.
  unfold InitiateOperatorKeyRemovalForChainID.
  repeat first [apply keeps_matured_rest, keeps_no_error, keeps_matured_initiated | progress solve_keeps]; auto.
Qed.
End Hooks.

Lemma matured_in_block w x' :
  matured (oe_rest x') = matured (w_rest w) → (inv w → sched_inv ChainID x') → in_block w (with_ext x' w).
Proof. intros [= Ho Ha Hf] Hinv. split; [done..|]. intros Hw. etransitivity; [exact Hf|exact Hw]. Qed.

Lemma tx_in_block ctx w w' : tx_step ctx w w' → in_block w w'.
Proof.
  intros Htx. destruct Htx as [op c key u x' Hop Hc Havs Hrun|op c u x' Hop Hc Hreg Hnr Hrun|w' Hk Hq Hreg Hflag].
  - apply matured_in_block.
    + by apply (keeps_Ok _ _ _ _ _ (keeps_matured_setKey ctx _ _ _ _) Hrun).
    + by apply (sched_inv_set ctx ChainID Hch (w_assets w) op c key _ u).
  - apply matured_in_block.
    + by apply (keeps_Ok _ _ _ _ _ (keeps_matured_initiate ctx _ _) Hrun).
    + by apply (sched_inv_initiate ctx ChainID Hch op c _ u).
  - split; [|by rewrite Hq..|done]. unfold w_keys in Hk. intros [Hkeys Hinv]. split; [by rewrite Hk|].
    change (x_queues (w_ext w')) with (w_queues w'). rewrite Hk, Hq. by eapply queue_inv_chain; [|exact Hreg|].
Qed.

Lemma txs_in_block ctx w w' : rtc (tx_step ctx) w w' → in_block w w'.
Proof. induction 1; [done|]. etransitivity; [by eapply tx_in_block|done]. Qed.

(** ** The end of a block *)

Definition keys_and_queues w := (w_keys w, x_info (w_ext w), w_queues w).

Lemma keeps_kq_rest {A} (m : M (DogfoodExt R) error A) : keeps y_queues m → keeps keys_and_queues (on_rest m).
Proof.
  intros Hm w. unfold on_rest, on_ext, zoom. specialize (Hm (w_rest w)). unfold w_rest in Hm.
  destruct (m (oe_rest (w_ext w))) as [r y']. unfold keys_and_queues, w_keys, w_queues, w_dogfood, y_queues in *. cbn in *.
  by rewrite Hm.
Qed.

Lemma keeps_vals {A} (m : M ValidatorState error A) : keeps y_queues (vals_of m : M (DogfoodExt R) _ _).
Proof. intros y. unfold_zooms. by destruct (m _). Qed.

Hint Resolve keeps_vals : keeps.

Lemma keeps_apply_changes ctx l : keeps y_queues (apply_changes ctx l : M (DogfoodExt R) _ _).
Proof.
  pose proof (@keeps_queues_others R).
  induction l as [|c l IH]; [done|]. cbn [apply_changes]. unfold apply_change.
  repeat first [apply keeps_bind; [|intros] | assumption | progress solve_keeps]; try done.
  unfold bond_validator. destruct (NewImuachainValidator _ _ _) as [v| |]; [|done..]. intros y.
  assert (Hc : keeps y_queues (cached (_ ← vals_of (SetImuachainValidator v);
    others_of (AfterValidatorBonded Hooks ctx (ToConsAddr (kp_Key c)))) : M (DogfoodExt R) error unit))
    by solve_keeps.
  specialize (Hc y). cbn beta. by destruct (cached _ y) as [[| |] ?].
Qed.

Lemma keeps_update ctx c : keeps keys_and_queues (update_validators ctx c).
Proof.
  unfold update_validators. apply keeps_bind; [by solve_keeps|]. intros prev.
  apply keeps_bind; [by solve_keeps|]. intros r. apply keeps_bind; [by solve_keeps|]. intros [sorted|]; [|done].
  apply keeps_bind; [by solve_keeps|]. intros n. destruct (power_loop _ _ _ _ _ _) as [[pm res] total].
  apply keeps_bind; [by solve_keeps|]. intros removed. apply keeps_bind.
  - case_bool_decide; [done|]. apply keeps_kq_rest, keeps_vals.
  - intros _. apply keeps_kq_rest. unfold ApplyValidatorChanges. apply keeps_bind; [apply keeps_apply_changes|].
    intros us. by solve_keeps.
Qed.

Lemma matured_done_ext w w1 w2 :
  keys_and_queues w2 = keys_and_queues w1 → matured_done ch w w1 → matured_done ch w w2.
Proof. intros [= Hk Hi Hq] [????]. split; by rewrite ?Hk, ?Hi, ?Hq. Qed.

Lemma EndBlock_Ok ctx w us w' :
  EndBlock ctx ChainID w = (Ok us, w') → inv w → is_Some (IsAVSByChainID (w_others w) ch) →
  if shouldUpdate (w_dogfood w) then matured_done ch w w' else keys_and_queues w' = keys_and_queues w.
Proof.
  intros Hrun [Hkeys Hinv] Havs. unfold EndBlock, ShouldUpdateValidatorSet in Hrun.
  apply bind_Ok in Hrun as (? & ? & [-> ->]%gets_Ok & Hrun).
  destruct (shouldUpdate (w_dogfood w)); cbn [negb] in Hrun.
  2:{ go_inv. eapply keeps_Ok; [|eassumption]. apply keeps_kq_rest, keeps_vals. }
  apply bind_Ok in Hrun as (? & ? & [-> ->]%gets_Ok & Hrun).
  destruct (GetEpochInfo _ _) as [info|]; [|done].
  destruct (finish_matured_run ctx ch Hch (wrap_int64 (ei_CurrentEpoch info + 1)) w Hkeys Havs Hinv) as (w1 & Hm & Hdone).
  rewrite (bind_run _ _ _ _ _ Hm) in Hrun. apply bind_Ok in Hrun as (us' & w2 & Hup & Hrun).
  apply (keeps_Ok _ _ _ _ _ (keeps_update ctx ch)) in Hup. go_inv.
  eapply matured_done_ext; [|exact Hdone]. rewrite <-Hup. eapply keeps_Ok; [|eassumption].
  apply keeps_kq_rest. done.
Qed.

(** Between blocks nothing is left that has matured. *)
Record settled w : Prop := {
  st_inv : inv w;
  st_ops : ops_at (w_queues w) None = [];
  st_addrs : addrs_at (w_queues w) None = [];
}.

Lemma inv_matured w w' : inv w → matured_done ch w w' → settled w'.
Proof.
  intros [Hkeys Hinv] [Hkeys' Hfin [Ho Ha] Hinfo]. split; [|by rewrite Ho|by rewrite Ha].
  split; [done|]. unfold registered. rewrite Hinfo.
  eapply queue_inv_slots; [exact Ho|exact Ha|]. by eapply queue_inv_finished.
Qed.

Lemma inv_same w w' : inv w → keys_and_queues w' = keys_and_queues w → inv w'.
Proof.
  intros [Hkeys Hinv] [= Hk Hi Hq]. unfold w_keys in Hk. split; [by rewrite Hk|]. unfold registered.
  change (x_queues (w_ext w')) with (w_queues w'). by rewrite Hk, Hi, Hq.
Qed.

Lemma EndBlock_settles ctx w us w' :
  EndBlock ctx ChainID w = (Ok us, w') → inv w → is_Some (IsAVSByChainID (w_others w) ch) →
  (shouldUpdate (w_dogfood w) = false → ops_at (w_queues w) None = [] ∧ addrs_at (w_queues w) None = []) →
  settled w'.
Proof.
  intros Hrun Hinv Havs Hpend. apply EndBlock_Ok in Hrun; [|done..]. destruct (shouldUpdate _).
  - by eapply inv_matured.
  - pose proof Hrun as Hkq. injection Hrun as _ _ Hq. destruct (Hpend eq_refl).
    split; [by eapply inv_same|by rewrite Hq..].
Qed.

Lemma epoch_ends_inv identifier epoch w w1 :
  settled w → epoch_ends identifier epoch w w1 →
  inv w1 ∧
  (w_queues w1 = w_queues w ∨
   identifier = GetEpochIdentifier (w_dogfood w) ∧ shouldUpdate (w_dogfood w1) = true ∧
   ∃ e, OptOutsToFinishKey epoch = Some e ∧ queue_change (mature e) (mature e) (w_queues w) (w_queues w1)).
Proof.
  intros [Hinv Ho Ha] (u & d' & Hrun & ->). split; [by eapply (sched_inv_epoch ChainID)|].
  apply AfterEpochEnd_slots in Hrun. destruct (decide _) as [Hid|]; [right|left; by subst d'].
  destruct Hrun as [He Hf]. done.
Qed.

Lemma block_settled w w' : settled w → block w w' → settled w'.
Proof.
  intros Hset [ctx w1 w2 us Hbegin Htxs Havs Hend]. apply txs_in_block in Htxs as [Hinv2 Ho2 Ha2 Hf2].
  assert (inv w1 ∧ (shouldUpdate (w_dogfood w1) = true ∨ w_queues w1 = w_queues w)) as [Hinv1 Hpend].
  { destruct Hbegin as [->|(identifier & epoch & He)]; [split; [apply Hset|by right]|].
    apply epoch_ends_inv in He as [? [?|(_ & ? & _)]]; auto. }
  eapply EndBlock_settles; [exact Hend|auto..|]. intros Hf. rewrite Ho2, Ha2.
  destruct Hpend as [Hf1|Hq]; [by rewrite Hf2 in Hf|]. rewrite Hq. split; apply Hset.
Qed.

(** ** Chains of blocks *)

(** The keys are consistent, none is being removed and nothing is queued. *)
Record fresh w : Prop := {
  fr_keys : keys_inv (w_keys w);
  fr_removals : keyRemovals (w_keys w) = ∅;
  fr_ops slot : ops_at (w_queues w) slot = [];
  fr_addrs slot : addrs_at (w_queues w) slot = [];
}.

Lemma once_empty (at_ : option string → list string) : (∀ slot, at_ slot = []) → once at_.
Proof.
  intros Hnil. split; [intros slot; rewrite Hnil; constructor|].
  intros a slot slot'. rewrite Hnil. by intros ?%not_elem_of_nil.
Qed.

Lemma fresh_settled w : fresh w → settled w.
Proof.
  intros [Hkeys Hrem Ho Ha]. split; [|done|done]. split; [done|].
  change (x_queues (w_ext w)) with (w_queues w). split; [| | |by apply once_empty..].
  - intros op slot. rewrite Ho. by intros ?%not_elem_of_nil.
  - intros ca slot. rewrite Ha. by intros ?%not_elem_of_nil.
  - intros op _. unfold removing, IsOperatorRemovingKeyFromChainID. unfold w_keys in Hrem.
    by rewrite Hrem, lookup_empty.
Qed.

Lemma blocks_settled w w' : settled w → rtc block w w' → settled w'.
Proof. intros Hw Hblocks. induction Hblocks; eauto using block_settled. Qed.

(** C5.  The consensus addresses of a chain stay known for as long as they can be needed.
    In every state that blocks reach, whatever keys were set, replaced and removed:
    the address of a key in use leads to its operator; so does every address
    that is queued to be pruned, until then; an operator is removing its key exactly
    if it is queued, for one epoch and there once; an address is queued at most once; and
    nothing that has matured is left. *)
Theorem consensus_addresses_known w0 w :
  fresh w0 → rtc block w0 w → is_Some (IsAVSByChainID (w_others w) ch) →
  (∀ op key, acc20 op → getOperatorConsKeyForChainID op ch (w_keys w) = Some key →
     GetOperatorAddressForChainIDAndConsAddr ch (ToConsAddr key) (drop_dogfood (w_ext w)) = Some op) ∧
  (∀ ca slot, ca ∈ addrs_at (w_queues w) slot →
     ∃ op, acc20 op ∧ GetOperatorAddressForChainIDAndConsAddr ch ca (drop_dogfood (w_ext w)) = Some op) ∧
  (∀ op, acc20 op → IsOperatorRemovingKeyFromChainID op ch (w_keys w) = true ↔
     ∃ e, op ∈ ops_at (w_queues w) (Some e)) ∧
  once (ops_at (w_queues w)) ∧ once (addrs_at (w_queues w)) ∧
  GetPendingOptOuts (w_queues w) = [] ∧ GetPendingConsensusAddrs (w_queues w) = [].
Proof.
  intros Hfresh Hblocks [avs Havs].
  destruct (blocks_settled w0 w) as [[Hkeys [Hop Haddr Hrem Ho Ha]] Hno Hna]; [by apply fresh_settled|done|].
  assert (Hget : ∀ ca, GetOperatorAddressForChainIDAndConsAddr ch ca (drop_dogfood (w_ext w)) =
    owner ch (w_keys w) ca).
  { intros ca. unfold GetOperatorAddressForChainIDAndConsAddr. cbn. unfold w_others, w_rest in Havs.
    by rewrite Havs. }
  split_and!; [| | |done..].
  - intros op key Hacc Hkey. rewrite Hget. by apply (ki_back _ Hkeys).
  - intros ca slot (op & Hacc & Hown & _)%Haddr. exists op. by rewrite Hget.
  - intros op Hacc. split; [|by intros [e (_ & _ & ? & _)%Hop]]. intros [[e|] Hin]%Hrem; [by exists e| |done].
    change (x_queues (w_ext w)) with (w_queues w) in Hin. rewrite Hno in Hin. by apply not_elem_of_nil in Hin.
Qed.

(** C14.  The block that ends an epoch completes what was queued for it, whatever its
    transactions do: an operator that was to opt out has no key, no removal under
    way and is out of the lookups; an address that was to be pruned leads nowhere.
    The other operators of the chain keep the keys that they had after the transactions. *)
Theorem epoch_end_completes ctx w epoch e w1 w2 us w' :
  settled w → epoch_ends (GetEpochIdentifier (w_dogfood w)) epoch w w1 →
  OptOutsToFinishKey epoch = Some e → rtc (tx_step ctx) w1 w2 →
  is_Some (IsAVSByChainID (w_others w2) ch) → EndBlock ctx ChainID w2 = (Ok us, w') →
  (∀ op, op ∈ ops_at (w_queues w) (Some e) →
     getOperatorConsKeyForChainID op ch (w_keys w') = None ∧
     IsOperatorRemovingKeyFromChainID op ch (w_keys w') = false) ∧
  (∀ ca, ca ∈ addrs_at (w_queues w) (Some e) → consAddrs (w_keys w') !! ChainIDAndAddrKey ch ca = None) ∧
  (∀ op, acc20 op → op ∉ ops_at (w_queues w) (Some e) →
     getOperatorConsKeyForChainID op ch (w_keys w') = getOperatorConsKeyForChainID op ch (w_keys w2)).
Proof.
  intros Hset He Hkey Htxs Havs Hend.
  assert (Hacc : ∀ op slot, op ∈ ops_at (w_queues w) slot → acc20 op).
  { intros op slot Hin. by apply (qi_op _ _ _ _ _ (si_queue _ _ (st_inv _ Hset)) op slot). }
  destruct He as (u & d' & Hrun & Hw1). assert (Hinv1 : inv w1).
  { apply (epoch_ends_inv (GetEpochIdentifier (w_dogfood w)) epoch w w1 Hset). by exists u, d'. }
  apply AfterEpochEnd_slots in Hrun. rewrite decide_True in Hrun by done.
  destruct Hrun as [(e' & He' & [Ho Ha]) Hflag]. rewrite Hkey in He'. injection He' as <-.
  apply txs_in_block in Htxs as [Hinv2 Ho2 Ha2 Hf2].
  apply EndBlock_Ok in Hend; [|by auto|done]. rewrite Hf2 in Hend by by rewrite Hw1.
  destruct Hend as [_ [Vk Vr Vo] _ _].
  change (GetPendingOptOuts (w_queues w2)) with (ops_at (w_queues w2) None) in *.
  change (GetPendingConsensusAddrs (w_queues w2)) with (addrs_at (w_queues w2) None) in *.
  assert (Hpo : ops_at (w_queues w2) None = ops_at (w_queues w) (Some e)) by (rewrite Ho2, Hw1; exact (Ho None)).
  assert (Hpa : addrs_at (w_queues w2) None = addrs_at (w_queues w) (Some e)) by (rewrite Ha2, Hw1; exact (Ha None)).
  rewrite Hpo in Vk, Vr. rewrite Hpa in Vo. split_and!.
  - intros op Hin. specialize (Hacc op _ Hin). specialize (Vk op Hacc). specialize (Vr op Hacc).
    rewrite decide_True in Vk by done. by rewrite decide_True in Vr.
  - intros ca Hin. specialize (Vo ca). by rewrite decide_True in Vo.
  - intros op Hop Hnin. specialize (Vk op Hop). by rewrite decide_False in Vk.
Qed.

(** C4.  When the validator set is due for an update, the end of the block completes what has
    matured and makes the set the first [MaxValidators] of the active operators, in the order of their powers and without
    those that have none, each under the consensus address of its key.  The total power
    is the sum of the new powers.  The updates handed to the consensus engine turn its
    previous set into the new one: they are sorted, name every address at most once, remove only
    validators that were there, and are stored; the marker is cleared. *)
Theorem EndBlock_validator_set ctx w info :
  inv w → set_inv (w_vals w) → is_Some (IsAVSByChainID (w_others w) ch) →
  ShouldUpdateValidatorSet (w_dogfood w) = true →
  GetEpochInfo (GetEpochIdentifier (w_dogfood w)) (y_epochs (w_others w)) = Some info →
  ∃ w1, finish_matured ctx ch (wrap_int64 (ei_CurrentEpoch info + 1)) w = (Ok tt, w1) ∧
    matured_done ch w w1 ∧
    ∀ sorted, sorted_operators ch (drop_dogfood (w_ext w1)) = Ok (Some sorted) →
    ∃ us w', EndBlock ctx ChainID w = (Ok us, w') ∧
      set_updated (top_powers (GetMaxValidators (w_dogfood w)) sorted) us (w_vals w) (w_vals w') ∧
      ShouldUpdateValidatorSet (w_dogfood w') = false.
Proof.
  intros [Hkeys Hinv] Hset Havs Hflag Hepoch.
  destruct (finish_matured_run ctx ch Hch (wrap_int64 (ei_CurrentEpoch info + 1)) w Hkeys Havs Hinv)
    as (w1 & Hrun & Hdone). exists w1. split_and!; [done..|]. intros sorted Hsort.
  pose proof (keeps_Ok _ _ _ _ _ (finish_matured_keeps ctx ch _) Hrun) as Hkeep.
  unfold outside_queues in Hkeep. injection Hkeep as Hvals Hparams _ _.
  destruct (sorted_operators_spec ch (drop_dogfood (w_ext w1)) sorted) as [Hs Hnd];
    [apply Hdone|done..|].
  destruct (update_validators_spec ctx ch w1 sorted) as (us & w2 & Hup & Hupd); [by rewrite Hvals|done..|].
  unfold GetMaxValidators, GetDogfoodParams in Hupd. rewrite Hparams, Hvals in Hupd.
  edestruct (on_rest_run (dogfood_of (modify ClearValidatorSetUpdateFlag)) w2) as (w3 & Hrun3 & Hw3); [done|].
  exists us, w3. split; [|split].
  - unfold EndBlock, mbind, M_bind. cbn -[finish_matured update_validators on_rest]. rewrite Hflag.
    cbn -[finish_matured update_validators on_rest]. by rewrite Hepoch, Hrun, Hup, Hrun3.
  - unfold w_vals, w_dogfood in *. by rewrite Hw3.
  - unfold w_dogfood. by rewrite Hw3.
Qed.
End Blocks.
