(* ===== verification/DogfoodSdk.v ===== *)
(** * What x/dogfood gives to cosmos-sdk and the EVM (keeper/impl_sdk.go, impl_evm.go,
    msg_server.go)

    x/dogfood stands in for x/staking: x/slashing slashes, jails and unjails through it,
    x/gov and x/oracle iterate over the bonded validators.  The parameters are
    updated by the authority. *)

From S2P Require Import Prelude Errors Sdk RefSdk KVStore Epochs DelegationTypes Assets.
From S2P Require Import DelegationStore UndelegationStore Delegation OperatorTypes.
From S2P Require Import OperatorStore OperatorSnapshot OperatorKeepers OperatorUnbonding OperatorUSD.
From S2P Require Import OperatorVotingPower OperatorKeys OperatorSlash OperatorSlashSafety OperatorOpt.
From S2P Require Import ChainUtils DogfoodTypes DogfoodStore DogfoodKeepers DogfoodHooks.

Section Staking.
Context {sdk : Sdk} {chain : ChainSdk} {B R : Type} {ot : Others R} {sk : SlashingKeeper R}.
Context {stk : StakingTypes}.
Context (ctx : Ctx) (ChainID : string).
#[local] Instance hooks_dogfood : Others (DogfoodExt R) := dogfood_others ctx ChainID.
Abbreviation W := (World B (OperatorExt (DogfoodExt R))).
Abbreviation chainIDWithoutRevision := (ChainIDWithoutRevision ChainID).

(** ** Slashing and jailing *)

Definition dogfood_SlashWithInfractionReason (addr : string) (infractionHeight power : Z)
    (slashFactor : option LegacyDec) (infraction : Z) : M W error Int :=
  found ← gets (λ w, GetOperatorAddressForChainIDAndConsAddr chainIDWithoutRevision addr (w_ext w));
  match found with
  | None => mret 0
  | Some accAddress =>
      key ← gets (λ w, GetOperatorConsKeyForChainID accAddress chainIDWithoutRevision (w_ext w));
      match key with
      | Ok currentKey =>
          res ← SlashWithInfractionReason ctx chainIDWithoutRevision accAddress infractionHeight
                  power slashFactor infraction;
          _ ← match currentKey with
              | Some currentKey =>
                  let currentConsAddr := ToConsAddr currentKey in
                  if bool_decide (currentConsAddr = addr) then mret tt
                  else on_rest (others_of (modify
                         (CopyValidatorSigningInfo ctx addr currentConsAddr infraction)))
              | None => mret tt
              end;
          _ ← (if infraction =? INFRACTION_DOUBLE_SIGN then
                 frozen ← gets (λ w, OperatorStore.IsOperatorFrozen accAddress (x_info (w_ext w)));
                 if (frozen : bool) then mret tt else must (on_info (FreezeOperator accAddress))
               else mret tt);
          mret res
      | _ => panic
      end
  end.

Definition dogfood_Slash (addr : string) (infractionHeight power : Z)
    (slashFactor : option LegacyDec) : M W error Int :=
  dogfood_SlashWithInfractionReason addr infractionHeight power slashFactor INFRACTION_UNSPECIFIED.

Definition dogfood_Jail (addr : string) : M W error unit := Jail ctx addr chainIDWithoutRevision.

(** The jail of a frozen operator is not lifted; nothing is returned. *)
Definition dogfood_Unjail (addr : string) : M W error unit :=
  found ← gets (λ w, GetOperatorAddressForChainIDAndConsAddr chainIDWithoutRevision addr (w_ext w));
  frozen ← gets (λ w, match found with
    | Some accAddr => OperatorStore.IsOperatorFrozen accAddr (x_info (w_ext w))
    | None => false
    end);
  if (frozen : bool) then mret tt else Unjail ctx addr chainIDWithoutRevision.

(** ** Queries of the staking interface

    [None] is a nil interface. *)

Section Queries.
Context (w : W).

Definition dogfood_Validator (address : string) : result error (option StakingValidator) :=
  GetValidator ChainID address (w_assets w) (drop_dogfood (w_ext w)).

Definition ValidatorByConsAddr (addr : string) : result error (option StakingValidator) :=
  ValidatorByConsAddrForChainID DefaultPowerReduction addr chainIDWithoutRevision (w_assets w) (w_ext w).

Definition GetValidatorByConsAddr (consAddr : string) : result error (option StakingValidator) :=
  ValidatorByConsAddr consAddr.

Definition IsValidatorJailed (addr : string) : bool :=
  IsOperatorJailedForChainID addr chainIDWithoutRevision (w_ext w).

(** The shares of the self delegation; the addresses are those of the arguments. *)
Definition dogfood_Delegation (delegator : string) : result error (option LegacyDec) :=
  let avsAddr := GenerateAVSAddress chainIDWithoutRevision in
  match GetOrCalculateOperatorUSDValues delegator avsAddr (w_assets w) (w_ext w) with
  | Ok (self, _, _) =>
      power ← dec_TruncateInt64 self;
      Ok (Some (dec_of_int (TokensFromConsensusPower power DefaultPowerReduction)))
  | Err _ => Ok None
  | Panic => Panic
  end.

Definition MaxValidators : Z := GetMaxValidators (w_dogfood w).
Definition BondDenom : string := BaseDenom.

(** The number of epochs is a uint32, the duration an int64; a missing epoch panics. *)
Definition UnbondingTime : result error Z :=
  let params := GetDogfoodParams (w_dogfood w) in
  match GetEpochInfo (dp_EpochIdentifier params) (y_epochs (w_others w)) with
  | Some epoch => Ok (wrap_int64 ((dp_EpochsUntilUnbonded params + 1) mod 2 ^ 32 * ei_Duration epoch))
  | None => Panic
  end.

(** ** The bonded validators *)

(** Descending powers; the sort is stable. *)
Definition validator_le : relation ImuachainValidator := λ v v', iv_Power v' ≤ iv_Power v.

(** The tokens are those of this module. *)
Definition bonded (val : StakingValidator) (v : ImuachainValidator) : StakingValidator := {|
  val_Operator := val_Operator val; val_ConsKey := val_ConsKey val; val_Jailed := val_Jailed val;
  val_MinSelfDelegation := val_MinSelfDelegation val;
  val_Tokens := TokensFromConsensusPower (iv_Power v) DefaultPowerReduction;
  val_DelegatorShares := val_DelegatorShares val |}.

Fixpoint iterate_bonded {S} (i : Z) (vals : list ImuachainValidator)
    (f : Z → StakingValidator → M S error bool) : M S error unit :=
  match vals with
  | [] => mret tt
  | v :: vals =>
      match ConsPubKey v with
      | Ok pk =>
          val ← lift_result (ValidatorByConsAddr (GetConsAddress pk));
          match val with
          | Some val => stop ← f i (bonded val v);
                      if (stop : bool) then mret tt else iterate_bonded (i + 1) vals f
          | None => iterate_bonded (i + 1) vals f
          end
      | _ => iterate_bonded (i + 1) vals f
      end
  end.

#[global] Instance validator_le_dec : RelDecision validator_le.
Proof. intros v v'. unfold validator_le. apply _. Defined.

Definition IterateBondedValidatorsByPower {S} (f : Z → StakingValidator → M S error bool)
    : M S error unit :=
  iterate_bonded 0 (merge_sort validator_le (GetAllImuachainValidators (w_vals w))) f.

(** The validators in the order of the iteration. *)
Definition all_bonded : result error (list StakingValidator) :=
  match IterateBondedValidatorsByPower (λ _ v, _ ← modify (λ l, l ++ [v]); mret false) [] with
  | (Ok _, l) => Ok l
  | (Err e, _) => Err e
  | (Panic, _) => Panic
  end.

(** In the order of the operator addresses. *)
Definition IterateValidators {S} (f : Z → StakingValidator → M S error bool) : M S error unit :=
  validators ← lift_result all_bonded;
  let sorted := merge_sort (λ v v', String.le (val_Operator v) (val_Operator v')) validators in
  for_each_break (imap (λ i v, (Z.of_nat i, v)) sorted) (λ iv, f iv.1 iv.2).

Definition TotalBondedTokens : result error Int :=
  match IterateBondedValidatorsByPower (λ _ v, _ ← modify (Z.add (val_Tokens v)); mret false) 0 with
  | (Ok _, total) => Ok total
  | (Err e, _) => Err e
  | (Panic, _) => Panic
  end.
End Queries.
End Staking.

(** ** The parameters (msg_server.go) *)

Section UpdateParams.
Context {sdk : Sdk} {chain : ChainSdk} {B R : Type} {ot : Others R} {ak : AVSKeeper R}.
Context (ChainID : string).
Abbreviation W := (World B (OperatorExt (DogfoodExt R))).

(** [math.Int.Uint64], which panics on nil and out of bounds *)
Definition int_Uint64 (i : option Int) : result error Z :=
  match i with
  | Some i => if bool_decide (0 ≤ i < 2 ^ 64) then Ok i else Panic
  | None => Panic
  end.

(** What is not given, and the epoch, stays. *)
Definition override_params (prev next : Params) : Params := {|
  dp_EpochsUntilUnbonded :=
    if dp_EpochsUntilUnbonded next =? 0 then dp_EpochsUntilUnbonded prev else dp_EpochsUntilUnbonded next;
  dp_EpochIdentifier := dp_EpochIdentifier prev;
  dp_MaxValidators := if dp_MaxValidators next =? 0 then dp_MaxValidators prev else dp_MaxValidators next;
  dp_HistoricalEntries :=
    if dp_HistoricalEntries next =? 0 then dp_HistoricalEntries prev else dp_HistoricalEntries next;
  dp_AssetIDs := if bool_decide (dp_AssetIDs next = []) then dp_AssetIDs prev else dp_AssetIDs next;
  dp_MinSelfDelegation :=
    match dp_MinSelfDelegation next with
    | Some m => if m <? 0 then dp_MinSelfDelegation prev else Some m
    | None => dp_MinSelfDelegation prev
    end |}.

(** An asset that is not a staking asset brings the previous list back. *)
Definition override_assets (prev next : Params) (a : AssetsState) : Params :=
  if forallb (λ assetID, IsStakingAsset (ToLower assetID) a) (dp_AssetIDs next) then next
  else {| dp_EpochsUntilUnbonded := dp_EpochsUntilUnbonded next;
          dp_EpochIdentifier := dp_EpochIdentifier next; dp_MaxValidators := dp_MaxValidators next;
          dp_HistoricalEntries := dp_HistoricalEntries next; dp_AssetIDs := dp_AssetIDs prev;
          dp_MinSelfDelegation := dp_MinSelfDelegation next |}.

Definition dogfood_UpdateParams (authority msgAuthority : string) (params : Params) : M W error unit :=
  _ ← fail_if (negb (bool_decide (authority = msgAuthority))) dogfoodtypes.ErrInvalidSigner;
  prevParams ← gets (λ w, GetDogfoodParams (w_dogfood w));
  a ← gets w_assets;
  let nextParams := override_assets prevParams (override_params prevParams params) a in
  _ ← on_rest (dogfood_of (modify (SetParams nextParams)));
  isAVS ← gets (λ w, IsAVSByChainID (w_others w) (ChainIDWithoutRevision ChainID));
  match isAVS with
  | None => fail dogfoodtypes.ErrNotAVSByChainID
  | Some avsAddr =>
      minSelfDelegation ← lift_result (int_Uint64 (dp_MinSelfDelegation nextParams));
      rewrap dogfoodtypes.ErrUpdateAVSInfo (on_ext (below_dogfood (UpdateAVSInfo a avsAddr {|
        ca_AvsName := ChainID; ca_AssetIDs := dp_AssetIDs nextParams;
        ca_UnbondingPeriod := dp_EpochsUntilUnbonded nextParams;
        ca_MinSelfDelegation := minSelfDelegation;
        ca_EpochIdentifier := dp_EpochIdentifier nextParams; ca_ChainID := ChainID |})))
  end.
End UpdateParams.
