(* ===== verification/DogfoodProps.v ===== *)
(** * Properties of the staking interface of x/dogfood

    The signing information of a key that is replaced or slashed follows the operator to its
    new key; a double sign is final; the parameters stay usable; the bonded tokens
    are the total power. *)

From S2P Require Import Prelude Errors Sdk RefSdk KVStore Epochs DelegationTypes Assets.
From S2P Require Import DelegationStore UndelegationStore Delegation OperatorTypes.
From S2P Require Import OperatorStore OperatorSnapshot OperatorKeepers OperatorUnbonding OperatorUSD.
From S2P Require Import OperatorVotingPower OperatorKeys OperatorSlash OperatorSlashSafety OperatorOpt OperatorSystem.
From S2P Require Import ChainUtils DogfoodTypes DogfoodStore DogfoodKeepers DogfoodHooks DogfoodEndBlock.
From S2P Require Import DelegationGenesis DogfoodValidators DogfoodSdk.

(** ** What x/slashing documents *)

Class SlashingLaws (R : Type) {sk : SlashingKeeper R} : Prop := {
  info_set a i (r : R) b :
    GetValidatorSigningInfo (SetValidatorSigningInfo a i r) b =
    if decide (b = a) then Some i else GetValidatorSigningInfo r b;
  info_bit_set a n v (r : R) b :
    GetValidatorSigningInfo (SetValidatorMissedBlockBitArray a n v r) b = GetValidatorSigningInfo r b;
  bit_set a n v (r : R) b m :
    GetValidatorMissedBlockBitArray (SetValidatorMissedBlockBitArray a n v r) b m =
    if decide (b = a ∧ m = n) then v else GetValidatorMissedBlockBitArray r b m;
  bit_clear a (r : R) b m :
    GetValidatorMissedBlockBitArray (ClearValidatorMissedBlockBitArray a r) b m =
    if decide (b = a) then false else GetValidatorMissedBlockBitArray r b m;
  bit_info_set a i (r : R) b m :
    GetValidatorMissedBlockBitArray (SetValidatorSigningInfo a i r) b m =
    GetValidatorMissedBlockBitArray r b m;
  tombstoned_info (r : R) a :
    IsTombstoned r a = match GetValidatorSigningInfo r a with Some i => si_Tombstoned i | None => false end;
}.

Section Signing.
Context {chain : ChainSdk} {R : Type} {sk : SlashingKeeper R} {sl : SlashingLaws R}.
Context (ctx : Ctx).
Implicit Types (r : R).

Lemma set_bits a (l : list Z) r b m :
  GetValidatorMissedBlockBitArray (foldl (λ r i, SetValidatorMissedBlockBitArray a i true r) r l) b m =
  if decide (b = a ∧ m ∈ l) then true else GetValidatorMissedBlockBitArray r b m.
Proof.
  revert r. induction l as [|i l IH]; intros r; cbn [foldl].
  { rewrite decide_False; [done|]. by intros [_ ?%not_elem_of_nil]. }
  rewrite IH, bit_set. repeat decide_goal; try done; rewrite elem_of_cons in *; naive_solver.
Qed.

Lemma set_missed_bits a n r b m :
  GetValidatorMissedBlockBitArray (set_missed a n r) b m =
  if decide (b = a ∧ 0 ≤ m < n) then true else GetValidatorMissedBlockBitArray r b m.
Proof.
  unfold set_missed. rewrite set_bits. apply decide_ext. rewrite elem_of_seqZ. naive_solver lia.
Qed.

Lemma set_missed_info a n r b : GetValidatorSigningInfo (set_missed a n r) b = GetValidatorSigningInfo r b.
Proof.
  unfold set_missed. generalize (seqZ 0 n) as l. intros l. revert r.
  induction l as [|i l IH]; intros r; [done|]. cbn [foldl]. by rewrite IH, info_bit_set.
Qed.

(** C24.  The record of a validator follows the operator to a new consensus key.  When a key is replaced,
    the new key takes over the start height, the jail, the tombstone and the number of missed blocks, and
    counts from the offset 0 with exactly that many of the first blocks marked as missed, whatever was
    marked for the new key before.  When the old key is slashed for a double sign the new key is
    tombstoned; for downtime it is jailed from now on and starts with no missed block. *)
Theorem signing_info_follows_key old new infraction r info :
  GetValidatorSigningInfo r old = Some info → 0 ≤ si_MissedBlocksCounter info →
  let r' := CopyValidatorSigningInfo ctx old new infraction r in
  ∃ info', GetValidatorSigningInfo r' new = Some info' ∧
    si_Address info' = ConsAddress_String new ∧ si_StartHeight info' = si_StartHeight info ∧
    (infraction = INFRACTION_UNSPECIFIED →
      si_JailedUntil info' = si_JailedUntil info ∧ si_Tombstoned info' = si_Tombstoned info ∧
      si_MissedBlocksCounter info' = si_MissedBlocksCounter info ∧ si_IndexOffset info' = 0 ∧
      (∀ m, GetValidatorMissedBlockBitArray r' new m = bool_decide (0 ≤ m < si_MissedBlocksCounter info))) ∧
    (infraction = INFRACTION_DOUBLE_SIGN →
      IsTombstoned r' new = true ∧ si_JailedUntil info' = DoubleSignJailEndTime) ∧
    (infraction = INFRACTION_DOWNTIME →
      si_JailedUntil info' = BlockTime ctx + DowntimeJailDuration r ∧ si_Tombstoned info' = si_Tombstoned info ∧
      si_MissedBlocksCounter info' = 0 ∧ (∀ m, GetValidatorMissedBlockBitArray r' new m = false)).
Proof.
  intros Hinfo Hc r'. unfold r', CopyValidatorSigningInfo. rewrite Hinfo. cbn [copied_info].
  unfold INFRACTION_DOUBLE_SIGN, INFRACTION_DOWNTIME, INFRACTION_UNSPECIFIED.
  destruct (Z.eqb_spec infraction 1) as [->|]; [|destruct (Z.eqb_spec infraction 2) as [->|];
    [|destruct (Z.eqb_spec infraction 0) as [->|]]]; eexists; rewrite tombstoned_info, info_set, decide_True by done;
    cbn; split_and!; try done; intros _; split_and!; try done.
  - intros m. by rewrite bit_info_set, bit_clear, decide_True.
  - intros m. rewrite bit_info_set, set_missed_bits, bit_clear, (decide_True (P := new = new)) by done.
    case_bool_decide; [by rewrite decide_True|]. rewrite decide_False; naive_solver.
Qed.
End Signing.

(** ** A double sign is final *)

Section DoubleSign.
Context {sdk : Sdk} {chain : ChainSdk} {B R : Type} {ot : Others R} {sk : SlashingKeeper R}.
Context {laws : SdkLaws sdk} {stk : StakingTypes} {rf : RewardsFrame R} {sl : SlashingLaws R}.
Context (ctx : Ctx) (ChainID : string).
#[local] Instance double_sign_hooks : Others (DogfoodExt R) := dogfood_others ctx ChainID.
Abbreviation W := (World B (OperatorExt (DogfoodExt R))).
Abbreviation ch := (ChainIDWithoutRevision ChainID).
Implicit Types (w : W).

Lemma FreezeOperator_frozen addr s u s' :
  FreezeOperator addr s = (Ok u, s') → OperatorStore.IsOperatorFrozen addr s' = true.
Proof.
  unfold FreezeOperator. intros Hrun. go_inv. unfold OperatorStore.IsOperatorFrozen. cbn.
  by rewrite lookup_insert_eq.
Qed.

Lemma freeze_run acc w u w' :
  must (on_info (FreezeOperator acc)) w = (Ok u, w') →
  OperatorStore.IsOperatorFrozen acc (x_info (w_ext w')) = true ∧ w_others w' = w_others w.
Proof.
  unfold must. intros Hrun.
  assert (Hok : on_info (FreezeOperator acc) w = (Ok u, w')) by (destruct (on_info _ w) as [[] ?]; by simplify_eq).
  unfold on_info, on_operator, on_ext in Hok.
  repeat (apply zoom_Ok in Hok as (? & Hok & ->)).
  split; [by eapply FreezeOperator_frozen|done].
Qed.

Lemma copied_tombstoned old new r :
  IsTombstoned (CopyValidatorSigningInfo ctx old new INFRACTION_DOUBLE_SIGN r) new = true.
Proof. unfold CopyValidatorSigningInfo. cbn. by rewrite tombstoned_info, info_set, decide_True. Qed.

Lemma dogfood_rewards_frame c : RewardsFrame (ot := dogfood_others c ChainID) (DogfoodExt R).
Proof.
  intros a avs op assets x r x'. cbn. unfold below_dogfood, zoom.
  destruct (UpdateAllRewardsUSDForOperator _ _ _ _ _) as [r1 x1] eqn:Hrun. intros [= <- <-].
  apply rewards_frame in Hrun as [Hi Hk Hu Hs]. by split.
Qed.

(** ** What happens later

    The calls of x/operator other than a message of the authority that unfreezes the
    operator, slashes, and the modules that do not write its store. *)
Inductive later_step acc w w' : Prop :=
| later_call c m r :
    operator_call (ot := dogfood_others c ChainID) c m →
    (∀ auth addr, m = msg_UnfreezeOperator auth auth addr → AccAddressFromBech32 addr ≠ Some acc) →
    m w = (r, w') → later_step acc w w'
| later_slash c addr h p f infraction r :
    dogfood_SlashWithInfractionReason c ChainID addr h p f infraction w = (r, w') → later_step acc w w'
| later_unjail c a r : dogfood_Unjail c ChainID a w = (r, w') → later_step acc w w'
| later_others : x_info (w_ext w') = x_info (w_ext w) → later_step acc w w'.

Abbreviation frozen acc w := (OperatorStore.IsOperatorFrozen acc (x_info (w_ext w)) = true).

Lemma frozen_spec acc w : frozen acc w ↔ is_Some (frozen_of w !! acc).
Proof. unfold OperatorStore.IsOperatorFrozen. by rewrite bool_decide_eq_true. Qed.

(** A method after which a frozen operator is still frozen. *)
Definition stays acc {A} (m : M W error A) : Prop := ∀ w, frozen acc w → frozen acc (m w).2.

Lemma stays_keeps acc {A} (m : M W error A) : keeps frozen_of m → stays acc m.
Proof. intros Hm w. rewrite !frozen_spec. by rewrite (Hm w). Qed.

Lemma stays_bind acc {A C} (m : M W error A) (k : A → M W error C) :
  stays acc m → (∀ v, stays acc (k v)) → stays acc (m ≫= k).
Proof.
  intros Hm Hk w Hw. specialize (Hm w Hw). unfold mbind, M_bind. destruct (m w) as [[v|e|] w1]; [by apply Hk|done..].
Qed.

Lemma stays_freeze acc a : stays acc (must (on_info (FreezeOperator a)) : M W error unit).
Proof.
  intros w. rewrite !frozen_spec. unfold must, on_info, on_operator, on_ext, zoom, FreezeOperator, fail_if, gets, mbind, M_bind.
  unfold frozen_of, x_info. cbn. destruct (negb _); [done|]. cbn. match goal with |- context [if ?b then _ else _] => destruct b end; [done|].
  cbn. intros Hf. destruct (decide (acc = a)) as [->|]; [rewrite lookup_insert_eq; eauto|by rewrite lookup_insert_ne].
Qed.

(** A slash may freeze an operator, and unfreezes none. *)
Lemma stays_slash acc c addr h p f i : stays acc (dogfood_SlashWithInfractionReason c ChainID addr h p f i).
Proof.
  pose proof (dogfood_rewards_frame c) as Hrf. set (hk := dogfood_others c ChainID) in *.
  assert (Hs : ∀ a, keeps frozen_of (SlashWithInfractionReason (ot := hk) c ch a h p f i : M W error Int)).
  { intros a. unfold SlashWithInfractionReason. pose proof (frozen_Slash (ot := hk) (B := B) c). solve_keeps. }
  unfold dogfood_SlashWithInfractionReason. change (hooks_dogfood c ChainID) with hk.
  repeat first [apply stays_bind; [|intros] | apply stays_freeze | case_match
    | apply stays_keeps; solve [apply Hs | apply frozen_rest | by intros w]].
Qed.

Lemma stays_unjail acc c a : stays acc (dogfood_Unjail c ChainID a : M W error unit).
Proof.
  set (hk := dogfood_others c ChainID). unfold dogfood_Unjail, Unjail. change (hooks_dogfood c ChainID) with hk.
  repeat first [apply stays_keeps; solve [apply (frozen_jail (ot := hk)) | by intros w]
    | apply stays_bind; [|intros] | case_match].
Qed.

Lemma later_frozen acc w w' : later_step acc w w' → frozen acc w → frozen acc w'.
Proof.
  intros [c m r Hm Hno Hrun|c addr h p f i r Hrun|c a r Hrun|Hsame] Hf.
  - rewrite frozen_spec in *.
    by apply (operator_call_frozen (ot := dogfood_others c ChainID) (rf := dogfood_rewards_frame c) c m acc w r w').
  - pose proof (stays_slash acc c addr h p f i w Hf) as Hs. by rewrite Hrun in Hs.
  - pose proof (stays_unjail acc c a w Hf) as Hs. by rewrite Hrun in Hs.
  - by rewrite Hsame.
Qed.

Lemma laters_frozen acc w w' : rtc (later_step acc) w w' → frozen acc w → frozen acc w'.
Proof. intros Hsteps. induction Hsteps as [|w1 w2 w3 H1 _ IH]; [done|]. intros Hf. by eapply IH, later_frozen. Qed.

(** C23.  A double sign is final, whichever key it was signed with.  After a slash for a double
    sign the operator is frozen; if its key is another one by now, that key is tombstoned as
    well; and in every later state that is reached without a message of the authority that
    unfreezes it, it is still frozen and no consensus address of the operator can be unjailed:
    the request changes nothing. *)
Theorem double_sign_final addr acc key h p f w res w' :
  GetOperatorAddressForChainIDAndConsAddr ch addr (w_ext w) = Some acc →
  GetOperatorConsKeyForChainID acc ch (w_ext w) = Ok (Some key) →
  dogfood_SlashWithInfractionReason ctx ChainID addr h p f INFRACTION_DOUBLE_SIGN w = (Ok res, w') →
  (ToConsAddr key ≠ addr → IsTombstoned (w_others w') (ToConsAddr key) = true) ∧
  (∀ w2, rtc (later_step acc) w' w2 →
     OperatorStore.IsOperatorFrozen acc (x_info (w_ext w2)) = true ∧
     ∀ c a, GetOperatorAddressForChainIDAndConsAddr ch a (w_ext w2) = Some acc →
       dogfood_Unjail c ChainID a w2 = (Ok tt, w2)).
Proof.
  intros Hacc Hkey Hrun. unfold dogfood_SlashWithInfractionReason in Hrun.
  change (hooks_dogfood ctx ChainID) with double_sign_hooks in Hrun.
  apply bind_Ok in Hrun as (found & w0 & Hget & Hrun). apply gets_Ok in Hget as [-> ->].
  cbn beta in Hrun. rewrite Hacc in Hrun. apply bind_Ok in Hrun as (k & w0' & Hget & Hrun). apply gets_Ok in Hget as [-> ->].
  cbn beta in Hrun. rewrite Hkey in Hrun. apply bind_Ok in Hrun as (res' & w1 & _ & Hrun).
  apply bind_Ok in Hrun as (u & w2 & Hcopy & Hrun).
  apply bind_Ok in Hrun as (u' & w3 & Hfreeze & Hrun). apply ret_Ok in Hrun as [-> ->].
  apply bind_Ok in Hfreeze as (fr & w4 & Hget & Hfreeze). apply gets_Ok in Hget as [-> ->].
  cbn beta in *.
  assert (Hfrozen : frozen acc w' ∧ w_others w' = w_others w2).
  { destruct (OperatorStore.IsOperatorFrozen acc (x_info (w_ext w2))) eqn:Hf.
    { by apply ret_Ok in Hfreeze as [_ ->]. }
    by eapply freeze_run. }
  destruct Hfrozen as [Hfrozen Hrest]. split.
  - intros Hne. rewrite bool_decide_false in Hcopy by done. rewrite Hrest. injection Hcopy as <- <-.
    apply copied_tombstoned.
  - intros w5 Hsteps. pose proof (laters_frozen _ _ _ Hsteps Hfrozen) as Hf5.
    split; [done|]. intros c a Ha. unfold dogfood_Unjail. unfold gets at 1 2. unfold mbind, M_bind.
    change (GetOperatorAddressForChainIDAndConsAddr (ot := hooks_dogfood c ChainID) ch a (w_ext w5))
      with (GetOperatorAddressForChainIDAndConsAddr (ot := double_sign_hooks) ch a (w_ext w5)).
    by rewrite Ha, Hf5.
Qed.
End DoubleSign.

(** ** The parameters stay usable *)

Section Parameters.
Context {sdk : Sdk} {chain : ChainSdk} {B R : Type} {ot : Others R} {ak : AVSKeeper R}.
Abbreviation W := (World B (OperatorExt (DogfoodExt R))).
Implicit Types (w : W).

(** What the module relies on: the validation of the numbers passes and every asset is a
    staking asset. *)
Record usable (a : AssetsState) (p : Params) : Prop := {
  us_epochs : ValidatePositiveUint32 (dp_EpochsUntilUnbonded p) = Ok tt;
  us_validators : ValidatePositiveUint32 (dp_MaxValidators p) = Ok tt;
  us_entries : ValidatePositiveUint32 (dp_HistoricalEntries p) = Ok tt;
  us_self : ValidateNonNegativeInt (dp_MinSelfDelegation p) = Ok tt;
  us_assets : Forall (λ assetID, IsStakingAsset (ToLower assetID) a = true) (dp_AssetIDs p);
}.

Lemma positive_override prev next :
  ValidatePositiveUint32 prev = Ok tt →
  ValidatePositiveUint32 (if next =? 0 then prev else next) = Ok tt.
Proof. unfold ValidatePositiveUint32. destruct (next =? 0) eqn:Hz; [done|]. by rewrite Hz. Qed.

Lemma override_usable a prev next :
  usable a prev → usable a (override_assets prev (override_params prev next) a).
Proof.
  intros [He Hm Hh Hs Ha]. unfold override_assets.
  assert (Hself : ValidateNonNegativeInt (dp_MinSelfDelegation (override_params prev next)) = Ok tt).
  { cbn. destruct (dp_MinSelfDelegation next) as [m|]; [|done]. destruct (m <? 0) eqn:Hlt; [done|].
    cbn. by rewrite Hlt. }
  destruct (forallb _ _) eqn:Hall.
  - split; [by apply positive_override..|done|]. by apply List.Forall_forall, forallb_forall.
  - split; [by apply positive_override..|done|done].
Qed.

(** The authority cannot make the parameters unusable.  Whatever is requested, and however the request
    ends, the unbonding period, the size of the validator set and the number of historical entries stay
    positive, the minimum self delegation stays set and not negative, every asset of the
    chain stays a registered staking asset, and the epoch is never changed.  Another signer changes nothing. *)
Theorem UpdateParams_usable ChainID authority signer params w r w' :
  usable (w_assets w) (GetDogfoodParams (w_dogfood w)) →
  dogfood_UpdateParams ChainID authority signer params w = (r, w') →
  usable (w_assets w') (GetDogfoodParams (w_dogfood w')) ∧
  dp_EpochIdentifier (GetDogfoodParams (w_dogfood w')) = dp_EpochIdentifier (GetDogfoodParams (w_dogfood w)) ∧
  (authority ≠ signer → r = Err dogfoodtypes.ErrInvalidSigner ∧ w' = w).
Proof.
  intros Hus. unfold dogfood_UpdateParams. destruct (decide (authority = signer)) as [->|Hne].
  2: { rewrite bool_decide_false by done. by intros [= <- <-]. }
  rewrite bool_decide_true by done. intros Hrun.
  do 4 (erewrite bind_run in Hrun by reflexivity).
  apply (keeps_Ok (λ w, (w_assets w, w_dogfood w))) in Hrun; [injection Hrun as -> ->|].
  - split_and!; [by apply override_usable| |done]. cbn. unfold override_assets. by case_match.
  - assert (Hbelow : ∀ A (m : M (OperatorExt R) error A),
      keeps (λ w, (w_assets w, w_dogfood w)) (on_ext (below_dogfood m))).
    { intros A m w0. unfold_zooms. by destruct (m _). }
    solve_keeps. apply keeps_rewrap, Hbelow.
Qed.
End Parameters.

(** ** The bonded tokens *)

Section Tokens.
Context `{SdkLaws} {chain : ChainSdk} {B R : Type} {ot : Others R} {sk : SlashingKeeper R}.
Context {stk : StakingTypes}.
Context (ctx : Ctx) (ChainID : string).
Abbreviation W := (World B (OperatorExt (DogfoodExt R))).
Implicit Types (w : W).

Definition total_of (vals : list ImuachainValidator) : Z := foldr (λ v acc, iv_Power v + acc) 0 vals.

#[export] Instance total_of_Proper : Proper ((≡ₚ) ==> eq) total_of.
Proof. intros l l' Hl. unfold total_of. induction Hl; cbn; lia. Qed.

(** What the iteration makes of a validator. *)
Definition resolves w v : Prop :=
  ∃ pk val, ConsPubKey v = Ok pk ∧ ValidatorByConsAddr ctx ChainID w (GetConsAddress pk) = Ok (Some val).

Lemma iterate_bonded_tokens w i vals t :
  Forall (resolves w) vals →
  iterate_bonded ctx ChainID w i vals (λ _ v, _ ← modify (Z.add (val_Tokens v)); mret false) t =
  (Ok tt, total_of vals * DefaultPowerReduction + t).
Proof.
  intros Hall. revert i t. induction Hall as [|v vals (pk & val & Hpk & Hval) Hall IH]; intros i t; [done|].
  cbn [iterate_bonded total_of foldr]. rewrite Hpk, Hval. fold (total_of vals).
  erewrite bind_run by reflexivity. cbn -[iterate_bonded total_of]. unfold mbind, M_bind. cbn -[iterate_bonded total_of].
  rewrite IH. f_equal. unfold TokensFromConsensusPower. lia.
Qed.

Lemma total_of_map (m : gmap string ImuachainValidator) :
  total_of (map_to_list m).*2 = map_sum (λ _ p, p) (iv_Power <$> m).
Proof.
  induction m as [|a v m Ha IH] using map_ind.
  { by rewrite map_to_list_empty, fmap_empty, map_sum_empty. }
  rewrite map_to_list_insert, fmap_insert, map_sum_fresh by (rewrite ?lookup_fmap, ?Ha; done).
  rewrite <-IH. done.
Qed.

(** The bonded tokens that x/gov counts are the voting power of the chain.  When every
    validator of the set is still known to x/operator, [TotalBondedTokens] succeeds and returns the last
    total power, in the smallest unit of the bond denomination. *)
Theorem TotalBondedTokens_is_power w :
  set_inv (w_vals w) → Forall (resolves w) (GetAllImuachainValidators (w_vals w)) →
  TotalBondedTokens ctx ChainID w =
  Ok (TokensFromConsensusPower (GetLastTotalPower (w_vals w)) DefaultPowerReduction).
Proof.
  intros [_ Htotal] Hall. unfold TotalBondedTokens, IterateBondedValidatorsByPower.
  set (l := merge_sort _ _). assert (Hl : l ≡ₚ GetAllImuachainValidators (w_vals w)) by apply merge_sort_Permutation.
  rewrite iterate_bonded_tokens by (by rewrite Hl). rewrite Hl, Htotal. unfold TokensFromConsensusPower, powers.
  rewrite <-total_of_map. unfold GetAllImuachainValidators. rewrite iterator_perm. f_equal. lia.
Qed.
End Tokens.

(** ** Replacing a key twice in an epoch *)

Section SecondReplacement.
Context `{SdkLaws} {chain : ChainSdk} {R : Type} {ot : Others R} {sk : SlashingKeeper R}.
Context (ctx : Ctx) (ChainID : string).
#[local] Instance second_hooks : Others (DogfoodExt R) := dogfood_others ctx ChainID.
Implicit Types (x : OperatorExt (DogfoodExt R)).

(** C34.  The second replacement of a key in an epoch goes past x/dogfood.  When the key before this epoch is already
    recorded, a further key is accepted, whether it is tombstoned or not; x/dogfood and x/slashing are left as
    they are, so its signing information is not copied from the key it replaces; and the address of the key
    in between, which is queued nowhere, keeps leading to the operator. *)
Theorem second_replacement_unseen a op ch mid new prev x :
  keys_inv (x_keys x) → acc20 op → go_string ch → is_Some (IsAVSByChainID (oe_rest x) ch) →
  OperatorStore.IsOperatorFrozen op (x_info x) = false →
  IsOperatorRemovingKeyFromChainID op ch (x_keys x) = false →
  GetOperatorAddressForChainIDAndConsAddr ch (ToConsAddr new) x = None →
  getOperatorConsKeyForChainID op ch (x_keys x) = Some mid →
  getOperatorPrevConsKeyForChainID op ch (x_keys x) = Some prev →
  ∃ x', SetOperatorConsKeyForChainID a op ch new x = (Ok tt, x') ∧
    oe_rest x' = oe_rest x ∧
    getOperatorConsKeyForChainID op ch (x_keys x') = Some new ∧
    GetOperatorAddressForChainIDAndConsAddr ch (ToConsAddr mid) x' = Some op.
Proof.
  intros Hinv Hop Hch [avs Havs] Hfr Hrem Hfree Hmid Hprev.
  assert (Hback : GetOperatorAddressForChainIDAndConsAddr ch (ToConsAddr mid) x = Some op).
  { unfold GetOperatorAddressForChainIDAndConsAddr. rewrite Havs. by apply (ki_back _ Hinv). }
  assert (Hne : EqualsWrapped mid new = false).
  { unfold EqualsWrapped. apply bool_decide_eq_false. intros ->. congruence. }
  eexists. split_and!.
  1: { unfold SetOperatorConsKeyForChainID, setOperatorConsKeyForChainID, cached.
    erewrite bind_run by reflexivity. cbn beta. rewrite Hfr. do 2 (erewrite bind_run by reflexivity). cbn beta.
    rewrite Hrem. do 2 (erewrite bind_run by reflexivity). cbn beta.
    rewrite Hfree. do 2 (erewrite bind_run by reflexivity). cbn beta. rewrite Hmid, Hne.
    erewrite bind_run by reflexivity. cbn beta. rewrite Hprev. reflexivity. }
  - done.
  - apply lookup_insert_eq.
  - revert Hback Hfree. unfold GetOperatorAddressForChainIDAndConsAddr. cbn in Havs |- *. rewrite Havs. intros Hback Hfree.
    rewrite lookup_insert_ne; [done|]. intros Heq. unfold KeyForChainIDAndConsKeyToOperator in *. congruence.
Qed.
End SecondReplacement.
