(* ===== verification/DogfoodGenesis.v ===== *)
(** * Genesis of x/dogfood (types/genesis.go, keeper/genesis.go)

    The validation of a genesis file, its import and the export of the stores. *)

From S2P Require Import Prelude Errors Sdk RefSdk KVStore Epochs DelegationTypes Assets.
From S2P Require Import DelegationStore UndelegationStore Delegation OperatorTypes.
From S2P Require Import OperatorStore OperatorSnapshot OperatorKeepers OperatorUnbonding OperatorUSD.
From S2P Require Import OperatorVotingPower OperatorKeys OperatorSlash OperatorSlashSafety OperatorOpt.
From S2P Require Import OperatorGenesis.
From S2P Require Import ChainUtils DogfoodTypes DogfoodStore DogfoodKeepers DogfoodHooks DogfoodEndBlock.
From S2P Require Import DogfoodValidators DogfoodQueues DogfoodSdk.

(** ** Data (types/genesis.pb.go) *)

(** [GenesisValidator]: the hex of the key, and the power *)
Record GenesisValidator := { gv_PublicKey : string; gv_Power : Z }.

Record DogfoodGenesisState := {
  dg_Params : Params;
  dg_ValSet : list GenesisValidator;
  (** epoch, addresses *)
  dg_OptOutExpiries : list (Z * list string);
  dg_ConsensusAddrsToPrune : list (Z * list string);
  (** nil is [None] *)
  dg_LastTotalPower : option Int;
}.

Section DefaultGenesis.
Context {sdk : Sdk} {chain : ChainSdk}.
Definition Dogfood_DefaultGenesis : DogfoodGenesisState := {|
  dg_Params := DogfoodTypes.DefaultParams; dg_ValSet := []; dg_OptOutExpiries := [];
  dg_ConsensusAddrsToPrune := []; dg_LastTotalPower := Some 0 |}.
End DefaultGenesis.

(** ** Validation *)

Section Validate.
Context {sdk : Sdk} {chain : ChainSdk}.
Abbreviation invalid := (Err dogfoodtypes.ErrInvalidGenesisData).

(** The sum of the powers, an int64. *)
Fixpoint validate_val_set (minSelfDelegation : Int) (l : list GenesisValidator) (pubkeys : gset string)
    (totalPower : Z) : result error Z :=
  match l with
  | [] => Ok totalPower
  | val :: l =>
      if bool_decide (gv_PublicKey val ∈ pubkeys) then invalid
      else if negb (is_some (NewWrappedConsKeyFromHex (gv_PublicKey val))) then invalid
      else if gv_Power val <? minSelfDelegation then invalid
      else validate_val_set minSelfDelegation l ({[ gv_PublicKey val ]} ∪ pubkeys)
             (wrap_int64 (totalPower + gv_Power val))
  end.

(** The addresses of an epoch; [parses] is the parser of an address. *)
Fixpoint validate_addrs (parses : string → bool) (addrs : list string) (addrsMap : gset string)
    : result error (gset string) :=
  match addrs with
  | [] => Ok addrsMap
  | addr :: addrs =>
      if negb (parses addr) then invalid
      else if bool_decide (addr ∈ addrsMap) then invalid
      else validate_addrs parses addrs ({[ addr ]} ∪ addrsMap)
  end.

Fixpoint validate_epochs (parses : string → bool) (l : list (Z * list string)) (epochs : gset Z)
    (addrsMap : gset string) : result error unit :=
  match l with
  | [] => Ok tt
  | (epoch, addrs) :: l =>
      if bool_decide (epoch ∈ epochs) then invalid
      else if epoch <=? 1 then invalid
      else if bool_decide (addrs = []) then invalid
      else addrsMap ← validate_addrs parses addrs addrsMap;
           validate_epochs parses l ({[ epoch ]} ∪ epochs) addrsMap
  end.

Definition DogfoodGenesis_Validate (gs : DogfoodGenesisState) : result error unit :=
  match Params_Validate (dg_Params gs), dp_MinSelfDelegation (dg_Params gs) with
  | Ok _, Some minSelfDelegation =>
      if dp_MaxValidators (dg_Params gs) <? Z.of_nat (length (dg_ValSet gs)) then invalid
      else
        totalPower ← validate_val_set minSelfDelegation (dg_ValSet gs) ∅ 0;
        _ ← validate_epochs (λ a, is_some (AccAddressFromBech32 a)) (dg_OptOutExpiries gs) ∅ ∅;
        _ ← validate_epochs (λ a, is_some (ConsAddressFromBech32 a)) (dg_ConsensusAddrsToPrune gs) ∅ ∅;
        match dg_LastTotalPower gs with
        | None => invalid
        | Some lastTotalPower =>
            if lastTotalPower <=? 0 then invalid
            else if negb (lastTotalPower =? totalPower) then invalid
            else Ok tt
        end
  | _, _ => invalid
  end.
End Validate.

(** ** Import and export *)

Section Keeper.
Context {sdk : Sdk} {chain : ChainSdk} {B R : Type} {ot : Others R} {sk : SlashingKeeper R} {ak : AVSKeeper R}.
Context (ctx : Ctx) (ChainID : string).
#[local] Instance hooks_genesis : Others (DogfoodExt R) := dogfood_others ctx ChainID.
Abbreviation W := (World B (OperatorExt (DogfoodExt R))).
Abbreviation chainIDWithoutRevision := (ChainIDWithoutRevision ChainID).

(** A validator of the file needs an operator; a nil key panics. *)
Fixpoint genesis_validators (l : list GenesisValidator) (x : OperatorExt (DogfoodExt R))
    : result error (list KeyWithPower) :=
  match l with
  | [] => Ok []
  | val :: l =>
      match NewWrappedConsKeyFromHex (gv_PublicKey val) with
      | None => Panic
      | Some wrappedKey =>
          match GetOperatorAddressForChainIDAndConsAddr chainIDWithoutRevision (ToConsAddr wrappedKey) x with
          | None => Panic
          | Some _ => out ← genesis_validators l x;
                    Ok ({| kp_Key := wrappedKey; kp_Power := gv_Power val |} :: out)
          end
      end
  end.

Definition init_opt_outs (current : Z) (obj : Z * list string) : M W error unit :=
  let '(epoch, addrs) := obj in
  if epoch <? current then panic
  else for_each addrs (λ addr,
         let operatorAddr := default EmptyString (AccAddressFromBech32 addr) in
         _ ← on_rest (queues_of (AppendOptOutToFinish epoch operatorAddr));
         on_rest (queues_of (SetOperatorOptOutFinishEpoch operatorAddr epoch))).

Definition init_addrs_to_prune (current : Z) (obj : Z * list string) : M W error unit :=
  let '(epoch, addrs) := obj in
  if epoch <? current then panic
  else for_each addrs (λ addr,
         let accAddr := default EmptyString (ConsAddressFromBech32 addr) in
         on_rest (queues_of (AppendConsensusAddrToPrune epoch accAddr))).

(** A nil total power would panic when it is stored. *)
Definition Dogfood_InitGenesis (genState : DogfoodGenesisState) : M W error (list ValidatorUpdate) :=
  let params := dg_Params genState in
  let epochID := dp_EpochIdentifier params in
  found ← gets (λ w, GetEpochInfo epochID (y_epochs (w_others w)));
  match found, dg_LastTotalPower genState with
  | Some epochInfo, Some lastTotalPower =>
      _ ← on_rest (dogfood_of (modify (SetParams params)));
      minSelfDelegation ← lift_result (int_Uint64 (dp_MinSelfDelegation params));
      a ← gets w_assets;
      registered ← must (on_ext (below_dogfood (RegisterAVSWithChainID a {|
        ca_AvsName := chainIDWithoutRevision; ca_AssetIDs := dp_AssetIDs params;
        ca_UnbondingPeriod := dp_EpochsUntilUnbonded params;
        ca_MinSelfDelegation := minSelfDelegation; ca_EpochIdentifier := epochID;
        ca_ChainID := chainIDWithoutRevision |})));
      _ ← (if (registered.1 : bool) then mret tt
           else on_rest (dogfood_of (modify MarkEmitAvsEventFlag)));
      out ← gets (λ w, genesis_validators (dg_ValSet genState) (w_ext w));
      out ← lift_result out;
      let current := ei_CurrentEpoch epochInfo in
      _ ← for_each (dg_OptOutExpiries genState) (init_opt_outs current);
      _ ← for_each (dg_ConsensusAddrsToPrune genState) (init_addrs_to_prune current);
      _ ← on_rest (vals_of (SetLastTotalPower lastTotalPower));
      _ ← must (InitGenesisVPSnapshot ctx);
      on_rest (ApplyValidatorChanges ctx out)
  | _, _ => panic
  end.

(** The key of a validator is that of the operator at present; [GetConsensusPower] divides
    by the reduction. *)
Definition Dogfood_ExportGenesis (w : W) : result error DogfoodGenesisState :=
  validators ← all_bonded ctx ChainID w;
  Ok {| dg_Params := GetDogfoodParams (w_dogfood w);
        dg_ValSet := (λ val, {| gv_PublicKey := ToHex (val_ConsKey val);
                                gv_Power := val_Tokens val `quot` DefaultPowerReduction |}) <$> validators;
        dg_OptOutExpiries := GetAllOptOutsToFinish (w_queues w);
        dg_ConsensusAddrsToPrune := GetAllConsAddrsToPrune (w_queues w);
        dg_LastTotalPower := Some (GetLastTotalPower (w_vals w)) |}.
End Keeper.

(** ** The validator set of a valid genesis file *)

Section GenesisSet.
Context `{SdkLaws} {chain : ChainSdk} {cl : ChainLaws sdk chain}.
Context {B R : Type} {ot : Others R} {sk : SlashingKeeper R} {ak : AVSKeeper R} {ba : BondAccepts R}.
Context (ctx : Ctx) (ChainID : string).
Abbreviation W := (World B (OperatorExt (DogfoodExt R))).
Implicit Types (w : W) (l : list GenesisValidator).

Definition genesis_total l : Z := foldr (λ v t, gv_Power v + t) 0 l.

(** The key and the power of a validator, as an operator that is sorted. *)
Definition genesis_entry (v : GenesisValidator) : string * string * Z :=
  (EmptyString, default EmptyString (NewWrappedConsKeyFromHex (gv_PublicKey v)), gv_Power v).

Lemma validate_val_set_cons min v l pubkeys total r :
  validate_val_set min (v :: l) pubkeys total = Ok r →
  min ≤ gv_Power v ∧ is_Some (NewWrappedConsKeyFromHex (gv_PublicKey v)) ∧
  ∃ pubkeys', validate_val_set min l pubkeys' (wrap_int64 (total + gv_Power v)) = Ok r.
Proof.
  cbn. case_bool_decide; [done|]. destruct (NewWrappedConsKeyFromHex _) eqn:Hkey; cbn; [|done].
  destruct (Z.ltb_spec (gv_Power v) min); [done|]. eauto.
Qed.

Lemma validate_val_set_nonneg min l pubkeys total r :
  0 ≤ min → validate_val_set min l pubkeys total = Ok r → 0 ≤ genesis_total l.
Proof.
  intros Hmin. revert pubkeys total. induction l as [|v l IH]; intros pubkeys total; [done|].
  intros (? & _ & pk & ?%IH)%validate_val_set_cons. cbn. fold (genesis_total l). lia.
Qed.

Lemma validate_val_set_total min l pubkeys total r :
  0 ≤ min → 0 ≤ total → total + genesis_total l < 2 ^ 63 →
  validate_val_set min l pubkeys total = Ok r → r = total + genesis_total l.
Proof.
  intros Hmin. revert pubkeys total. induction l as [|v l IH]; intros pubkeys total Ht Hlt.
  { intros [= <-]. cbn. lia. }
  intros (? & _ & pk & Hr)%validate_val_set_cons. pose proof (validate_val_set_nonneg _ _ _ _ _ Hmin Hr).
  change (genesis_total (v :: l)) with (gv_Power v + genesis_total l) in *.
  rewrite wrap_int64_id in Hr by lia. apply IH in Hr; lia.
Qed.

Lemma genesis_validators_Ok l (x : OperatorExt (DogfoodExt R)) out :
  genesis_validators ctx ChainID l x = Ok out → out = op_change <$> (genesis_entry <$> l).
Proof.
  revert out. induction l as [|v l IH]; intros out; cbn; [by intros [= <-]|].
  destruct (NewWrappedConsKeyFromHex (gv_PublicKey v)) as [key|] eqn:Hkey; [|done].
  destruct (GetOperatorAddressForChainIDAndConsAddr _ _ _); [|done].
  destruct (genesis_validators ctx ChainID l x) as [out'| |]; [|done..]. intros [= <-].
  rewrite (IH out') by done. unfold genesis_entry at 2. by rewrite Hkey.
Qed.

(** All changes of an empty set are additions. *)
Lemma all_changes_empty (s : ValidatorState) (l : list (string * string * Z)) :
  validators s = ∅ → all_changes s l = op_change <$> l.
Proof.
  intros Hs. assert (HG : GetAllImuachainValidators s = []) by (unfold GetAllImuachainValidators; by rewrite Hs).
  unfold all_changes. rewrite HG. rewrite filter_nil. cbn [fmap list_fmap]. rewrite app_nil_r.
  unfold changes, prev_powers. cbn [foldl]. induction l as [|e l IH]; [done|]. cbn [omap list_omap fmap list_fmap].
  by rewrite lookup_empty, bool_decide_false, IH.
Qed.

Lemma keeps_validators_rest {A} (m : M (DogfoodExt R) error A) :
  keeps (λ y, ds_vals (de_dogfood y)) m → keeps (w_vals (B := B) (R := R)) (on_rest m).
Proof.
  intros Hm w. unfold on_rest, on_ext, zoom. specialize (Hm (w_rest w)). unfold w_rest in Hm.
  by destruct (m (oe_rest (w_ext w))) as [r y'].
Qed.

Lemma keeps_validators_queues {E A} (m : M QueueState E A) :
  keeps (λ y : DogfoodExt R, ds_vals (de_dogfood y)) (queues_of m).
Proof. intros y. unfold_zooms. by destruct (m _). Qed.

Lemma keeps_validators_below {A} (m : M (OperatorExt R) error A) :
  keeps (w_vals (B := B) (R := R)) (on_ext (below_dogfood m)).
Proof. intros w. unfold_zooms. by destruct (m _). Qed.

Lemma keeps_must {S T E A} (f : S → T) (m : M S E A) : keeps f m → keeps f (must m).
Proof. intros Hm s. specialize (Hm s). unfold must. by destruct (m s) as [[]]. Qed.

Lemma keeps_genesis_powers avsAddr : keeps (w_vals (B := B) (R := R)) (genesis_powers avsAddr).
Proof.
  unfold genesis_powers. apply keeps_with_var. unfold IterateOperatorUSDValuesForAVS.
  apply keeps_bind; [by solve_keeps|]. intros entries. apply keeps_bind; [|intros; by apply keeps_modify].
  induction entries as [|[k v] entries IH]; [done|]. cbn [iterate_usd].
  repeat first [apply keeps_bind; [|intros] | assumption | progress solve_keeps].
Qed.

Lemma keeps_snapshot : keeps (w_vals (B := B) (R := R)) (InitGenesisVPSnapshot (ot := dogfood_others ctx ChainID) ctx).
Proof.
  pose proof keeps_genesis_powers. unfold InitGenesisVPSnapshot, IterateAVSUSDValues.
  assert (Hs : ∀ A (m : M SnapshotState error A), keeps (w_vals (B := B) (R := R)) (on_snap m)).
  { intros A m w. unfold on_snap, on_operator, on_ext, zoom. by destruct (m _). }
  repeat first [apply keeps_bind; [|intros] | apply keeps_for_each; intros | apply Hs | assumption | progress solve_keeps]; eauto.
Qed.

Lemma keeps_init_opt_outs current obj : keeps (w_vals (B := B) (R := R)) (init_opt_outs current obj).
Proof.
  destruct obj as [epoch addrs]. unfold init_opt_outs. destruct (_ <? _); [done|]. apply keeps_for_each. intros addr.
  apply keeps_bind; intros; apply keeps_validators_rest, keeps_validators_queues.
Qed.

Lemma keeps_init_addrs current obj : keeps (w_vals (B := B) (R := R)) (init_addrs_to_prune current obj).
Proof.
  destruct obj as [epoch addrs]. unfold init_addrs_to_prune. destruct (_ <? _); [done|]. apply keeps_for_each. intros addr.
  apply keeps_validators_rest, keeps_validators_queues.
Qed.

(** A step of a run that leaves the validators alone. *)
Ltac vals_step Hrun tac :=
  let Hs := fresh "Hs" in
  apply bind_Ok in Hrun as (? & ? & Hs & Hrun);
  apply (keeps_Ok (w_vals (B := B) (R := R))) in Hs; [|tac].

Lemma InitGenesis_vals gs w us w' :
  Dogfood_InitGenesis ctx ChainID gs w = (Ok us, w') →
  ∃ total w1, dg_LastTotalPower gs = Some total ∧ w_vals w1 = set_lastTotalPower (Some total) (w_vals w) ∧
    ApplyValidatorChanges ctx (op_change <$> (genesis_entry <$> dg_ValSet gs)) (w_rest w1) = (Ok us, w_rest w').
Proof.
  unfold Dogfood_InitGenesis. intros (? & ? & [-> ->]%gets_Ok & Hrun)%bind_Ok.
  destruct (GetEpochInfo _ _) as [info|]; [|done]. destruct (dg_LastTotalPower gs) as [total|]; [|done].
  vals_step Hrun ltac:(by apply keeps_validators_rest).
  apply bind_Ok in Hrun as (? & ? & [_ ->]%lift_result_Ok & Hrun).
  apply bind_Ok in Hrun as (a & ? & [_ ->]%gets_Ok & Hrun).
  vals_step Hrun ltac:(apply keeps_must, keeps_validators_below).
  vals_step Hrun ltac:(case_match; [done|by apply keeps_validators_rest]).
  apply bind_Ok in Hrun as (out & ? & [-> ->]%gets_Ok & Hrun).
  apply bind_Ok in Hrun as (out & ? & [Hout%genesis_validators_Ok ->]%lift_result_Ok & Hrun). subst out.
  vals_step Hrun ltac:(apply keeps_for_each, keeps_init_opt_outs).
  vals_step Hrun ltac:(apply keeps_for_each, keeps_init_addrs).
  apply bind_Ok in Hrun as (? & w6 & H6 & Hrun).
  match type of H6 with on_rest _ ?w5 = _ =>
    edestruct (on_rest_run (vals_of (SetLastTotalPower total)) w5) as (w6' & H6' & Hw6); [done|] end.
  rewrite H6 in H6'. injection H6' as _ <-.
  vals_step Hrun ltac:(apply keeps_must, keeps_snapshot).
  match type of Hrun with on_rest _ ?w7 = _ => exists total, w7;
    destruct (ApplyValidatorChanges ctx (op_change <$> (genesis_entry <$> dg_ValSet gs)) (w_rest w7)) as [r y'] eqn:Hap end.
  apply on_rest_run in Hap as (w8 & Hap & Hw8). rewrite Hrun in Hap. injection Hap as <- <-.
  split_and!; [done| |by rewrite Hw8]. etransitivity; [eassumption|]. unfold w_vals at 1, w_dogfood. rewrite Hw6. cbn.
  unfold w_vals, w_dogfood in *. congruence.
Qed.

Lemma Validate_total gs total :
  DogfoodGenesis_Validate gs = Ok tt → dg_LastTotalPower gs = Some total →
  genesis_total (dg_ValSet gs) < 2 ^ 63 → total = genesis_total (dg_ValSet gs).
Proof.
  intros Hvalid Htotal Hlt. unfold DogfoodGenesis_Validate in Hvalid. rewrite Htotal in Hvalid.
  destruct (Params_Validate (dg_Params gs)) eqn:Hp; [|done..].
  destruct (dp_MinSelfDelegation (dg_Params gs)) as [min|] eqn:Hmin; [|done].
  assert (0 ≤ min).
  { unfold Params_Validate, mbind, result_bind in Hp. rewrite Hmin in Hp.
    destruct (ValidatePositiveUint32 (dp_EpochsUntilUnbonded _)); [|done..].
    destruct (ValidateEpochIdentifierString _); [|done..].
    destruct (ValidatePositiveUint32 (dp_MaxValidators _)); [|done..].
    destruct (ValidatePositiveUint32 (dp_HistoricalEntries _)); [|done..].
    destruct (ValidateAssetIDs _); [|done..]. cbn in Hp. destruct (Z.ltb_spec min 0); done. }
  destruct (_ <? _); [done|]. destruct (validate_val_set _ _ _ _) as [t| |] eqn:Hv; [|done..].
  apply validate_val_set_total in Hv; [|lia..]. cbn in Hvalid.
  destruct (validate_epochs _ (dg_OptOutExpiries gs) _ _); [|done..]. cbn in Hvalid.
  destruct (validate_epochs _ (dg_ConsensusAddrsToPrune gs) _ _); [|done..]. cbn in Hvalid.
  destruct (_ <=? _); [done|]. destruct (Z.eqb_spec total t); [lia|done].
Qed.

Lemma total_power_genesis l : total_power (genesis_entry <$> l) = genesis_total l.
Proof. induction l as [|v l IH]; [done|]. cbn. f_equal. exact IH. Qed.

(** A valid genesis file gives a consistent validator set: if its validators have
    distinct consensus addresses, each with some power, and their powers add up within an
    int64, the import ends with exactly these validators, each well formed, the total
    power is the sum of the powers, and the updates that are returned build the
    same set in the consensus engine. *)
Theorem genesis_validator_set gs w us w' :
  DogfoodGenesis_Validate gs = Ok tt →
  validators (w_vals w) = ∅ →
  NoDup (op_addr <$> (genesis_entry <$> dg_ValSet gs)) →
  Forall (λ v, 1 ≤ gv_Power v) (dg_ValSet gs) →
  genesis_total (dg_ValSet gs) < 2 ^ 63 →
  Dogfood_InitGenesis ctx ChainID gs w = (Ok us, w') →
  set_inv (w_vals w') ∧ powers (w_vals w') = set_of (genesis_entry <$> dg_ValSet gs) ∧
  apply_updates ∅ us = powers (w_vals w').
Proof.
  intros Hvalid Hempty Hnd Hpos Hlt (total & w1 & Htotal & Hw1 & Hap)%InitGenesis_vals.
  rewrite (Validate_total gs total) in Hw1 by done. set (l := genesis_entry <$> dg_ValSet gs) in *.
  assert (Hs1 : validators (ds_vals (de_dogfood (w_rest w1))) = ∅) by (change (validators (w_vals w1) = ∅); by rewrite Hw1).
  destruct (ApplyValidatorChanges_spec ctx l (Some (genesis_total (dg_ValSet gs))) (w_rest w1))
    as (us' & y' & Hrun & _ & [Hp Hinv He _ _ _ _] & _).
  { unfold vals_wf. rewrite Hs1. apply map_Forall_empty. }
  { done. }
  { unfold l. apply Forall_fmap. exact Hpos. }
  { rewrite map_sum_set_of by done. unfold l. by rewrite total_power_genesis. }
  rewrite all_changes_empty in Hrun by done. fold l in Hap.
  replace {| de_dogfood := _ |} with (w_rest w1) in Hrun.
  2:{ unfold w_vals, w_dogfood in Hw1. rewrite Hw1. clear -Hw1. destruct w1 as [??? [? [[[] ????] ?]]]. cbn in *. by injection Hw1 as -> -> -> ->. }
  rewrite Hap in Hrun. injection Hrun as <- Hy.
  unfold w_vals, w_dogfood. rewrite Hy. split_and!; [done..|]. rewrite <-He. f_equal. symmetry.
  unfold powers. rewrite Hs1. apply fmap_empty.
Qed.
End GenesisSet.
