(* ===== verification/DogfoodSample.v ===== *)
(** * A sample chain with a validator

    The modules below x/dogfood with concrete answers, and blocks on them: the operator of the
    sample chain becomes a validator, replaces its key, starts to opt out and is out when the epoch comes.  The
    theorems about x/dogfood are applied to the states of the run. *)

From S2P Require Import Prelude Errors Sdk RefSdk KVStore Ledger Epochs Shares DelegationTypes.
From S2P Require Import Assets.
From S2P Require Import DelegationStore UndelegationStore DelegationInv Delegation.
From S2P Require Import OperatorTypes OperatorStore OperatorSnapshot OperatorKeepers OperatorUnbonding.
From S2P Require Import OperatorUSD OperatorVotingPower OperatorKeys OperatorOpt OperatorSlash.
From S2P Require Import OperatorSlashSafety OperatorSample OperatorGenesis.
From S2P Require Import ChainUtils DogfoodTypes DogfoodStore DogfoodKeepers DogfoodHooks.
From S2P Require Import DogfoodEndBlock DogfoodValidators DogfoodQueues DogfoodBlocks DogfoodSdk DogfoodProps.
From S2P Require Import DogfoodGenesis.

(** ** The libraries *)

(** A name, a dash and a number that does not begin with 0. *)
Definition is_digit (c : ascii) : bool := in_range "0" "9" c.
Fixpoint all_digits (s : string) : bool :=
  match s with EmptyString => true | String c s => is_digit c && all_digits s end.
Definition ref_IsRevisionFormat (s : string) : bool :=
  match LastIndex "-"%char s with
  | Some (S i) =>
      match slice_from (S (S i)) s, slice i (S i) s with
      | String c n, String b _ => is_digit c && negb (bool_decide (c = "0"%char)) &&
          all_digits n && negb (bool_decide (b = "-"%char))
      | _, _ => false
      end
  | _ => false
  end.

Definition ref_ConsAddressFromBech32 (s : string) : option string :=
  if has_prefix "imvalcons" s then AccAddressFromBech32 ("im1" +:+ slice_from 9 s) else None.

#[export] Instance sample_chain_sdk : ChainSdk := {|
  IsRevisionFormat := ref_IsRevisionFormat;
  Keccak256 := last_bytes 32;
  BytesToAddress := last_bytes 20;
  ConsAddress_String a := "imvalcons" +:+ hex_bytes a;
  ConsAddressFromBech32 := ref_ConsAddressFromBech32;
  NewAnyWithValue := Some;
  PublicKey_String k := k;
  DefaultPowerReduction := 10 ^ 18;
  staking_DefaultMaxValidators := 100;
  staking_DefaultHistoricalEntries := 10000;
  SortByVotingPower l := l;
|}.

#[export] Instance sample_chain_laws : ChainLaws RefSdk sample_chain_sdk.
Proof.
  split; [|done| |done|by cbn; lia|done].
  - intros a Ha. cbn [ConsAddressFromBech32 ConsAddress_String sample_chain_sdk]. unfold ref_ConsAddressFromBech32.
    rewrite has_prefix_app, slice_from_app by done. exact (bech32_roundtrip a Ha).
  - intros key. apply length_last_bytes.
Qed.

(** ** x/slashing and the other modules *)

Record SampleRest := {
  sr_epochs : EpochsState;
  sr_infos : gmap string ValidatorSigningInfo;
  sr_bits : gmap (string * Z) bool;
}.

Definition sr_set_infos f (r : SampleRest) : SampleRest :=
  {| sr_epochs := sr_epochs r; sr_infos := f (sr_infos r); sr_bits := sr_bits r |}.
Definition sr_set_bits f (r : SampleRest) : SampleRest :=
  {| sr_epochs := sr_epochs r; sr_infos := sr_infos r; sr_bits := f (sr_bits r) |}.

(** A validator that is bonded gets its signing information. *)
Definition sample_bonded (ctx : Ctx) (addr : string) : SampleRest → SampleRest :=
  sr_set_infos (λ m, match m !! addr with
    | Some _ => m
    | None => <[addr := NewValidatorSigningInfo addr (BlockHeight ctx) 0 UnixEpoch false 0]> m
    end).

#[export] Instance sample_slashing : SlashingKeeper SampleRest := {|
  GetValidatorSigningInfo r a := sr_infos r !! a;
  SetValidatorSigningInfo a i := sr_set_infos (insert a i);
  GetValidatorMissedBlockBitArray r a n := default false (sr_bits r !! (a, n));
  SetValidatorMissedBlockBitArray a n v := sr_set_bits (insert (a, n) v);
  ClearValidatorMissedBlockBitArray a := sr_set_bits (filter (λ kv, kv.1.1 ≠ a));
  ResetValidatorSigningInfo a := sr_set_infos (delete a);
  IsTombstoned r a := match sr_infos r !! a with Some i => si_Tombstoned i | None => false end;
  DowntimeJailDuration _ := 600 * 10 ^ 9;
  DoubleSignJailEndTime := 2 ^ 62;
  dogfoodHooks := [ {|
    AfterValidatorBonded ctx addr := modify (sample_bonded ctx addr);
    AfterValidatorRemoved _ _ := mret tt;
    AfterValidatorCreated _ _ _ := mret tt |} ];
|}.

#[export] Instance sample_slashing_laws : SlashingLaws SampleRest.
Proof.
  split; cbn.
  - intros a i r b. rewrite lookup_insert. by repeat case_decide; subst.
  - done.
  - intros a n v r b m. rewrite lookup_insert. repeat case_decide; naive_solver.
  - intros a r b m. destruct (decide (b = a)) as [->|Hne].
    + rewrite (map_lookup_filter_None_2 _ _ (a, m)); [done|]. right. by intros v _ [].
    + f_equal. destruct (sr_bits r !! (b, m)) as [v|] eqn:Hv.
      * by apply map_lookup_filter_Some_2.
      * apply map_lookup_filter_None_2. by left.
  - done.
  - done.
Qed.

#[export] Instance sample_bond_accepts : BondAccepts SampleRest.
Proof. intros ctx addr r. by eexists. Qed.
#[export] Instance sample_remove_accepts : RemoveAccepts SampleRest.
Proof. intros ctx addr r. by eexists. Qed.

(** The modules of the sample chain, beside x/slashing. *)
#[export] Instance sample_rest_others : Others SampleRest := {|
  y_epochs := sr_epochs;
  GetAVSSupportedAssets a r := GetAVSSupportedAssets a (sr_epochs r);
  GetAVSSlashContract r := GetAVSSlashContract (sr_epochs r);
  GetChainIDByAVSAddr r := GetChainIDByAVSAddr (sr_epochs r);
  GetAVSMinimumSelfDelegation r := GetAVSMinimumSelfDelegation (sr_epochs r);
  GetEpochEndAVSs r := GetEpochEndAVSs (sr_epochs r);
  IsAVS r := IsAVS (sr_epochs r);
  IsAVSByChainID r := IsAVSByChainID (sr_epochs r);
  GetAVSEpochInfo r := GetAVSEpochInfo (sr_epochs r);
  GetAVSUnbondingDuration r := GetAVSUnbondingDuration (sr_epochs r);
  IsWhitelisted r := IsWhitelisted (sr_epochs r);
  GetAVSAssetsList r := GetAVSAssetsList (sr_epochs r);
  GetSpecifiedAssetsPrice r := GetSpecifiedAssetsPrice (sr_epochs r);
  GetMultipleAssetsPrices r := GetMultipleAssetsPrices (sr_epochs r);
  SlashRewardUndelegation r _ := mret r;
  UpdateAllRewardsUSDForOperator _ _ _ _ := mret 0;
  OperatorTotalRewardsUSDValue _ _ _ := Ok (∅, 0);
  SlashOperatorUnclaimedRewards _ _ _ := mret [];
  AfterOperatorKeySet _ _ _ _ _ := mret tt;
  AfterOperatorKeyReplaced _ _ _ _ _ _ := mret tt;
  AfterOperatorKeyRemovalInitiated _ _ _ _ := mret tt;
  AfterSlash _ _ _ _ _ _ := mret tt;
  AfterJail _ _ _ _ := mret tt;
|}.

#[export] Instance sample_chain_rewards : RewardsFrame SampleRest.
Proof. intros a avs op assets x r x' [= _ <-]. by split. Qed.

(** The AVS of the chain is registered already. *)
#[export] Instance sample_avs_keeper : AVSKeeper SampleRest := {|
  RegisterAVSWithChainID _ _ := mret (true, sample_avs);
  UpdateAVSInfo _ _ _ := mret tt;
|}.

(** ** The blocks *)

Definition sample_chainID : string := "imua-1".
Definition sample_rest0 : SampleRest := {| sr_epochs := sample_epochs; sr_infos := ∅; sr_bits := ∅ |}.
Definition sample_params : DogfoodTypes.Params := {|
  dp_EpochsUntilUnbonded := 2; dp_EpochIdentifier := "five"; dp_MaxValidators := 10;
  dp_HistoricalEntries := 2; dp_AssetIDs := [sample_assetID]; dp_MinSelfDelegation := Some 0 |}.
Definition SampleChain : Type := World refbank (OperatorExt (DogfoodExt SampleRest)).

(** The operator of the sample chain has opted in with its key. *)
Definition sample_d0 : SampleChain := {|
  w_assets := w_assets sample_s5; w_delegation := w_delegation sample_s5; w_bank := w_bank sample_s5;
  w_ext := {| oe_operator := oe_operator (w_ext sample_s5); oe_rest := {|
    de_dogfood := set_dogfoodParams (Some sample_params) empty_dogfood; de_rest := sample_rest0 |} |} |}.

Definition sample_hooked (t : Z) : Others (DogfoodExt SampleRest) := dogfood_others (at_time t) sample_chainID.

(** The end of an epoch, a second key and the end of the block. *)
Definition sample_key2 : string := "another-consensus-key".
Definition sample_d1 : SampleChain :=
  with_ext (put_rest (put_dogfood (dogfood_AfterEpochEnd "five" 1 (w_dogfood sample_d0)).2 (w_rest sample_d0))
    (w_ext sample_d0)) sample_d0.
Definition sample_d2 : SampleChain := with_ext
  (SetOperatorConsKeyForChainID (ot := sample_hooked 17) (w_assets sample_d1) sample_acc sample_chain sample_key2
    (w_ext sample_d1)).2 sample_d1.
Definition sample_d3 : SampleChain := (EndBlock (at_time 17) sample_chainID sample_d2).2.
Definition sample_updates : list ValidatorUpdate := [{| vu_PubKey := sample_key2; vu_Power := 600 |}].

(** The operator opts out. *)
Definition sample_d4 : SampleChain := with_ext
  (InitiateOperatorKeyRemovalForChainID (ot := sample_hooked 18) sample_acc sample_chain (w_ext sample_d3)).2 sample_d3.
Definition sample_d5 : SampleChain := (EndBlock (at_time 18) sample_chainID sample_d4).2.
(** The epoch comes. *)
Definition sample_d6 : SampleChain :=
  with_ext (put_rest (put_dogfood (dogfood_AfterEpochEnd "five" 4 (w_dogfood sample_d5)).2 (w_rest sample_d5))
    (w_ext sample_d5)) sample_d5.
Definition sample_d7 : SampleChain := (EndBlock (at_time 26) sample_chainID sample_d6).2.

Lemma sample_epoch1_run :
  dogfood_AfterEpochEnd "five" 1 (w_dogfood sample_d0) = (Ok tt, w_dogfood sample_d1).
Proof. refine (run_eta _ (w_dogfood sample_d0) tt _). conv_refl. Qed.
Lemma sample_replace_run :
  SetOperatorConsKeyForChainID (ot := sample_hooked 17) (w_assets sample_d1) sample_acc sample_chain sample_key2
    (w_ext sample_d1) = (Ok tt, w_ext sample_d2).
Proof. refine (run_eta _ (w_ext sample_d1) tt _). conv_refl. Qed.
Lemma sample_end1_run : EndBlock (at_time 17) sample_chainID sample_d2 = (Ok sample_updates, sample_d3).
Proof. refine (run_eta _ sample_d2 sample_updates _). conv_refl. Qed.
Lemma sample_initiate_run :
  InitiateOperatorKeyRemovalForChainID (ot := sample_hooked 18) sample_acc sample_chain (w_ext sample_d3) =
  (Ok tt, w_ext sample_d4).
Proof. refine (run_eta _ (w_ext sample_d3) tt _). conv_refl. Qed.
Lemma sample_end2_run : EndBlock (at_time 18) sample_chainID sample_d4 = (Ok [], sample_d5).
Proof. refine (run_eta _ sample_d4 [] _). conv_refl. Qed.
Lemma sample_epoch4_run :
  dogfood_AfterEpochEnd "five" 4 (w_dogfood sample_d5) = (Ok tt, w_dogfood sample_d6).
Proof. refine (run_eta _ (w_dogfood sample_d5) tt _). conv_refl. Qed.
Lemma sample_end3_run :
  EndBlock (at_time 26) sample_chainID sample_d6 = (Ok [{| vu_PubKey := sample_key2; vu_Power := 0 |}], sample_d7).
Proof. refine (run_eta _ sample_d6 _ _). conv_refl. Qed.

(** ** Facts about the states *)

Definition sample_keys0 : KeyState :=
  (setOperatorConsKeyForChainIDUnchecked sample_acc sample_chain sample_key (st_keys empty_operator)).2.

Lemma sample_d0_keys : w_keys sample_d0 = sample_keys0.
Proof. conv_refl. Qed.
Lemma sample_d0_queues : w_queues sample_d0 = ds_queues empty_dogfood.
Proof. reflexivity. Qed.
Lemma sample_chain_name : ChainIDWithoutRevision sample_chainID = sample_chain.
Proof. by vm_compute. Qed.
Lemma sample_go : go_string (ChainIDWithoutRevision sample_chainID).
Proof. by vm_compute. Qed.
Lemma sample_d3_registered : registered (w_ext sample_d3) sample_acc = true.
Proof. conv_refl. Qed.
Lemma sample_d3_removing : IsOperatorRemovingKeyFromChainID sample_acc sample_chain (w_keys sample_d3) = false.
Proof. conv_refl. Qed.
Lemma sample_others2 : sr_epochs (w_others sample_d2) = sample_epochs.
Proof. conv_refl. Qed.
Lemma sample_others4 : sr_epochs (w_others sample_d4) = sample_epochs.
Proof. conv_refl. Qed.
Lemma sample_others5 : sr_epochs (w_others sample_d5) = sample_epochs.
Proof. conv_refl. Qed.
Lemma sample_others6 : sr_epochs (w_others sample_d6) = sample_epochs.
Proof. conv_refl. Qed.
Lemma sample_d5_key :
  getOperatorConsKeyForChainID sample_acc sample_chain (w_keys sample_d5) = Some sample_key2.
Proof. conv_refl. Qed.
Lemma sample_d5_queued : addrs_at (w_queues sample_d5) (Some (Uint64ToBigEndian 4)) =
  [ToConsAddr sample_key; ToConsAddr sample_key2].
Proof. conv_refl. Qed.
Lemma sample_d5_opting_out : ops_at (w_queues sample_d5) (Some (Uint64ToBigEndian 4)) = [sample_acc].
Proof. conv_refl. Qed.

Lemma sample_d5_epoch : GetEpochIdentifier (w_dogfood sample_d5) = "five".
Proof. conv_refl. Qed.

Lemma sample_d2_vals : w_vals sample_d2 = ds_vals empty_dogfood.
Proof. conv_refl. Qed.
Lemma sample_d2_due : ShouldUpdateValidatorSet (w_dogfood sample_d2) = true.
Proof. conv_refl. Qed.
Lemma sample_d2_epoch : GetEpochInfo (GetEpochIdentifier (w_dogfood sample_d2)) (y_epochs (w_others sample_d2)) = Some sample_epoch.
Proof. conv_refl. Qed.
Lemma sample_d2_max : GetMaxValidators (w_dogfood sample_d2) = 10.
Proof. conv_refl. Qed.
Definition sample_sorted : list (string * string * Z) := [(sample_acc, sample_key2, 600)].
Lemma sample_d2_sorted :
  sorted_operators (ChainIDWithoutRevision sample_chainID) (drop_dogfood (w_ext
    (finish_matured (at_time 17) (ChainIDWithoutRevision sample_chainID) (wrap_int64 (ei_CurrentEpoch sample_epoch + 1))
      sample_d2).2)) = Ok (Some sample_sorted).
Proof. conv_refl. Qed.

Lemma sample_d2_eq : with_ext (w_ext sample_d2) sample_d1 = sample_d2.
Proof. reflexivity. Qed.
Lemma sample_d4_eq : with_ext (w_ext sample_d4) sample_d3 = sample_d4.
Proof. reflexivity. Qed.
Lemma sample_d1_eq :
  sample_d1 = with_ext (put_rest (put_dogfood (w_dogfood sample_d1) (w_rest sample_d0)) (w_ext sample_d0)) sample_d0.
Proof. reflexivity. Qed.
Lemma sample_d6_eq :
  sample_d6 = with_ext (put_rest (put_dogfood (w_dogfood sample_d6) (w_rest sample_d5)) (w_ext sample_d5)) sample_d5.
Proof. reflexivity. Qed.

(** A key of 32 bytes, for the genesis files. *)
Definition sample_key32 : string := "0123456789abcdef0123456789abcdef".
Definition sample_keys32 : KeyState :=
  (setOperatorConsKeyForChainIDUnchecked sample_acc sample_chain sample_key32 (st_keys empty_operator)).2.
Definition sample_g0 : SampleChain := with_ext (put_operator (put_keys sample_keys32 (w_operator sample_d0)) (w_ext sample_d0))
  sample_d0.
Definition sample_genesis : DogfoodGenesisState := {|
  dg_Params := sample_params; dg_ValSet := [{| gv_PublicKey := ToHex sample_key32; gv_Power := 600 |}];
  dg_OptOutExpiries := []; dg_ConsensusAddrsToPrune := []; dg_LastTotalPower := Some 600 |}.
Definition sample_g1 : SampleChain := (Dogfood_InitGenesis (at_time 15) sample_chainID sample_genesis sample_g0).2.
Lemma sample_genesis_run :
  Dogfood_InitGenesis (at_time 15) sample_chainID sample_genesis sample_g0 =
  (Ok [{| vu_PubKey := sample_key32; vu_Power := 600 |}], sample_g1).
Proof. refine (run_eta _ sample_g0 _ _). conv_refl. Qed.
Lemma sample_g0_vals : validators (w_vals sample_g0) = ∅.
Proof. conv_refl. Qed.

(** A double sign with the key that was replaced. *)
Definition sample_slash_factor : option LegacyDec := Some (5 * 10 ^ 16).
Definition sample_d3s : SampleChain :=
  (dogfood_SlashWithInfractionReason (at_time 18) sample_chainID (ToConsAddr sample_key) 17 600 sample_slash_factor
    INFRACTION_DOUBLE_SIGN sample_d3).2.
Lemma sample_double_sign_run :
  dogfood_SlashWithInfractionReason (at_time 18) sample_chainID (ToConsAddr sample_key) 17 600 sample_slash_factor
    INFRACTION_DOUBLE_SIGN sample_d3 = (Ok 0, sample_d3s).
Proof. refine (run_eta _ sample_d3 _ _). conv_refl. Qed.
Lemma sample_d3_owner :
  GetOperatorAddressForChainIDAndConsAddr (ot := sample_hooked 18) (ChainIDWithoutRevision sample_chainID)
    (ToConsAddr sample_key) (w_ext sample_d3) = Some sample_acc.
Proof. conv_refl. Qed.
Lemma sample_d3_key :
  GetOperatorConsKeyForChainID (ot := sample_hooked 18) sample_acc (ChainIDWithoutRevision sample_chainID)
    (w_ext sample_d3) = Ok (Some sample_key2).
Proof. conv_refl. Qed.
Lemma sample_d3s_owner :
  GetOperatorAddressForChainIDAndConsAddr (ot := sample_hooked 18) (ChainIDWithoutRevision sample_chainID)
    (ToConsAddr sample_key2) (w_ext sample_d3s) = Some sample_acc.
Proof. conv_refl. Qed.

(** The validators after the first block. *)
Definition sample_validator : ImuachainValidator :=
  {| iv_Address := ToConsAddr sample_key2; iv_Power := 600; iv_Pubkey := Some sample_key2 |}.
Lemma sample_d3_validators : GetAllImuachainValidators (w_vals sample_d3) = [sample_validator].
Proof. conv_refl. Qed.
Lemma sample_d3_set_of : validators (w_vals sample_d3) = {[ ToConsAddr sample_key2 := sample_validator ]}.
Proof. conv_refl. Qed.
Lemma sample_d3_total : GetLastTotalPower (w_vals sample_d3) = 600.
Proof. conv_refl. Qed.
Definition sample_staking_validator : StakingValidator := {|
  val_Operator := sample_acc; val_ConsKey := sample_key2; val_Jailed := false; val_MinSelfDelegation := 0;
  val_Tokens := 600 * 10 ^ 18; val_DelegatorShares := 600 * 10 ^ 36 |}.
Lemma sample_d3_resolves : ValidatorByConsAddr (at_time 18) sample_chainID sample_d3 (ToConsAddr sample_key2) =
  Ok (Some sample_staking_validator).
Proof. conv_refl. Qed.

(** The parameters are updated. *)
Definition sample_request_params : DogfoodTypes.Params := {|
  dp_EpochsUntilUnbonded := 0; dp_EpochIdentifier := "day"; dp_MaxValidators := 20; dp_HistoricalEntries := 0;
  dp_AssetIDs := ["unknown"]; dp_MinSelfDelegation := Some (-1) |}.
Definition sample_d3p : SampleChain :=
  (dogfood_UpdateParams sample_chainID "gov" "gov" sample_request_params sample_d3).2.
Lemma sample_params_run :
  dogfood_UpdateParams sample_chainID "gov" "gov" sample_request_params sample_d3 = (Ok tt, sample_d3p).
Proof. refine (run_eta _ sample_d3 _ _). conv_refl. Qed.
Lemma sample_d3_params : GetDogfoodParams (w_dogfood sample_d3) = sample_params.
Proof. conv_refl. Qed.
Lemma sample_d3_asset : IsStakingAsset (ToLower sample_assetID) (w_assets sample_d3) = true.
Proof. conv_refl. Qed.

(** A third key in the same epoch. *)
Definition sample_key3 : string := "a-third-consensus-key".
Lemma sample_d2_frozen : OperatorStore.IsOperatorFrozen sample_acc (x_info (w_ext sample_d2)) = false.
Proof. conv_refl. Qed.
Lemma sample_d2_removing : IsOperatorRemovingKeyFromChainID sample_acc sample_chain (x_keys (w_ext sample_d2)) = false.
Proof. conv_refl. Qed.
Lemma sample_d2_unused : GetOperatorAddressForChainIDAndConsAddr (ot := sample_hooked 17) sample_chain
  (ToConsAddr sample_key3) (w_ext sample_d2) = None.
Proof. conv_refl. Qed.
Lemma sample_d2_key : getOperatorConsKeyForChainID sample_acc sample_chain (x_keys (w_ext sample_d2)) = Some sample_key2.
Proof. conv_refl. Qed.
Lemma sample_d2_prev : getOperatorPrevConsKeyForChainID sample_acc sample_chain (x_keys (w_ext sample_d2)) = Some sample_key.
Proof. conv_refl. Qed.

#[local] Opaque sample_d3s sample_d3p sample_g0 sample_g1.
#[local] Opaque sample_d0 sample_d1 sample_d2 sample_d3 sample_d4 sample_d5 sample_d6 sample_d7.

Lemma sample_keys0_inv : keys_inv sample_keys0.
Proof.
  eapply (keys_inv_set sample_acc sample_chain sample_key); [done|by vm_compute|apply keys_inv_empty|done|].
  reflexivity.
Qed.

Lemma sample_avs_known (w : SampleChain) :
  is_Some (IsAVSByChainID (w_others w) (ChainIDWithoutRevision sample_chainID)).
Proof. rewrite sample_chain_name. by exists sample_avs. Qed.

Lemma sample_replace_step : tx_step sample_chainID (at_time 17) sample_d1 sample_d2.
Proof.
  rewrite <-sample_d2_eq.
  refine (tx_set _ _ _ sample_acc sample_chain sample_key2 tt _ _ _ _ sample_replace_run); [done|by vm_compute|].
  by exists sample_avs.
Qed.

Lemma sample_block1 : block sample_chainID sample_d0 sample_d3.
Proof.
  refine (block_run _ _ _ (at_time 17) sample_d1 sample_d2 sample_updates _ _ (sample_avs_known _) sample_end1_run).
  - right. exists "five", 1, tt, (w_dogfood sample_d1). split; [exact sample_epoch1_run|exact sample_d1_eq].
  - exact (rtc_once _ _ sample_replace_step).
Qed.

Lemma sample_block2 : block sample_chainID sample_d3 sample_d5.
Proof.
  refine (block_run _ _ _ (at_time 18) sample_d3 sample_d4 [] _ _ (sample_avs_known _) sample_end2_run); [by left|].
  apply rtc_once. rewrite <-sample_d4_eq.
  refine (tx_initiate _ _ _ sample_acc sample_chain tt _ _ _ sample_d3_registered sample_d3_removing sample_initiate_run);
    [done|by vm_compute].
Qed.

Lemma sample_fresh : fresh sample_d0.
Proof.
  split.
  - rewrite sample_d0_keys. exact sample_keys0_inv.
  - by rewrite sample_d0_keys.
  - intros slot. rewrite sample_d0_queues. destruct slot; [cbn; by rewrite lookup_empty|done].
  - intros slot. rewrite sample_d0_queues. destruct slot; [cbn; by rewrite lookup_empty|done].
Qed.

Lemma sample_settled5 : settled sample_chainID sample_d5.
Proof.
  eapply blocks_settled; [exact sample_go|by apply fresh_settled, sample_fresh|].
  exact (rtc_l _ _ _ _ sample_block1 (rtc_once _ _ sample_block2)).
Qed.

Lemma sample_d2_inv : sched_inv sample_chainID (w_ext sample_d2).
Proof.
  assert (Hepoch : epoch_ends "five" 1 sample_d0 sample_d1).
  { exists tt, (w_dogfood sample_d1). split; [exact sample_epoch1_run|exact sample_d1_eq]. }
  apply (epoch_ends_inv sample_chainID) in Hepoch as [Hinv _]; [|by apply fresh_settled, sample_fresh].
  apply (ib_inv _ _ _ (txs_in_block sample_chainID sample_go (at_time 17) _ _ (rtc_once _ _ sample_replace_step)) Hinv).
Qed.

Lemma sample_d2_set : set_inv (w_vals sample_d2).
Proof. rewrite sample_d2_vals. by split. Qed.

Lemma sample_d3_set : set_inv (w_vals sample_d3).
Proof.
  split.
  - unfold vals_wf. rewrite sample_d3_set_of. apply map_Forall_singleton. split; [done|by exists sample_key2|by cbn].
  - rewrite sample_d3_total. unfold powers. rewrite sample_d3_set_of, map_fmap_singleton.
    by rewrite <-insert_empty, map_sum_fresh, map_sum_empty.
Qed.

(** ** Witnesses *)

Lemma consensus_addresses_known_witness :
  GetOperatorAddressForChainIDAndConsAddr (ChainIDWithoutRevision sample_chainID) (ToConsAddr sample_key2)
    (drop_dogfood (w_ext sample_d5)) = Some sample_acc ∧
  ∃ op, acc20 op ∧ GetOperatorAddressForChainIDAndConsAddr (ChainIDWithoutRevision sample_chainID)
    (ToConsAddr sample_key) (drop_dogfood (w_ext sample_d5)) = Some op.
Proof.
  destruct (consensus_addresses_known sample_chainID sample_go sample_d0 sample_d5 sample_fresh
    (rtc_l _ _ _ _ sample_block1 (rtc_once _ _ sample_block2)) (sample_avs_known _)) as (Hkeys & Haddrs & _).
  split.
  - apply Hkeys; [done|]. rewrite sample_chain_name. exact sample_d5_key.
  - eapply Haddrs. rewrite sample_d5_queued. apply list_elem_of_here.
Defined.

Lemma epoch_end_completes_witness :
  getOperatorConsKeyForChainID sample_acc (ChainIDWithoutRevision sample_chainID) (w_keys sample_d7) = None ∧
  consAddrs (w_keys sample_d7) !! ChainIDAndAddrKey (ChainIDWithoutRevision sample_chainID) (ToConsAddr sample_key) = None.
Proof.
  assert (Hepoch : epoch_ends (GetEpochIdentifier (w_dogfood sample_d5)) 4 sample_d5 sample_d6).
  { exists tt, (w_dogfood sample_d6). rewrite sample_d5_epoch. split; [exact sample_epoch4_run|exact sample_d6_eq]. }
  destruct (epoch_end_completes sample_chainID sample_go (at_time 26) sample_d5 4 (Uint64ToBigEndian 4) sample_d6 sample_d6
    _ sample_d7 sample_settled5 Hepoch eq_refl (rtc_refl _ _) (sample_avs_known _) sample_end3_run)
    as (Hops & Haddrs & _).
  split.
  - apply Hops. rewrite sample_d5_opting_out. apply list_elem_of_here.
  - apply Haddrs. rewrite sample_d5_queued. apply list_elem_of_here.
Defined.

Lemma EndBlock_validator_set_witness : ∃ us w',
  EndBlock (at_time 17) sample_chainID sample_d2 = (Ok us, w') ∧
  set_updated (top_powers 10 sample_sorted) us (w_vals sample_d2) (w_vals w').
Proof.
  destruct (EndBlock_validator_set sample_chainID sample_go (at_time 17) sample_d2 sample_epoch sample_d2_inv sample_d2_set
    (sample_avs_known _) sample_d2_due sample_d2_epoch) as (w1 & Hrun & _ & Hall).
  pose proof sample_d2_sorted as Hsorted. rewrite Hrun in Hsorted.
  destruct (Hall _ Hsorted) as (us & w' & Hend & Hset & _). rewrite sample_d2_max in Hset.
  exact (ex_intro _ us (ex_intro _ w' (conj Hend Hset))).
Defined.

Lemma double_sign_final_witness :
  OperatorStore.IsOperatorFrozen sample_acc (x_info (w_ext sample_d3s)) = true ∧
  IsTombstoned (w_others sample_d3s) (ToConsAddr sample_key2) = true ∧
  dogfood_Unjail (at_time 19) sample_chainID (ToConsAddr sample_key2) sample_d3s = (Ok tt, sample_d3s).
Proof.
  destruct (double_sign_final (at_time 18) sample_chainID (ToConsAddr sample_key) sample_acc sample_key2 17 600
    sample_slash_factor sample_d3 0 sample_d3s sample_d3_owner sample_d3_key sample_double_sign_run) as (Ht & Hlater).
  destruct (Hlater sample_d3s (rtc_refl _ _)) as [Hf Hu].
  split_and!; [exact Hf|apply Ht; by vm_compute|exact (Hu _ _ sample_d3s_owner)].
Defined.

Lemma TotalBondedTokens_is_power_witness :
  TotalBondedTokens (at_time 18) sample_chainID sample_d3 = Ok (600 * 10 ^ 18).
Proof.
  rewrite (TotalBondedTokens_is_power (at_time 18) sample_chainID sample_d3 sample_d3_set).
  - by rewrite sample_d3_total.
  - rewrite sample_d3_validators. constructor; [|constructor].
    exists sample_key2, sample_staking_validator. split; [done|exact sample_d3_resolves].
Defined.

Lemma sample_usable : usable (w_assets sample_d3) (GetDogfoodParams (w_dogfood sample_d3)).
Proof. rewrite sample_d3_params. split; [done..|]. constructor; [exact sample_d3_asset|constructor]. Qed.

Lemma UpdateParams_usable_witness :
  usable (w_assets sample_d3p) (GetDogfoodParams (w_dogfood sample_d3p)) ∧
  dp_EpochIdentifier (GetDogfoodParams (w_dogfood sample_d3p)) = "five".
Proof.
  destruct (UpdateParams_usable sample_chainID "gov" "gov" sample_request_params sample_d3 (Ok tt) sample_d3p sample_usable
    sample_params_run) as (Hus & Hid & _). rewrite sample_d3_params in Hid. exact (conj Hus Hid).
Defined.

Lemma second_replacement_unseen_witness : ∃ x',
  SetOperatorConsKeyForChainID (ot := sample_hooked 17) (w_assets sample_d2) sample_acc sample_chain sample_key3 (w_ext sample_d2) =
    (Ok tt, x') ∧ oe_rest x' = w_rest sample_d2.
Proof.
  destruct (second_replacement_unseen (at_time 17) sample_chainID (w_assets sample_d2) sample_acc sample_chain sample_key2
    sample_key3 sample_key (w_ext sample_d2) (si_keys _ _ sample_d2_inv) eq_refl sample_go (sample_avs_known sample_d2)
    sample_d2_frozen sample_d2_removing sample_d2_unused sample_d2_key sample_d2_prev) as (x' & Hrun & Hrest & _).
  exact (ex_intro _ x' (conj Hrun Hrest)).
Defined.

Lemma signing_info_follows_key_witness : ∃ info',
  GetValidatorSigningInfo (CopyValidatorSigningInfo (at_time 18) "old" "new" INFRACTION_UNSPECIFIED
    (SetValidatorSigningInfo "old" (NewValidatorSigningInfo "old" 3 7 0 false 2) sample_rest0)) "new" = Some info' ∧
  si_MissedBlocksCounter info' = 2.
Proof.
  destruct (signing_info_follows_key (at_time 18) "old" "new" INFRACTION_UNSPECIFIED
    (SetValidatorSigningInfo "old" (NewValidatorSigningInfo "old" 3 7 0 false 2) sample_rest0)
    (NewValidatorSigningInfo "old" 3 7 0 false 2) (lookup_insert_eq _ _ _) ltac:(cbn; lia)) as (info' & Hinfo & _ & _ & Hcopy & _).
  destruct (Hcopy eq_refl) as (_ & _ & Hmissed & _). exact (ex_intro _ info' (conj Hinfo Hmissed)).
Defined.

Definition sample_tracked (hs : list Z) : ValidatorState :=
  foldl (λ s h, set_historicalInfos (insert (Uint64ToBigEndian h) {| hi_Header := at_time h; hi_Valset := [] |}) s)
    (ds_vals empty_dogfood) hs.

Lemma prune_historical_terminates_witness :
  prune_historical (E := error) 1000 6 (sample_tracked [5; 6]) = prune_historical 7 6 (sample_tracked [5; 6]).
Proof. exact (prune_historical_terminates 1000 6 (sample_tracked [5; 6]) ltac:(lia)). Defined.

Lemma sample_tracked_heights : stored_heights (sample_tracked [5; 6]) 5 7.
Proof.
  intros h Hh. unfold info_at. cbn [sample_tracked foldl set_historicalInfos historicalInfos ds_vals empty_dogfood].
  destruct (decide (h = 6)) as [->|H6]; [rewrite lookup_insert_eq; split; [lia|by eexists]|].
  rewrite lookup_insert_ne by (apply height_key_ne; [by unfold is_number; lia|done|congruence]).
  destruct (decide (h = 5)) as [->|H5]; [rewrite lookup_insert_eq; split; [lia|by eexists]|].
  rewrite lookup_insert_ne by (apply height_key_ne; [by unfold is_number; lia|done|congruence]). rewrite lookup_empty.
  split; [by intros []|lia].
Qed.

Lemma TrackHistoricalInfo_keeps_last_witness :
  let d := put_vals (sample_tracked [5; 6]) (set_dogfoodParams (Some sample_params) empty_dogfood) in
  ∃ m, TrackHistoricalInfo (E := error) (at_time 7) d = (Ok tt, put_vals (with_history (ds_vals d) m) d) ∧
    stored_heights (with_history (ds_vals d) m) 6 8.
Proof.
  cbv zeta.
  destruct (TrackHistoricalInfo_keeps_last (at_time 7)
    (put_vals (sample_tracked [5; 6]) (set_dogfoodParams (Some sample_params) empty_dogfood)) 5) as (m & Hrun & Hs & _).
  - by vm_compute.
  - by cbn.
  - by cbn.
  - exact sample_tracked_heights.
  - exact (ex_intro _ m (conj Hrun Hs)).
Defined.

Lemma genesis_validator_set_witness :
  set_inv (w_vals sample_g1) ∧
  powers (w_vals sample_g1) = set_of (genesis_entry <$> dg_ValSet sample_genesis).
Proof.
  assert (Hvalid : DogfoodGenesis_Validate sample_genesis = Ok tt) by (by vm_compute).
  destruct (genesis_validator_set (at_time 15) sample_chainID sample_genesis sample_g0 _ sample_g1 Hvalid sample_g0_vals
    (NoDup_singleton _) ltac:(repeat constructor; cbn; lia) ltac:(cbn; lia) sample_genesis_run) as (Hset & Hpowers & _).
  exact (conj Hset Hpowers).
Defined.

Lemma sample_keys32_inv : keys_inv sample_keys32.
Proof.
  eapply (keys_inv_set sample_acc sample_chain sample_key32); [done|by vm_compute|apply keys_inv_empty|done|].
  reflexivity.
Qed.

Lemma sample_keys32_wf : keys_wf sample_keys32.
Proof.
  assert (Hkeys : consKeys sample_keys32 = {[ AddrAndChainIDKey sample_acc sample_chain := sample_key32 ]}) by done.
  intros k v. rewrite Hkeys. intros [<- <-]%lookup_singleton_Some.
  exists sample_acc, sample_chain. split; [done|]. by split_and!; vm_compute.
Qed.

Lemma genesis_keys_roundtrip_witness : ∃ records w',
  GetAllOperatorConsKeyRecords sample_keys32 = Ok records ∧
  for_each records init_record sample_s0 = (Ok tt, w') ∧ consKeys (x_keys (w_ext w')) = consKeys sample_keys32.
Proof.
  destruct (genesis_keys_roundtrip sample_keys32 sample_s0 sample_keys32_inv sample_keys32_wf eq_refl)
    as (records & w' & Hrec & Hrun & _ & Hkeys & _).
  exact (ex_intro _ records (ex_intro _ w' (conj Hrec (conj Hrun Hkeys)))).
Defined.
