(* ===== verification/AvsTypes.v ===== *)
(** * Data of x/avs (types/tx.pb.go, types/types.go, types/utils.go)

    The records of the module, the parameters of its methods and the helpers of
    types/, with what the module calls of go-ethereum, of the BLS library and of
    the protobuf codec.  A [[]byte] that the code compares with nil is an
    [option string]; the codec decodes an empty one as nil. *)

From S2P Require Import Prelude Errors Sdk RefSdk KVStore Epochs Assets OperatorTypes ChainUtils.

(** ** strconv *)

(** [strconv.FormatUint(n, 10)]: 20 digits suffice for a uint64. *)
Definition FormatUint (n : Z) : string := strip_zeros (digits 10 dec_char 20 n).

Definition dec_value (c : ascii) : Z := Z.of_nat (Ascii.nat_of_ascii c) - 48.

Fixpoint all_decimal (s : string) : bool :=
  match s with
  | EmptyString => true
  | String c s => (0 <=? dec_value c) && (dec_value c <? 10) && all_decimal s
  end.

(** [strconv.ParseUint(s, 10, 64)] *)
Definition ParseUint (s : string) : option Z :=
  let n := undigits 10 dec_value 0 s in
  if negb (bool_decide (s = EmptyString)) && all_decimal s && (n <? 2 ^ 64) then Some n else None.

(** ** Records *)

Record RewardAssetInfo := { ra_AssetId : string; ra_TotalAmount : Int }.

Record AVSInfo := {
  av_Name : string;
  av_AvsAddress : string;
  av_MinStakeAmount : Z;
  av_TaskAddress : string;
  av_SlashAddress : string;
  av_RewardAddress : string;
  av_AvsOwnerAddresses : list string;
  av_AssetIDs : list string;
  av_AvsUnbondingPeriod : Z;
  av_MinSelfDelegation : Z;
  av_EpochIdentifier : string;
  av_MinOptInOperators : Z;
  av_MinTotalStakeAmount : Z;
  av_StartingEpoch : Z;
  av_ChainId : string;
  av_AvsReward : LegacyDec;
  av_AvsSlash : LegacyDec;
  av_AssetRewardAmountEpochBasis : gmap string Z;
  av_WhitelistAddresses : list string;
  av_RewardAssetList : option (list RewardAssetInfo);
}.

(** [var avs types.AVSInfo] *)
Definition AVSInfo_zero : AVSInfo := {|
  av_Name := EmptyString; av_AvsAddress := EmptyString; av_MinStakeAmount := 0;
  av_TaskAddress := EmptyString; av_SlashAddress := EmptyString; av_RewardAddress := EmptyString;
  av_AvsOwnerAddresses := []; av_AssetIDs := []; av_AvsUnbondingPeriod := 0;
  av_MinSelfDelegation := 0; av_EpochIdentifier := EmptyString; av_MinOptInOperators := 0;
  av_MinTotalStakeAmount := 0; av_StartingEpoch := 0; av_ChainId := EmptyString;
  av_AvsReward := 0; av_AvsSlash := 0; av_AssetRewardAmountEpochBasis := ∅;
  av_WhitelistAddresses := []; av_RewardAssetList := None |}.

Record OperatorActivePowerInfo := {
  pi_OperatorAddress : string;
  pi_SelfActivePower : LegacyDec;
}.

Record TaskInfo := {
  tk_TaskContractAddress : string;
  tk_Name : string;
  tk_Hash : string;
  tk_TaskId : Z;
  tk_TaskResponsePeriod : Z;
  tk_TaskStatisticalPeriod : Z;
  tk_TaskChallengePeriod : Z;
  tk_ThresholdPercentage : Z;
  tk_StartingEpoch : Z;
  tk_ActualThreshold : string;
  tk_OptInOperators : list string;
  tk_SignedOperators : list string;
  tk_NoSignedOperators : list string;
  tk_ErrSignedOperators : list string;
  (** a nil [LegacyDec] is stored as zero *)
  tk_TaskTotalPower : LegacyDec;
  tk_OperatorActivePower : option (list OperatorActivePowerInfo);
  tk_IsExpected : bool;
  tk_EligibleRewardOperators : list string;
  tk_EligibleSlashOperators : list string;
}.

Definition PhaseUnspecified : Z := 0.
Definition PhasePrepare : Z := 1.
Definition PhaseDoCommit : Z := 2.

Record TaskResultInfo := {
  tr_OperatorAddress : string;
  tr_TaskResponseHash : string;
  tr_TaskResponse : option string;
  tr_BlsSignature : option string;
  tr_TaskContractAddress : string;
  tr_TaskId : Z;
  tr_Phase : Z;
}.

Record BlsPubKeyInfo := {
  bk_OperatorAddress : string;
  bk_AvsAddress : string;
  bk_PubKey : option string;
}.

Record TaskID := { ti_TaskAddress : string; ti_TaskId : Z }.
Record ChallengeInfo := { ch_Key : string; ch_ChallengeAddress : string }.
Record ChainIDInfo := { ci_AvsAddress : string; ci_ChainId : string }.

(** The only message without fields, [types.Params]. *)
Definition Params : Type := unit.

#[export] Instance RewardAssetInfo_eq_dec : EqDecision RewardAssetInfo.
Proof. solve_decision. Defined.
#[export] Instance AVSInfo_eq_dec : EqDecision AVSInfo.
Proof. solve_decision. Defined.
#[export] Instance OperatorActivePowerInfo_eq_dec : EqDecision OperatorActivePowerInfo.
Proof. solve_decision. Defined.
#[export] Instance TaskInfo_eq_dec : EqDecision TaskInfo.
Proof. solve_decision. Defined.
#[export] Instance TaskResultInfo_eq_dec : EqDecision TaskResultInfo.
Proof. solve_decision. Defined.
#[export] Instance BlsPubKeyInfo_eq_dec : EqDecision BlsPubKeyInfo.
Proof. solve_decision. Defined.

(** ** Parameters of the methods *)

(** [OperatorAction], a uint64 *)
Definition RegisterAction : Z := 1.
Definition DeRegisterAction : Z := 2.
Definition UpdateAction : Z := 3.

(** Addresses are the 20 bytes of a [common.Address]; a nil slice is [None]. *)
Record AVSRegisterOrDeregisterParams := {
  ap_AvsName : string;
  ap_AvsAddress : string;
  ap_MinStakeAmount : Z;
  ap_TaskAddress : string;
  ap_SlashContractAddress : string;
  ap_RewardContractAddress : string;
  ap_AvsOwnerAddresses : option (list string);
  ap_AssetIDs : option (list string);
  ap_UnbondingPeriod : Z;
  ap_MinSelfDelegation : Z;
  ap_EpochIdentifier : string;
  ap_MinOptInOperators : Z;
  ap_MinTotalStakeAmount : Z;
  ap_CallerAddress : string;
  ap_ChainID : string;
  ap_AvsReward : Z;
  ap_AvsSlash : Z;
  ap_Action : Z;
  ap_WhitelistAddresses : option (list string);
}.

Record OperatorOptParams := {
  oo_Action : Z;
  oo_OperatorAddress : string;
  oo_AvsAddress : string;
}.

Record TaskInfoParams := {
  tp_TaskContractAddress : string;
  tp_TaskName : string;
  tp_Hash : string;
  tp_TaskID : Z;
  tp_TaskResponsePeriod : Z;
  tp_TaskStatisticalPeriod : Z;
  tp_TaskChallengePeriod : Z;
  tp_ThresholdPercentage : Z;
  tp_CallerAddress : string;
}.

Record BlsParams := {
  bp_OperatorAddress : string;
  bp_AvsAddress : string;
  bp_PubKey : string;
  bp_PubKeyRegistrationSignature : string;
}.

Record ChallengeParams := {
  cp_TaskContractAddress : string;
  cp_TaskID : Z;
  cp_CallerAddress : string;
  cp_ActualThreshold : Z;
  cp_IsExpected : bool;
  cp_EligibleRewardOperators : list string;
  cp_EligibleSlashOperators : list string;
}.

Definition InvalidTaskID : Z := 0.
Definition DelimiterForGroupKey : ascii := "_"%char.

Definition ValidatePhase (phase : Z) : bool := (phase =? PhasePrepare) || (phase =? PhaseDoCommit).

(** [common.Address{}] *)
Definition zero_address : string := digits 256 byte_char 20 0.

(** ** Bytes that may be nil *)

Definition bytes_of (bz : option string) : string := default EmptyString bz.

(** What the codec gives back for a byte field. *)
Definition decoded_bytes (bz : option string) : option string :=
  if bool_decide (bytes_of bz = EmptyString) then None else bz.

Definition decoded_result (info : TaskResultInfo) : TaskResultInfo := {|
  tr_OperatorAddress := tr_OperatorAddress info;
  tr_TaskResponseHash := tr_TaskResponseHash info;
  tr_TaskResponse := decoded_bytes (tr_TaskResponse info);
  tr_BlsSignature := decoded_bytes (tr_BlsSignature info);
  tr_TaskContractAddress := tr_TaskContractAddress info;
  tr_TaskId := tr_TaskId info; tr_Phase := tr_Phase info |}.

Definition decoded_bls (pub : BlsPubKeyInfo) : BlsPubKeyInfo := {|
  bk_OperatorAddress := bk_OperatorAddress pub; bk_AvsAddress := bk_AvsAddress pub;
  bk_PubKey := decoded_bytes (bk_PubKey pub) |}.

(** ** The libraries *)

(** prysm's crypto/bls, and the protobuf codec of [BlsPubKeyInfo], whose bytes
    share a store with the raw keys. *)
Class AvsSdk := {
  PublicKey : Type;
  PublicKeyFromBytes : string → option PublicKey;
  (** signature, message hash, key; [None] is an error *)
  VerifySignature : string → string → PublicKey → option bool;
  Marshal_BlsPubKeyInfo : BlsPubKeyInfo → string;
  Unmarshal_BlsPubKeyInfo : string → option BlsPubKeyInfo;
}.

Class AvsSdkLaws (avs : AvsSdk) : Prop := {
  (** [BLSPubkeyLength] *)
  bls_key_length bz key : PublicKeyFromBytes bz = Some key → String.length bz = 48%nat;
  bls_codec pub : Unmarshal_BlsPubKeyInfo (Marshal_BlsPubKeyInfo pub) = Some (decoded_bls pub);
  (** the encoding contains the fields *)
  bls_size pub : (String.length (bk_OperatorAddress pub) + String.length (bk_AvsAddress pub) +
    String.length (bytes_of (bk_PubKey pub)) ≤ String.length (Marshal_BlsPubKeyInfo pub))%nat;
}.

(** The hexadecimal form of a [common.Address]. *)
Class AddressLaws (sdk : Sdk) (chain : ChainSdk) : Prop := {
  (** [Hex] and [HexToAddress] are inverse, and reading ignores the case *)
  HexToAddress_Hex a : String.length a = 20%nat → HexToAddress (Address_Hex a) = a;
  BytesToAddress_id a : String.length a = 20%nat → BytesToAddress a = a;
  BytesToAddress_length bz : String.length (BytesToAddress bz) = 20%nat;
  HexToAddress_lower s : HexToAddress (ToLower s) = HexToAddress s;
  IsHexAddress_Hex a : String.length a = 20%nat → common_IsHexAddress (Address_Hex a) = true;
  IsHexAddress_lower s : common_IsHexAddress (ToLower s) = common_IsHexAddress s;
  Address_Hex_prefix a : ∃ t, Address_Hex a = "0x" +:+ t;
  Address_Hex_length a : String.length a = 20%nat → String.length (Address_Hex a) = 42%nat;
  (** a hexadecimal address has no delimiter in it *)
  IsHexAddress_charset c s : c = "/"%char ∨ c = "_"%char →
    common_IsHexAddress s = true → no_char c s = true;
  (** a bech32 address is of the human readable part, the separator and lower-case data *)
  AccAddress_String_lower a : ToLower (AccAddress_String a) = AccAddress_String a;
  (** it ends in a checksum of 6 characters *)
  AccAddress_String_length a : valid_addr a → (6 < String.length (AccAddress_String a))%nat;
  (** the address that a bech32 string holds *)
  AccAddressFromBech32_valid s a : AccAddressFromBech32 s = Some a → valid_addr a;
  AccAddressFromBech32_charset s a : AccAddressFromBech32 s = Some a → no_char "/"%char s = true;
}.

(** ** types/types.go, types/utils.go *)

Section Helpers.
Context {sdk : Sdk}.

(** The elements of [a] that are left in the map when those of [b] are removed, and
    the elements of [b] that are not in the map when they are reached.  The sort makes
    the result independent of the order in which the map is read. *)
Fixpoint difference_loop (diffMap : gset string) (different b : list string)
    : gset string * list string :=
  match b with
  | [] => (diffMap, different)
  | item :: b =>
      if decide (item ∈ diffMap) then difference_loop (diffMap ∖ {[item]}) different b
      else difference_loop diffMap (different ++ [item]) b
  end.

Definition Difference (a b : list string) : list string :=
  let r := difference_loop (list_to_set a) [] b in
  merge_sort String.le (r.2 ++ elements r.1).

Definition AddressToString (addresses : list string) : list string := Address_Hex <$> addresses.
(** [strings.ToLower(addr.String())] *)
Definition lower_hex (addr : string) : string := ToLower (Address_Hex addr).
End Helpers.
