(* ===== verification/AvsStore.v ===== *)
(** * The store of x/avs (keeper/task.go and the accessors of keeper/keeper.go, avs.go, params.go)

    One map per key prefix.  The store under [KeyPrefixOperatePub] holds two kinds of
    values: the encoded [BlsPubKeyInfo] of an operator and an AVS, and each raw public
    key under itself; it is kept as bytes. *)

From S2P Require Import Prelude Errors Sdk RefSdk KVStore Epochs Assets OperatorTypes ChainUtils AvsTypes.

Record AvsState := {
  (** AVS address (20 bytes) -> AVSInfo *)
  avsInfos : gmap string AVSInfo;
  (** task address / task id -> TaskInfo *)
  taskInfos : gmap string TaskInfo;
  (** operator / AVS -> BlsPubKeyInfo, and key -> key *)
  operatorPubs : gmap string string;
  (** AVS address (20 bytes) -> chain id *)
  avsChainIDs : gmap string string;
  (** task address (20 bytes) -> last task id, a uint64 *)
  latestTaskNums : gmap string Z;
  (** operator / task address / task id -> TaskResultInfo *)
  taskResults : gmap string TaskResultInfo;
  (** task address / task id -> address of the challenger *)
  taskChallenges : gmap string string;
  avsParams : option Params;
}.

Definition set_avsInfos f (s : AvsState) : AvsState := {|
  avsInfos := f (avsInfos s); taskInfos := taskInfos s; operatorPubs := operatorPubs s;
  avsChainIDs := avsChainIDs s; latestTaskNums := latestTaskNums s;
  taskResults := taskResults s; taskChallenges := taskChallenges s; avsParams := avsParams s |}.
Definition set_taskInfos f (s : AvsState) : AvsState := {|
  avsInfos := avsInfos s; taskInfos := f (taskInfos s); operatorPubs := operatorPubs s;
  avsChainIDs := avsChainIDs s; latestTaskNums := latestTaskNums s;
  taskResults := taskResults s; taskChallenges := taskChallenges s; avsParams := avsParams s |}.
Definition set_operatorPubs f (s : AvsState) : AvsState := {|
  avsInfos := avsInfos s; taskInfos := taskInfos s; operatorPubs := f (operatorPubs s);
  avsChainIDs := avsChainIDs s; latestTaskNums := latestTaskNums s;
  taskResults := taskResults s; taskChallenges := taskChallenges s; avsParams := avsParams s |}.
Definition set_avsChainIDs f (s : AvsState) : AvsState := {|
  avsInfos := avsInfos s; taskInfos := taskInfos s; operatorPubs := operatorPubs s;
  avsChainIDs := f (avsChainIDs s); latestTaskNums := latestTaskNums s;
  taskResults := taskResults s; taskChallenges := taskChallenges s; avsParams := avsParams s |}.
Definition set_latestTaskNums f (s : AvsState) : AvsState := {|
  avsInfos := avsInfos s; taskInfos := taskInfos s; operatorPubs := operatorPubs s;
  avsChainIDs := avsChainIDs s; latestTaskNums := f (latestTaskNums s);
  taskResults := taskResults s; taskChallenges := taskChallenges s; avsParams := avsParams s |}.
Definition set_taskResults f (s : AvsState) : AvsState := {|
  avsInfos := avsInfos s; taskInfos := taskInfos s; operatorPubs := operatorPubs s;
  avsChainIDs := avsChainIDs s; latestTaskNums := latestTaskNums s;
  taskResults := f (taskResults s); taskChallenges := taskChallenges s; avsParams := avsParams s |}.
Definition set_taskChallenges f (s : AvsState) : AvsState := {|
  avsInfos := avsInfos s; taskInfos := taskInfos s; operatorPubs := operatorPubs s;
  avsChainIDs := avsChainIDs s; latestTaskNums := latestTaskNums s;
  taskResults := taskResults s; taskChallenges := f (taskChallenges s); avsParams := avsParams s |}.
Definition set_avsParams p (s : AvsState) : AvsState := {|
  avsInfos := avsInfos s; taskInfos := taskInfos s; operatorPubs := operatorPubs s;
  avsChainIDs := avsChainIDs s; latestTaskNums := latestTaskNums s;
  taskResults := taskResults s; taskChallenges := taskChallenges s; avsParams := p |}.

(** [store.Set] panics on an empty key. *)
Definition store_set {V} (key : string) (value : V) (m : gmap string V) : result error (gmap string V) :=
  if bool_decide (key = EmptyString) then Panic else Ok (<[key := value]> m).

Section Store.
Context {sdk : Sdk} {chain : ChainSdk} {avs : AvsSdk}.

(** ** AVSs *)

(** The caller ensures that the address is hexadecimal. *)
Definition SetAVSInfo (info : AVSInfo) : M AvsState error unit :=
  modify (set_avsInfos (insert (HexToAddress (av_AvsAddress info)) info)).

Definition GetAVSInfo (addr : string) (s : AvsState) : result error AVSInfo :=
  match avsInfos s !! HexToAddress addr with
  | None => Err avstypes.ErrNoKeyInTheStore
  | Some ret => Ok ret
  end.

Definition avs_IsAVS (addr : string) (s : AvsState) : bool := is_some (avsInfos s !! HexToAddress addr).

Definition DeleteAVSInfo (addr : string) : M AvsState error unit :=
  has ← gets (avs_IsAVS addr);
  _ ← fail_if (negb has) avstypes.ErrNoKeyInTheStore;
  modify (set_avsInfos (delete (HexToAddress addr))).

(** [IterateAVSInfo] with a callback that appends or stops: the infos in the order of
    the addresses. *)
Definition IterateAVSInfo (s : AvsState) : list AVSInfo :=
  (prefix_iterator EmptyString (avsInfos s)).*2.

Definition GetAllAVSInfos (s : AvsState) : list AVSInfo := IterateAVSInfo s.

(** The first AVS with the task address; the zero value when there is none. *)
Definition GetAVSInfoByTaskAddress (taskAddr : string) (s : AvsState) : AVSInfo :=
  if bool_decide (taskAddr = EmptyString) || bool_decide (taskAddr = Address_Hex zero_address)
  then AVSInfo_zero
  else from_option snd AVSInfo_zero
         (list_find (λ info, av_TaskAddress info = ToLower taskAddr) (IterateAVSInfo s)).

(** ** Chain identifiers *)

Definition SetAVSAddrToChainID (avsAddr chainID : string) : M AvsState error unit :=
  modify (set_avsChainIDs (insert avsAddr chainID)).

Definition avs_GetChainIDByAVSAddr (avsAddr : string) (s : AvsState) : option string :=
  avsChainIDs s !! HexToAddress avsAddr.

(** ** Tasks *)

Definition task_key (taskAddr taskID : string) : string := GetJoinedStoreKey [ToLower taskAddr; taskID].

Definition SetTaskInfo (task : TaskInfo) : M AvsState error unit :=
  _ ← fail_if (negb (common_IsHexAddress (tk_TaskContractAddress task))) avstypes.ErrInvalidAddr;
  modify (set_taskInfos (insert
    (task_key (tk_TaskContractAddress task) (FormatUint (tk_TaskId task))) task)).

Definition GetTaskInfo (taskID taskContractAddress : string) (s : AvsState) : result error TaskInfo :=
  if negb (common_IsHexAddress taskContractAddress) then Err avstypes.ErrInvalidAddr
  else match taskInfos s !! task_key taskContractAddress taskID with
       | None => Err avstypes.ErrNoKeyInTheStore
       | Some ret => Ok ret
       end.

Definition IterateTaskAVSInfo (s : AvsState) : list TaskInfo :=
  (prefix_iterator EmptyString (taskInfos s)).*2.

Definition GetAllTaskInfos (s : AvsState) : list TaskInfo := IterateTaskAVSInfo s.

Definition IsExistTask (taskID taskContractAddress : string) (s : AvsState) : bool :=
  is_some (taskInfos s !! task_key taskContractAddress taskID).

(** ** Task numbers *)

Definition SetTaskID (taskAddr : string) (id : Z) : M AvsState error unit :=
  if bool_decide (taskAddr = zero_address) then panic
  else modify (set_latestTaskNums (insert taskAddr id)).

Definition next_task_id (taskAddr : string) (s : AvsState) : Z :=
  match latestTaskNums s !! taskAddr with Some id => wrap_uint64 (id + 1) | None => 1 end.

Definition GetTaskID (taskAddr : string) : M AvsState error Z :=
  id ← gets (next_task_id taskAddr);
  _ ← modify (set_latestTaskNums (insert taskAddr id));
  mret id.

(** The addresses of the keys, in lower case. *)
Definition GetAllTaskNums (s : AvsState) : list TaskID :=
  (λ kv, {| ti_TaskAddress := ToLower (Address_Hex (BytesToAddress kv.1)); ti_TaskId := kv.2 |}) <$>
    prefix_iterator EmptyString (latestTaskNums s).

Definition GetAllChainIDInfos (s : AvsState) : list ChainIDInfo :=
  (λ kv, {| ci_AvsAddress := ToLower (Address_Hex (BytesToAddress kv.1)); ci_ChainId := kv.2 |}) <$>
    prefix_iterator EmptyString (avsChainIDs s).

(** ** BLS keys *)

(** The operator in its canonical spelling. *)
Definition pub_key_of (operator avsAddr : string) : string :=
  GetJoinedStoreKey [ToLower (AccAddress_String operator); ToLower avsAddr].

Definition SetOperatorPubKey (pub : BlsPubKeyInfo) : M AvsState error unit :=
  match AccAddressFromBech32 (bk_OperatorAddress pub) with
  | None => fail avstypes.ErrInvalidAddr
  | Some operatorAddress =>
      _ ← modify (set_operatorPubs (insert (pub_key_of operatorAddress (bk_AvsAddress pub))
            (Marshal_BlsPubKeyInfo pub)));
      pubs ← gets operatorPubs;
      pubs ← lift_result (store_set (bytes_of (bk_PubKey pub)) (bytes_of (bk_PubKey pub)) pubs);
      modify (set_operatorPubs (λ _, pubs))
  end.

Definition GetOperatorPubKey (operatorAddress avsAddress : string) (s : AvsState)
    : result error BlsPubKeyInfo :=
  match AccAddressFromBech32 operatorAddress with
  | None => Err ErrLibrary
  | Some opAccAddr =>
      match operatorPubs s !! pub_key_of opAccAddr avsAddress with
      | None => Err avstypes.ErrNoKeyInTheStore
      | Some value => match Unmarshal_BlsPubKeyInfo value with Some ret => Ok ret | None => Panic end
      end
  end.

(** A raw key is stored under itself, and is skipped. *)
Fixpoint decode_pubs (entries : list (string * string)) : result error (list BlsPubKeyInfo) :=
  match entries with
  | [] => Ok []
  | (key, value) :: entries =>
      if bool_decide (key = value) then decode_pubs entries
      else match Unmarshal_BlsPubKeyInfo value with
           | None => Err ErrLibrary
           | Some pubKey => pubKeys ← decode_pubs entries; Ok (pubKey :: pubKeys)
           end
  end.

Definition GetAllBlsPubKeys (s : AvsState) : result error (list BlsPubKeyInfo) :=
  decode_pubs (prefix_iterator EmptyString (operatorPubs s)).

Definition IsExistPubKey (pub : BlsPubKeyInfo) (s : AvsState) : bool :=
  is_some (operatorPubs s !! bytes_of (bk_PubKey pub)).

Definition IsExistPubKeyForAVS (operator avsAddr : string) (s : AvsState) : bool :=
  match AccAddressFromBech32 operator with
  | None => false
  | Some opAccAddr => is_some (operatorPubs s !! pub_key_of opAccAddr avsAddr)
  end.

(** ** Results *)

Definition result_key (operator taskAddr : string) (taskID : Z) : string :=
  GetJoinedStoreKey [operator; ToLower taskAddr; FormatUint taskID].

Definition SetTaskResultInfo (info : TaskResultInfo) : M AvsState error unit :=
  match AccAddressFromBech32 (tr_OperatorAddress info) with
  | None => panic
  | Some _ =>
      if negb (common_IsHexAddress (tr_TaskContractAddress info)) then panic
      else modify (set_taskResults (insert
             (result_key (tr_OperatorAddress info) (tr_TaskContractAddress info) (tr_TaskId info))
             (decoded_result info)))
  end.

(** The operator in lower case here. *)
Definition IsExistTaskResultInfo (operatorAddress taskContractAddress : string) (taskID : Z)
    (s : AvsState) : bool :=
  is_some (taskResults s !! result_key (ToLower operatorAddress) taskContractAddress taskID).

Definition GetTaskResultInfo (operatorAddress taskContractAddress : string) (taskID : Z)
    (s : AvsState) : result error TaskResultInfo :=
  if negb (common_IsHexAddress taskContractAddress) then Err avstypes.ErrInvalidAddr
  else match taskResults s !! result_key operatorAddress taskContractAddress taskID with
       | None => Err avstypes.ErrNoKeyInTheStore
       | Some ret => Ok ret
       end.

Definition IterateResultInfo (s : AvsState) : list TaskResultInfo :=
  (prefix_iterator EmptyString (taskResults s)).*2.

Definition GetAllTaskResultInfos (s : AvsState) : list TaskResultInfo := IterateResultInfo s.

(** ** Challenges *)

Definition challenge_key (taskAddr : string) (taskID : Z) : string :=
  GetJoinedStoreKey [ToLower taskAddr; FormatUint taskID].

Definition SetTaskChallengedInfo (taskID : Z) (challengeAddr taskAddr : string)
    : M AvsState error unit :=
  match AccAddressFromBech32 challengeAddr with
  | None => fail ErrLibrary
  | Some key =>
      modify (set_taskChallenges (insert (challenge_key (Address_Hex taskAddr) taskID) key))
  end.

Definition IsExistTaskChallengedInfo (taskContractAddress : string) (taskID : Z) (s : AvsState) : bool :=
  is_some (taskChallenges s !! challenge_key taskContractAddress taskID).

(** [common.Bytes2Hex] of the address *)
Definition GetTaskChallengedInfo (taskContractAddress : string) (taskID : Z) (s : AvsState)
    : result error string :=
  if negb (common_IsHexAddress taskContractAddress) then Err avstypes.ErrInvalidAddr
  else match taskChallenges s !! challenge_key taskContractAddress taskID with
       | None => Err avstypes.ErrNoKeyInTheStore
       | Some value => Ok (hex_bytes value)
       end.

Definition SetAllTaskChallengedInfo (states : list ChallengeInfo) : M AvsState error unit :=
  for_each states (λ state,
    match AccAddressFromBech32 (ch_ChallengeAddress state) with
    | None => fail ErrLibrary
    | Some bz =>
        challenges ← gets taskChallenges;
        challenges ← lift_result (store_set (ch_Key state) bz challenges);
        modify (set_taskChallenges (λ _, challenges))
    end).

Fixpoint challenge_infos (entries : list (string * string)) : result error (list ChallengeInfo) :=
  match entries with
  | [] => Ok []
  | (key, challengeAddr) :: entries =>
      if bool_decide (challengeAddr = EmptyString) then Err avstypes.ErrInvalidAddr
      else infos ← challenge_infos entries;
           Ok ({| ch_Key := key; ch_ChallengeAddress := AccAddress_String challengeAddr |} :: infos)
  end.

Definition GetAllChallengeInfos (s : AvsState) : result error (list ChallengeInfo) :=
  challenge_infos (prefix_iterator EmptyString (taskChallenges s)).

(** ** Parameters *)

Definition GetParams (s : AvsState) : result error Params :=
  match avsParams s with None => Err avstypes.ErrParamsNotFound | Some ret => Ok ret end.

Definition SetParams (params : Params) : M AvsState error unit := modify (set_avsParams (Some params)).
End Store.
