(* ===== verification/AvsInv.v ===== *)
(** * Invariants of the store of x/avs

    What holds of the stores in every state: an AVS is stored under its address and a
    task address belongs to one AVS, the tasks of an address are numbered from one, a BLS
    key belongs to one operator and one AVS, and a result that was revealed is signed with
    a registered key.  One lemma for each write of a method.  The first section has the
    facts about the parts of the keys. *)

From S2P Require Import Prelude Errors Sdk RefSdk KVStore Epochs DelegationTypes Assets.
From S2P Require Import OperatorTypes ChainUtils AvsTypes AvsStore.

(** ** Names of addresses and tasks in the stores of x/avs

    Lower case, decimal task numbers and hexadecimal addresses: the facts about the
    parts of the keys. *)

(** ** Lower case and decimal numbers *)

Lemma lower_char_idemp c : lower_char (lower_char c) = lower_char c.
Proof.
  unfold lower_char. destruct ((65 <=? Ascii.N_of_ascii c)%N && (Ascii.N_of_ascii c <=? 90)%N) eqn:E; [|by rewrite E].
  apply andb_true_iff in E as [H1%N.leb_le H2%N.leb_le].
  rewrite Ascii.N_ascii_embedding by lia.
  rewrite (proj2 (N.leb_gt _ 90)), andb_false_r by lia. done.
Qed.

Lemma ToLower_idemp s : ToLower (ToLower s) = ToLower s.
Proof. induction s as [|c s IH]; [done|]. cbn. by rewrite lower_char_idemp, IH. Qed.

Lemma ToLower_app s t : ToLower (s +:+ t) = ToLower s +:+ ToLower t.
Proof. induction s as [|c s IH]; [done|]. rewrite !app_cons. cbn [ToLower]. by rewrite IH, app_cons. Qed.

Lemma is_some_false {A} (o : option A) : is_some o = false ↔ o = None.
Proof. by destruct o. Qed.
Lemma is_some_true {A} (o : option A) : is_some o = true ↔ is_Some o.
Proof. destruct o; split; [by eauto|done|done|by intros []].  Qed.

(** The codec never gives an empty byte field, and keeps the bytes. *)
Lemma decoded_bytes_Some bz bz' : decoded_bytes (Some bz) = Some bz' → bz = bz'.
Proof. unfold decoded_bytes. case_bool_decide; by intros [=]. Qed.
Lemma bytes_of_decoded bz : bytes_of (decoded_bytes bz) = bytes_of bz.
Proof. unfold decoded_bytes. by case_bool_decide as Hb; [rewrite Hb|]. Qed.
Lemma decoded_bytes_idemp bz : decoded_bytes (decoded_bytes bz) = decoded_bytes bz.
Proof. unfold decoded_bytes. destruct (bool_decide (bytes_of bz = _)) eqn:E; [done|]. by rewrite E. Qed.
Lemma decoded_result_idemp r : decoded_result (decoded_result r) = decoded_result r.
Proof. unfold decoded_result. cbn. by rewrite !decoded_bytes_idemp. Qed.

Lemma dec_char_value d : 0 ≤ d < 10 → dec_value (dec_char d) = d.
Proof. apply dec_char_digit. Qed.

Lemma strip_zeros_dec s : undigits 10 dec_value 0 (strip_zeros s) = undigits 10 dec_value 0 s.
Proof. induction s as [|d s IH]; [done|]. cbn [strip_zeros]. repeat case_match; subst; try done. Qed.

Lemma FormatUint_value n : is_u64 n → undigits 10 dec_value 0 (FormatUint n) = n.
Proof.
  intros Hn. unfold FormatUint. rewrite strip_zeros_dec.
  apply undigits_digits; [lia|apply dec_char_value|]. unfold is_u64 in Hn.
  change (10 ^ Z.of_nat 20) with 100000000000000000000. lia.
Qed.

Lemma FormatUint_inj m n : is_u64 m → is_u64 n → FormatUint m = FormatUint n → m = n.
Proof. intros Hm Hn Heq. rewrite <-(FormatUint_value m), <-(FormatUint_value n) by done. by rewrite Heq. Qed.

Lemma dec_char_free c d : c = "/"%char ∨ c = "_"%char → dec_char d ≠ c.
Proof.
  unfold dec_char. intros Hc Heq%(f_equal Ascii.nat_of_ascii).
  rewrite Ascii.nat_ascii_embedding in Heq by lia. pose proof (Nat2Z.is_nonneg (Z.to_nat (d `min` 9))).
  destruct Hc as [-> | ->]; vm_compute (Ascii.nat_of_ascii _) in Heq; lia.
Qed.

Lemma FormatUint_free c n : c = "/"%char ∨ c = "_"%char → no_char c (FormatUint n) = true.
Proof. intros Hc. apply strip_zeros_free, no_char_digits. intros d. by apply dec_char_free. Qed.

Lemma strip_zeros_decimal s : all_decimal s = true → all_decimal (strip_zeros s) = true.
Proof.
  induction s as [|d s IH]; [done|]. cbn [all_decimal].
  intros [Hd Hs]%andb_true_iff. cbn [strip_zeros].
  repeat case_match; subst; cbn [all_decimal]; rewrite ?andb_true_iff in *; intuition auto.
Qed.

Lemma all_decimal_digits n z : all_decimal (digits 10 dec_char n z) = true.
Proof.
  induction n as [|n IH]; [done|]. cbn [digits all_decimal].
  pose proof (Z.mod_pos_bound (z / 10 ^ Z.of_nat n) 10 ltac:(lia)).
  rewrite IH, andb_true_r, andb_true_iff, Z.leb_le, Z.ltb_lt, dec_char_value by lia. lia.
Qed.

Lemma ParseUint_Format n : is_u64 n → ParseUint (FormatUint n) = Some n.
Proof.
  intros Hn. unfold ParseUint. rewrite FormatUint_value by done.
  assert (all_decimal (FormatUint n) = true) as -> by apply strip_zeros_decimal, all_decimal_digits.
  rewrite bool_decide_false, (proj2 (Z.ltb_lt _ _)); [done|by destruct Hn|].
  by apply strip_zeros_nonempty.
Qed.

Lemma lower_char_decimal c : 0 ≤ dec_value c < 10 → lower_char c = c.
Proof.
  unfold dec_value, lower_char, Ascii.nat_of_ascii. intros Hc.
  destruct (N.leb_spec 65 (Ascii.N_of_ascii c)); [lia|done].
Qed.

Lemma ToLower_decimal s : all_decimal s = true → ToLower s = s.
Proof.
  induction s as [|c s IH]; [done|]. cbn [all_decimal ToLower].
  rewrite !andb_true_iff, Z.leb_le, Z.ltb_lt. intros [[??] ?].
  by rewrite lower_char_decimal, IH by done.
Qed.

Lemma FormatUint_lower n : ToLower (FormatUint n) = FormatUint n.
Proof. apply ToLower_decimal, strip_zeros_decimal, all_decimal_digits. Qed.

(** ** Hexadecimal addresses *)

Section Hex.
Context {sdk : Sdk} {chain : ChainSdk} {al : AddressLaws sdk chain}.

Lemma zero_address_length : String.length zero_address = 20%nat.
Proof. reflexivity. Qed.

Lemma HexToAddress_lower_hex t : String.length t = 20%nat → HexToAddress (lower_hex t) = t.
Proof. intros. unfold lower_hex. rewrite HexToAddress_lower. by apply HexToAddress_Hex. Qed.

Lemma lower_hex_inj t t' :
  String.length t = 20%nat → String.length t' = 20%nat → lower_hex t = lower_hex t' → t = t'.
Proof.
  intros Ht Ht' Heq. rewrite <-(HexToAddress_lower_hex t), <-(HexToAddress_lower_hex t') by done.
  by rewrite Heq.
Qed.

Lemma IsHexAddress_lower_hex t : String.length t = 20%nat → common_IsHexAddress (lower_hex t) = true.
Proof. intros. unfold lower_hex. rewrite IsHexAddress_lower. by apply IsHexAddress_Hex. Qed.

Lemma lower_hex_lower t : ToLower (lower_hex t) = lower_hex t.
Proof. apply ToLower_idemp. Qed.

Lemma Address_Hex_nonempty t : Address_Hex t ≠ EmptyString.
Proof. by destruct (Address_Hex_prefix t) as [u ->]. Qed.

Lemma lower_hex_nonempty t : lower_hex t ≠ EmptyString.
Proof. unfold lower_hex. by destruct (Address_Hex_prefix t) as [u ->]. Qed.

Lemma lower_hex_key_part t : String.length t = 20%nat → key_part (lower_hex t).
Proof. intros. apply IsHexAddress_charset; [by left|by apply IsHexAddress_lower_hex]. Qed.

Lemma ToLower_empty s : ToLower s = EmptyString → s = EmptyString.
Proof. by destruct s. Qed.

(** A spelling of an address. *)
Lemma ToLower_nonempty s t : ToLower s = lower_hex t → s ≠ EmptyString.
Proof. intros Heq ->. by eapply lower_hex_nonempty. Qed.

Lemma HexToAddress_spelled s t : String.length t = 20%nat → ToLower s = lower_hex t → HexToAddress s = t.
Proof. intros Ht Hs. rewrite <-HexToAddress_lower, Hs. by apply HexToAddress_lower_hex. Qed.

Lemma IsHexAddress_spelled s t :
  String.length t = 20%nat → ToLower s = lower_hex t → common_IsHexAddress s = true.
Proof. intros Ht Hs. rewrite <-IsHexAddress_lower, Hs. by apply IsHexAddress_lower_hex. Qed.
End Hex.

Definition is_address (t : string) : Prop := String.length t = 20%nat.

Section Inv.
Context {sdk : Sdk} {chain : ChainSdk} {avs : AvsSdk}.
Context {laws : SdkLaws sdk} {al : AddressLaws sdk chain} {avsl : AvsSdkLaws avs}.

(** ** AVSs *)

Record avs_wf (k : string) (info : AVSInfo) : Prop := {
  aw_address : is_address k;
  aw_key : ToLower (av_AvsAddress info) = lower_hex k;
  aw_task : ∃ t, is_address t ∧ av_TaskAddress info = lower_hex t;
}.

(** The AVS under [k] may use the task address [t]. *)
Definition task_free (k t : string) (m : gmap string AVSInfo) : Prop :=
  t = zero_address ∨ ∀ k' i', m !! k' = Some i' → av_TaskAddress i' = lower_hex t → k' = k.

Record infos_inv (m : gmap string AVSInfo) : Prop := {
  ii_wf : map_Forall avs_wf m;
  ii_task k k' i i' : m !! k = Some i → m !! k' = Some i' →
    av_TaskAddress i = av_TaskAddress i' → av_TaskAddress i ≠ lower_hex zero_address → k = k';
}.

Lemma infos_inv_empty : infos_inv ∅.
Proof. split; [apply map_Forall_empty|]. intros. by rewrite lookup_empty in *. Qed.

Lemma infos_inv_insert m k info t :
  infos_inv m → avs_wf k info → is_address t → av_TaskAddress info = lower_hex t → task_free k t m →
  infos_inv (<[k := info]> m).
Proof.
  intros [Hwf Htask] Hk Ht Hinfo Hfree. split; [by apply map_Forall_insert_2|].
  assert (Hnew : ∀ k' i', m !! k' = Some i' → av_TaskAddress i' = lower_hex t →
    lower_hex t ≠ lower_hex zero_address → k' = k).
  { intros k' i' Hi' Heq Hne. destruct Hfree as [->|Hfree]; [done|by eapply Hfree]. }
  intros k1 k2 i1 i2 H1 H2 Heq Hne. apply lookup_insert_Some in H1, H2.
  destruct H1 as [[<- <-]|[Hk1 H1]], H2 as [[<- <-]|[Hk2 H2]]; [done|..].
  - symmetry. eapply Hnew; [done|congruence|congruence].
  - eapply Hnew; [done|congruence|congruence].
  - by eapply Htask.
Qed.

Lemma infos_inv_delete m k : infos_inv m → infos_inv (delete k m).
Proof.
  intros [Hwf Htask]. split; [by apply map_Forall_delete|].
  intros k1 k2 i1 i2 [_ H1]%lookup_delete_Some [_ H2]%lookup_delete_Some. by apply Htask.
Qed.

(** The AVS of a task address. *)
Lemma by_task_found s addr :
  av_AvsAddress (GetAVSInfoByTaskAddress addr s) ≠ EmptyString →
  ∃ k, avsInfos s !! k = Some (GetAVSInfoByTaskAddress addr s) ∧
    av_TaskAddress (GetAVSInfoByTaskAddress addr s) = ToLower addr ∧ addr ≠ Address_Hex zero_address.
Proof.
  unfold GetAVSInfoByTaskAddress. destruct (bool_decide (addr = EmptyString)); [done|].
  destruct (bool_decide (addr = Address_Hex zero_address)) eqn:Hz; [done|].
  apply bool_decide_eq_false in Hz. cbn [orb].
  destruct (list_find _ _) as [[n info]|] eqn:Hfind; [|done]. intros _. cbn [from_option snd].
  apply list_find_Some in Hfind as (Hn & Htask & _). apply list_elem_of_lookup_2 in Hn.
  unfold IterateAVSInfo in Hn. apply list_elem_of_fmap in Hn as ([k i] & -> & Hk).
  apply elem_of_iterator_all in Hk. by exists k.
Qed.

Lemma by_task_none s t :
  infos_inv (avsInfos s) → is_address t →
  av_AvsAddress (GetAVSInfoByTaskAddress (Address_Hex t) s) = EmptyString →
  t = zero_address ∨ ∀ k i, avsInfos s !! k = Some i → av_TaskAddress i ≠ lower_hex t.
Proof.
  intros Hinv Ht. unfold GetAVSInfoByTaskAddress.
  rewrite bool_decide_false by apply Address_Hex_nonempty. cbn [orb].
  case_bool_decide as Hz.
  { left. rewrite <-(HexToAddress_Hex t), <-(HexToAddress_Hex zero_address) by done. by rewrite Hz. }
  fold (lower_hex t).
  destruct (list_find _ _) as [[n info]|] eqn:Hfind; cbn [from_option snd].
  - intros Hnil. apply list_find_Some in Hfind as (Hn & _). apply list_elem_of_lookup_2 in Hn.
    apply list_elem_of_fmap in Hn as ([k i] & -> & Hk%elem_of_iterator_all). cbn in Hnil.
    by destruct (ToLower_nonempty _ _ (aw_key _ _ (ii_wf _ Hinv _ _ Hk))).
  - intros _. right. intros k i Hi. apply list_find_None in Hfind.
    rewrite Forall_forall in Hfind. apply Hfind, list_elem_of_fmap. exists (k, i).
    split; [done|by apply elem_of_iterator_all].
Qed.

(** The check of an update: nobody uses the task address, or the AVS itself does. *)
Lemma by_task_free s k info t :
  infos_inv (avsInfos s) → is_address t → avsInfos s !! k = Some info →
  let user := av_AvsAddress (GetAVSInfoByTaskAddress (Address_Hex t) s) in
  user = EmptyString ∨ user = av_AvsAddress info → task_free k t (avsInfos s).
Proof.
  intros Hinv Ht Hk user Huser.
  destruct (decide (user = EmptyString)) as [Hu|Hne].
  { destruct (by_task_none s t Hinv Ht Hu) as [->|Hno]; [by left|right].
    intros k' i' Hi' Heq. by destruct (Hno _ _ Hi'). }
  destruct Huser as [?|Huser]; [done|].
  destruct (by_task_found s _ Hne) as (k0 & Hk0 & Htask & _). fold (lower_hex t) in Htask.
  destruct (ii_wf _ Hinv _ _ Hk0) as [Ha0 Hkey0 _]. destruct (ii_wf _ Hinv _ _ Hk) as [Ha Hkey _].
  assert (k0 = k) as -> by (apply lower_hex_inj; [done..|]; rewrite <-Hkey0, <-Hkey; by f_equal).
  destruct (decide (t = zero_address)) as [->|Hz]; [by left|right].
  intros k' i' Hi' Heq. eapply (ii_task _ Hinv k' k _ _ Hi' Hk0); [congruence|].
  rewrite Heq. by intros ?%lower_hex_inj.
Qed.

(** ** Tasks and their numbers *)

Record task_wf (nums : gmap string Z) (key : string) (task : TaskInfo) : Prop := {
  tw_id : is_u64 (tk_TaskId task);
  tw_key : key = task_key (tk_TaskContractAddress task) (FormatUint (tk_TaskId task));
  tw_num : ∃ t n, is_address t ∧ tk_TaskContractAddress task = lower_hex t ∧
    nums !! t = Some n ∧ 1 ≤ tk_TaskId task ≤ n;
}.

Definition nums_inv (nums : gmap string Z) : Prop :=
  map_Forall (λ t n, is_address t ∧ t ≠ zero_address ∧ 1 ≤ n < 2 ^ 64) nums.

Definition tasks_inv (s : AvsState) : Prop :=
  nums_inv (latestTaskNums s) ∧ map_Forall (task_wf (latestTaskNums s)) (taskInfos s).

(** The key of a task of an address that is spelled in some way. *)
Lemma task_key_spelled s t id : ToLower s = lower_hex t → task_key s id = task_key (lower_hex t) id.
Proof. intros Hs. unfold task_key. by rewrite Hs, lower_hex_lower. Qed.

Lemma task_key_inj t t' id id' :
  is_address t → is_address t' → is_u64 id → is_u64 id' →
  task_key (lower_hex t) (FormatUint id) = task_key (lower_hex t') (FormatUint id') → t = t' ∧ id = id'.
Proof.
  intros ????. unfold task_key. rewrite !lower_hex_lower.
  intros [?%lower_hex_inj ?%FormatUint_inj]%join2_inj; try done;
    try by apply lower_hex_key_part. all: by apply FormatUint_free; left.
Qed.

(** A number is higher than that of every task of the address. *)
Lemma next_task_fresh s t key task :
  tasks_inv s → is_address t → default 0 (latestTaskNums s !! t) < 2 ^ 64 - 1 →
  taskInfos s !! key = Some task →
  key ≠ task_key (lower_hex t) (FormatUint (next_task_id t s)).
Proof.
  intros [Hnums Htasks] Ht Hmax Hk ->. destruct (Htasks _ _ Hk) as [Hid Hkey (t' & n & Ht' & Haddr & Hn & Hle)].
  assert (Hnext : is_u64 (next_task_id t s) ∧ default 0 (latestTaskNums s !! t) < next_task_id t s).
  { unfold next_task_id, is_u64. destruct (latestTaskNums s !! t) as [m|] eqn:Hm; cbn in Hmax |- *; [|lia].
    destruct (Hnums _ _ Hm) as (_ & _ & ?). rewrite wrap_uint64_id by lia. lia. }
  rewrite Haddr in Hkey. destruct Hnext as [Hu Hlt]. apply task_key_inj in Hkey as [<- Hid']; [|done..].
  rewrite Hn in Hlt. cbn in Hlt. lia.
Qed.

(** The next task of an address. *)
Lemma tasks_inv_new s t task :
  tasks_inv s → is_address t → t ≠ zero_address → default 0 (latestTaskNums s !! t) < 2 ^ 64 - 1 →
  tk_TaskContractAddress task = lower_hex t → tk_TaskId task = next_task_id t s →
  tasks_inv (set_taskInfos (insert (task_key (lower_hex t) (FormatUint (next_task_id t s))) task)
    (set_latestTaskNums (insert t (next_task_id t s)) s)).
Proof.
  intros [Hnums Htasks] Ht Hz Hmax Haddr Hid.
  assert (Hnext : 1 ≤ next_task_id t s < 2 ^ 64 ∧ default 0 (latestTaskNums s !! t) ≤ next_task_id t s).
  { unfold next_task_id. destruct (latestTaskNums s !! t) as [m|] eqn:Hm; cbn in Hmax |- *; [|lia].
    destruct (Hnums _ _ Hm) as (_ & _ & ?). rewrite wrap_uint64_id by lia. lia. }
  split; cbn.
  { apply map_Forall_insert_2; [|done]. repeat split; done || lia. }
  apply map_Forall_insert_2.
  { split; [unfold is_u64; lia|by rewrite Haddr, Hid|].
    exists t, (next_task_id t s). rewrite lookup_insert_eq. repeat split; done || lia. }
  intros key task' Hk. destruct (Htasks _ _ Hk) as [? ? (t' & n & ? & ? & Hn & ?)].
  split; [done..|]. exists t'. destruct (decide (t = t')) as [<-|Hne].
  - rewrite lookup_insert_eq, Hn in *. cbn in Hnext. eexists. repeat split; try done; lia.
  - rewrite lookup_insert_ne by done. by exists n.
Qed.

(** A task is written back with the same address and number. *)
Lemma tasks_inv_update s task task' :
  tasks_inv s →
  taskInfos s !! task_key (tk_TaskContractAddress task) (FormatUint (tk_TaskId task)) = Some task →
  tk_TaskContractAddress task' = tk_TaskContractAddress task → tk_TaskId task' = tk_TaskId task →
  tasks_inv (set_taskInfos (insert
    (task_key (tk_TaskContractAddress task') (FormatUint (tk_TaskId task'))) task') s).
Proof.
  intros [Hnums Htasks] Hk Haddr Hid. split; [done|]. cbn. apply map_Forall_insert_2; [|done].
  destruct (Htasks _ _ Hk) as [? _ Hnum]. split; rewrite ?Haddr, ?Hid; done.
Qed.

(** ** BLS keys *)

Definition pub_info (op t bz : string) : BlsPubKeyInfo := {|
  bk_OperatorAddress := AccAddress_String op; bk_AvsAddress := lower_hex t; bk_PubKey := Some bz |}.

(** The operator [op] has the key [bz] for the AVS [t]. *)
Record has_key (m : gmap string string) (op t bz : string) : Prop := {
  hk_op : valid_addr op;
  hk_avs : is_address t;
  hk_parsed : is_Some (PublicKeyFromBytes bz);
  hk_entry : m !! pub_key_of op (lower_hex t) = Some (Marshal_BlsPubKeyInfo (pub_info op t bz));
}.

Record pubs_inv (m : gmap string string) : Prop := {
  pu_entries k v : m !! k = Some v →
    (v = k ∧ ∃ op t, has_key m op t k) ∨
    (∃ op t bz, has_key m op t bz ∧ k = pub_key_of op (lower_hex t));
  pu_raw op t bz : has_key m op t bz → m !! bz = Some bz;
  pu_unique op t op' t' bz : has_key m op t bz → has_key m op' t' bz → op = op' ∧ t = t';
}.

Lemma is_address_valid op : is_address op → valid_addr op.
Proof. unfold is_address, valid_addr. intros Hop. split; [by intros ->|lia]. Qed.

Lemma length_ToLower s : String.length (ToLower s) = String.length s.
Proof. induction s; cbn; congruence. Qed.

Lemma pub_key_of_length op s t :
  valid_addr op → is_address t → ToLower s = lower_hex t → (48 < String.length (pub_key_of op s))%nat.
Proof.
  intros Hop Ht Hs. pose proof (AccAddress_String_length op Hop).
  unfold pub_key_of, GetJoinedStoreKey. cbn [join_with].
  rewrite AccAddress_String_lower, Hs, !length_app_str. unfold lower_hex.
  rewrite length_ToLower, (Address_Hex_length t Ht). cbn. lia.
Qed.

Lemma pub_key_spelled op s t : ToLower s = lower_hex t → pub_key_of op s = pub_key_of op (lower_hex t).
Proof. intros Hs. unfold pub_key_of. by rewrite Hs, lower_hex_lower. Qed.

Lemma AccAddress_String_inj op op' :
  valid_addr op → valid_addr op' → AccAddress_String op = AccAddress_String op' → op = op'.
Proof.
  intros Hop Hop' Heq%(f_equal AccAddressFromBech32).
  rewrite !bech32_roundtrip in Heq by done. by injection Heq.
Qed.

Lemma pub_key_of_inj op t op' t' :
  valid_addr op → is_address t → valid_addr op' → is_address t' →
  pub_key_of op (lower_hex t) = pub_key_of op' (lower_hex t') → op = op' ∧ t = t'.
Proof.
  intros ????. unfold pub_key_of. rewrite !AccAddress_String_lower, !lower_hex_lower.
  intros [?%AccAddress_String_inj ?%lower_hex_inj]%join2_inj; try done;
    try by apply lower_hex_key_part. all: by apply bech32_charset.
Qed.

Lemma raw_key_ne op t bz :
  valid_addr op → is_address t → is_Some (PublicKeyFromBytes bz) → pub_key_of op (lower_hex t) ≠ bz.
Proof.
  intros Hop Ht [key Hkey] <-. pose proof (pub_key_of_length op _ t Hop Ht (lower_hex_lower t)).
  apply bls_key_length in Hkey. lia.
Qed.

Lemma Marshal_inj op t bz bz' :
  is_Some (PublicKeyFromBytes bz) → is_Some (PublicKeyFromBytes bz') →
  Marshal_BlsPubKeyInfo (pub_info op t bz) = Marshal_BlsPubKeyInfo (pub_info op t bz') → bz = bz'.
Proof.
  intros [k Hk%bls_key_length] [k' Hk'%bls_key_length] Heq%(f_equal Unmarshal_BlsPubKeyInfo).
  rewrite !bls_codec in Heq. injection Heq. unfold decoded_bytes. cbn.
  rewrite !bool_decide_false by (by intros ->). congruence.
Qed.

Lemma pubs_inv_empty : pubs_inv ∅.
Proof.
  split; [intros ??; by rewrite lookup_empty|..].
  all: intros *; intros [_ _ _ H]; by rewrite lookup_empty in H.
Qed.

(** A new key, for an operator and an AVS without one. *)
Lemma pubs_inv_new m op t bz :
  pubs_inv m → valid_addr op → is_address t → is_Some (PublicKeyFromBytes bz) →
  m !! pub_key_of op (lower_hex t) = None → m !! bz = None →
  pubs_inv (<[bz := bz]> (<[pub_key_of op (lower_hex t) := Marshal_BlsPubKeyInfo (pub_info op t bz)]> m)).
Proof.
  intros [Hent Hraw Huniq] Hop Ht Hbz Hnone Hnew. set (m' := <[bz := bz]> _).
  assert (Hsub : m ⊆ m').
  { apply map_subseteq_spec. intros k v Hk. unfold m'. by rewrite !lookup_insert_ne by congruence. }
  assert (Hmono : ∀ op t bz, has_key m op t bz → has_key m' op t bz).
  { intros ??? [???]. split; [done..|by eapply lookup_weaken]. }
  assert (Hinv : ∀ op' t' bz', has_key m' op' t' bz' →
    has_key m op' t' bz' ∨ op' = op ∧ t' = t ∧ bz' = bz).
  { intros op' t' bz' [Hop' Ht' Hbz' Hk']. unfold m' in Hk'.
    rewrite lookup_insert_ne in Hk' by by apply not_eq_sym, raw_key_ne.
    apply lookup_insert_Some in Hk' as [[Hk' Hv]|[_ ?]]; [|by left]. right.
    apply pub_key_of_inj in Hk' as [<- <-]; [|done..]. by apply Marshal_inj in Hv. }
  assert (Hnewkey : has_key m' op t bz).
  { split; [done..|]. unfold m'.
    rewrite lookup_insert_ne by by apply not_eq_sym, raw_key_ne. apply lookup_insert_eq. }
  split.
  - intros k v Hk. unfold m' in Hk. apply lookup_insert_Some in Hk as [[<- <-]|[_ Hk]]; [left; split; eauto|].
    apply lookup_insert_Some in Hk as [[<- <-]|[_ Hk]]; [right; by exists op, t, bz|].
    destruct (Hent _ _ Hk) as [(-> & op' & t' & ?)|(op' & t' & bz' & ? & ->)]; [left; split; eauto|right].
    exists op', t', bz'. auto.
  - intros op' t' bz' [Hk|(-> & -> & ->)]%Hinv; [by eapply lookup_weaken, Hsub; eauto|].
    apply lookup_insert_eq.
  - assert (Hno : ∀ op' t', ¬ has_key m op' t' bz) by (intros ?? Hk%Hraw; congruence).
    intros op1 t1 op2 t2 bz' [H1|(-> & -> & ->)]%Hinv [H2|(-> & -> & Heq)]%Hinv; subst; eauto; done || by edestruct Hno.
Qed.

(** What is read back for an operator and an AVS that is spelled in some way. *)
Lemma GetOperatorPubKey_Ok s operator avsAddr t pub :
  pubs_inv (operatorPubs s) → is_address t → ToLower avsAddr = lower_hex t →
  GetOperatorPubKey operator avsAddr s = Ok pub →
  ∃ op bz, AccAddressFromBech32 operator = Some op ∧ has_key (operatorPubs s) op t bz ∧
    bk_PubKey pub = Some bz.
Proof.
  intros Hinv Ht Hs. unfold GetOperatorPubKey.
  destruct (AccAddressFromBech32 operator) as [op|] eqn:Hop; [|done].
  pose proof (AccAddressFromBech32_valid _ _ Hop) as Hvalid. rewrite (pub_key_spelled op _ t Hs).
  destruct (operatorPubs s !! _) as [v|] eqn:Hv; [|done].
  destruct (pu_entries _ Hinv _ _ Hv) as [(-> & op' & t' & Hraw%hk_parsed)|(op' & t' & bz & Hkey & Heq)].
  { by destruct (raw_key_ne op t _ Hvalid Ht Hraw). }
  apply pub_key_of_inj in Heq as [<- <-]; [|done..|apply Hkey|apply Hkey].
  pose proof (hk_entry _ _ _ _ Hkey) as He. rewrite Hv in He. injection He as ->.
  rewrite bls_codec. intros [= <-]. exists op, bz. repeat split; [apply Hkey..|].
  cbn. unfold decoded_bytes. rewrite bool_decide_false; [done|]. cbn. intros ->.
  by destruct (hk_parsed _ _ _ _ Hkey) as [k Hk%bls_key_length].
Qed.

(** ** Results *)

(** A result is a signature that was announced, or a response that it signs. *)
Definition announced (r : TaskResultInfo) : Prop :=
  tr_Phase r = PhasePrepare ∧ tr_TaskResponse r = None ∧ tr_TaskResponseHash r = EmptyString.

Definition revealed (pubs : gmap string string) (r : TaskResultInfo) : Prop :=
  tr_Phase r = PhaseDoCommit ∧ ∃ op t bz pubKey response,
    AccAddressFromBech32 (tr_OperatorAddress r) = Some op ∧ has_key pubs op t bz ∧
    PublicKeyFromBytes bz = Some pubKey ∧ tr_TaskResponse r = decoded_bytes (Some response) ∧
    tr_TaskResponseHash r = Hash_String (Keccak256 response) ∧
    VerifySignature (bytes_of (tr_BlsSignature r)) (Keccak256 response) pubKey = Some true.

Record result_wf (s : AvsState) (key : string) (r : TaskResultInfo) : Prop := {
  rw_key : key = result_key (tr_OperatorAddress r) (tr_TaskContractAddress r) (tr_TaskId r);
  rw_operator : is_Some (AccAddressFromBech32 (tr_OperatorAddress r));
  rw_task : ∃ t, is_address t ∧ is_u64 (tr_TaskId r) ∧
    ToLower (tr_TaskContractAddress r) = lower_hex t ∧
    is_Some (taskInfos s !! task_key (lower_hex t) (FormatUint (tr_TaskId r)));
  rw_phase : announced r ∨ revealed (operatorPubs s) r;
  rw_decoded : decoded_result r = r;
}.

Lemma has_key_mono m m' op t bz : m ⊆ m' → has_key m op t bz → has_key m' op t bz.
Proof. intros Hm [????]. split; [done..|by eapply lookup_weaken]. Qed.

Lemma result_wf_mono s s' key r :
  operatorPubs s ⊆ operatorPubs s' → dom (taskInfos s) ⊆ dom (taskInfos s') →
  result_wf s key r → result_wf s' key r.
Proof.
  intros Hpubs Htasks [Hk Hop (t & ? & ? & ? & Ht%elem_of_dom) Hphase ?]. split; [done..| | |done].
  - exists t. do 3 (split; [done|]). apply elem_of_dom. by apply Htasks.
  - destruct Hphase as [?|(? & op & t' & bz & pk & resp & ? & ? & ?)]; [by left|right].
    split; [done|]. exists op, t', bz, pk, resp. split; [done|]. by split; [by eapply has_key_mono|].
Qed.

(** ** The store *)

Record avs_inv (s : AvsState) : Prop := {
  ai_infos : infos_inv (avsInfos s);
  ai_tasks : tasks_inv s;
  ai_pubs : pubs_inv (operatorPubs s);
  ai_results : map_Forall (result_wf s) (taskResults s);
  ai_challenges : map_Forall (λ k c, k ≠ EmptyString ∧ valid_addr c) (taskChallenges s);
  ai_chains : map_Forall (λ k _, is_address k) (avsChainIDs s);
}.

(** What is fixed when a task is created. *)
Record same_task (task task' : TaskInfo) : Prop := {
  st_address : tk_TaskContractAddress task' = tk_TaskContractAddress task;
  st_id : tk_TaskId task' = tk_TaskId task;
  st_hash : tk_Hash task' = tk_Hash task;
  st_start : tk_StartingEpoch task' = tk_StartingEpoch task;
  st_response : tk_TaskResponsePeriod task' = tk_TaskResponsePeriod task;
  st_statistical : tk_TaskStatisticalPeriod task' = tk_TaskStatisticalPeriod task;
  st_threshold : tk_ThresholdPercentage task' = tk_ThresholdPercentage task;
  st_operators : tk_OptInOperators task' = tk_OptInOperators task;
}.

#[global] Instance same_task_refl : Reflexive same_task.
Proof. by split. Qed.
#[global] Instance same_task_trans : Transitive same_task.
Proof. intros ??? [] []. split; congruence. Qed.

(** What no method takes back. *)
Record avs_grows (s s' : AvsState) : Prop := {
  ag_pubs : operatorPubs s ⊆ operatorPubs s';
  ag_tasks key task : taskInfos s !! key = Some task →
    ∃ task', taskInfos s' !! key = Some task' ∧ same_task task task';
  ag_challenges : taskChallenges s ⊆ taskChallenges s';
  ag_chainIDs : dom (avsChainIDs s) ⊆ dom (avsChainIDs s');
}.

#[global] Instance avs_grows_refl : Reflexive avs_grows.
Proof. intros s. split; [done|by eauto using same_task_refl|done..]. Qed.
#[global] Instance avs_grows_trans : Transitive avs_grows.
Proof.
  intros s1 s2 s3 [? H12 ??] [? H23 ??]. split; [by etrans| |by etrans..].
  intros key task (task2 & H2 & Hs2)%H12. destruct (H23 _ _ H2) as (task3 & ? & ?).
  exists task3. split; [done|by etrans].
Qed.

Lemma grows_infos s f : avs_grows s (set_avsInfos f s).
Proof. split; try done. eauto using same_task_refl. Qed.

(** Only tasks change, one that is new or one that stays the same task. *)
Lemma grows_task s s' key task' :
  operatorPubs s' = operatorPubs s → taskChallenges s ⊆ taskChallenges s' →
  avsChainIDs s' = avsChainIDs s → taskInfos s' = <[key := task']> (taskInfos s) →
  (∀ task, taskInfos s !! key = Some task → same_task task task') → avs_grows s s'.
Proof.
  intros Hp Hc Hd Ht Hkey. split; rewrite ?Hp, ?Hd; try done. intros k task Hk. rewrite Ht.
  destruct (decide (key = k)) as [<-|Hne].
  - rewrite lookup_insert_eq. eauto.
  - rewrite lookup_insert_ne by done. eauto using same_task_refl.
Qed.

Lemma results_mono s s' :
  operatorPubs s ⊆ operatorPubs s' → dom (taskInfos s) ⊆ dom (taskInfos s') →
  taskResults s' = taskResults s →
  map_Forall (result_wf s) (taskResults s) → map_Forall (result_wf s') (taskResults s').
Proof. intros ?? -> Hr key r Hk. eapply result_wf_mono; eauto. Qed.
End Inv.
