(* ===== verification/AvsRegistry.v ===== *)
(** * The registry of AVSs (x/avs/keeper/avs.go, keeper/keeper.go)

    The state of x/avs lives beside the state [R] of the modules that remain: x/evm,
    x/epochs, x/oracle and x/feedistribution.  [AvsPeers] lists what x/avs calls of
    them.  The queries of x/avs are the instance [avs_others] of what x/operator
    expects, and registration and update are the instance [avs_keeper] of what
    x/dogfood expects. *)

From S2P Require Import Prelude Errors Sdk RefSdk KVStore Epochs DelegationTypes Assets.
From S2P Require Import DelegationStore UndelegationStore Delegation OperatorTypes.
From S2P Require Import OperatorStore OperatorSnapshot OperatorKeepers OperatorUnbonding OperatorUSD.
From S2P Require Import ChainUtils DogfoodTypes DogfoodStore DogfoodKeepers AvsTypes AvsStore.

Record AvsExt (R : Type) := { ae_avs : AvsState; ae_rest : R }.
Arguments Build_AvsExt {R}.
Arguments ae_avs {R}.
Arguments ae_rest {R}.

(** [statedb.Account] of evmos *)
Record Account := { acc_Nonce : Z; acc_Balance : Z; acc_CodeHash : string }.

(** [peer_others] is what x/operator is given by the modules that remain; they may
    read the store of x/avs, and the queries of x/avs and the epochs in it are not used. *)
Class AvsPeers (R : Type) := {
  peer_others : Others (AvsExt R);
  peer_epochs : R → EpochsState;
  evm_GetNewContractNonce : R → Z;
  evm_SetAccount : string → Account → M R error unit;
  (** code hash, code *)
  evm_SetCode : string → string → R → R;
  IsAVSAllRewardsClaimed : R → string → bool;
}.

Section Registry.
Context {sdk : Sdk} {chain : ChainSdk} {avs : AvsSdk} {R : Type} {peers : AvsPeers R}.
Abbreviation Y := (AvsExt R).
Abbreviation X := (OperatorExt Y).
Implicit Types (a : AssetsState) (y : Y) (x : X).

Definition put_avs (s : AvsState) y : Y := {| ae_avs := s; ae_rest := ae_rest y |}.
Definition put_peers (r : R) y : Y := {| ae_avs := ae_avs y; ae_rest := r |}.
Definition x_avs x : AvsState := ae_avs (oe_rest x).
Definition on_avs {A} (m : M AvsState error A) : M X error A :=
  zoom oe_rest put_rest (zoom ae_avs put_avs m).
Definition on_peers {A} (m : M R error A) : M X error A :=
  zoom oe_rest put_rest (zoom ae_rest put_peers m).

(** ** Queries *)

Fixpoint check_assets a (assetIDs : list string) : result error unit :=
  match assetIDs with
  | [] => Ok tt
  | assetID :: assetIDs =>
      if IsStakingAsset assetID a then check_assets a assetIDs else Err avstypes.ErrInvalidAssetID
  end.

Definition avs_GetAVSSupportedAssets a y (avsAddr : string)
    : result error (list string * gset string) :=
  avsInfo ← GetAVSInfo avsAddr (ae_avs y);
  _ ← check_assets a (av_AssetIDs avsInfo);
  Ok (av_AssetIDs avsInfo, list_to_set (av_AssetIDs avsInfo)).

Definition avs_GetAVSAssetsList y (avsAddr : string) : result error (list string) :=
  if negb (common_IsHexAddress avsAddr) then Err avstypes.ErrInvalidAddr
  else avsInfo ← GetAVSInfo avsAddr (ae_avs y); Ok (av_AssetIDs avsInfo).

Definition avs_GetAVSSlashContract y (avsAddr : string) : result error string :=
  avsInfo ← GetAVSInfo avsAddr (ae_avs y);
  Ok (if bool_decide (av_SlashAddress avsInfo = Address_Hex zero_address) then EmptyString
      else av_SlashAddress avsInfo).

Definition avs_GetAVSMinimumSelfDelegation y (avsAddr : string) : result error LegacyDec :=
  avsInfo ← GetAVSInfo avsAddr (ae_avs y);
  Ok (dec_of_int (wrap_int64 (av_MinSelfDelegation avsInfo))).

Definition avs_GetAVSUnbondingDuration y (avsAddr : string) : result error Z :=
  avsInfo ← GetAVSInfo avsAddr (ae_avs y); Ok (av_AvsUnbondingPeriod avsInfo).

Definition avs_GetEpochEndAVSs y (epochIdentifier : string) (endingEpochNumber : Z) : list string :=
  (λ info, ToLower (av_AvsAddress info)) <$>
    filter (λ info, epochIdentifier = av_EpochIdentifier info ∧
                    wrap_int64 (wrap_int64 (av_StartingEpoch info) - 1) ≤ endingEpochNumber)
      (IterateAVSInfo (ae_avs y)).

(** The identifiers in the order of their first AVS. *)
Fixpoint epochs_used (seen : gset string) (infos : list AVSInfo) : list string :=
  match infos with
  | [] => []
  | info :: infos =>
      if decide (av_EpochIdentifier info ∈ seen) then epochs_used seen infos
      else av_EpochIdentifier info :: epochs_used ({[av_EpochIdentifier info]} ∪ seen) infos
  end.

Definition GetEpochsUsedByAllAVSs y : list string := epochs_used ∅ (IterateAVSInfo (ae_avs y)).

Definition avs_IsAVSByChainID y (chainID : string) : option string :=
  let avsAddrStr := GenerateAVSAddress chainID in
  if avs_IsAVS avsAddrStr (ae_avs y) then Some avsAddrStr else None.

(** The error of an operator that is not in the list wraps a nil error, and is nil. *)
Definition avs_IsWhitelisted y (avsAddr operatorAddress : string) : bool * option error :=
  match GetAVSInfo avsAddr (ae_avs y) with
  | Ok avsInfo =>
      match AccAddressFromBech32 operatorAddress with
      | None => (false, Some ErrLibrary)
      | Some _ =>
          if negb (bool_decide (av_ChainId avsInfo = EmptyString)) &&
             bool_decide (av_AvsAddress avsInfo = GenerateAVSAddress (av_ChainId avsInfo))
          then (true, None)
          else match av_WhitelistAddresses avsInfo with
               | [] => (true, None)
               | whitelist =>
                   if decide (operatorAddress ∈ whitelist) then (true, None) else (false, None)
               end
      end
  | Err e => (false, Some e)
  | Panic => (false, None)
  end.

(** [types.EpochInfo{}] *)
Definition EpochInfo_zero : EpochInfo := {|
  ei_Identifier := EmptyString; ei_StartTime := 0; ei_Duration := 0; ei_CurrentEpoch := 0;
  ei_CurrentEpochStartTime := 0; ei_EpochCountingStarted := false;
  ei_CurrentEpochStartHeight := 0 |}.

Definition avs_epochs y : EpochsState := peer_epochs (ae_rest y).

(** An identifier that is not found gives the zero value. *)
Definition avs_GetAVSEpochInfo y (addr : string) : result error EpochInfo :=
  avsInfo ← GetAVSInfo addr (ae_avs y);
  Ok (default EpochInfo_zero (GetEpochInfo (av_EpochIdentifier avsInfo) (avs_epochs y))).

#[local] Instance avs_others : Others Y := {|
  y_epochs := avs_epochs;
  GetAVSSupportedAssets := avs_GetAVSSupportedAssets;
  GetAVSSlashContract := avs_GetAVSSlashContract;
  GetChainIDByAVSAddr y avsAddr := avs_GetChainIDByAVSAddr avsAddr (ae_avs y);
  GetAVSMinimumSelfDelegation := avs_GetAVSMinimumSelfDelegation;
  GetEpochEndAVSs := avs_GetEpochEndAVSs;
  IsAVS y addr := Ok (avs_IsAVS addr (ae_avs y));
  IsAVSByChainID := avs_IsAVSByChainID;
  GetAVSEpochInfo := avs_GetAVSEpochInfo;
  GetAVSUnbondingDuration := avs_GetAVSUnbondingDuration;
  IsWhitelisted := avs_IsWhitelisted;
  GetAVSAssetsList := avs_GetAVSAssetsList;
  GetSpecifiedAssetsPrice := @GetSpecifiedAssetsPrice _ peer_others;
  GetMultipleAssetsPrices := @GetMultipleAssetsPrices _ peer_others;
  SlashRewardUndelegation := @SlashRewardUndelegation _ peer_others;
  UpdateAllRewardsUSDForOperator := @UpdateAllRewardsUSDForOperator _ peer_others;
  OperatorTotalRewardsUSDValue := @OperatorTotalRewardsUSDValue _ peer_others;
  SlashOperatorUnclaimedRewards := @SlashOperatorUnclaimedRewards _ peer_others;
  AfterOperatorKeySet := @AfterOperatorKeySet _ peer_others;
  AfterOperatorKeyReplaced := @AfterOperatorKeyReplaced _ peer_others;
  AfterOperatorKeyRemovalInitiated := @AfterOperatorKeyRemovalInitiated _ peer_others;
  AfterSlash := @AfterSlash _ peer_others;
  AfterJail := @AfterJail _ peer_others;
|}.

(** ** Registration, removal and update *)

(** [ctx.ChainID()] *)
Context (ChainID : string).

Definition ValidateAssetIDs a (assetIDs : list string) : M X error unit :=
  lift_result (check_assets a assetIDs).

(** [sdk.NewDecWithPrec(int64(n), 2)] *)
Definition percent (n : Z) : LegacyDec := wrap_int64 n * 10 ^ 16.

(** [uint64(epoch.CurrentEpoch + 1)] *)
Definition next_epoch (epoch : EpochInfo) : Z := wrap_uint64 (wrap_int64 (ei_CurrentEpoch epoch + 1)).

Definition new_avs (params : AVSRegisterOrDeregisterParams) (epochIdentifier : string)
    (epoch : EpochInfo) : AVSInfo := {|
  av_Name := ap_AvsName params;
  av_AvsAddress := lower_hex (ap_AvsAddress params);
  av_MinStakeAmount := ap_MinStakeAmount params;
  av_TaskAddress := lower_hex (ap_TaskAddress params);
  av_SlashAddress := lower_hex (ap_SlashContractAddress params);
  av_RewardAddress := lower_hex (ap_RewardContractAddress params);
  av_AvsOwnerAddresses := default [] (ap_AvsOwnerAddresses params);
  av_AssetIDs := default [] (ap_AssetIDs params);
  av_AvsUnbondingPeriod := ap_UnbondingPeriod params;
  av_MinSelfDelegation := ap_MinSelfDelegation params;
  av_EpochIdentifier := epochIdentifier;
  av_MinOptInOperators := ap_MinOptInOperators params;
  av_MinTotalStakeAmount := ap_MinTotalStakeAmount params;
  av_StartingEpoch :=
    if bool_decide (ap_ChainID params = ChainIDWithoutRevision ChainID)
    then wrap_uint64 (ei_CurrentEpoch epoch) else next_epoch epoch;
  av_ChainId := EmptyString;
  av_AvsReward := percent (ap_AvsReward params);
  av_AvsSlash := percent (ap_AvsSlash params);
  av_AssetRewardAmountEpochBasis := ∅;
  av_WhitelistAddresses := default [] (ap_WhitelistAddresses params);
  av_RewardAssetList := None |}.

(** The case [RegisterAction]. *)
Definition register_avs a (params : AVSRegisterOrDeregisterParams) (avsInfo : option AVSInfo)
    (epochIdentifier : string) (epoch : EpochInfo) : M X error unit :=
  _ ← fail_if (is_some avsInfo) avstypes.ErrAlreadyRegistered;
  user ← gets (λ x, GetAVSInfoByTaskAddress (Address_Hex (ap_TaskAddress params)) (x_avs x));
  _ ← fail_if (negb (bool_decide (av_AvsAddress user = EmptyString))) avstypes.ErrAlreadyRegistered;
  _ ← ValidateAssetIDs a (default [] (ap_AssetIDs params));
  on_avs (SetAVSInfo (new_avs params epochIdentifier epoch)).

(** The case [DeRegisterAction]. *)
Definition deregister_avs (params : AVSRegisterOrDeregisterParams) (avsInfo : option AVSInfo)
    : M X error unit :=
  let avsAddr := Address_Hex (ap_AvsAddress params) in
  match avsInfo with
  | None => fail avstypes.ErrUnregisterNonExistent
  | Some info =>
      _ ← fail_if (negb (bool_decide
            (AccAddress_String (ap_CallerAddress params) ∈ av_AvsOwnerAddresses info)))
            avstypes.ErrCallerAddressUnauthorized;
      power ← gets (λ x, GetAVSUSDValue avsAddr (x_usd x));
      _ ← fail_if (match power with Ok power => 0 <? power | _ => false end)
            avstypes.ErrCannotDeregister;
      related ← gets (IsUnbondingRelatedAVS avsAddr);
      _ ← fail_if related avstypes.ErrCannotDeregister;
      claimed ← gets (λ x, IsAVSAllRewardsClaimed (ae_rest (oe_rest x)) avsAddr);
      _ ← fail_if (negb claimed) avstypes.ErrCannotDeregister;
      _ ← fail_if (negb (bool_decide (av_Name info = ap_AvsName params))) avstypes.ErrAvsNameMismatch;
      on_avs (DeleteAVSInfo avsAddr)
  end.

(** A string that is kept when the new one is empty, and a number when it is zero. *)
Definition or_string (new old : string) : string := if bool_decide (new = EmptyString) then old else new.
Definition or_number (new old : Z) : Z := if 0 <? new then new else old.

(** The addresses of the parameters are written whatever they are: the hexadecimal
    form of an address is never empty. *)
Definition updated_avs (params : AVSRegisterOrDeregisterParams) (epoch : EpochInfo) (info : AVSInfo)
    : AVSInfo := {|
  av_Name := or_string (ap_AvsName params) (av_Name info);
  av_AvsAddress := Address_Hex (ap_AvsAddress params);
  av_MinStakeAmount := or_number (ap_MinStakeAmount params) (av_MinStakeAmount info);
  av_TaskAddress :=
    if bool_decide (Address_Hex (ap_TaskAddress params) = EmptyString) then av_TaskAddress info
    else lower_hex (ap_TaskAddress params);
  av_SlashAddress :=
    if bool_decide (Address_Hex (ap_SlashContractAddress params) = EmptyString)
    then av_SlashAddress info else lower_hex (ap_SlashContractAddress params);
  av_RewardAddress :=
    if bool_decide (Address_Hex (ap_RewardContractAddress params) = EmptyString)
    then av_RewardAddress info else lower_hex (ap_RewardContractAddress params);
  av_AvsOwnerAddresses := default (av_AvsOwnerAddresses info) (ap_AvsOwnerAddresses params);
  av_AssetIDs := default (av_AssetIDs info) (ap_AssetIDs params);
  av_AvsUnbondingPeriod := or_number (ap_UnbondingPeriod params) (av_AvsUnbondingPeriod info);
  av_MinSelfDelegation := ap_MinSelfDelegation params;
  av_EpochIdentifier := or_string (ap_EpochIdentifier params) (av_EpochIdentifier info);
  av_MinOptInOperators := or_number (ap_MinOptInOperators params) (av_MinOptInOperators info);
  av_MinTotalStakeAmount := or_number (ap_MinTotalStakeAmount params) (av_MinTotalStakeAmount info);
  av_StartingEpoch := next_epoch epoch;
  av_ChainId := av_ChainId info;
  av_AvsReward := if 0 <? ap_AvsReward params then percent (ap_AvsReward params) else av_AvsReward info;
  av_AvsSlash := if 0 <? ap_AvsSlash params then percent (ap_AvsSlash params) else av_AvsSlash info;
  av_AssetRewardAmountEpochBasis := av_AssetRewardAmountEpochBasis info;
  av_WhitelistAddresses := default (av_WhitelistAddresses info) (ap_WhitelistAddresses params);
  av_RewardAssetList := av_RewardAssetList info |}.

(** New assets are checked, and the list at the last update of the voting power is
    saved once. *)
Definition update_assets a (params : AVSRegisterOrDeregisterParams) (info : AVSInfo)
    : M X error unit :=
  match ap_AssetIDs params with
  | None => mret tt
  | Some assetIDs =>
      _ ← ValidateAssetIDs a assetIDs;
      has ← gets (λ x, HasAVSAssetsPerEpoch (Address_Hex (ap_AvsAddress params)) (x_usd x));
      if (has : bool) then mret tt
      else zoom oe_operator put_operator (zoom st_usd put_usd
             (SetAVSAssetsPerEpoch (Address_Hex (ap_AvsAddress params)) (av_AssetIDs info)))
  end.

(** The case [UpdateAction]. *)
Definition update_avs a (params : AVSRegisterOrDeregisterParams) (avsInfo : option AVSInfo)
    (epoch : EpochInfo) : M X error unit :=
  match avsInfo with
  | None => fail avstypes.ErrUnregisterNonExistent
  | Some info =>
      user ← gets (λ x, av_AvsAddress
        (GetAVSInfoByTaskAddress (Address_Hex (ap_TaskAddress params)) (x_avs x)));
      _ ← fail_if (negb (bool_decide (user = EmptyString)) &&
                   negb (bool_decide (user = av_AvsAddress info))) avstypes.ErrAlreadyRegistered;
      _ ← update_assets a params info;
      on_avs (SetAVSInfo (updated_avs params epoch info))
  end.

(** The epoch of the AVS when it is registered, otherwise that of the parameters. *)
Definition avs_UpdateAVSInfo a (params : AVSRegisterOrDeregisterParams) : M X error unit :=
  avsInfo ← gets (λ x, avsInfos (x_avs x) !! HexToAddress (Address_Hex (ap_AvsAddress params)));
  let epochIdentifier :=
    or_string (from_option av_EpochIdentifier EmptyString avsInfo) (ap_EpochIdentifier params) in
  found ← gets (λ x, GetEpochInfo epochIdentifier (avs_epochs (oe_rest x)));
  match found with
  | None => fail avstypes.ErrEpochNotFound
  | Some epoch =>
      if ap_Action params =? RegisterAction then register_avs a params avsInfo epochIdentifier epoch
      else if ap_Action params =? DeRegisterAction then deregister_avs params avsInfo
      else if ap_Action params =? UpdateAction then update_avs a params avsInfo epoch
      else fail avstypes.ErrInvalidAction
  end.

(** ** The AVS of a chain *)

Definition ChainIDCode : string := default EmptyString (hexutil_Decode
  "0x608060405234801561001057600080fd5b5060c78061001f6000396000f3fe6080604052348015600f57600080fd5b506004361060285760003560e01c806301ffc9a714602d575b600080fd5b604e60383660046062565b6001600160e01b0319166301ffc9a760e01b1490565b604051901515815260200160405180910390f35b600060208284031215607357600080fd5b81356001600160e01b031981168114608a57600080fd5b939250505056fea2646970667358221220b872b230d6a37b4ce12f24d5127759bc0451696f0186fabee8c3e9abe32c462c64736f6c63430008180033").
Definition ChainIDCodeHash : string := Keccak256 ChainIDCode.

Definition for_chain (params : AVSRegisterOrDeregisterParams) (chainID avsAddr : string)
    : AVSRegisterOrDeregisterParams := {|
  ap_AvsName := ap_AvsName params; ap_AvsAddress := avsAddr;
  ap_MinStakeAmount := ap_MinStakeAmount params; ap_TaskAddress := ap_TaskAddress params;
  ap_SlashContractAddress := ap_SlashContractAddress params;
  ap_RewardContractAddress := ap_RewardContractAddress params;
  ap_AvsOwnerAddresses := ap_AvsOwnerAddresses params; ap_AssetIDs := ap_AssetIDs params;
  ap_UnbondingPeriod := ap_UnbondingPeriod params;
  ap_MinSelfDelegation := ap_MinSelfDelegation params;
  ap_EpochIdentifier := ap_EpochIdentifier params;
  ap_MinOptInOperators := ap_MinOptInOperators params;
  ap_MinTotalStakeAmount := ap_MinTotalStakeAmount params;
  ap_CallerAddress := ap_CallerAddress params; ap_ChainID := chainID;
  ap_AvsReward := ap_AvsReward params; ap_AvsSlash := ap_AvsSlash params;
  ap_Action := RegisterAction; ap_WhitelistAddresses := ap_WhitelistAddresses params |}.

Definition avs_RegisterAVSWithChainID a (params : AVSRegisterOrDeregisterParams)
    : M X error (bool * string) :=
  let chainID := ChainIDWithoutRevision (ap_ChainID params) in
  if bool_decide (chainID = EmptyString) then fail avstypes.ErrNotNull
  else
    let avsAddrStr := GenerateAVSAddress chainID in
    let avsAddr := HexToAddress avsAddrStr in
    cached (
      isAVS ← gets (λ x, avs_IsAVS avsAddrStr (x_avs x));
      if (isAVS : bool) then mret (true, avsAddr)
      else
        nonce ← gets (λ x, evm_GetNewContractNonce (ae_rest (oe_rest x)));
        _ ← on_peers (evm_SetAccount avsAddr {|
              acc_Nonce := nonce; acc_Balance := 0; acc_CodeHash := ChainIDCodeHash |});
        _ ← avs_UpdateAVSInfo a (for_chain params chainID avsAddr);
        _ ← on_avs (SetAVSAddrToChainID avsAddr chainID);
        mret (false, avsAddr)).

(** What x/dogfood fills in; an empty list of a message is nil. *)
Definition chain_params (p : ChainAVSParams) (avsAddr : string) (action : Z)
    : AVSRegisterOrDeregisterParams := {|
  ap_AvsName := ca_AvsName p; ap_AvsAddress := avsAddr; ap_MinStakeAmount := 0;
  ap_TaskAddress := zero_address; ap_SlashContractAddress := zero_address;
  ap_RewardContractAddress := zero_address; ap_AvsOwnerAddresses := None;
  ap_AssetIDs := match ca_AssetIDs p with [] => None | assetIDs => Some assetIDs end;
  ap_UnbondingPeriod := ca_UnbondingPeriod p; ap_MinSelfDelegation := ca_MinSelfDelegation p;
  ap_EpochIdentifier := ca_EpochIdentifier p; ap_MinOptInOperators := 0;
  ap_MinTotalStakeAmount := 0; ap_CallerAddress := EmptyString; ap_ChainID := ca_ChainID p;
  ap_AvsReward := 0; ap_AvsSlash := 0; ap_Action := action; ap_WhitelistAddresses := None |}.

Definition avs_keeper : AVSKeeper Y := {|
  RegisterAVSWithChainID a p := avs_RegisterAVSWithChainID a (chain_params p zero_address 0);
  UpdateAVSInfo a avsAddr p := avs_UpdateAVSInfo a (chain_params p (HexToAddress avsAddr) UpdateAction);
|}.
End Registry.
