(* ===== verification/AvsTasks.v ===== *)
(** * Tasks of the AVSs (x/avs/keeper/keeper.go, task.go, avs.go, impl_epoch_hook.go)

    The owner of an AVS creates a task; the operators that have opted in answer it in
    two phases, first with a signature and then with the response that it signs; at the
    end of the statistical period the answers are counted, and then the AVS can resolve
    the task once.  The hook of x/epochs ranges over a Go map, whose order is the
    argument [range]. *)

From S2P Require Import Prelude Errors Sdk RefSdk KVStore Epochs DelegationTypes Assets.
From S2P Require Import DelegationStore UndelegationStore Delegation OperatorTypes.
From S2P Require Import OperatorStore OperatorSnapshot OperatorKeepers OperatorUnbonding OperatorUSD.
From S2P Require Import OperatorOpt ChainUtils AvsTypes AvsStore AvsRegistry.

Section Tasks.
Context {sdk : Sdk} {chain : ChainSdk} {avs : AvsSdk} {R : Type} {peers : AvsPeers R}.
Abbreviation Y := (AvsExt R).
Abbreviation X := (OperatorExt Y).
Implicit Types x : X.
#[local] Existing Instance avs_others.

(** ** Creating a task *)

Definition new_task (params : TaskInfoParams) (taskID : Z) (epoch : EpochInfo)
    (operatorList : list string) : TaskInfo := {|
  tk_TaskContractAddress := lower_hex (tp_TaskContractAddress params);
  tk_Name := tp_TaskName params;
  tk_Hash := tp_Hash params;
  tk_TaskId := taskID;
  tk_TaskResponsePeriod := tp_TaskResponsePeriod params;
  tk_TaskStatisticalPeriod := tp_TaskStatisticalPeriod params;
  tk_TaskChallengePeriod := tp_TaskChallengePeriod params;
  tk_ThresholdPercentage := tp_ThresholdPercentage params;
  tk_StartingEpoch := next_epoch epoch;
  tk_ActualThreshold := EmptyString;
  tk_OptInOperators := operatorList;
  tk_SignedOperators := []; tk_NoSignedOperators := []; tk_ErrSignedOperators := [];
  tk_TaskTotalPower := 0; tk_OperatorActivePower := None; tk_IsExpected := false;
  tk_EligibleRewardOperators := []; tk_EligibleSlashOperators := [] |}.

Definition CreateAVSTask (params : TaskInfoParams) : M X error Z :=
  let taskAddr := Address_Hex (tp_TaskContractAddress params) in
  avsInfo ← gets (λ x, GetAVSInfoByTaskAddress taskAddr (x_avs x));
  let avsAddr := av_AvsAddress avsInfo in
  _ ← fail_if (bool_decide (avsAddr = EmptyString)) avstypes.ErrUnregisterNonExistent;
  _ ← fail_if (negb (bool_decide
        (AccAddress_String (tp_CallerAddress params) ∈ av_AvsOwnerAddresses avsInfo)))
        avstypes.ErrCallerAddressUnauthorized;
  power ← gets (λ x, GetAVSUSDValue avsAddr (x_usd x));
  taskPowerTotal ← lift_result power;
  _ ← fail_if (taskPowerTotal <=? 0) avstypes.ErrVotingPowerIncorrect;
  found ← gets (λ x, GetEpochInfo (av_EpochIdentifier avsInfo) (avs_epochs (oe_rest x)));
  match found with
  | None => fail avstypes.ErrEpochNotFound
  | Some epoch =>
      exists_ ← gets (λ x, IsExistTask (FormatUint (tp_TaskID params)) taskAddr (x_avs x));
      _ ← fail_if exists_ avstypes.ErrAlreadyExists;
      operators ← gets (λ x, GetOptedInOperatorListByAVS avsAddr (x_info x));
      operatorList ← lift_result operators;
      _ ← fail_if (bool_decide (operatorList = [])) avstypes.ErrNoOptedInOperators;
      taskID ← on_avs (GetTaskID (HexToAddress taskAddr));
      _ ← on_avs (SetTaskInfo (new_task params taskID epoch operatorList));
      mret taskID
  end.

(** ** Public keys of the operators *)

(** [fmt.Sprintf(types.BLSMessageToSign, chainID, operator)] *)
Definition BLSMessageToSign (chainID operator : string) : string :=
  "BLS12-381 Signed Message" +:+ String (Ascii.ascii_of_N 10) ("ChainIDWithoutRevision: " +:+
  chainID +:+ String (Ascii.ascii_of_N 10) ("AccAddressBech32: " +:+ operator)).

Definition RegisterBLSPublicKey (ChainID : string) (params : BlsParams) : M AvsState error unit :=
  let operator := AccAddress_String (bp_OperatorAddress params) in
  let hashedMsg := Keccak256 (BLSMessageToSign (ChainIDWithoutRevision ChainID) operator) in
  match PublicKeyFromBytes (bp_PubKey params) with
  | None => fail avstypes.ErrParsePubKey
  | Some pubKey =>
      match VerifySignature (bp_PubKeyRegistrationSignature params) hashedMsg pubKey with
      | Some true =>
          exists_ ← gets (IsExistPubKeyForAVS operator (Address_Hex (bp_AvsAddress params)));
          _ ← fail_if exists_ avstypes.ErrAlreadyExists;
          let blsInfo := {| bk_OperatorAddress := operator;
                            bk_AvsAddress := lower_hex (bp_AvsAddress params);
                            bk_PubKey := Some (bp_PubKey params) |} in
          used ← gets (IsExistPubKey blsInfo);
          _ ← fail_if used avstypes.ErrAlreadyExists;
          SetOperatorPubKey blsInfo
      | _ => fail avstypes.ErrSigNotMatchPubKey
      end
  end.

(** ** Challenges *)

(** The end of the response period, and that of the statistical period, as int64. *)
Definition response_end (task : TaskInfo) : Z :=
  wrap_int64 (wrap_int64 (tk_StartingEpoch task) + wrap_int64 (tk_TaskResponsePeriod task)).
Definition statistical_end (task : TaskInfo) : Z :=
  wrap_int64 (response_end task + wrap_int64 (tk_TaskStatisticalPeriod task)).

Definition resolved_task (params : ChallengeParams) (task : TaskInfo) : TaskInfo := {|
  tk_TaskContractAddress := tk_TaskContractAddress task; tk_Name := tk_Name task;
  tk_Hash := tk_Hash task; tk_TaskId := tk_TaskId task;
  tk_TaskResponsePeriod := tk_TaskResponsePeriod task;
  tk_TaskStatisticalPeriod := tk_TaskStatisticalPeriod task;
  tk_TaskChallengePeriod := tk_TaskChallengePeriod task;
  tk_ThresholdPercentage := tk_ThresholdPercentage task;
  tk_StartingEpoch := tk_StartingEpoch task;
  tk_ActualThreshold := FormatUint (cp_ActualThreshold params);
  tk_OptInOperators := tk_OptInOperators task;
  tk_SignedOperators := tk_SignedOperators task;
  tk_NoSignedOperators := tk_NoSignedOperators task;
  tk_ErrSignedOperators := tk_ErrSignedOperators task;
  tk_TaskTotalPower := tk_TaskTotalPower task;
  tk_OperatorActivePower := tk_OperatorActivePower task;
  tk_IsExpected := tk_ThresholdPercentage task <=? cp_ActualThreshold params;
  tk_EligibleRewardOperators := AddressToString (cp_EligibleRewardOperators params);
  tk_EligibleSlashOperators := AddressToString (cp_EligibleSlashOperators params) |}.

Definition RaiseAndResolveChallenge (params : ChallengeParams) : M X error unit :=
  let taskAddr := Address_Hex (cp_TaskContractAddress params) in
  task ← gets (λ x, GetTaskInfo (FormatUint (cp_TaskID params)) taskAddr (x_avs x));
  match task with
  | Ok taskInfo =>
      _ ← fail_if (tk_IsExpected taskInfo) avstypes.ErrTaskFinished;
      _ ← fail_if (bool_decide (tk_OptInOperators taskInfo = [])) avstypes.ErrNoOperatorsInTask;
      raised ← gets (λ x, IsExistTaskChallengedInfo taskAddr (cp_TaskID params) (x_avs x));
      _ ← fail_if raised avstypes.ErrAlreadyExists;
      avsInfo ← gets (λ x, GetAVSInfoByTaskAddress (tk_TaskContractAddress taskInfo) (x_avs x));
      _ ← fail_if (bool_decide (av_AvsAddress avsInfo = EmptyString)) avstypes.ErrUnregisterNonExistent;
      found ← gets (λ x, GetEpochInfo (av_EpochIdentifier avsInfo) (avs_epochs (oe_rest x)));
      match found with
      | None => fail avstypes.ErrEpochNotFound
      | Some epoch =>
          _ ← fail_if (ei_CurrentEpoch epoch <=? statistical_end taskInfo) avstypes.ErrSubmitTooSoonError;
          _ ← on_avs (SetTaskChallengedInfo (cp_TaskID params)
                (AccAddress_String (cp_CallerAddress params)) (cp_TaskContractAddress params));
          on_avs (SetTaskInfo (resolved_task params taskInfo))
      end
  | _ => fail avstypes.ErrNoTask
  end.

(** ** Results *)

(** The operator of a result.  The zero value that an empty string gives is no operator,
    and the nil address of another error makes the store panic. *)
Definition check_operator (operatorAddress : string) : M X error unit :=
  match AccAddressFromBech32 operatorAddress with
  | Some opAccAddr =>
      isOperator ← gets (λ x, OperatorStore.IsOperator opAccAddr (x_info x));
      fail_if (negb isOperator) delegationtypes.ErrOperatorNotExist
  | None => if bool_decide (TrimSpace operatorAddress = EmptyString)
            then fail delegationtypes.ErrOperatorNotExist else panic
  end.

(** The BLS key of the operator for the AVS. *)
Definition operator_key (operatorAddress avsAddr : string) : M X error PublicKey :=
  found ← gets (λ x, GetOperatorPubKey operatorAddress avsAddr (x_avs x));
  match found with
  | Panic => panic
  | Err _ => fail avstypes.ErrPubKeyIsNotExists
  | Ok keyInfo =>
      match bk_PubKey keyInfo with
      | None => fail avstypes.ErrPubKeyIsNotExists
      | Some bz =>
          match PublicKeyFromBytes bz with
          | None => fail avstypes.ErrParsePubKey
          | Some pubKey => mret pubKey
          end
      end
  end.

(** The case [PhasePrepare]. *)
Definition submit_prepare (info : TaskResultInfo) (task : TaskInfo) (epoch : EpochInfo)
    : M X error unit :=
  exists_ ← gets (λ x, IsExistTaskResultInfo (tr_OperatorAddress info)
              (tr_TaskContractAddress info) (tr_TaskId info) (x_avs x));
  _ ← fail_if exists_ avstypes.ErrResAlreadyExists;
  _ ← fail_if (negb (is_some (tr_BlsSignature info))) avstypes.ErrParamNotEmptyError;
  _ ← fail_if (negb (bool_decide (tr_TaskResponseHash info = EmptyString)) ||
               is_some (tr_TaskResponse info)) avstypes.ErrParamNotEmptyError;
  _ ← fail_if (response_end task <? ei_CurrentEpoch epoch) avstypes.ErrSubmitTooLateError;
  on_avs (SetTaskResultInfo info).

Definition with_hash (hash : string) (info : TaskResultInfo) : TaskResultInfo := {|
  tr_OperatorAddress := tr_OperatorAddress info; tr_TaskResponseHash := hash;
  tr_TaskResponse := tr_TaskResponse info; tr_BlsSignature := tr_BlsSignature info;
  tr_TaskContractAddress := tr_TaskContractAddress info; tr_TaskId := tr_TaskId info;
  tr_Phase := tr_Phase info |}.

(** The case [PhaseDoCommit]. *)
Definition submit_commit (info : TaskResultInfo) (task : TaskInfo) (epoch : EpochInfo)
    (pubKey : PublicKey) : M X error unit :=
  match tr_TaskResponse info with
  | None => fail avstypes.ErrNotNull
  | Some response =>
      res ← gets (λ x, GetTaskResultInfo (tr_OperatorAddress info) (tr_TaskContractAddress info)
              (tr_TaskId info) (x_avs x));
      _ ← fail_if (match res with
                   | Ok res => negb (bool_decide
                       (bytes_of (tr_BlsSignature res) = bytes_of (tr_BlsSignature info)))
                   | _ => true
                   end) avstypes.ErrInconsistentParams;
      _ ← fail_if (ei_CurrentEpoch epoch <=? response_end task) avstypes.ErrSubmitTooSoonError;
      _ ← fail_if (statistical_end task <? ei_CurrentEpoch epoch) avstypes.ErrSubmitTooLateError;
      let taskResponseDigest := Keccak256 response in
      match VerifySignature (bytes_of (tr_BlsSignature info)) taskResponseDigest pubKey with
      | Some true => on_avs (SetTaskResultInfo (with_hash (Hash_String taskResponseDigest) info))
      | _ => fail avstypes.ErrSigVerifyError
      end
  end.

Definition SubmitTaskResult (addr : string) (info : TaskResultInfo) : M X error unit :=
  _ ← fail_if (negb (bool_decide (addr = tr_OperatorAddress info))) avstypes.ErrInvalidAddr;
  _ ← check_operator (tr_OperatorAddress info);
  avsInfo ← gets (λ x, GetAVSInfoByTaskAddress (tr_TaskContractAddress info) (x_avs x));
  _ ← fail_if (bool_decide (av_AvsAddress avsInfo = EmptyString)) avstypes.ErrUnregisterNonExistent;
  pubKey ← operator_key (tr_OperatorAddress info) (av_AvsAddress avsInfo);
  found ← gets (λ x, GetTaskInfo (FormatUint (tr_TaskId info)) (tr_TaskContractAddress info) (x_avs x));
  match found with
  | Ok task =>
      _ ← fail_if (bool_decide (tk_TaskContractAddress task = EmptyString)) avstypes.ErrTaskIsNotExists;
      epochInfo ← gets (λ x, GetEpochInfo (av_EpochIdentifier avsInfo) (avs_epochs (oe_rest x)));
      match epochInfo with
      | None => fail avstypes.ErrEpochNotFound
      | Some epoch =>
          if tr_Phase info =? PhasePrepare then submit_prepare info task epoch
          else if tr_Phase info =? PhaseDoCommit then submit_commit info task epoch pubKey
          else fail avstypes.ErrParamError
      end
  | _ => fail avstypes.ErrTaskIsNotExists
  end.

(** ** The end of the statistical period *)

(** The results of the tasks whose statistical period ends with the epoch. *)
Definition GetTaskStatisticalEpochEndAVSs (epochIdentifier : string) (epochNumber : Z)
    (s : AvsState) : list TaskResultInfo :=
  filter (λ info,
    let avsInfo := GetAVSInfoByTaskAddress (tr_TaskContractAddress info) s in
    match GetTaskInfo (FormatUint (tr_TaskId info)) (tr_TaskContractAddress info) s with
    | Ok taskInfo =>
        negb (bool_decide (av_AvsAddress avsInfo = EmptyString)) &&
        bool_decide (epochIdentifier = av_EpochIdentifier avsInfo) &&
        (epochNumber =? statistical_end taskInfo)
    | _ => false
    end = true) (IterateResultInfo s).

Definition group_key (info : TaskResultInfo) : string :=
  tr_TaskContractAddress info +:+ String DelimiterForGroupKey (FormatUint (tr_TaskId info)).

(** The operators of a group are distinct, so the order of equal elements, which
    [sort.Slice] leaves open, does not matter. *)
Definition operator_le : relation TaskResultInfo := λ r r',
  String.le (tr_OperatorAddress r) (tr_OperatorAddress r').

#[global] Instance operator_le_dec : RelDecision operator_le.
Proof. intros r r'. unfold operator_le. apply _. Defined.
#[global] Instance operator_le_trans : Transitive operator_le.
Proof. intros r r' r''. unfold operator_le. apply transitivity. Qed.
#[global] Instance operator_le_total : Total operator_le.
Proof. intros r r'. unfold operator_le. apply total, _. Qed.

Definition GroupTasksByIDAndAddress (tasks : list TaskResultInfo) : gmap string (list TaskResultInfo) :=
  merge_sort operator_le <$>
    foldl (λ taskMap task, <[group_key task := default [] (taskMap !! group_key task) ++ [task]]> taskMap)
      ∅ tasks.

Definition parseGroupKey (key : string) : result error (string * Z) :=
  match split_on DelimiterForGroupKey key with
  | [taskAddr; id] =>
      match ParseUint id with Some taskID => Ok (taskAddr, taskID) | None => Err avstypes.ErrGroupKey end
  | _ => Err avstypes.ErrGroupKey
  end.

(** A result counts as signed; it is enough that the response is set. *)
Definition is_signed (res : TaskResultInfo) : bool :=
  is_some (tr_BlsSignature res) && negb (bool_decide (tr_TaskResponseHash res = EmptyString)) ||
  is_some (tr_TaskResponse res).

(** The active power of an operator; an error or a negative value counts as zero. *)
Definition active_power (avsAddr operator : string) x : LegacyDec :=
  match GetOperatorActiveUSDValue avsAddr operator x with
  | Ok activePower => if activePower <? 0 then 0 else activePower
  | _ => 0
  end.

Definition counted_task (avsAddr : string) (taskPowerTotal : LegacyDec) (value : list TaskResultInfo)
    (task : TaskInfo) x : TaskInfo :=
  let signedOperatorList := tr_OperatorAddress <$> filter (λ res, is_signed res = true) value in {|
  tk_TaskContractAddress := tk_TaskContractAddress task; tk_Name := tk_Name task;
  tk_Hash := tk_Hash task; tk_TaskId := tk_TaskId task;
  tk_TaskResponsePeriod := tk_TaskResponsePeriod task;
  tk_TaskStatisticalPeriod := tk_TaskStatisticalPeriod task;
  tk_TaskChallengePeriod := tk_TaskChallengePeriod task;
  tk_ThresholdPercentage := tk_ThresholdPercentage task;
  tk_StartingEpoch := tk_StartingEpoch task;
  tk_ActualThreshold := tk_ActualThreshold task;
  tk_OptInOperators := tk_OptInOperators task;
  tk_SignedOperators := signedOperatorList;
  tk_NoSignedOperators := Difference (tk_OptInOperators task) signedOperatorList;
  tk_ErrSignedOperators := tk_ErrSignedOperators task;
  tk_TaskTotalPower := taskPowerTotal;
  tk_OperatorActivePower := Some ((λ operator, {| pi_OperatorAddress := operator;
    pi_SelfActivePower := active_power avsAddr operator x |}) <$> signedOperatorList);
  tk_IsExpected := tk_IsExpected task;
  tk_EligibleRewardOperators := tk_EligibleRewardOperators task;
  tk_EligibleSlashOperators := tk_EligibleSlashOperators task |}.

(** One group; what fails is logged. *)
Definition count_group (group : string * list TaskResultInfo) : M X error unit :=
  match parseGroupKey group.1 with
  | Ok (taskAddr, taskID) =>
      avsAddr ← gets (λ x, av_AvsAddress (GetAVSInfoByTaskAddress taskAddr (x_avs x)));
      if bool_decide (avsAddr = EmptyString) then mret tt
      else
        task ← gets (λ x, GetTaskInfo (FormatUint taskID) taskAddr (x_avs x));
        power ← gets (λ x, GetAVSUSDValue avsAddr (x_usd x));
        match task, power with
        | Ok taskInfo, Ok taskPowerTotal =>
            if taskPowerTotal =? 0 then mret tt
            else
              taskInfo ← gets (counted_task avsAddr taskPowerTotal group.2 taskInfo);
              log_and_continue (on_avs (SetTaskInfo taskInfo))
        | _, _ => mret tt
        end
  | _ => mret tt
  end.

(** The order in which [range] visits the map is not specified. *)
Context (range : gmap string (list TaskResultInfo) → list (string * list TaskResultInfo)).

Definition avs_AfterEpochEnd (epochIdentifier : string) (epochNumber : Z) : M X error unit :=
  taskResList ← gets (λ x, GetTaskStatisticalEpochEndAVSs epochIdentifier epochNumber (x_avs x));
  for_each (range (GroupTasksByIDAndAddress taskResList)) count_group.
End Tasks.

(** ** Opting in and out through x/avs, over the whole chain *)

Section OptAction.
Context {sdk : Sdk} {B Y : Type} {ot : Others Y} {stk : StakingTypes}.

Definition OperatorOptAction (ctx : Ctx) (params : OperatorOptParams)
    : M (World B (OperatorExt Y)) error unit :=
  let avsAddr := Address_Hex (oo_AvsAddress params) in
  isOperator ← gets (λ w, OperatorStore.IsOperator (oo_OperatorAddress params) (x_info (w_ext w)));
  _ ← fail_if (negb isOperator) delegationtypes.ErrOperatorNotExist;
  isAVS ← gets (λ w, IsAVS (w_rest w) avsAddr);
  f ← lift_result isAVS;
  _ ← fail_if (negb f) avstypes.ErrNoAvs;
  if oo_Action params =? RegisterAction then OptIn ctx (oo_OperatorAddress params) (ToLower avsAddr)
  else if oo_Action params =? DeRegisterAction then
    OptOut ctx (oo_OperatorAddress params) (ToLower avsAddr)
  else fail avstypes.ErrInvalidAction.
End OptAction.
