(* ===== verification/AvsWrites.v ===== *)
(** * What the methods of x/avs write

    For each method that succeeds: the change of the store, the checks that it passed,
    and that the invariant of AvsInv.v holds of the new store. *)

From S2P Require Import Prelude Errors Sdk RefSdk KVStore Epochs DelegationTypes Assets.
From S2P Require Import DelegationStore UndelegationStore Delegation OperatorTypes.
From S2P Require Import OperatorStore OperatorSnapshot OperatorKeepers OperatorUnbonding OperatorUSD.
From S2P Require Import OperatorOpt ChainUtils DogfoodTypes DogfoodStore DogfoodKeepers.
From S2P Require Import AvsTypes AvsStore AvsInv AvsRegistry AvsTasks.

Section Lenses.
Context {R : Type}.
Implicit Types x : OperatorExt (AvsExt R).

Lemma on_avs_Ok {A} (m : M AvsState error A) x r x' :
  on_avs m x = (Ok r, x') → m (x_avs x) = (Ok r, x_avs x').
Proof.
  unfold on_avs, x_avs. intros H. apply zoom_Ok in H as (y & Hy & ->).
  apply zoom_Ok in Hy as (s & Hs & ->). done.
Qed.

Lemma on_peers_Ok {A} (m : M R error A) x r x' : on_peers m x = (Ok r, x') → x_avs x' = x_avs x.
Proof.
  unfold on_peers, x_avs. intros H. apply zoom_Ok in H as (y & Hy & ->).
  by apply zoom_Ok in Hy as (s & Hs & ->).
Qed.
End Lenses.

(** The tests of a run that succeeded. *)
Ltac test_facts := repeat match goal with
  | H : bool_decide _ = false |- _ => apply bool_decide_eq_false in H
  | H : bool_decide _ = true |- _ => apply bool_decide_eq_true in H
  | H : negb _ = false |- _ => apply negb_false_iff in H
  | H : (_ <=? _) = false |- _ => apply Z.leb_gt in H
  | H : (_ <? _) = false |- _ => apply Z.ltb_ge in H
  | H : _ || _ = false |- _ => apply orb_false_iff in H as [? ?]
  | H : on_avs _ _ = (Ok _, _) |- _ => apply on_avs_Ok in H
  end.

Section Steps.
Context {sdk : Sdk} {chain : ChainSdk} {avs : AvsSdk} {R : Type} {peers : AvsPeers R}.
Context {laws : SdkLaws sdk} {al : AddressLaws sdk chain} {avsl : AvsSdkLaws avs}.
Abbreviation Y := (AvsExt R).
Abbreviation X := (OperatorExt Y).
Implicit Types (a : AssetsState) (x : X).
#[local] Existing Instance avs_others.
Context (ChainID : string).

(** ** What a method of the registry writes *)

Lemma register_avs_Ok a params info id epoch x u x' :
  register_avs ChainID a params info id epoch x = (Ok u, x') →
  info = None ∧
  av_AvsAddress (GetAVSInfoByTaskAddress (Address_Hex (ap_TaskAddress params)) (x_avs x)) = EmptyString ∧
  x_avs x' = set_avsInfos (insert (HexToAddress (lower_hex (ap_AvsAddress params)))
    (new_avs ChainID params id epoch)) (x_avs x).
Proof.
  unfold register_avs, ValidateAssetIDs. intros Hrun. go_inv. destruct info; [done|].
  match goal with H : negb _ = false |- _ => apply negb_false_iff, bool_decide_eq_true in H end.
  apply on_avs_Ok in Hrun4. by apply modify_Ok in Hrun4.
Qed.

Lemma deregister_avs_Ok params info x u x' :
  deregister_avs params info x = (Ok u, x') →
  x_avs x' = set_avsInfos (delete (HexToAddress (Address_Hex (ap_AvsAddress params)))) (x_avs x).
Proof.
  unfold deregister_avs. destruct info as [info|]; [|done]. intros Hrun. go_inv.
  match goal with H : on_avs _ _ = _ |- _ => apply on_avs_Ok in H end.
  unfold DeleteAVSInfo in *. go_inv. done.
Qed.

Lemma update_assets_Ok a params info x u x' :
  update_assets a params info x = (Ok u, x') → x_avs x' = x_avs x.
Proof.
  unfold update_assets, ValidateAssetIDs. destruct (ap_AssetIDs params); intros Hrun; go_inv; [|done].
  destruct (HasAVSAssetsPerEpoch _ _); go_inv; done.
Qed.

Lemma update_avs_Ok a params info epoch x u x' :
  update_avs a params info epoch x = (Ok u, x') →
  ∃ old, info = Some old ∧
  let user := av_AvsAddress (GetAVSInfoByTaskAddress (Address_Hex (ap_TaskAddress params)) (x_avs x)) in
  (user = EmptyString ∨ user = av_AvsAddress old) ∧
  x_avs x' = set_avsInfos (insert (HexToAddress (Address_Hex (ap_AvsAddress params)))
    (updated_avs params epoch old)) (x_avs x).
Proof.
  unfold update_avs. destruct info as [old|]; [|done]. intros Hrun. go_inv. exists old. split; [done|].
  match goal with H : update_assets _ _ _ _ = _, H' : on_avs _ _ = _ |- _ =>
    apply update_assets_Ok in H; apply on_avs_Ok, modify_Ok in H'; rewrite H in H' end.
  split; [|done].
  match goal with H : negb _ && negb _ = false |- _ =>
    apply andb_false_iff in H as [H|H]; apply negb_false_iff, bool_decide_eq_true in H end;
    [by left|by right].
Qed.

Lemma inv_infos s f : avs_inv s → infos_inv (f (avsInfos s)) → avs_inv (set_avsInfos f s).
Proof. intros [_ Ht Hp Hr Hc Hd] Hi. split; try done. by apply (results_mono s). Qed.

(** The addresses of the parameters are [common.Address] values. *)
Definition params_wf (params : AVSRegisterOrDeregisterParams) : Prop :=
  is_address (ap_AvsAddress params) ∧ is_address (ap_TaskAddress params).

Lemma new_avs_wf params id epoch :
  params_wf params → avs_wf (ap_AvsAddress params) (new_avs ChainID params id epoch).
Proof. intros [Ha Ht]. split; [done|apply lower_hex_lower|]. by exists (ap_TaskAddress params). Qed.

Lemma updated_avs_task params epoch info :
  av_TaskAddress (updated_avs params epoch info) = lower_hex (ap_TaskAddress params).
Proof. cbn. by rewrite bool_decide_false by apply Address_Hex_nonempty. Qed.

Lemma updated_avs_wf params epoch info :
  params_wf params → avs_wf (ap_AvsAddress params) (updated_avs params epoch info).
Proof.
  intros [Ha Ht]. split; [done..|]. exists (ap_TaskAddress params). split; [done|apply updated_avs_task].
Qed.

Lemma UpdateAVSInfo_Ok a params x u x' :
  params_wf params → avs_inv (x_avs x) → avs_UpdateAVSInfo ChainID a params x = (Ok u, x') →
  avs_inv (x_avs x') ∧ ∃ f, x_avs x' = set_avsInfos f (x_avs x).
Proof.
  intros Hwf Hinv. pose proof Hwf as [Ha Ht]. unfold avs_UpdateAVSInfo. rewrite HexToAddress_Hex by done.
  intros Hrun. go_inv. destruct (GetEpochInfo _ _) as [epoch|]; [|done].
  destruct (ap_Action params =? RegisterAction); [|destruct (ap_Action params =? DeRegisterAction);
    [|destruct (ap_Action params =? UpdateAction); [|done]]].
  - apply register_avs_Ok in Hrun2 as (Hnone & Huser & ->). rewrite HexToAddress_lower_hex by done.
    split; [|by eexists]. apply inv_infos; [done|]. eapply infos_inv_insert;
      [apply Hinv|by apply new_avs_wf|done|done|].
    destruct (by_task_none _ _ (ai_infos _ Hinv) Ht Huser) as [->|Hno]; [by left|right].
    intros k' i' Hi' Heq. by destruct (Hno _ _ Hi').
  - apply deregister_avs_Ok in Hrun2 as ->. rewrite HexToAddress_Hex by done.
    split; [|by eexists]. apply inv_infos; [done|]. apply infos_inv_delete, Hinv.
  - apply update_avs_Ok in Hrun2 as (old & Hold & Huser & ->). rewrite HexToAddress_Hex by done.
    split; [|by eexists]. apply inv_infos; [done|]. eapply infos_inv_insert;
      [apply Hinv|by apply updated_avs_wf|done|apply updated_avs_task|].
    eapply by_task_free; [apply Hinv|done|done|done].
Qed.

Lemma RegisterAVSWithChainID_Ok a params x r x' :
  is_address (ap_TaskAddress params) → avs_inv (x_avs x) →
  avs_RegisterAVSWithChainID ChainID a params x = (Ok r, x') →
  avs_inv (x_avs x') ∧ avs_grows (x_avs x) (x_avs x') ∧ taskResults (x_avs x') = taskResults (x_avs x).
Proof.
  intros Ht Hinv. unfold avs_RegisterAVSWithChainID.
  destruct (bool_decide _); [done|]. intros Hrun. go_inv.
  destruct (avs_IsAVS _ _); go_inv; [done|].
  match goal with H : on_peers _ _ = _ |- _ => apply on_peers_Ok in H as Hx end. rewrite <-Hx in Hinv.
  match goal with H : avs_UpdateAVSInfo _ _ _ _ = _ |- _ =>
    apply UpdateAVSInfo_Ok in H as [Hinv' [f Hf]]; [|split; [exact (address_length _)|exact Ht]|done] end.
  match goal with H : on_avs _ _ = _ |- _ => apply on_avs_Ok, modify_Ok in H as -> end.
  rewrite Hx in Hf. rewrite Hf in Hinv' |- *.
  split; [|split; [split; cbn; try done; eauto using same_task_refl|done]].
  - destruct Hinv'. split; try done; [by apply (results_mono (set_avsInfos f (x_avs x)))|].
    apply map_Forall_insert_2; [exact (address_length _)|done].
  - apply dom_insert_subseteq.
Qed.

(** ** What a method of the tasks writes *)

Lemma by_task_owner s t :
  av_AvsAddress (GetAVSInfoByTaskAddress (Address_Hex t) s) ≠ EmptyString → t ≠ zero_address.
Proof. intros Hne ->. by destruct (by_task_found s _ Hne) as (_ & _ & _ & ?). Qed.

Lemma CreateAVSTask_Ok params x id x' :
  is_address (tp_TaskContractAddress params) → avs_inv (x_avs x) →
  CreateAVSTask params x = (Ok id, x') →
  let t := tp_TaskContractAddress params in
  let info := GetAVSInfoByTaskAddress (Address_Hex t) (x_avs x) in
  t ≠ zero_address ∧ id = next_task_id t (x_avs x) ∧
  (∃ k, avsInfos (x_avs x) !! k = Some info) ∧ av_TaskAddress info = lower_hex t ∧
  AccAddress_String (tp_CallerAddress params) ∈ av_AvsOwnerAddresses info ∧
  (∃ power, GetAVSUSDValue (av_AvsAddress info) (x_usd x) = Ok power ∧ 0 < power) ∧
  ∃ epoch operators, GetEpochInfo (av_EpochIdentifier info) (avs_epochs (oe_rest x)) = Some epoch ∧
    GetOptedInOperatorListByAVS (av_AvsAddress info) (x_info x) = Ok operators ∧ operators ≠ [] ∧
    x_avs x' = set_taskInfos (insert (task_key (lower_hex t) (FormatUint id)) (new_task params id epoch operators))
      (set_latestTaskNums (insert t id) (x_avs x)).
Proof.
  intros Ht Hinv. unfold CreateAVSTask. intros Hrun. go_inv.
  destruct (GetEpochInfo _ _) as [epoch|] eqn:Hepoch; [|done]. go_inv.
  test_facts.
  match goal with H : GetTaskID _ _ = _ |- _ =>
    unfold GetTaskID in H; rewrite HexToAddress_Hex in H by done end.
  unfold SetTaskInfo in *. go_inv. cbn zeta.
  match goal with H : av_AvsAddress _ ≠ EmptyString |- _ =>
    pose proof (by_task_owner _ _ H); destruct (by_task_found _ _ H) as (k & Hk & Htask & _) end.
  do 2 (split; [done|]). split; [by exists k|]. do 2 (split; [done|]). split; [by eexists|].
  eexists _, _. split; [reflexivity|]. do 2 (split; [eassumption|]).
  match goal with H : x_avs x' = _, H' : x_avs ?s = set_latestTaskNums _ _ |- _ => by rewrite H, H' end.
Qed.

Lemma CreateAVSTask_inv params x id x' :
  is_address (tp_TaskContractAddress params) → avs_inv (x_avs x) →
  default 0 (latestTaskNums (x_avs x) !! tp_TaskContractAddress params) < 2 ^ 64 - 1 →
  CreateAVSTask params x = (Ok id, x') →
  avs_inv (x_avs x') ∧ avs_grows (x_avs x) (x_avs x') ∧ taskResults (x_avs x') = taskResults (x_avs x).
Proof.
  intros Ht Hinv Hmax Hrun. apply CreateAVSTask_Ok in Hrun as (Hz & -> & _ & _ & _ & _ & Hrun); [|done..].
  destruct Hrun as (epoch & operators & _ & _ & _ & ->).
  split; [|split; [|done]].
  2:{ eapply grows_task; [done..|reflexivity|]. intros task Hk.
      by destruct (next_task_fresh _ (tp_TaskContractAddress params) _ _ (ai_tasks _ Hinv) Ht Hmax Hk). }
  split; [apply Hinv| |apply Hinv| |apply Hinv..].
  - apply tasks_inv_new; [apply Hinv|done..].
  - eapply results_mono; [| | |apply Hinv]; cbn; try done. apply dom_insert_subseteq.
Qed.

Lemma RegisterBLSPublicKey_Ok params s u s' :
  is_address (bp_OperatorAddress params) → is_address (bp_AvsAddress params) → pubs_inv (operatorPubs s) →
  RegisterBLSPublicKey ChainID params s = (Ok u, s') →
  let op := bp_OperatorAddress params in let t := bp_AvsAddress params in let bz := bp_PubKey params in
  operatorPubs s !! pub_key_of op (lower_hex t) = None ∧ operatorPubs s !! bz = None ∧
  (∃ pubKey, PublicKeyFromBytes bz = Some pubKey ∧
    VerifySignature (bp_PubKeyRegistrationSignature params)
      (Keccak256 (BLSMessageToSign (ChainIDWithoutRevision ChainID) (AccAddress_String op))) pubKey = Some true) ∧
  s' = set_operatorPubs (λ m, <[bz := bz]>
    (<[pub_key_of op (lower_hex t) := Marshal_BlsPubKeyInfo (pub_info op t bz)]> m)) s.
Proof.
  intros Hop Ht Hinv. unfold RegisterBLSPublicKey.
  destruct (PublicKeyFromBytes _) as [pubKey|] eqn:Hkey; [|done].
  destruct (VerifySignature _ _ _) as [[]|] eqn:Hsig; [|done..]. intros Hrun. go_inv.
  unfold IsExistPubKeyForAVS, IsExistPubKey, SetOperatorPubKey in *. cbn [bk_OperatorAddress bk_AvsAddress bk_PubKey] in *.
  rewrite bech32_roundtrip in * by by apply is_address_valid.
  rewrite (pub_key_spelled _ _ (bp_AvsAddress params)) in * by done. cbn [bytes_of default] in *.
  go_inv. unfold store_set in *.
  match goal with H : (if bool_decide ?P then Panic else Ok _) = Ok _ |- _ =>
    destruct (bool_decide P); [discriminate H|injection H as <-] end.
  repeat match goal with H : false = is_some _ |- _ => apply eq_sym, is_some_false in H end.
  split; [done|]. split; [done|]. split; [|done]. by exists pubKey.
Qed.

Lemma RegisterBLSPublicKey_inv params s u s' :
  is_address (bp_OperatorAddress params) → is_address (bp_AvsAddress params) → avs_inv s →
  RegisterBLSPublicKey ChainID params s = (Ok u, s') →
  avs_inv s' ∧ avs_grows s s' ∧ taskResults s' = taskResults s.
Proof.
  intros Hop Ht Hinv Hrun. apply RegisterBLSPublicKey_Ok in Hrun as (Hnone & Hnew & (pk & Hpk & _) & ->); [|done..|apply Hinv].
  assert (Hsub : operatorPubs s ⊆ <[bp_PubKey params := bp_PubKey params]>
    (<[pub_key_of (bp_OperatorAddress params) (lower_hex (bp_AvsAddress params)) :=
       Marshal_BlsPubKeyInfo (pub_info (bp_OperatorAddress params) (bp_AvsAddress params) (bp_PubKey params))]>
      (operatorPubs s))).
  { apply map_subseteq_spec. intros k v Hk. by rewrite !lookup_insert_ne by congruence. }
  split; [|by split; [split; try done; eauto using same_task_refl|]]. split; try apply Hinv.
  - apply pubs_inv_new; try done; [apply Hinv|by apply is_address_valid].
  - by eapply results_mono; [| | |apply Hinv].
Qed.

(** A task is rewritten with its address and number. *)
Lemma SetTaskInfo_inv task task' s u s' :
  avs_inv s → taskInfos s !! task_key (tk_TaskContractAddress task) (FormatUint (tk_TaskId task)) = Some task →
  same_task task task' → SetTaskInfo task' s = (Ok u, s') →
  avs_inv s' ∧ avs_grows s s' ∧ taskResults s' = taskResults s.
Proof.
  intros Hinv Hk Hsame. unfold SetTaskInfo. intros Hrun. go_inv. pose proof Hsame as [Haddr Hid _ _ _ _ _ _].
  split; [|split; [|done]].
  2:{ eapply grows_task; [done..|reflexivity|]. intros task0. rewrite Haddr, Hid, Hk. by intros [= <-]. }
  split; try apply Hinv; [by eapply tasks_inv_update; [apply Hinv|..]|].
  eapply results_mono; [| | |apply Hinv]; cbn; try done. apply dom_insert_subseteq.
Qed.

Lemma GetTaskInfo_Ok s id addr t task :
  tasks_inv s → ToLower addr = lower_hex t → GetTaskInfo id addr s = Ok task →
  taskInfos s !! task_key (lower_hex t) id = Some task ∧
  task_key (lower_hex t) id = task_key (tk_TaskContractAddress task) (FormatUint (tk_TaskId task)).
Proof.
  intros [_ Htasks] Haddr. unfold GetTaskInfo. rewrite (task_key_spelled _ t id Haddr).
  destruct (negb _); [done|]. destruct (taskInfos s !! _) as [task'|] eqn:Hk; [|done]. intros [= ->].
  split; [done|]. apply (tw_key _ _ _ (Htasks _ _ Hk)).
Qed.

Lemma task_key_nonempty t id : task_key (lower_hex t) id ≠ EmptyString.
Proof.
  unfold task_key, GetJoinedStoreKey. cbn [join_with]. rewrite lower_hex_lower.
  pose proof (lower_hex_nonempty t) as Hne. by destruct (lower_hex t).
Qed.

Lemma challenge_key_hex t id : challenge_key (Address_Hex t) id = task_key (lower_hex t) (FormatUint id).
Proof. unfold challenge_key, task_key, lower_hex. by rewrite ToLower_idemp. Qed.

Lemma RaiseAndResolveChallenge_Ok params x u x' :
  is_address (cp_TaskContractAddress params) → avs_inv (x_avs x) →
  RaiseAndResolveChallenge params x = (Ok u, x') →
  let t := cp_TaskContractAddress params in
  let key := task_key (lower_hex t) (FormatUint (cp_TaskID params)) in
  ∃ task epoch challenger, taskInfos (x_avs x) !! key = Some task ∧
    tk_IsExpected task = false ∧ tk_OptInOperators task ≠ [] ∧
    taskChallenges (x_avs x) !! key = None ∧
    GetEpochInfo (av_EpochIdentifier (GetAVSInfoByTaskAddress (tk_TaskContractAddress task) (x_avs x)))
      (avs_epochs (oe_rest x)) = Some epoch ∧
    statistical_end task < ei_CurrentEpoch epoch ∧
    AccAddressFromBech32 (AccAddress_String (cp_CallerAddress params)) = Some challenger ∧
    x_avs x' = set_taskInfos (insert key (resolved_task params task))
      (set_taskChallenges (insert key challenger) (x_avs x)).
Proof.
  intros Ht Hinv. unfold RaiseAndResolveChallenge. intros Hrun. go_inv.
  destruct (GetTaskInfo _ _ _) as [task|e|] eqn:Htask; [|done..].
  apply (GetTaskInfo_Ok _ _ _ _ _ (ai_tasks _ Hinv) (eq_refl (lower_hex _))) in Htask as [Hk Hkey].
  go_inv. destruct (GetEpochInfo _ _) as [epoch|] eqn:Hepoch; [|done]. go_inv. test_facts.
  unfold SetTaskChallengedInfo in *. destruct (AccAddressFromBech32 _) as [challenger|] eqn:Hc; [|done].
  unfold SetTaskInfo, IsExistTaskChallengedInfo in *. rewrite challenge_key_hex in *. go_inv.
  exists task, epoch, challenger. do 3 (split; [done|]). split; [by apply is_some_false|].
  do 3 (split; [done|]).
  match goal with H : x_avs x' = _, H' : x_avs ?s = set_taskChallenges _ _ |- _ => rewrite H, H' end.
  cbn [tk_TaskContractAddress tk_TaskId resolved_task]. by rewrite <-Hkey.
Qed.

Lemma RaiseAndResolveChallenge_inv params x u x' :
  is_address (cp_TaskContractAddress params) → avs_inv (x_avs x) →
  RaiseAndResolveChallenge params x = (Ok u, x') →
  avs_inv (x_avs x') ∧ avs_grows (x_avs x) (x_avs x') ∧ taskResults (x_avs x') = taskResults (x_avs x).
Proof.
  intros Ht Hinv Hrun. apply RaiseAndResolveChallenge_Ok in Hrun as
    (task & epoch & c & Hk & _ & _ & Hnone & _ & _ & Hc & ->); [|done..].
  pose proof (tw_key _ _ _ (proj2 (ai_tasks _ Hinv) _ _ Hk)) as Hkey.
  split; [|split; [|done]].
  2:{ eapply grows_task; [done|by apply insert_subseteq|done|reflexivity|]. intros ?. rewrite Hk. by intros [= <-]. }
  split; try apply Hinv.
  - pose proof (tasks_inv_update (x_avs x) task (resolved_task params task)) as Hu.
    cbn [tk_TaskContractAddress tk_TaskId resolved_task] in Hu. rewrite <-Hkey in Hu.
    by destruct (Hu (ai_tasks _ Hinv) Hk eq_refl eq_refl).
  - eapply results_mono; [| | |apply Hinv]; cbn; try done. apply dom_insert_subseteq.
  - apply map_Forall_insert_2; [|apply Hinv]. split; [apply task_key_nonempty|].
    by eapply AccAddressFromBech32_valid.
Qed.

(** ** Results *)

Lemma SetTaskResultInfo_Ok info s u s' :
  SetTaskResultInfo info s = (Ok u, s') →
  is_Some (AccAddressFromBech32 (tr_OperatorAddress info)) ∧
  s' = set_taskResults (insert
    (result_key (tr_OperatorAddress info) (tr_TaskContractAddress info) (tr_TaskId info)) (decoded_result info)) s.
Proof.
  unfold SetTaskResultInfo. destruct (AccAddressFromBech32 _); [|done]. destruct (negb _); [done|].
  intros Hrun. go_inv. split; [by eexists|done].
Qed.

(** A result that is accepted, and the checks that it passed. *)
Record accepted x (info r : TaskResultInfo) : Prop := {
  ac_stored : ∃ hash, r = decoded_result (with_hash hash info);
  ac_operator : is_Some (AccAddressFromBech32 (tr_OperatorAddress info));
  ac_task : ∃ t task avsInfo epoch, is_address t ∧ ToLower (tr_TaskContractAddress info) = lower_hex t ∧
    taskInfos (x_avs x) !! task_key (lower_hex t) (FormatUint (tr_TaskId info)) = Some task ∧
    av_TaskAddress avsInfo = lower_hex t ∧ avsInfo = GetAVSInfoByTaskAddress (tr_TaskContractAddress info) (x_avs x) ∧
    GetEpochInfo (av_EpochIdentifier avsInfo) (avs_epochs (oe_rest x)) = Some epoch ∧
    (announced r ∧ ei_CurrentEpoch epoch ≤ response_end task ∧
       IsExistTaskResultInfo (tr_OperatorAddress info) (tr_TaskContractAddress info) (tr_TaskId info) (x_avs x) = false ∨
     revealed (operatorPubs (x_avs x)) r ∧ response_end task < ei_CurrentEpoch epoch ≤ statistical_end task ∧
       ∃ r0, taskResults (x_avs x) !! result_key (tr_OperatorAddress info) (tr_TaskContractAddress info) (tr_TaskId info) = Some r0 ∧
         bytes_of (tr_BlsSignature r0) = bytes_of (tr_BlsSignature info));
}.

Lemma operator_key_Ok operator avsAddr t x pubKey x' :
  avs_inv (x_avs x) → is_address t → ToLower avsAddr = lower_hex t →
  operator_key operator avsAddr x = (Ok pubKey, x') →
  x' = x ∧ ∃ op bz, AccAddressFromBech32 operator = Some op ∧ has_key (operatorPubs (x_avs x)) op t bz ∧
    PublicKeyFromBytes bz = Some pubKey.
Proof.
  intros Hinv Ht Haddr. unfold operator_key. intros Hrun. go_inv.
  destruct (GetOperatorPubKey _ _ _) as [pub| |] eqn:Hpub; [|done..].
  apply (GetOperatorPubKey_Ok _ _ _ t) in Hpub as (op & bz & Hop & Hkey & Hbz); [|apply Hinv|done..].
  rewrite Hbz in Hrun1. destruct (PublicKeyFromBytes bz) as [pk|] eqn:Hpk; [|done]. go_inv.
  split; [done|]. by exists op, bz.
Qed.

Lemma submit_prepare_Ok info task epoch x u x' :
  tr_Phase info = PhasePrepare → submit_prepare info task epoch x = (Ok u, x') →
  let r := decoded_result (with_hash (tr_TaskResponseHash info) info) in
  is_Some (AccAddressFromBech32 (tr_OperatorAddress info)) ∧
  announced r ∧ ei_CurrentEpoch epoch ≤ response_end task ∧
  IsExistTaskResultInfo (tr_OperatorAddress info) (tr_TaskContractAddress info) (tr_TaskId info) (x_avs x) = false ∧
  x_avs x' = set_taskResults (insert
    (result_key (tr_OperatorAddress info) (tr_TaskContractAddress info) (tr_TaskId info)) r) (x_avs x).
Proof.
  intros Hphase. unfold submit_prepare. intros Hrun. go_inv. test_facts.
  match goal with H : SetTaskResultInfo _ _ = _ |- _ => apply SetTaskResultInfo_Ok in H as [Hop ->] end.
  match goal with H : is_some (tr_TaskResponse _) = false |- _ => apply is_some_false in H as Hresp end.
  split; [done|]. split; [|by destruct info]. split; [done|]. split; [cbn; by rewrite Hresp|done].
Qed.

Lemma submit_commit_Ok info task epoch op t bz pubKey x u x' :
  tr_Phase info = PhaseDoCommit →
  AccAddressFromBech32 (tr_OperatorAddress info) = Some op →
  has_key (operatorPubs (x_avs x)) op t bz → PublicKeyFromBytes bz = Some pubKey →
  submit_commit info task epoch pubKey x = (Ok u, x') →
  ∃ hash, let r := decoded_result (with_hash hash info) in
  revealed (operatorPubs (x_avs x)) r ∧ response_end task < ei_CurrentEpoch epoch ≤ statistical_end task ∧
  (∃ r0, taskResults (x_avs x) !! result_key (tr_OperatorAddress info) (tr_TaskContractAddress info) (tr_TaskId info) = Some r0 ∧
     bytes_of (tr_BlsSignature r0) = bytes_of (tr_BlsSignature info)) ∧
  x_avs x' = set_taskResults (insert
    (result_key (tr_OperatorAddress info) (tr_TaskContractAddress info) (tr_TaskId info)) r) (x_avs x).
Proof.
  intros Hphase Hop Hkey Hpk. unfold submit_commit.
  destruct (tr_TaskResponse info) as [resp|] eqn:Hr; [|done]. intros Hrun. go_inv.
  unfold GetTaskResultInfo in *. destruct (negb (common_IsHexAddress _)); [done|].
  destruct (taskResults _ !! _) as [r0|] eqn:Hr0; [|done].
  destruct (VerifySignature _ _ _) as [[]|] eqn:Hsig; [|done..]. test_facts.
  match goal with H : SetTaskResultInfo _ _ = _ |- _ => apply SetTaskResultInfo_Ok in H as [_ ->] end.
  exists (Hash_String (Keccak256 resp)). split; [|split; [lia|split; [by exists r0|done]]].
  split; [done|]. exists op, t, bz, pubKey, resp. do 3 (split; [done|]). cbn. rewrite Hr.
  do 2 (split; [done|]).
  rewrite <-Hsig. f_equal. apply bytes_of_decoded.
Qed.

Lemma check_operator_Ok operator x u x' :
  check_operator operator x = (Ok u, x') → x' = x ∧ ∃ op, AccAddressFromBech32 operator = Some op ∧
    OperatorStore.IsOperator op (x_info x) = true.
Proof.
  unfold check_operator. destruct (AccAddressFromBech32 operator) as [op|].
  - intros Hrun. go_inv. test_facts. split; [done|]. by exists op.
  - by destruct (bool_decide _).
Qed.

Lemma SubmitTaskResult_Ok addr info x u x' :
  avs_inv (x_avs x) →
  SubmitTaskResult addr info x = (Ok u, x') →
  ∃ r, accepted x info r ∧ x_avs x' = set_taskResults (insert
    (result_key (tr_OperatorAddress info) (tr_TaskContractAddress info) (tr_TaskId info)) r) (x_avs x).
Proof.
  intros Hinv. unfold SubmitTaskResult. intros Hrun. go_inv.
  match goal with H : check_operator _ _ = _ |- _ => apply check_operator_Ok in H as [-> _] end. test_facts.
  match goal with H : av_AvsAddress _ ≠ EmptyString |- _ =>
    destruct (by_task_found _ _ H) as (k & Hk & Htask & _) end.
  destruct (ii_wf _ (ai_infos _ Hinv) _ _ Hk) as [Hka Hkey (t & Ht & Haddr)]. rewrite Haddr in Htask.
  match goal with H : operator_key _ _ _ = _ |- _ =>
    apply (operator_key_Ok _ _ k) in H as (-> & op & bz & Hop & Hhas & Hpk); [|done..] end.
  destruct (GetTaskInfo _ _ _) as [task| |] eqn:Hget; [|done..].
  apply (GetTaskInfo_Ok _ _ _ t) in Hget as [Hget _]; [|apply Hinv|done]. go_inv.
  destruct (GetEpochInfo _ _) as [epoch|] eqn:Hepoch; [|done].
  destruct (Z.eqb_spec (tr_Phase info) PhasePrepare) as [Hp|_];
    [|destruct (Z.eqb_spec (tr_Phase info) PhaseDoCommit) as [Hp|_]; [|done]].
  - match goal with H : submit_prepare _ _ _ _ = _ |- _ =>
      apply submit_prepare_Ok in H as (_ & Hann & Hwin & Hnew & ->); [|done] end.
    eexists. split; [|done]. split; [by eexists|by eexists|].
    eexists t, task, _, epoch. do 5 (split; [done|]). split; [done|]. by left.
  - match goal with H : submit_commit _ _ _ _ _ = _ |- _ =>
      eapply submit_commit_Ok in H as (hash & Hrev & Hwin & Hold & ->); [|done..] end.
    eexists. split; [|done]. split; [by eexists|by eexists|].
    eexists t, task, _, epoch. do 5 (split; [done|]). split; [done|]. by right.
Qed.

Lemma accepted_wf x info r s' :
  is_u64 (tr_TaskId info) → accepted x info r →
  operatorPubs (x_avs x) ⊆ operatorPubs s' → dom (taskInfos (x_avs x)) ⊆ dom (taskInfos s') →
  result_wf s' (result_key (tr_OperatorAddress info) (tr_TaskContractAddress info) (tr_TaskId info)) r.
Proof.
  intros Hid [(hash & Hr) Hop (t & task & i & epoch & Ht & Haddr & Htask & _ & _ & _ & Hphase)] Hp Hd.
  apply (result_wf_mono (x_avs x)); [done..|]. split; [by subst|by subst| |tauto|by subst; apply decoded_result_idemp].
  subst r. exists t. do 3 (split; [done|]). by eexists.
Qed.

Lemma SubmitTaskResult_inv addr info x u x' :
  avs_inv (x_avs x) → is_u64 (tr_TaskId info) →
  SubmitTaskResult addr info x = (Ok u, x') →
  avs_inv (x_avs x') ∧ avs_grows (x_avs x) (x_avs x').
Proof.
  intros Hinv Hid Hrun. apply SubmitTaskResult_Ok in Hrun as (r & Hacc & ->); [|done..].
  split; [|split; try done; eauto using same_task_refl]. split; try apply Hinv. cbn. apply map_Forall_insert_2.
  - by eapply accepted_wf.
  - intros key r' Hk. eapply result_wf_mono; [..|apply (ai_results _ Hinv _ _ Hk)]; done.
Qed.

(** ** The hook of x/epochs *)

Lemma by_task_spelled s addr :
  infos_inv (avsInfos s) → av_AvsAddress (GetAVSInfoByTaskAddress addr s) ≠ EmptyString →
  ∃ t, is_address t ∧ ToLower addr = lower_hex t.
Proof.
  intros Hinv Hne. destruct (by_task_found _ _ Hne) as (k & Hk & Htask & _).
  destruct (ii_wf _ Hinv _ _ Hk) as [_ _ (t & Ht & Haddr)]. exists t. by rewrite <-Htask.
Qed.

(** A group writes the statistics of its task, or nothing. *)
Lemma count_group_Ok group x u x' :
  avs_inv (x_avs x) → count_group group x = (Ok u, x') →
  x' = x ∨ ∃ taskAddr id t task avsAddr power, parseGroupKey group.1 = Ok (taskAddr, id) ∧
    is_address t ∧ ToLower taskAddr = lower_hex t ∧
    taskInfos (x_avs x) !! task_key (lower_hex t) (FormatUint id) = Some task ∧
    avsAddr = av_AvsAddress (GetAVSInfoByTaskAddress taskAddr (x_avs x)) ∧
    GetAVSUSDValue avsAddr (x_usd x) = Ok power ∧
    on_avs (SetTaskInfo (counted_task avsAddr power group.2 task x)) x = (Ok u, x').
Proof.
  intros Hinv. unfold count_group. destruct (parseGroupKey group.1) as [[taskAddr id]| |] eqn:Hp;
    [|intros Hrun; go_inv; by left..].
  intros Hrun. go_inv. destruct (bool_decide _) eqn:Hb; [go_inv; by left|]. test_facts. go_inv.
  destruct (by_task_spelled _ _ (ai_infos _ Hinv) Hb) as (t & Ht & Haddr).
  destruct (GetTaskInfo _ _ _) as [task| |] eqn:Htask; [|go_inv; by left..].
  destruct (GetAVSUSDValue _ _) as [power| |] eqn:Hpow; [|go_inv; by left..].
  destruct (power =? 0); [go_inv; by left|]. go_inv.
  apply (GetTaskInfo_Ok _ _ _ t) in Htask as [Htask _]; [|apply Hinv|done].
  assert (Hhex : common_IsHexAddress (tk_TaskContractAddress task) = true).
  { destruct (tw_num _ _ _ (proj2 (ai_tasks _ Hinv) _ _ Htask)) as (t' & _ & ? & -> & _).
    by apply IsHexAddress_lower_hex. }
  right. eexists taskAddr, id, t, task, _, power.
  do 4 (split; [done|]). split; [reflexivity|]. split; [done|].
  match goal with H : log_and_continue ?m ?s = _ |- _ =>
    unfold log_and_continue in H; destruct (m s) as [[[]|e|] s'] eqn:Hm end; [congruence| |done].
  exfalso. revert Hm. unfold on_avs, zoom, SetTaskInfo, fail_if. cbn [counted_task tk_TaskContractAddress].
  by rewrite Hhex.
Qed.

Lemma count_group_inv group x u x' :
  avs_inv (x_avs x) → count_group group x = (Ok u, x') →
  avs_inv (x_avs x') ∧ avs_grows (x_avs x) (x_avs x') ∧ taskResults (x_avs x') = taskResults (x_avs x).
Proof.
  intros Hinv Hrun. apply count_group_Ok in Hrun as
    [->|(taskAddr & id & t & task & avsAddr & power & _ & _ & _ & Htask & _ & _ & Hset)]; [done| |done].
  apply on_avs_Ok in Hset. eapply (SetTaskInfo_inv task); [done| | |exact Hset]; [|done].
  by rewrite <-(tw_key _ _ _ (proj2 (ai_tasks _ Hinv) _ _ Htask)).
Qed.

Lemma AfterEpochEnd_inv range id n x u x' :
  avs_inv (x_avs x) → avs_AfterEpochEnd range id n x = (Ok u, x') →
  avs_inv (x_avs x') ∧ avs_grows (x_avs x) (x_avs x') ∧ taskResults (x_avs x') = taskResults (x_avs x).
Proof.
  intros Hinv (l & x1 & [_ ->]%gets_Ok & Hrun)%bind_Ok.
  eapply (for_each_inv (λ x', avs_inv (x_avs x') ∧ avs_grows (x_avs x) (x_avs x') ∧
    taskResults (x_avs x') = taskResults (x_avs x))), Hrun; [|done].
  intros g x1 v x2 _ (H1 & H2 & H3) Hg. apply count_group_inv in Hg as (H4 & H5 & H6); [|done].
  split; [done|]. split; [by etrans|congruence].
Qed.
End Steps.
