(* ===== verification/AvsGenesis.v ===== *)
(** * Genesis of x/avs (types/genesis.go, keeper/genesis.go)

    Import, export and validation, and their round trip. *)

From S2P Require Import Prelude Errors Sdk RefSdk KVStore Epochs DelegationTypes Assets.
From S2P Require Import DelegationStore UndelegationStore Delegation OperatorTypes.
From S2P Require Import OperatorStore OperatorSnapshot OperatorKeepers OperatorUnbonding.
From S2P Require Import OperatorUSD ChainUtils AvsTypes AvsStore AvsInv AvsRegistry.
From S2P Require Import AvsWrites.

Record AvsGenesisState := {
  gs_AvsInfos : list AVSInfo;
  gs_TaskInfos : list TaskInfo;
  gs_BlsPubKeys : list BlsPubKeyInfo;
  gs_TaskResultInfos : list TaskResultInfo;
  gs_ChallengeInfos : list ChallengeInfo;
  gs_TaskNums : list TaskID;
  gs_ChainIdInfos : list ChainIDInfo;
}.

Definition Avs_DefaultGenesis : AvsGenesisState := {|
  gs_AvsInfos := []; gs_TaskInfos := []; gs_BlsPubKeys := []; gs_TaskResultInfos := [];
  gs_ChallengeInfos := []; gs_TaskNums := []; gs_ChainIdInfos := [] |}.

Section Genesis.
Context {sdk : Sdk} {chain : ChainSdk} {avs : AvsSdk} {R : Type} {peers : AvsPeers R}.
Abbreviation Y := (AvsExt R).
Abbreviation X := (OperatorExt Y).

(** ** Validation *)

(** A loop that refuses an invalid element and one whose key was seen before. *)
Fixpoint check_unique {A} (valid : A → bool) (key : A → string) (seen : gset string) (l : list A)
    : result error unit :=
  match l with
  | [] => Ok tt
  | x :: l =>
      if negb (valid x) then Err avstypes.ErrInvalidGenesis
      else if bool_decide (key x ∈ seen) then Err avstypes.ErrInvalidGenesis
      else check_unique valid key ({[key x]} ∪ seen) l
  end.

Definition valid_result (info : TaskResultInfo) : bool :=
  common_IsHexAddress (tr_TaskContractAddress info) &&
  is_some (AccAddressFromBech32 (tr_OperatorAddress info)).

Definition valid_bls (pub : BlsPubKeyInfo) : bool :=
  is_some (AccAddressFromBech32 (bk_OperatorAddress pub)) && is_some (bk_PubKey pub).

Definition stored_task_key (info : TaskInfo) : string :=
  task_key (tk_TaskContractAddress info) (FormatUint (tk_TaskId info)).
Definition stored_result_key (info : TaskResultInfo) : string :=
  result_key (tr_OperatorAddress info) (tr_TaskContractAddress info) (tr_TaskId info).

Definition AvsGenesis_Validate (gs : AvsGenesisState) : result error unit :=
  _ ← check_unique (λ info, common_IsHexAddress (av_AvsAddress info)) av_AvsAddress ∅ (gs_AvsInfos gs);
  _ ← check_unique (λ info, common_IsHexAddress (tk_TaskContractAddress info)) stored_task_key ∅
        (gs_TaskInfos gs);
  _ ← check_unique (λ num, common_IsHexAddress (ti_TaskAddress num))
        (λ num, task_key (ti_TaskAddress num) (FormatUint (ti_TaskId num))) ∅ (gs_TaskNums gs);
  _ ← check_unique valid_bls (λ pub, bytes_of (bk_PubKey pub)) ∅ (gs_BlsPubKeys gs);
  _ ← check_unique valid_result stored_result_key ∅ (gs_TaskResultInfos gs);
  _ ← check_unique (λ _, true) ch_Key ∅ (gs_ChallengeInfos gs);
  check_unique (λ info, common_IsHexAddress (ci_AvsAddress info)) ci_AvsAddress ∅ (gs_ChainIdInfos gs).

(** ** Import *)

Definition lower_avs (info : AVSInfo) : AVSInfo := {|
  av_Name := av_Name info; av_AvsAddress := ToLower (av_AvsAddress info);
  av_MinStakeAmount := av_MinStakeAmount info; av_TaskAddress := ToLower (av_TaskAddress info);
  av_SlashAddress := ToLower (av_SlashAddress info);
  av_RewardAddress := ToLower (av_RewardAddress info);
  av_AvsOwnerAddresses := av_AvsOwnerAddresses info; av_AssetIDs := av_AssetIDs info;
  av_AvsUnbondingPeriod := av_AvsUnbondingPeriod info;
  av_MinSelfDelegation := av_MinSelfDelegation info;
  av_EpochIdentifier := av_EpochIdentifier info; av_MinOptInOperators := av_MinOptInOperators info;
  av_MinTotalStakeAmount := av_MinTotalStakeAmount info;
  av_StartingEpoch := av_StartingEpoch info; av_ChainId := av_ChainId info;
  av_AvsReward := av_AvsReward info; av_AvsSlash := av_AvsSlash info;
  av_AssetRewardAmountEpochBasis := av_AssetRewardAmountEpochBasis info;
  av_WhitelistAddresses := av_WhitelistAddresses info;
  av_RewardAssetList := av_RewardAssetList info |}.

Definition lower_task (task : TaskInfo) : TaskInfo := {|
  tk_TaskContractAddress := ToLower (tk_TaskContractAddress task); tk_Name := tk_Name task;
  tk_Hash := tk_Hash task; tk_TaskId := tk_TaskId task;
  tk_TaskResponsePeriod := tk_TaskResponsePeriod task;
  tk_TaskStatisticalPeriod := tk_TaskStatisticalPeriod task;
  tk_TaskChallengePeriod := tk_TaskChallengePeriod task;
  tk_ThresholdPercentage := tk_ThresholdPercentage task;
  tk_StartingEpoch := tk_StartingEpoch task; tk_ActualThreshold := tk_ActualThreshold task;
  tk_OptInOperators := tk_OptInOperators task; tk_SignedOperators := tk_SignedOperators task;
  tk_NoSignedOperators := tk_NoSignedOperators task;
  tk_ErrSignedOperators := tk_ErrSignedOperators task;
  tk_TaskTotalPower := tk_TaskTotalPower task;
  tk_OperatorActivePower := tk_OperatorActivePower task; tk_IsExpected := tk_IsExpected task;
  tk_EligibleRewardOperators := tk_EligibleRewardOperators task;
  tk_EligibleSlashOperators := tk_EligibleSlashOperators task |}.

Definition lower_result (info : TaskResultInfo) : TaskResultInfo := {|
  tr_OperatorAddress := tr_OperatorAddress info;
  tr_TaskResponseHash := tr_TaskResponseHash info; tr_TaskResponse := tr_TaskResponse info;
  tr_BlsSignature := tr_BlsSignature info;
  tr_TaskContractAddress := ToLower (tr_TaskContractAddress info);
  tr_TaskId := tr_TaskId info; tr_Phase := tr_Phase info |}.

(** What is written to the store of the module. *)
Definition avs_import (state : AvsGenesisState) : M AvsState error unit :=
  _ ← for_each (gs_AvsInfos state) (λ info, must (SetAVSInfo (lower_avs info)));
  _ ← for_each (gs_TaskInfos state) (λ elem, must (SetTaskInfo (lower_task elem)));
  _ ← for_each (gs_BlsPubKeys state) (λ elem, must (SetOperatorPubKey elem));
  _ ← for_each (gs_TaskNums state) (λ elem,
        SetTaskID (HexToAddress (ToLower (ti_TaskAddress elem))) (ti_TaskId elem));
  _ ← for_each (gs_TaskResultInfos state) (λ elem, SetTaskResultInfo (lower_result elem));
  _ ← must (SetAllTaskChallengedInfo (gs_ChallengeInfos state));
  for_each (gs_ChainIdInfos state) (λ elem,
    SetAVSAddrToChainID (HexToAddress (ToLower (ci_AvsAddress elem))) (ci_ChainId elem)).

Definition Avs_InitGenesis (state : AvsGenesisState) : M X error unit :=
  _ ← on_peers (modify (evm_SetCode ChainIDCodeHash ChainIDCode));
  on_avs (avs_import state).

(** ** Export *)

Definition Avs_ExportGenesis (s : AvsState) : result error AvsGenesisState :=
  match GetAllBlsPubKeys s, GetAllChallengeInfos s with
  | Ok pubs, Ok challenges => Ok {|
      gs_AvsInfos := GetAllAVSInfos s; gs_TaskInfos := GetAllTaskInfos s; gs_BlsPubKeys := pubs;
      gs_TaskResultInfos := GetAllTaskResultInfos s; gs_ChallengeInfos := challenges;
      gs_TaskNums := GetAllTaskNums s; gs_ChainIdInfos := GetAllChainIDInfos s |}
  | _, _ => Panic
  end.
End Genesis.

(** ** The genesis of x/avs, there and back

    What is exported from a store passes validation, and importing it rebuilds the store,
    with the addresses of AVSs and results in lower case and without the parameters, which
    no genesis has. *)

(** ** Loops that fill a store *)

(** Entries of a store, written one by one into an empty one, rebuild it when they are all
    there. *)
Lemma insert_all_rebuild {V} (l : list (string * V)) (m : gmap string V) :
  (∀ k v, (k, v) ∈ l → m !! k = Some v) → (∀ k v, m !! k = Some v → k ∈ l.*1) → insert_all l ∅ = m.
Proof.
  intros Hl Hm.
  assert (Hsub : ∀ m0, m0 ⊆ m → insert_all l m0 ⊆ m ∧ dom m0 ⊆ dom (insert_all l m0) ∧
    ∀ k, k ∈ l.*1 → k ∈ dom (insert_all l m0)).
  { clear Hm. induction l as [|[k v] l IH]; intros m0 Hm0; cbn [insert_all foldl].
    { split; [done|]. split; [done|]. by intros ? ?%not_elem_of_nil. }
    destruct (IH (λ k' v' Hin, Hl k' v' (list_elem_of_further _ _ _ Hin)) (<[k := v]> m0)) as (H1 & H2 & H3).
    { apply insert_subseteq_l; [apply Hl, list_elem_of_here|done]. }
    split; [done|]. split; [etrans; [apply dom_insert_subseteq|done]|].
    intros k' [->|Hk']%elem_of_cons; [|by apply H3]. apply H2, elem_of_dom. cbn. by rewrite lookup_insert_eq. }
  destruct (Hsub ∅ (map_empty_subseteq _)) as (H1 & _ & H3).
  apply (anti_symm (⊆)); [done|]. apply map_subseteq_spec. intros k v Hk.
  destruct (proj1 (elem_of_dom _ _) (H3 k (Hm _ _ Hk))) as [v' Hv']. rewrite Hv'.
  pose proof (lookup_weaken _ _ _ _ Hv' H1). congruence.
Qed.

(** A loop that inserts one entry per step. *)
Lemma insert_loop {S A V} (set : (gmap string V → gmap string V) → S → S) (f : A → M S error unit)
    (entry : A → string * V) l s :
  (∀ g h s, set g (set h s) = set (λ m, g (h m)) s) → (∀ s, set (λ m, m) s = s) →
  (∀ e, e ∈ l → ∀ s, f e s = (Ok tt, set (insert (entry e).1 (entry e).2) s)) →
  for_each l f s = (Ok tt, set (insert_all (entry <$> l)) s).
Proof.
  intros Hset Hid. revert s. induction l as [|e l IH]; intros s Hf; [cbn; by rewrite Hid|].
  cbn [for_each]. erewrite bind_run by (apply Hf, list_elem_of_here).
  rewrite IH by (intros e' He'; apply Hf; by apply list_elem_of_further). by rewrite Hset.
Qed.

(** The loop over the entries of a store, which writes what [g] makes of each. *)
Lemma import_loop {S A V W} (set : (gmap string W → gmap string W) → S → S) (f : A → M S error unit)
    (el : string * V → A) (g : V → W) (m : gmap string V) s :
  (∀ g h s, set g (set h s) = set (λ m, g (h m)) s) → (∀ s, set (λ m, m) s = s) →
  (∀ k v, m !! k = Some v → ∀ s, f (el (k, v)) s = (Ok tt, set (insert k (g v)) s)) →
  for_each (el <$> prefix_iterator EmptyString m) f s =
    (Ok tt, set (insert_all ((λ kv, (kv.1, g kv.2)) <$> prefix_iterator EmptyString m)) s).
Proof.
  intros Hset Hid Hf. rewrite for_each_fmap. apply (insert_loop set); [done..|].
  intros [k v] Hk%elem_of_iterator_all. by apply Hf.
Qed.

Lemma insert_all_fmap {V W} (g : V → W) (m : gmap string V) :
  insert_all ((λ kv, (kv.1, g kv.2)) <$> prefix_iterator EmptyString m) ∅ = g <$> m.
Proof.
  apply insert_all_rebuild.
  - intros k w ([k' v] & [= -> ->] & Hk%elem_of_iterator_all)%list_elem_of_fmap. by rewrite lookup_fmap, Hk.
  - intros k w (v & <- & Hk)%lookup_fmap_Some. apply list_elem_of_fmap. exists (k, g v). split; [done|].
    apply list_elem_of_fmap. exists (k, v). split; [done|]. by apply elem_of_iterator_all.
Qed.

Lemma insert_all_id {V} (m : gmap string V) :
  insert_all ((λ kv, (kv.1, id kv.2)) <$> prefix_iterator EmptyString m) ∅ = m.
Proof. rewrite (insert_all_fmap id). apply map_fmap_id. Qed.

Lemma AvsState_eq (s s' : AvsState) :
  avsInfos s = avsInfos s' → taskInfos s = taskInfos s' → operatorPubs s = operatorPubs s' →
  avsChainIDs s = avsChainIDs s' → latestTaskNums s = latestTaskNums s' → taskResults s = taskResults s' →
  taskChallenges s = taskChallenges s' → avsParams s = avsParams s' → s = s'.
Proof. destruct s, s'. cbn. congruence. Qed.

(** ** Validation loops *)

Lemma check_unique_Ok {A} (valid : A → bool) (key : A → string) l seen :
  (∀ e, e ∈ l → valid e = true) → NoDup (key <$> l) → (∀ e, e ∈ l → key e ∉ seen) →
  check_unique valid key seen l = Ok tt.
Proof.
  revert seen. induction l as [|e l IH]; intros seen Hv Hnd Hs; [done|]. cbn [check_unique].
  rewrite Hv by apply list_elem_of_here. cbn. rewrite fmap_cons in Hnd. apply NoDup_cons in Hnd as [He Hnd].
  rewrite bool_decide_false by apply Hs, list_elem_of_here. apply IH; [|done|].
  - intros e' He'. by apply Hv, list_elem_of_further.
  - intros e' He' [Heq%elem_of_singleton|Hin]%elem_of_union.
    + apply He. rewrite <-Heq. by apply list_elem_of_fmap_2.
    + by apply (Hs e'), Hin; apply list_elem_of_further.
Qed.

(** The entries of a store have distinct keys. *)
Lemma check_entries {A V} (valid : A → bool) (key : A → string) (el : string * V → A) (m : gmap string V) :
  (∀ k v, m !! k = Some v → valid (el (k, v)) = true) →
  (∀ k v k' v', m !! k = Some v → m !! k' = Some v' → key (el (k, v)) = key (el (k', v')) → k = k') →
  check_unique valid key ∅ (el <$> prefix_iterator EmptyString m) = Ok tt.
Proof.
  intros Hv Hkey. apply check_unique_Ok; [|rewrite <-list_fmap_compose; apply NoDup_fmap_2_strong|].
  - intros e ([k v] & -> & Hk%elem_of_iterator_all)%list_elem_of_fmap. by apply Hv.
  - intros [k v] [k' v'] Hk%elem_of_iterator_all Hk'%elem_of_iterator_all Heq.
    cbn in Heq. assert (k = k') as <- by by eapply Hkey. congruence.
  - eapply NoDup_fmap_1, prefix_iterator_NoDup_keys.
  - intros e _ []%not_elem_of_empty.
Qed.

Section RoundTrip.
Context {sdk : Sdk} {chain : ChainSdk} {avs : AvsSdk} {R : Type} {peers : AvsPeers R}.
Context {laws : SdkLaws sdk} {al : AddressLaws sdk chain} {avsl : AvsSdkLaws avs}.
Implicit Types (s : AvsState) (x : OperatorExt (AvsExt R)).

Definition avs_empty : AvsState := {|
  avsInfos := ∅; taskInfos := ∅; operatorPubs := ∅; avsChainIDs := ∅; latestTaskNums := ∅;
  taskResults := ∅; taskChallenges := ∅; avsParams := None |}.

(** What the import of an export gives. *)
Definition reimported s : AvsState := {|
  avsInfos := lower_avs <$> avsInfos s; taskInfos := taskInfos s; operatorPubs := operatorPubs s;
  avsChainIDs := avsChainIDs s; latestTaskNums := latestTaskNums s;
  taskResults := lower_result <$> taskResults s; taskChallenges := taskChallenges s; avsParams := None |}.

(** ** BLS keys *)

Abbreviation pub_of := (λ p : string * string * string, pub_info p.1.1 p.1.2 p.2).
Abbreviation pub_entry := (λ p : string * string * string, pub_key_of p.1.1 (lower_hex p.1.2)).

Lemma decoded_pub m op t bz :
  has_key m op t bz → Unmarshal_BlsPubKeyInfo (Marshal_BlsPubKeyInfo (pub_info op t bz)) = Some (pub_info op t bz).
Proof.
  intros [_ _ [key Hkey%bls_key_length] _]. rewrite bls_codec. unfold decoded_bls, decoded_bytes. cbn.
  by rewrite bool_decide_false by (intros ->; done).
Qed.

(** The encoding of a key is longer than the key of the store. *)
Lemma entry_not_raw m op t bz :
  has_key m op t bz → pub_key_of op (lower_hex t) ≠ Marshal_BlsPubKeyInfo (pub_info op t bz).
Proof.
  intros [Hop Ht [key Hkey%bls_key_length] _] Heq%(f_equal String.length).
  pose proof (bls_size (pub_info op t bz)) as Hsize. rewrite <-Heq in Hsize. cbn in Hsize.
  unfold pub_key_of, GetJoinedStoreKey in Hsize. cbn [join_with] in Hsize.
  rewrite AccAddress_String_lower, lower_hex_lower, !length_app_str in Hsize. cbn in Hsize. lia.
Qed.

(** The export lists the keys in the order of the store. *)
Lemma decode_pubs_Ok m entries :
  pubs_inv m → (∀ k v, (k, v) ∈ entries → m !! k = Some v) →
  ∃ l, decode_pubs entries = Ok (pub_of <$> l) ∧ (pub_entry <$> l) `sublist_of` entries.*1 ∧
    (∀ p, p ∈ l → has_key m p.1.1 p.1.2 p.2) ∧
    (∀ op t bz, has_key m op t bz → pub_key_of op (lower_hex t) ∈ entries.*1 → (op, t, bz) ∈ l).
Proof.
  intros Hinv. induction entries as [|[k v] entries IH]; intros Hent.
  { exists []. split; [done|]. split; [done|]. split; [by intros ? ?%not_elem_of_nil|]. by intros ???? ?%not_elem_of_nil. }
  destruct IH as (l & Hl & Hsub & Hkeys & Hall); [intros k' v' Hin; by apply Hent, list_elem_of_further|].
  cbn [decode_pubs]. pose proof (Hent _ _ (list_elem_of_here _ _)) as Hk.
  destruct (pu_entries _ Hinv _ _ Hk) as [(-> & op0 & t0 & Hraw)|(op & t & bz & Hkey & ->)].
  - rewrite bool_decide_true by done. exists l. split; [done|]. split; [by apply sublist_cons|]. split; [done|].
    intros op t bz Hkey [Heq|Hin]%elem_of_cons; [|by apply Hall]. exfalso.
    apply (raw_key_ne op t k); [apply Hkey|apply Hkey|by eapply hk_parsed|done].
  - pose proof (hk_entry _ _ _ _ Hkey) as He. assert (v = Marshal_BlsPubKeyInfo (pub_info op t bz)) as -> by congruence.
    rewrite bool_decide_false by by eapply entry_not_raw. rewrite (decoded_pub _ _ _ _ Hkey), Hl.
    exists ((op, t, bz) :: l). split; [done|]. split; [by apply sublist_skip|]. split.
    + intros p [->|Hp]%elem_of_cons; [done|by apply Hkeys].
    + intros op' t' bz' Hkey' [Heq|Hin]%elem_of_cons; [|by apply list_elem_of_further, Hall].
      apply elem_of_cons. left. apply pub_key_of_inj in Heq as [-> ->]; try apply Hkey; try apply Hkey'.
      f_equal. pose proof (hk_entry _ _ _ _ Hkey') as He'. rewrite He in He'. injection He' as He'.
      symmetry. eapply Marshal_inj, He'; [apply Hkey|apply Hkey'].
Qed.

Lemma SetOperatorPubKey_run m op t bz s :
  has_key m op t bz →
  must (SetOperatorPubKey (pub_info op t bz)) s = (Ok tt, set_operatorPubs (insert_all
    [(pub_key_of op (lower_hex t), Marshal_BlsPubKeyInfo (pub_info op t bz)); (bz, bz)]) s).
Proof.
  intros [Hop _ [key Hkey%bls_key_length] _]. apply must_run. unfold SetOperatorPubKey. cbn [bk_OperatorAddress pub_info].
  rewrite bech32_roundtrip by done. unfold mbind, M_bind, modify, gets, lift_result, store_set. cbn.
  by rewrite bool_decide_false by (intros ->; done).
Qed.

Lemma import_pubs m l s :
  (∀ p, p ∈ l → has_key m p.1.1 p.1.2 p.2) →
  for_each (pub_of <$> l) (λ elem, must (SetOperatorPubKey elem)) s =
    (Ok tt, set_operatorPubs (insert_all (l ≫= λ p,
      [(pub_entry p, Marshal_BlsPubKeyInfo (pub_of p)); (p.2, p.2)])) s).
Proof.
  revert s. induction l as [|p l IH]; intros s Hl; [by destruct s|]. cbn [fmap list_fmap for_each].
  erewrite bind_run by (eapply SetOperatorPubKey_run, Hl, list_elem_of_here).
  rewrite IH by (intros p' Hp'; by apply Hl, list_elem_of_further). done.
Qed.

Lemma rebuild_pubs m l :
  pubs_inv m → (∀ p, p ∈ l → has_key m p.1.1 p.1.2 p.2) → (∀ op t bz, has_key m op t bz → (op, t, bz) ∈ l) →
  insert_all (l ≫= λ p, [(pub_entry p, Marshal_BlsPubKeyInfo (pub_of p)); (p.2, p.2)]) ∅ = m.
Proof.
  intros Hinv Hl Hall. apply insert_all_rebuild.
  - intros k v (p & Hin & Hp%Hl)%list_elem_of_bind. 
    rewrite !elem_of_cons in Hin. destruct Hin as [[= -> ->]|[[= -> ->]|[]%not_elem_of_nil]]; [apply Hp|].
    by eapply pu_raw.
  - intros k v Hk. apply list_elem_of_fmap.
    destruct (pu_entries _ Hinv _ _ Hk) as [(-> & op & t & Hkey)|(op & t & bz & Hkey & ->)].
    + exists (k, k). split; [done|]. apply list_elem_of_bind. exists (op, t, k). split; [|by apply Hall].
      apply list_elem_of_further, list_elem_of_here.
    + eexists (_, _). split; [reflexivity|]. apply list_elem_of_bind. exists (op, t, bz). split; [|by apply Hall].
      apply list_elem_of_here.
Qed.

(** ** Challenges *)

Lemma challenge_infos_Ok entries :
  (∀ k c, (k, c) ∈ entries → c ≠ EmptyString) →
  challenge_infos entries = Ok ((λ kv, {| ch_Key := kv.1; ch_ChallengeAddress := AccAddress_String kv.2 |}) <$> entries).
Proof.
  induction entries as [|[k c] entries IH]; intros Hne; [done|]. cbn [challenge_infos].
  rewrite bool_decide_false by eapply Hne, list_elem_of_here.
  rewrite IH by (intros k' c' Hin; by eapply Hne, list_elem_of_further). done.
Qed.

(** ** Tasks and results *)

Lemma lower_task_id nums key task : task_wf nums key task → lower_task task = task.
Proof.
  intros [_ _ (t & n & _ & Haddr & _)]. unfold lower_task. rewrite Haddr, lower_hex_lower. destruct task.
  cbn in *. by subst.
Qed.

Lemma fmap_lower_task s : tasks_inv s → lower_task <$> taskInfos s = taskInfos s.
Proof.
  intros [_ Ht]. rewrite <-(map_fmap_id (taskInfos s)) at 2. apply map_fmap_ext. intros k task Hk.
  by eapply lower_task_id, Ht.
Qed.

Lemma decoded_lower r : decoded_result r = r → decoded_result (lower_result r) = lower_result r.
Proof. destruct r. unfold decoded_result, lower_result. cbn. congruence. Qed.

(** ** The export *)

Definition exported s (l : list (string * string * string)) : AvsGenesisState := {|
  gs_AvsInfos := GetAllAVSInfos s; gs_TaskInfos := GetAllTaskInfos s; gs_BlsPubKeys := pub_of <$> l;
  gs_TaskResultInfos := GetAllTaskResultInfos s;
  gs_ChallengeInfos := (λ kv, {| ch_Key := kv.1; ch_ChallengeAddress := AccAddress_String kv.2 |}) <$>
    prefix_iterator EmptyString (taskChallenges s);
  gs_TaskNums := GetAllTaskNums s; gs_ChainIdInfos := GetAllChainIDInfos s |}.

Lemma ExportGenesis_Ok s :
  avs_inv s → ∃ l, Avs_ExportGenesis s = Ok (exported s l) ∧ NoDup (pub_entry <$> l) ∧
    (∀ p, p ∈ l → has_key (operatorPubs s) p.1.1 p.1.2 p.2) ∧
    (∀ op t bz, has_key (operatorPubs s) op t bz → (op, t, bz) ∈ l).
Proof.
  intros Hinv. destruct (decode_pubs_Ok (operatorPubs s) (prefix_iterator EmptyString (operatorPubs s)))
    as (l & Hl & Hsub & Hkeys & Hall); [apply Hinv|by intros k v ?%elem_of_iterator_all|].
  exists l. split; [|split; [eapply sublist_NoDup; [|exact Hsub]; apply prefix_iterator_NoDup_keys|split; [done|]]].
  - unfold Avs_ExportGenesis, GetAllBlsPubKeys, GetAllChallengeInfos. rewrite Hl, challenge_infos_Ok; [done|].
    intros k c Hk%elem_of_iterator_all. by destruct (ai_challenges _ Hinv _ _ Hk) as [_ [? _]].
  - intros op t bz Hkey. apply Hall; [done|]. apply list_elem_of_fmap. eexists (_, _). split; [reflexivity|].
    by apply elem_of_iterator_all, Hkey.
Qed.

(** Distinct operators and AVSs have distinct keys. *)
Lemma NoDup_bytes m l :
  pubs_inv m → NoDup (pub_entry <$> l) → (∀ p, p ∈ l → has_key m p.1.1 p.1.2 p.2) →
  NoDup ((λ pub, bytes_of (bk_PubKey pub)) <$> (pub_of <$> l)).
Proof.
  intros Hinv Hnd Hl. rewrite <-list_fmap_compose. apply NoDup_fmap_2_strong; [|by eapply NoDup_fmap_1].
  intros [[op t] bz] [[op' t'] bz'] Hp%Hl Hp'%Hl Heq. cbn in *. subst bz'.
  by destruct (pu_unique _ Hinv _ _ _ _ _ Hp Hp') as [-> ->].
Qed.

Lemma Validate_exported s l :
  avs_inv s → NoDup (pub_entry <$> l) → (∀ p, p ∈ l → has_key (operatorPubs s) p.1.1 p.1.2 p.2) →
  AvsGenesis_Validate (exported s l) = Ok tt.
Proof.
  intros Hinv Hnd Hl. unfold AvsGenesis_Validate, exported. cbn [gs_AvsInfos gs_TaskInfos gs_BlsPubKeys
    gs_TaskResultInfos gs_ChallengeInfos gs_TaskNums gs_ChainIdInfos].
  unfold GetAllAVSInfos, IterateAVSInfo, GetAllTaskInfos, IterateTaskAVSInfo, GetAllTaskNums,
    GetAllTaskResultInfos, IterateResultInfo, GetAllChainIDInfos.
  rewrite !check_entries, check_unique_Ok; [done|..]; cbn beta iota delta [snd fst].
  - intros e (p & -> & Hp%Hl)%list_elem_of_fmap. unfold valid_bls. cbn. by rewrite bech32_roundtrip by apply Hp.
  - apply (NoDup_bytes (operatorPubs s)); [apply Hinv|done..].
  - intros e _ []%not_elem_of_empty.
  - intros k v Hk. destruct (ii_wf _ (ai_infos _ Hinv) _ _ Hk) as [Ha Hkey _].
    by apply (IsHexAddress_spelled _ k).
  - intros k v k' v' Hk Hk' Heq. destruct (ii_wf _ (ai_infos _ Hinv) _ _ Hk) as [Ha Hkey _].
    destruct (ii_wf _ (ai_infos _ Hinv) _ _ Hk') as [Ha' Hkey' _]. apply lower_hex_inj; [done..|congruence].
  - intros k v Hk. destruct (tw_num _ _ _ (proj2 (ai_tasks _ Hinv) _ _ Hk)) as (t & n & Ht & -> & _).
    by apply IsHexAddress_lower_hex.
  - intros k v k' v' Hk Hk' Heq. rewrite (tw_key _ _ _ (proj2 (ai_tasks _ Hinv) _ _ Hk)).
    by rewrite (tw_key _ _ _ (proj2 (ai_tasks _ Hinv) _ _ Hk')).
  - intros t n (Ht & _)%(proj1 (ai_tasks _ Hinv)). cbn. rewrite BytesToAddress_id by done. by apply IsHexAddress_lower_hex.
  - intros t n t' n' (Ht & _ & ?)%(proj1 (ai_tasks _ Hinv)) (Ht' & _ & ?)%(proj1 (ai_tasks _ Hinv)). cbn.
    rewrite !BytesToAddress_id by done. intros []%task_key_inj; try done; unfold is_u64; lia.
  - intros k r Hk. destruct (ai_results _ Hinv _ _ Hk) as [_ Hop (t & Ht & _ & Haddr & _) _ _]. unfold valid_result.
    rewrite (IsHexAddress_spelled _ t) by done. cbn. by apply is_some_true.
  - intros k r k' r' Hk Hk' Heq. by rewrite (rw_key _ _ _ (ai_results _ Hinv _ _ Hk)), (rw_key _ _ _ (ai_results _ Hinv _ _ Hk')).
  - done.
  - done.
  - intros k c Hk%(ai_chains _ Hinv). cbn. rewrite BytesToAddress_id by done. by apply IsHexAddress_lower_hex.
  - intros k c k' c' Hk%(ai_chains _ Hinv) Hk'%(ai_chains _ Hinv). cbn. rewrite !BytesToAddress_id by done.
    by apply lower_hex_inj.
Qed.

(** ** The import *)

Lemma import_avs_infos s s0 :
  infos_inv (avsInfos s) →
  for_each (GetAllAVSInfos s) (λ info, must (SetAVSInfo (lower_avs info))) s0 =
    (Ok tt, set_avsInfos (insert_all ((λ kv, (kv.1, lower_avs kv.2)) <$> prefix_iterator EmptyString (avsInfos s))) s0).
Proof.
  intros Hinv. apply (import_loop set_avsInfos); [done|by intros []|]. intros k v Hk s1. apply must_run.
  destruct (ii_wf _ Hinv _ _ Hk) as [Ha Hkey _]. unfold SetAVSInfo. cbn [av_AvsAddress lower_avs snd].
  by rewrite HexToAddress_lower, (HexToAddress_spelled _ k).
Qed.

Lemma import_tasks s s0 :
  tasks_inv s →
  for_each (GetAllTaskInfos s) (λ elem, must (SetTaskInfo (lower_task elem))) s0 =
    (Ok tt, set_taskInfos (insert_all ((λ kv, (kv.1, lower_task kv.2)) <$> prefix_iterator EmptyString (taskInfos s))) s0).
Proof.
  intros Hinv. apply (import_loop set_taskInfos); [done|by intros []|]. intros k v Hk s1. apply must_run.
  pose proof (proj2 Hinv _ _ Hk) as Hwf. cbn [snd]. rewrite !(lower_task_id _ _ _ Hwf).
  destruct Hwf as [_ Hkey (t & n & Ht & Haddr & _)]. unfold SetTaskInfo, fail_if, mbind, M_bind, modify.
  rewrite Haddr, IsHexAddress_lower_hex by done. cbn [negb]. by rewrite <-Haddr, <-Hkey.
Qed.

Lemma import_nums s s0 :
  nums_inv (latestTaskNums s) →
  for_each (GetAllTaskNums s) (λ elem, SetTaskID (HexToAddress (ToLower (ti_TaskAddress elem))) (ti_TaskId elem)) s0 =
    (Ok tt, set_latestTaskNums (insert_all ((λ kv, (kv.1, id kv.2)) <$> prefix_iterator EmptyString (latestTaskNums s))) s0).
Proof.
  intros Hinv. apply (import_loop set_latestTaskNums); [done|by intros []|]. intros t n (Ht & Hz & _)%Hinv s1. cbn.
  rewrite HexToAddress_lower, HexToAddress_lower, BytesToAddress_id, HexToAddress_Hex by done.
  unfold SetTaskID. by rewrite bool_decide_false.
Qed.

Lemma import_results s s0 :
  map_Forall (result_wf s) (taskResults s) →
  for_each (GetAllTaskResultInfos s) (λ elem, SetTaskResultInfo (lower_result elem)) s0 =
    (Ok tt, set_taskResults (insert_all ((λ kv, (kv.1, lower_result kv.2)) <$> prefix_iterator EmptyString (taskResults s))) s0).
Proof.
  intros Hinv. apply (import_loop set_taskResults); [done|by intros []|]. intros k r Hk s1.
  destruct (Hinv _ _ Hk) as [-> [op Hop] (t & Ht & _ & Haddr & _) _ Hdec].
  unfold SetTaskResultInfo. cbn [tr_OperatorAddress tr_TaskContractAddress tr_TaskId lower_result snd].
  rewrite Hop, Haddr, IsHexAddress_lower_hex by done. cbn [negb]. rewrite (decoded_lower _ Hdec), <-Haddr.
  unfold result_key. by rewrite ToLower_idemp.
Qed.

Lemma import_challenges s s0 :
  map_Forall (λ k c, k ≠ EmptyString ∧ valid_addr c) (taskChallenges s) →
  must (SetAllTaskChallengedInfo ((λ kv, {| ch_Key := kv.1; ch_ChallengeAddress := AccAddress_String kv.2 |}) <$>
    prefix_iterator EmptyString (taskChallenges s))) s0 =
    (Ok tt, set_taskChallenges (insert_all ((λ kv, (kv.1, id kv.2)) <$> prefix_iterator EmptyString (taskChallenges s))) s0).
Proof.
  intros Hinv. apply must_run, (import_loop set_taskChallenges); [done|by intros []|]. intros k c [Hk Hc]%Hinv s1. cbn.
  rewrite bech32_roundtrip by done. unfold gets, lift_result, store_set, mbind, M_bind, modify.
  by rewrite bool_decide_false.
Qed.

Lemma import_chain_ids s s0 :
  map_Forall (λ k _, is_address k) (avsChainIDs s) →
  for_each (GetAllChainIDInfos s) (λ elem,
    SetAVSAddrToChainID (HexToAddress (ToLower (ci_AvsAddress elem))) (ci_ChainId elem)) s0 =
    (Ok tt, set_avsChainIDs (insert_all ((λ kv, (kv.1, id kv.2)) <$> prefix_iterator EmptyString (avsChainIDs s))) s0).
Proof.
  intros Hinv. apply (import_loop set_avsChainIDs); [done|by intros []|]. intros k c Hk%Hinv s1. cbn.
  by rewrite HexToAddress_lower, HexToAddress_lower, BytesToAddress_id, HexToAddress_Hex by done.
Qed.

Lemma import_exported s l :
  avs_inv s → (∀ p, p ∈ l → has_key (operatorPubs s) p.1.1 p.1.2 p.2) →
  (∀ op t bz, has_key (operatorPubs s) op t bz → (op, t, bz) ∈ l) →
  avs_import (exported s l) avs_empty = (Ok tt, reimported s).
Proof.
  intros Hinv Hl Hall. unfold avs_import, exported. cbn [gs_AvsInfos gs_TaskInfos gs_BlsPubKeys
    gs_TaskResultInfos gs_ChallengeInfos gs_TaskNums gs_ChainIdInfos].
  erewrite bind_run by apply import_avs_infos, Hinv. erewrite bind_run by apply import_tasks, Hinv.
  erewrite bind_run by by apply (import_pubs (operatorPubs s)). erewrite bind_run by apply import_nums, Hinv.
  erewrite bind_run by apply import_results, Hinv. erewrite bind_run by apply import_challenges, Hinv.
  rewrite import_chain_ids by apply Hinv. f_equal. apply AvsState_eq; [..|done].
  - exact (insert_all_fmap lower_avs _).
  - exact (eq_trans (insert_all_fmap lower_task (taskInfos s)) (fmap_lower_task s (ai_tasks _ Hinv))).
  - apply (rebuild_pubs (operatorPubs s)); [apply Hinv|done..].
  - exact (insert_all_id _).
  - exact (insert_all_id _).
  - exact (insert_all_fmap lower_result _).
  - exact (insert_all_id _).
Qed.

(** ** The invariant of what is imported *)

Lemma lower_avs_wf k info : avs_wf k info → avs_wf k (lower_avs info).
Proof.
  intros [Ha Hkey (t & Ht & Haddr)]. split; [done|cbn; by rewrite ToLower_idemp|]. exists t. split; [done|].
  cbn. by rewrite Haddr, lower_hex_lower.
Qed.

Lemma lower_result_wf s s' key r :
  operatorPubs s' = operatorPubs s → taskInfos s' = taskInfos s → result_wf s key r → result_wf s' key (lower_result r).
Proof.
  intros Hp Ht [Hkey Hop (t & Hta & Hid & Haddr & Htask) Hphase Hdec].
  split; [|done| |by rewrite Hp|by apply decoded_lower].
  - rewrite Hkey. unfold result_key. cbn. by rewrite ToLower_idemp.
  - exists t. cbn. rewrite ToLower_idemp, Ht. done.
Qed.

Lemma reimported_inv s : avs_inv s → avs_inv (reimported s).
Proof.
  intros Hinv. split; try apply Hinv.
  - split.
    + intros k i (i' & <- & Hk)%lookup_fmap_Some. apply lower_avs_wf. exact (ii_wf _ (ai_infos _ Hinv) _ _ Hk).
    + intros k k' i i' (j & <- & Hk)%lookup_fmap_Some (j' & <- & Hk')%lookup_fmap_Some. cbn.
      destruct (ii_wf _ (ai_infos _ Hinv) _ _ Hk) as [_ _ (t & _ & Ht)].
      destruct (ii_wf _ (ai_infos _ Hinv) _ _ Hk') as [_ _ (t' & _ & Ht')].
      rewrite Ht, Ht', !lower_hex_lower, <-Ht, <-Ht'. by apply (ii_task _ (ai_infos _ Hinv)).
  - intros key r (r' & <- & Hk)%lookup_fmap_Some. by apply (lower_result_wf s), (ai_results _ Hinv).
Qed.

(** C30.  Restarting x/avs from its exported state.  From every reachable state, the export
    succeeds and passes validation, and importing it into an empty store gives the store
    back, AVS for AVS, task for task, key for key and result for result, with the addresses
    of AVSs and results in lower case and without parameters; the invariant holds of it, and
    the only other effect is that the code of a chain AVS is installed. *)
Theorem avs_genesis_roundtrip s x :
  avs_inv s → x_avs x = avs_empty →
  ∃ gs, Avs_ExportGenesis s = Ok gs ∧ AvsGenesis_Validate gs = Ok tt ∧
    avs_inv (reimported s) ∧
    Avs_InitGenesis gs x = (Ok tt, put_rest {| ae_avs := reimported s;
      ae_rest := evm_SetCode ChainIDCodeHash ChainIDCode (ae_rest (oe_rest x)) |} x).
Proof.
  intros Hinv Hx. destruct (ExportGenesis_Ok s Hinv) as (l & Hexp & Hnd & Hl & Hall).
  exists (exported s l). split; [done|]. split; [by apply Validate_exported|]. split; [by apply reimported_inv|].
  pose proof (import_exported s l Hinv Hl Hall) as Himp. unfold x_avs in Hx.
  unfold Avs_InitGenesis, on_peers, on_avs, zoom, mbind, M_bind, modify.
  cbn [oe_rest put_rest put_peers ae_avs ae_rest]. by rewrite Hx, Himp.
Qed.
End RoundTrip.
