(* ===== verification/AvsPrecompile.v ===== *)
(** * The avs precompile and the queries of x/avs

    The transactions by which a contract reaches x/avs, after the ABI decoding.
    [CallerAddress] is the contract that calls the precompile and [origin] the sender of
    the transaction; the address that a method takes as its first argument is what the
    contract claims to be its own caller.  A method that fails is answered with false
    and leaves the state as it was.  The events are left out.  The
    second part has the messages and the queries. *)

From S2P Require Import Prelude Errors Sdk RefSdk KVStore Epochs DelegationTypes Assets.
From S2P Require Import DelegationStore UndelegationStore Delegation OperatorTypes.
From S2P Require Import OperatorStore OperatorSnapshot OperatorKeepers OperatorUnbonding.
From S2P Require Import OperatorUSD OperatorOpt ChainUtils AvsTypes AvsStore AvsInv.
From S2P Require Import AvsRegistry AvsTasks AvsWrites.

(** The struct [Params] of the ABI; addresses are 20 bytes. *)
Record AvsArgs := {
  aa_Sender : string;
  aa_AvsName : string;
  aa_MinStakeAmount : Z;
  aa_TaskAddress : string;
  aa_SlashAddress : string;
  aa_RewardAddress : string;
  aa_AvsOwnerAddresses : option (list string);
  aa_WhitelistAddresses : option (list string);
  aa_AssetIDs : option (list string);
  aa_AvsUnbondingPeriod : Z;
  aa_MinSelfDelegation : Z;
  aa_EpochIdentifier : string;
  aa_MiniOptInOperators : Z;
  aa_MinTotalStakeAmount : Z;
  aa_AvsRewardProportion : Z;
  aa_AvsSlashProportion : Z;
}.

Record ChallengeArgs := {
  ca_Caller : string;
  ca_TaskID : Z;
  ca_TaskAddress : string;
  ca_ActualThreshold : Z;
  ca_IsExpected : bool;
  ca_EligibleRewardOperators : list string;
  ca_EligibleSlashOperators : list string;
}.

Record TaskArgs := {
  ta_Caller : string;
  ta_Name : string;
  ta_Hash : string;
  ta_TaskResponsePeriod : Z;
  ta_TaskChallengePeriod : Z;
  ta_ThresholdPercentage : Z;
  ta_TaskStatisticalPeriod : Z;
}.

Record SubmitArgs := {
  sa_Caller : string;
  sa_TaskID : Z;
  sa_TaskResponse : string;
  sa_BlsSignature : string;
  sa_TaskAddress : string;
  sa_Phase : Z;
}.

Section Precompile.
Context {sdk : Sdk} {chain : ChainSdk} {avs : AvsSdk} {R : Type} {peers : AvsPeers R}.
Abbreviation Y := (AvsExt R).
Abbreviation X := (OperatorExt Y).
Implicit Types (a : AssetsState) (x : X).
Context (ChainID CallerAddress origin : string).

Definition non_zero (addr : string) : M X error unit :=
  fail_if (bool_decide (addr = zero_address)) precompile_ErrInputParamOrType.

Definition CheckOriginAndSender (sender : string) : result error string :=
  if bool_decide (CallerAddress = sender) then Ok origin
  else if negb (bool_decide (origin = sender)) then Err precompile_ErrDifferentOriginFromSender
  else Ok sender.

Definition bech32_list (addrs : option (list string)) : option (list string) :=
  option_map (λ addrs, AccAddress_String <$> addrs) addrs.

(** The action and the address of the AVS are filled in by the methods. *)
Definition GetAVSParamsFromInputs (args : AvsArgs) (avsAddr : string) (action : Z)
    : result error AVSRegisterOrDeregisterParams :=
  let invalid := Err precompile_ErrInputParamOrType in
  if negb (common_IsHexAddress (Address_Hex (aa_Sender args))) then invalid
  else
    _ ← CheckOriginAndSender (aa_Sender args);
    if aa_MinStakeAmount args =? 0 then invalid
    else if negb (common_IsHexAddress (Address_Hex (aa_TaskAddress args))) then invalid
    else if negb (common_IsHexAddress (Address_Hex (aa_SlashAddress args))) then invalid
    else if negb (common_IsHexAddress (Address_Hex (aa_RewardAddress args))) then invalid
    else if negb (is_some (aa_AvsOwnerAddresses args)) then invalid
    else if negb (is_some (aa_WhitelistAddresses args)) then invalid
    else if negb (is_some (aa_AssetIDs args)) then invalid
    else if bool_decide (aa_EpochIdentifier args = EmptyString) then invalid
    else Ok {|
      ap_AvsName := aa_AvsName args; ap_AvsAddress := avsAddr;
      ap_MinStakeAmount := aa_MinStakeAmount args; ap_TaskAddress := aa_TaskAddress args;
      ap_SlashContractAddress := aa_SlashAddress args;
      ap_RewardContractAddress := aa_RewardAddress args;
      ap_AvsOwnerAddresses := bech32_list (aa_AvsOwnerAddresses args);
      ap_AssetIDs := aa_AssetIDs args; ap_UnbondingPeriod := aa_AvsUnbondingPeriod args;
      ap_MinSelfDelegation := aa_MinSelfDelegation args;
      ap_EpochIdentifier := aa_EpochIdentifier args;
      ap_MinOptInOperators := aa_MiniOptInOperators args;
      ap_MinTotalStakeAmount := aa_MinTotalStakeAmount args;
      ap_CallerAddress := aa_Sender args; ap_ChainID := EmptyString;
      ap_AvsReward := aa_AvsRewardProportion args; ap_AvsSlash := aa_AvsSlashProportion args;
      ap_Action := action;
      ap_WhitelistAddresses := bech32_list (aa_WhitelistAddresses args) |}.

(** The result is what the method packs; [None] is no data at all. *)

(** A sender that is not an owner is refused with a wrapped nil error, which is no
    error. *)
Definition RegisterAVS a (args : AvsArgs) : M X error (option bool) :=
  avsParams ← lift_result (GetAVSParamsFromInputs args CallerAddress RegisterAction);
  if negb (bool_decide (AccAddress_String (ap_CallerAddress avsParams) ∈
                        default [] (ap_AvsOwnerAddresses avsParams)))
  then mret None
  else _ ← avs_UpdateAVSInfo ChainID a avsParams; mret (Some true).

(** The parameters of a deregistration; the rest is the zero value. *)
Definition deregister_params (caller avsName : string) : AVSRegisterOrDeregisterParams := {|
  ap_AvsName := avsName; ap_AvsAddress := CallerAddress; ap_MinStakeAmount := 0;
  ap_TaskAddress := zero_address; ap_SlashContractAddress := zero_address;
  ap_RewardContractAddress := zero_address; ap_AvsOwnerAddresses := None; ap_AssetIDs := None;
  ap_UnbondingPeriod := 0; ap_MinSelfDelegation := 0; ap_EpochIdentifier := EmptyString;
  ap_MinOptInOperators := 0; ap_MinTotalStakeAmount := 0; ap_CallerAddress := caller;
  ap_ChainID := EmptyString; ap_AvsReward := 0; ap_AvsSlash := 0;
  ap_Action := DeRegisterAction; ap_WhitelistAddresses := None |}.

Definition DeregisterAVS a (caller avsName : string) : M X error (option bool) :=
  _ ← non_zero caller;
  _ ← fail_if (bool_decide (avsName = EmptyString)) precompile_ErrInputParamOrType;
  _ ← avs_UpdateAVSInfo ChainID a (deregister_params caller avsName);
  mret (Some true).

Definition UpdateAVS a (args : AvsArgs) : M X error (option bool) :=
  avsParams ← lift_result (GetAVSParamsFromInputs args CallerAddress UpdateAction);
  previous ← gets (λ x, GetAVSInfo (Address_Hex (ap_AvsAddress avsParams)) (x_avs x));
  previousAVSInfo ← lift_result previous;
  _ ← fail_if (negb (bool_decide (AccAddress_String (ap_CallerAddress avsParams) ∈
                                  av_AvsOwnerAddresses previousAVSInfo))) precompile_ErrNotQualified;
  _ ← avs_UpdateAVSInfo ChainID a avsParams;
  mret (Some true).

Definition GetTaskParamsFromInputs (args : TaskArgs) : result error TaskInfoParams :=
  let invalid := Err precompile_ErrInputParamOrType in
  if bool_decide (ta_Caller args = zero_address) then invalid
  else if bool_decide (ta_Name args = EmptyString) then invalid
  else if 100 <? ta_ThresholdPercentage args then invalid
  else Ok {|
    tp_TaskContractAddress := CallerAddress; tp_TaskName := ta_Name args; tp_Hash := ta_Hash args;
    tp_TaskID := 0; tp_TaskResponsePeriod := ta_TaskResponsePeriod args;
    tp_TaskStatisticalPeriod := ta_TaskStatisticalPeriod args;
    tp_TaskChallengePeriod := ta_TaskChallengePeriod args;
    tp_ThresholdPercentage := ta_ThresholdPercentage args; tp_CallerAddress := ta_Caller args |}.

Definition precompile_CreateAVSTask (args : TaskArgs) : M X error (option Z) :=
  params ← lift_result (GetTaskParamsFromInputs args);
  taskID ← CreateAVSTask params;
  mret (Some taskID).

Definition challenge_params (args : ChallengeArgs) : ChallengeParams := {|
  cp_TaskContractAddress := ca_TaskAddress args; cp_TaskID := ca_TaskID args;
  cp_CallerAddress := ca_Caller args; cp_ActualThreshold := ca_ActualThreshold args;
  cp_IsExpected := ca_IsExpected args;
  cp_EligibleRewardOperators := ca_EligibleRewardOperators args;
  cp_EligibleSlashOperators := ca_EligibleSlashOperators args |}.

(** The AVS that owns the task is compared with the caller as a string. *)
Definition Challenge (args : ChallengeArgs) : M X error (option bool) :=
  let callerAddrStr := Address_Hex (ca_Caller args) in
  _ ← non_zero (ca_Caller args);
  isValidAVS ← gets (λ x, avs_IsAVS callerAddrStr (x_avs x));
  _ ← fail_if (negb isValidAVS) precompile_ErrNotAvs;
  _ ← non_zero (ca_TaskAddress args);
  avsAddr ← gets (λ x, av_AvsAddress
    (GetAVSInfoByTaskAddress (Address_Hex (ca_TaskAddress args)) (x_avs x)));
  _ ← fail_if (bool_decide (avsAddr = EmptyString)) precompile_ErrTaskNotAssociated;
  _ ← fail_if (negb (bool_decide (avsAddr = callerAddrStr))) precompile_ErrNotAuthorized;
  _ ← RaiseAndResolveChallenge (challenge_params args);
  mret (Some true).

Definition precompile_RegisterBLSPublicKey (caller avsAddress pubKey signature : string)
    : M X error (option bool) :=
  _ ← non_zero caller;
  _ ← non_zero avsAddress;
  _ ← on_avs (RegisterBLSPublicKey ChainID {|
        bp_OperatorAddress := caller; bp_AvsAddress := avsAddress; bp_PubKey := pubKey;
        bp_PubKeyRegistrationSignature := signature |});
  mret (Some true).

(** An empty response is nil. *)
Definition submitted_result (args : SubmitArgs) : TaskResultInfo := {|
  tr_OperatorAddress := AccAddress_String (sa_Caller args); tr_TaskResponseHash := EmptyString;
  tr_TaskResponse := decoded_bytes (Some (sa_TaskResponse args));
  tr_BlsSignature := Some (sa_BlsSignature args);
  tr_TaskContractAddress := Address_Hex (sa_TaskAddress args);
  tr_TaskId := sa_TaskID args; tr_Phase := sa_Phase args |}.

Definition OperatorSubmitTask (args : SubmitArgs) : M X error (option bool) :=
  _ ← non_zero (sa_Caller args);
  _ ← non_zero (sa_TaskAddress args);
  _ ← fail_if (negb (ValidatePhase (sa_Phase args))) precompile_ErrInputParamOrType;
  _ ← SubmitTaskResult (AccAddress_String (sa_Caller args)) (submitted_result args);
  mret (Some true).

(** ** Dispatch *)

Inductive AvsMethod :=
| MethodRegisterAVS (args : AvsArgs)
| MethodDeregisterAVS (caller avsName : string)
| MethodUpdateAVS (args : AvsArgs)
| MethodCreateAVSTask (args : TaskArgs)
| MethodRegisterBLSPublicKey (caller avsAddress pubKey signature : string)
| MethodChallenge (args : ChallengeArgs)
| MethodOperatorSubmitTask (args : SubmitArgs).

(** The data that is returned: none, a boolean or a task id. *)
Inductive Output := NoData | Packed_bool (b : bool) | Packed_id (id : Z).

(** A transaction runs on a cached context, which is written unless it fails. *)
Definition run_tx {A} (m : M X error (option A)) (pack : A → Output) (failed : Output)
    : M X error Output := λ x,
  match m x with
  | (Ok (Some r), x') => (Ok (pack r), x')
  | (Ok None, x') => (Ok NoData, x')
  | (Err _, _) => (Ok failed, x)
  | (Panic, x') => (Panic, x')
  end.

(** A task that is not created is answered with two values, which the ABI of the
    method, with one output, does not pack. *)
Definition Run a (method : AvsMethod) : M X error Output :=
  match method with
  | MethodRegisterAVS args => run_tx (RegisterAVS a args) Packed_bool (Packed_bool false)
  | MethodDeregisterAVS caller avsName =>
      run_tx (DeregisterAVS a caller avsName) Packed_bool (Packed_bool false)
  | MethodUpdateAVS args => run_tx (UpdateAVS a args) Packed_bool (Packed_bool false)
  | MethodCreateAVSTask args => run_tx (precompile_CreateAVSTask args) Packed_id NoData
  | MethodRegisterBLSPublicKey caller avsAddress pubKey signature =>
      run_tx (precompile_RegisterBLSPublicKey caller avsAddress pubKey signature)
        Packed_bool (Packed_bool false)
  | MethodChallenge args => run_tx (Challenge args) Packed_bool (Packed_bool false)
  | MethodOperatorSubmitTask args => run_tx (OperatorSubmitTask args) Packed_bool (Packed_bool false)
  end.
End Precompile.

(** ** Opting in and out *)

Section Bind.
Context {sdk : Sdk} {B Y : Type} {ot : Others Y} {stk : StakingTypes}.
Context (ctx : Ctx) (CallerAddress : string).

Definition BindOperatorToAVS (caller : string) : M (World B (OperatorExt Y)) error bool :=
  _ ← fail_if (bool_decide (caller = zero_address)) precompile_ErrInputParamOrType;
  _ ← OperatorOptAction ctx {| oo_Action := RegisterAction; oo_OperatorAddress := caller;
        oo_AvsAddress := CallerAddress |};
  mret true.

Definition UnbindOperatorToAVS (caller : string) : M (World B (OperatorExt Y)) error bool :=
  _ ← fail_if (bool_decide (caller = zero_address)) precompile_ErrInputParamOrType;
  _ ← OperatorOptAction ctx {| oo_Action := DeRegisterAction; oo_OperatorAddress := caller;
        oo_AvsAddress := CallerAddress |};
  mret true.
End Bind.

(** ** Messages and queries of x/avs (keeper/msg_server.go, query.go, types/msg.go,
    precompiles/avs/query.go)

    The queries read the stores only, so they are functions of the state.  The queries of the
    precompile are after the ABI decoding; an error is answered with a zero value, or with no
    data where nil does not fit the type of the output. *)

(** ** Messages *)

(** A pointer to the result, which is dereferenced without a check. *)
Record SubmitTaskResultReq := { sq_FromAddress : string; sq_Info : option TaskResultInfo }.

(** What an output of the precompile holds; addresses are 20 bytes. *)
Record TaskInfoOutput := {
  to_TaskContractAddress : string;
  to_Name : string;
  to_Hash : string;
  to_TaskID : Z;
  to_TaskResponsePeriod : Z;
  to_TaskStatisticalPeriod : Z;
  to_TaskChallengePeriod : Z;
  to_ThresholdPercentage : Z;
  to_StartingEpoch : Z;
  to_ActualThreshold : string;
  to_OptInOperators : list string;
  to_SignedOperators : list string;
  to_NoSignedOperators : list string;
  to_ErrSignedOperators : list string;
  (** printed with [LegacyDec.String] *)
  to_TaskTotalPower : LegacyDec;
  (** operator, power *)
  to_OperatorActivePower : list (string * Int);
  to_IsExpected : bool;
  to_EligibleRewardOperators : list string;
  to_EligibleSlashOperators : list string;
}.

Record OperatorResInfo := {
  or_TaskContractAddress : string;
  or_TaskID : Z;
  or_OperatorAddress : string;
  or_TaskResponseHash : string;
  or_TaskResponse : option string;
  or_BlsSignature : option string;
  or_Power : Int;
  or_Phase : Z;
}.

Section Queries.
Context {sdk : Sdk} {chain : ChainSdk} {avs : AvsSdk} {R : Type} {peers : AvsPeers R}.
Abbreviation Y := (AvsExt R).
Abbreviation X := (OperatorExt Y).
Implicit Types x : X.
#[local] Existing Instance avs_others.

(** The same for the four messages. *)
Definition ValidateBasic (FromAddress : string) : result error unit :=
  match AccAddressFromBech32 FromAddress with Some _ => Ok tt | None => Err ErrLibrary end.

Definition GetSigners (FromAddress : string) : result error (list string) :=
  match AccAddressFromBech32 FromAddress with Some addr => Ok [addr] | None => Panic end.

Definition msg_SubmitTaskResult (req : SubmitTaskResultReq) : M X error unit :=
  match sq_Info req with
  | Some info => SubmitTaskResult (sq_FromAddress req) info
  | None => panic
  end.
Definition msg_RegisterAVS : M X error unit := fail avstypes.ErrNotFound.
Definition msg_DeRegisterAVS : M X error unit := fail avstypes.ErrNotFound.
Definition msg_RegisterAVSTask : M X error unit := fail avstypes.ErrNotFound.

(** ** gRPC queries; a nil request is refused before *)

Definition QueryAVSInfo (AVSAddress : string) x : result error AVSInfo := GetAVSInfo AVSAddress (x_avs x).

Definition QueryAVSTaskInfo (TaskId TaskAddress : string) x : result error TaskInfo :=
  GetTaskInfo TaskId TaskAddress (x_avs x).

Definition QueryAVSAddressByChainID (Chain : string) x : result error string :=
  match avs_IsAVSByChainID (oe_rest x) (ChainIDWithoutRevision Chain) with
  | None => Err avstypes.ErrNotYetRegistered
  | Some avsAddr => Ok avsAddr
  end.

Definition QuerySubmitTaskResult (OperatorAddress TaskAddress TaskId : string) x
    : result error TaskResultInfo :=
  match ParseUint TaskId with
  | None => Err ErrLibrary
  | Some id => GetTaskResultInfo OperatorAddress TaskAddress id (x_avs x)
  end.

Definition QueryChallengeInfo (TaskAddress TaskId : string) x : result error string :=
  match ParseUint TaskId with
  | None => Err ErrLibrary
  | Some id => GetTaskChallengedInfo TaskAddress id (x_avs x)
  end.

(** ** Queries of the precompile *)

(** The addresses of bech32 strings; the error of a string that is not one is dropped. *)
Definition stringToAddress (addresses : list string) : list string :=
  (λ address, BytesToAddress (default EmptyString (AccAddressFromBech32 address))) <$> addresses.

(** The operators of the list are bech32 strings; they are read as hexadecimal. *)
Definition ParseActivePower (powers : list OperatorActivePowerInfo) : list (string * Int) :=
  (λ info, (HexToAddress (pi_OperatorAddress info), pi_SelfActivePower info)) <$> powers.

Definition GetRegisteredPubKey (operatorAddress avsAddress : string) x : result error string :=
  if bool_decide (operatorAddress = zero_address) then Err precompile_ErrInputParamOrType
  else match GetOperatorPubKey (AccAddress_String operatorAddress) (Address_Hex avsAddress) (x_avs x) with
       | Ok blsPubKeyInfo => Ok (bytes_of (bk_PubKey blsPubKeyInfo))
       | Err e => if bool_decide (e = avstypes.ErrNoKeyInTheStore) then Ok EmptyString else Err e
       | Panic => Panic
       end.

Fixpoint operator_addresses (operators : list string) : result error (list string) :=
  match operators with
  | [] => Ok []
  | operator :: operators =>
      match AccAddressFromBech32 operator with
      | None => Err ErrLibrary
      | Some acc => addresses ← operator_addresses operators; Ok (BytesToAddress acc :: addresses)
      end
  end.

Definition GetOptedInOperatorAccAddresses (avsAddress : string) x : result error (list string) :=
  if bool_decide (avsAddress = zero_address) then Err precompile_ErrInputParamOrType
  else operators ← GetOptedInOperatorListByAVS (lower_hex avsAddress) (x_info x);
       operator_addresses operators.

(** An error of x/avs is zero; x/operator has one of its own. *)
Definition or_zero (r : result error LegacyDec) : result error Int :=
  match r with
  | Err e => if bool_decide (e = avstypes.ErrNoKeyInTheStore) then Ok 0 else Err e
  | r => r
  end.

Definition precompile_GetAVSUSDValue (avsAddress : string) x : result error Int :=
  or_zero (GetAVSUSDValue (Address_Hex avsAddress) (x_usd x)).

Definition precompile_GetOperatorOptedUSDValue (avsAddress operatorAddress : string) x : result error Int :=
  or_zero (GetOperatorActiveUSDValue (lower_hex avsAddress) (AccAddress_String operatorAddress) x).

Definition GetAVSEpochIdentifier (avsAddress : string) x : result error string :=
  match GetAVSInfo (Address_Hex avsAddress) (x_avs x) with
  | Ok info => Ok (av_EpochIdentifier info)
  | Err e => if bool_decide (e = avstypes.ErrNoKeyInTheStore) then Ok EmptyString else Err e
  | Panic => Panic
  end.

Definition precompile_IsOperator (operatorAddress : string) x : result error bool :=
  Ok (OperatorStore.IsOperator operatorAddress (x_info x)).

Definition task_output (task : TaskInfo) : TaskInfoOutput := {|
  to_TaskContractAddress := HexToAddress (tk_TaskContractAddress task);
  to_Name := tk_Name task; to_Hash := tk_Hash task; to_TaskID := tk_TaskId task;
  to_TaskResponsePeriod := tk_TaskResponsePeriod task;
  to_TaskStatisticalPeriod := tk_TaskStatisticalPeriod task;
  to_TaskChallengePeriod := tk_TaskChallengePeriod task;
  to_ThresholdPercentage := tk_ThresholdPercentage task mod 2 ^ 8;
  to_StartingEpoch := tk_StartingEpoch task;
  to_ActualThreshold := tk_ActualThreshold task;
  to_OptInOperators := stringToAddress (tk_OptInOperators task);
  to_SignedOperators := stringToAddress (tk_SignedOperators task);
  to_NoSignedOperators := stringToAddress (tk_NoSignedOperators task);
  to_ErrSignedOperators := stringToAddress (tk_ErrSignedOperators task);
  to_TaskTotalPower := tk_TaskTotalPower task;
  to_OperatorActivePower := ParseActivePower (default [] (tk_OperatorActivePower task));
  to_IsExpected := tk_IsExpected task;
  to_EligibleRewardOperators := stringToAddress (tk_EligibleRewardOperators task);
  to_EligibleSlashOperators := stringToAddress (tk_EligibleSlashOperators task) |}.

Definition precompile_GetTaskInfo (taskAddress : string) (taskID : Z) x : result error TaskInfoOutput :=
  task ← GetTaskInfo (FormatUint taskID) (Address_Hex taskAddress) (x_avs x);
  Ok (task_output task).

Definition GetCurrentEpoch (epochIdentifier : string) x : result error Z :=
  match GetEpochInfo epochIdentifier (avs_epochs (oe_rest x)) with
  | None => Err avstypes.ErrNoKeyInTheStore
  | Some epoch => Ok (ei_CurrentEpoch epoch)
  end.

(** The first entry of the operator; a nil list is dereferenced. *)
Definition power_in (accAddress : string) (powers : option (list OperatorActivePowerInfo))
    : result error Int :=
  match powers with
  | None => Panic
  | Some powers =>
      Ok (from_option (λ p, pi_SelfActivePower p.2) 0
            (list_find (λ info, pi_OperatorAddress info = accAddress) powers))
  end.

Fixpoint response_list (taskAddress : string) (taskID : Z) (task : TaskInfo) (signed : list string) x
    : result error (list OperatorResInfo) :=
  match signed with
  | [] => Ok []
  | accAddress :: signed =>
      match AccAddressFromBech32 accAddress with
      | None => Err ErrLibrary
      | Some tempAddress =>
          res ← GetTaskResultInfo accAddress (Address_Hex taskAddress) taskID (x_avs x);
          power ← power_in accAddress (tk_OperatorActivePower task);
          resList ← response_list taskAddress taskID task signed x;
          Ok ({| or_TaskContractAddress := taskAddress; or_TaskID := taskID;
                 or_OperatorAddress := BytesToAddress tempAddress;
                 or_TaskResponseHash := tr_TaskResponseHash res;
                 or_TaskResponse := tr_TaskResponse res; or_BlsSignature := tr_BlsSignature res;
                 or_Power := power; or_Phase := tr_Phase res mod 2 ^ 8 |} :: resList)
      end
  end.

Definition GetOperatorTaskResponseList (taskAddress : string) (taskID : Z) x
    : result error (list OperatorResInfo) :=
  task ← GetTaskInfo (FormatUint taskID) (Address_Hex taskAddress) (x_avs x);
  response_list taskAddress taskID task (tk_SignedOperators task) x.

(** The result with the addresses of the request. *)
Definition GetOperatorTaskResponse (taskAddress operatorAddress : string) (taskID : Z) x
    : result error TaskResultInfo :=
  res ← GetTaskResultInfo (AccAddress_String operatorAddress) (Address_Hex taskAddress) taskID (x_avs x);
  Ok {| tr_OperatorAddress := operatorAddress; tr_TaskResponseHash := tr_TaskResponseHash res;
        tr_TaskResponse := tr_TaskResponse res; tr_BlsSignature := tr_BlsSignature res;
        tr_TaskContractAddress := taskAddress; tr_TaskId := taskID; tr_Phase := tr_Phase res mod 2 ^ 8 |}.

Definition GetChallengeInfo (taskAddress : string) (taskID : Z) x : result error string :=
  addr ← GetTaskChallengedInfo (Address_Hex taskAddress) taskID (x_avs x);
  Ok (HexToAddress addr).

(** ** [Run] on a query *)

Inductive AvsQuery :=
| MethodGetOptInOperators (avsAddress : string)
| MethodGetAVSEpochIdentifier (avsAddress : string)
| MethodGetTaskInfo (taskAddress : string) (taskID : Z)
| MethodIsOperator (operatorAddress : string)
| MethodGetAVSUSDValue (avsAddress : string)
| MethodGetRegisteredPubKey (operatorAddress avsAddress : string)
| MethodGetOperatorOptedUSDValue (avsAddress operatorAddress : string)
| MethodGetCurrentEpoch (epochIdentifier : string)
| MethodGetOperatorTaskResponse (taskAddress operatorAddress : string) (taskID : Z)
| MethodGetOperatorTaskResponseList (taskAddress : string) (taskID : Z)
| MethodGetChallengeInfo (taskAddress : string) (taskID : Z).

Inductive Answer :=
| NoAnswer
| Answer_addresses (l : list string)
| Answer_string (s : string)
| Answer_bytes (s : string)
| Answer_bool (b : bool)
| Answer_int (z : Z)
| Answer_address (a : string)
| Answer_task (t : TaskInfoOutput)
| Answer_response (r : TaskResultInfo)
| Answer_responses (l : list OperatorResInfo).

(** The error is logged and replaced by a value. *)
Definition answer {A} (r : result error A) (pack : A → Answer) (failed : Answer) : result error Answer :=
  match r with Ok v => Ok (pack v) | Err _ => Ok failed | Panic => Panic end.

(** An empty list of strings is not packed as a list of addresses, nil not as a tuple:
    there is no data then. *)
Definition RunQuery (method : AvsQuery) x : result error Answer :=
  match method with
  | MethodGetOptInOperators avsAddr =>
      answer (GetOptedInOperatorAccAddresses avsAddr x) Answer_addresses NoAnswer
  | MethodGetAVSEpochIdentifier avsAddr =>
      answer (GetAVSEpochIdentifier avsAddr x) Answer_string (Answer_string EmptyString)
  | MethodGetTaskInfo taskAddr taskID => answer (precompile_GetTaskInfo taskAddr taskID x) Answer_task NoAnswer
  | MethodIsOperator operatorAddr =>
      answer (precompile_IsOperator operatorAddr x) Answer_bool (Answer_bool false)
  | MethodGetAVSUSDValue avsAddr => answer (precompile_GetAVSUSDValue avsAddr x) Answer_int (Answer_int 0)
  | MethodGetRegisteredPubKey operatorAddr avsAddr =>
      answer (GetRegisteredPubKey operatorAddr avsAddr x) Answer_bytes (Answer_bytes EmptyString)
  | MethodGetOperatorOptedUSDValue avsAddr operatorAddr =>
      answer (precompile_GetOperatorOptedUSDValue avsAddr operatorAddr x) Answer_int (Answer_int 0)
  | MethodGetCurrentEpoch identifier => answer (GetCurrentEpoch identifier x) Answer_int (Answer_int 0)
  | MethodGetOperatorTaskResponse taskAddr operatorAddr taskID =>
      answer (GetOperatorTaskResponse taskAddr operatorAddr taskID x) Answer_response NoAnswer
  | MethodGetOperatorTaskResponseList taskAddr taskID =>
      answer (GetOperatorTaskResponseList taskAddr taskID x) Answer_responses NoAnswer
  | MethodGetChallengeInfo taskAddr taskID =>
      answer (GetChallengeInfo taskAddr taskID x) Answer_address (Answer_address zero_address)
  end.
End Queries.

(** ** What a challenge shows *)

Section Shown.
Context {sdk : Sdk} {chain : ChainSdk} {avs : AvsSdk} {R : Type} {peers : AvsPeers R}.
Context {laws : SdkLaws sdk} {al : AddressLaws sdk chain} {avsl : AvsSdkLaws avs}.
Abbreviation Y := (AvsExt R).
Abbreviation X := (OperatorExt Y).
Implicit Types x : X.

(** A bech32 address has the human readable part of the chain, a hexadecimal one has not. *)
Hypothesis hex_no_bech32 : ∀ a, AccAddressFromBech32 (Address_Hex a) = None.
(** [BytesToAddress] fills up with zeros on the left. *)
Hypothesis BytesToAddress_empty : BytesToAddress EmptyString = zero_address.

(** The operators of a list of bech32 addresses are read back. *)
Lemma stringToAddress_bech32 addrs :
  Forall (λ a, String.length a = 20%nat) addrs → stringToAddress (AccAddress_String <$> addrs) = addrs.
Proof.
  unfold stringToAddress. induction 1 as [|a addrs Ha Hall IH]; [done|]. cbn in *. rewrite IH.
  rewrite bech32_roundtrip by (split; [by intros ->|rewrite Ha; lia]). cbn. by rewrite BytesToAddress_id.
Qed.

Lemma stringToAddress_hex addrs :
  stringToAddress (AddressToString addrs) = replicate (length addrs) zero_address.
Proof.
  unfold stringToAddress, AddressToString. induction addrs as [|a addrs IH]; [done|].
  cbn in *. rewrite hex_no_bech32. cbn. by rewrite BytesToAddress_empty, IH.
Qed.

(** C37.  A challenge that is resolved decides the task for the contracts that read it:
    the query of the precompile then answers with the threshold of the challenge, with
    success exactly when it reaches that of the task, and with the count of the signatures
    as it was; but in place of each operator to reward or to slash it answers with the zero
    address, because these are stored in hexadecimal form and read as bech32 addresses. *)
Theorem eligible_operators_lost params x u x' :
  is_address (cp_TaskContractAddress params) → avs_inv (x_avs x) →
  RaiseAndResolveChallenge params x = (Ok u, x') →
  ∃ task shown,
    GetTaskInfo (FormatUint (cp_TaskID params)) (Address_Hex (cp_TaskContractAddress params)) (x_avs x) = Ok task ∧
    RunQuery (MethodGetTaskInfo (cp_TaskContractAddress params) (cp_TaskID params)) x' = Ok (Answer_task shown) ∧
    to_ActualThreshold shown = FormatUint (cp_ActualThreshold params) ∧
    to_IsExpected shown = (tk_ThresholdPercentage task <=? cp_ActualThreshold params) ∧
    to_SignedOperators shown = stringToAddress (tk_SignedOperators task) ∧
    to_TaskTotalPower shown = tk_TaskTotalPower task ∧
    to_EligibleRewardOperators shown = replicate (length (cp_EligibleRewardOperators params)) zero_address ∧
    to_EligibleSlashOperators shown = replicate (length (cp_EligibleSlashOperators params)) zero_address.
Proof.
  intros Ht Hinv Hrun. apply RaiseAndResolveChallenge_Ok in Hrun as
    (task & _ & c & Hk & _ & _ & _ & _ & _ & _ & Hx'); [|done..].
  assert (Hkey : ∀ s, GetTaskInfo (FormatUint (cp_TaskID params)) (Address_Hex (cp_TaskContractAddress params)) s =
    match taskInfos s !! task_key (lower_hex (cp_TaskContractAddress params)) (FormatUint (cp_TaskID params)) with
    | Some task => Ok task | None => Err avstypes.ErrNoKeyInTheStore end).
  { intros s. unfold GetTaskInfo. rewrite IsHexAddress_Hex by done.
    by rewrite (task_key_spelled _ (cp_TaskContractAddress params)). }
  exists task, (task_output (resolved_task params task)). rewrite Hkey, Hk. split; [done|]. split.
  - cbn [RunQuery]. unfold precompile_GetTaskInfo. rewrite Hkey, Hx'. cbn [taskInfos set_taskInfos].
    by rewrite lookup_insert_eq.
  - repeat split; apply stringToAddress_hex.
Qed.
End Shown.
