(* ===== verification/AvsSteps.v ===== *)
(** * Runs of x/avs

    The store of x/avs under every sequence of transactions, messages, ends of epochs and
    writes of other modules: the invariant, the two phases of a result, challenges and the
    numbers of the tasks. *)

From S2P Require Import Prelude Errors Sdk RefSdk KVStore Epochs DelegationTypes Assets.
From S2P Require Import DelegationStore UndelegationStore Delegation OperatorTypes.
From S2P Require Import OperatorStore OperatorSnapshot OperatorKeepers OperatorUnbonding OperatorUSD.
From S2P Require Import OperatorOpt ChainUtils DogfoodTypes DogfoodStore DogfoodKeepers.
From S2P Require Import AvsTypes AvsStore AvsInv AvsRegistry AvsTasks AvsWrites AvsPrecompile.

Section Steps.
Context {sdk : Sdk} {chain : ChainSdk} {avs : AvsSdk} {R : Type} {peers : AvsPeers R}.
Context {laws : SdkLaws sdk} {al : AddressLaws sdk chain} {avsl : AvsSdkLaws avs}.
Abbreviation Y := (AvsExt R).
Abbreviation X := (OperatorExt Y).
Implicit Types (a : AssetsState) (x : X).
#[local] Existing Instance avs_others.

(** ** A step *)

(** The arguments have the types of the ABI. *)
Definition method_wf (method : AvsMethod) : Prop :=
  match method with
  | MethodRegisterAVS args | MethodUpdateAVS args => is_address (aa_TaskAddress args)
  | MethodDeregisterAVS _ _ | MethodCreateAVSTask _ => True
  | MethodRegisterBLSPublicKey caller avsAddress _ _ => is_address caller ∧ is_address avsAddress
  | MethodChallenge args => is_address (ca_TaskAddress args)
  | MethodOperatorSubmitTask args => is_u64 (sa_TaskID args)
  end.

(** A transaction of the precompile, a message, the end of an epoch, x/dogfood, or the
    other modules, which do not write the store. *)
Inductive avs_step x x' : Prop :=
| step_run a ChainID CallerAddress origin method out :
    is_address CallerAddress → method_wf method →
    (∀ t n, latestTaskNums (x_avs x) !! t = Some n → n < 2 ^ 64 - 1) →
    Run ChainID CallerAddress origin a method x = (Ok out, x') → avs_step x x'
| step_message addr info u :
    is_u64 (tr_TaskId info) →
    SubmitTaskResult addr info x = (Ok u, x') → avs_step x x'
| step_epoch range id n u : avs_AfterEpochEnd range id n x = (Ok u, x') → avs_step x x'
| step_chain a ChainID p r :
    @RegisterAVSWithChainID _ (avs_keeper ChainID) a p x = (Ok r, x') → avs_step x x'
| step_params a ChainID avsAddr p u :
    @UpdateAVSInfo _ (avs_keeper ChainID) a avsAddr p x = (Ok u, x') → avs_step x x'
| step_others : x_avs x' = x_avs x → avs_step x x'.

(** What a step leaves of the store: it writes at most one result. *)
Definition keeps_avs x x' : Prop :=
  avs_inv (x_avs x') ∧ avs_grows (x_avs x) (x_avs x') ∧
  (taskResults (x_avs x') = taskResults (x_avs x) ∨
   ∃ info r, accepted x info r ∧ x_avs x' = set_taskResults (insert
     (result_key (tr_OperatorAddress info) (tr_TaskContractAddress info) (tr_TaskId info)) r) (x_avs x)).

Lemma run_tx_Ok {A} (m : M X error (option A)) pack failed x out x' :
  run_tx m pack failed x = (Ok out, x') → x' = x ∨ ∃ r, m x = (Ok r, x').
Proof. unfold run_tx. destruct (m x) as [[[r|]|e|] x1]; intros [=]; subst; eauto. Qed.

Lemma keeps_avs_refl x : avs_inv (x_avs x) → keeps_avs x x.
Proof. intros. split; [done|]. split; [done|by left]. Qed.

Lemma keeps_avs_same x x' :
  avs_inv (x_avs x') ∧ avs_grows (x_avs x) (x_avs x') ∧ taskResults (x_avs x') = taskResults (x_avs x) →
  keeps_avs x x'.
Proof. intros (? & ? & ?). split; [done|]. split; [done|by left]. Qed.

Lemma keeps_avs_infos ChainID a params x u x' :
  params_wf params → avs_inv (x_avs x) → avs_UpdateAVSInfo ChainID a params x = (Ok u, x') →
  keeps_avs x x'.
Proof.
  intros Hwf Hinv Hrun. apply UpdateAVSInfo_Ok in Hrun as [Hinv' [f Hf]]; [|done..].
  apply keeps_avs_same. split; [done|]. rewrite Hf. split; [apply grows_infos|done].
Qed.

Lemma keeps_avs_submit addr info x u x' :
  avs_inv (x_avs x) → is_u64 (tr_TaskId info) →
  SubmitTaskResult addr info x = (Ok u, x') → keeps_avs x x'.
Proof.
  intros Hinv Hid Hrun. pose proof (SubmitTaskResult_inv _ _ _ _ _ Hinv Hid Hrun) as [??].
  apply SubmitTaskResult_Ok in Hrun as (r & ? & ?); [|done..]. split; [done|]. split; [done|].
  right. by exists info, r.
Qed.

Lemma GetAVSParams_wf CallerAddress origin args avsAddr action params :
  is_address avsAddr → is_address (aa_TaskAddress args) →
  GetAVSParamsFromInputs CallerAddress origin args avsAddr action = Ok params → params_wf params.
Proof.
  unfold GetAVSParamsFromInputs. intros Ha Ht. destruct (negb _); [done|].
  destruct (CheckOriginAndSender _ _ _); cbn; [|done..].
  repeat (destruct (_ : bool); [done|]). by intros [= <-].
Qed.

Lemma GetTaskParams_caller CallerAddress args params :
  GetTaskParamsFromInputs CallerAddress args = Ok params → tp_TaskContractAddress params = CallerAddress.
Proof. unfold GetTaskParamsFromInputs. repeat (destruct (_ : bool); [done|]). by intros [= <-]. Qed.

Lemma Run_keeps ChainID CallerAddress origin a method x out x' :
  is_address CallerAddress → method_wf method → avs_inv (x_avs x) →
  (∀ t n, latestTaskNums (x_avs x) !! t = Some n → n < 2 ^ 64 - 1) →
  Run ChainID CallerAddress origin a method x = (Ok out, x') → keeps_avs x x'.
Proof.
  intros Hc Hwf Hinv Hmax Hrun. destruct method; cbn [Run method_wf] in *;
    apply run_tx_Ok in Hrun as [->|[r Hrun]]; try by apply keeps_avs_refl.
  - unfold RegisterAVS in Hrun. go_inv.
    match goal with H : GetAVSParamsFromInputs _ _ _ _ _ = _ |- _ => apply GetAVSParams_wf in H; [|done..] end.
    destruct (negb _); go_inv; [by apply keeps_avs_refl|]. by eapply keeps_avs_infos.
  - unfold DeregisterAVS, non_zero in Hrun. go_inv.
    eapply keeps_avs_infos; [|done|eassumption]. by split.
  - unfold UpdateAVS in Hrun. go_inv.
    match goal with H : GetAVSParamsFromInputs _ _ _ _ _ = _ |- _ => apply GetAVSParams_wf in H; [|done..] end.
    by eapply keeps_avs_infos.
  - unfold precompile_CreateAVSTask in Hrun. go_inv.
    match goal with H : GetTaskParamsFromInputs _ _ = _ |- _ => apply GetTaskParams_caller in H as Ht end.
    apply keeps_avs_same. eapply CreateAVSTask_inv; [by rewrite Ht|done| |eassumption].
    destruct (latestTaskNums _ !! _) eqn:Hn; cbn; [by eapply Hmax|lia].
  - destruct Hwf. unfold precompile_RegisterBLSPublicKey, non_zero in Hrun. go_inv.
    match goal with H : on_avs _ _ = _ |- _ => apply on_avs_Ok, RegisterBLSPublicKey_inv in H; [|done..] end.
    by apply keeps_avs_same.
  - unfold Challenge, non_zero in Hrun. go_inv. apply keeps_avs_same.
    eapply RaiseAndResolveChallenge_inv; [|done|eassumption]. done.
  - unfold OperatorSubmitTask, non_zero in Hrun. go_inv.
    eapply keeps_avs_submit; [done|..|eassumption]; done.
Qed.

Lemma avs_step_keeps x x' : avs_inv (x_avs x) → avs_step x x' → keeps_avs x x'.
Proof.
  intros Hinv Hstep. destruct Hstep as [????????? Hrun|?????|???? Hrun|???? Hrun|????? Hrun|Hsame].
  - by eapply Run_keeps.
  - by eapply keeps_avs_submit.
  - apply keeps_avs_same. by eapply AfterEpochEnd_inv.
  - apply keeps_avs_same. eapply RegisterAVSWithChainID_Ok, Hrun; done.
  - eapply keeps_avs_infos, Hrun; [|done]. split; [apply address_length|done].
  - apply keeps_avs_same. by rewrite Hsame.
Qed.

Lemma avs_steps_keep x x' :
  avs_inv (x_avs x) → rtc avs_step x x' → avs_inv (x_avs x') ∧ avs_grows (x_avs x) (x_avs x').
Proof.
  intros Hinv Hsteps. revert Hinv. induction Hsteps as [|x1 x2 x3 Hstep _ IH]; intros Hinv; [done|].
  apply avs_step_keeps in Hstep as (H2 & Hg & _); [|done]. destruct (IH H2). split; [done|by etrans].
Qed.

(** ** Commitments *)

Lemma result_key_lower op addr id : ToLower (result_key op addr id) = result_key (ToLower op) addr id.
Proof.
  unfold result_key, GetJoinedStoreKey. cbn [join_with].
  by rewrite !ToLower_app, ToLower_idemp, FormatUint_lower.
Qed.

(** A signature that an operator has announced under its canonical address. *)
Definition announced_signature (s : AvsState) (op addr : string) (id : Z) (sig : string) : Prop :=
  ∃ r, taskResults s !! result_key (AccAddress_String op) addr id = Some r ∧
       bytes_of (tr_BlsSignature r) = sig.

Lemma announced_step x x' op addr id sig :
  avs_inv (x_avs x) → avs_step x x' →
  announced_signature (x_avs x) op addr id sig → announced_signature (x_avs x') op addr id sig.
Proof.
  intros Hinv Hstep (r & Hr & Hsig).
  apply avs_step_keeps in Hstep as (_ & _ & [Hsame|(info & r' & Hacc & Hx')]); [by exists r; rewrite Hsame| |done].
  unfold announced_signature. rewrite Hx'. cbn.
  destruct (decide (result_key (tr_OperatorAddress info) (tr_TaskContractAddress info) (tr_TaskId info) =
    result_key (AccAddress_String op) addr id)) as [Hk|Hk].
  2:{ rewrite lookup_insert_ne by done. by exists r. }
  rewrite Hk, lookup_insert_eq. exists r'. split; [done|]. destruct Hacc as [[hash ->] _ Htask].
  destruct Htask as (t & task & i & epoch & _ & _ & _ & _ & _ & _ & Hphase).
  destruct Hphase as [(_ & _ & Hno)|(_ & _ & r0 & Hr0 & Hsig0)].
  - exfalso. apply is_some_false in Hno. rewrite <-result_key_lower, Hk, result_key_lower in Hno.
    rewrite AccAddress_String_lower in Hno. congruence.
  - cbn. rewrite bytes_of_decoded. rewrite Hk in Hr0. congruence.
Qed.

Lemma announced_steps x x' op addr id sig :
  avs_inv (x_avs x) → rtc avs_step x x' →
  announced_signature (x_avs x) op addr id sig → announced_signature (x_avs x') op addr id sig.
Proof.
  intros Hinv Hsteps. revert Hinv. induction Hsteps as [|x1 x2 x3 Hstep _ IH]; intros Hinv; [done|].
  intros Hann. pose proof (avs_step_keeps _ _ Hinv Hstep) as [Hinv2 _].
  apply IH; [done|]. exact (announced_step _ _ _ _ _ _ Hinv Hstep Hann).
Qed.

(** The operator of a result that is stored under a canonical address. *)
Lemma result_operator s op t id r op' :
  valid_addr op → is_address t →
  result_wf s (result_key (AccAddress_String op) (Address_Hex t) id) r →
  AccAddressFromBech32 (tr_OperatorAddress r) = Some op' → op' = op.
Proof.
  intros Hop Ht [Hkey _ (t' & Ht' & _ & Haddr & _) _] Hop'.
  unfold result_key in Hkey. rewrite Haddr in Hkey. fold (lower_hex t) in Hkey.
  apply join3_inj in Hkey as [Heq _]; try by apply lower_hex_key_part.
  - rewrite <-Heq, bech32_roundtrip in Hop' by done. congruence.
  - apply bech32_charset.
  - apply FormatUint_free. by left.
  - by eapply AccAddressFromBech32_charset.
  - apply FormatUint_free. by left.
Qed.

(** ** Theorems *)

(** C8.  Invariants of x/avs.  Whatever sequence of transactions of the avs precompile,
    messages, ends of epochs, calls of x/dogfood and writes of other modules a chain goes
    through: an AVS is stored under its own address and no two AVSs share a task address,
    a task is stored under its address and a number between one and the last number given
    out, a BLS key belongs to one operator and one AVS, every result belongs to an existing
    task and is either an announced signature without a response or a response with its
    hash that verifies under a registered key; and no key, no challenge, no task, no
    period, threshold or list of operators of a task ever changes again. *)
Theorem avs_reachable x0 x x' :
  avs_inv (x_avs x0) → rtc avs_step x0 x → rtc avs_step x x' →
  avs_inv (x_avs x') ∧ avs_grows (x_avs x) (x_avs x').
Proof. intros Hinv H1 H2. destruct (avs_steps_keep _ _ Hinv H1). by apply avs_steps_keep. Qed.

(** C9.  An announced signature binds its operator.  Once the store holds a signature for
    a task under the address of an operator, spelled in the canonical lower-case bech32 form,
    it holds this signature under this spelling in every later state; and a response that is
    revealed with it verifies under a key that this operator registered.  The store has other
    entries for other spellings, of which this says nothing. *)
Theorem commitment_binding x x' op t id sig :
  avs_inv (x_avs x) → valid_addr op → is_address t →
  announced_signature (x_avs x) op (Address_Hex t) id sig → rtc avs_step x x' →
  ∃ r, taskResults (x_avs x') !! result_key (AccAddress_String op) (Address_Hex t) id = Some r ∧
    bytes_of (tr_BlsSignature r) = sig ∧
    ∀ response, tr_TaskResponse r = Some response →
      tr_TaskResponseHash r = Hash_String (Keccak256 response) ∧
      ∃ t' bz pubKey, has_key (operatorPubs (x_avs x')) op t' bz ∧ PublicKeyFromBytes bz = Some pubKey ∧
        VerifySignature sig (Keccak256 response) pubKey = Some true.
Proof.
  intros Hinv Hop Ht Hann Hsteps.
  destruct (announced_steps _ _ _ _ _ _ Hinv Hsteps Hann) as (r & Hr & Hsig).
  exists r. split; [done|]. split; [done|]. intros response Hresp.
  pose proof (ai_results _ (proj1 (avs_steps_keep _ _ Hinv Hsteps)) _ _ Hr) as Hwf.
  destruct (rw_phase _ _ _ Hwf) as
    [(_ & Hnone & _)|(_ & op' & t' & bz & pk & resp & Hop' & Hkey & Hpk & Hresp' & Hhash & Hver)]; [congruence|].
  assert (op' = op) as -> by by eapply result_operator.
  assert (resp = response) as -> by (apply decoded_bytes_Some; congruence). rewrite Hsig in Hver. split; [done|]. by exists t', bz, pk.
Qed.

(** ** The two windows *)

(** The epoch of the AVS that uses a task address. *)
Definition task_epoch x (addr : string) : option EpochInfo :=
  GetEpochInfo (av_EpochIdentifier (GetAVSInfoByTaskAddress addr (x_avs x))) (avs_epochs (oe_rest x)).

(** C25.  A response that is revealed cannot be copied.  After a response for a task was
    accepted in the second phase, no signature for the task is accepted any more, by any
    operator and under any spelling of the address, as long as the epoch number of the AVS
    does not go back. *)
Theorem reveal_closes_announcements x addr info u x1 x2 addr' info' u' x3 e e' :
  avs_inv (x_avs x) → is_u64 (tr_TaskId info) →
  tr_Phase info = PhaseDoCommit →
  SubmitTaskResult addr info x = (Ok u, x1) → rtc avs_step x1 x2 →
  ToLower (tr_TaskContractAddress info') = ToLower (tr_TaskContractAddress info) →
  tr_TaskId info' = tr_TaskId info →
  tr_Phase info' = PhasePrepare →
  task_epoch x (tr_TaskContractAddress info) = Some e →
  task_epoch x2 (tr_TaskContractAddress info') = Some e' → ei_CurrentEpoch e ≤ ei_CurrentEpoch e' →
  SubmitTaskResult addr' info' x2 ≠ (Ok u', x3).
Proof.
  intros Hinv Hid Hphase Hrun Hsteps Haddr Hid' Hphase' He He' Hle Hrun'.
  pose proof (SubmitTaskResult_inv _ _ _ _ _ Hinv Hid Hrun) as [Hinv1 Hg1].
  destruct (avs_steps_keep _ _ Hinv1 Hsteps) as [Hinv2 Hg2].
  apply SubmitTaskResult_Ok in Hrun as (r & Hacc & _); [|done..].
  apply SubmitTaskResult_Ok in Hrun' as (r' & Hacc' & _); [|done..].
  destruct Hacc as [(hash & ->) _ (t & task & i & ep & Ht & Hat & Htask & _ & -> & Hep & Hph)].
  destruct Hacc' as [(hash' & ->) _ (t' & task' & i' & ep' & Ht' & Hat' & Htask' & _ & -> & Hep' & Hph')].
  unfold task_epoch in He, He'. rewrite Hep in He. rewrite Hep' in He'. simplify_eq.
  assert (t' = t) as -> by (apply lower_hex_inj; [done..|congruence]).
  destruct (ag_tasks _ _ Hg1 _ _ Htask) as (task1 & Htask1 & Hs1).
  destruct (ag_tasks _ _ Hg2 _ _ Htask1) as (task2 & Htask2 & Hs2).
  rewrite Hid' in Htask'. assert (task' = task2) as -> by congruence.
  destruct (transitivity Hs1 Hs2) as [_ _ _ Hstart Hperiod _ _ _].
  destruct Hph as [([Hp _] & _)|(_ & Hw & _)]; [cbn in Hp; by rewrite Hphase in Hp|].
  destruct Hph' as [(_ & Hw' & _)|([Hp _] & _)]; [|cbn in Hp; by rewrite Hphase' in Hp].
  unfold response_end in *. rewrite Hstart, Hperiod in Hw'. lia.
Qed.

(** ** Challenges and tasks *)

(** C20.  A task is challenged once, and not before its statistical period is over.  The
    challenge sets the result of the task from the threshold it was given, and in every
    later state a challenge of the task is refused. *)
Theorem challenge_once params x u x1 x2 params' u' x3 :
  is_address (cp_TaskContractAddress params) → avs_inv (x_avs x) →
  RaiseAndResolveChallenge params x = (Ok u, x1) → rtc avs_step x1 x2 →
  cp_TaskContractAddress params' = cp_TaskContractAddress params → cp_TaskID params' = cp_TaskID params →
  let key := task_key (lower_hex (cp_TaskContractAddress params)) (FormatUint (cp_TaskID params)) in
  (∃ task epoch, taskInfos (x_avs x) !! key = Some task ∧
     task_epoch x (tk_TaskContractAddress task) = Some epoch ∧
     statistical_end task < ei_CurrentEpoch epoch ∧
     tk_IsExpected task = false ∧
     taskInfos (x_avs x1) !! key = Some (resolved_task params task)) ∧
  RaiseAndResolveChallenge params' x2 ≠ (Ok u', x3).
Proof.
  intros Ht Hinv Hrun Hsteps Haddr Hid key.
  pose proof (RaiseAndResolveChallenge_inv _ _ _ _ Ht Hinv Hrun) as (Hinv1 & _ & _).
  destruct (avs_steps_keep _ _ Hinv1 Hsteps) as [Hinv2 Hg].
  apply RaiseAndResolveChallenge_Ok in Hrun as
    (task & epoch & c & Htask & Hexp & _ & _ & Hepoch & Hend & _ & Hx1); [|done..]. split.
  { exists task, epoch. rewrite Hx1. do 4 (split; [done|]). apply lookup_insert_eq. }
  intros Hrun'. apply RaiseAndResolveChallenge_Ok in Hrun' as
    (task' & epoch' & c' & _ & _ & _ & Hnone & _); [|by rewrite Haddr|done].
  rewrite Haddr, Hid in Hnone.
  assert (Hc : taskChallenges (x_avs x1) !! key = Some c) by (rewrite Hx1; apply lookup_insert_eq).
  pose proof (lookup_weaken _ _ _ _ Hc (ag_challenges _ _ Hg)) as Hc'. unfold key in Hc'. congruence.
Qed.

(** C26.  A task that is created is new.  It takes the number after the last one of its
    contract, no task is stored under it, every other task is as before; the caller is
    an owner of the one AVS that uses the contract, the AVS has voting power, and the task
    records the operators that have opted in. *)
Theorem CreateAVSTask_fresh params x id x' :
  is_address (tp_TaskContractAddress params) → avs_inv (x_avs x) →
  default 0 (latestTaskNums (x_avs x) !! tp_TaskContractAddress params) < 2 ^ 64 - 1 →
  CreateAVSTask params x = (Ok id, x') →
  let t := tp_TaskContractAddress params in
  let key := task_key (lower_hex t) (FormatUint id) in
  id = default 0 (latestTaskNums (x_avs x) !! t) + 1 ∧
  taskInfos (x_avs x) !! key = None ∧
  (∃ epoch operators k info, avsInfos (x_avs x) !! k = Some info ∧ av_TaskAddress info = lower_hex t ∧
     (∀ k' i', avsInfos (x_avs x) !! k' = Some i' → av_TaskAddress i' = lower_hex t → k' = k) ∧
     AccAddress_String (tp_CallerAddress params) ∈ av_AvsOwnerAddresses info ∧
     (∃ power, GetAVSUSDValue (av_AvsAddress info) (x_usd x) = Ok power ∧ 0 < power) ∧
     GetOptedInOperatorListByAVS (av_AvsAddress info) (x_info x) = Ok operators ∧ operators ≠ [] ∧
     taskInfos (x_avs x') = <[key := new_task params id epoch operators]> (taskInfos (x_avs x))).
Proof.
  intros Ht Hinv Hmax Hrun t key.
  apply CreateAVSTask_Ok in Hrun as (Hz & Hid & (k & Hk) & Htask & Howner & Hpower & Hrun); [|done..].
  destruct Hrun as (epoch & operators & Hepoch & Hops & Hne & Hx'). split; [|split].
  - rewrite Hid. fold t in Hmax |- *. unfold next_task_id.
    destruct (latestTaskNums (x_avs x) !! t) as [n|] eqn:Hn; cbn in *; [|done].
    destruct (proj1 (ai_tasks _ Hinv) _ _ Hn) as (_ & _ & ?). rewrite wrap_uint64_id by lia. lia.
  - destruct (taskInfos (x_avs x) !! key) as [task|] eqn:Hkey; [|done]. unfold key in Hkey. rewrite Hid in Hkey.
    by destruct (next_task_fresh _ _ _ _ (ai_tasks _ Hinv) Ht Hmax Hkey).
  - exists epoch, operators, k, (GetAVSInfoByTaskAddress (Address_Hex t) (x_avs x)).
    do 2 (split; [done|]). split; [|rewrite Hx'; do 4 (split; [done|]); done].
    intros k' i' Hi' Heq. apply (ii_task _ (ai_infos _ Hinv) k' k i' _ Hi' Hk); [by rewrite Heq, Htask|].
    rewrite Heq. by intros ?%lower_hex_inj.
Qed.
End Steps.
