(* ===== verification/AvsAuthority.v ===== *)
(** * Who can change an AVS, and the AVS of a chain *)

From S2P Require Import Prelude Errors Sdk RefSdk KVStore Epochs DelegationTypes Assets.
From S2P Require Import DelegationStore UndelegationStore Delegation OperatorTypes.
From S2P Require Import OperatorStore OperatorSnapshot OperatorKeepers OperatorUnbonding OperatorUSD.
From S2P Require Import OperatorOpt ChainUtils DogfoodTypes DogfoodStore DogfoodKeepers.
From S2P Require Import AvsTypes AvsStore AvsInv AvsRegistry AvsTasks AvsWrites AvsPrecompile AvsSteps.

Section Authority.
Context {sdk : Sdk} {chain : ChainSdk} {avs : AvsSdk} {R : Type} {peers : AvsPeers R}.
Context {laws : SdkLaws sdk} {al : AddressLaws sdk chain} {avsl : AvsSdkLaws avs}.
Abbreviation Y := (AvsExt R).
Abbreviation X := (OperatorExt Y).
Implicit Types (a : AssetsState) (x : X).
#[local] Existing Instance avs_others.
Context (ChainID : string).

(** ** Who can change an AVS *)

(** What a removal requires of the AVS. *)
Record removable x (addr : string) (info : AVSInfo) (caller name : string) : Prop := {
  re_owner : AccAddress_String caller ∈ av_AvsOwnerAddresses info;
  re_power power : GetAVSUSDValue addr (x_usd x) = Ok power → power ≤ 0;
  re_unbonding : IsUnbondingRelatedAVS addr x = false;
  re_claimed : IsAVSAllRewardsClaimed (ae_rest (oe_rest x)) addr = true;
  re_name : av_Name info = name;
}.

Lemma deregister_avs_checks params info x u x' :
  deregister_avs params info x = (Ok u, x') →
  ∃ i, info = Some i ∧
    removable x (Address_Hex (ap_AvsAddress params)) i (ap_CallerAddress params) (ap_AvsName params).
Proof.
  unfold deregister_avs. destruct info as [i|]; [|done]. intros Hrun. go_inv. test_facts.
  exists i. split; [done|]. split; try done. intros power Hp.
  match goal with H : match GetAVSUSDValue _ _ with _ => _ end = false |- _ => rewrite Hp in H end. test_facts. done.
Qed.

(** Another address keeps its AVS. *)
Lemma UpdateAVSInfo_other a params x u x' k :
  is_address (ap_AvsAddress params) → avs_UpdateAVSInfo ChainID a params x = (Ok u, x') →
  k ≠ ap_AvsAddress params → avsInfos (x_avs x') !! k = avsInfos (x_avs x) !! k.
Proof.
  intros Ha. unfold avs_UpdateAVSInfo. rewrite HexToAddress_Hex by done. intros Hrun Hk. go_inv.
  destruct (GetEpochInfo _ _) as [epoch|]; [|done].
  destruct (ap_Action params =? RegisterAction); [|destruct (ap_Action params =? DeRegisterAction);
    [|destruct (ap_Action params =? UpdateAction); [|done]]].
  - apply register_avs_Ok in Hrun2 as (_ & _ & ->). rewrite HexToAddress_lower_hex by done.
    by apply lookup_insert_ne.
  - apply deregister_avs_Ok in Hrun2 as ->. rewrite HexToAddress_Hex by done. by apply lookup_delete_ne.
  - apply update_avs_Ok in Hrun2 as (old & _ & _ & ->). rewrite HexToAddress_Hex by done.
    by apply lookup_insert_ne.
Qed.

Lemma UpdateAVSInfo_register a params x u x' :
  is_address (ap_AvsAddress params) → ap_Action params = RegisterAction →
  avs_UpdateAVSInfo ChainID a params x = (Ok u, x') → avsInfos (x_avs x) !! ap_AvsAddress params = None.
Proof.
  intros Ha Hact. unfold avs_UpdateAVSInfo. rewrite HexToAddress_Hex, Hact by done. intros Hrun. go_inv.
  destruct (GetEpochInfo _ _) as [epoch|]; [|done]. cbn in Hrun2. by apply register_avs_Ok in Hrun2 as [? _].
Qed.

Lemma UpdateAVSInfo_deregister a params x u x' :
  is_address (ap_AvsAddress params) → ap_Action params = DeRegisterAction →
  avs_UpdateAVSInfo ChainID a params x = (Ok u, x') →
  ∃ info, avsInfos (x_avs x) !! ap_AvsAddress params = Some info ∧
    removable x (Address_Hex (ap_AvsAddress params)) info (ap_CallerAddress params) (ap_AvsName params) ∧
    x_avs x' = set_avsInfos (delete (ap_AvsAddress params)) (x_avs x).
Proof.
  intros Ha Hact. unfold avs_UpdateAVSInfo. rewrite HexToAddress_Hex, Hact by done. intros Hrun. go_inv.
  destruct (GetEpochInfo _ _) as [epoch|]; [|done]. cbn in Hrun2.
  pose proof (deregister_avs_checks _ _ _ _ _ Hrun2) as (i & Hi & Hre). exists i. split; [done|]. split; [done|].
  apply deregister_avs_Ok in Hrun2 as ->. by rewrite HexToAddress_Hex.
Qed.

Lemma GetAVSParams_sender CallerAddress origin args avsAddr action params :
  GetAVSParamsFromInputs CallerAddress origin args avsAddr action = Ok params →
  ap_CallerAddress params = aa_Sender args ∧ ap_AvsAddress params = avsAddr ∧ ap_Action params = action ∧
  (aa_Sender args = CallerAddress ∨ aa_Sender args = origin).
Proof.
  unfold GetAVSParamsFromInputs, CheckOriginAndSender. destruct (negb _); [done|].
  destruct (bool_decide (CallerAddress = _)) eqn:H1; [|destruct (negb (bool_decide (origin = _))) eqn:H2; [done|]];
    test_facts; cbn; repeat (destruct (_ : bool); [done|]); intros [= <-]; cbn; auto.
Qed.

(** The chain IDs are written by the registration of a chain alone. *)
Lemma UpdateAVSInfo_chains a params x u x' :
  params_wf params → avs_inv (x_avs x) → avs_UpdateAVSInfo ChainID a params x = (Ok u, x') →
  avsChainIDs (x_avs x') = avsChainIDs (x_avs x).
Proof. intros Hwf Hinv Hrun. by apply UpdateAVSInfo_Ok in Hrun as [_ [f ->]]. Qed.

(** The methods of the tasks do not touch the registry. *)
Lemma Run_registry CallerAddress origin a method x out x' :
  is_address CallerAddress → method_wf method → avs_inv (x_avs x) →
  Run ChainID CallerAddress origin a method x = (Ok out, x') →
  avsChainIDs (x_avs x') = avsChainIDs (x_avs x) ∧
  match method with
  | MethodRegisterAVS _ | MethodDeregisterAVS _ _ | MethodUpdateAVS _ => True
  | _ => avsInfos (x_avs x') = avsInfos (x_avs x)
  end.
Proof.
  intros Hc Hwf Hinv Hrun. destruct method; cbn [Run method_wf] in *;
    apply run_tx_Ok in Hrun as [->|[r Hrun]]; try done.
  - unfold RegisterAVS in Hrun. go_inv.
    match goal with H : GetAVSParamsFromInputs _ _ _ _ _ = _ |- _ => apply GetAVSParams_wf in H; [|done..] end.
    destruct (negb _); go_inv; [done|]. split; [by eapply UpdateAVSInfo_chains|done].
  - unfold DeregisterAVS, non_zero in Hrun. go_inv.
    split; [|done]. eapply UpdateAVSInfo_chains; [|done|eassumption]. by split.
  - unfold UpdateAVS in Hrun. go_inv.
    match goal with H : GetAVSParamsFromInputs _ _ _ _ _ = _ |- _ => apply GetAVSParams_wf in H; [|done..] end.
    split; [by eapply UpdateAVSInfo_chains|done].
  - unfold precompile_CreateAVSTask in Hrun. go_inv.
    match goal with H : GetTaskParamsFromInputs _ _ = _ |- _ => apply GetTaskParams_caller in H as Ht end.
    match goal with H : CreateAVSTask _ _ = _ |- _ => apply CreateAVSTask_Ok in H as
      (_ & _ & _ & _ & _ & _ & (? & ? & _ & _ & _ & ->)); [|by rewrite Ht|done] end. done.
  - destruct Hwf. unfold precompile_RegisterBLSPublicKey, non_zero in Hrun. go_inv.
    match goal with H : on_avs _ _ = _ |- _ => apply on_avs_Ok, RegisterBLSPublicKey_Ok in H as
      (_ & _ & _ & ->); [|done..|apply Hinv] end. done.
  - unfold Challenge, non_zero in Hrun. go_inv.
    match goal with H : RaiseAndResolveChallenge _ _ = _ |- _ => apply RaiseAndResolveChallenge_Ok in H as
      (? & ? & ? & _ & _ & _ & _ & _ & _ & _ & ->); [|done..] end. done.
  - unfold OperatorSubmitTask, non_zero in Hrun. go_inv.
    match goal with H : SubmitTaskResult _ _ _ = _ |- _ => apply SubmitTaskResult_Ok in H as (r & _ & ->);
      [|done] end. done.
Qed.

(** The transaction is an update or a removal of the AVS that called, for an owner. *)
Definition for_owner (CallerAddress origin : string) (method : AvsMethod) x x' (k : string) (info : AVSInfo) : Prop :=
  k = CallerAddress ∧
  ((∃ args, method = MethodUpdateAVS args ∧
      AccAddress_String (aa_Sender args) ∈ av_AvsOwnerAddresses info ∧
      (aa_Sender args = CallerAddress ∨ aa_Sender args = origin)) ∨
   (∃ sender name, method = MethodDeregisterAVS sender name ∧
      removable x (Address_Hex CallerAddress) info sender name ∧ avsInfos (x_avs x') !! k = None)).

(** A transaction keeps the entry of an AVS, or is for an owner of it. *)
Lemma Run_authority CallerAddress origin a method x out x' k info :
  is_address CallerAddress → method_wf method → avs_inv (x_avs x) →
  Run ChainID CallerAddress origin a method x = (Ok out, x') →
  avsInfos (x_avs x) !! k = Some info →
  avsInfos (x_avs x') !! k = Some info ∨ for_owner CallerAddress origin method x x' k info.
Proof.
  intros Hc Hwf Hinv Hrun Hk. pose proof (Run_registry _ _ _ _ _ _ _ Hc Hwf Hinv Hrun) as [_ Hreg].
  unfold for_owner. destruct method; try (rewrite Hreg; by left); cbn [Run method_wf] in *; clear Hreg;
    apply run_tx_Ok in Hrun as [->|[r Hrun]]; try by left.
  - unfold RegisterAVS in Hrun. go_inv.
    match goal with H : GetAVSParamsFromInputs _ _ _ _ _ = _ |- _ => apply GetAVSParams_sender in H as
      (_ & Haddr & Hact & _) end.
    assert (Ha : is_address (ap_AvsAddress v)) by by rewrite Haddr.
    destruct (negb _); go_inv; [by left|].
    match goal with H : avs_UpdateAVSInfo _ _ _ _ = _ |- _ =>
      pose proof (UpdateAVSInfo_register _ _ _ _ _ Ha Hact H) as Hnone;
      pose proof (UpdateAVSInfo_other _ _ _ _ _ k Ha H) as Hoth end.
    left. rewrite Hoth by congruence. done.
  - unfold DeregisterAVS, non_zero in Hrun. go_inv.
    match goal with H : avs_UpdateAVSInfo _ _ _ _ = _ |- _ =>
      apply UpdateAVSInfo_deregister in H as (i & Hi & Hre & Hx'); [|done..] end.
    cbn [ap_AvsAddress ap_CallerAddress ap_AvsName deregister_params] in *. rewrite Hx'. cbn.
    destruct (decide (k = CallerAddress)) as [->|Hne]; [|left; by rewrite lookup_delete_ne].
    assert (i = info) as -> by congruence. right. split; [done|]. right. eexists _, _. split; [done|].
    split; [done|apply lookup_delete_eq].
  - unfold UpdateAVS in Hrun. go_inv.
    match goal with H : GetAVSParamsFromInputs _ _ _ _ _ = _ |- _ => apply GetAVSParams_sender in H as
      (Hsender & Haddr & Hact & Hor) end.
    assert (Ha : is_address (ap_AvsAddress v)) by by rewrite Haddr.
    match goal with H : avs_UpdateAVSInfo _ _ _ _ = _ |- _ =>
      pose proof (UpdateAVSInfo_other _ _ _ _ _ k Ha H) as Hoth end.
    destruct (decide (k = CallerAddress)) as [->|Hne]; [|left; rewrite Hoth by congruence; done].
    right. split; [done|]. left. eexists. split; [done|]. test_facts. split; [|done].
    unfold GetAVSInfo in *. rewrite Haddr, HexToAddress_Hex, Hk in * by done. simplify_eq. by rewrite <-Hsender.
Qed.

(** C19.  An AVS is changed only from its own contract, for one of its owners.  If a
    transaction of the precompile changes the entry of an AVS, the contract that called is
    the AVS, and the transaction is an update whose sender is an owner and is the contract
    itself or the origin of the transaction, or a removal for an owner, of an AVS without
    voting power, without influence on unbonding and without rewards to claim. *)
Theorem registry_authority CallerAddress origin a method x out x' k info :
  is_address CallerAddress → method_wf method → avs_inv (x_avs x) →
  Run ChainID CallerAddress origin a method x = (Ok out, x') →
  avsInfos (x_avs x) !! k = Some info → avsInfos (x_avs x') !! k ≠ Some info →
  for_owner CallerAddress origin method x x' k info.
Proof. intros Hc Hwf Hinv Hrun Hk Hch. by destruct (Run_authority _ _ _ _ _ _ _ _ _ Hc Hwf Hinv Hrun Hk). Qed.

(** ** The AVS of a chain *)

(** The entry of a chain: its AVS has no owner, and the address leads to the chain ID. *)
Definition chain_entry x (k chainID : string) : Prop :=
  (∃ info, avsInfos (x_avs x) !! k = Some info ∧ av_AvsOwnerAddresses info = []) ∧
  avsChainIDs (x_avs x) !! k = Some chainID.

Lemma Run_chain_entry CallerAddress origin a method x out x' k chainID :
  is_address CallerAddress → method_wf method → avs_inv (x_avs x) →
  Run ChainID CallerAddress origin a method x = (Ok out, x') → chain_entry x k chainID → chain_entry x' k chainID.
Proof.
  intros Hc Hwf Hinv Hrun [(info & Hk & Hown) Hid].
  pose proof (Run_registry _ _ _ _ _ _ _ Hc Hwf Hinv Hrun) as [Hch _]. split; [|by rewrite Hch].
  destruct (Run_authority _ _ _ _ _ _ _ _ _ Hc Hwf Hinv Hrun Hk) as
    [?|(_ & [(args & _ & Hin & _)|(sender & name & _ & [Hin _ _ _ _] & _)])]; [by exists info|..];
    rewrite Hown in Hin; by apply not_elem_of_nil in Hin.
Qed.

(** An update without owners keeps the entry of every chain. *)
Lemma UpdateAVSInfo_chain_entry a params x u x' k chainID :
  params_wf params → avs_inv (x_avs x) → ap_Action params = UpdateAction → ap_AvsOwnerAddresses params = None →
  avs_UpdateAVSInfo ChainID a params x = (Ok u, x') → chain_entry x k chainID → chain_entry x' k chainID.
Proof.
  intros Hwf Hinv Hact Hnone Hrun [(info & Hk & Hown) Hid].
  split; [|by rewrite (UpdateAVSInfo_chains _ _ _ _ _ Hwf Hinv Hrun)]. pose proof Hwf as [Ha _].
  destruct (decide (k = ap_AvsAddress params)) as [->|Hne].
  2:{ exists info. by rewrite (UpdateAVSInfo_other _ _ _ _ _ k Ha Hrun). }
  unfold avs_UpdateAVSInfo in Hrun. rewrite HexToAddress_Hex, Hact in Hrun by done. go_inv.
  destruct (GetEpochInfo _ _) as [epoch|]; [|done]. cbn in Hrun2.
  apply update_avs_Ok in Hrun2 as (old & Hold & _ & ->). rewrite HexToAddress_Hex by done.
  eexists. split; [apply lookup_insert_eq|]. cbn. rewrite Hnone. cbn. congruence.
Qed.

(** The registration of a chain: the AVS exists, or it is new. *)
Lemma RegisterAVSWithChainID_entry a params x b addr x' :
  is_address (ap_TaskAddress params) → avs_inv (x_avs x) →
  avs_RegisterAVSWithChainID ChainID a params x = (Ok (b, addr), x') →
  let chainID := ChainIDWithoutRevision (ap_ChainID params) in
  chainID ≠ EmptyString ∧ addr = HexToAddress (GenerateAVSAddress chainID) ∧
  (b = true ∧ x' = x ∧ is_Some (avsInfos (x_avs x) !! addr) ∨
   b = false ∧ avsInfos (x_avs x) !! addr = None ∧
   avsChainIDs (x_avs x') = <[addr := chainID]> (avsChainIDs (x_avs x)) ∧
   (∀ k, k ≠ addr → avsInfos (x_avs x') !! k = avsInfos (x_avs x) !! k) ∧
   ∃ epoch, avsInfos (x_avs x') !! addr =
     Some (new_avs ChainID (for_chain params chainID addr) (ap_EpochIdentifier params) epoch)).
Proof.
  intros Ht Hinv. unfold avs_RegisterAVSWithChainID. destruct (bool_decide _) eqn:Hb; [done|].
  test_facts. intros Hrun. go_inv. unfold avs_IsAVS in *. destruct (is_some _) eqn:Hsome; go_inv.
  all: simplify_eq.
  { do 2 (split; [done|]). left. do 2 (split; [done|]). by apply is_some_true. }
  apply is_some_false in Hsome. do 2 (split; [done|]). right. do 2 (split; [done|]).
  match goal with H : on_peers _ _ = _ |- _ => apply on_peers_Ok in H as Hx end. rewrite <-Hx in Hinv |- *.
  match goal with H : on_avs _ _ = _ |- _ => apply on_avs_Ok, modify_Ok in H as -> end. cbn.
  match goal with H : avs_UpdateAVSInfo _ _ _ _ = _ |- _ => rename H into Hupd end.
  set (p := for_chain _ _ _) in Hupd. assert (Hwf : params_wf p) by (split; [apply address_length|done]).
  rewrite (UpdateAVSInfo_chains _ _ _ _ _ Hwf Hinv Hupd).
  split; [done|]. split; [intros k; exact (UpdateAVSInfo_other _ _ _ _ _ k (proj1 Hwf) Hupd)|].
  unfold avs_UpdateAVSInfo in Hupd. rewrite HexToAddress_Hex in Hupd by apply Hwf. go_inv.
  destruct (GetEpochInfo _ _) as [epoch|]; [|done]. cbn in *.
  match goal with H : register_avs _ _ _ _ _ _ _ = _ |- _ => apply register_avs_Ok in H as (Hn & _ & ->) end.
  rewrite HexToAddress_lower_hex by apply Hwf. cbn. rewrite lookup_insert_eq. exists epoch. by rewrite Hn.
Qed.

(** The hook writes tasks only. *)
Lemma AfterEpochEnd_registry range id n x u x' :
  avs_inv (x_avs x) → avs_AfterEpochEnd range id n x = (Ok u, x') →
  avsInfos (x_avs x') = avsInfos (x_avs x) ∧ avsChainIDs (x_avs x') = avsChainIDs (x_avs x).
Proof.
  intros Hinv (l & x1 & [_ ->]%gets_Ok & Hrun)%bind_Ok.
  eapply (for_each_inv (λ x', avs_inv (x_avs x') ∧
    avsInfos (x_avs x') = avsInfos (x_avs x) ∧ avsChainIDs (x_avs x') = avsChainIDs (x_avs x))), Hrun; [|done].
  intros g x1 v x2 _ (H1 & H2 & H3) Hg. pose proof (count_group_inv _ _ _ _ H1 Hg) as [? _]. split; [done|].
  apply count_group_Ok in Hg as [->|(?&?&?&?&?&?&?&?&?&?&?&?&Hset)]; [done| |done].
  apply on_avs_Ok in Hset. unfold SetTaskInfo in Hset. go_inv.
  match goal with H : x_avs x2 = _ |- _ => by rewrite H end.
Qed.
End Authority.

Section Chains.
Context {sdk : Sdk} {chain : ChainSdk} {avs : AvsSdk} {R : Type} {peers : AvsPeers R}.
Context {laws : SdkLaws sdk} {al : AddressLaws sdk chain} {avsl : AvsSdkLaws avs}.
Implicit Types (a : AssetsState) (x : OperatorExt (AvsExt R)).
#[local] Existing Instance avs_others.

Lemma chain_entry_same x x' k chainID :
  avsInfos (x_avs x') = avsInfos (x_avs x) → avsChainIDs (x_avs x') = avsChainIDs (x_avs x) →
  chain_entry x k chainID → chain_entry x' k chainID.
Proof. unfold chain_entry. by intros -> ->. Qed.

Lemma chain_entry_step x x' k chainID :
  avs_inv (x_avs x) → avs_step x x' → chain_entry x k chainID → chain_entry x' k chainID.
Proof.
  intros Hinv Hstep He. destruct Hstep as [????????? Hrun|???? Hrun|???? Hrun|???[b k1] Hrun|????? Hrun|Hsame].
  - by eapply Run_chain_entry.
  - apply SubmitTaskResult_Ok in Hrun as (r & _ & Hx'); [|done..]. by apply (chain_entry_same x); [rewrite Hx'..|].
  - apply AfterEpochEnd_registry in Hrun as [??]; [|done]. by apply (chain_entry_same x).
  - apply RegisterAVSWithChainID_entry in Hrun as
      (_ & _ & [(_ & -> & _)|(_ & Hnew & Hids & Hoth & _)]); [done| |done..].
    destruct He as [(info & Hk & Hown) Hid]. assert (k ≠ k1) by congruence.
    split; [exists info; by rewrite Hoth|by rewrite Hids, lookup_insert_ne].
  - eapply (UpdateAVSInfo_chain_entry ChainID); [..|exact Hrun|done]; try done. split; [apply address_length|done].
  - by apply (chain_entry_same x); [rewrite Hsame..|].
Qed.

Lemma chain_entry_steps x x' k chainID :
  avs_inv (x_avs x) → rtc avs_step x x' → chain_entry x k chainID → chain_entry x' k chainID.
Proof.
  intros Hinv Hsteps. revert Hinv. induction Hsteps as [|x1 x2 x3 Hstep _ IH]; intros Hinv He; [done|].
  pose proof (avs_step_keeps _ _ Hinv Hstep) as [Hinv2 _]. apply IH; [done|].
  exact (chain_entry_step _ _ _ _ Hinv Hstep He).
Qed.

(** C27.  The AVS of a chain is permanent.  After x/dogfood registered the AVS of a chain,
    in every later state: the AVS exists and nobody owns it, its address leads back to the
    chain ID and the chain ID to its address, and registering the chain again finds it and
    changes nothing. *)
Theorem chain_avs_permanent ChainID a p x addr x1 x2 :
  avs_inv (x_avs x) →
  @RegisterAVSWithChainID _ (avs_keeper ChainID) a p x = (Ok (false, addr), x1) → rtc avs_step x1 x2 →
  let chainID := ChainIDWithoutRevision (ca_ChainID p) in
  chain_entry x2 addr chainID ∧
  avs_GetChainIDByAVSAddr (GenerateAVSAddress chainID) (x_avs x2) = Some chainID ∧
  avs_IsAVSByChainID (oe_rest x2) chainID = Some (GenerateAVSAddress chainID) ∧
  ∀ ChainID' a' p', ChainIDWithoutRevision (ca_ChainID p') = chainID →
    @RegisterAVSWithChainID _ (avs_keeper ChainID') a' p' x2 = (Ok (true, addr), x2).
Proof.
  intros Hinv Hrun Hsteps chainID.
  assert (Hinv1 : avs_inv (x_avs x1)) by (eapply RegisterAVSWithChainID_Ok, Hrun; done).
  apply RegisterAVSWithChainID_entry in Hrun as
    (Hne & Haddr & [(? & _)|(_ & _ & Hids & _ & epoch & Hinfo)]); [done| |done..].
  assert (He : chain_entry x2 addr chainID).
  { apply (chain_entry_steps x1); [done..|]. split; [|by rewrite Hids, lookup_insert_eq]. eexists. by split. }
  split; [done|]. destruct He as [(info & Hk & _) Hid]. cbn [ap_ChainID chain_params] in Haddr. fold chainID in Haddr, Hne.
  split; [unfold avs_GetChainIDByAVSAddr; by rewrite <-Haddr|].
  split; [unfold avs_IsAVSByChainID, avs_IsAVS; rewrite <-Haddr; fold (x_avs x2); by rewrite Hk|].
  intros ChainID' a' p' Hp'. cbn. unfold avs_RegisterAVSWithChainID. cbn [ap_ChainID chain_params].
  rewrite Hp', bool_decide_false by done. unfold cached, gets, mbind, M_bind. cbn. unfold avs_IsAVS. rewrite <-Haddr, Hk. done.
Qed.
End Chains.
