(* ===== verification/AvsEpochEnd.v ===== *)
(** * The count at the end of a statistical period

    The hook of x/epochs groups the results of a task and writes the statistics of each
    group in the order of a Go map.  The specification [counted_tasks] has no groups and no
    order; the hook implements it when the results of a task spell its address alike. *)

From S2P Require Import Prelude Errors Sdk RefSdk KVStore Epochs DelegationTypes Assets.
From S2P Require Import DelegationStore UndelegationStore Delegation OperatorTypes.
From S2P Require Import OperatorStore OperatorSnapshot OperatorKeepers OperatorUnbonding OperatorUSD.
From S2P Require Import OperatorOpt ChainUtils DogfoodTypes DogfoodStore DogfoodKeepers.
From S2P Require Import AvsTypes AvsStore AvsInv AvsRegistry AvsTasks AvsWrites.

(** ** Groups of a list *)

(** The loop that appends every element to the list of its key. *)
Lemma group_lookup {A} (key : A → string) (l : list A) (m : gmap string (list A)) k :
  foldl (λ m r, <[key r := default [] (m !! key r) ++ [r]]> m) m l !! k =
    match filter (λ r, key r = k) l with [] => m !! k | l' => Some (default [] (m !! k) ++ l') end.
Proof.
  revert m. induction l as [|r l IH]; intros m; cbn [foldl]; [done|]. rewrite IH.
  destruct (decide (key r = k)) as [<-|Hne].
  - rewrite lookup_insert_eq, filter_cons_True by done. cbn.
    destruct (filter _ l); [done|]. cbn. by rewrite <-(assoc_L (++)).
  - by rewrite lookup_insert_ne, filter_cons_False by done.
Qed.

(** Updates of distinct keys: each key has its one update. *)
Lemma foldl_alter_ne {A B} (key : B → string) (f : B → A → A) (l : list B) (m : gmap string A) k :
  k ∉ (key <$> l) → foldl (λ m g, alter (f g) (key g) m) m l !! k = m !! k.
Proof.
  revert m. induction l as [|g l IH]; intros m; cbn [foldl]; [done|]. rewrite fmap_cons, not_elem_of_cons.
  intros [Hne Hk]. by rewrite IH, lookup_alter_ne.
Qed.

Lemma foldl_alter_elem {A B} (key : B → string) (f : B → A → A) (l : list B) (m : gmap string A) g :
  NoDup (key <$> l) → g ∈ l →
  foldl (λ m g, alter (f g) (key g) m) m l !! key g = f g <$> m !! key g.
Proof.
  revert m. induction l as [|h l IH]; intros m; [by intros _ ?%not_elem_of_nil|]. cbn [foldl].
  rewrite fmap_cons. intros [Hh Hnd]%NoDup_cons [->|Hg]%elem_of_cons.
  - rewrite foldl_alter_ne by done. apply lookup_alter_eq.
  - rewrite IH, lookup_alter_ne; [done| |done..]. intros Heq. apply Hh. rewrite Heq. by apply list_elem_of_fmap_2.
Qed.

Lemma alter_Some {A} (f : A → A) (m : gmap string A) k v : m !! k = Some v → alter f k m = <[k := f v]> m.
Proof.
  intros Hk. apply map_eq. intros k'. destruct (decide (k' = k)) as [->|Hne].
  - by rewrite lookup_alter_eq, lookup_insert_eq, Hk.
  - by rewrite lookup_alter_ne, lookup_insert_ne.
Qed.

Lemma filter_ext_elem {A} (P Q : A → Prop) `{!∀ r, Decision (P r), !∀ r, Decision (Q r)} (l : list A) :
  (∀ r, r ∈ l → P r ↔ Q r) → filter P l = filter Q l.
Proof.
  induction l as [|r l IH]; intros Hl; [done|]. assert (filter P l = filter Q l) as Hf.
  { apply IH. intros r' Hr'. apply Hl, elem_of_cons. by right. }
  destruct (decide (P r)) as [HP|HP].
  - rewrite !filter_cons_True, Hf; [done| |done]. apply Hl; [apply elem_of_cons; by left|done].
  - rewrite !filter_cons_False, Hf; [done| |done]. intros HQ. apply HP, Hl; [apply elem_of_cons; by left|done].
Qed.

Section EpochEnd.
Context {sdk : Sdk} {chain : ChainSdk} {avs : AvsSdk} {R : Type} {peers : AvsPeers R}.
Context {laws : SdkLaws sdk} {al : AddressLaws sdk chain} {avsl : AvsSdkLaws avs}.
Implicit Types x : OperatorExt (AvsExt R).
#[local] Existing Instance avs_others.

(** ** The specification *)

Definition with_tasks (tasks : gmap string TaskInfo) x : OperatorExt (AvsExt R) :=
  put_rest (put_avs (set_taskInfos (λ _, tasks) (x_avs x)) (oe_rest x)) x.

Definition task_of (r : TaskResultInfo) : string := task_key (tr_TaskContractAddress r) (FormatUint (tr_TaskId r)).

(** The statistics of a task from its results, unless the AVS has no power. *)
Definition count_results x (addr : string) (results : list TaskResultInfo) (task : TaskInfo) : TaskInfo :=
  let avsAddr := av_AvsAddress (GetAVSInfoByTaskAddress addr (x_avs x)) in
  match GetAVSUSDValue avsAddr (x_usd x) with
  | Ok power => if power =? 0 then task else counted_task avsAddr power results task x
  | _ => task
  end.

(** A task with results whose statistical period ends is counted. *)
Definition counted_tasks (epochIdentifier : string) (epochNumber : Z) x : gmap string TaskInfo :=
  map_imap (λ key task, Some (
    let results := filter (λ r, task_of r = key)
      (GetTaskStatisticalEpochEndAVSs epochIdentifier epochNumber (x_avs x)) in
    match results with
    | [] => task
    | r :: _ => count_results x (tr_TaskContractAddress r) (merge_sort operator_le results) task
    end)) (taskInfos (x_avs x)).

(** ** One group *)

(** A group of results of the task at the address [t]. *)
Definition group_wf x (g : string * list TaskResultInfo) (addr t : string) (id : Z) : Prop :=
  parseGroupKey g.1 = Ok (addr, id) ∧ is_address t ∧ ToLower addr = lower_hex t ∧
  av_AvsAddress (GetAVSInfoByTaskAddress addr (x_avs x)) ≠ EmptyString.

Definition group_addr (g : string * list TaskResultInfo) : string :=
  match parseGroupKey g.1 with Ok (addr, _) => addr | _ => EmptyString end.
Definition group_task (g : string * list TaskResultInfo) : string :=
  match parseGroupKey g.1 with Ok (addr, id) => task_key addr (FormatUint id) | _ => EmptyString end.

Lemma with_tasks_id x : with_tasks (taskInfos (x_avs x)) x = x.
Proof. by destruct x as [op [[] rest]]. Qed.

Lemma count_group_run x g addr t id :
  avs_inv (x_avs x) → group_wf x g addr t id →
  count_group g x = (Ok tt, with_tasks
    (alter (count_results x (group_addr g) g.2) (group_task g) (taskInfos (x_avs x))) x).
Proof.
  intros Hinv (Hparse & Ht & Haddr & Hne). unfold count_group, group_addr, group_task, count_results. rewrite Hparse.
  unfold gets, mbind, M_bind, mret, M_ret. rewrite bool_decide_false by done.
  unfold GetTaskInfo. rewrite (IsHexAddress_spelled _ t) by done. cbn [negb].
  rewrite (task_key_spelled _ _ _ Haddr).
  destruct (taskInfos (x_avs x) !! _) as [task|] eqn:Htask.
  2:{ rewrite (alter_id _ _ _) by congruence. by rewrite with_tasks_id. }
  rewrite (alter_Some _ _ _ _ Htask).
  destruct (GetAVSUSDValue _ _) as [power| |]; [|by rewrite (insert_id _ _ _ Htask), with_tasks_id..].
  destruct (power =? 0); [by rewrite (insert_id _ _ _ Htask), with_tasks_id|].
  pose proof (proj2 (ai_tasks _ Hinv) _ _ Htask) as [_ Hkey (t' & _ & Ht' & Haddr' & _)].
  unfold log_and_continue, on_avs, zoom, SetTaskInfo, fail_if, mbind, M_bind, mret, M_ret, modify.
  cbn [counted_task tk_TaskContractAddress tk_TaskId]. rewrite Haddr', IsHexAddress_lower_hex by done.
  cbn [negb]. rewrite <-Haddr', <-Hkey. done.
Qed.

(** ** All the groups *)

Lemma count_groups_run x l tasks :
  avs_inv (x_avs (with_tasks tasks x)) → Forall (λ g, ∃ addr t id, group_wf x g addr t id) l →
  for_each l count_group (with_tasks tasks x) = (Ok tt, with_tasks
    (foldl (λ tasks g, alter (count_results x (group_addr g) g.2) (group_task g) tasks) tasks l) x).
Proof.
  intros Hinv Hl. revert tasks Hinv. induction Hl as [|g l (addr & t & id & Hg) _ IH]; intros tasks Hinv; [done|].
  cbn [for_each foldl]. pose proof (count_group_run (with_tasks tasks x) g addr t id Hinv Hg) as Hrun.
  change (count_group g (with_tasks tasks x) = (Ok tt, with_tasks
    (alter (count_results x (group_addr g) g.2) (group_task g) tasks) x)) in Hrun.
  unfold mbind, M_bind at 1. rewrite Hrun. apply IH. exact (proj1 (count_group_inv _ _ _ _ Hinv Hrun)).
Qed.

(** The results that are counted. *)
Lemma counted_result id n s r :
  avs_inv s → r ∈ GetTaskStatisticalEpochEndAVSs id n s →
  av_AvsAddress (GetAVSInfoByTaskAddress (tr_TaskContractAddress r) s) ≠ EmptyString ∧
  ∃ t, is_address t ∧ is_u64 (tr_TaskId r) ∧ ToLower (tr_TaskContractAddress r) = lower_hex t.
Proof.
  intros Hinv. unfold GetTaskStatisticalEpochEndAVSs. rewrite list_elem_of_filter. intros [Hr Hin].
  split.
  { destruct (GetTaskInfo _ _ _); [|done..]. apply andb_true_iff in Hr as [[Hr _]%andb_true_iff _].
    by apply negb_true_iff, bool_decide_eq_false in Hr. }
  apply list_elem_of_fmap in Hin as ([k r'] & -> & Hk). apply elem_of_prefix_iterator in Hk as [Hk _].
  destruct (rw_task _ _ _ (ai_results _ Hinv _ _ Hk)) as (t & ? & ? & ? & _). by exists t.
Qed.

Lemma parse_group r t :
  is_address t → is_u64 (tr_TaskId r) → ToLower (tr_TaskContractAddress r) = lower_hex t →
  parseGroupKey (group_key r) = Ok (tr_TaskContractAddress r, tr_TaskId r).
Proof.
  intros Ht Hid Haddr. unfold parseGroupKey, group_key. rewrite split_on_app.
  - rewrite split_on_free by (apply FormatUint_free; by right). by rewrite ParseUint_Format.
  - apply IsHexAddress_charset; [by right|]. by apply (IsHexAddress_spelled _ t).
Qed.

Lemma group_of id n s g :
  GroupTasksByIDAndAddress (GetTaskStatisticalEpochEndAVSs id n s) !! g.1 = Some g.2 →
  ∃ r, r ∈ GetTaskStatisticalEpochEndAVSs id n s ∧ g.1 = group_key r ∧
    g.2 = merge_sort operator_le (filter (λ r', group_key r' = g.1) (GetTaskStatisticalEpochEndAVSs id n s)).
Proof.
  unfold GroupTasksByIDAndAddress. rewrite lookup_fmap, group_lookup, lookup_empty. cbn.
  destruct (filter _ _) as [|r l] eqn:Hf; [done|]. intros [= Hg]. exists r.
  assert (r ∈ filter (λ r', group_key r' = g.1) (GetTaskStatisticalEpochEndAVSs id n s)) as Hr
    by (rewrite Hf; apply elem_of_cons; by left). apply list_elem_of_filter in Hr as [??]. split; [done|]. split; [done|]. by rewrite <-Hg.
Qed.

(** The results of a task spell its address alike. *)
Definition one_spelling (results : list TaskResultInfo) : Prop :=
  ∀ r r', r ∈ results → r' ∈ results → task_of r = task_of r' →
    tr_TaskContractAddress r = tr_TaskContractAddress r'.

Lemma same_group id n s r r' :
  avs_inv s → one_spelling (GetTaskStatisticalEpochEndAVSs id n s) →
  r ∈ GetTaskStatisticalEpochEndAVSs id n s → r' ∈ GetTaskStatisticalEpochEndAVSs id n s →
  task_of r = task_of r' ↔ group_key r = group_key r'.
Proof.
  intros Hinv Hone Hr Hr'. destruct (counted_result _ _ _ _ Hinv Hr) as (_ & t & Ht & Hid & Haddr).
  destruct (counted_result _ _ _ _ Hinv Hr') as (_ & t' & Ht' & Hid' & Haddr').
  pose proof (parse_group r t Ht Hid Haddr) as Hp. pose proof (parse_group r' t' Ht' Hid' Haddr') as Hp'. split.
  - intros Heq. pose proof (Hone r r' Hr Hr' Heq) as Hsame. unfold group_key. rewrite <-Hsame.
    unfold task_of in Heq. rewrite (task_key_spelled _ _ _ Haddr), (task_key_spelled _ _ _ Haddr') in Heq.
    by apply task_key_inj in Heq as [_ ->].
  - intros Heq. rewrite Heq, Hp' in Hp. injection Hp as Ha Hi. unfold task_of. by rewrite Ha, Hi.
Qed.

(** What the groups are, in terms of the tasks. *)
Lemma groups_of_tasks id n x l :
  avs_inv (x_avs x) → one_spelling (GetTaskStatisticalEpochEndAVSs id n (x_avs x)) →
  l ≡ₚ map_to_list (GroupTasksByIDAndAddress (GetTaskStatisticalEpochEndAVSs id n (x_avs x))) →
  Forall (λ g, ∃ addr t id, group_wf x g addr t id) l ∧ NoDup (group_task <$> l) ∧
  ∀ g, g ∈ l ↔ ∃ r, r ∈ GetTaskStatisticalEpochEndAVSs id n (x_avs x) ∧
    g = (group_key r, merge_sort operator_le (filter (λ r', task_of r' = task_of r)
      (GetTaskStatisticalEpochEndAVSs id n (x_avs x)))) ∧
    group_addr g = tr_TaskContractAddress r ∧ group_task g = task_of r.
Proof.
  intros Hinv Hone Hl. set (results := GetTaskStatisticalEpochEndAVSs _ _ _) in *.
  assert (Hg : ∀ g, g ∈ l ↔ ∃ r, r ∈ results ∧
    g = (group_key r, merge_sort operator_le (filter (λ r', task_of r' = task_of r) results)) ∧
    group_addr g = tr_TaskContractAddress r ∧ group_task g = task_of r).
  { intros [k v]. rewrite Hl, elem_of_map_to_list. split.
    - intros Hkv. apply (group_of id n (x_avs x) (k, v)) in Hkv as (r & Hr & Hk & Hv). cbn in Hk, Hv. subst k.
      destruct (counted_result _ _ _ _ Hinv Hr) as (_ & t & Ht & Hid & Haddr).
      exists r. split; [done|]. unfold group_addr, group_task. cbn. rewrite (parse_group r t) by done.
      split; [|done]. f_equal. rewrite Hv. f_equal. apply filter_ext_elem. intros r' Hr'.
      symmetry. by apply (same_group id n (x_avs x)).
    - intros (r & Hr & [= -> ->] & _). unfold GroupTasksByIDAndAddress. rewrite lookup_fmap, group_lookup, lookup_empty.
      rewrite (filter_ext_elem (λ r', task_of r' = task_of r) (λ r', group_key r' = group_key r)).
      + destruct (filter (λ r', group_key r' = group_key r) results) eqn:Hf; [|done].
        assert (r ∈ filter (λ r', group_key r' = group_key r) results) as Hin by by apply list_elem_of_filter.
        rewrite Hf in Hin. by apply not_elem_of_nil in Hin.
      + intros r' Hr'. by apply (same_group id n (x_avs x)). }
  split; [|split; [|done]].
  - apply Forall_forall. intros g (r & Hr & -> & _)%Hg.
    destruct (counted_result _ _ _ _ Hinv Hr) as (Hne & t & Ht & Hid & Haddr).
    exists (tr_TaskContractAddress r), t, (tr_TaskId r). split; [by apply (parse_group r t)|done].
  - apply NoDup_fmap_2_strong; [|rewrite Hl; apply NoDup_map_to_list].
    intros g g' (r & Hr & -> & _ & ->)%Hg (r' & Hr' & -> & _ & ->)%Hg Heq.
    rewrite Heq. f_equal. by apply (same_group id n (x_avs x)).
Qed.

(** ** Theorem *)

(** C18.  The count at the end of a statistical period.  When the results of each task
    spell its address alike, the hook of x/epochs gives, in whatever order it visits the
    groups, every task whose results are due its statistics, the operators that revealed a
    response, the operators that did not, the power of the AVS and of the operators, and it
    leaves every other task and every other store as they were. *)
Theorem AfterEpochEnd_counts range id n x :
  avs_inv (x_avs x) → one_spelling (GetTaskStatisticalEpochEndAVSs id n (x_avs x)) →
  (∀ m, range m ≡ₚ map_to_list m) →
  avs_AfterEpochEnd range id n x = (Ok tt, with_tasks (counted_tasks id n x) x).
Proof.
  intros Hinv Hone Hrange. unfold avs_AfterEpochEnd, gets, mbind, M_bind at 1.
  set (l := range _). destruct (groups_of_tasks id n x l Hinv Hone (Hrange _)) as (Hwf & Hnd & Hg).
  assert (Hrun : for_each l count_group (with_tasks (taskInfos (x_avs x)) x) = (Ok tt, with_tasks
    (foldl (λ tasks g, alter (count_results x (group_addr g) g.2) (group_task g) tasks) (taskInfos (x_avs x)) l) x)).
  { apply count_groups_run; [by rewrite with_tasks_id|done]. }
  rewrite with_tasks_id in Hrun. rewrite Hrun. do 2 f_equal. apply map_eq. intros k.
  unfold counted_tasks. rewrite map_lookup_imap. clearbody l.
  set (results := GetTaskStatisticalEpochEndAVSs _ _ _) in *.
  destruct (filter (λ r, task_of r = k) results) as [|r rs] eqn:Hf.
  - rewrite foldl_alter_ne; [by destruct (taskInfos (x_avs x) !! k)|].
    intros (g & -> & (r & Hr & _ & _ & Ht)%Hg)%list_elem_of_fmap. rewrite Ht in Hf.
    assert (r ∈ filter (λ r', task_of r' = task_of r) results) as Hin by by apply list_elem_of_filter.
    rewrite Hf in Hin. by apply not_elem_of_nil in Hin.
  - assert (r ∈ filter (λ r, task_of r = k) results) as [<- Hr]%list_elem_of_filter
      by (rewrite Hf; apply elem_of_cons; by left).
    destruct (counted_result _ _ _ _ Hinv Hr) as (_ & t & Ht & Hid & Haddr).
    set (g := (group_key r, merge_sort operator_le (filter (λ r', task_of r' = task_of r) results))).
    assert (group_addr g = tr_TaskContractAddress r ∧ group_task g = task_of r) as [Ha Hk]
      by (unfold group_addr, group_task; cbn; by rewrite (parse_group r t)).
    rewrite <-Hk at 1 2. rewrite (foldl_alter_elem group_task) by (done || apply Hg; by exists r).
    rewrite Ha, Hk. unfold g. cbn [snd]. rewrite Hf. by destruct (taskInfos (x_avs x) !! _).
Qed.
End EpochEnd.
