(* ===== verification/AvsRef.v ===== *)
(** * Reference libraries for x/avs

    The libraries with concrete answers.  The hexadecimal form of an address is in upper
    case here, so that the case of a spelling shows as it does with the checksum of EIP-55,
    and an address is read in any case.  A bech32 string has a constant in the place of the
    checksum, and a BLS signature is the hash with the key.  The laws hold of them. *)

From S2P Require Import Prelude Errors Sdk RefSdk KVStore Epochs DelegationTypes Assets.
From S2P Require Import DelegationStore UndelegationStore Delegation OperatorTypes.
From S2P Require Import OperatorStore OperatorSnapshot OperatorKeepers OperatorUnbonding OperatorUSD.
From S2P Require Import OperatorOpt ChainUtils DogfoodTypes DogfoodStore DogfoodKeepers.
From S2P Require Import AvsTypes AvsStore AvsInv AvsRegistry AvsTasks AvsWrites AvsGenesis.
From S2P Require Import AvsPrecompile AvsSteps AvsAuthority AvsEpochEnd.

(** ** Addresses *)

Definition upper_hex_char (d : Z) : ascii :=
  match d with
  | 0 => "0" | 1 => "1" | 2 => "2" | 3 => "3" | 4 => "4" | 5 => "5" | 6 => "6" | 7 => "7"
  | 8 => "8" | 9 => "9" | 10 => "A" | 11 => "B" | 12 => "C" | 13 => "D" | 14 => "E"
  | _ => "F"
  end%char.

Fixpoint upper_hex (s : string) : string :=
  match s with
  | EmptyString => EmptyString
  | String c s => String (upper_hex_char (byte_value c / 16))
                    (String (upper_hex_char (byte_value c mod 16)) (upper_hex s))
  end.

Lemma lower_upper_hex s : ToLower (upper_hex s) = hex_bytes s.
Proof.
  induction s as [|c s IH]; [done|]. cbn [upper_hex ToLower hex_bytes]. rewrite IH.
  assert (Hd : ∀ d, lower_char (upper_hex_char d) = hex_char d).
  { intros d. unfold upper_hex_char, hex_char. by repeat case_match. }
  by rewrite !Hd.
Qed.

Lemma lower_hex_bytes s : ToLower (hex_bytes s) = hex_bytes s.
Proof. by rewrite <-lower_upper_hex, ToLower_idemp. Qed.

Lemma length_upper_hex s : String.length (upper_hex s) = (2 * String.length s)%nat.
Proof. by rewrite <-length_hex_bytes, <-lower_upper_hex, length_ToLower. Qed.

(** A checksum that is the same for all addresses. *)
Definition bech32_head : string := "im1chksum".

Definition sample_FromBech32 (s : string) : option string :=
  if has_prefix bech32_head s then
    match unhex_bytes (slice_from 9 s) with
    | Some a => if bool_decide (a = EmptyString) || (255 <? String.length a)%nat then None else Some a
    | None => None
    end
  else None.

#[export] Instance AvsRefSdk : Sdk := {|
  dec_MulInt := @dec_MulInt RefSdk; dec_Mul := @dec_Mul RefSdk; dec_Quo := @dec_Quo RefSdk;
  dec_QuoInt := @dec_QuoInt RefSdk; dec_TruncateInt := @dec_TruncateInt RefSdk;
  AccAddress_String a := bech32_head +:+ hex_bytes a;
  AccAddressFromBech32 := sample_FromBech32;
  GetConsAddress := @GetConsAddress RefSdk;
  Uint64ToBigEndian := @Uint64ToBigEndian RefSdk; BigEndianToUint64 := @BigEndianToUint64 RefSdk;
  hexutil_Encode := @hexutil_Encode RefSdk; hexutil_Decode := @hexutil_Decode RefSdk;
  hexutil_EncodeUint64 := @hexutil_EncodeUint64 RefSdk;
  hexutil_DecodeUint64 := @hexutil_DecodeUint64 RefSdk;
  FromHex := @FromHex RefSdk; HexToHash := @HexToHash RefSdk; Hash_String := @Hash_String RefSdk;
  common_IsHexAddress s := @common_IsHexAddress RefSdk (ToLower s);
  HexToAddress s := @HexToAddress RefSdk (ToLower s);
  Address_Hex a := "0x" +:+ upper_hex a;
  ValidateDenom := @ValidateDenom RefSdk;
|}.

Lemma sample_bech32 a : valid_addr a → sample_FromBech32 (bech32_head +:+ hex_bytes a) = Some a.
Proof.
  intros [Hne Hlen]. unfold sample_FromBech32. rewrite has_prefix_app, slice_from_app by done.
  rewrite unhex_hex, bool_decide_false by done. by rewrite (proj2 (Nat.ltb_ge _ _)).
Qed.

Lemma unhex_free c s b : c = "/"%char ∨ c = "_"%char → unhex_bytes s = Some b → no_char c s = true.
Proof.
  intros Hc. revert b. induction s as [s IH] using (induction_ltof1 _ String.length). unfold ltof in IH.
  destruct s as [|h [|l s]]; intros b; [done..|]. cbn [unhex_bytes].
  destruct ((hex_value h <? 0) || (hex_value l <? 0)) eqn:Hv; [done|]. intros Hs.
  destruct (unhex_bytes s) as [b'|] eqn:Hb; [|done]. apply orb_false_iff in Hv as [Hh Hl].
  cbn [no_char]. rewrite (IH s) with (b := b') by (cbn; lia || done). rewrite andb_true_r.
  apply andb_true_iff. split; apply negb_true_iff, Ascii.eqb_neq; intros <-; by destruct Hc as [-> | ->].
Qed.

Lemma no_char_lower c s : c = "/"%char ∨ c = "_"%char → no_char c (ToLower s) = true → no_char c s = true.
Proof.
  intros Hc. induction s as [|d s IH]; [done|]. cbn [ToLower no_char]. intros [Hd Hs]%andb_true_iff.
  rewrite IH, andb_true_r by done. apply negb_true_iff, Ascii.eqb_neq. intros <-.
  apply negb_true_iff, Ascii.eqb_neq in Hd. apply Hd. by destruct Hc as [-> | ->].
Qed.

#[export] Instance AvsRefLaws : SdkLaws AvsRefSdk.
Proof.
  split; try apply RefSdkLaws.
  - apply sample_bech32.
  - intros a b Hab. change (String.length (bech32_head +:+ hex_bytes a) = String.length (bech32_head +:+ hex_bytes b)).
    by rewrite !length_app_str, !length_hex_bytes, Hab.
  - intros s. apply length_last_bytes.
Qed.

(** x/dogfood does not run here, and its part of the libraries is left trivial. *)
#[export] Instance avs_chain_sdk : ChainSdk := {|
  IsRevisionFormat _ := false;
  Keccak256 := last_bytes 32;
  BytesToAddress := last_bytes 20;
  ConsAddress_String a := a;
  ConsAddressFromBech32 := Some;
  NewAnyWithValue := Some;
  PublicKey_String k := k;
  DefaultPowerReduction := 1;
  staking_DefaultMaxValidators := 100;
  staking_DefaultHistoricalEntries := 10000;
  SortByVotingPower l := l;
|}.

Lemma sample_Hex_lower a : ToLower (Address_Hex a) = "0x" +:+ hex_bytes a.
Proof. change (Address_Hex a) with ("0x" +:+ upper_hex a). by rewrite ToLower_app, lower_upper_hex. Qed.

Lemma sample_FromBech32_Some s a :
  sample_FromBech32 s = Some a → valid_addr a ∧ no_char "/"%char s = true.
Proof.
  unfold sample_FromBech32. destruct (has_prefix _ s) eqn:Hp; [|done].
  apply has_prefix_spec in Hp as [t ->]. rewrite slice_from_app by done.
  destruct (unhex_bytes t) as [b|] eqn:Hb; [|done]. destruct (_ || _) eqn:Hor; [done|]. intros [= ->].
  apply orb_false_iff in Hor as [He%bool_decide_eq_false Hl%Nat.ltb_ge]. split; [done|].
  rewrite no_char_app, (unhex_free _ _ _ (or_introl eq_refl) Hb). done.
Qed.

Lemma ref_Decode_hex a : ref_Decode ("0x" +:+ hex_bytes a) = Some a.
Proof. rewrite !app_cons, app_empty_l. apply unhex_hex. Qed.

Lemma ref_Decode_free c s : c = "/"%char ∨ c = "_"%char → is_Some (ref_Decode s) → no_char c s = true.
Proof.
  intros Hc [b Hb]. destruct s as [|h s]; [done|]. unfold ref_Decode in Hb.
  destruct h as [[] [] [] [] [] [] [] []]; try done. destruct s as [|l s]; [done|].
  destruct l as [[] [] [] [] [] [] [] []]; try done. cbn [no_char].
  rewrite (unhex_free _ _ _ Hc Hb). by destruct Hc as [-> | ->].
Qed.

#[export] Instance sample_address_laws : AddressLaws AvsRefSdk avs_chain_sdk.
Proof.
  split.
  - intros a Ha. change (last_bytes 20 (default EmptyString (ref_Decode (ToLower (Address_Hex a)))) = a).
    rewrite sample_Hex_lower, ref_Decode_hex. by apply last_bytes_id.
  - intros a Ha. by apply last_bytes_id.
  - intros bz. apply length_last_bytes.
  - intros s. cbn. by rewrite ToLower_idemp.
  - intros a Ha. change (bool_decide (String.length (ToLower (Address_Hex a)) = 42%nat) &&
      bool_decide (is_Some (ref_Decode (ToLower (Address_Hex a)))) = true).
    rewrite sample_Hex_lower, ref_Decode_hex, length_app_str, length_hex_bytes, Ha. done.
  - intros s. cbn. by rewrite ToLower_idemp.
  - intros a. by exists (upper_hex a).
  - intros a Ha. change (Address_Hex a) with ("0x" +:+ upper_hex a). by rewrite length_app_str, length_upper_hex, Ha.
  - intros c s Hc [_ Hb%bool_decide_eq_true]%andb_true_iff.
    apply no_char_lower; [done|]. by apply ref_Decode_free.
  - intros a. change (AccAddress_String a) with (bech32_head +:+ hex_bytes a). by rewrite ToLower_app, lower_hex_bytes.
  - intros a [Ha _]. change (AccAddress_String a) with (bech32_head +:+ hex_bytes a). rewrite length_app_str. cbn. lia.
  - intros s a Hs. by destruct (sample_FromBech32_Some s a Hs).
  - intros s a Hs. by destruct (sample_FromBech32_Some s a Hs).
Qed.

(** ** BLS and the codec *)

(** A signature is the hash followed by the key. *)
Definition sample_verify (sig hash key : string) : option bool := Some (bool_decide (sig = hash +:+ key)).

Definition sample_marshal (pub : BlsPubKeyInfo) : string :=
  join_with "/" [hex_bytes (bk_OperatorAddress pub); hex_bytes (bk_AvsAddress pub); hex_bytes (bytes_of (bk_PubKey pub))].

Definition sample_unmarshal (bz : string) : option BlsPubKeyInfo :=
  match split_on "/"%char bz with
  | [a; b; c] =>
      match unhex_bytes a, unhex_bytes b, unhex_bytes c with
      | Some a, Some b, Some c => Some {| bk_OperatorAddress := a; bk_AvsAddress := b; bk_PubKey := decoded_bytes (Some c) |}
      | _, _, _ => None
      end
  | _ => None
  end.

#[export] Instance sample_avs_sdk : AvsSdk := {|
  PublicKey := string;
  PublicKeyFromBytes bz := if bool_decide (String.length bz = 48%nat) then Some bz else None;
  VerifySignature := sample_verify;
  Marshal_BlsPubKeyInfo := sample_marshal;
  Unmarshal_BlsPubKeyInfo := sample_unmarshal;
|}.

#[export] Instance sample_avs_laws : AvsSdkLaws sample_avs_sdk.
Proof.
  split.
  - intros bz key. cbn -[String.length]. by case_bool_decide.
  - intros pub. change (sample_unmarshal (sample_marshal pub) = Some (decoded_bls pub)).
    unfold sample_unmarshal, sample_marshal. rewrite (split_join "/"%char); [|done|].
    + rewrite !unhex_hex. unfold decoded_bls, decoded_bytes. cbn. by destruct (bk_PubKey pub).
    + repeat constructor; apply hex_bytes_free; by left.
  - intros pub. change (Marshal_BlsPubKeyInfo pub) with (sample_marshal pub). unfold sample_marshal.
    cbn [join_with]. rewrite !length_app_str, !length_hex_bytes. lia.
Qed.

Lemma sample_hex_no_bech32 a : AccAddressFromBech32 (Address_Hex a) = None.
Proof.
  change (sample_FromBech32 ("0x" +:+ upper_hex a) = None). unfold sample_FromBech32.
  by destruct (upper_hex a) as [|? ?].
Qed.

Lemma sample_BytesToAddress_empty : BytesToAddress EmptyString = zero_address.
Proof. by vm_compute. Qed.
