(* ===== verification/AvsSample.v ===== *)
(** * A sample AVS

    The run of an AVS: registration, two BLS keys, a task, the two phases of a result, the
    count and a challenge.  The theorems about x/avs are applied to the states of the run. *)

From S2P Require Import Prelude Errors Sdk RefSdk KVStore Epochs DelegationTypes Assets.
From S2P Require Import DelegationStore UndelegationStore Delegation OperatorTypes.
From S2P Require Import OperatorStore OperatorSnapshot OperatorKeepers OperatorUnbonding OperatorUSD.
From S2P Require Import OperatorOpt ChainUtils DogfoodTypes DogfoodStore DogfoodKeepers.
From S2P Require Import AvsTypes AvsStore AvsInv AvsRegistry AvsTasks AvsWrites AvsGenesis.
From S2P Require Import AvsPrecompile AvsSteps AvsAuthority AvsEpochEnd.
From S2P Require Import AvsRef.

(** ** The other modules *)

(** What remains is x/epochs; nothing is asked of the rest. *)
#[export] Instance sample_avs_peers : AvsPeers EpochsState := {|
  peer_others := {|
    y_epochs := ae_rest;
    GetAVSSupportedAssets _ _ _ := Err ErrLibrary;
    GetAVSSlashContract _ _ := Err ErrLibrary;
    GetChainIDByAVSAddr _ _ := None;
    GetAVSMinimumSelfDelegation _ _ := Err ErrLibrary;
    GetEpochEndAVSs _ _ _ := [];
    IsAVS _ _ := Err ErrLibrary;
    IsAVSByChainID _ _ := None;
    GetAVSEpochInfo _ _ := Err ErrLibrary;
    GetAVSUnbondingDuration _ _ := Err ErrLibrary;
    IsWhitelisted _ _ _ := (false, None);
    GetAVSAssetsList _ _ := Err ErrLibrary;
    GetSpecifiedAssetsPrice _ _ := ({| pr_Value := 1; pr_Decimal := 0 |}, None);
    GetMultipleAssetsPrices _ _ := Ok ∅;
    SlashRewardUndelegation r _ := mret r;
    UpdateAllRewardsUSDForOperator _ _ _ _ := mret 0;
    OperatorTotalRewardsUSDValue _ _ _ := Ok (∅, 0);
    SlashOperatorUnclaimedRewards _ _ _ := mret [];
    AfterOperatorKeySet _ _ _ _ _ := mret tt;
    AfterOperatorKeyReplaced _ _ _ _ _ _ := mret tt;
    AfterOperatorKeyRemovalInitiated _ _ _ _ := mret tt;
    AfterSlash _ _ _ _ _ _ := mret tt;
    AfterJail _ _ _ _ := mret tt;
  |};
  peer_epochs r := r;
  evm_GetNewContractNonce _ := 1;
  evm_SetAccount _ _ := mret tt;
  evm_SetCode _ _ r := r;
  IsAVSAllRewardsClaimed _ _ := true;
|}.

(** ** The run *)

Abbreviation SampleAvs := (OperatorExt (AvsExt EpochsState)).

Definition avs_contract : string := "avs-contract-address".
Definition task_contract : string := "task-contract-addres".
Definition operator_one : string := "operator-one-address".
Definition operator_two : string := "operator-two-address".
Definition avs_owner : string := "owner-of-the-avs-add".
Definition bls_one : string := "bls-public-key-of-operator-one-0123456789-012345".
Definition bls_two : string := "bls-public-key-of-operator-two-0123456789-012345".
Definition avs_chain_id : string := "imua".

Definition hours (n : Z) : EpochsState := {[ "hour" := {|
  ei_Identifier := "hour"; ei_StartTime := 0; ei_Duration := 3600; ei_CurrentEpoch := n;
  ei_CurrentEpochStartTime := 0; ei_EpochCountingStarted := true; ei_CurrentEpochStartHeight := 1 |} ]}.

Definition an_operator (op : string) : OperatorInfo := {|
  oi_OperatorAddr := AccAddress_String op;
  oi_Description := {| de_Moniker := "operator"; de_Identity := ""; de_Website := "";
    de_SecurityContact := ""; de_Details := "" |};
  oi_ClientChainEarningsAddr := None;
  oi_Commission := {| co_Rate := None; co_MaxRate := None; co_MaxChangeRate := None; co_UpdateTime := 1 |};
  oi_DisableCompoundRewards := false |}.
Definition opted_in : OptedInfo := {|
  op_SlashContract := EmptyString; op_OptedInHeight := 1; op_OptedOutHeight := DefaultOptedOutHeight;
  op_Jailed := false; op_JailToggleHeights := [] |}.
Definition power_of (n : Z) : OperatorOptedUSDValue := {|
  uv_SelfUSDValue := dec_of_int n; uv_TotalUSDValue := dec_of_int n; uv_ActiveUSDValue := dec_of_int n |}.

(** Two operators have opted into the AVS. *)
Definition sample_operators : OperatorState := {|
  st_info := {|
    operatorInfos := <[operator_one := an_operator operator_one]> {[ operator_two := an_operator operator_two ]};
    optedInfos :=
      <[GetJoinedStoreKey [AccAddress_String operator_one; lower_hex avs_contract] := opted_in]>
      {[ GetJoinedStoreKey [AccAddress_String operator_two; lower_hex avs_contract] := opted_in ]};
    slashInfos := ∅; frozenOperators := ∅; operatorParams := None |};
  st_keys := st_keys empty_operator;
  st_usd := {|
    avsUSDValues := {[ lower_hex avs_contract := dec_of_int 30 ]};
    operatorUSDValues :=
      <[usd_key (lower_hex avs_contract) (AccAddress_String operator_one) := power_of 10]>
      {[ usd_key (lower_hex avs_contract) (AccAddress_String operator_two) := power_of 20 ]};
    assetUSDValues := ∅; avsAssets := ∅; rewardUSDValues := ∅ |};
  st_snap := st_snap empty_operator |}.

(** A store of x/avs in the n-th hour. *)
Definition at_hour (n : Z) (s : AvsState) : SampleAvs :=
  {| oe_operator := sample_operators; oe_rest := {| ae_avs := s; ae_rest := hours n |} |}.

Definition sample_v0 : SampleAvs := at_hour 5 avs_empty.

Definition register_args : AvsArgs := {|
  aa_Sender := avs_owner; aa_AvsName := "sample"; aa_MinStakeAmount := 1; aa_TaskAddress := task_contract;
  aa_SlashAddress := zero_address; aa_RewardAddress := zero_address;
  aa_AvsOwnerAddresses := Some [avs_owner]; aa_WhitelistAddresses := Some []; aa_AssetIDs := Some [];
  aa_AvsUnbondingPeriod := 2; aa_MinSelfDelegation := 0; aa_EpochIdentifier := "hour";
  aa_MiniOptInOperators := 1; aa_MinTotalStakeAmount := 1; aa_AvsRewardProportion := 5;
  aa_AvsSlashProportion := 5 |}.

Definition registration (op key : string) : AvsMethod :=
  MethodRegisterBLSPublicKey op avs_contract key
    (Keccak256 (BLSMessageToSign avs_chain_id (AccAddress_String op)) +:+ key).

Definition task_args : TaskArgs := {|
  ta_Caller := avs_owner; ta_Name := "price"; ta_Hash := "hash"; ta_TaskResponsePeriod := 1;
  ta_TaskChallengePeriod := 1; ta_ThresholdPercentage := 60; ta_TaskStatisticalPeriod := 1 |}.

Definition signature (key : string) : string := Keccak256 "42" +:+ key.

Definition announcement (op sig : string) : AvsMethod := MethodOperatorSubmitTask {|
  sa_Caller := op; sa_TaskID := 1; sa_TaskResponse := EmptyString; sa_BlsSignature := sig;
  sa_TaskAddress := task_contract; sa_Phase := PhasePrepare |}.
Definition revelation (op key : string) : AvsMethod := MethodOperatorSubmitTask {|
  sa_Caller := op; sa_TaskID := 1; sa_TaskResponse := "42"; sa_BlsSignature := signature key;
  sa_TaskAddress := task_contract; sa_Phase := PhaseDoCommit |}.

Abbreviation call caller method := (Run avs_chain_id caller avs_owner sample_assets0 method).

(** The stores are kept as values, so that each step is evaluated on its own. *)
Definition sample_store1 : AvsState := Eval vm_compute in
  x_avs (call avs_contract (MethodRegisterAVS register_args) sample_v0).2.
Definition sample_v1 : SampleAvs := at_hour 5 sample_store1.
Definition sample_store2 : AvsState := Eval vm_compute in
  x_avs (call avs_contract (registration operator_one bls_one) sample_v1).2.
Definition sample_v2 : SampleAvs := at_hour 5 sample_store2.
Definition sample_store3 : AvsState := Eval vm_compute in
  x_avs (call avs_contract (registration operator_two bls_two) sample_v2).2.
Definition sample_v3 : SampleAvs := at_hour 5 sample_store3.
Definition sample_store4 : AvsState := Eval vm_compute in
  x_avs (call task_contract (MethodCreateAVSTask task_args) sample_v3).2.
Definition sample_v4 : SampleAvs := at_hour 5 sample_store4.
Definition sample_store5 : AvsState := Eval vm_compute in
  x_avs (call avs_contract (announcement operator_one (signature bls_one)) sample_v4).2.
Definition sample_v5 : SampleAvs := at_hour 5 sample_store5.
Definition sample_store6 : AvsState := Eval vm_compute in
  x_avs (call avs_contract (announcement operator_two (signature bls_two)) sample_v5).2.
Definition sample_v6 : SampleAvs := at_hour 5 sample_store6.
Definition sample_v7 : SampleAvs := at_hour 8 sample_store6.
Definition sample_store8 : AvsState := Eval vm_compute in
  x_avs (call avs_contract (revelation operator_one bls_one) sample_v7).2.
Definition sample_v8 : SampleAvs := at_hour 8 sample_store8.

Lemma sample_run1 : call avs_contract (MethodRegisterAVS register_args) sample_v0 = (Ok (Packed_bool true), sample_v1).
Proof. conv_refl. Qed.
Lemma sample_run2 : call avs_contract (registration operator_one bls_one) sample_v1 = (Ok (Packed_bool true), sample_v2).
Proof. conv_refl. Qed.
Lemma sample_run3 : call avs_contract (registration operator_two bls_two) sample_v2 = (Ok (Packed_bool true), sample_v3).
Proof. conv_refl. Qed.
Lemma sample_run4 : call task_contract (MethodCreateAVSTask task_args) sample_v3 = (Ok (Packed_id 1), sample_v4).
Proof. conv_refl. Qed.
Lemma sample_run5 :
  call avs_contract (announcement operator_one (signature bls_one)) sample_v4 = (Ok (Packed_bool true), sample_v5).
Proof. conv_refl. Qed.
Lemma sample_run6 :
  call avs_contract (announcement operator_two (signature bls_two)) sample_v5 = (Ok (Packed_bool true), sample_v6).
Proof. conv_refl. Qed.
Lemma sample_run8 :
  call avs_contract (revelation operator_one bls_one) sample_v7 = (Ok (Packed_bool true), sample_v8).
Proof. conv_refl. Qed.

(** ** The steps *)

Definition small_nums (x : SampleAvs) : bool :=
  bool_decide (map_Forall (λ _ n, n < 2 ^ 64 - 1) (latestTaskNums (x_avs x))).

Lemma sample_step caller method out x x' :
  is_address caller → method_wf method → small_nums x = true → call caller method x = (Ok out, x') →
  avs_step x x'.
Proof.
  intros Hc Hwf Hnums%bool_decide_eq_true Hrun. eapply step_run, Hrun; [done..|]. intros t n. apply Hnums.
Qed.

Lemma sample_step_hour m n s : avs_step (at_hour m s) (at_hour n s).
Proof. by apply step_others. Qed.

Lemma sample_steps1 : rtc avs_step sample_v0 sample_v1.
Proof. eapply rtc_once, sample_step, sample_run1; [done|done|conv_refl]. Qed.

Lemma sample_steps4 : rtc avs_step sample_v1 sample_v4.
Proof.
  eapply rtc_l; [eapply sample_step, sample_run2; [done|done|conv_refl]|].
  eapply rtc_l; [eapply sample_step, sample_run3; [done|done|conv_refl]|].
  eapply rtc_once, sample_step, sample_run4; [done|done|conv_refl].
Qed.

Lemma sample_steps5 : rtc avs_step sample_v4 sample_v5.
Proof. eapply rtc_once, sample_step, sample_run5; [done|by vm_compute|conv_refl]. Qed.

Lemma sample_steps7 : rtc avs_step sample_v5 sample_v7.
Proof.
  eapply rtc_l; [eapply sample_step, sample_run6; [done|by vm_compute|conv_refl]|].
  apply rtc_once, sample_step_hour.
Qed.

Lemma sample_steps8 : rtc avs_step sample_v7 sample_v8.
Proof. eapply rtc_once, sample_step, sample_run8; [done|by vm_compute|conv_refl]. Qed.

Lemma sample_v0_inv : avs_inv (x_avs sample_v0).
Proof.
  split; [apply infos_inv_empty| |apply pubs_inv_empty|..]; try apply map_Forall_empty.
  split; apply map_Forall_empty.
Qed.

Lemma sample_inv x x' : avs_inv (x_avs x) → rtc avs_step x x' → avs_inv (x_avs x').
Proof. intros Hinv Hsteps. by apply (avs_steps_keep x). Qed.

Lemma sample_v1_inv : avs_inv (x_avs sample_v1).
Proof. exact (sample_inv _ _ sample_v0_inv sample_steps1). Qed.
Lemma sample_v4_inv : avs_inv (x_avs sample_v4).
Proof. exact (sample_inv _ _ sample_v1_inv sample_steps4). Qed.
Lemma sample_v5_inv : avs_inv (x_avs sample_v5).
Proof. exact (sample_inv _ _ sample_v4_inv sample_steps5). Qed.
Lemma sample_v7_inv : avs_inv (x_avs sample_v7).
Proof. exact (sample_inv _ _ sample_v5_inv sample_steps7). Qed.
Lemma sample_v8_inv : avs_inv (x_avs sample_v8).
Proof. exact (sample_inv _ _ sample_v7_inv sample_steps8). Qed.

(** ** The theorems on the run *)

Lemma avs_reachable_witness : avs_inv (x_avs sample_v8) ∧ avs_grows (x_avs sample_v4) (x_avs sample_v8).
Proof.
  apply (avs_reachable sample_v0).
  - exact sample_v0_inv.
  - exact (transitivity sample_steps1 sample_steps4).
  - exact (transitivity sample_steps5 (transitivity sample_steps7 sample_steps8)).
Defined.

Definition announced_one : TaskResultInfo := {|
  tr_OperatorAddress := AccAddress_String operator_one; tr_TaskResponseHash := EmptyString;
  tr_TaskResponse := None; tr_BlsSignature := Some (signature bls_one);
  tr_TaskContractAddress := Address_Hex task_contract; tr_TaskId := 1; tr_Phase := PhasePrepare |}.

Lemma sample_announced :
  announced_signature (x_avs sample_v5) operator_one (Address_Hex task_contract) 1 (signature bls_one).
Proof. exists announced_one. split; [conv_refl|done]. Qed.

Lemma commitment_binding_witness :
  ∃ r, taskResults (x_avs sample_v8) !! result_key (AccAddress_String operator_one) (Address_Hex task_contract) 1 = Some r ∧
    bytes_of (tr_BlsSignature r) = signature bls_one ∧
    ∀ response, tr_TaskResponse r = Some response →
      tr_TaskResponseHash r = Hash_String (Keccak256 response) ∧
      ∃ t' bz pubKey, has_key (operatorPubs (x_avs sample_v8)) operator_one t' bz ∧ PublicKeyFromBytes bz = Some pubKey ∧
        VerifySignature (signature bls_one) (Keccak256 response) pubKey = Some true.
Proof.
  apply (commitment_binding sample_v5).
  - exact sample_v5_inv.
  - by apply is_address_valid.
  - done.
  - exact sample_announced.
  - exact (transitivity sample_steps7 sample_steps8).
Defined.

Definition revealed_one : TaskResultInfo := {|
  tr_OperatorAddress := AccAddress_String operator_one; tr_TaskResponseHash := EmptyString;
  tr_TaskResponse := Some "42"; tr_BlsSignature := Some (signature bls_one);
  tr_TaskContractAddress := Address_Hex task_contract; tr_TaskId := 1; tr_Phase := PhaseDoCommit |}.
Definition announced_late : TaskResultInfo := {|
  tr_OperatorAddress := AccAddress_String operator_two; tr_TaskResponseHash := EmptyString;
  tr_TaskResponse := None; tr_BlsSignature := Some (signature bls_one);
  tr_TaskContractAddress := lower_hex task_contract; tr_TaskId := 1; tr_Phase := PhasePrepare |}.
Definition hour (n : Z) : EpochInfo := {|
  ei_Identifier := "hour"; ei_StartTime := 0; ei_Duration := 3600; ei_CurrentEpoch := n;
  ei_CurrentEpochStartTime := 0; ei_EpochCountingStarted := true; ei_CurrentEpochStartHeight := 1 |}.

Lemma reveal_closes_announcements_witness :
  SubmitTaskResult (AccAddress_String operator_one) revealed_one sample_v7 = (Ok tt, sample_v8) ∧
  SubmitTaskResult (AccAddress_String operator_two) announced_late sample_v8 ≠ (Ok tt, sample_v8).
Proof.
  split; [conv_refl|].
  apply (reveal_closes_announcements sample_v7 (AccAddress_String operator_one) revealed_one tt sample_v8 sample_v8
    _ _ _ _ (hour 8) (hour 8)).
  - exact sample_v7_inv.
  - by vm_compute.
  - done.
  - conv_refl.
  - constructor.
  - conv_refl.
  - done.
  - done.
  - conv_refl.
  - conv_refl.
  - done.
Defined.

Definition sample_challenge : ChallengeParams := {|
  cp_TaskContractAddress := task_contract; cp_TaskID := 1; cp_CallerAddress := avs_contract;
  cp_ActualThreshold := 70; cp_IsExpected := true; cp_EligibleRewardOperators := [operator_one];
  cp_EligibleSlashOperators := [operator_two] |}.

Definition sample_v9 : SampleAvs := at_hour 9 sample_store8.
Definition sample_store10 : AvsState := Eval vm_compute in x_avs (RaiseAndResolveChallenge sample_challenge sample_v9).2.
Definition sample_v10 : SampleAvs := at_hour 9 sample_store10.

Lemma challenge_once_witness :
  (∃ task epoch, taskInfos (x_avs sample_v9) !! task_key (lower_hex task_contract) (FormatUint 1) = Some task ∧
     task_epoch sample_v9 (tk_TaskContractAddress task) = Some epoch ∧
     statistical_end task < ei_CurrentEpoch epoch ∧
     tk_IsExpected task = false ∧
     taskInfos (x_avs sample_v10) !! task_key (lower_hex task_contract) (FormatUint 1) =
       Some (resolved_task sample_challenge task)) ∧
  RaiseAndResolveChallenge sample_challenge sample_v10 ≠ (Ok tt, sample_v10).
Proof.
  apply (challenge_once sample_challenge sample_v9 tt sample_v10 sample_v10 sample_challenge).
  - done.
  - exact sample_v8_inv.
  - conv_refl.
  - constructor.
  - done.
  - done.
Defined.

Lemma eligible_operators_lost_witness :
  ∃ task shown, GetTaskInfo (FormatUint 1) (Address_Hex task_contract) (x_avs sample_v9) = Ok task ∧
    RunQuery (MethodGetTaskInfo task_contract 1) sample_v10 = Ok (Answer_task shown) ∧
    to_ActualThreshold shown = FormatUint 70 ∧
    to_IsExpected shown = (tk_ThresholdPercentage task <=? 70) ∧
    to_SignedOperators shown = stringToAddress (tk_SignedOperators task) ∧
    to_TaskTotalPower shown = tk_TaskTotalPower task ∧
    to_EligibleRewardOperators shown = [zero_address] ∧ to_EligibleSlashOperators shown = [zero_address].
Proof.
  apply (eligible_operators_lost sample_hex_no_bech32 sample_BytesToAddress_empty sample_challenge sample_v9 tt sample_v10).
  - done.
  - exact sample_v8_inv.
  - conv_refl.
Defined.

Definition sample_task_params : TaskInfoParams := {|
  tp_TaskContractAddress := task_contract; tp_TaskName := "price"; tp_Hash := "hash"; tp_TaskID := 0;
  tp_TaskResponsePeriod := 1; tp_TaskStatisticalPeriod := 1; tp_TaskChallengePeriod := 1;
  tp_ThresholdPercentage := 60; tp_CallerAddress := avs_owner |}.

Lemma sample_v3_inv : avs_inv (x_avs sample_v3).
Proof.
  apply (sample_inv sample_v1); [exact sample_v1_inv|].
  eapply rtc_l; [eapply sample_step, sample_run2; [done|done|conv_refl]|].
  eapply rtc_once, sample_step, sample_run3; [done|done|conv_refl].
Qed.

Lemma CreateAVSTask_fresh_witness :
  taskInfos (x_avs sample_v3) !! task_key (lower_hex task_contract) (FormatUint 1) = None ∧
  ∃ epoch operators k info, avsInfos (x_avs sample_v3) !! k = Some info ∧
    av_TaskAddress info = lower_hex task_contract ∧
    AccAddress_String avs_owner ∈ av_AvsOwnerAddresses info ∧ operators ≠ [] ∧
    taskInfos (x_avs sample_v4) = <[task_key (lower_hex task_contract) (FormatUint 1) :=
      new_task sample_task_params 1 epoch operators]> (taskInfos (x_avs sample_v3)).
Proof.
  destruct (CreateAVSTask_fresh sample_task_params sample_v3 1 sample_v4) as
    (_ & Hnone & epoch & ops & k & info & Hk & Htask & _ & Howner & _ & _ & Hne & Hinfos).
  - done.
  - exact sample_v3_inv.
  - by vm_compute.
  - conv_refl.
  - split; [exact Hnone|]. exists epoch, ops, k, info. done.
Defined.

(** A new name for the AVS. *)
Definition renamed_args : AvsArgs := {|
  aa_Sender := avs_owner; aa_AvsName := "renamed"; aa_MinStakeAmount := 1; aa_TaskAddress := task_contract;
  aa_SlashAddress := zero_address; aa_RewardAddress := zero_address;
  aa_AvsOwnerAddresses := Some [avs_owner]; aa_WhitelistAddresses := Some []; aa_AssetIDs := Some [];
  aa_AvsUnbondingPeriod := 2; aa_MinSelfDelegation := 0; aa_EpochIdentifier := "hour";
  aa_MiniOptInOperators := 1; aa_MinTotalStakeAmount := 1; aa_AvsRewardProportion := 5;
  aa_AvsSlashProportion := 5 |}.
Definition sample_renamed : SampleAvs := Eval vm_compute in (call avs_contract (MethodUpdateAVS renamed_args) sample_v1).2.
Definition sample_avs_info : AVSInfo := Eval vm_compute in
  default AVSInfo_zero (avsInfos (x_avs sample_v1) !! avs_contract).

Lemma sample_renamed_name :
  (av_Name <$> avsInfos (x_avs sample_renamed) !! avs_contract) = Some "renamed".
Proof. conv_refl. Qed.

Lemma registry_authority_witness :
  for_owner avs_contract avs_owner (MethodUpdateAVS renamed_args) sample_v1 sample_renamed avs_contract sample_avs_info.
Proof.
  apply (registry_authority avs_chain_id avs_contract avs_owner sample_assets0 (MethodUpdateAVS renamed_args)
    sample_v1 (Packed_bool true) sample_renamed).
  - done.
  - done.
  - exact sample_v1_inv.
  - conv_refl.
  - conv_refl.
  - intros Heq. pose proof sample_renamed_name as Hname. rewrite Heq in Hname. discriminate Hname.
Defined.

Definition sample_chain_params : ChainAVSParams := {|
  ca_ChainID := "imua"; ca_AvsName := "imua"; ca_AssetIDs := []; ca_UnbondingPeriod := 7;
  ca_MinSelfDelegation := 0; ca_EpochIdentifier := "hour" |}.
Definition sample_chain_avs : string := Eval vm_compute in HexToAddress (GenerateAVSAddress "imua").
Definition sample_chain_state : SampleAvs := Eval vm_compute in
  (@RegisterAVSWithChainID _ (avs_keeper avs_chain_id) sample_assets0 sample_chain_params sample_v1).2.

Lemma chain_avs_permanent_witness :
  chain_entry sample_chain_state sample_chain_avs "imua" ∧
  @RegisterAVSWithChainID _ (avs_keeper avs_chain_id) sample_assets0 sample_chain_params sample_chain_state =
    (Ok (true, sample_chain_avs), sample_chain_state).
Proof.
  destruct (chain_avs_permanent avs_chain_id sample_assets0 sample_chain_params sample_v1 sample_chain_avs
    sample_chain_state sample_chain_state) as (He & _ & _ & Hagain).
  - exact sample_v1_inv.
  - conv_refl.
  - constructor.
  - split; [exact He|]. by apply Hagain.
Defined.

(** The results that are due at the end of hour 8. *)
Definition due_results : list TaskResultInfo := [with_hash (Hash_String (Keccak256 "42")) revealed_one; {|
  tr_OperatorAddress := AccAddress_String operator_two; tr_TaskResponseHash := EmptyString;
  tr_TaskResponse := None; tr_BlsSignature := Some (signature bls_two);
  tr_TaskContractAddress := Address_Hex task_contract; tr_TaskId := 1; tr_Phase := PhasePrepare |}].

Lemma sample_due : GetTaskStatisticalEpochEndAVSs "hour" 8 (x_avs sample_v8) = due_results.
Proof. conv_refl. Qed.

Lemma sample_one_spelling : one_spelling (GetTaskStatisticalEpochEndAVSs "hour" 8 (x_avs sample_v8)).
Proof.
  rewrite sample_due. intros r r' Hr Hr' _. transitivity (Address_Hex task_contract); [|symmetry];
    [clear Hr'|clear Hr; rename Hr' into Hr]; unfold due_results in Hr;
    rewrite !elem_of_cons in Hr; destruct Hr as [->|[->|[]%not_elem_of_nil]]; done.
Qed.

Lemma AfterEpochEnd_counts_witness :
  avs_AfterEpochEnd map_to_list "hour" 8 sample_v8 = (Ok tt, with_tasks (counted_tasks "hour" 8 sample_v8) sample_v8) ∧
  (tk_SignedOperators <$> counted_tasks "hour" 8 sample_v8 !! task_key (lower_hex task_contract) (FormatUint 1)) =
    Some [AccAddress_String operator_one].
Proof.
  split; [|conv_refl]. apply AfterEpochEnd_counts.
  - exact sample_v8_inv.
  - exact sample_one_spelling.
  - done.
Defined.

Lemma avs_genesis_roundtrip_witness :
  ∃ gs, Avs_ExportGenesis (x_avs sample_v8) = Ok gs ∧ AvsGenesis_Validate gs = Ok tt ∧
    avs_inv (reimported (x_avs sample_v8)) ∧
    Avs_InitGenesis gs sample_v0 = (Ok tt, put_rest {| ae_avs := reimported (x_avs sample_v8);
      ae_rest := hours 5 |} sample_v0).
Proof. exact (avs_genesis_roundtrip (x_avs sample_v8) sample_v0 sample_v8_inv eq_refl). Defined.
