(* ===== verification/AvsLimits.v ===== *)
(** * What the avs module does not prevent

    Three behaviours: anyone can announce a result for an operator, in every state in which
    the operator could; and, on the sample AVS, the count of a task depends on the order of a
    Go map when operators spell its address differently, and the authorization of a
    challenge looks at its arguments only. *)

From S2P Require Import Prelude Errors Sdk RefSdk KVStore Epochs DelegationTypes Assets.
From S2P Require Import DelegationStore UndelegationStore Delegation OperatorTypes.
From S2P Require Import OperatorStore OperatorSnapshot OperatorKeepers OperatorUnbonding OperatorUSD.
From S2P Require Import OperatorOpt ChainUtils DogfoodTypes DogfoodStore DogfoodKeepers.
From S2P Require Import AvsTypes AvsStore AvsInv AvsRegistry AvsTasks AvsWrites AvsGenesis.
From S2P Require Import AvsPrecompile AvsSteps AvsAuthority AvsEpochEnd AvsRef AvsSample.

(** ** The order of the groups *)

(** Operator two spells the address of the task in lower case, which a message can do. *)
Definition announced_two : TaskResultInfo := {|
  tr_OperatorAddress := AccAddress_String operator_two; tr_TaskResponseHash := EmptyString;
  tr_TaskResponse := None; tr_BlsSignature := Some (signature bls_two);
  tr_TaskContractAddress := lower_hex task_contract; tr_TaskId := 1; tr_Phase := PhasePrepare |}.
Definition revealed_two : TaskResultInfo := {|
  tr_OperatorAddress := AccAddress_String operator_two; tr_TaskResponseHash := EmptyString;
  tr_TaskResponse := Some "42"; tr_BlsSignature := Some (signature bls_two);
  tr_TaskContractAddress := lower_hex task_contract; tr_TaskId := 1; tr_Phase := PhaseDoCommit |}.

Definition spelled_store6 : AvsState := Eval vm_compute in
  x_avs (SubmitTaskResult (AccAddress_String operator_two) announced_two sample_v5).2.
Definition spelled_store7 : AvsState := Eval vm_compute in
  x_avs (call avs_contract (revelation operator_one bls_one) (at_hour 8 spelled_store6)).2.
Definition spelled_store8 : AvsState := Eval vm_compute in
  x_avs (SubmitTaskResult (AccAddress_String operator_two) revealed_two (at_hour 8 spelled_store7)).2.

Lemma spelled_steps : rtc avs_step sample_v5 (at_hour 8 spelled_store8).
Proof.
  eapply rtc_l; [eapply (step_message _ (at_hour 5 spelled_store6) (AccAddress_String operator_two) announced_two tt);
    [by vm_compute|conv_refl]|].
  eapply rtc_l; [apply (sample_step_hour _ 8)|].
  eapply rtc_l; [eapply (sample_step avs_contract (revelation operator_one bls_one) (Packed_bool true) _ (at_hour 8 spelled_store7));
    [done|by vm_compute|conv_refl|conv_refl]|].
  apply rtc_once. eapply (step_message _ _ (AccAddress_String operator_two) revealed_two tt);
    [by vm_compute|conv_refl].
Qed.

Definition signed_operators (x : SampleAvs) : option (list string) :=
  tk_SignedOperators <$> taskInfos (x_avs x) !! task_key (lower_hex task_contract) (FormatUint 1).

(** C35.  The count depends on the order of a Go map.  In a state that transactions and
    messages reach, two operators revealed the same response and spelled the address of the
    task in two ways; the hook makes two groups of them, and each replaces what the other
    wrote: one order of the groups leaves the first operator as the only one that signed,
    the reverse order leaves the second, though both orders are possible. *)
Theorem epoch_end_order_matters :
  ∃ (x : SampleAvs) range range', rtc avs_step sample_v0 x ∧
    (∀ m, range m ≡ₚ map_to_list m) ∧ (∀ m, range' m ≡ₚ map_to_list m) ∧
    (avs_AfterEpochEnd range "hour" 8 x).1 = Ok tt ∧ (avs_AfterEpochEnd range' "hour" 8 x).1 = Ok tt ∧
    signed_operators (avs_AfterEpochEnd range "hour" 8 x).2 = Some [AccAddress_String operator_one] ∧
    signed_operators (avs_AfterEpochEnd range' "hour" 8 x).2 = Some [AccAddress_String operator_two].
Proof.
  exists (at_hour 8 spelled_store8), map_to_list, (λ m, reverse (map_to_list m)).
  split; [exact (transitivity sample_steps1 (transitivity sample_steps4 (transitivity sample_steps5 spelled_steps)))|].
  split; [done|]. split; [intros m; apply reverse_Permutation|].
  split; [conv_refl|]. split; [conv_refl|]. split; conv_refl.
Qed.

(** ** Who can announce *)

Section Announce.
Context {sdk : Sdk} {chain : ChainSdk} {avs : AvsSdk} {R : Type} {peers : AvsPeers R}.
Context {laws : SdkLaws sdk} {al : AddressLaws sdk chain} {avsl : AvsSdkLaws avs}.
Implicit Types (a : AssetsState) (x : OperatorExt (AvsExt R)).

(** After an announcement, the operator is only heard with the same signature. *)
Lemma announced_only x op t id sig addr info u x' :
  avs_inv (x_avs x) → announced_signature (x_avs x) op (Address_Hex t) id sig →
  tr_OperatorAddress info = AccAddress_String op → ToLower (tr_TaskContractAddress info) = lower_hex t →
  tr_TaskId info = id →
  SubmitTaskResult addr info x = (Ok u, x') → bytes_of (tr_BlsSignature info) = sig ∧ tr_Phase info = PhaseDoCommit.
Proof.
  intros Hinv (r & Hr & Hsig) Hop Haddr Hid Hrun. apply SubmitTaskResult_Ok in Hrun as (r' & Hacc & _); [|done..].
  destruct Hacc as [[hash ->] _ (t' & task & i & epoch & _ & _ & _ & _ & _ & _ & Hphase)].
  assert (∀ o, result_key o (tr_TaskContractAddress info) id = result_key o (Address_Hex t) id) as Hkey.
  { intros o. unfold result_key. by rewrite Haddr. }
  unfold IsExistTaskResultInfo in Hphase. rewrite Hop, Hid, !Hkey in Hphase.
  destruct Hphase as [(_ & _ & Hno)|([Hp _] & _ & r0 & Hr0 & Hsig0)].
  - exfalso. rewrite AccAddress_String_lower in Hno. apply is_some_false in Hno. congruence.
  - split; [congruence|exact Hp].
Qed.

(** The first phase does not look at the signature. *)
Definition with_signature (sig : string) (info : TaskResultInfo) : TaskResultInfo := {|
  tr_OperatorAddress := tr_OperatorAddress info; tr_TaskResponseHash := tr_TaskResponseHash info;
  tr_TaskResponse := tr_TaskResponse info; tr_BlsSignature := Some sig;
  tr_TaskContractAddress := tr_TaskContractAddress info; tr_TaskId := tr_TaskId info;
  tr_Phase := tr_Phase info |}.

Lemma store_any_signature sig info s u s' :
  SetTaskResultInfo info s = (Ok u, s') → ∃ s1, SetTaskResultInfo (with_signature sig info) s = (Ok tt, s1).
Proof.
  unfold SetTaskResultInfo. cbn. destruct (AccAddressFromBech32 _); [|done].
  destruct (negb _); [done|]. intros _. by eexists.
Qed.

Lemma bind_any {S A B} (m : M S error A) (k k' : A → M S error B) s r s' :
  (m ≫= k) s = (Ok r, s') →
  (∀ v s1, k v s1 = (Ok r, s') → ∃ r2 s2, k' v s1 = (Ok r2, s2)) → ∃ r2 s2, (m ≫= k') s = (Ok r2, s2).
Proof. unfold mbind, M_bind. destruct (m s) as [[v|e|] s1]; [|done..]. eauto. Qed.

Lemma prepare_any_signature sig addr info x u x' :
  tr_Phase info = PhasePrepare → SubmitTaskResult addr info x = (Ok u, x') →
  ∃ u1 x1, SubmitTaskResult addr (with_signature sig info) x = (Ok u1, x1).
Proof.
  intros Hphase Hrun. unfold SubmitTaskResult in *. cbn [with_signature tr_OperatorAddress
    tr_TaskContractAddress tr_TaskId tr_Phase] in *. rewrite Hphase in *.
  change (PhasePrepare =? PhasePrepare) with true in *.
  do 6 (eapply bind_any; [exact Hrun|clear Hrun; intros ?? Hrun]).
  destruct (_ : result error TaskInfo) as [task|e|]; [|done..].
  do 2 (eapply bind_any; [exact Hrun|clear Hrun; intros ?? Hrun]).
  destruct (_ : option EpochInfo) as [epoch|]; [|done]. unfold submit_prepare in *.
  do 2 (eapply bind_any; [exact Hrun|clear Hrun; intros ?? Hrun]).
  apply bind_Ok in Hrun as (? & ? & Hsome & Hrun). apply fail_if_Ok in Hsome as [_ <-].
  apply (bind_any (mret ()) (λ _, _)) with (1 := Hrun). clear Hrun. intros _ ? Hrun.
  do 2 (eapply bind_any; [exact Hrun|clear Hrun; intros ?? Hrun]).
  unfold on_avs in *. go_inv. edestruct (store_any_signature sig) as [? Hs1]; [eassumption|].
  eexists _, _. by do 2 eapply zoom_run.
Qed.

(** An announcement through the precompile. *)
Definition prepare_args (op t : string) (id : Z) (sig : string) : SubmitArgs := {|
  sa_Caller := op; sa_TaskID := id; sa_TaskResponse := EmptyString; sa_BlsSignature := sig;
  sa_TaskAddress := t; sa_Phase := PhasePrepare |}.

Lemma submit_accepted ChainID caller origin a args x x' :
  Run ChainID caller origin a (MethodOperatorSubmitTask args) x = (Ok (Packed_bool true), x') ↔
  sa_Caller args ≠ zero_address ∧ sa_TaskAddress args ≠ zero_address ∧ ValidatePhase (sa_Phase args) = true ∧
  ∃ u, SubmitTaskResult (AccAddress_String (sa_Caller args)) (submitted_result args) x = (Ok u, x').
Proof.
  cbn [Run]. unfold run_tx. split.
  - destruct (OperatorSubmitTask args x) as [[[b|]|e|] x1] eqn:Hsub; [|done..]. intros [= -> ->].
    unfold OperatorSubmitTask, non_zero in Hsub. go_inv. test_facts. eauto.
  - intros (Hc & Ht & Hp & u & Hsub). unfold OperatorSubmitTask, non_zero.
    rewrite !bool_decide_false, Hp by done. cbn. unfold mbind, M_bind, fail_if, mret, M_ret. cbn. by rewrite Hsub.
Qed.

(** C36.  An announcement is not authenticated.  In any state in which an operator could
    announce its signature for a task, any contract that calls the precompile, in a
    transaction that anyone signs, can announce any other signature in the name of this
    operator instead; and in every later state neither the precompile nor the message
    accepts, under the canonical spelling of its address, an announcement or a response of
    the operator with its own signature. *)
Theorem announcement_squatting ChainID0 caller0 origin0 a0 x x0 op t id own fake :
  avs_inv (x_avs x) → is_u64 id → own ≠ fake →
  Run ChainID0 caller0 origin0 a0 (MethodOperatorSubmitTask (prepare_args op t id own)) x =
    (Ok (Packed_bool true), x0) →
  ∃ x1, (∀ ChainID caller origin a,
      Run ChainID caller origin a (MethodOperatorSubmitTask (prepare_args op t id fake)) x =
        (Ok (Packed_bool true), x1)) ∧
    ∀ x2, rtc avs_step x1 x2 →
      (∀ ChainID caller origin a args x3, sa_Caller args = op → sa_TaskAddress args = t →
         sa_TaskID args = id → sa_BlsSignature args = own →
         Run ChainID caller origin a (MethodOperatorSubmitTask args) x2 ≠ (Ok (Packed_bool true), x3)) ∧
      (∀ addr info u x3, tr_OperatorAddress info = AccAddress_String op →
         ToLower (tr_TaskContractAddress info) = lower_hex t → tr_TaskId info = id →
         bytes_of (tr_BlsSignature info) = own → SubmitTaskResult addr info x2 ≠ (Ok u, x3)).
Proof.
  intros Hinv Hid Hne (Hop & Ht & _ & u & Hrun)%submit_accepted.
  apply (prepare_any_signature fake) in Hrun as (u1 & x1 & Hfake); [|done].
  exists x1. split; [intros; apply submit_accepted; eauto|]. intros x2 Hsteps.
  assert (avs_inv (x_avs x1)) as Hinv1 by by eapply SubmitTaskResult_inv in Hfake as [? _].
  destruct (avs_steps_keep _ _ Hinv1 Hsteps) as [Hinv2 _].
  apply SubmitTaskResult_Ok in Hfake as (r & Hacc & Hx1); [|done].
  assert (announced_signature (x_avs x1) op (Address_Hex t) id fake) as Hann.
  { exists r. rewrite Hx1. split; [apply lookup_insert_eq|].
    destruct Hacc as [[hash ->] _ _]. cbn. by rewrite bytes_of_decoded. }
  apply (announced_steps _ x2) in Hann; [|done..]. split.
  - intros ? ? ? ? args x3 <- <- <- Hsig (_ & _ & _ & u' & Hsub)%submit_accepted.
    eapply announced_only in Hsub as [Hs _]; [|done..]. by cbn in Hs; subst.
  - intros addr info u' x3 Ho Ha Hi Hsig Hsub. eapply announced_only in Hsub as [Hs _]; [|done..]. congruence.
Qed.
End Announce.

(** Operator one can announce its signature in the sample; a stranger does so before it. *)
Definition squatted_store : AvsState := Eval vm_compute in
  x_avs (call avs_owner (announcement operator_one "stranger") sample_v4).2.

Lemma squatted_first :
  call avs_owner (announcement operator_one "stranger") sample_v4 = (Ok (Packed_bool true), at_hour 5 squatted_store).
Proof. conv_refl. Qed.

Lemma announcement_squatting_witness :
  call avs_owner (announcement operator_one "stranger") sample_v4 = (Ok (Packed_bool true), at_hour 5 squatted_store) ∧
  call avs_contract (revelation operator_one bls_one) (at_hour 8 squatted_store) ≠
    (Ok (Packed_bool true), at_hour 8 squatted_store).
Proof.
  split; [exact squatted_first|].
  destruct (announcement_squatting avs_chain_id avs_contract avs_owner sample_assets0 sample_v4 sample_v5
    operator_one task_contract 1 (signature bls_one) "stranger") as (x1 & Hrun & Hlater).
  - exact sample_v4_inv.
  - by vm_compute.
  - by vm_compute.
  - conv_refl.
  - pose proof (eq_trans (eq_sym (Hrun _ _ _ _)) squatted_first) as [= ->]. clear Hrun.
    apply (Hlater (at_hour 8 squatted_store)); [|done..]. apply rtc_once, sample_step_hour.
Defined.

(** ** Who can challenge *)

Definition challenge_args : ChallengeArgs := {|
  ca_Caller := avs_contract; ca_TaskID := 1; ca_TaskAddress := task_contract; ca_ActualThreshold := 70;
  ca_IsExpected := true; ca_EligibleRewardOperators := [operator_one]; ca_EligibleSlashOperators := [operator_two] |}.

(** The AVS that a challenge names is an argument: the contract that calls and the sender
    of the transaction make no difference. *)
Lemma Challenge_any_caller ChainID caller origin caller' origin' (x : SampleAvs) :
  Run ChainID caller origin sample_assets0 (MethodChallenge challenge_args) x =
  Run ChainID caller' origin' sample_assets0 (MethodChallenge challenge_args) x.
Proof. done. Qed.

(** The AVS is stored in lower case by its registration and compared with its mixed-case
    form: it is refused, though the challenge itself would be accepted. *)
Lemma Challenge_case_mismatch :
  call avs_contract (MethodChallenge challenge_args) sample_v9 = (Ok (Packed_bool false), sample_v9) ∧
  (RaiseAndResolveChallenge (challenge_params challenge_args) sample_v9).1 = Ok tt.
Proof. split; conv_refl. Qed.
