(* ===== verification/OracleAlgo.v ===== *)
(** * The median of x/oracle (keeper/feedermanagement/algo.go)

    The aggregation algorithm.  A price is a decimal string with a number of decimals.
    [PriceResult]s are shared by pointers, and adding a price with fewer decimals writes
    the padded string back through its pointer, so they live in a heap: the list of all
    results that were allocated, with their index as the pointer. *)

From S2P Require Import Prelude Sdk RefSdk AvsTypes AvsInv.

Definition wrap_int32 (z : Z) : Z := (z + 2 ^ 31) mod 2 ^ 32 - 2 ^ 31.

(** ** Integers as strings *)

Definition decimal_value (s : string) : option Z :=
  if negb (bool_decide (s = EmptyString)) && all_decimal s then Some (undigits 10 AvsTypes.dec_value 0 s)
  else None.

(** [new(big.Int).SetString(s, 10)] *)
Definition SetString (s : string) : option Z :=
  match s with
  | String "-" s => Z.opp <$> decimal_value s
  | String "+" s => decimal_value s
  | _ => decimal_value s
  end%char.

(** The digits of a number that is not negative; a number has no more of them than bits. *)
Definition decimal_string (n : Z) : string := strip_zeros (digits 10 dec_char (S (Z.to_nat (Z.log2 n))) n).

(** [String] of a [big.Int] *)
Definition Int_String (n : Z) : string :=
  if n <? 0 then String "-"%char (decimal_string (- n)) else decimal_string n.

(** [strings.Repeat] *)
Fixpoint Repeat0 (n : nat) : string :=
  match n with O => EmptyString | S n => String "0"%char (Repeat0 n) end.

(** ** Prices *)

(** [PriceTimeDetID], [PriceInfo] and [PriceResult] *)
Record PriceInfo := { p_Price : string; p_Decimal : Z; p_Timestamp : string; p_DetID : string }.
Definition PriceResult := PriceInfo.

#[global] Instance PriceInfo_eq_dec : EqDecision PriceInfo.
Proof. solve_decision. Defined.

Definition EqualDS (p p2 : PriceInfo) : bool :=
  bool_decide (p_Price p = p_Price p2) && bool_decide (p_DetID p = p_DetID p2) &&
  (p_Decimal p =? p_Decimal p2).

Definition set_Price (price : string) (p : PriceResult) : PriceResult := {|
  p_Price := price; p_Decimal := p_Decimal p; p_Timestamp := p_Timestamp p; p_DetID := p_DetID p |}.
Definition set_DetID (detID : string) (p : PriceResult) : PriceResult := {|
  p_Price := p_Price p; p_Decimal := p_Decimal p; p_Timestamp := p_Timestamp p; p_DetID := detID |}.

(** ** The median *)

(** [big.Int.Div] rounds down when the divisor is positive. *)
Definition Median (b : list Z) : option Z :=
  let b := merge_sort Z.le b in
  let l := length b in
  if bool_decide (l = 0%nat) then None
  else if Nat.odd l then b !! Nat.div2 l
  else hi ← b !! Nat.div2 l; lo ← b !! (Nat.div2 l - 1)%nat; Some ((hi + lo) / 2).

Inductive priceType := notSet | number | notNumber.

#[global] Instance priceType_eq_dec : EqDecision priceType.
Proof. solve_decision. Defined.

Record AggMedian := { am_t : priceType; am_finalString : string; am_list : list Z; am_decimal : Z }.

Definition NewAggMedian : AggMedian :=
  {| am_t := notSet; am_finalString := EmptyString; am_list := []; am_decimal := 0 |}.

(** ** The algorithm on the heap *)

(** The errors of the oracle, most of them messages. *)
Inductive oracle_error :=
| ErrSourceMismatch | ErrEmptyPrices | ErrOldTimestamp | ErrDuplicatedDetID | ErrNoSourceAdded
| ErrWindowNotOpen | ErrNoPower | ErrInvalidSource | ErrQuoteRecorded
| ErrMaxNonceExceeded | ErrNonConsecutiveNonce | ErrFeederNotFound | ErrValidatorNotActive
| ErrAccumulatePrice | ErrTWAPFallback | ErrInvalidMsg.

Record Mem := { m_heap : list PriceResult; m_algo : AggMedian }.
Abbreviation loc := nat (only parsing).

Definition set_algo (a : AggMedian) (m : Mem) : Mem := {| m_heap := m_heap m; m_algo := a |}.
Definition set_heap (h : list PriceResult) (m : Mem) : Mem := {| m_heap := h; m_algo := m_algo m |}.

Definition alloc (p : PriceResult) : M Mem oracle_error loc :=
  l ← gets (λ m, length (m_heap m));
  _ ← modify (λ m, set_heap (m_heap m ++ [p]) m);
  mret l.

Definition load (l : loc) : M Mem oracle_error PriceResult :=
  found ← gets (λ m, m_heap m !! l);
  match found with Some p => mret p | None => panic end.

Definition write (l : loc) (p : PriceResult) : M Mem oracle_error unit :=
  modify (λ m, set_heap (<[l := p]> (m_heap m)) m).

Definition Reset : M Mem oracle_error unit := modify (set_algo NewAggMedian).

Definition add_number (v decimal : Z) (l : list Z) (a : AggMedian) : AggMedian :=
  {| am_t := number; am_finalString := am_finalString a; am_list := l ++ [v]; am_decimal := decimal |}.

(** A price that is a number.  The difference of the decimals is an int32; [Repeat] panics
    on a negative count, and a power with a negative exponent is one. *)
Definition Add_number (l : loc) (price : PriceResult) (priceInt : Z) (a : AggMedian) : M Mem oracle_error bool :=
  match am_t a with
  | notNumber => mret false
  | notSet =>
      _ ← modify (set_algo (add_number priceInt (p_Decimal price) (am_list a) a)); mret true
  | number =>
      if p_Decimal price <? am_decimal a then
        let count := wrap_int32 (am_decimal a - p_Decimal price) in
        if count <? 0 then panic
        else
          let padded := p_Price price +:+ Repeat0 (Z.to_nat count) in
          _ ← write l (set_Price padded price);
          _ ← modify (set_algo (add_number (default 0 (SetString padded)) (am_decimal a) (am_list a) a));
          mret true
      else
        let delta := wrap_int32 (p_Decimal price - am_decimal a) in
        _ ← modify (set_algo (add_number priceInt (p_Decimal price)
              ((λ v, v * 10 ^ Z.max 0 delta) <$> am_list a) a));
        mret true
  end.

(** A price that is not a number. *)
Definition Add_string (price : PriceResult) (a : AggMedian) : M Mem oracle_error bool :=
  match am_t a with
  | number => mret false
  | notSet =>
      _ ← modify (set_algo {| am_t := notNumber; am_finalString := p_Price price;
                              am_list := am_list a; am_decimal := p_Decimal price |});
      mret true
  | notNumber =>
      mret (bool_decide (am_finalString a = p_Price price) && (am_decimal a =? p_Decimal price))
  end.

Definition Add (l : loc) : M Mem oracle_error bool :=
  price ← load l;
  a ← gets m_algo;
  match SetString (p_Price price) with
  | Some priceInt => Add_number l price priceInt a
  | None => Add_string price a
  end.

(** The result is new, and the algorithm starts again. *)
Definition GetResult : M Mem oracle_error (option loc) :=
  a ← gets m_algo;
  _ ← Reset;
  let result price := {| p_Price := price; p_Decimal := am_decimal a;
                         p_Timestamp := EmptyString; p_DetID := EmptyString |} in
  match am_t a with
  | notSet => mret None
  | number =>
      match Median (am_list a) with
      | Some median => l ← alloc (result (Int_String median)); mret (Some l)
      | None => panic
      end
  | notNumber =>
      if bool_decide (am_finalString a = EmptyString) then mret None
      else l ← alloc (result (am_finalString a)); mret (Some l)
  end.

(** ** Strings and integers *)

Lemma all_decimal_strip s : all_decimal s = true → all_decimal (strip_zeros s) = true.
Proof.
  induction s as [|d s IH]; [done|]. cbn [all_decimal]. intros [Hd Hs]%andb_true_iff.
  cbn [strip_zeros]. repeat case_match; subst; try (by apply IH); cbn [all_decimal] in *; by rewrite ?Hd, ?Hs.
Qed.

Lemma digits_all_decimal n z : all_decimal (digits 10 dec_char n z) = true.
Proof.
  induction n as [|n IH]; [done|]. cbn [digits all_decimal]. rewrite IH, andb_true_r.
  pose proof (Z.mod_pos_bound (z / 10 ^ Z.of_nat n) 10). rewrite dec_char_value by lia.
  apply andb_true_iff. split; [apply Z.leb_le|apply Z.ltb_lt]; lia.
Qed.

Lemma decimal_value_string n : 0 ≤ n → decimal_value (decimal_string n) = Some n.
Proof.
  intros Hn. unfold decimal_value, decimal_string.
  rewrite bool_decide_false by by apply strip_zeros_nonempty.
  rewrite all_decimal_strip, strip_zeros_dec by apply digits_all_decimal. cbn [negb andb]. f_equal.
  apply undigits_digits; [lia|apply dec_char_value|]. split; [done|].
  apply Z.lt_le_trans with (2 ^ Z.succ (Z.log2 n)).
  - destruct (decide (n = 0)) as [->|]; [done|]. apply Z.log2_spec. lia.
  - pose proof (Z.log2_nonneg n). rewrite Nat2Z.inj_succ, Z2Nat.id by done. apply Z.pow_le_mono_l. lia.
Qed.

Lemma SetString_Int_String n : SetString (Int_String n) = Some n.
Proof.
  unfold Int_String. destruct (n <? 0) eqn:Hn.
  - apply Z.ltb_lt in Hn. cbn [SetString]. rewrite decimal_value_string by lia. cbn. f_equal. lia.
  - apply Z.ltb_ge, decimal_value_string in Hn as Hv. revert Hv.
    destruct (decimal_string n) as [|c s]; [done|]. cbn [SetString]. unfold decimal_value.
    cbn [all_decimal]. repeat (case_match; subst; try done).
Qed.

(** ** The median is robust *)

Lemma sorted_around (s : list Z) k x :
  StronglySorted Z.le s → s !! k = Some x →
  Forall (λ y, y ≤ x) (take k s) ∧ Forall (λ y, x ≤ y) (drop k s).
Proof.
  intros Hs Hk. rewrite <-(take_drop_middle s k x Hk) in Hs.
  apply StronglySorted_app in Hs as (Hall & _ & Hd).
  inversion Hd as [|? ? _ Hx]; subst. split.
  - apply Forall_forall. intros y Hy. apply Hall; [done|left].
  - rewrite (drop_S _ x) by done. by constructor.
Qed.

Definition between (lo hi v : Z) : Prop := lo ≤ v ≤ hi.
#[global] Instance between_dec lo hi v : Decision (between lo hi v).
Proof. unfold between. apply _. Defined.

Lemma count_outside (P : Z → Prop) `{!∀ x, Decision (P x)} (s s1 s2 : list Z) :
  s ≡ₚ s1 ++ s2 → Forall (λ y, ¬ P y) s2 → (length (filter P s) ≤ length s1)%nat.
Proof.
  intros -> Hno. rewrite filter_app, length_app.
  assert (filter P s2 = []) as ->.
  { induction Hno as [|y s2 Hy Hno IH]; [done|]. by rewrite filter_cons_False. }
  pose proof (length_filter P s1). cbn. lia.
Qed.

(** An element of the sorted list with at most half of the list on either side of it is
    in every interval that holds more than half of the elements. *)
Lemma middle_in (s : list Z) lo hi k x :
  StronglySorted Z.le s → s !! k = Some x →
  (length s < 2 * length (filter (between lo hi) s))%nat →
  (2 * k ≤ length s ≤ 2 * S k)%nat → between lo hi x.
Proof.
  intros Hs Hk Hmaj Hmid. destruct (sorted_around s k x Hs Hk) as [Hle Hge].
  pose proof (lookup_lt_Some _ _ _ Hk) as Hlt. split; apply Z.nlt_ge; intros Hout.
  - pose proof (count_outside (between lo hi) s (drop (S k) s) (take (S k) s)) as Hc.
    rewrite length_drop in Hc. assert ((length (filter (between lo hi) s) ≤ length s - S k)%nat); [|lia].
    apply Hc; [by rewrite Permutation_app_comm, take_drop|]. rewrite (take_S_r _ _ x) by done.
    apply Forall_app. split; [|repeat constructor; unfold between; lia].
    eapply Forall_impl; [exact Hle|]. unfold between. lia.
  - pose proof (count_outside (between lo hi) s (take k s) (drop k s)) as Hc.
    rewrite length_take in Hc. assert ((length (filter (between lo hi) s) ≤ k `min` length s)%nat); [|lia].
    apply Hc; [by rewrite take_drop|]. eapply Forall_impl; [exact Hge|]. unfold between. lia.
Qed.

Lemma merge_sort_sorted l : StronglySorted Z.le (merge_sort Z.le l).
Proof. apply StronglySorted_merge_sort; apply _. Qed.

Lemma Median_perm l l' : l ≡ₚ l' → Median l = Median l'.
Proof.
  intros Hl. unfold Median. assert (merge_sort Z.le l = merge_sort Z.le l') as ->; [|done].
  apply (StronglySorted_unique Z.le); [apply merge_sort_sorted..|]. by rewrite !merge_sort_Permutation.
Qed.

Lemma Median_majority l lo hi :
  (length l < 2 * length (filter (between lo hi) l))%nat →
  ∃ m, Median l = Some m ∧ lo ≤ m ≤ hi.
Proof.
  pose proof (merge_sort_Permutation Z.le l) as Hp. rewrite <-Hp at 1 2. unfold Median.
  pose proof (merge_sort_sorted l) as Hs. revert Hs. generalize (merge_sort Z.le l). intros s Hs Hmaj.
  assert (Hmid : ∀ k, (k < length s)%nat → (2 * k ≤ length s ≤ 2 * S k)%nat →
    ∃ x, s !! k = Some x ∧ between lo hi x).
  { intros k Hk Hb. destruct (lookup_lt_is_Some_2 s k Hk) as [x Hx]. exists x. eauto using middle_in. }
  pose proof (length_filter (between lo hi) s) as Hf.
  rewrite bool_decide_false by (intros Heq; lia). 
  pose proof (Nat.div2_odd (length s)) as Hd. destruct (Nat.odd (length s)) eqn:Hodd; cbn [Nat.b2n] in Hd.
  - destruct (Hmid (Nat.div2 (length s))) as (x & Hx & ?); [lia..|]. exists x. by split.
  - destruct (Hmid (Nat.div2 (length s))) as (x & Hx & Hin); [lia..|].
    destruct (Hmid (Nat.div2 (length s) - 1)%nat) as (y & Hy & Hin'); [lia..|].
    rewrite Hx, Hy. cbn. exists ((x + y) / 2). unfold between in *. split; [done|].
    split; [apply Z.div_le_lower_bound|apply Z.div_le_upper_bound]; lia.
Qed.
