(* ===== verification/OracleAggregator.v ===== *)
(** * Aggregating the quotes of a round (keeper/feedermanagement/prices.go, aggregator.go)

    Validators quote prices of sources; a quote of a deterministic source carries an
    identifier of the price, its detID.  A deterministic source has a final price when
    more than the threshold of the voting power quoted the same price, any other source
    has the latest price of each validator; the price of a validator is the median of
    its sources, the price of the round the median of the validators.  The maps of the
    code are finite maps, and the order in which a map of validators is visited while
    prices are computed is the parameter [range].  The last
    section is about the records of a deterministic source. *)

From S2P Require Import Prelude OracleAlgo.

Record priceSource := {
  ps_deterministic : bool;
  ps_finalPrice : option loc;
  ps_sourceID : Z;
  ps_detIDs : gset string;
  ps_prices : list PriceInfo;
}.

Record priceValidator := {
  pv_finalPrice : option loc;
  pv_validator : string;
  pv_power : Z;
  pv_priceSources : gmap Z priceSource;
}.

Record recordsValidators := {
  rv_finalPrice : option loc;
  rv_finalPrices : gmap string loc;
  rv_accumulatedPower : Z;
  rv_records : gmap string priceValidator;
}.

Record PricePower := { pp_Price : PriceInfo; pp_Power : Z; pp_Validators : gset string }.

Record recordsDS := {
  rd_finalPrice : option loc;
  rd_finalDetID : string;
  rd_accumulatedPowers : Z;
  rd_validators : gset string;
  rd_records : list PricePower;
}.

Record threshold := { th_totalPower : Z; th_thresholdA : Z; th_thresholdB : Z }.

(** The threshold of the sources is that of the aggregator. *)
Record aggregator := {
  ag_t : threshold;
  ag_finalPrice : option loc;
  ag_v : recordsValidators;
  ag_dsMap : gmap Z recordsDS;
}.

Record MsgItem := {
  mi_FeederID : Z;
  mi_Validator : string;
  mi_Power : Z;
  mi_PriceSources : list priceSource;
}.

Definition Exceeds (t : threshold) (power : Z) : bool :=
  th_thresholdA t * th_totalPower t <? th_thresholdB t * power.

(** ** Sources *)

Definition newPriceSource (sourceID : Z) (deterministic : bool) : priceSource := {|
  ps_deterministic := deterministic; ps_finalPrice := None; ps_sourceID := sourceID;
  ps_detIDs := ∅; ps_prices := [] |}.

(** A copy has a final price of its own. *)
Definition ps_Cpy (ps : priceSource) : M Mem oracle_error priceSource :=
  match ps_finalPrice ps with
  | None => mret ps
  | Some l =>
      p ← load l;
      l' ← alloc p;
      mret {| ps_deterministic := ps_deterministic ps; ps_finalPrice := Some l';
              ps_sourceID := ps_sourceID ps; ps_detIDs := ps_detIDs ps; ps_prices := ps_prices ps |}
  end.

(** The prices whose detID is new, and the detIDs with them. *)
Fixpoint fresh_prices (detIDs : gset string) (prices : list PriceInfo) : gset string * list PriceInfo :=
  match prices with
  | [] => (detIDs, [])
  | p :: prices =>
      if decide (p_DetID p ∈ detIDs) then fresh_prices detIDs prices
      else let r := fresh_prices ({[p_DetID p]} ∪ detIDs) prices in (r.1, p :: r.2)
  end.

Definition detID_le : relation PriceInfo := λ p p', String.le (p_DetID p) (p_DetID p').
#[global] Instance detID_le_dec : RelDecision detID_le.
Proof. intros p p'. unfold detID_le. apply _. Defined.

(** The source after the prices of [psNew], and what was added.  The prices of a source
    have distinct detIDs, so the sort is stable. *)
Definition ps_Add (ps psNew : priceSource) : M Mem oracle_error (priceSource * priceSource) :=
  if negb (ps_sourceID ps =? ps_sourceID psNew) then fail ErrSourceMismatch
  else if negb (ps_deterministic ps) then
    match ps_prices psNew with
    | [] => fail ErrEmptyPrices
    | p :: _ =>
        old ← match ps_finalPrice ps with
              | None => mret true
              | Some l =>
                  final ← load l; mret (bool_decide (strict String.le (p_Timestamp final) (p_Timestamp p)))
              end;
        if (old : bool) then
          l ← alloc p;
          let ps' := {| ps_deterministic := ps_deterministic ps; ps_finalPrice := Some l;
                        ps_sourceID := ps_sourceID ps; ps_detIDs := ps_detIDs ps;
                        ps_prices := ps_prices ps ++ [p] |} in
          mret (ps', ps')
        else fail ErrOldTimestamp
    end
  else
    let r := fresh_prices (ps_detIDs ps) (ps_prices psNew) in
    if bool_decide (r.2 = []) then fail ErrDuplicatedDetID
    else mret ({| ps_deterministic := ps_deterministic ps; ps_finalPrice := ps_finalPrice ps;
                  ps_sourceID := ps_sourceID ps; ps_detIDs := r.1;
                  ps_prices := merge_sort detID_le (ps_prices ps ++ r.2) |},
               {| ps_deterministic := ps_deterministic ps; ps_finalPrice := None;
                  ps_sourceID := ps_sourceID ps; ps_detIDs := ∅; ps_prices := r.2 |}).

(** ** Validators *)

Definition newPriceValidator (validator : string) (power : Z) : priceValidator := {|
  pv_finalPrice := None; pv_validator := validator; pv_power := power; pv_priceSources := ∅ |}.

(** The source of the message so far, a copy of that of the validator, or a new one. *)
Definition source_to_add (pv : priceValidator) (updated : gmap Z priceSource) (psNew : priceSource)
    : M Mem oracle_error priceSource :=
  match updated !! ps_sourceID psNew with
  | Some ps => mret ps
  | None =>
      match pv_priceSources pv !! ps_sourceID psNew with
      | Some ps => ps_Cpy ps
      | None => mret (newPriceSource (ps_sourceID psNew) (ps_deterministic psNew))
      end
  end.

(** The error of a source is collected and skips the source. *)
Definition attempt {A} (m : M Mem oracle_error A) : M Mem oracle_error (option A) := λ s,
  match m s with
  | (Ok v, s') => (Ok (Some v), s')
  | (Err _, s') => (Ok None, s')
  | (Panic, s') => (Panic, s')
  end.

Fixpoint try_sources (pv : priceValidator) (updated : gmap Z priceSource) (added pSs : list priceSource)
    : M Mem oracle_error (gmap Z priceSource * list priceSource) :=
  match pSs with
  | [] => mret (updated, added)
  | psNew :: pSs =>
      ps ← source_to_add pv updated psNew;
      r ← attempt (ps_Add ps psNew);
      match r with
      | Some (ps', psAdded) =>
          try_sources pv (<[ps_sourceID psNew := ps']> updated) (added ++ [psAdded]) pSs
      | None => try_sources pv updated added pSs
      end
  end.

Definition TryAddPriceSources (pv : priceValidator) (pSs : list priceSource)
    : M Mem oracle_error (gmap Z priceSource * list priceSource) :=
  r ← try_sources pv ∅ [] pSs;
  if bool_decide (r.1 = ∅) then fail ErrNoSourceAdded else mret r.

Definition ApplyAddedPriceSources (psMap : gmap Z priceSource) (pv : priceValidator) : priceValidator := {|
  pv_finalPrice := pv_finalPrice pv; pv_validator := pv_validator pv; pv_power := pv_power pv;
  pv_priceSources := psMap ∪ pv_priceSources pv |}.

Definition set_final (l : loc) (pv : priceValidator) : priceValidator := {|
  pv_finalPrice := Some l; pv_validator := pv_validator pv; pv_power := pv_power pv;
  pv_priceSources := pv_priceSources pv |}.

(** The final prices of the sources are added in order; the algorithm is reset when one
    is missing or does not fit. *)
Fixpoint add_prices (prices : list (option loc)) : M Mem oracle_error bool :=
  match prices with
  | [] => mret true
  | None :: _ => _ ← Reset; mret false
  | Some l :: prices =>
      ok ← Add l;
      if (ok : bool) then add_prices prices else _ ← Reset; mret false
  end.

Definition source_prices (pv : priceValidator) : list (option loc) :=
  (λ sourceID, pv_priceSources pv !! sourceID ≫= ps_finalPrice) <$>
    merge_sort Z.le (elements (dom (pv_priceSources pv))).

(** The validator keeps a final price. *)
Definition pv_GetFinalPrice (pv : priceValidator) : M Mem oracle_error (option loc * priceValidator) :=
  match pv_finalPrice pv with
  | Some l => mret (Some l, pv)
  | None =>
      if bool_decide (pv_priceSources pv = ∅) then mret (None, pv)
      else
        _ ← Reset;
        ok ← add_prices (source_prices pv);
        if (ok : bool) then
          ret ← GetResult;
          match ret with
          | Some l => mret (Some l, set_final l pv)
          | None => mret (None, pv)
          end
        else mret (None, pv)
  end.

Definition set_source_final (l : loc) (ps : priceSource) : priceSource := {|
  ps_deterministic := ps_deterministic ps; ps_finalPrice := Some l; ps_sourceID := ps_sourceID ps;
  ps_detIDs := ps_detIDs ps; ps_prices := ps_prices ps |}.

Definition pv_UpdateFinalPriceForDS (sourceID : Z) (l : loc) (pv : priceValidator) : priceValidator := {|
  pv_finalPrice := pv_finalPrice pv; pv_validator := pv_validator pv; pv_power := pv_power pv;
  pv_priceSources := alter (set_source_final l) sourceID (pv_priceSources pv) |}.

(** ** All validators *)

Definition newRecordsValidators : recordsValidators :=
  {| rv_finalPrice := None; rv_finalPrices := ∅; rv_accumulatedPower := 0; rv_records := ∅ |}.

(** The records after the message, and the sources that were added. *)
Definition rv_RecordMsg (msg : MsgItem) (rv : recordsValidators)
    : M Mem oracle_error (list priceSource * recordsValidators) :=
  let found := rv_records rv !! mi_Validator msg in
  let record := default (newPriceValidator (mi_Validator msg) (mi_Power msg)) found in
  r ← TryAddPriceSources record (mi_PriceSources msg);
  mret (r.2, {|
    rv_finalPrice := rv_finalPrice rv; rv_finalPrices := rv_finalPrices rv;
    rv_accumulatedPower := match found with
                           | Some _ => rv_accumulatedPower rv
                           | None => rv_accumulatedPower rv + mi_Power msg
                           end;
    rv_records := <[mi_Validator msg := ApplyAddedPriceSources r.1 record]> (rv_records rv) |}).

Definition GetValidatorQuotePricesForSourceID (validator : string) (sourceID : Z) (rv : recordsValidators)
    : option (list PriceInfo) :=
  record ← rv_records rv !! validator;
  pSource ← pv_priceSources record !! sourceID;
  Some (ps_prices pSource).

Definition rv_UpdateFinalPriceForDS (sourceID : Z) (l : loc) (rv : recordsValidators) : recordsValidators := {|
  rv_finalPrice := rv_finalPrice rv; rv_finalPrices := rv_finalPrices rv;
  rv_accumulatedPower := rv_accumulatedPower rv;
  rv_records := pv_UpdateFinalPriceForDS sourceID l <$> rv_records rv |}.

(** One deterministic source. *)

Definition newRecordsDS : recordsDS := {|
  rd_finalPrice := None; rd_finalDetID := EmptyString; rd_accumulatedPowers := 0;
  rd_validators := ∅; rd_records := [] |}.

(** The first record with the price, if any, gets the power of a validator that is not in it. *)
Fixpoint join_record (price : PriceInfo) (power : Z) (validator : string) (records : list PricePower)
    : option (list PricePower) :=
  match records with
  | [] => None
  | record :: records =>
      if EqualDS (pp_Price record) price then
        Some ((if decide (validator ∈ pp_Validators record) then record
               else {| pp_Price := pp_Price record; pp_Power := pp_Power record + power;
                       pp_Validators := {[validator]} ∪ pp_Validators record |}) :: records)
      else cons record <$> join_record price power validator records
  end.

Fixpoint insert_record (p : PricePower) (records : list PricePower) : list PricePower :=
  match records with
  | [] => [p]
  | record :: records =>
      if bool_decide (detID_le (pp_Price p) (pp_Price record)) then p :: record :: records
      else record :: insert_record p records
  end.

Definition AddPrice (price : PriceInfo) (power : Z) (validator : string) (rds : recordsDS) : recordsDS := {|
  rd_finalPrice := rd_finalPrice rds; rd_finalDetID := rd_finalDetID rds;
  rd_accumulatedPowers := if decide (validator ∈ rd_validators rds) then rd_accumulatedPowers rds
                          else rd_accumulatedPowers rds + power;
  rd_validators := {[validator]} ∪ rd_validators rds;
  rd_records := default
    (insert_record {| pp_Price := price; pp_Power := power; pp_Validators := {[validator]} |} (rd_records rds))
    (join_record price power validator (rd_records rds)) |}.

(** The last record whose power exceeds the threshold. *)
Definition final_record (t : threshold) (records : list PricePower) : option PricePower :=
  snd <$> list_find (λ record, Exceeds t (pp_Power record) = true) (rev records).

Definition rds_GetFinalPrice (t : threshold) (rds : recordsDS) : M Mem oracle_error (option loc * recordsDS) :=
  match rd_finalPrice rds with
  | Some l => mret (Some l, rds)
  | None =>
      if Exceeds t (rd_accumulatedPowers rds) then
        match final_record t (rd_records rds) with
        | Some record =>
            l ← alloc (pp_Price record);
            mret (Some l, {| rd_finalPrice := Some l; rd_finalDetID := p_DetID (pp_Price record);
                             rd_accumulatedPowers := rd_accumulatedPowers rds;
                             rd_validators := rd_validators rds; rd_records := rd_records rds |})
        | None => mret (None, rds)
        end
      else mret (None, rds)
  end.

Definition AddPriceSource (ps : priceSource) (power : Z) (validator : string) (rds : recordsDS) : recordsDS :=
  foldl (λ rds p, AddPrice p power validator rds) rds (ps_prices ps).

(** ** The aggregator *)

Definition newAggregator (t : threshold) : aggregator :=
  {| ag_t := t; ag_finalPrice := None; ag_v := newRecordsValidators; ag_dsMap := ∅ |}.

Definition set_v (v : recordsValidators) (a : aggregator) : aggregator :=
  {| ag_t := ag_t a; ag_finalPrice := ag_finalPrice a; ag_v := v; ag_dsMap := ag_dsMap a |}.
Definition set_ds (sourceID : Z) (rds : recordsDS) (a : aggregator) : aggregator :=
  {| ag_t := ag_t a; ag_finalPrice := ag_finalPrice a; ag_v := ag_v a;
     ag_dsMap := <[sourceID := rds]> (ag_dsMap a) |}.

Definition RecordMsg (msg : MsgItem) (a : aggregator) : M Mem oracle_error aggregator :=
  r ← rv_RecordMsg msg (ag_v a); mret (set_v r.2 a).

(** One source of a message. *)
Definition add_source (power : Z) (validator : string) (ps : priceSource) (a : aggregator)
    : M Mem oracle_error aggregator :=
  if negb (ps_deterministic ps) then mret a
  else
    let rds := AddPriceSource ps power validator (default newRecordsDS (ag_dsMap a !! ps_sourceID ps)) in
    r ← rds_GetFinalPrice (ag_t a) rds;
    let a := set_ds (ps_sourceID ps) r.2 a in
    mret (match r.1 with
          | Some l => set_v (rv_UpdateFinalPriceForDS (ps_sourceID ps) l (ag_v a)) a
          | None => a
          end).

Fixpoint add_sources (power : Z) (validator : string) (pSs : list priceSource) (a : aggregator)
    : M Mem oracle_error aggregator :=
  match pSs with
  | [] => mret a
  | ps :: pSs => a ← add_source power validator ps a; add_sources power validator pSs a
  end.

Definition AddMsg (msg : MsgItem) (a : aggregator) : M Mem oracle_error aggregator :=
  r ← rv_RecordMsg msg (ag_v a);
  add_sources (mi_Power msg) (mi_Validator msg) r.1 (set_v r.2 a).

Definition GetFinalDetIDForSourceID (sourceID : Z) (a : aggregator) : M Mem oracle_error (string * aggregator) :=
  match ag_dsMap a !! sourceID with
  | None => mret (EmptyString, a)
  | Some rds =>
      r ← rds_GetFinalPrice (ag_t a) rds;
      mret (match r.1 with Some _ => rd_finalDetID r.2 | None => EmptyString end, set_ds sourceID r.2 a)
  end.

Section Range.
(** The order in which [range] visits the validators is not specified. *)
Context (range : gmap string priceValidator → list (string * priceValidator)).

(** All final prices or none; the validators that were visited keep theirs. *)
Fixpoint validator_prices (entries : list (string * priceValidator)) (prices : gmap string loc)
    (records : gmap string priceValidator)
    : M Mem oracle_error (option (gmap string loc) * gmap string priceValidator) :=
  match entries with
  | [] => mret (Some prices, records)
  | (validator, pv) :: entries =>
      r ← pv_GetFinalPrice pv;
      match r.1 with
      | None => mret (None, records)
      | Some l => validator_prices entries (<[validator := l]> prices) (<[validator := r.2]> records)
      end
  end.

Definition set_prices (final : option loc) (prices : gmap string loc) (records : gmap string priceValidator)
    (rv : recordsValidators) : recordsValidators := {|
  rv_finalPrice := final; rv_finalPrices := prices;
  rv_accumulatedPower := rv_accumulatedPower rv; rv_records := records |}.

Definition GetFinalPriceForValidators (rv : recordsValidators)
    : M Mem oracle_error (option (gmap string loc) * recordsValidators) :=
  if negb (bool_decide (rv_finalPrices rv = ∅)) then mret (Some (rv_finalPrices rv), rv)
  else
    r ← validator_prices (range (rv_records rv)) ∅ (rv_records rv);
    mret (r.1, set_prices (rv_finalPrice rv) (default (rv_finalPrices rv) r.1) r.2 rv).

Definition sorted_prices (prices : gmap string loc) : list (option loc) :=
  (λ validator, prices !! validator) <$> merge_sort String.le (elements (dom prices)).

Definition rv_GetFinalPrice (rv : recordsValidators) : M Mem oracle_error (option loc * recordsValidators) :=
  match rv_finalPrice rv with
  | Some l => mret (Some l, rv)
  | None =>
      r ← GetFinalPriceForValidators rv;
      match r.1 with
      | None => mret (None, r.2)
      | Some prices =>
          _ ← Reset;
          ok ← add_prices (sorted_prices prices);
          if (ok : bool) then
            final ← GetResult;
            mret (final, set_prices final (rv_finalPrices r.2) (rv_records r.2) r.2)
          else mret (None, r.2)
      end
  end.

Definition exceedsThreshold (a : aggregator) : bool := Exceeds (ag_t a) (rv_accumulatedPower (ag_v a)).

Definition GetFinalPrice (a : aggregator) : M Mem oracle_error (option loc * aggregator) :=
  match ag_finalPrice a with
  | Some l => mret (Some l, a)
  | None =>
      if negb (exceedsThreshold a) then mret (None, a)
      else
        r ← rv_GetFinalPrice (ag_v a);
        mret (r.1, {| ag_t := ag_t a; ag_finalPrice := r.1; ag_v := r.2; ag_dsMap := ag_dsMap a |})
  end.
End Range.

(** ** The records of a deterministic source

    The power of a set of validators, and what [AddPrice] keeps: one record per price,
    whose power is that of the validators who quoted it.  Two prices with the same detID
    do not both exceed a threshold of at least one half. *)

(** ** Power *)

Section Power.
Context (pw : string → Z).

Definition power_list (l : list string) : Z := foldr (λ v acc, pw v + acc) 0 l.
Definition power (X : gset string) : Z := power_list (elements X).

#[global] Instance power_list_proper : Proper ((≡ₚ) ==> (=)) power_list.
Proof. unfold power_list. induction 1; cbn in *; lia. Qed.

Lemma power_list_app l l' : power_list (l ++ l') = power_list l + power_list l'.
Proof. unfold power_list. induction l; cbn in *; lia. Qed.

Lemma power_empty : power ∅ = 0.
Proof. unfold power. by rewrite elements_empty. Qed.

Lemma power_union X Y : X ## Y → power (X ∪ Y) = power X + power Y.
Proof. intros HXY. unfold power. by rewrite elements_disj_union, power_list_app by done. Qed.

Lemma power_add v X : v ∉ X → power ({[v]} ∪ X) = pw v + power X.
Proof.
  intros Hv. rewrite power_union by set_solver. unfold power at 1. rewrite elements_singleton. cbn. lia.
Qed.

Lemma power_mono X Y : (∀ v, 0 ≤ pw v) → X ⊆ Y → power X ≤ power Y.
Proof.
  intros Hpw HXY. rewrite (union_difference_L X Y HXY), power_union by set_solver.
  assert (0 ≤ power (Y ∖ X)); [|lia]. unfold power. generalize (elements (Y ∖ X)). intros l.
  unfold power_list. induction l as [|v l IH]; cbn; [done|]. specialize (Hpw v). lia.
Qed.

(** Only the validators with power count. *)
Lemma power_inter X V : (∀ v, v ∉ V → pw v = 0) → power X = power (X ∩ V).
Proof.
  intros HV. rewrite (union_difference_L (X ∩ V) X) at 1 by set_solver. rewrite power_union by set_solver.
  assert (power (X ∖ (X ∩ V)) = 0) as ->; [|lia]. unfold power.
  assert (Hno : ∀ v, v ∈ elements (X ∖ (X ∩ V)) → v ∉ V) by set_solver. revert Hno.
  generalize (elements (X ∖ (X ∩ V))). intros l Hno. unfold power_list.
  induction l as [|v l IH]; [done|]. cbn. rewrite (HV v), IH; [done| |]; set_solver.
Qed.

Lemma Exceeds_spec t p : Exceeds t p = true ↔ th_thresholdA t * th_totalPower t < th_thresholdB t * p.
Proof. apply Z.ltb_lt. Qed.

Lemma Exceeds_mono t p q : 0 ≤ th_thresholdB t → p ≤ q → Exceeds t p = true → Exceeds t q = true.
Proof. unfold Exceeds. rewrite !Z.ltb_lt. nia. Qed.

(** Two sets that exceed a threshold of at least one half have a common validator. *)
Lemma quorums_meet t V X Y :
  (∀ v, 0 ≤ pw v) → 0 ≤ th_thresholdB t ≤ 2 * th_thresholdA t → th_totalPower t = power V →
  X ⊆ V → Y ⊆ V → Exceeds t (power X) = true → Exceeds t (power Y) = true → ∃ v, v ∈ X ∧ v ∈ Y.
Proof.
  intros Hpw Ht HV HX HY. unfold Exceeds. rewrite !Z.ltb_lt. intros HeX HeY.
  destruct (set_choose_or_empty (X ∩ Y)) as [[v Hv]|Hno]; [exists v; set_solver|].
  assert (power X + power Y ≤ power V).
  { rewrite <-power_union by set_solver. apply power_mono; [done|set_solver]. }
  pose proof (power_mono ∅ V Hpw (empty_subseteq _)) as H0. rewrite power_empty in H0. nia.
Qed.
End Power.

(** The sum of the powers of a map. *)
Lemma power_dom (validators : gmap string Z) :
  power (λ v, default 0 (validators !! v)) (dom validators) = map_sum (λ _ p, p) validators.
Proof.
  induction validators as [|v p validators Hv IH] using map_ind; [done|].
  rewrite dom_insert_L, map_sum_fresh, power_add by (done || by apply not_elem_of_dom).
  rewrite lookup_insert_eq. cbn. f_equal. rewrite <-IH. unfold power.
  assert (Hno : v ∉ elements (dom validators)) by (rewrite elem_of_elements; by apply not_elem_of_dom). revert Hno.
  generalize (elements (dom validators)). intros l Hno. unfold power_list. induction l as [|w l IHl]; [done|]. cbn.
  apply not_elem_of_cons in Hno as [? ?]. rewrite lookup_insert_ne, IHl; done.
Qed.

(** ** Records *)

(** What [EqualDS] compares. *)
Definition ds_key (p : PriceInfo) : string * string * Z := (p_Price p, p_DetID p, p_Decimal p).

Lemma EqualDS_key p p' : EqualDS p p' = true ↔ ds_key p = ds_key p'.
Proof.
  unfold EqualDS, ds_key. rewrite !andb_true_iff, !bool_decide_eq_true, Z.eqb_eq.
  split; [by intros [[-> ->] ->]|by intros [= -> -> ->]].
Qed.

Definition record_key (r : PricePower) : string * string * Z := ds_key (pp_Price r).

(** The validator is counted for the price. *)
Definition counted (rds : recordsDS) (v : string) (k : string * string * Z) : Prop :=
  ∃ r, r ∈ rd_records rds ∧ record_key r = k ∧ v ∈ pp_Validators r.

Section Records.
Context (pw : string → Z).

Definition record_ok (validators : gset string) (r : PricePower) : Prop :=
  pp_Power r = power pw (pp_Validators r) ∧ pp_Validators r ⊆ validators.

Record ds_wf (rds : recordsDS) : Prop := {
  dw_power : rd_accumulatedPowers rds = power pw (rd_validators rds);
  dw_records : Forall (record_ok (rd_validators rds)) (rd_records rds);
  dw_distinct : NoDup (record_key <$> rd_records rds);
}.

Lemma newRecordsDS_wf : ds_wf newRecordsDS.
Proof. split; [by rewrite power_empty|constructor..]. Qed.

Lemma insert_record_perm p records : insert_record p records ≡ₚ p :: records.
Proof.
  induction records as [|r records IH]; [done|]. cbn [insert_record]. case_bool_decide; [done|].
  rewrite IH. apply Permutation_swap.
Qed.

Definition join (power : Z) (v : string) (r : PricePower) : PricePower :=
  if decide (v ∈ pp_Validators r) then r
  else {| pp_Price := pp_Price r; pp_Power := pp_Power r + power; pp_Validators := {[v]} ∪ pp_Validators r |}.

Lemma join_record_spec price power v records :
  match join_record price power v records with
  | Some records' => ∃ r l, records ≡ₚ r :: l ∧ record_key r = ds_key price ∧ records' ≡ₚ join power v r :: l
  | None => ds_key price ∉ (record_key <$> records)
  end.
Proof.
  induction records as [|r records IH]; cbn [join_record]; [set_solver|].
  destruct (EqualDS (pp_Price r) price) eqn:Heq.
  - exists r, records. by apply EqualDS_key in Heq.
  - assert (record_key r ≠ ds_key price) as Hne by (intros ?%EqualDS_key; congruence).
    destruct (join_record price power v records) as [records'|]; cbn; [|set_solver].
    destruct IH as (r' & l & Hp & Hk & Hp'). exists r', (r :: l).
    rewrite Hp, Hp'. split; [apply Permutation_swap|]. split; [done|]. apply Permutation_swap.
Qed.

Lemma join_ok validators v r : record_ok validators r → record_ok ({[v]} ∪ validators) (join (pw v) v r).
Proof.
  intros [Hp Hs]. unfold join. case_decide; split; cbn; [done|set_solver| |set_solver].
  rewrite power_add by done. lia.
Qed.

Lemma join_key power v r : record_key (join power v r) = record_key r.
Proof. unfold join. by case_decide. Qed.

Lemma join_validators power v r : pp_Validators (join power v r) = {[v]} ∪ pp_Validators r.
Proof. unfold join. case_decide; cbn; set_solver. Qed.

(** What [AddPrice] does to the records, up to their order. *)
Lemma AddPrice_records price v rds :
  (∃ r l, rd_records rds ≡ₚ r :: l ∧ record_key r = ds_key price ∧
     rd_records (AddPrice price (pw v) v rds) ≡ₚ join (pw v) v r :: l) ∨
  ((ds_key price ∉ (record_key <$> rd_records rds)) ∧ rd_records (AddPrice price (pw v) v rds) ≡ₚ
     {| pp_Price := price; pp_Power := pw v; pp_Validators := {[v]} |} :: rd_records rds).
Proof.
  pose proof (join_record_spec price (pw v) v (rd_records rds)) as Hs. cbn [rd_records AddPrice].
  destruct (join_record _ _ _ _) as [records'|]; [by left|right]. split; [done|]. apply insert_record_perm.
Qed.

Lemma AddPrice_wf price v rds : ds_wf rds → ds_wf (AddPrice price (pw v) v rds).
Proof.
  intros [Hpow Hrec Hdis].
  assert (Hgrow : Forall (record_ok ({[v]} ∪ rd_validators rds)) (rd_records rds)).
  { eapply Forall_impl; [exact Hrec|]. intros r [? ?]. split; [done|set_solver]. }
  split.
  - cbn. case_decide; [|rewrite power_add by done; lia]. rewrite Hpow. f_equal. set_solver.
  - change (rd_validators (AddPrice price (pw v) v rds)) with ({[v]} ∪ rd_validators rds).
    destruct (AddPrice_records price v rds) as [(r & l & Hp & _ & ->)|[_ ->]].
    + rewrite Hp in Hrec, Hgrow. inversion Hrec. inversion Hgrow. constructor; [by apply join_ok|done].
    + constructor; [|done]. split; cbn; [|set_solver]. unfold power. rewrite elements_singleton. cbn. lia.
  - destruct (AddPrice_records price v rds) as [(r & l & Hp & _ & ->)|[Hno ->]].
    + rewrite Hp in Hdis. by rewrite fmap_cons, join_key.
    + rewrite fmap_cons. by constructor.
Qed.

Lemma AddPrice_counted price v rds v' k :
  counted (AddPrice price (pw v) v rds) v' k ↔ counted rds v' k ∨ (v' = v ∧ k = ds_key price).
Proof.
  unfold counted. destruct (AddPrice_records price v rds) as [(r & l & Hp & Hk & Hp')|[_ Hp']].
  - setoid_rewrite Hp'. setoid_rewrite Hp. setoid_rewrite elem_of_cons. split.
    + intros (r' & [->|Hr] & Hk' & Hv); [|left; eauto 6].
      rewrite join_key in Hk'. rewrite join_validators in Hv.
      apply elem_of_union in Hv as [->%elem_of_singleton|Hv]; [right; by rewrite <-Hk, Hk'|left; eauto 6].
    + intros [(r' & [->|Hr] & Hk' & Hv)|[-> ->]]; [|eauto 6|].
      * exists (join (pw v) v r). rewrite join_key, join_validators. set_solver.
      * exists (join (pw v) v r). rewrite join_key, join_validators. set_solver.
  - setoid_rewrite Hp'. setoid_rewrite elem_of_cons. split.
    + intros (r' & [->|Hr] & <- & Hv); [right; cbn in *; set_solver|left; eauto].
    + intros [(r' & Hr & Hk' & Hv)|[-> ->]]; [eauto 6|].
      eexists. split; [by left|]. cbn. set_solver.
Qed.

Lemma AddPriceSource_wf ps v rds : ds_wf rds → ds_wf (AddPriceSource ps (pw v) v rds).
Proof.
  unfold AddPriceSource. revert rds. induction (ps_prices ps) as [|p l IH]; intros rds Hwf; [done|].
  cbn [foldl]. by apply IH, AddPrice_wf.
Qed.

Lemma AddPriceSource_counted ps v rds v' k :
  counted (AddPriceSource ps (pw v) v rds) v' k ↔
  counted rds v' k ∨ (v' = v ∧ k ∈ (ds_key <$> ps_prices ps)).
Proof.
  unfold AddPriceSource. revert rds. induction (ps_prices ps) as [|p l IH]; intros rds; cbn [foldl].
  - set_solver.
  - rewrite IH, AddPrice_counted, fmap_cons, elem_of_cons. tauto.
Qed.

Lemma AddPriceSource_final ps v rds :
  rd_finalPrice (AddPriceSource ps (pw v) v rds) = rd_finalPrice rds.
Proof.
  unfold AddPriceSource. revert rds. induction (ps_prices ps) as [|p l IH]; intros rds; [done|].
  cbn [foldl]. by rewrite IH.
Qed.

Lemma AddPriceSource_detID ps v rds :
  rd_finalDetID (AddPriceSource ps (pw v) v rds) = rd_finalDetID rds.
Proof.
  unfold AddPriceSource. generalize (ps_prices ps). intros prices. revert rds.
  induction prices as [|p prices IH]; intros rds; [done|]. cbn. by rewrite IH.
Qed.

(** The validators of a record are those that are counted for its price. *)
Lemma record_validators rds r v :
  ds_wf rds → r ∈ rd_records rds → v ∈ pp_Validators r ↔ counted rds v (record_key r).
Proof.
  intros Hwf Hr. split; [by exists r|]. intros (r' & Hr' & Hk & Hv).
  apply list_elem_of_lookup in Hr as [i Hi], Hr' as [j Hj].
  assert (j = i) as ->; [|congruence].
  eapply NoDup_lookup; [exact (dw_distinct _ Hwf)|rewrite list_lookup_fmap, Hj|rewrite list_lookup_fmap, Hi];
    cbn; [done|by rewrite Hk].
Qed.

Lemma final_record_Some t records r :
  final_record t records = Some r → r ∈ records ∧ Exceeds t (pp_Power r) = true.
Proof.
  unfold final_record. intros ([i r'] & Hf & ->)%fmap_Some. apply list_find_Some in Hf as (Hi & He & _).
  split; [|done]. cbn. apply list_elem_of_lookup_2 in Hi. by rewrite <-Permutation_rev in Hi.
Qed.

Lemma final_record_None t records :
  final_record t records = None → Forall (λ r, Exceeds t (pp_Power r) = false) records.
Proof.
  unfold final_record. intros Hf%fmap_None. apply list_find_None in Hf. rewrite <-Permutation_rev in Hf.
  eapply Forall_impl; [exact Hf|]. intros r. apply not_true_is_false.
Qed.
End Records.
