(* ===== verification/OracleV1.v ===== *)
(** * Rounds with a single deterministic source

    The rule in use asks for one deterministic source.  For such a round, whatever
    messages come and in whatever order the validators are visited, there is a final
    price exactly when one price is quoted by more than the threshold of the power. *)

From S2P Require Import Prelude OracleAlgo OracleAggregator.

Section V1.
Context (pw : string → Z) (s : Z) (t : threshold).
Context (pw_nonneg : ∀ v, 0 ≤ pw v).
Context (t_nonneg : 0 ≤ th_thresholdA t ∧ 0 ≤ th_thresholdB t ∧ 0 ≤ th_totalPower t).

(** ** Messages and sources *)

Definition new_ok (ps : priceSource) : Prop :=
  ps_deterministic ps = true ∧ ps_sourceID ps = s ∧ Forall (λ p, p_Price p ≠ EmptyString) (ps_prices ps).

Definition msg_ok (msg : MsgItem) : Prop :=
  mi_Power msg = pw (mi_Validator msg) ∧ Forall new_ok (mi_PriceSources msg).

Record src_ok (ps : priceSource) : Prop := {
  so_new : new_ok ps;
  so_detIDs : ps_detIDs ps = list_to_set (p_DetID <$> ps_prices ps);
  so_distinct : NoDup (p_DetID <$> ps_prices ps);
}.

Definition valid_final (h : list PriceResult) (ps : priceSource) : Prop :=
  ∀ l, ps_finalPrice ps = Some l → is_Some (h !! l).

Lemma fresh_prices_spec detIDs prices :
  let r := fresh_prices detIDs prices in
  r.1 = list_to_set (p_DetID <$> r.2) ∪ detIDs ∧ NoDup (p_DetID <$> r.2) ∧
  Forall (λ p, (p_DetID p ∉ detIDs) ∧ p ∈ prices) r.2.
Proof.
  revert detIDs. induction prices as [|p prices IH]; intros detIDs; cbn [fresh_prices].
  { cbn. split; [set_solver|]. by split; constructor. }
  case_decide as Hin.
  - destruct (IH detIDs) as (Hs & Hd & Hall). split; [done|]. split; [done|].
    eapply Forall_impl; [exact Hall|]. cbn. intros q [? ?]. split; [done|by right].
  - destruct (IH ({[p_DetID p]} ∪ detIDs)) as (Hs & Hd & Hall). cbn [fst snd]. rewrite Hs, fmap_cons.
    split; [cbn [list_to_set]; set_solver -Hall IH|]. split.
    + constructor; [|done]. intros (p' & Heq & Hp')%list_elem_of_fmap.
      rewrite Forall_forall in Hall. apply (Hall p' Hp'). rewrite <-Heq. by apply elem_of_union_l, elem_of_singleton.
    + constructor; [split; [done|by left]|]. eapply Forall_impl; [exact Hall|]. cbn.
      intros q [Hq ?]. split; [|by right]. intros ?. apply Hq. by apply elem_of_union_r.
Qed.

Lemma ps_Add_Ok ps psNew m ps' added m' :
  src_ok ps → new_ok psNew → ps_Add ps psNew m = (Ok (ps', added), m') →
  m' = m ∧ src_ok ps' ∧ new_ok added ∧ ps_finalPrice ps' = ps_finalPrice ps ∧
  ps_prices ps' ≡ₚ ps_prices ps ++ ps_prices added.
Proof.
  intros [[Hdet [Hid Hne]] HdetIDs Hdis] [Hdet' [Hid' Hne']]. unfold ps_Add.
  rewrite Hid, Hid', Z.eqb_refl, Hdet. cbn [negb].
  destruct (fresh_prices_spec (ps_detIDs ps) (ps_prices psNew)) as (Hs & Hd & Hall).
  destruct (fresh_prices _ _) as [detIDs fresh]. cbn [fst snd] in *.
  case_bool_decide as Hemp; intros Hrun; go_inv. simplify_eq. cbn. split; [done|].
  assert (Hfresh : Forall (λ p, p_Price p ≠ EmptyString) fresh).
  { rewrite Forall_forall in Hall, Hne' |- *. intros p Hp. apply Hne', Hall, Hp. }
  assert (Hperm : merge_sort detID_le (ps_prices ps ++ fresh) ≡ₚ ps_prices ps ++ fresh) by apply merge_sort_Permutation.
  split; [|split; [by split|by split]]. split; cbn.
  - repeat split; cbn; try done. rewrite Hperm. by apply Forall_app.
  - rewrite HdetIDs. rewrite Hperm, fmap_app, list_to_set_app_L. by rewrite (comm_L (∪)).
  - rewrite Hperm, fmap_app. apply NoDup_app. split; [done|]. split; [|done].
    intros d Hd1 (p & -> & Hp)%list_elem_of_fmap. rewrite Forall_forall in Hall. destruct (Hall p Hp) as [Hno _].
    apply Hno. rewrite HdetIDs. by apply elem_of_list_to_set.
Qed.

Lemma ps_Add_Err ps psNew m e m' :
  src_ok ps → new_ok psNew → ps_Add ps psNew m = (Err e, m') → m' = m.
Proof.
  intros [[Hdet [Hid _]] _ _] [Hdet' [Hid' _]]. unfold ps_Add. rewrite Hid, Hid', Z.eqb_refl, Hdet. cbn [negb].
  case_bool_decide; cbv [fail mret M_ret]; congruence.
Qed.

Lemma ps_Cpy_Ok ps m ps' m' :
  src_ok ps → ps_Cpy ps m = (Ok ps', m') →
  m_heap m `prefix_of` m_heap m' ∧ src_ok ps' ∧ ps_prices ps' = ps_prices ps ∧
  valid_final (m_heap m') ps' ∧ (ps_finalPrice ps = None → ps_finalPrice ps' = None).
Proof.
  intros Hok. unfold ps_Cpy. destruct (ps_finalPrice ps) as [l|] eqn:Hl; intros Hrun; go_inv.
  - unfold load, alloc in *. go_inv. case_match; [|done]. go_inv. cbn in *.
    split; [by eexists|]. split; [destruct Hok; by split|]. split; [done|]. split; [|done].
    intros l' [= <-]. cbn. rewrite list_lookup_middle by done. by eexists.
  - split; [done|]. split; [done|]. split; [done|]. split; [intros l'; by rewrite Hl|done].
Qed.

Lemma prefix_valid h h' ps : h `prefix_of` h' → valid_final h ps → valid_final h' ps.
Proof. intros Hh Hv l Hl. destruct (Hv l Hl) as [p Hp]. exists p. by eapply prefix_lookup_Some. Qed.

(** ** The sources of a message *)

Definition start (pv : priceValidator) (updated : gmap Z priceSource) : option priceSource :=
  match updated !! s with Some ps => Some ps | None => pv_priceSources pv !! s end.
Definition prices_of (ops : option priceSource) : list PriceInfo := from_option ps_prices [] ops.
Definition start_ok (h : list PriceResult) (ops : option priceSource) : Prop :=
  ∀ ps, ops = Some ps → src_ok ps ∧ valid_final h ps.

(** The source [ps] continues what was there, with [news] in addition. *)
Record extends (h : list PriceResult) (old : option priceSource) (news : list PriceInfo) (ps : priceSource)
    : Prop := {
  ex_ok : src_ok ps;
  ex_valid : valid_final h ps;
  ex_prices : ps_prices ps ≡ₚ prices_of old ++ news;
  ex_final : old ≫= ps_finalPrice = None → ps_finalPrice ps = None;
}.

Lemma extends_trans h h' old n1 ps1 n2 ps2 :
  extends h old n1 ps1 → extends h' (Some ps1) n2 ps2 → extends h' old (n1 ++ n2) ps2.
Proof.
  intros [_ _ Hp1 Hf1] [Hok Hv Hp2 Hf2]. split; [done..| |auto]. cbn in Hp2. by rewrite Hp2, Hp1, app_assoc.
Qed.

Lemma extends_heap h h' old news ps : h `prefix_of` h' → extends h old news ps → extends h' old news ps.
Proof. intros Hh [????]. split; [done|by eapply prefix_valid|done..]. Qed.

Lemma extends_Add m old ps psNew ps' added m' :
  extends (m_heap m) old [] ps → new_ok psNew → ps_Add ps psNew m = (Ok (ps', added), m') →
  m' = m ∧ new_ok added ∧ extends (m_heap m) old (ps_prices added) ps'.
Proof.
  intros [Hok Hv Hp Hf] Hnew (-> & Hok' & Hadded & Hfinal & Hprices)%ps_Add_Ok; [|done..].
  split; [done|]. split; [done|]. rewrite app_nil_r in Hp. split; [done|intros l; rewrite Hfinal; apply Hv|..].
  - by rewrite Hprices, Hp.
  - intros ?. rewrite Hfinal. auto.
Qed.

Lemma new_src_ok : src_ok (newPriceSource s true).
Proof. split; [by repeat split|done|constructor]. Qed.

Lemma source_to_add_Ok pv updated psNew m ps m' :
  new_ok psNew → start_ok (m_heap m) (start pv updated) →
  source_to_add pv updated psNew m = (Ok ps, m') →
  m_heap m `prefix_of` m_heap m' ∧ extends (m_heap m') (start pv updated) [] ps.
Proof.
  intros (Hdet & Hid & _) Hstart. unfold source_to_add, start in *. rewrite Hid, Hdet.
  destruct (updated !! s) as [ps0|] eqn:Hu.
  { intros Hrun; go_inv. split; [done|]. destruct (Hstart ps eq_refl). split; [done..|by rewrite app_nil_r|done]. }
  destruct (pv_priceSources pv !! s) as [ps0|] eqn:Hp.
  - destruct (Hstart ps0 eq_refl) as [Hok Hv].
    intros (Hpre & Hok' & Hprices & Hv' & Hnone)%ps_Cpy_Ok; [|done]. split; [done|].
    split; [done..|by rewrite app_nil_r, Hprices|done].
  - intros Hrun; go_inv. split; [done|]. split; [apply new_src_ok|by intros ?|done..].
Qed.

Lemma attempt_Ok {A} (x : M Mem oracle_error A) m r m' :
  attempt x m = (Ok r, m') →
  match r with Some v => x m = (Ok v, m') | None => ∃ e, x m = (Err e, m') end.
Proof. unfold attempt. destruct (x m) as [[v|e|] m1]; intros [= <- <-]; eauto. Qed.

Lemma try_sources_Ok pv pSs updated added m updated' added' m' :
  Forall new_ok pSs → start_ok (m_heap m) (start pv updated) →
  (∀ k, is_Some (updated !! k) → k = s) →
  try_sources pv updated added pSs m = (Ok (updated', added'), m') →
  ∃ news, added' = added ++ news ∧ Forall new_ok news ∧ m_heap m `prefix_of` m_heap m' ∧
    (∀ k, is_Some (updated' !! k) → k = s) ∧
    (news = [] ∧ updated' = updated ∨
     news ≠ [] ∧ ∃ ps, updated' !! s = Some ps ∧
       extends (m_heap m') (start pv updated) (concat (ps_prices <$> news)) ps).
Proof.
  revert updated added m. induction pSs as [|psNew pSs IH]; intros updated added m Hnew Hstart Hdom Hrun.
  { cbn in Hrun. go_inv. simplify_eq. exists []. rewrite app_nil_r. repeat split; [constructor|done..|by left]. }
  apply Forall_cons in Hnew as [Hn Hnew]. cbn [try_sources] in Hrun. go_inv.
  match goal with H : source_to_add _ _ _ _ = _ |- _ => apply source_to_add_Ok in H as [Hpre Hext] end; [|done..].
  match goal with H : attempt _ _ = _ |- _ => apply attempt_Ok in H end.
  match goal with H : match ?r with _ => _ end _ = _ |- _ => destruct r as [[ps' psAdded]|]; rename H into Htry end.
  - match goal with H : ps_Add _ _ _ = _ |- _ => apply (extends_Add _ _ _ _ _ _ _ Hext) in H as (-> & Hadded & Hext') end; [|done].
    destruct Hn as (_ & Hid & _). rewrite Hid in Htry.
    assert (Hst : start pv (<[s := ps']> updated) = Some ps') by (unfold start; by rewrite lookup_insert_eq).
    apply IH in Htry as (news & -> & Hnews & Hpre' & Hdom' & Hcase); [|done| |].
    2:{ rewrite Hst. intros ? [= <-]. split; apply Hext'. }
    2:{ intros k [?|[_ Hk]]%lookup_insert_is_Some; [done|auto]. }
    exists (psAdded :: news). rewrite <-app_assoc. split; [done|]. split; [by constructor|].
    split; [by etrans|]. split; [done|]. right. split; [done|]. cbn [fmap list_fmap concat].
    destruct Hcase as [[-> ->]|[_ (ps & Hps & Hex)]].
    + exists ps'. rewrite lookup_insert_eq. split; [done|]. cbn. rewrite app_nil_r. by eapply extends_heap.
    + exists ps. split; [done|]. rewrite Hst in Hex. by eapply extends_trans.
  - match goal with H : ∃ e, _ |- _ => destruct H as [e He] end.
    apply ps_Add_Err in He as ->; [|apply Hext|done].
    apply IH in Htry as (news & -> & Hnews & Hpre' & Hrest); [|done| |done].
    + exists news. split; [done|]. split; [done|]. split; [by etrans|done].
    + intros ps Hps. destruct (Hstart ps Hps). split; [done|by eapply prefix_valid].
Qed.

(** A message that is recorded has added prices. *)
Lemma TryAddPriceSources_Ok pv pSs m psMap added m' :
  Forall new_ok pSs → start_ok (m_heap m) (pv_priceSources pv !! s) →
  (∀ k, is_Some (pv_priceSources pv !! k) → k = s) →
  TryAddPriceSources pv pSs m = (Ok (psMap, added), m') →
  Forall new_ok added ∧ added ≠ [] ∧ m_heap m `prefix_of` m_heap m' ∧
  ∃ ps, psMap ∪ pv_priceSources pv = {[s := ps]} ∧
    extends (m_heap m') (pv_priceSources pv !! s) (concat (ps_prices <$> added)) ps.
Proof.
  intros Hnew Hstart Hdom. unfold TryAddPriceSources. intros Hrun. go_inv.
  match goal with H : try_sources _ _ _ _ _ = (Ok ?r, _) |- _ => destruct r as [psMap' added'] end.
  match goal with H : try_sources _ _ _ _ _ = _ |- _ =>
    apply try_sources_Ok in H as (news & -> & Hnews & Hpre & Hdom' & Hcase) end; [|done|done|].
  2:{ intros k. rewrite lookup_empty. by intros [? ?]. }
  cbn [fst] in *. case_bool_decide as Hemp; go_inv. simplify_eq. cbn [app].
  destruct Hcase as [[_ ->]|[Hne (ps & Hps & Hex)]]; [done|].
  split; [done|]. split; [done|]. split; [done|]. exists ps. split; [|done].
  apply map_eq. intros k. destruct (decide (k = s)) as [->|Hk].
  - by rewrite lookup_singleton_eq, lookup_union_l', Hps by by eexists.
  - rewrite lookup_singleton_ne by done. apply lookup_union_None.
    split; apply eq_None_not_Some; intros ?; [by apply Hk, Hdom'|by apply Hk, Hdom].
Qed.

(** ** Prices above the threshold *)

Abbreviation key := (string * string * Z)%type.

Definition exceeding (rds : recordsDS) (k : key) : Prop :=
  ∃ r, r ∈ rd_records rds ∧ record_key r = k ∧ Exceeds t (pp_Power r) = true.

(** Validators with more than the threshold of the power satisfy [Q]. *)
Definition quorum (Q : string → Prop) : Prop :=
  ∃ X : gset string, th_thresholdA t * th_totalPower t < th_thresholdB t * power pw X ∧ ∀ v, v ∈ X → Q v.

Lemma quorum_inhabited Q : quorum Q → ∃ v, Q v.
Proof.
  intros (X & He & HQ). destruct (set_choose_or_empty X) as [[v Hv]|Hemp]; [eauto|].
  apply leibniz_equiv in Hemp as ->. rewrite power_empty in He. nia.
Qed.

Lemma quorum_mono (Q Q' : string → Prop) : (∀ v, Q v → Q' v) → quorum Q → quorum Q'.
Proof. intros HQ (X & He & HX). exists X. auto. Qed.

Lemma exceeding_quorum rds k : ds_wf pw rds → exceeding rds k ↔ quorum (λ v, counted rds v k).
Proof.
  intros Hwf. pose proof (dw_records _ _ Hwf) as Hrec. rewrite Forall_forall in Hrec. split.
  - intros (r & Hr & <- & He). exists (pp_Validators r). destruct (Hrec r Hr) as [<- _]. split; [by apply Exceeds_spec|].
    intros v Hv. by apply (record_validators pw).
  - intros Hq. destruct (quorum_inhabited _ Hq) as (v & r & Hr & Hk & _). destruct Hq as (X & He & HX).
    exists r. split; [done|]. split; [done|]. destruct (Hrec r Hr) as [-> _].
    apply Exceeds_spec in He. eapply Exceeds_mono; [apply t_nonneg| |exact He]. apply power_mono; [done|].
    intros w Hw. apply (record_validators pw rds); [done..|]. rewrite Hk. auto.
Qed.

Lemma exceeding_accumulated rds k :
  ds_wf pw rds → exceeding rds k → Exceeds t (rd_accumulatedPowers rds) = true.
Proof.
  intros [Hpow Hrec _] (r & Hr & _ & He). rewrite Forall_forall in Hrec. destruct (Hrec r Hr) as [Hp Hs].
  eapply Exceeds_mono; [apply t_nonneg| |exact He]. rewrite Hpow, Hp. by apply power_mono.
Qed.

(** Looking for the final price: nothing exceeds the threshold, or a price that does is stored. *)
Lemma rds_GetFinalPrice_Ok rds m r rds' m' :
  ds_wf pw rds → rds_GetFinalPrice t rds m = (Ok (r, rds'), m') →
  m_heap m `prefix_of` m_heap m' ∧ r = rd_finalPrice rds' ∧ ds_wf pw rds' ∧
  (∀ v k, counted rds' v k ↔ counted rds v k) ∧ (∀ k, exceeding rds' k ↔ exceeding rds k) ∧
  match rd_finalPrice rds, rd_finalPrice rds' with
  | Some l, r' => r' = Some l ∧ rd_finalDetID rds' = rd_finalDetID rds
  | None, None => ∀ k, ¬ exceeding rds k
  | None, Some l => ∃ p, m_heap m' !! l = Some p ∧ exceeding rds (ds_key p) ∧ rd_finalDetID rds' = p_DetID p
  end.
Proof.
  intros Hwf. unfold rds_GetFinalPrice. destruct (rd_finalPrice rds) as [l|] eqn:Hfin.
  { intros Hrun; go_inv. simplify_eq. rewrite Hfin. by repeat split; try apply Hwf. }
  destruct (Exceeds t (rd_accumulatedPowers rds)) eqn:Hacc.
  2:{ intros Hrun; go_inv. simplify_eq. rewrite Hfin. repeat split; try apply Hwf; try done.
      intros k ?%exceeding_accumulated; [congruence|done]. }
  destruct (final_record t (rd_records rds)) as [r0|] eqn:Hrec.
  - apply final_record_Some in Hrec as [Hr He]. intros Hrun. unfold alloc in Hrun. go_inv. simplify_eq. cbn.
    split; [by eexists|]. split; [done|]. split; [destruct Hwf; by split|]. split; [done|]. split; [done|].
    exists (pp_Price r0). rewrite list_lookup_middle by done. split; [done|]. split; [by exists r0|done].
  - apply final_record_None in Hrec. intros Hrun; go_inv. simplify_eq. rewrite Hfin.
    repeat split; try apply Hwf; try done. intros k (r0 & Hr & _ & He). rewrite Forall_forall in Hrec.
    rewrite Hrec in He; done.
Qed.

(** ** The invariant of the aggregator *)

Definition rds_of (a : aggregator) : recordsDS := default newRecordsDS (ag_dsMap a !! s).

Definition all_sources (P : priceSource → Prop) (rv : recordsValidators) : Prop :=
  map_Forall (λ _ pv, ∀ ps, pv_priceSources pv !! s = Some ps → P ps) (rv_records rv).

(** The validator quoted the price. *)
Definition quoted (rv : recordsValidators) (v : string) (k : key) : Prop :=
  ∃ prices, GetValidatorQuotePricesForSourceID v s rv = Some prices ∧ k ∈ (ds_key <$> prices).

Record base (h : list PriceResult) (a : aggregator) : Prop := {
  b_t : ag_t a = t;
  b_dom k : is_Some (ag_dsMap a !! k) → k = s;
  b_wf : ds_wf pw (rds_of a);
  b_records : map_Forall (λ _ pv, ∃ ps, pv_priceSources pv = {[s := ps]} ∧ src_ok ps ∧ valid_final h ps)
    (rv_records (ag_v a));
  b_power : rv_accumulatedPower (ag_v a) = power pw (dom (rv_records (ag_v a)));
  b_none : rd_finalPrice (rds_of a) = None →
    (∀ k, ¬ exceeding (rds_of a) k) ∧ all_sources (λ ps, ps_finalPrice ps = None) (ag_v a);
  b_some l : rd_finalPrice (rds_of a) = Some l →
    ∃ p, h !! l = Some p ∧ exceeding (rds_of a) (ds_key p) ∧ rd_finalDetID (rds_of a) = p_DetID p;
}.

(** Every validator has the final price of the source. *)
Definition synced (h : list PriceResult) (a : aggregator) : Prop :=
  ∀ l p, rd_finalPrice (rds_of a) = Some l → h !! l = Some p →
    all_sources (λ ps, ∃ l' p', ps_finalPrice ps = Some l' ∧ h !! l' = Some p' ∧ ds_key p' = ds_key p) (ag_v a).

(** No price of a validator or of the round has been computed. *)
Definition no_prices (rv : recordsValidators) : Prop :=
  rv_finalPrice rv = None ∧ rv_finalPrices rv = ∅ ∧ map_Forall (λ _ pv, pv_finalPrice pv = None) (rv_records rv).

Lemma update_lookup l rv v :
  rv_records (rv_UpdateFinalPriceForDS s l rv) !! v = pv_UpdateFinalPriceForDS s l <$> rv_records rv !! v.
Proof. apply lookup_fmap. Qed.

Lemma update_quoted l rv v k : quoted (rv_UpdateFinalPriceForDS s l rv) v k ↔ quoted rv v k.
Proof.
  unfold quoted, GetValidatorQuotePricesForSourceID. rewrite update_lookup.
  destruct (rv_records rv !! v) as [pv|]; [|done]. cbn. rewrite lookup_alter_eq.
  by destruct (pv_priceSources pv !! s).
Qed.

Lemma update_no_prices l rv : no_prices rv → no_prices (rv_UpdateFinalPriceForDS s l rv).
Proof.
  intros (? & ? & Hall). split; [done|]. split; [done|]. intros v pv. rewrite update_lookup.
  intros (pv0 & Hpv & ->)%fmap_Some. exact (Hall v pv0 Hpv).
Qed.

Lemma update_records h l rv :
  is_Some (h !! l) →
  map_Forall (λ _ pv, ∃ ps, pv_priceSources pv = {[s := ps]} ∧ src_ok ps ∧ valid_final h ps) (rv_records rv) →
  map_Forall (λ _ pv, ∃ ps, pv_priceSources pv = {[s := ps]} ∧ src_ok ps ∧ valid_final h ps)
    (rv_records (rv_UpdateFinalPriceForDS s l rv)).
Proof.
  intros Hl Hall v pv. rewrite update_lookup. intros (pv0 & Hpv & ->)%fmap_Some.
  destruct (Hall v pv0 Hpv) as (ps & Hs & [Hnew Hids Hdis] & _). exists (set_source_final l ps). cbn. rewrite Hs.
  split; [apply alter_singleton_eq|]. split; [by split|]. by intros l' [= <-].
Qed.

Lemma update_all l rv (P : priceSource → Prop) :
  (∀ ps, P (set_source_final l ps)) → all_sources P (rv_UpdateFinalPriceForDS s l rv).
Proof.
  intros HP v pv. rewrite update_lookup. intros (pv0 & _ & ->)%fmap_Some ps. cbn. rewrite lookup_alter_eq.
  intros (ps0 & _ & ->)%fmap_Some. apply HP.
Qed.

Lemma records_heap h h' rv :
  h `prefix_of` h' →
  map_Forall (λ _ pv, ∃ ps, pv_priceSources pv = {[s := ps]} ∧ src_ok ps ∧ valid_final h ps) (rv_records rv) →
  map_Forall (λ _ pv, ∃ ps, pv_priceSources pv = {[s := ps]} ∧ src_ok ps ∧ valid_final h' ps) (rv_records rv).
Proof.
  intros Hh Hall v pv Hpv. destruct (Hall v pv Hpv) as (ps & ? & ? & ?). exists ps.
  split; [done|]. split; [done|]. by eapply prefix_valid.
Qed.

Lemma exceeding_grows rds rds' k :
  ds_wf pw rds → ds_wf pw rds' → (∀ v, counted rds v k → counted rds' v k) → exceeding rds k → exceeding rds' k.
Proof. intros Hwf Hwf' Hc. rewrite !exceeding_quorum by done. by apply quorum_mono. Qed.

(** What the deterministic source of a message leaves of the rest. *)
Record kept (a a' : aggregator) : Prop := {
  k_final : ag_finalPrice a' = ag_finalPrice a;
  k_prices : no_prices (ag_v a) → no_prices (ag_v a');
  k_quoted v q : quoted (ag_v a') v q ↔ quoted (ag_v a) v q;
  k_source l : rd_finalPrice (rds_of a) = Some l → rd_finalPrice (rds_of a') = Some l;
}.

Lemma rds_of_set rds a : rds_of (set_ds s rds a) = rds.
Proof. unfold rds_of. cbn. by rewrite lookup_insert_eq. Qed.

Lemma add_source_Ok v ps a m a' m' :
  base (m_heap m) a → new_ok ps → add_source (pw v) v ps a m = (Ok a', m') →
  m_heap m `prefix_of` m_heap m' ∧ base (m_heap m') a' ∧ synced (m_heap m') a' ∧ kept a a' ∧
  ∀ w q, counted (rds_of a') w q ↔ counted (rds_of a) w q ∨ (w = v ∧ q ∈ (ds_key <$> ps_prices ps)).
Proof.
  intros [Ht Hdom Hwf Hrec Hpow Hnone Hsome] (Hdet & Hid & _). unfold add_source.
  rewrite Hdet, Hid, Ht. cbn [negb]. fold (rds_of a). intros Hrun. go_inv.
  set (rds := AddPriceSource ps (pw v) v (rds_of a)) in *.
  pose proof (AddPriceSource_wf pw ps v _ Hwf : ds_wf pw rds) as Hwf'.
  pose proof (AddPriceSource_final pw ps v (rds_of a) : rd_finalPrice rds = _) as Hfin.
  pose proof (AddPriceSource_detID pw ps v (rds_of a) : rd_finalDetID rds = _) as Hdid.
  pose proof (AddPriceSource_counted pw ps v (rds_of a) : ∀ w q, counted rds w q ↔ _) as Hcount.
  match goal with H : rds_GetFinalPrice _ _ _ = (Ok ?r, _) |- _ => destruct r as [o rds'];
    apply rds_GetFinalPrice_Ok in H as (Hpre & -> & Hwf2 & Hc2 & He2 & Hcase) end; [|done]. cbn [fst snd].
  assert (Hcounted : ∀ w q, counted rds' w q ↔ counted (rds_of a) w q ∨ w = v ∧ q ∈ (ds_key <$> ps_prices ps)).
  { intros w q. by rewrite Hc2, Hcount. }
  assert (Hgrow : ∀ q, exceeding (rds_of a) q → exceeding rds' q).
  { intros q. apply exceeding_grows; [done..|]. intros w Hw. apply Hcounted. by left. }
  assert (Hdom' : ∀ k, is_Some (ag_dsMap (set_ds s rds' a) !! k) → k = s).
  { intros k. cbn. intros [?|[_ Hk]]%lookup_insert_is_Some; auto. }
  rewrite Hfin in Hcase. split; [done|]. destruct (rd_finalPrice rds') as [l|] eqn:Hl.
  - assert (Hp : ∃ p, m_heap m' !! l = Some p ∧ exceeding rds' (ds_key p) ∧ rd_finalDetID rds' = p_DetID p).
    { destruct (rd_finalPrice (rds_of a)) as [l0|] eqn:Hl0.
      - destruct Hcase as [[= ->] Hd]. destruct (Hsome _ eq_refl) as (p & Hp & He & Hid'). exists p.
        split; [by eapply prefix_lookup_Some|]. split; [auto|congruence].
      - destruct Hcase as (p & Hp & He & Hd). exists p. split; [done|]. split; [by apply He2|done]. }
    assert (Hrds : ∀ rv, rds_of (set_v rv (set_ds s rds' a)) = rds') by (intros rv; apply rds_of_set).
    destruct Hp as (p & Hp & He & Hd). split; [|split; [|split]]; rewrite ?Hrds.
    + split; rewrite ?Hrds; try done; [by eapply update_records, records_heap; eauto| | |].
      * cbn. rewrite Hpow. f_equal. by rewrite dom_fmap_L.
      * intros [=]. congruence.
      * intros l' Hl'. exists p. split; [congruence|done].
    + intros l' p'. rewrite Hrds, Hl. intros [= <-] Hp'. apply update_all. intros ps0. exists l, p. cbn.
      split; [done|]. split; [done|]. congruence.
    + split; [done|apply update_no_prices|intros; apply update_quoted|].
      intros l' Hl'. rewrite Hl' in Hcase. rewrite Hrds, Hl. by destruct Hcase as [[= ->] _].
    + done.
  - assert (rd_finalPrice (rds_of a) = None) as Hl0 by (destruct (rd_finalPrice (rds_of a)); [by destruct Hcase|done]).
    rewrite Hl0 in Hcase. destruct (Hnone Hl0) as [_ Hall].
    split; [|split; [|split]]; rewrite ?rds_of_set.
    + split; rewrite ?rds_of_set; try done; [by eapply records_heap| |].
      * intros _. split; [|done]. intros q ?%He2. by apply (Hcase q).
      * congruence.
    + intros l' p'. rewrite rds_of_set. congruence.
    + split; try done. intros l'. by rewrite Hl0.
    + done.
Qed.

Lemma add_sources_Ok v pSs a m a' m' :
  base (m_heap m) a → Forall new_ok pSs → pSs ≠ [] ∨ synced (m_heap m) a →
  add_sources (pw v) v pSs a m = (Ok a', m') →
  m_heap m `prefix_of` m_heap m' ∧ base (m_heap m') a' ∧ synced (m_heap m') a' ∧ kept a a' ∧
  ∀ w q, counted (rds_of a') w q ↔
    counted (rds_of a) w q ∨ (w = v ∧ q ∈ (ds_key <$> concat (ps_prices <$> pSs))).
Proof.
  revert a m. induction pSs as [|ps pSs IH]; intros a m Hbase Hnew Hsync Hrun.
  { cbn in Hrun. go_inv. destruct Hsync as [?|Hsync]; [done|]. split; [done|]. split; [done|]. split; [done|].
    split; [by split|]. intros w q. rewrite elem_of_nil. tauto. }
  apply Forall_cons in Hnew as [Hn Hnew]. cbn [add_sources] in Hrun. go_inv.
  match goal with H : add_source _ _ _ _ _ = _ |- _ =>
    apply add_source_Ok in H as (Hpre & Hb & Hs & [Hk1 Hk2 Hk3 Hk4] & Hc) end; [|done..].
  match goal with H : add_sources _ _ _ _ _ = _ |- _ =>
    apply IH in H as (Hpre' & Hb' & Hs' & [Hk1' Hk2' Hk3' Hk4'] & Hc') end; [|done|done|by right].
  split; [by etrans|]. split; [done|]. split; [done|]. split.
  - split; [congruence|auto| |auto]. intros w q. by rewrite Hk3', Hk3.
  - intros w q. rewrite Hc', Hc. cbn [fmap list_fmap concat]. rewrite fmap_app, elem_of_app. tauto.
Qed.

Lemma record_quoted rv rv' v ps added q w :
  (∀ u, rv_records rv' !! u = if decide (u = v) then Some ps else rv_records rv !! u) →
  (∃ src, pv_priceSources ps = {[s := src]} ∧
    ps_prices src ≡ₚ prices_of (rv_records rv !! v ≫= λ pv, pv_priceSources pv !! s) ++ added) →
  quoted rv' w q ↔ quoted rv w q ∨ (w = v ∧ q ∈ (ds_key <$> added)).
Proof.
  intros Hrv (src & Hsrc & Hp). unfold quoted, GetValidatorQuotePricesForSourceID. rewrite Hrv.
  destruct (decide (w = v)) as [->|Hne]; [|naive_solver]. cbn. rewrite Hsrc, lookup_singleton_eq. cbn.
  assert (Hq : q ∈ (ds_key <$> ps_prices src) ↔
    q ∈ (ds_key <$> prices_of (rv_records rv !! v ≫= λ pv, pv_priceSources pv !! s)) ∨ q ∈ (ds_key <$> added)).
  { by rewrite Hp, fmap_app, elem_of_app. }
  destruct (rv_records rv !! v) as [pv|]; cbn in *; [destruct (pv_priceSources pv !! s); cbn in *|];
    (split; [intros (? & [= <-] & Hin); apply Hq in Hin as [?|?]; [|tauto]
            |intros [(? & Heq & ?)|[_ ?]]; (eexists; split; [done|]); apply Hq]); eauto; try done; set_solver.
Qed.

(** A message in the records of its validator. *)
Lemma rv_RecordMsg_Ok msg a m added rv' m' :
  base (m_heap m) a → msg_ok msg → rv_RecordMsg msg (ag_v a) m = (Ok (added, rv'), m') →
  m_heap m `prefix_of` m_heap m' ∧ Forall new_ok added ∧ added ≠ [] ∧ base (m_heap m') (set_v rv' a) ∧
  (no_prices (ag_v a) → no_prices rv') ∧
  ∀ w q, quoted rv' w q ↔
    quoted (ag_v a) w q ∨ (w = mi_Validator msg ∧ q ∈ (ds_key <$> concat (ps_prices <$> added))).
Proof.
  intros [Ht Hdom Hwf Hrec Hpow Hnone Hsome] [Hmp Hnew]. unfold rv_RecordMsg. intros Hrun. go_inv. simplify_eq.
  set (vd := mi_Validator msg) in *. set (old := rv_records (ag_v a) !! vd) in *.
  set (record := default (newPriceValidator vd (mi_Power msg)) old) in *.
  assert (Hold : pv_priceSources record !! s = old ≫= λ pv, pv_priceSources pv !! s).
  { unfold record. by destruct old. }
  assert (Hdomr : ∀ k, is_Some (pv_priceSources record !! k) → k = s).
  { unfold record. destruct old as [pv|] eqn:Hpv; [|intros k; cbn; rewrite lookup_empty; by intros [? ?]].
    destruct (Hrec vd pv Hpv) as (ps & Hs & _). intros k. cbn. rewrite Hs, lookup_singleton_is_Some. done. }
  match goal with H : TryAddPriceSources _ _ _ = (Ok ?r, _) |- _ => destruct r as [psMap added'];
    apply TryAddPriceSources_Ok in H as (Hadd & Hne & Hpre & ps & Hps & [Hok Hv Hp Hf]) end; [|done| |done].
  2:{ rewrite Hold. unfold old. intros ps0. destruct (rv_records (ag_v a) !! vd) as [pv|] eqn:Hpv; [|done]. cbn.
      destruct (Hrec vd pv Hpv) as (ps1 & -> & ?). rewrite lookup_singleton_eq. by intros [= <-]. }
  cbn [fst snd] in *. split; [done|]. split; [done|]. split; [done|].
  set (rec' := ApplyAddedPriceSources psMap record) in *.
  assert (Hsrc : pv_priceSources rec' = {[s := ps]}) by exact Hps. split; [|split].
  - split; cbn; try done.
    + apply map_Forall_insert_2; [by exists ps|]. by eapply records_heap.
    + rewrite dom_insert_L, Hpow, Hmp. fold old. destruct old as [pv|] eqn:Hpv.
      * f_equal. apply elem_of_dom_2 in Hpv. set_solver.
      * rewrite power_add by by apply not_elem_of_dom. fold vd. lia.
    + intros Hn. destruct (Hnone Hn) as [? Hall]. split; [done|]. intros w pv'. cbn.
      intros [[<- <-]|[_ Hw]]%lookup_insert_Some; [|by eapply Hall].
      intros ps0. rewrite Hsrc, lookup_singleton_eq. intros [= <-]. apply Hf. rewrite Hold.
      unfold old. destruct (rv_records (ag_v a) !! vd) as [pv|] eqn:Hpv; [|done]. cbn.
      destruct (pv_priceSources pv !! s) as [ps1|] eqn:Hps1; [|done]. cbn. by eapply Hall.
    + intros l Hl. destruct (Hsome l Hl) as (p & ? & ?). exists p. split; [by eapply prefix_lookup_Some|done].
  - intros (? & ? & Hall). split; [done|]. split; [done|]. apply map_Forall_insert_2; [|done].
    cbn. unfold record. destruct old as [pv|] eqn:Hpv; [by apply (Hall vd)|done].
  - intros w q. apply (record_quoted _ _ _ rec').
    + intros u. cbn. destruct (decide (u = vd)) as [->|]; [by rewrite lookup_insert_eq|by rewrite lookup_insert_ne].
    + exists ps. split; [done|]. by rewrite Hold in Hp.
Qed.

(** ** Prices of the round *)

(** A number is printed without a sign in front and without leading zeros. *)
Definition canonical (price : string) : string := from_option Int_String price (SetString price).

Definition final_of (p c : PriceResult) : Prop :=
  p_Price c = canonical (p_Price p) ∧ p_Decimal c = p_Decimal p.

Definition phase (h : list PriceResult) (a : aggregator) : Prop :=
  match ag_finalPrice a with
  | None => no_prices (ag_v a)
  | Some l => ∃ l0 p c, rd_finalPrice (rds_of a) = Some l0 ∧ h !! l0 = Some p ∧ h !! l = Some c ∧ final_of p c ∧
      l ≠ l0
  end.

Record inv (m : Mem) (a : aggregator) : Prop := {
  i_base : base (m_heap m) a;
  i_synced : synced (m_heap m) a;
  i_counted w q : counted (rds_of a) w q ↔ quoted (ag_v a) w q;
  i_phase : phase (m_heap m) a;
}.

Lemma new_inv m : inv m (newAggregator t).
Proof.
  split.
  - split; cbn; try done.
    + intros k. rewrite lookup_empty. by intros [? ?].
    + apply newRecordsDS_wf.
    + intros _. split; [|apply map_Forall_empty]. intros k (r & Hr & _). by apply elem_of_nil in Hr.
  - by intros l p [=].
  - intros w q. split; [|by intros (? & [=] & _)]. intros (r & Hr & _). by apply elem_of_nil in Hr.
  - split; [done|]. split; [done|]. apply map_Forall_empty.
Qed.

Lemma AddMsg_inv msg m a a' m' :
  inv m a → msg_ok msg → AddMsg msg a m = (Ok a', m') → inv m' a'.
Proof.
  intros [Hb Hs Hc Hph] Hmsg. unfold AddMsg. intros Hrun. go_inv.
  match goal with H : rv_RecordMsg _ _ _ = (Ok ?r, _) |- _ => destruct r as [added rv'];
    apply (rv_RecordMsg_Ok _ a) in H as (Hpre & Hnew & Hne & Hb1 & Hnp & Hq) end; [|done..].
  cbn [fst snd] in *. rewrite (proj1 Hmsg) in *.
  match goal with H : add_sources _ _ _ _ _ = _ |- _ =>
    apply add_sources_Ok in H as (Hpre' & Hb' & Hs' & [Hk1 Hk2 Hk3 Hk4] & Hc') end; [|done|done|by left].
  split; [done|done| |].
  - intros w q. rewrite Hc', Hk3. cbn [ag_v set_v]. rewrite Hq. change (rds_of (set_v rv' a)) with (rds_of a).
    by rewrite Hc.
  - unfold phase in *. rewrite Hk1. cbn [ag_finalPrice set_v]. destruct (ag_finalPrice a) as [l|]; [|auto].
    destruct Hph as (l0 & p & c & Hl0 & Hp & Hcl & Hf & Hne'). exists l0, p, c. split; [by apply Hk4|].
    assert (Hh : m_heap m `prefix_of` m_heap m') by by etrans.
    split; [|split; [|done]]; by eapply prefix_lookup_Some.
Qed.

(** ** Messages are accepted or refused *)

Lemma load_run l q m : m_heap m !! l = Some q → load l m = (Ok q, m).
Proof. intros Hl. unfold load. rewrite (bind_run _ _ _ _ _ (eq_refl : gets _ m = _)). by rewrite Hl. Qed.

Lemma source_to_add_runs pv updated psNew m :
  new_ok psNew → start_ok (m_heap m) (start pv updated) → ∃ ps m', source_to_add pv updated psNew m = (Ok ps, m').
Proof.
  intros (_ & Hid & _) Hstart. unfold source_to_add, start in *. rewrite Hid.
  destruct (updated !! s) as [ps|]; [by eexists _, _|].
  destruct (pv_priceSources pv !! s) as [ps|]; [|by eexists _, _]. destruct (Hstart ps eq_refl) as [_ Hv].
  unfold ps_Cpy. destruct (ps_finalPrice ps) as [l|] eqn:Hl; [|by eexists _, _].
  destruct (Hv l Hl) as [p Hp]. rewrite (bind_run _ _ _ _ _ (load_run _ _ _ Hp)). by eexists _, _.
Qed.

Lemma ps_Add_runs ps psNew m :
  src_ok ps → new_ok psNew → ∃ r, attempt (ps_Add ps psNew) m = (Ok r, m).
Proof.
  intros [[Hdet [Hid _]] _ _] [_ [Hid' _]]. unfold attempt, ps_Add. rewrite Hid, Hid', Z.eqb_refl, Hdet. cbn [negb].
  case_bool_decide; by eexists.
Qed.

Lemma try_sources_runs pv pSs updated added m :
  Forall new_ok pSs → start_ok (m_heap m) (start pv updated) →
  ∃ r m', try_sources pv updated added pSs m = (Ok r, m').
Proof.
  revert updated added m. induction pSs as [|psNew pSs IH]; intros updated added m Hnew Hstart; [by eexists _, _|].
  apply Forall_cons in Hnew as [Hn Hnew]. cbn [try_sources].
  destruct (source_to_add_runs pv updated psNew m) as (ps & m1 & Hrun); [done..|].
  rewrite (bind_run _ _ _ _ _ Hrun). apply source_to_add_Ok in Hrun as [Hpre Hext]; [|done..].
  destruct (ps_Add_runs ps psNew m1) as [r Hadd]; [apply Hext|done|]. rewrite (bind_run _ _ _ _ _ Hadd).
  apply attempt_Ok in Hadd. destruct r as [[ps' psAdded]|].
  - apply (extends_Add _ _ _ _ _ _ _ Hext) in Hadd as (_ & _ & Hext'); [|done]. apply IH; [done|].
    unfold start. rewrite (proj1 (proj2 Hn)), lookup_insert_eq. intros ? [= <-]. split; apply Hext'.
  - apply IH; [done|]. intros ps0 Hps0. destruct (Hstart ps0 Hps0). split; [done|by eapply prefix_valid].
Qed.

Lemma add_sources_runs power v pSs a m : ∃ a' m', add_sources power v pSs a m = (Ok a', m').
Proof.
  revert a m. induction pSs as [|ps pSs IH]; intros a m; [by eexists _, _|]. cbn [add_sources].
  assert (Hrun : ∃ a1 m1, add_source power v ps a m = (Ok a1, m1)) by
    (unfold add_source, rds_GetFinalPrice; repeat case_match; by eexists _, _).
  destruct Hrun as (a1 & m1 & Hrun). rewrite (bind_run _ _ _ _ _ Hrun). apply IH.
Qed.

Lemma inv_heap m m' a : m_heap m `prefix_of` m_heap m' → inv m a → inv m' a.
Proof.
  intros Hpre [Hb Hs Hc Hph]. split; [| |done|].
  - destruct Hb as [Ht Hdom Hwf Hrec Hpow Hnone Hsome]. split; try done; [by eapply records_heap|].
    intros l Hl. destruct (Hsome l Hl) as (p & ? & ?). exists p. split; [by eapply prefix_lookup_Some|done].
  - intros l p Hl Hp v pv Hpv ps Hps. destruct (b_some _ _ Hb l Hl) as (p0 & Hp0 & _).
    pose proof (prefix_lookup_Some _ _ _ _ Hp0 Hpre) as Hp1.
    assert (p0 = p) as -> by (apply Some_inj; by rewrite <-Hp, <-Hp1).
    destruct (Hs l p Hl Hp0 v pv Hpv ps Hps) as (l' & p' & ? & ? & ?). exists l', p'.
    split; [done|]. split; [by eapply prefix_lookup_Some|done].
  - unfold phase in *. destruct (ag_finalPrice a) as [l|]; [|done]. destruct Hph as (l0 & p & c & ? & ? & ? & ?).
    exists l0, p, c. split; [done|]. split; [by eapply prefix_lookup_Some|]. split; [by eapply prefix_lookup_Some|done].
Qed.

Lemma record_start h a v p :
  base h a → start_ok h (pv_priceSources (default (newPriceValidator v p) (rv_records (ag_v a) !! v)) !! s).
Proof.
  intros Hb. destruct (rv_records (ag_v a) !! v) as [pv|] eqn:Hpv; [|by intros ps; cbn; rewrite lookup_empty].
  destruct (b_records _ _ Hb v pv Hpv) as (ps & Hps & ?). cbn. rewrite Hps, lookup_singleton_eq. by intros ? [= <-].
Qed.

Lemma rv_RecordMsg_runs msg m a :
  base (m_heap m) a → msg_ok msg →
  (∃ added rv' m', rv_RecordMsg msg (ag_v a) m = (Ok (added, rv'), m')) ∨
  (∃ m', rv_RecordMsg msg (ag_v a) m = (Err ErrNoSourceAdded, m') ∧ m_heap m `prefix_of` m_heap m').
Proof.
  intros Hb Hmsg. unfold rv_RecordMsg, TryAddPriceSources.
  set (record := default _ _). assert (Hst : start_ok (m_heap m) (start record ∅)).
  { unfold start. rewrite lookup_empty. by apply record_start. }
  destruct (try_sources_runs record (mi_PriceSources msg) ∅ [] m) as ([updated added] & m1 & Htry);
    [apply Hmsg|done|].
  unfold mbind, M_bind. rewrite Htry. cbn [fst snd]. case_bool_decide; cbn; [right|left; by eexists _, _, _].
  exists m1. split; [done|]. apply try_sources_Ok in Htry as (_ & _ & _ & ? & _); [done|apply Hmsg|done|].
  intros k. rewrite lookup_empty. by intros [? ?].
Qed.

(** A message is recorded, or it brings nothing new and leaves the aggregator alone. *)
Lemma AddMsg_runs msg m a :
  inv m a → msg_ok msg →
  (∃ a' m', AddMsg msg a m = (Ok a', m') ∧ inv m' a') ∨
  (∃ m', AddMsg msg a m = (Err ErrNoSourceAdded, m') ∧ inv m' a).
Proof.
  intros Hinv Hmsg. destruct (rv_RecordMsg_runs msg m a) as [(added & rv' & m1 & Hrun)|(m1 & Hrun & Hpre)];
    [apply Hinv|done|left|right].
  - destruct (add_sources_runs (mi_Power msg) (mi_Validator msg) added (set_v rv' a) m1) as (a' & m' & Hadd).
    assert (Hok : AddMsg msg a m = (Ok a', m')) by (unfold AddMsg; by rewrite (bind_run _ _ _ _ _ Hrun)).
    exists a', m'. split; [done|by eapply AddMsg_inv].
  - exists m1. split; [|by eapply inv_heap]. unfold AddMsg, mbind, M_bind. by rewrite Hrun.
Qed.

(** ** Computing the price *)

(** The algorithm after [n] prices that all print as the price [p]. *)
Definition after_prices (p : PriceInfo) (n : nat) : AggMedian :=
  match n, SetString (p_Price p) with
  | O, _ => NewAggMedian
  | _, Some z => {| am_t := number; am_finalString := EmptyString; am_list := replicate n z;
                    am_decimal := p_Decimal p |}
  | _, None => {| am_t := notNumber; am_finalString := p_Price p; am_list := []; am_decimal := p_Decimal p |}
  end.

(** A result with the value of the price. *)
Record like (p q : PriceResult) : Prop := {
  lk_value : SetString (p_Price q) = SetString (p_Price p);
  lk_string : SetString (p_Price p) = None → p_Price q = p_Price p;
  lk_decimal : p_Decimal q = p_Decimal p;
}.

Lemma key_like p q : ds_key q = ds_key p → like p q.
Proof. intros [= Hp _ Hd]. split; by rewrite ?Hp. Qed.

Lemma final_like p c : final_of p c → like p c.
Proof.
  intros [Hp Hd]. unfold canonical in Hp. split; [| |done]; rewrite Hp; destruct (SetString (p_Price p)) as [z|] eqn:Hz;
    cbn; try done. apply SetString_Int_String.
Qed.

Definition at_like (h : list PriceResult) (p : PriceResult) (o : option loc) : Prop :=
  ∃ l q, o = Some l ∧ h !! l = Some q ∧ like p q.

Lemma Add_same p l q m n :
  m_heap m !! l = Some q → like p q → m_algo m = after_prices p n →
  Add l m = (Ok true, {| m_heap := m_heap m; m_algo := after_prices p (S n) |}).
Proof.
  intros Hl [Hs Hp Hd] Ha. unfold Add. rewrite (bind_run _ _ _ _ _ (load_run _ _ _ Hl)).
  rewrite (bind_run _ _ _ _ _ (eq_refl : gets m_algo m = _)), Hs, Ha.
  unfold after_prices. destruct (SetString (p_Price p)) as [z|] eqn:Hz; destruct n as [|n];
    unfold Add_number, Add_string; cbn [am_t am_list am_decimal NewAggMedian].
  - go_run. unfold set_algo, add_number. cbn. by rewrite Hd.
  - rewrite Hd, Z.ltb_irrefl, Z.sub_diag. change (10 ^ Z.max 0 (wrap_int32 0)) with 1.
    rewrite (bind_run _ _ _ _ _ (eq_refl : modify _ m = _)). unfold set_algo, add_number.
    cbn [am_finalString am_list]. assert (((λ v, v * 1) <$> replicate (S n) z) ++ [z] = replicate (S (S n)) z) as ->; [|done].
    by rewrite fmap_replicate, Z.mul_1_r, (replicate_S_end (S n)).
  - go_run. unfold set_algo. cbn. by rewrite Hd, Hp.
  - go_run. cbn. rewrite Hp, Hd, bool_decide_true, Z.eqb_refl by done. cbn.
    f_equal. destruct m as [h al]. cbn [m_heap m_algo] in *. rewrite Ha. unfold after_prices. by rewrite Hz.
Qed.

Lemma add_prices_same p prices m n :
  Forall (at_like (m_heap m) p) prices → m_algo m = after_prices p n →
  add_prices prices m = (Ok true, {| m_heap := m_heap m; m_algo := after_prices p (n + length prices) |}).
Proof.
  intros Hall. revert m n Hall. induction prices as [|o prices IH]; intros m n Hall Ha.
  { cbn. rewrite Nat.add_0_r, <-Ha. by destruct m. }
  apply Forall_cons in Hall as [(l & q & -> & Hl & Hlike) Hall]. cbn [add_prices].
  rewrite (bind_run _ _ _ _ _ (Add_same _ _ _ _ _ Hl Hlike Ha)).
  rewrite (IH _ (S n)) by done. cbn. by rewrite Nat.add_succ_r.
Qed.

Lemma Median_same n z : Median (replicate (S n) z) = Some z.
Proof.
  destruct (Median_majority (replicate (S n) z) z z) as (m & -> & Hm); [|f_equal; lia].
  assert (filter (between z z) (replicate (S n) z) = replicate (S n) z) as ->.
  { generalize (S n) as k. induction k as [|k IH]; [done|]. cbn [replicate].
    rewrite filter_cons_True by (unfold between; lia). by rewrite IH. }
  rewrite !length_replicate. lia.
Qed.

Lemma GetResult_same p n m :
  p_Price p ≠ EmptyString → m_algo m = after_prices p (S n) →
  ∃ c, final_of p c ∧ GetResult m =
    (Ok (Some (length (m_heap m))), {| m_heap := m_heap m ++ [c]; m_algo := NewAggMedian |}).
Proof.
  intros Hne Ha. unfold GetResult. rewrite (bind_run _ _ _ _ _ (eq_refl : gets _ m = _)), Ha.
  rewrite (bind_run _ _ _ _ _ (eq_refl : Reset m = _)). unfold after_prices, final_of, canonical.
  destruct (SetString (p_Price p)) as [z|]; cbn [am_t am_list am_decimal am_finalString].
  - rewrite Median_same. eexists. split; [|done]. done.
  - rewrite bool_decide_false by done. eexists. split; [|done]. done.
Qed.

(** ** The validators *)

Lemma source_prices_single pv ps : pv_priceSources pv = {[s := ps]} → source_prices pv = [ps_finalPrice ps].
Proof.
  intros Hs. unfold source_prices. rewrite Hs, dom_singleton_L, elements_singleton. cbn.
  by rewrite lookup_singleton_eq.
Qed.

Lemma pv_GetFinalPrice_same pv ps p m :
  pv_finalPrice pv = None → pv_priceSources pv = {[s := ps]} → at_like (m_heap m) p (ps_finalPrice ps) →
  p_Price p ≠ EmptyString →
  ∃ c, final_of p c ∧ pv_GetFinalPrice pv m =
    (Ok (Some (length (m_heap m)), set_final (length (m_heap m)) pv),
     {| m_heap := m_heap m ++ [c]; m_algo := NewAggMedian |}).
Proof.
  intros Hf Hs Hat Hne. unfold pv_GetFinalPrice. rewrite Hf, bool_decide_false by (rewrite Hs; apply map_non_empty_singleton).
  rewrite (bind_run _ _ _ _ _ (eq_refl : Reset m = _)), (source_prices_single pv ps) by done.
  erewrite bind_run; [|apply (add_prices_same p _ _ 0); [by repeat constructor|done]]. cbn [length Nat.add].
  edestruct (GetResult_same p 0) as (c & Hc & Hrun); [done| |exists c; split; [done|]].
  2:{ erewrite bind_run; [|exact Hrun]. done. } done.
Qed.

Lemma pv_GetFinalPrice_none pv ps m :
  pv_finalPrice pv = None → pv_priceSources pv = {[s := ps]} → ps_finalPrice ps = None →
  pv_GetFinalPrice pv m = (Ok (None, pv), {| m_heap := m_heap m; m_algo := NewAggMedian |}).
Proof.
  intros Hf Hs Hn. unfold pv_GetFinalPrice. rewrite Hf, bool_decide_false by (rewrite Hs; apply map_non_empty_singleton).
  by rewrite (bind_run _ _ _ _ _ (eq_refl : Reset m = _)), (source_prices_single pv ps), Hn by done.
Qed.

(** The records hold the same sources. *)
Definition same_sources (records records' : gmap string priceValidator) : Prop :=
  ∀ v, pv_priceSources <$> records' !! v = pv_priceSources <$> records !! v.

Lemma same_sources_set records records' v l pv :
  same_sources records records' → pv_priceSources <$> records !! v = Some (pv_priceSources pv) →
  same_sources records (<[v := set_final l pv]> records').
Proof.
  intros Hsame Hv w. destruct (decide (v = w)) as [<-|Hne].
  - by rewrite lookup_insert_eq, Hv.
  - by rewrite lookup_insert_ne.
Qed.

Lemma same_sources_lookup records records' v pv' :
  same_sources records records' → records' !! v = Some pv' →
  ∃ pv, records !! v = Some pv ∧ pv_priceSources pv' = pv_priceSources pv.
Proof.
  intros Hsame Hv. specialize (Hsame v). rewrite Hv in Hsame. cbn in Hsame.
  symmetry in Hsame. apply fmap_Some in Hsame as (pv & Hpv & Heq). eauto.
Qed.

Lemma same_sources_dom records records' : same_sources records records' → dom records' = dom records.
Proof.
  intros Hsame. apply set_eq. intros v. rewrite !elem_of_dom, <-!(fmap_is_Some pv_priceSources).
  by rewrite (Hsame v).
Qed.

Lemma same_sources_all records records' P rv rv' :
  rv_records rv = records → rv_records rv' = records' → same_sources records records' →
  all_sources P rv → all_sources P rv'.
Proof.
  intros <- <- Hsame Hall v pv' Hv ps. apply (same_sources_lookup _ _ _ _ Hsame) in Hv as (pv & Hpv & ->).
  by apply (Hall v).
Qed.

Definition ready (h : list PriceResult) (p : PriceResult) (pv : priceValidator) : Prop :=
  pv_finalPrice pv = None ∧ ∃ ps, pv_priceSources pv = {[s := ps]} ∧ at_like h p (ps_finalPrice ps).

Lemma at_like_heap h h' p o : h `prefix_of` h' → at_like h p o → at_like h' p o.
Proof. intros Hh (l & q & -> & Hl & Hq). exists l, q. split; [done|]. split; [by eapply prefix_lookup_Some|done]. Qed.

Lemma validator_prices_same p entries prices records0 records m :
  p_Price p ≠ EmptyString → Forall (λ e, ready (m_heap m) p e.2) entries →
  Forall (λ e, pv_priceSources <$> records0 !! e.1 = Some (pv_priceSources e.2)) entries →
  map_Forall (λ _ l, at_like (m_heap m) p (Some l)) prices → same_sources records0 records →
  ∃ prices' records' m', validator_prices entries prices records m = (Ok (Some prices', records'), m') ∧
    m_heap m `prefix_of` m_heap m' ∧ map_Forall (λ _ l, at_like (m_heap m') p (Some l)) prices' ∧
    same_sources records0 records' ∧ (entries ≠ [] ∨ prices ≠ ∅ → prices' ≠ ∅).
Proof.
  intros Hne. revert prices records m. induction entries as [|[v pv] entries IH];
    intros prices records m Hready Hin Hprices Hsame.
  { exists prices, records, m. repeat split; try done. by intros [?|?]. }
  apply Forall_cons in Hready as [(Hf & ps & Hs & Hat) Hready]. apply Forall_cons in Hin as [Hv Hin]. cbn [fst snd] in *.
  destruct (pv_GetFinalPrice_same pv ps p m) as (c & Hc & Hrun); [done..|].
  cbn [validator_prices]. rewrite (bind_run _ _ _ _ _ Hrun). cbn [fst snd].
  set (m1 := {| m_heap := m_heap m ++ [c]; m_algo := NewAggMedian |}) in *.
  assert (Hpre : m_heap m `prefix_of` m_heap m1) by by eexists.
  destruct (IH (<[v := length (m_heap m)]> prices) (<[v := set_final (length (m_heap m)) pv]> records) m1)
    as (prices' & records' & m' & -> & Hpre' & Hp' & Hs' & Hne').
  - eapply Forall_impl; [exact Hready|]. intros e (? & ps' & ? & ?). split; [done|]. exists ps'.
    split; [done|by eapply at_like_heap].
  - done.
  - apply map_Forall_insert_2.
    + exists (length (m_heap m)), c. split; [done|]. split; [|by apply final_like].
      unfold m1. cbn [m_heap]. by rewrite list_lookup_middle.
    + intros w l Hl. eapply at_like_heap; [done|]. by apply (Hprices w).
  - by apply same_sources_set.
  - exists prices', records', m'. split; [done|]. split; [by etrans|]. split; [done|]. split; [done|].
    intros _. apply Hne'. right. apply insert_non_empty.
Qed.

Section Order.
Context (range : gmap string priceValidator → list (string * priceValidator)).
Context (range_perm : ∀ records, range records ≡ₚ map_to_list records).

Lemma range_lookup records e : e ∈ range records → records !! e.1 = Some e.2.
Proof. rewrite range_perm. destruct e. apply elem_of_map_to_list. Qed.

Lemma range_empty records : range records = [] → records = ∅.
Proof. intros Hr. apply map_to_list_empty_iff, Permutation_nil. by rewrite <-range_perm, Hr. Qed.

(** All validators have the price of the source: so has the round. *)
Lemma rv_GetFinalPrice_same p rv m :
  p_Price p ≠ EmptyString → no_prices rv → rv_records rv ≠ ∅ →
  map_Forall (λ _ pv, ready (m_heap m) p pv) (rv_records rv) →
  ∃ l c rv' m', rv_GetFinalPrice range rv m = (Ok (Some l, rv'), m') ∧ m_heap m `prefix_of` m_heap m' ∧
    m_heap m' !! l = Some c ∧ final_of p c ∧ same_sources (rv_records rv) (rv_records rv') ∧
    rv_accumulatedPower rv' = rv_accumulatedPower rv ∧ m_heap m !! l = None.
Proof.
  intros Hne (Hf & Hps & _) Hrec Hready. unfold rv_GetFinalPrice. rewrite Hf. unfold GetFinalPriceForValidators.
  rewrite Hps, bool_decide_true by done. cbn [negb].
  destruct (validator_prices_same p (range (rv_records rv)) ∅ (rv_records rv) (rv_records rv) m)
    as (prices & records & m1 & Hrun & Hpre & Hprices & Hsame & Hnonempty); [done| | |apply map_Forall_empty|done|].
  { apply Forall_forall. intros e He. by eapply Hready, range_lookup. }
  { apply Forall_forall. intros e He. by rewrite (range_lookup _ _ He). }
  rewrite (bind_run _ _ _ _ m1 (bind_run _ _ _ _ _ Hrun)). cbn [fst snd default].
  rewrite (bind_run _ _ _ _ _ (eq_refl : Reset m1 = _)).
  assert (Hlen : ∃ n, length (sorted_prices prices) = S n).
  { destruct (length (sorted_prices prices)) as [|n] eqn:Hl; [|by eexists]. exfalso.
    apply nil_length_inv, fmap_nil_inv in Hl. apply Hnonempty; [left; by intros ?%range_empty|].
    apply dom_empty_inv_L. pose proof (merge_sort_Permutation String.le (elements (dom prices))) as Hp.
    rewrite Hl in Hp. symmetry in Hp. apply Permutation_nil_r, elements_empty_inv in Hp. by apply leibniz_equiv. }
  destruct Hlen as [n Hlen].
  erewrite bind_run; [|apply (add_prices_same p _ _ 0); [|done]].
  2:{ apply Forall_forall. intros o (v & -> & Hv)%list_elem_of_fmap. rewrite merge_sort_Permutation in Hv.
      apply elem_of_elements, elem_of_dom in Hv as [l Hl]. rewrite Hl. by apply (Hprices v). }
  rewrite Hlen. edestruct (GetResult_same p n) as (c & Hc & Hres); [done| |].
  2:{ erewrite bind_run; [|exact Hres]. eexists _, c, _, _. split; [done|]. cbn.
      split; [by apply prefix_app_r|]. split; [by rewrite list_lookup_middle|]. split; [done|]. split; [done|].
      split; [done|]. apply lookup_ge_None. by apply prefix_length. }
  done.
Qed.

Lemma rv_GetFinalPrice_none rv m :
  no_prices rv → rv_records rv ≠ ∅ →
  map_Forall (λ _ pv, ∃ ps, pv_priceSources pv = {[s := ps]} ∧ ps_finalPrice ps = None) (rv_records rv) →
  rv_GetFinalPrice range rv m = (Ok (None, rv), {| m_heap := m_heap m; m_algo := NewAggMedian |}).
Proof.
  intros (Hf & Hps & Hpv) Hne Hnone. unfold rv_GetFinalPrice. rewrite Hf. unfold GetFinalPriceForValidators.
  rewrite Hps, bool_decide_true by done. cbn [negb].
  assert (Hsame : set_prices None ∅ (rv_records rv) rv = rv) by (destruct rv; cbn in *; by subst).
  destruct (range (rv_records rv)) as [|[v pv] entries] eqn:Hr.
  - by apply range_empty in Hr.
  - assert (Hin : rv_records rv !! v = Some pv) by (apply (range_lookup _ (v, pv)); rewrite Hr; left).
    destruct (Hnone v pv Hin) as (ps & Hs & Hn). cbn [validator_prices].
    assert (Hrun : (r ← pv_GetFinalPrice pv; match r.1 with
              | Some l => validator_prices entries (<[v:=l]> ∅) (<[v:=r.2]> (rv_records rv))
              | None => mret (None, rv_records rv) end) m =
      (Ok (None, rv_records rv), {| m_heap := m_heap m; m_algo := NewAggMedian |})).
    { rewrite (bind_run _ _ _ _ _ (pv_GetFinalPrice_none pv ps m (Hpv v pv Hin) Hs Hn)). done. }
    rewrite (bind_run _ _ _ _ _ (bind_run _ _ _ _ _ Hrun)). cbn. by rewrite Hf, Hsame.
Qed.

Lemma power_inhabited (X : gset string) : Exceeds t (power pw X) = true → X ≠ ∅.
Proof. intros He ->. unfold Exceeds in He. rewrite power_empty in He. apply Z.ltb_lt in He. nia. Qed.

Lemma exceeding_exceeds m a k : inv m a → exceeding (rds_of a) k → exceedsThreshold a = true.
Proof.
  intros [Hb _ Hc _] (X & He%Exceeds_spec & HX)%exceeding_quorum; [|apply Hb]. unfold exceedsThreshold.
  rewrite (b_t _ _ Hb), (b_power _ _ Hb). eapply Exceeds_mono; [apply t_nonneg| |exact He].
  apply power_mono; [done|]. intros v (prices & Hq & _)%HX%Hc. unfold GetValidatorQuotePricesForSourceID in Hq.
  apply elem_of_dom. by destruct (rv_records (ag_v a) !! v).
Qed.

Lemma exceeding_price m a k : inv m a → exceeding (rds_of a) k → k.1.1 ≠ EmptyString.
Proof.
  intros [Hb _ Hc _] Hk%exceeding_quorum; [|apply Hb].
  destruct (quorum_inhabited _ Hk) as (v & (prices & Hq & Hin)%Hc). unfold GetValidatorQuotePricesForSourceID in Hq.
  destruct (rv_records (ag_v a) !! v) as [pv|] eqn:Hpv; [|done]. cbn in Hq.
  destruct (b_records _ _ Hb v pv Hpv) as (ps & Hs & [(_ & _ & Hne) _ _] & _).
  rewrite Hs, lookup_singleton_eq in Hq. injection Hq as <-. apply list_elem_of_fmap in Hin as (q & -> & Hq).
  rewrite Forall_forall in Hne. exact (Hne q Hq).
Qed.

Lemma exceeding_records h a : base h a → exceedsThreshold a = true → rv_records (ag_v a) ≠ ∅.
Proof.
  intros Hb Hex Hemp. unfold exceedsThreshold in Hex. rewrite (b_t _ _ Hb), (b_power _ _ Hb), Hemp in Hex.
  by apply power_inhabited in Hex.
Qed.

Lemma inv_unready m a :
  inv m a → rd_finalPrice (rds_of a) = None →
  map_Forall (λ _ pv, ∃ ps, pv_priceSources pv = {[s := ps]} ∧ ps_finalPrice ps = None) (rv_records (ag_v a)).
Proof.
  intros [Hb _ _ _] Hl v pv Hpv. destruct (b_none _ _ Hb Hl) as [_ Hall].
  destruct (b_records _ _ Hb v pv Hpv) as (ps & Hps & _). exists ps. split; [done|].
  apply (Hall v pv Hpv). by rewrite Hps, lookup_singleton_eq.
Qed.

Lemma inv_ready m a l p :
  inv m a → no_prices (ag_v a) → rd_finalPrice (rds_of a) = Some l → m_heap m !! l = Some p →
  map_Forall (λ _ pv, ready (m_heap m) p pv) (rv_records (ag_v a)).
Proof.
  intros [Hb Hs _ _] (_ & _ & Hnone) Hl Hp v pv Hpv. split; [by apply (Hnone v)|].
  destruct (b_records _ _ Hb v pv Hpv) as (ps & Hps & _). exists ps. split; [done|].
  destruct (Hs l p Hl Hp v pv Hpv ps) as (l' & p' & -> & Hp' & Hk); [by rewrite Hps, lookup_singleton_eq|].
  exists l', p'. split; [done|]. split; [done|by apply key_like].
Qed.

(** The aggregator with the prices of its validators computed. *)
Lemma same_sources_base h h' a rv' final :
  h `prefix_of` h' → base h a → same_sources (rv_records (ag_v a)) (rv_records rv') →
  rv_accumulatedPower rv' = rv_accumulatedPower (ag_v a) →
  base h' {| ag_t := ag_t a; ag_finalPrice := final; ag_v := rv'; ag_dsMap := ag_dsMap a |}.
Proof.
  intros Hpre [Ht Hdom Hwf Hrec Hpow Hnone Hsome] Hsame Hacc. split; cbn; try done.
  - intros v pv' (pv & Hpv & ->)%(same_sources_lookup _ _ _ _ Hsame).
    destruct (Hrec v pv Hpv) as (ps & ? & ? & ?). exists ps. split; [done|]. split; [done|by eapply prefix_valid].
  - by rewrite Hacc, Hpow, (same_sources_dom _ _ Hsame).
  - intros Hl. destruct (Hnone Hl) as [? Hall]. split; [done|].
    exact (same_sources_all _ _ _ (ag_v a) rv' eq_refl eq_refl Hsame Hall).
  - intros l Hl. destruct (Hsome l Hl) as (p & ? & ?). exists p. split; [by eapply prefix_lookup_Some|done].
Qed.

Lemma same_sources_quoted rv rv' v q :
  same_sources (rv_records rv) (rv_records rv') → quoted rv' v q ↔ quoted rv v q.
Proof.
  intros Hsame. specialize (Hsame v). unfold quoted, GetValidatorQuotePricesForSourceID.
  destruct (rv_records rv !! v), (rv_records rv' !! v); cbn in *; try done. by injection Hsame as ->.
Qed.

Lemma GetFinalPrice_inv m a :
  inv m a → ∃ o a' m', GetFinalPrice range a m = (Ok (o, a'), m') ∧ inv m' a' ∧
    rds_of a' = rds_of a ∧ o = ag_finalPrice a' ∧ (o = None → rd_finalPrice (rds_of a) = None).
Proof.
  intros Hinv. pose proof Hinv as [Hb Hs Hc Hph]. unfold GetFinalPrice. unfold phase in Hph.
  destruct (ag_finalPrice a) as [l|] eqn:Hfin; [by eexists _, _, _|].
  destruct (rd_finalPrice (rds_of a)) as [l|] eqn:Hl.
  - destruct (b_some _ _ Hb l Hl) as (p & Hp & He & _). rewrite (exceeding_exceeds m a _ Hinv He). cbn [negb].
    pose proof (exceeding_price m a _ Hinv He) as Hne. cbn in Hne.
    destruct (rv_GetFinalPrice_same p (ag_v a) m) as (lf & c & rv' & m' & Hrun & Hpre & Hlf & Hcf & Hsame & Hacc & Hfresh);
      [done|done|by eapply exceeding_records, exceeding_exceeds|by eapply inv_ready|].
    rewrite (bind_run _ _ _ _ _ Hrun). eexists _, _, _. split; [done|]. cbn [fst snd ag_finalPrice].
    split; [|done]. split; [by eapply same_sources_base| |..].
    + intros l' p' Hl' Hp'. cbn. apply (same_sources_all _ _ _ (ag_v a) rv' eq_refl eq_refl Hsame).
      intros v pv Hpv ps Hps. change (rd_finalPrice (rds_of a) = Some l') in Hl'.
      assert (l' = l) as -> by congruence.
      pose proof (prefix_lookup_Some _ _ _ _ Hp Hpre) as Hpp. assert (p' = p) as -> by (apply Some_inj; by rewrite <-Hp', <-Hpp).
      destruct (Hs l p Hl Hp v pv Hpv ps Hps) as (l2 & p2 & ? & ? & ?). exists l2, p2.
      split; [done|]. split; [by eapply prefix_lookup_Some|done].
    + intros w q. cbn [ag_v]. rewrite (same_sources_quoted (ag_v a)) by done. apply Hc.
    + cbn. exists l, p, c. split; [done|]. split; [by eapply prefix_lookup_Some|]. split; [done|]. split; [done|].
      intros ->. by pose proof (eq_trans (eq_sym Hfresh) Hp).
  - destruct (exceedsThreshold a) eqn:Hex; cbn [negb].
    + erewrite bind_run; [|apply rv_GetFinalPrice_none; [done|by eapply exceeding_records|by apply (inv_unready m)]].
      eexists _, _, _. split; [done|]. cbn [fst snd ag_finalPrice].
      assert ({| ag_t := ag_t a; ag_finalPrice := None; ag_v := ag_v a; ag_dsMap := ag_dsMap a |} = a) as ->
        by (destruct a; cbn in *; by subst).
      split; [|done]. split; [done|done|done|]. unfold phase. by rewrite Hfin.
    + eexists _, _, _. split; [done|]. split; [done|]. split; [done|]. split; [done|done].
Qed.
End Order.
End V1.
