(* ===== verification/OracleParams.v ===== *)
(** * Parameters and caches of x/oracle (types/params.go, keeper/feedermanagement/caches.go)

    Tokens, sources, rules and feeders are lists whose first entry is reserved, and
    their index is their identifier.  The caches hold the parameters and the powers of
    the validators that the rounds read. *)

From S2P Require Import Prelude OracleAlgo OracleAggregator.

(** ** Data *)

Record TokenFeeder := {
  tf_TokenID : Z; tf_RuleID : Z; tf_StartRoundID : Z; tf_StartBaseBlock : Z; tf_Interval : Z; tf_EndBlock : Z }.
Record Chain := { ch_Name : string; ch_Desc : string }.
Record Token := {
  tk_Name : string; tk_ChainID : Z; tk_ContractAddress : string; tk_Decimal : Z; tk_Active : bool;
  tk_AssetID : string }.
(** The endpoint of a source is not used on chain. *)
Record Source := { sc_Name : string; sc_Valid : bool; sc_Deterministic : bool }.
Record NOMSource := { nom_SourceIDs : list Z; nom_Minimum : Z }.
Record RuleSource := { ru_SourceIDs : list Z; ru_Nom : option NOMSource }.
(** Decimals are in units of 10^-18, durations in nanoseconds. *)
Record SlashingParams := {
  sl_ReportedRoundsWindow : Z; sl_MinReportedPerWindow : Z; sl_OracleMissJailDuration : Z;
  sl_OracleMaliciousJailDuration : Z; sl_SlashFractionMalicious : Z }.
Inductive ConsensusMode := ConsensusModeUnspecified | ConsensusModeASAP.
#[global] Instance ConsensusMode_eq_dec : EqDecision ConsensusMode.
Proof. solve_decision. Defined.

Record Params := {
  pa_Chains : list Chain; pa_Tokens : list Token; pa_Sources : list Source; pa_Rules : list RuleSource;
  pa_TokenFeeders : list TokenFeeder; pa_MaxNonce : Z; pa_ThresholdA : Z; pa_ThresholdB : Z;
  pa_Mode : ConsensusMode; pa_MaxDetId : Z; pa_MaxSizePrices : Z; pa_Slashing : option SlashingParams;
  pa_PieceSizeByte : Z; pa_EpochIdentifier : string }.

(** The element with an identifier, as [l[id]] with the bounds checked. *)
Definition at_id {A} (l : list A) (id : Z) : option A := if id <? 0 then None else l !! Z.to_nat id.
Definition len {A} (l : list A) : Z := Z.of_nat (length l).

(** ** Validation

    Every error is [ErrInvalidParams]; the functions return whether there is none. *)

Definition tf_validate (f : TokenFeeder) : bool :=
  (1 <=? tf_TokenID f) && (1 <=? tf_StartRoundID f) && (1 <=? tf_Interval f) && (1 <=? tf_StartBaseBlock f) &&
  negb ((0 <? tf_EndBlock f) && (tf_EndBlock f <=? tf_StartBaseBlock f)).

Definition chain_validate (c : Chain) : bool := negb (bool_decide (ch_Name c = EmptyString)).
Definition token_validate (t : Token) : bool :=
  negb (bool_decide (tk_Name t = EmptyString) || (tk_ChainID t <? 1)).
Definition source_validate (s : Source) : bool := negb (bool_decide (sc_Name s = EmptyString)).
Definition rule_validate (r : RuleSource) : bool :=
  negb (bool_decide (ru_SourceIDs r = []) &&
        match ru_Nom r with None => true | Some nom => bool_decide (nom_SourceIDs nom = []) end) &&
  match ru_Nom r with None => true | Some nom => nom_Minimum nom <=? len (nom_SourceIDs nom) end.

(** A feeder against the last one of its token; [EndBlock] is not in the window of a round. *)
Definition feeder_validate (p : Params) (prev : option TokenFeeder) (f : TokenFeeder) : bool :=
  tf_validate f &&
  negb ((0 <? tf_EndBlock f) && ((tf_EndBlock f - tf_StartBaseBlock f) mod tf_Interval f <? pa_MaxNonce p)) &&
  (2 * pa_MaxNonce p <=? tf_Interval f) && (tf_TokenID f <? len (pa_Tokens p)) &&
  (tf_RuleID f <? len (pa_Rules p)) &&
  match prev with
  | None => true
  | Some prev =>
      negb (tf_EndBlock prev =? 0) && (tf_EndBlock prev <? tf_StartBaseBlock f) &&
      (tf_StartRoundID f =? wrap_uint64 (tf_StartRoundID prev +
        (tf_EndBlock prev - tf_StartBaseBlock prev) / tf_Interval prev + 1))
  end.

Fixpoint feeders_validate (p : Params) (seen : gmap Z TokenFeeder) (feeders : list TokenFeeder) : bool :=
  match feeders with
  | [] => true
  | f :: feeders =>
      feeder_validate p (seen !! tf_TokenID f) f && feeders_validate p (<[tf_TokenID f := f]> seen) feeders
  end.

Definition slashing_validate (s : SlashingParams) : bool :=
  (1 <=? sl_ReportedRoundsWindow s) &&
  (0 <? sl_MinReportedPerWindow s) && (sl_MinReportedPerWindow s <=? 10 ^ 18) &&
  (0 <? sl_SlashFractionMalicious s) && (sl_SlashFractionMalicious s <=? 10 ^ 18) &&
  (0 <? sl_OracleMissJailDuration s) && (0 <? sl_OracleMaliciousJailDuration s).

(** The identifiers of sources are compared with the number of rules. *)
Definition rule_sources_validate (p : Params) (r : RuleSource) : bool :=
  forallb (λ id, id <? len (pa_Rules p)) (ru_SourceIDs r) &&
  match ru_Nom r with
  | None => true
  | Some nom => forallb (λ id, (1 <=? id) && (id <? len (pa_Rules p))) (nom_SourceIDs nom)
  end.

Definition Validate (p : Params) : bool :=
  (1 <=? pa_MaxNonce p) && (1 <=? pa_MaxDetId p) && (1 <=? pa_ThresholdA p) &&
  (pa_ThresholdA p <=? pa_ThresholdB p) && bool_decide (pa_Mode p = ConsensusModeASAP) &&
  (1 <=? pa_MaxSizePrices p) &&
  match pa_Slashing p with None => false | Some s => slashing_validate s end &&
  feeders_validate p ∅ (tail (pa_TokenFeeders p)) &&
  forallb chain_validate (tail (pa_Chains p)) &&
  forallb (λ t, token_validate t && (tk_ChainID t <? len (pa_Chains p))) (tail (pa_Tokens p)) &&
  forallb (λ r, rule_validate r && rule_sources_validate p r) (tail (pa_Rules p)) &&
  forallb source_validate (tail (pa_Sources p)).

(** ** Rules *)

Definition IsRule2PhasesByRule (p : Params) (rule : RuleSource) : bool :=
  match ru_SourceIDs rule, ru_Nom rule with
  | [0], Some {| nom_SourceIDs := [sID]; nom_Minimum := minimum |} =>
      if sID =? 0 then false
      else match at_id (pa_Sources p) sID with
           | Some s => sc_Deterministic s && (minimum =? 1)
           | None => false
           end
  | _, _ => false
  end.

(** The rule of a feeder, when it has one. *)
Definition feeder_rule (p : Params) (feederID : Z) : option RuleSource :=
  tf ← at_id (pa_TokenFeeders p) feederID;
  if tf_RuleID tf =? 0 then None else at_id (pa_Rules p) (tf_RuleID tf).

Definition IsRule2PhasesByFeederID (p : Params) (feederID : Z) : bool :=
  match feeder_rule p feederID with Some rule => IsRule2PhasesByRule p rule | None => false end.

(** One deterministic source, at once or in two phases. *)
Definition IsRuleV1 (p : Params) (feederID : Z) : bool :=
  match feeder_rule p feederID with
  | None => false
  | Some rule =>
      match ru_SourceIDs rule with
      | [sID] =>
          if 0 <? sID then
            match at_id (pa_Sources p) sID with
            | None => false
            | Some s => sc_Deterministic s || IsRule2PhasesByRule p rule
            end
          else IsRule2PhasesByRule p rule
      | _ => IsRule2PhasesByRule p rule
      end
  end.

Definition IsForceSealingUpdate (p params : Params) : bool :=
  negb ((pa_MaxNonce p =? pa_MaxNonce params) && (pa_MaxDetId p =? pa_MaxDetId params) &&
        (pa_ThresholdA p =? pa_ThresholdA params) && (pa_ThresholdB p =? pa_ThresholdB params) &&
        bool_decide (pa_Mode p = pa_Mode params)).

(** ** Caches *)

Record cacheValidator := { cv_validators : gmap string Z; cv_update : bool; cv_totalPower : Z }.

Record caches := { cs_validators : cacheValidator; cs_params : Params; cs_paramsUpdate : bool }.

(** One validator with its new power; a power below one removes it. *)
Definition cv_add1 (operator : string) (newPower : Z) (cv : cacheValidator) : cacheValidator :=
  let found := cv_validators cv !! operator in
  let power := default 0 found in
  if power =? newPower then cv
  else
    let total := match found with Some _ => cv_totalPower cv - power | None => cv_totalPower cv end in
    if newPower <? 1 then
      {| cv_validators := delete operator (cv_validators cv); cv_update := true; cv_totalPower := total |}
    else
      {| cv_validators := <[operator := newPower]> (cv_validators cv); cv_update := true;
         cv_totalPower := total + newPower |}.

(** The keys are distinct, so the order of the map does not matter. *)
Definition cv_add (validators : gmap string Z) (cv : cacheValidator) : cacheValidator :=
  map_fold cv_add1 cv validators.

Definition newCacheValidator : cacheValidator := {| cv_validators := ∅; cv_update := false; cv_totalPower := 0 |}.

Definition Init (params : Params) (validators : gmap string Z) : caches := {|
  cs_validators := cv_add validators newCacheValidator; cs_params := params; cs_paramsUpdate := true |}.

Definition GetPowerForValidator (c : caches) (validator : string) : option Z :=
  cv_validators (cs_validators c) !! validator.

(** [GetValidators] returns the validators in order. *)
Definition GetValidators (c : caches) : list string :=
  merge_sort String.le (elements (dom (cv_validators (cs_validators c)))).

Definition IsDeterministic (c : caches) (sourceID : Z) : M Mem oracle_error bool :=
  if (len (pa_Sources (cs_params c)) <=? sourceID) || (sourceID <=? 0) then fail ErrInvalidSource
  else match at_id (pa_Sources (cs_params c)) sourceID with
       | Some s => mret (sc_Deterministic s)
       | None => fail ErrInvalidSource
       end.

(** The identifier may be the number of feeders, an index out of range. *)
Definition GetDecimalFromFeederID (c : caches) (feederID : Z) : result oracle_error Z :=
  let p := cs_params c in
  if (feederID <=? 0) || (len (pa_TokenFeeders p) <? feederID) then Err ErrFeederNotFound
  else match tf ← at_id (pa_TokenFeeders p) feederID; at_id (pa_Tokens p) (tf_TokenID tf) with
       | Some token => Ok (tk_Decimal token)
       | None => Panic
       end.

Definition GetThreshold (c : caches) : threshold := {|
  th_totalPower := cv_totalPower (cs_validators c);
  th_thresholdA := pa_ThresholdA (cs_params c); th_thresholdB := pa_ThresholdB (cs_params c) |}.

(** ** The total is the sum of the powers *)

Record cv_ok (cv : cacheValidator) : Prop := {
  co_total : cv_totalPower cv = map_sum (λ _ p, p) (cv_validators cv);
  co_positive : map_Forall (λ _ p, 1 ≤ p) (cv_validators cv);
}.

Lemma cv_add1_ok operator newPower cv : cv_ok cv → cv_ok (cv_add1 operator newPower cv).
Proof.
  intros [Ht Hp]. unfold cv_add1. case_match; [done|]. rewrite Ht. case_match eqn:Hlow; split; cbn.
  - rewrite map_sum_delete. unfold at_key. destruct (cv_validators cv !! operator); cbn; lia.
  - by apply map_Forall_delete.
  - rewrite map_sum_insert. unfold at_key. destruct (cv_validators cv !! operator); cbn; lia.
  - apply map_Forall_insert_2; [|done]. apply Z.ltb_ge in Hlow. lia.
Qed.

Lemma cv_add_ok validators cv : cv_ok cv → cv_ok (cv_add validators cv).
Proof.
  intros Hok. unfold cv_add. rewrite map_fold_foldr. generalize (map_to_list validators). intros l.
  induction l as [|[o p] l IH]; [done|]. cbn. by apply cv_add1_ok.
Qed.

Lemma newCacheValidator_ok : cv_ok newCacheValidator.
Proof. split; [done|apply map_Forall_empty]. Qed.
