(* ===== verification/OracleRound.v ===== *)
(** * Rounds (keeper/feedermanagement/round.go)

    A round of a feeder has an aggregator while its quoting window is open.  The round
    reads the caches, which are an argument of the operations.  The second phase of a
    feeder in two phases, with its Merkle tree, is not modelled. *)

From S2P Require Import Prelude OracleAlgo OracleAggregator OracleParams.

Definition SourceChainlinkID : Z := 1.

(** [types.PriceSource] and [types.MsgItem] *)
Record PriceSource := { src_SourceID : Z; src_Prices : list PriceInfo; src_Desc : string }.
Record ProtoMsgItem := { pm_FeederID : Z; pm_PSources : list PriceSource; pm_Validator : string }.

Inductive roundStatus := roundStatusClosed | roundStatusOpen | roundStatusCommittable.
#[global] Instance roundStatus_eq_dec : EqDecision roundStatus.
Proof. solve_decision. Defined.

Record round := {
  r_startBaseBlock : Z;
  r_startRoundID : Z;
  r_endBlock : Z;
  r_interval : Z;
  r_quoteWindowSize : Z;
  r_feederID : Z;
  r_tokenID : Z;
  r_roundBaseBlock : Z;
  r_roundPhaseTwoCheckingBlock : Z;
  r_roundID : Z;
  r_status : roundStatus;
  r_a : option aggregator;
  r_twoPhases : bool;
}.

Definition newRound (feederID : Z) (tokenFeeder : TokenFeeder) (quoteWindowSize : Z) (twoPhases : bool) : round := {|
  r_startBaseBlock := wrap_int64 (tf_StartBaseBlock tokenFeeder);
  r_startRoundID := wrap_int64 (tf_StartRoundID tokenFeeder);
  r_endBlock := wrap_int64 (tf_EndBlock tokenFeeder);
  r_interval := wrap_int64 (tf_Interval tokenFeeder);
  r_quoteWindowSize := quoteWindowSize;
  r_feederID := feederID;
  r_tokenID := wrap_int64 (tf_TokenID tokenFeeder);
  r_roundBaseBlock := 0; r_roundPhaseTwoCheckingBlock := 0; r_roundID := 0;
  r_status := roundStatusClosed; r_a := None; r_twoPhases := twoPhases |}.

(** ** Updates of a round *)

Definition set_window (status : roundStatus) (a : option aggregator) (r : round) : round := {|
  r_startBaseBlock := r_startBaseBlock r; r_startRoundID := r_startRoundID r; r_endBlock := r_endBlock r;
  r_interval := r_interval r; r_quoteWindowSize := r_quoteWindowSize r; r_feederID := r_feederID r;
  r_tokenID := r_tokenID r; r_roundBaseBlock := r_roundBaseBlock r;
  r_roundPhaseTwoCheckingBlock := r_roundPhaseTwoCheckingBlock r; r_roundID := r_roundID r;
  r_status := status; r_a := a; r_twoPhases := r_twoPhases r |}.

Definition set_position (baseBlock roundID : Z) (r : round) : round := {|
  r_startBaseBlock := r_startBaseBlock r; r_startRoundID := r_startRoundID r; r_endBlock := r_endBlock r;
  r_interval := r_interval r; r_quoteWindowSize := r_quoteWindowSize r; r_feederID := r_feederID r;
  r_tokenID := r_tokenID r; r_roundBaseBlock := baseBlock;
  r_roundPhaseTwoCheckingBlock := if r_twoPhases r then wrap_uint64 (baseBlock + 2 * r_quoteWindowSize r)
                                  else r_roundPhaseTwoCheckingBlock r;
  r_roundID := roundID; r_status := r_status r; r_a := r_a r; r_twoPhases := r_twoPhases r |}.

Definition round_UpdateParams (tokenFeeder : TokenFeeder) (quoteWindowSize : Z) (r : round) : round := {|
  r_startBaseBlock := wrap_int64 (tf_StartBaseBlock tokenFeeder); r_startRoundID := r_startRoundID r;
  r_endBlock := wrap_int64 (tf_EndBlock tokenFeeder); r_interval := wrap_int64 (tf_Interval tokenFeeder);
  r_quoteWindowSize := quoteWindowSize; r_feederID := r_feederID r; r_tokenID := r_tokenID r;
  r_roundBaseBlock := r_roundBaseBlock r; r_roundPhaseTwoCheckingBlock := r_roundPhaseTwoCheckingBlock r;
  r_roundID := r_roundID r; r_status := r_status r; r_a := r_a r; r_twoPhases := r_twoPhases r |}.

Definition openQuotingWindow (c : caches) (r : round) : round :=
  set_window roundStatusOpen (Some (newAggregator (GetThreshold c))) r.
Definition closeQuotingWindow (r : round) : round := set_window roundStatusClosed None r.

Definition IsQuotingWindowOpen (r : round) : bool := match r_a r with Some _ => true | None => false end.
Definition IsQuoting (r : round) : bool := bool_decide (r_status r = roundStatusOpen).
Definition Committable (r : round) : bool := bool_decide (r_status r = roundStatusCommittable).

(** ** Positions *)

Record position := { po_baseBlock : Z; po_roundID : Z; po_delta : Z; po_expired : bool }.

Definition getPosition (currentHeight : Z) (r : round) : position :=
  if (0 <? r_endBlock r) && (r_endBlock r <? currentHeight) then
    {| po_baseBlock := 0; po_roundID := 0; po_delta := 0; po_expired := true |}
  else if currentHeight <? r_startBaseBlock r then
    {| po_baseBlock := 0; po_roundID := 0; po_delta := 0; po_expired := false |}
  else
    let delta := wrap_int64 (currentHeight - r_startBaseBlock r) in
    if r_interval r =? 0 then {| po_baseBlock := 0; po_roundID := 0; po_delta := delta; po_expired := false |}
    else
      let rounds := wrap_int64 (Z.quot delta (r_interval r)) in
      let delta' := wrap_int64 (delta - rounds * r_interval r) in
      {| po_baseBlock := wrap_int64 (currentHeight - delta');
         po_roundID := wrap_int64 (r_startRoundID r + rounds); po_delta := delta'; po_expired := false |}.

Definition IsQuotingWindowEnd (height : Z) (r : round) : bool :=
  po_delta (getPosition height r) =? r_quoteWindowSize r.

Definition IsRoundEnd (height : Z) (r : round) : bool :=
  height =? wrap_int64 (po_baseBlock (getPosition height r) + r_interval r).

Definition baseBlockFromRoundID (roundID : Z) (r : round) : option Z :=
  if roundID <? wrap_uint64 (r_startRoundID r) then None
  else
    let ret := wrap_uint64 ((roundID - wrap_uint64 (r_startRoundID r)) * wrap_uint64 (r_interval r) +
                            wrap_uint64 (r_startBaseBlock r)) in
    if (0 <? r_endBlock r) && (wrap_uint64 (r_endBlock r) <? ret) then None else Some ret.

(** Whether the window opens, and the round for the next block. *)
Definition PrepareForNextBlock (c : caches) (currentHeight : Z) (r : round) : bool * round :=
  if (currentHeight <? r_roundBaseBlock r) && IsQuoting r then (false, closeQuotingWindow r)
  else if (currentHeight =? r_roundBaseBlock r) && negb (IsQuoting r) then (true, openQuotingWindow c r)
  else
    let pos := getPosition currentHeight r in
    if po_expired pos && IsQuoting r then (false, closeQuotingWindow r)
    else if r_roundBaseBlock r <? po_baseBlock pos then
      let r := set_position (po_baseBlock pos) (po_roundID pos) r in
      if (po_delta pos =? 0) && negb (IsQuoting r) then (true, openQuotingWindow c r) else (false, r)
    else (false, r).

Definition ValidQuotingBaseBlock (height : Z) (notTwoPhase : bool) (r : round) : bool :=
  if notTwoPhase then IsQuotingWindowOpen r && (r_roundBaseBlock r =? height) else r_roundBaseBlock r =? height.

(** ** Messages *)

Definition getPriceSourceFromProto (c : caches) (ps : PriceSource) : M Mem oracle_error priceSource :=
  deterministic ← IsDeterministic c (wrap_int64 (src_SourceID ps));
  mret {| ps_deterministic := deterministic; ps_finalPrice := None; ps_sourceID := wrap_int64 (src_SourceID ps);
          ps_detIDs := ∅; ps_prices := src_Prices ps |}.

Fixpoint sources_from_proto (c : caches) (pSs : list PriceSource) : M Mem oracle_error (list priceSource) :=
  match pSs with
  | [] => mret []
  | ps :: pSs => psNew ← getPriceSourceFromProto c ps; rest ← sources_from_proto c pSs; mret (psNew :: rest)
  end.

Definition getMsgItemFromProto (c : caches) (msg : ProtoMsgItem) : M Mem oracle_error MsgItem :=
  match GetPowerForValidator c (pm_Validator msg) with
  | None => fail ErrNoPower
  | Some power =>
      priceSources ← sources_from_proto c (pm_PSources msg);
      mret {| mi_FeederID := wrap_int64 (pm_FeederID msg); mi_Validator := pm_Validator msg; mi_Power := power;
              mi_PriceSources := priceSources |}
  end.

(** A quote for a round that has its price is only recorded. *)
Inductive tally := Tallied (finalPrice : option loc) | QuoteRecorded.

Section Range.
Context (range : gmap string priceValidator → list (string * priceValidator)).

Definition FinalPrice (r : round) : M Mem oracle_error (option loc * round) :=
  match r_a r with
  | None => mret (None, r)
  | Some a => f ← GetFinalPrice range a; mret (f.1, set_window (r_status r) (Some f.2) r)
  end.

(** The aggregator of a round that has none is a nil pointer. *)
Definition getFinalDetIDForSourceID (sourceID : Z) (r : round) : M Mem oracle_error (string * round) :=
  match r_a r with
  | None => panic
  | Some a => d ← GetFinalDetIDForSourceID sourceID a; mret (d.1, set_window (r_status r) (Some d.2) r)
  end.

Definition Tally (c : caches) (protoMsg : ProtoMsgItem) (r : round) : M Mem oracle_error (tally * round) :=
  match r_a r with
  | None => fail ErrWindowNotOpen
  | Some a =>
      msg ← getMsgItemFromProto c protoMsg;
      if negb (IsQuoting r) then
        a ← RecordMsg msg a;
        mret (QuoteRecorded, set_window (r_status r) (Some a) r)
      else
        a ← AddMsg msg a;
        f ← FinalPrice (set_window (r_status r) (Some a) r);
        match f.1 with
        | None => mret (Tallied None, f.2)
        | Some l =>
            let r := set_window roundStatusCommittable (r_a f.2) f.2 in
            if IsRuleV1 (cs_params c) (r_feederID r) then
              d ← getFinalDetIDForSourceID SourceChainlinkID r;
              finalPrice ← load l;
              _ ← write l (set_DetID d.1 finalPrice);
              mret (Tallied (Some l), d.2)
            else mret (Tallied (Some l), r)
        end
  end.

(** The quotes of a validator against the final price. *)
Fixpoint review_prices (price : PriceInfo) (prices : list PriceInfo) : bool * bool :=
  match prices with
  | [] => (true, false)
  | p :: prices =>
      if EqualDS p price then (false, false)
      else if bool_decide (p_DetID p = p_DetID price) then (false, true)
      else review_prices price prices
  end.

(** Whether the validator missed the round, and whether it is malicious. *)
Definition PerformanceReview (c : caches) (validator : string) (r : round) : M Mem oracle_error (bool * bool * round) :=
  f ← FinalPrice r;
  match f.1 with
  | None => mret (false, false, f.2)
  | Some l =>
      if negb (IsRuleV1 (cs_params c) (r_feederID r)) then mret (false, false, f.2)
      else
        d ← getFinalDetIDForSourceID SourceChainlinkID f.2;
        finalPrice ← load l;
        let price := set_DetID d.1 finalPrice in
        let quotes := a ← r_a d.2; GetValidatorQuotePricesForSourceID validator SourceChainlinkID (ag_v a) in
        match quotes with
        | None => mret (true, false, d.2)
        | Some prices => mret (review_prices price prices, d.2)
        end
  end.
End Range.

(** ** Rounds of a feeder *)

Record feeder_ok (r : round) : Prop := {
  fo_start : 0 ≤ r_startBaseBlock r;
  fo_interval : 1 ≤ r_interval r < 2 ^ 63;
  fo_round : 0 ≤ r_startRoundID r < 2 ^ 62;
  fo_end : 0 ≤ r_endBlock r < 2 ^ 63;
}.

(** The height is in the round of its position, and the round starts at its base block. *)
Lemma position_roundtrip height r :
  feeder_ok r → r_startBaseBlock r ≤ height < 2 ^ 62 → r_endBlock r = 0 ∨ height ≤ r_endBlock r →
  let pos := getPosition height r in
  po_expired pos = false ∧ po_baseBlock pos ≤ height < po_baseBlock pos + r_interval r ∧
  po_delta pos = height - po_baseBlock pos ∧ baseBlockFromRoundID (po_roundID pos) r = Some (po_baseBlock pos).
Proof.
  intros [Hs Hi Hr He] Hh Hend. unfold getPosition.
  assert ((0 <? r_endBlock r) && (r_endBlock r <? height) = false) as -> by lia.
  assert ((height <? r_startBaseBlock r) = false) as -> by lia. assert ((r_interval r =? 0) = false) as -> by lia.
  set (delta := height - r_startBaseBlock r). rewrite (wrap_int64_id delta) by lia. rewrite Z.quot_div_nonneg by lia.
  pose proof (Z.div_mod delta (r_interval r) ltac:(lia)) as Hdm.
  pose proof (Z.mod_pos_bound delta (r_interval r) ltac:(lia)) as Hmod.
  pose proof (Z.div_pos delta (r_interval r) ltac:(lia) ltac:(lia)) as Hq0.
  assert (Hq : delta / r_interval r ≤ delta) by (apply Z.div_le_upper_bound; nia).
  rewrite (wrap_int64_id (delta / r_interval r)) by lia.
  replace (delta - delta / r_interval r * r_interval r) with (delta mod r_interval r) by lia.
  rewrite (wrap_int64_id (delta mod r_interval r)) by lia. cbn [po_expired po_baseBlock po_delta po_roundID].
  assert (delta mod r_interval r ≤ delta) by (apply Z.mod_le; lia).
  rewrite (wrap_int64_id (height - _)), (wrap_int64_id (r_startRoundID r + _)) by lia.
  split; [done|]. split; [lia|]. split; [lia|]. unfold baseBlockFromRoundID.
  rewrite (wrap_uint64_id (r_startRoundID r)), (wrap_uint64_id (r_interval r)), (wrap_uint64_id (r_startBaseBlock r)) by lia.
  assert ((r_startRoundID r + delta / r_interval r <? r_startRoundID r) = false) as -> by lia.
  replace ((r_startRoundID r + delta / r_interval r - r_startRoundID r) * r_interval r + r_startBaseBlock r)
    with (height - delta mod r_interval r) by lia.
  rewrite (wrap_uint64_id (height - _)), (wrap_uint64_id (r_endBlock r)) by lia.
  assert ((0 <? r_endBlock r) && (r_endBlock r <? height - delta mod r_interval r) = false) as -> by lia. done.
Qed.
