(* ===== verification/OracleWindow.v ===== *)
(** * The quoting window of a round with one source

    The states of a round while its window is open, of a feeder that follows the rule in
    use.  The window is quoting, or it ended without a price, or it has a price that a
    quorum quoted; the price is there as soon as there is a quorum.  A validator is
    reported as malicious exactly when it quoted another price than the final one under
    the detID of the final one. *)

From S2P Require Import Prelude OracleAlgo OracleAggregator OracleV1 OracleParams OracleRound.

Section Window.
Context (pw : string → Z) (s : Z) (t : threshold).
Context (pw_nonneg : ∀ v, 0 ≤ pw v).
Context (t_nonneg : 0 ≤ th_thresholdA t ∧ 0 ≤ th_thresholdB t ∧ 0 ≤ th_totalPower t).

#[local] Abbreviation inv := (inv pw s t).
#[local] Abbreviation base := (base pw s t).
#[local] Abbreviation rds_of := (rds_of s).
#[local] Abbreviation quoted := (quoted s).
#[local] Abbreviation quorum := (quorum pw t).
#[local] Abbreviation msg_ok := (msg_ok pw s).

Record unsettled (m : Mem) (a : aggregator) : Prop := {
  u_base : base (m_heap m) a;
  u_final : ag_finalPrice a = None;
  u_prices : no_prices (ag_v a);
  u_source : rd_finalPrice (rds_of a) = None;
}.

(** The round has the price [c] at [l] because of the quotes with the key [k]. *)
Record settled (m : Mem) (a : aggregator) (k : string * string * Z) (l : nat) (c : PriceResult) : Prop := {
  st_base : base (m_heap m) a;
  st_final : ag_finalPrice a = Some l;
  st_price : m_heap m !! l = Some c;
  st_value : p_Price c = canonical k.1.1 ∧ p_Decimal c = k.2;
  st_source : ∃ l0, rd_finalPrice (rds_of a) = Some l0 ∧ l ≠ l0;
  st_detID : rd_finalDetID (rds_of a) = k.1.2;
  st_quorum : quorum (λ v, quoted (ag_v a) v k);
}.

Lemma base_heap h h' a : h `prefix_of` h' → base h a → base h' a.
Proof.
  intros Hpre [Ht Hdom Hwf Hrec Hpow Hnone Hsome]. split; try done; [by eapply records_heap|].
  intros l Hl. destruct (Hsome l Hl) as (p & ? & ?). exists p. split; [by eapply prefix_lookup_Some|done].
Qed.

Lemma unsettled_heap m m' a : m_heap m `prefix_of` m_heap m' → unsettled m a → unsettled m' a.
Proof. intros Hpre [? ? ? ?]. split; [by eapply base_heap|done..]. Qed.

Lemma settled_heap m m' a k l c : m_heap m `prefix_of` m_heap m' → settled m a k l c → settled m' a k l c.
Proof. intros Hpre [? ? ? ? ? ? ?]. split; [by eapply base_heap|done|by eapply prefix_lookup_Some|done..]. Qed.

(** ** From the invariant *)

Lemma inv_unsettled m a : inv m a → rd_finalPrice (rds_of a) = None → unsettled m a.
Proof.
  intros [Hb _ _ Hph] Hl. unfold phase in Hph. destruct (ag_finalPrice a) as [l|] eqn:Hf; [|by split].
  destruct Hph as (l0 & ? & ? & Hl0 & _). congruence.
Qed.

Lemma inv_settled m a l : inv m a → ag_finalPrice a = Some l → ∃ k c, settled m a k l c.
Proof.
  intros [Hb _ Hc Hph] Hf. unfold phase in Hph. rewrite Hf in Hph.
  destruct Hph as (l0 & p & c & Hl0 & Hp & Hcl & [Hv Hd] & Hne). exists (ds_key p), c.
  destruct (b_some _ _ _ _ _ Hb l0 Hl0) as (p' & Hp' & He & Hid).
  assert (p' = p) as -> by (apply Some_inj; etrans; [symmetry; exact Hp'|exact Hp]).
  split; [done|done|done|done|by exists l0|done|].
  apply (exceeding_quorum pw t pw_nonneg t_nonneg _ _ (b_wf _ _ _ _ _ Hb)) in He. eapply quorum_mono; [|exact He]. intros v. apply Hc.
Qed.

(** No price was quoted by a quorum while there is none. *)
Lemma inv_no_quorum m a k : inv m a → rd_finalPrice (rds_of a) = None → ¬ quorum (λ v, quoted (ag_v a) v k).
Proof.
  intros [Hb _ Hc _] Hl Hq. destruct (b_none _ _ _ _ _ Hb Hl) as [Hno _]. apply (Hno k).
  apply (exceeding_quorum pw t pw_nonneg t_nonneg _ _ (b_wf _ _ _ _ _ Hb)). eapply quorum_mono; [|exact Hq]. intros v. apply Hc.
Qed.

(** ** Reading the price *)

Definition permutes (range : gmap string priceValidator → list (string * priceValidator)) : Prop :=
  ∀ records, range records ≡ₚ map_to_list records.

Lemma unsettled_price range m a :
  permutes range → unsettled m a → ∃ algo,
    GetFinalPrice range a m = (Ok (None, a), {| m_heap := m_heap m; m_algo := algo |}).
Proof.
  intros Hperm [Hb Hf Hnp Hl]. unfold GetFinalPrice. rewrite Hf.
  destruct (exceedsThreshold a) eqn:Hex; cbn [negb]; [|exists (m_algo m); by destruct m].
  exists NewAggMedian. erewrite bind_run; [|apply (rv_GetFinalPrice_none s)]; [|done|done|by eapply exceeding_records|].
  - cbn. destruct a; cbn in *; by subst.
  - intros v pv Hpv. destruct (b_none _ _ _ _ _ Hb Hl) as [_ Hall].
    destruct (b_records _ _ _ _ _ Hb v pv Hpv) as (ps & Hps & _). exists ps. split; [done|].
    apply (Hall v pv Hpv). by rewrite Hps, lookup_singleton_eq.
Qed.

Lemma settled_price range m a k l c :
  settled m a k l c → GetFinalPrice range a m = (Ok (Some l, a), m).
Proof. intros Hs. unfold GetFinalPrice. by rewrite (st_final _ _ _ _ _ Hs). Qed.

Lemma settled_final_detID m a k l c :
  settled m a k l c → GetFinalDetIDForSourceID s a m = (Ok (k.1.2, a), m).
Proof.
  intros [_ _ _ _ (l0 & Hl0 & _) Hid _]. unfold GetFinalDetIDForSourceID, OracleV1.rds_of in *.
  destruct (ag_dsMap a !! s) as [rds|] eqn:Hds; cbn in *; [|done].
  erewrite bind_run; [|unfold rds_GetFinalPrice; by rewrite Hl0]. cbn. rewrite Hid. unfold set_ds.
  rewrite insert_id by done. by destruct a.
Qed.

(** ** Recording after the end *)

Lemma RecordMsg_unsettled msg m a a' m' :
  unsettled m a → msg_ok msg → RecordMsg msg a m = (Ok a', m') → unsettled m' a'.
Proof.
  intros [Hb Hf Hnp Hl] Hmsg Hrun. unfold RecordMsg in Hrun. go_inv.
  match goal with H : rv_RecordMsg _ _ _ = (Ok ?r, _) |- _ => destruct r as [added rv'];
    apply (rv_RecordMsg_Ok pw s t pw_nonneg t_nonneg _ a) in H as (Hpre & _ & _ & Hb' & Hnp' & _) end; [|done..].
  split; [done|done|by apply Hnp'|done].
Qed.

Lemma RecordMsg_settled msg m a a' m' k l c :
  settled m a k l c → msg_ok msg → RecordMsg msg a m = (Ok a', m') → settled m' a' k l c.
Proof.
  intros [Hb Hf Hc Hv Hs Hid Hq] Hmsg Hrun. unfold RecordMsg in Hrun. go_inv.
  match goal with H : rv_RecordMsg _ _ _ = (Ok ?r, _) |- _ => destruct r as [added rv'];
    apply (rv_RecordMsg_Ok pw s t pw_nonneg t_nonneg _ a) in H as (Hpre & _ & _ & Hb' & _ & Hquoted) end; [|done..].
  split; [done|done|by eapply prefix_lookup_Some|done..|].
  eapply quorum_mono; [|exact Hq]. intros v Hv'. apply Hquoted. by left.
Qed.

Lemma RecordMsg_runs msg m a :
  base (m_heap m) a → msg_ok msg →
  (∃ a' m', RecordMsg msg a m = (Ok a', m')) ∨
  (∃ m', RecordMsg msg a m = (Err ErrNoSourceAdded, m') ∧ m_heap m `prefix_of` m_heap m').
Proof.
  intros Hb Hmsg. destruct (rv_RecordMsg_runs pw s t pw_nonneg t_nonneg msg m a Hb Hmsg)
    as [(added & rv' & m1 & Hrun)|(m1 & Hrun & Hpre)]; [left|right]; unfold RecordMsg.
  - rewrite (bind_run _ _ _ _ _ Hrun). by eexists _, _.
  - exists m1. unfold mbind, M_bind. by rewrite Hrun.
Qed.

(** The detID is written into the price. *)
Lemma settled_write m a k l c d :
  settled m a k l c →
  settled {| m_heap := <[l := set_DetID d c]> (m_heap m); m_algo := m_algo m |} a k l (set_DetID d c).
Proof.
  intros [[Ht Hdom Hwf Hrec Hpow Hnone Hsome] Hf Hc Hv (l0 & Hl0 & Hne) Hid Hq].
  assert (Hlt : (l < length (m_heap m))%nat) by by apply lookup_lt_Some in Hc.
  split; cbn; [|done|by apply list_lookup_insert_eq|done|by exists l0|done|done].
  split; try done.
  - intros v pv Hpv. destruct (Hrec v pv Hpv) as (ps & ? & ? & Hval). exists ps. split; [done|]. split; [done|].
    intros l1 Hl1. apply lookup_lt_is_Some. rewrite length_insert. by apply lookup_lt_is_Some, Hval.
  - intros l1 Hl1. destruct (Hsome l1 Hl1) as (p & Hp & ?). exists p. split; [|done].
    rewrite list_lookup_insert_ne; [done|]. congruence.
Qed.
End Window.

(** ** Rounds *)

Section Round.
Context (c : caches).
Context (c_validators : cv_ok (cs_validators c)).
Context (c_params : Validate (cs_params c) = true).
Context (chainlink : ∃ source, at_id (pa_Sources (cs_params c)) SourceChainlinkID = Some source ∧
  sc_Deterministic source = true).

Definition cache_power (v : string) : Z := default 0 (GetPowerForValidator c v).

#[local] Abbreviation s := SourceChainlinkID.
#[local] Abbreviation t := (GetThreshold c).

Lemma cache_power_nonneg v : 0 ≤ cache_power v.
Proof.
  unfold cache_power, GetPowerForValidator. destruct (cv_validators (cs_validators c) !! v) as [p|] eqn:Hp; cbn; [|done].
  apply (co_positive _ c_validators) in Hp. cbn in Hp. lia.
Qed.

Lemma threshold_nonneg : 0 ≤ th_thresholdA t ∧ 0 ≤ th_thresholdB t ∧ 0 ≤ th_totalPower t.
Proof.
  unfold Validate in c_params. repeat (apply andb_true_iff in c_params as [c_params ?]).
  repeat match goal with H : (_ <=? _) = true |- _ => apply Z.leb_le in H end. cbn. split; [lia|]. split; [lia|].
  rewrite (co_total _ c_validators). apply map_sum_nonneg. intros v p Hp%(co_positive _ c_validators). lia.
Qed.
#[local] Hint Resolve cache_power_nonneg threshold_nonneg : core.

(** A quote of one source, with prices. *)
Definition quote_ok (msg : ProtoMsgItem) : Prop :=
  Forall (λ ps, src_SourceID ps = s ∧ Forall (λ p, p_Price p ≠ EmptyString) (src_Prices ps)) (pm_PSources msg).

Lemma sources_from_proto_runs pSs m :
  Forall (λ ps, src_SourceID ps = s ∧ Forall (λ p, p_Price p ≠ EmptyString) (src_Prices ps)) pSs →
  ∃ l, sources_from_proto c pSs m = (Ok l, m) ∧ Forall (new_ok s) l.
Proof.
  destruct chainlink as (source & Hs & Hdet). induction 1 as [|ps pSs [Hid Hps] _ (l & Hl & Hnew)].
  { exists []. by split; [|constructor]. }
  assert (Hrun : ∃ psNew, getPriceSourceFromProto c ps m = (Ok psNew, m) ∧ new_ok s psNew).
  { unfold getPriceSourceFromProto, IsDeterministic. rewrite Hid. change (wrap_int64 s) with s. rewrite Hs, Hdet.
    assert ((len (pa_Sources (cs_params c)) <=? s) = false) as ->; [|cbn; eexists; by repeat split].
    apply Z.leb_gt. unfold len, at_id in *. apply lookup_lt_Some in Hs. unfold SourceChainlinkID in *. lia. }
  destruct Hrun as (psNew & Hrun & Hok). exists (psNew :: l). split; [|by constructor]. cbn [sources_from_proto].
  by rewrite (bind_run _ _ _ _ _ Hrun), (bind_run _ _ _ _ _ Hl).
Qed.

Lemma getMsgItemFromProto_runs msg m :
  quote_ok msg → is_Some (GetPowerForValidator c (pm_Validator msg)) →
  ∃ item, getMsgItemFromProto c msg m = (Ok item, m) ∧ msg_ok cache_power s item ∧
    mi_Validator item = pm_Validator msg.
Proof.
  intros Hq [power Hp]. unfold getMsgItemFromProto. rewrite Hp.
  destruct (sources_from_proto_runs (pm_PSources msg) m Hq) as (l & Hl & Hnew). rewrite (bind_run _ _ _ _ _ Hl).
  eexists. split; [done|]. split; [|done]. split; [|done]. unfold cache_power. cbn [mi_Power mi_Validator]. by rewrite Hp.
Qed.

Definition agg_state (m : Mem) (quoting : bool) (a : aggregator) : Prop :=
  if quoting then inv cache_power s t m a ∧ rd_finalPrice (rds_of s a) = None
  else unsettled cache_power s t m a ∨ ∃ k l p, settled cache_power s t m a k l p ∧ p_DetID p = k.1.2.

Definition wstate (m : Mem) (r : round) : Prop :=
  IsRuleV1 (cs_params c) (r_feederID r) = true ∧ ∀ a, r_a r = Some a → agg_state m (IsQuoting r) a.

Lemma agg_state_base m q a : agg_state m q a → base cache_power s t (m_heap m) a.
Proof. unfold agg_state. destruct q; [intros [Hi _]; apply Hi|intros [Hu|(? & ? & ? & Hs & _)]; [apply Hu|apply Hs]]. Qed.

Lemma agg_state_heap m m' q a : m_heap m `prefix_of` m_heap m' → agg_state m q a → agg_state m' q a.
Proof.
  intros Hpre. unfold agg_state. destruct q.
  - intros [? ?]. split; [by eapply inv_heap|done].
  - intros [?|(k & l & p & ? & ?)]; [left; by eapply unsettled_heap|].
    right. exists k, l, p. split; [by eapply settled_heap|done].
Qed.

Lemma wstate_set m r st a :
  IsRuleV1 (cs_params c) (r_feederID r) = true → agg_state m (bool_decide (st = roundStatusOpen)) a →
  wstate m (set_window st (Some a) r).
Proof. intros Hr Ha. split; [done|]. by intros ? [= <-]. Qed.

(** A quote while there is no price. *)
Lemma Tally_quoting range msg m r a :
  permutes range → wstate m r → IsQuoting r = true → r_a r = Some a → quote_ok msg →
  is_Some (GetPowerForValidator c (pm_Validator msg)) →
  (∃ m', Tally range c msg r m = (Err ErrNoSourceAdded, m') ∧ wstate m' r) ∨
  (∃ x r' a' m', Tally range c msg r m = (Ok (Tallied x, r'), m') ∧ r_a r' = Some a' ∧ wstate m' r' ∧
    match x with
    | None => IsQuoting r' = true
    | Some l => ∃ k p, settled cache_power s t m' a' k l p ∧ p_DetID p = k.1.2
    end).
Proof.
  intros Hperm [Hrule Hw] Hq Ha Hmsg Hknown. pose proof (Hw a Ha) as Hst. rewrite Hq in Hst. destruct Hst as [Hinv Hnone].
  destruct (getMsgItemFromProto_runs msg m Hmsg Hknown) as (item & Hitem & Hok & _).
  unfold Tally. rewrite Ha, (bind_run _ _ _ _ _ Hitem), Hq. cbn [negb].
  assert (Hopen : r_status r = roundStatusOpen) by by apply bool_decide_eq_true in Hq.
  destruct (AddMsg_runs cache_power s t) with item m a as [(a1 & m1 & Hadd & Hinv1)|(m1 & Hadd & Hinv1)]; [auto..|right|left].
  2:{ exists m1. split; [unfold mbind at 1, M_bind at 1; by rewrite Hadd|]. split; [done|].
      intros ? Ha'. rewrite Hq. assert (a0 = a) as -> by congruence. by split. }
  rewrite (bind_run _ _ _ _ _ Hadd).
  destruct (GetFinalPrice_inv cache_power s t) with range m1 a1 as (o & a2 & m2 & Hfin & Hinv2 & Hrds & -> & Hno); [auto..|].
  assert (Hf : FinalPrice range (set_window (r_status r) (Some a1) r) m1 =
    (Ok (ag_finalPrice a2, set_window (r_status r) (Some a2) r), m2)).
  { unfold FinalPrice. cbn [r_a set_window]. by rewrite (bind_run _ _ _ _ _ Hfin). }
  rewrite (bind_run _ _ _ _ _ Hf). cbn [fst snd]. destruct (ag_finalPrice a2) as [l|] eqn:Hl.
  - destruct (inv_settled cache_power s t) with m2 a2 l as (k & p & Hset); [auto..|].
    cbn [r_feederID set_window]. rewrite Hrule. unfold getFinalDetIDForSourceID. cbn [r_a set_window].
    rewrite (bind_run _ _ _ _ _ (bind_run _ _ _ _ _ (settled_final_detID _ _ _ _ _ _ _ _ Hset))).
    rewrite (bind_run _ _ _ _ _ (load_run _ _ _ (st_price _ _ _ _ _ _ _ _ Hset))).
    rewrite (bind_run _ _ _ _ _ (eq_refl : write l _ m2 = _)). cbn [fst snd].
    apply (settled_write _ _ _ _ _ _ _ _ k.1.2) in Hset.
    eexists _, _, a2, _. split; [done|]. split; [done|]. split; [|by exists k, (set_DetID k.1.2 p)].
    apply wstate_set; [done|]. right. by eexists _, _, _.
  - eexists _, _, a2, _. split; [done|]. split; [done|]. split; [|by rewrite Hopen].
    rewrite Hopen. apply wstate_set; [done|]. split; [done|]. rewrite Hrds. auto.
Qed.

(** A quote that comes later is only recorded. *)
Lemma Tally_recording range msg m r a :
  wstate m r → IsQuoting r = false → r_a r = Some a → quote_ok msg →
  is_Some (GetPowerForValidator c (pm_Validator msg)) →
  (∃ m', Tally range c msg r m = (Err ErrNoSourceAdded, m') ∧ wstate m' r) ∨
  (∃ r' m', Tally range c msg r m = (Ok (QuoteRecorded, r'), m') ∧ is_Some (r_a r') ∧ wstate m' r').
Proof.
  intros [Hrule Hw] Hq Ha Hmsg Hknown. pose proof (Hw a Ha) as Hst. rewrite Hq in Hst.
  destruct (getMsgItemFromProto_runs msg m Hmsg Hknown) as (item & Hitem & Hok & _).
  unfold Tally. rewrite Ha, (bind_run _ _ _ _ _ Hitem), Hq. cbn [negb].
  destruct (RecordMsg_runs cache_power s t) with item m a as [(a1 & m1 & Hrec)|(m1 & Hrec & Hpre)];
    [auto|auto|by eapply agg_state_base|done|right|left].
  - rewrite (bind_run _ _ _ _ _ Hrec). eexists _, _. split; [done|]. split; [by eexists|]. apply wstate_set; [done|].
    unfold IsQuoting in Hq. rewrite Hq. destruct Hst as [Hu|(k & l & p & Hs & Hd)]; [left|right; exists k, l, p].
    + by eapply RecordMsg_unsettled.
    + split; [by eapply RecordMsg_settled|done].
  - exists m1. split; [unfold mbind at 1, M_bind at 1; by rewrite Hrec|]. split; [done|].
    intros a' Ha'. rewrite Hq. assert (a' = a) as -> by congruence. by eapply (agg_state_heap m _ false).
Qed.

Lemma set_window_same r a : r_a r = Some a → set_window (r_status r) (Some a) r = r.
Proof. destruct r. cbn. by intros ->. Qed.

Lemma FinalPrice_runs range m r a :
  permutes range → wstate m r → r_a r = Some a →
  ∃ o m', FinalPrice range r m = (Ok (o, r), m') ∧ wstate m' r ∧
    match o with
    | None => ∃ algo, m' = {| m_heap := m_heap m; m_algo := algo |}
    | Some l => m' = m ∧ IsQuoting r = false ∧
        ∃ k p, settled cache_power s t m a k l p ∧ p_DetID p = k.1.2
    end.
Proof.
  intros Hperm [Hrule Hw] Ha. pose proof (Hw a Ha) as Hst. unfold FinalPrice. rewrite Ha.
  assert (Hu : unsettled cache_power s t m a ∨ IsQuoting r = false ∧
    ∃ k l p, settled cache_power s t m a k l p ∧ p_DetID p = k.1.2).
  { unfold agg_state in Hst. destruct (IsQuoting r); [left|destruct Hst as [?|?]; [by left|by right]].
    destruct Hst. by apply inv_unsettled. }
  destruct Hu as [Hu|(Hq & k & l & p & Hs & Hd)].
  - destruct (unsettled_price cache_power s t) with range m a as (algo & Hrun); [auto..|].
    rewrite (bind_run _ _ _ _ _ Hrun). cbn [fst snd]. rewrite (set_window_same r a Ha). eexists _, _. split; [done|].
    split; [|by exists algo]. split; [done|]. intros ? Ha'. eapply (agg_state_heap m); [done|by apply Hw].
  - rewrite (bind_run _ _ _ _ _ (settled_price _ _ _ _ _ _ _ _ _ Hs)). cbn [fst snd]. rewrite (set_window_same r a Ha).
    eexists _, _. split; [done|]. split; [by split|]. split; [done|]. split; [done|]. by exists k, p.
Qed.

Lemma review_prices_spec price prices :
  NoDup (p_DetID <$> prices) →
  let r := review_prices price prices in
  (r.1 = true ↔ p_DetID price ∉ (p_DetID <$> prices)) ∧
  (r.2 = true ↔ ∃ p, p ∈ prices ∧ p_DetID p = p_DetID price ∧ ds_key p ≠ ds_key price).
Proof.
  induction prices as [|p prices IH]; intros Hnd; cbn [review_prices].
  { cbn. split; [split; [intros _; apply not_elem_of_nil|done]|]. split; [done|]. intros (p & Hp & _). by apply elem_of_nil in Hp. }
  rewrite fmap_cons in Hnd. apply NoDup_cons in Hnd as [Hno Hnd]. destruct (IH Hnd) as [Hmiss Hmal]. clear IH.
  rewrite fmap_cons, not_elem_of_cons. destruct (EqualDS p price) eqn:Heq; [apply EqualDS_key in Heq|].
  - injection Heq as Hp Hd Hdec. cbn. split; [split; [done|by intros [? _]]|]. split; [done|].
    intros (p' & [->|Hp']%elem_of_cons & Hd' & Hk); [by destruct Hk; unfold ds_key; rewrite Hp, Hd, Hdec|].
    destruct Hno. rewrite Hd, <-Hd'. by apply list_elem_of_fmap_2.
  - assert (Hk : ds_key p ≠ ds_key price) by (intros Hk%EqualDS_key; congruence).
    case_bool_decide as Hd; cbn.
    + split; [split; [done|by intros [? _]]|]. split; [|done]. intros _. exists p. split; [by left|done].
    + rewrite Hmiss, Hmal. split; [split; [by intros ?; split|by intros [_ ?]]|]. split.
      * intros (p' & ? & ? & ?). exists p'. split; [by right|done].
      * intros (p' & [->|Hp']%elem_of_cons & ? & ?); [done|]. by exists p'.
Qed.

(** The verdict on the quotes of a validator. *)
Definition verdict (a : aggregator) (p : PriceResult) (v : string) (miss malicious : bool) : Prop :=
  (miss = true ↔ ¬ ∃ q, quoted s (ag_v a) v q ∧ q.1.2 = p_DetID p) ∧
  (malicious = true ↔ ∃ q, quoted s (ag_v a) v q ∧ q.1.2 = p_DetID p ∧ q ≠ ds_key p).

Lemma review_verdict h a p v :
  base cache_power s t h a →
  let quotes := GetValidatorQuotePricesForSourceID v s (ag_v a) in
  let r := match quotes with None => (true, false) | Some prices => review_prices p prices end in
  verdict a p v r.1 r.2.
Proof.
  intros Hb. unfold verdict, OracleV1.quoted. cbn zeta.
  destruct (GetValidatorQuotePricesForSourceID v s (ag_v a)) as [prices|] eqn:Hquotes.
  2:{ split; split; try done; [intros _ (q & (? & [=] & _) & _)|intros (q & (? & [=] & _) & _)]. }
  assert (Hnd : NoDup (p_DetID <$> prices)).
  { unfold GetValidatorQuotePricesForSourceID in Hquotes.
    destruct (rv_records (ag_v a) !! v) as [pv|] eqn:Hpv; [|done]. cbn in Hquotes.
    destruct (b_records _ _ _ _ _ Hb v pv Hpv) as (ps & Hps & [_ _ Hd] & _).
    rewrite Hps, lookup_singleton_eq in Hquotes. by injection Hquotes as <-. }
  destruct (review_prices_spec p prices Hnd) as [-> ->]. split; split.
  - intros Hno (q & (? & [= <-] & (p' & -> & Hp')%list_elem_of_fmap) & Hd). destruct Hno.
    apply list_elem_of_fmap. by exists p'.
  - intros Hno (p' & Hd & Hp')%list_elem_of_fmap. destruct Hno. exists (ds_key p'). split; [|done].
    exists prices. split; [done|]. by apply list_elem_of_fmap_2.
  - intros (p' & Hp' & Hd & Hk). exists (ds_key p'). split; [|done]. exists prices. split; [done|].
    by apply list_elem_of_fmap_2.
  - intros (q & (? & [= <-] & (p' & -> & Hp')%list_elem_of_fmap) & Hd & Hk). by exists p'.
Qed.

Lemma PerformanceReview_runs range m r a v :
  permutes range → wstate m r → r_a r = Some a →
  ∃ miss malicious m', PerformanceReview range c v r m = (Ok (miss, malicious, r), m') ∧ wstate m' r ∧
    match FinalPrice range r m with
    | (Ok (Some l, _), _) => ∃ p, m_heap m !! l = Some p ∧ verdict a p v miss malicious
    | _ => miss = false ∧ malicious = false
    end.
Proof.
  intros Hperm Hw Ha. destruct (FinalPrice_runs range m r a Hperm Hw Ha) as (o & m1 & Hf & Hw1 & Ho).
  unfold PerformanceReview. rewrite (bind_run _ _ _ _ _ Hf), Hf. cbn [fst snd].
  destruct o as [l|]; [|by eexists _, _, _]. destruct Ho as (-> & Hq & k & p & Hs & Hd).
  rewrite (proj1 Hw). cbn [negb]. unfold getFinalDetIDForSourceID. rewrite Ha.
  rewrite (bind_run _ _ _ _ _ (bind_run _ _ _ _ _ (settled_final_detID _ _ _ _ _ _ _ _ Hs))).
  cbn [fst snd]. rewrite (set_window_same r a Ha).
  pose proof (st_price _ _ _ _ _ _ _ _ Hs) as Hl. rewrite (bind_run _ _ _ _ _ (load_run _ _ _ Hl)), Ha. cbn [mbind option_bind].
  assert (set_DetID k.1.2 p = p) as -> by (rewrite <-Hd; by destruct p).
  pose proof (review_verdict (m_heap m) a p v (st_base _ _ _ _ _ _ _ _ Hs)) as Hv. cbn zeta in Hv.
  destruct (GetValidatorQuotePricesForSourceID v s (ag_v a)) as [prices|]; [destruct (review_prices p prices)|];
    (eexists _, _, _; split; [done|]; split; [done|]; exists p; split; [exact Hl|exact Hv]).
Qed.

(** ** The window *)

(** What happens to a round between the opening of its window and the end. *)
Inductive window : Mem → round → Prop :=
| w_open m r :
    IsRuleV1 (cs_params c) (r_feederID r) = true → window m (openQuotingWindow c r)
| w_quote range msg m r x r' m' :
    window m r → permutes range → quote_ok msg → Tally range c msg r m = (Ok (x, r'), m') → window m' r'
| w_refused range msg m r e m' :
    window m r → permutes range → quote_ok msg → Tally range c msg r m = (Err e, m') → window m' r
| w_seal m r :
    window m r → IsQuoting r = true → window m (set_window roundStatusCommittable (r_a r) r)
| w_commit m r :
    window m r → Committable r = true → window m (set_window roundStatusClosed (r_a r) r)
| w_price range m r o r' m' :
    window m r → permutes range → FinalPrice range r m = (Ok (o, r'), m') → window m' r'
| w_review range v m r miss malicious r' m' :
    window m r → permutes range → PerformanceReview range c v r m = (Ok (miss, malicious, r'), m') → window m' r'.

Lemma Tally_refused range msg m r e m' :
  Tally range c msg r m = (Err e, m') → r_a r = None ∨ GetPowerForValidator c (pm_Validator msg) = None → m' = m.
Proof.
  unfold Tally. intros Hrun [Hn|Hn]; [rewrite Hn in Hrun; by injection Hrun|].
  destruct (r_a r); [|by injection Hrun]. unfold getMsgItemFromProto in Hrun. rewrite Hn in Hrun.
  unfold mbind, M_bind in Hrun. cbn in Hrun. by injection Hrun.
Qed.

Lemma window_state m r : window m r → wstate m r ∧ is_Some (r_a r).
Proof.
  induction 1 as [m r Hr|range msg m r x r' m' _ [IH [a Ha]] Hp Hq Hrun|range msg m r e m' _ [IH [a Ha]] Hp Hq Hrun
    |m r _ [IH [a Ha]] Hq|m r _ [IH [a Ha]] Hq|range m r o r' m' _ [IH [a Ha]] Hp Hrun
    |range v m r miss mal r' m' _ [IH [a Ha]] Hp Hrun].
  - split; [|by eexists]. apply wstate_set; [done|]. split; [|done]. apply new_inv.
  - destruct (GetPowerForValidator c (pm_Validator msg)) as [pow|] eqn:Hpow.
    2:{ revert Hrun. unfold Tally. rewrite Ha. unfold getMsgItemFromProto. by rewrite Hpow. }
    destruct (IsQuoting r) eqn:Hquoting.
    + destruct (Tally_quoting range msg m r a) as [(? & Hrun' & _)|(? & ? & a' & ? & Hrun' & Ha' & Hw & _)];
        [done..| |]; rewrite Hrun in Hrun'; simplify_eq. split; [done|by eexists].
    + destruct (Tally_recording range msg m r a) as [(? & Hrun' & _)|(? & ? & Hrun' & Hst & Hw)];
        [done..| |]; rewrite Hrun in Hrun'; simplify_eq. by split.
  - destruct (GetPowerForValidator c (pm_Validator msg)) as [pow|] eqn:Hpow.
    2:{ apply Tally_refused in Hrun as ->; [|by right]. split; [done|by eexists]. }
    destruct (IsQuoting r) eqn:Hquoting.
    + destruct (Tally_quoting range msg m r a) as [(? & Hrun' & Hw)|(? & ? & a' & ? & Hrun' & _)];
        [done..| |]; rewrite Hrun in Hrun'; simplify_eq. split; [done|by eexists].
    + destruct (Tally_recording range msg m r a) as [(? & Hrun' & Hw)|(? & ? & Hrun' & _)];
        [done..| |]; rewrite Hrun in Hrun'; simplify_eq. split; [done|by eexists].
  - split; [|by eexists]. rewrite Ha. apply wstate_set; [apply IH|]. left.
    pose proof (proj2 IH a Ha) as Hst. rewrite Hq in Hst. destruct Hst. by apply inv_unsettled.
  - split; [|by eexists]. rewrite Ha. apply wstate_set; [apply IH|].
    pose proof (proj2 IH a Ha) as Hst. unfold Committable in Hq. apply bool_decide_eq_true in Hq.
    unfold IsQuoting in Hst. by rewrite Hq in Hst.
  - destruct (FinalPrice_runs range m r a Hp IH Ha) as (? & ? & Hrun' & Hw & _). rewrite Hrun in Hrun'.
    simplify_eq. split; [done|by eexists].
  - destruct (PerformanceReview_runs range m r a v Hp IH Ha) as (? & ? & ? & Hrun' & Hw & _). rewrite Hrun in Hrun'.
    simplify_eq. split; [done|by eexists].
Qed.

(** C7.  While the window of a round is quoting, a quote of an active validator is refused
    only when it brings nothing new.  Otherwise the round has its final price exactly
    when some price, with its detID and decimals, was quoted by validators whose power
    exceeds the threshold: then the final price is that price, with its detID, in the
    form in which numbers are printed, whatever the order in which maps are visited.  The
    round is one of a feeder under the rule V1, with valid parameters, in which every quote
    is of the one deterministic source and has prices: [window] and [quote_ok]. *)
Theorem Tally_price range msg m r :
  window m r → IsQuoting r = true → permutes range → quote_ok msg →
  is_Some (GetPowerForValidator c (pm_Validator msg)) →
  (∃ m', Tally range c msg r m = (Err ErrNoSourceAdded, m')) ∨
  (∃ x r' a' m', Tally range c msg r m = (Ok (Tallied x, r'), m') ∧ r_a r' = Some a' ∧
    match x with
    | None => ∀ k, ¬ quorum cache_power t (λ v, quoted s (ag_v a') v k)
    | Some l => ∃ p price, m_heap m' !! l = Some p ∧ p_Price p = canonical price ∧
        quorum cache_power t (λ v, quoted s (ag_v a') v (price, p_DetID p, p_Decimal p))
    end).
Proof.
  intros [Hw [a Ha]]%window_state Hq Hperm Hmsg Hknown.
  destruct (Tally_quoting range msg m r a) as [(m' & Hrun & _)|(x & r' & a' & m' & Hrun & Ha' & Hw' & Hx)];
    [done..|by left; exists m'|right]. exists x, r', a', m'. split; [done|]. split; [done|].
  destruct x as [l|].
  - destruct Hx as (k & p & [_ _ Hl [Hp Hdec] _ _ Hquorum] & Hd). exists p, k.1.1. split; [done|]. split; [done|].
    rewrite Hd, Hdec. by destruct k as [[? ?] ?].
  - intros k. pose proof (proj2 Hw' a' Ha') as Hst. rewrite Hx in Hst. destruct Hst as [Hinv Hnone].
    by apply (inv_no_quorum cache_power s t) with m'; auto.
Qed.

(** C10.  After the window the review of a validator does not change the round.  When the
    round has a final price, the validator is malicious exactly when it quoted something
    else under the detID of the final price, and it missed the round exactly when it
    quoted nothing under that detID; when there is no final price it is neither.  The round
    is one of a feeder under the rule V1 with quotes of the one deterministic source, as
    [window] builds it. *)
Theorem PerformanceReview_fair range m r a v :
  window m r → r_a r = Some a → permutes range →
  ∃ miss malicious m', PerformanceReview range c v r m = (Ok (miss, malicious, r), m') ∧
    match FinalPrice range r m with
    | (Ok (Some l, _), _) => ∃ p, m_heap m !! l = Some p ∧
        (miss = true ↔ ¬ ∃ q, quoted s (ag_v a) v q ∧ q.1.2 = p_DetID p) ∧
        (malicious = true ↔ ∃ q, quoted s (ag_v a) v q ∧ q.1.2 = p_DetID p ∧ q ≠ ds_key p)
    | _ => miss = false ∧ malicious = false
    end.
Proof.
  intros [Hw _]%window_state Ha Hperm.
  destruct (PerformanceReview_runs range m r a v Hperm Hw Ha) as (miss & mal & m' & Hrun & _ & Hv).
  exists miss, mal, m'. by split.
Qed.

(** The final price is printed as a number while the quotes are compared as strings:
    when the validators that made the price quote it in another form, with a sign or
    with leading zeros, the review reports them as malicious. *)
Lemma quorum_reported_malicious range m r a l r' m' p price :
  window m r → r_a r = Some a → permutes range → FinalPrice range r m = (Ok (Some l, r'), m') →
  m_heap m !! l = Some p → canonical price ≠ price →
  quorum cache_power t (λ v, quoted s (ag_v a) v (price, p_DetID p, p_Decimal p)) →
  p_Price p = canonical price →
  quorum cache_power t (λ v, ∃ m', PerformanceReview range c v r m = (Ok (false, true, r), m')).
Proof.
  intros [Hw _]%window_state Ha Hperm Hfin Hp Hne Hq Hprice. eapply quorum_mono; [|exact Hq]. intros v Hv.
  destruct (PerformanceReview_runs range m r a v Hperm Hw Ha) as (miss & mal & m2 & Hrun & _ & Hres).
  rewrite Hfin in Hres. destruct Hres as (p' & Hp' & Hmiss & Hmal).
  assert (p' = p) as -> by (apply Some_inj; etrans; [symmetry; exact Hp'|exact Hp]). exists m2. rewrite Hrun.
  assert (mal = true) as ->.
  { apply Hmal. exists (price, p_DetID p, p_Decimal p). split; [done|]. split; [done|]. unfold ds_key. congruence. }
  destruct miss; [|done]. exfalso. apply (proj1 Hmiss eq_refl).
  by exists (price, p_DetID p, p_Decimal p).
Qed.

Lemma quoted_once m r a v k1 k2 :
  wstate m r → r_a r = Some a → quoted s (ag_v a) v k1 → quoted s (ag_v a) v k2 → k1.1.2 = k2.1.2 → k1 = k2.
Proof.
  intros Hw Ha (ps1 & Hq1 & Hk1) (ps2 & Hq2 & Hk2) Hd. pose proof (agg_state_base _ _ _ (proj2 Hw a Ha)) as Hb.
  rewrite Hq1 in Hq2. injection Hq2 as <-. unfold GetValidatorQuotePricesForSourceID in Hq1.
  destruct (rv_records (ag_v a) !! v) as [pv|] eqn:Hpv; [|done]. cbn in Hq1.
  destruct (b_records _ _ _ _ _ Hb v pv Hpv) as (ps & Hps & [_ _ Hnd] & _).
  rewrite Hps, lookup_singleton_eq in Hq1. injection Hq1 as <-.
  apply list_elem_of_fmap in Hk1 as (p1 & -> & Hp1), Hk2 as (p2 & -> & Hp2). cbn in Hd.
  apply list_elem_of_lookup in Hp1 as [i1 Hi1], Hp2 as [i2 Hi2].
  assert (i1 = i2) as ->; [|congruence].
  eapply NoDup_lookup; [exact Hnd|rewrite list_lookup_fmap, Hi1|rewrite list_lookup_fmap, Hi2]; [done|]. cbn. by rewrite Hd.
Qed.

(** C16.  When the threshold is at least one half of the power, at most one price is quoted
    by a quorum under one detID: two quorums share a validator, and a validator has one
    quote under a detID.  The round is a [window] of a feeder under the rule V1. *)
Theorem quorum_price_unique m r a k1 k2 :
  window m r → r_a r = Some a → pa_ThresholdB (cs_params c) ≤ 2 * pa_ThresholdA (cs_params c) →
  quorum cache_power t (λ v, quoted s (ag_v a) v k1) → quorum cache_power t (λ v, quoted s (ag_v a) v k2) →
  k1.1.2 = k2.1.2 → k1 = k2.
Proof.
  intros [Hw _]%window_state Ha Ht (X & HX & HqX) (Y & HY & HqY) Hd.
  set (V := dom (cv_validators (cs_validators c))).
  assert (HV : ∀ v, v ∉ V → cache_power v = 0).
  { intros v Hv. unfold cache_power, GetPowerForValidator. by apply not_elem_of_dom in Hv as ->. }
  rewrite (power_inter _ X V HV) in HX. rewrite (power_inter _ Y V HV) in HY.
  apply Exceeds_spec in HX, HY.
  destruct (quorums_meet cache_power t V (X ∩ V) (Y ∩ V)) as (v & Hv1 & Hv2); try done; try set_solver.
  - split; [apply threshold_nonneg|done].
  - cbn. rewrite (co_total _ c_validators). symmetry. apply power_dom.
  - apply (quoted_once m r a v); [done|done|apply HqX|apply HqY|done]; set_solver.
Qed.
End Round.
