(* ===== verification/OraclePrices.v ===== *)
(** * Prices of the tokens (keeper/prices.go, types/prices.go, keeper/hooks.go)

    The prices of the last rounds of a token, and the average of an epoch.  The rounds
    in which a price does not change are added up when it changes.  The keys of the
    store have a fixed width, so that each kind of entry is a map.  The theorem is that the
    average is the mean of the rounds. *)

From S2P Require Import Prelude OracleAlgo OracleAggregator OracleParams.

Record PriceTimeRound := { pt_Price : string; pt_Decimal : Z; pt_Timestamp : string; pt_RoundID : Z }.
Record PriceEpoch := {
  pe_Epoch : Z; pe_RoundId : Z; pe_Price : string; pe_Decimal : Z; pe_Timestamp : string }.
Record PriceAcc := {
  ac_Price : string; ac_Decimal : Z; ac_Timestamp : string; ac_LastRoundID : Z; ac_StartRoundID : Z }.

(** By the token, the rounds also by their identifier. *)
Record PriceStore := {
  px_rounds : gmap (Z * Z) PriceTimeRound;
  px_next : gmap Z Z;
  px_acc : gmap Z PriceAcc;
  px_twap : gmap Z PriceEpoch;
}.

Definition set_rounds (f : gmap (Z * Z) PriceTimeRound → gmap (Z * Z) PriceTimeRound) (s : PriceStore) : PriceStore :=
  {| px_rounds := f (px_rounds s); px_next := px_next s; px_acc := px_acc s; px_twap := px_twap s |}.
Definition set_next (tokenID next : Z) (s : PriceStore) : PriceStore :=
  {| px_rounds := px_rounds s; px_next := <[tokenID := next]> (px_next s); px_acc := px_acc s; px_twap := px_twap s |}.
Definition set_acc (tokenID : Z) (acc : PriceAcc) (s : PriceStore) : PriceStore :=
  {| px_rounds := px_rounds s; px_next := px_next s; px_acc := <[tokenID := acc]> (px_acc s); px_twap := px_twap s |}.
Definition set_twap (tokenID : Z) (twap : PriceEpoch) (s : PriceStore) : PriceStore :=
  {| px_rounds := px_rounds s; px_next := px_next s; px_acc := px_acc s; px_twap := <[tokenID := twap]> (px_twap s) |}.

(** ** Sums of prices *)

Abbreviation PM := (M PriceStore oracle_error).

(** [strings.Repeat] panics on a negative count. *)
Definition pad (price : string) (count : Z) : PM string :=
  if count <? 0 then panic else mret (price +:+ Repeat0 (Z.to_nat count)).

Definition set_pt (price : string) (decimal : Z) (p : PriceTimeRound) : PriceTimeRound :=
  {| pt_Price := price; pt_Decimal := decimal; pt_Timestamp := pt_Timestamp p; pt_RoundID := pt_RoundID p |}.

Definition UniformDecimals (p1 p2 : PriceTimeRound) : PM (PriceTimeRound * PriceTimeRound) :=
  if pt_Decimal p1 =? pt_Decimal p2 then mret (p1, p2)
  else if pt_Decimal p2 <? pt_Decimal p1 then
    price ← pad (pt_Price p2) (wrap_int32 (pt_Decimal p1 - pt_Decimal p2));
    mret (p1, set_pt price (pt_Decimal p1) p2)
  else
    price ← pad (pt_Price p1) (wrap_int32 (pt_Decimal p2 - pt_Decimal p1));
    mret (set_pt price (pt_Decimal p2) p1, p2).

Definition pt_Equal (p other : PriceTimeRound) : PM bool :=
  r ← UniformDecimals p other; mret (bool_decide (pt_Price r.1 = pt_Price r.2)).

(** Errors of a sum are values: the callers log them or fall back. *)
Definition Accumulate (p other : PriceTimeRound) : PM (option PriceTimeRound) :=
  if pt_RoundID other <=? pt_RoundID p then mret None
  else
    let rounds := pt_RoundID other - pt_RoundID p in
    r ← UniformDecimals p other;
    match SetString (pt_Price r.1), SetString (pt_Price r.2) with
    | Some pBigInt, Some otherBigInt =>
        mret (Some {| pt_Price := Int_String (pBigInt + otherBigInt * rounds); pt_Decimal := pt_Decimal r.1;
                      pt_Timestamp := pt_Timestamp p; pt_RoundID := pt_RoundID other |})
    | _, _ => mret None
    end.

Definition ToPriceTR (p : PriceAcc) : PriceTimeRound := {|
  pt_Price := ac_Price p; pt_Decimal := ac_Decimal p; pt_Timestamp := ac_Timestamp p; pt_RoundID := ac_LastRoundID p |}.

Definition ToPriceAcc (startRoundID : Z) (p : PriceTimeRound) : PriceAcc := {|
  ac_Price := pt_Price p; ac_Decimal := pt_Decimal p; ac_Timestamp := pt_Timestamp p;
  ac_LastRoundID := pt_RoundID p; ac_StartRoundID := startRoundID |}.

Definition AccumulatePriceTR (p : PriceAcc) (pTR : PriceTimeRound) : PM (option PriceAcc) :=
  r ← Accumulate (ToPriceTR p) pTR; mret (ToPriceAcc (ac_StartRoundID p) <$> r).

(** ** Rounds of a token *)

Definition GetNextRoundID (tokenID : Z) : PM Z := gets (λ s, Z.max 1 (default 0 (px_next s !! tokenID))).

Definition IncreaseNextRoundID (tokenID : Z) : PM unit :=
  next ← GetNextRoundID tokenID; modify (set_next tokenID (wrap_uint64 (next + 1))).

Definition GetPriceTRRoundID (tokenID roundID : Z) : PM (option PriceTimeRound) :=
  gets (λ s, px_rounds s !! (tokenID, roundID)).

Definition empty_price : PriceTimeRound :=
  {| pt_Price := EmptyString; pt_Decimal := 0; pt_Timestamp := EmptyString; pt_RoundID := 0 |}.

(** The latest price, and whether it is one. *)
Definition GetPriceTRLatest (tokenID : Z) : PM (PriceTimeRound * bool) :=
  next ← GetNextRoundID tokenID;
  stored ← GetPriceTRRoundID tokenID (next - 1);
  mret (match stored with
        | Some price => (price, negb (bool_decide (pt_Price price = EmptyString)))
        | None => (empty_price, false)
        end).

Definition fresh_acc (prevRoundID : Z) : PriceAcc := {|
  ac_Price := "0"; ac_Decimal := 0; ac_Timestamp := EmptyString;
  ac_LastRoundID := prevRoundID - 1; ac_StartRoundID := prevRoundID |}.

Definition accumulatePriceTR (tokenID : Z) (priceTR : PriceTimeRound) : PM unit :=
  if pt_RoundID priceTR <=? 1 then mret tt
  else
    let prevRoundID := pt_RoundID priceTR - 1 in
    found ← GetPriceTRRoundID tokenID prevRoundID;
    match found with
    | None => fail ErrAccumulatePrice
    | Some prevPrice =>
        unchanged ← pt_Equal prevPrice priceTR;
        bz ← gets (λ s, px_acc s !! tokenID);
        if (unchanged : bool) then
          match bz with None => modify (set_acc tokenID (fresh_acc prevRoundID)) | Some _ => mret tt end
        else
          let accPrice := default (fresh_acc prevRoundID) bz in
          if prevRoundID <=? ac_LastRoundID accPrice then mret tt
          else
            acc ← AccumulatePriceTR accPrice prevPrice;
            match acc with
            | None => fail ErrAccumulatePrice
            | Some acc => modify (set_acc tokenID acc)
            end
    end.

(** An error is logged. *)
Definition logged (m : PM unit) : PM unit := λ s,
  match m s with (Err _, s') => (Ok tt, s') | r => r end.

Section Keeper.
Context (maxSizePrices : Z).

Definition AppendPriceTR (tokenID : Z) (priceTR : PriceTimeRound) (accumulate : bool) : PM bool :=
  nextRoundID ← GetNextRoundID tokenID;
  if negb (nextRoundID =? pt_RoundID priceTR) then mret false
  else
    _ ← modify (set_rounds (<[(tokenID, nextRoundID) := priceTR]>));
    _ ← (if wrap_uint64 maxSizePrices <=? nextRoundID
         then modify (set_rounds (delete (tokenID, nextRoundID - wrap_uint64 maxSizePrices)))
         else mret tt);
    _ ← IncreaseNextRoundID tokenID;
    _ ← (if accumulate then logged (accumulatePriceTR tokenID priceTR) else mret tt);
    mret true.

(** A round without a price of its own has the latest one. *)
Definition GrowRoundID (tokenID nextRoundID : Z) (accumulate : bool) : PM (string * Z) :=
  storedNextRoundID ← GetNextRoundID tokenID;
  latest ← GetPriceTRLatest tokenID;
  let pTR := latest.1 in
  if nextRoundID <? storedNextRoundID then mret (pt_Price pTR, storedNextRoundID - 1)
  else
    _ ← (if storedNextRoundID <? nextRoundID then modify (set_next tokenID nextRoundID) else mret tt);
    _ ← AppendPriceTR tokenID
          {| pt_Price := pt_Price pTR; pt_Decimal := pt_Decimal pTR; pt_Timestamp := pt_Timestamp pTR;
             pt_RoundID := nextRoundID |} accumulate;
    mret (pt_Price pTR, nextRoundID).
End Keeper.

(** ** The average of an epoch *)

Definition ResetAccumulatedPrice (tokenID : Z) : PM unit :=
  latest ← GetPriceTRLatest tokenID;
  let price := latest.1 in
  if negb latest.2 || (pt_RoundID price =? 0) then mret tt
  else modify (set_acc tokenID {|
    ac_Price := "0"; ac_Decimal := pt_Decimal price; ac_Timestamp := EmptyString;
    ac_LastRoundID := pt_RoundID price - 1; ac_StartRoundID := pt_RoundID price |}).

Definition GetTWAP (tokenID : Z) : PM (option PriceEpoch) := gets (λ s, px_twap s !! tokenID).
Definition GetAccumulatedPrice (tokenID : Z) : PM (option PriceAcc) := gets (λ s, px_acc s !! tokenID).

(** The latest price as the average, with an error or without. *)
Definition fallback (tokenID : Z) (twap : PriceEpoch) : PM PriceEpoch :=
  _ ← modify (set_twap tokenID twap); fail ErrTWAPFallback.
Definition store_twap (tokenID : Z) (twap : PriceEpoch) : PM PriceEpoch :=
  _ ← modify (set_twap tokenID twap); mret twap.

(** The sum up to the round before the latest one. *)
Definition acc_until (tokenID : Z) (latestRoundID : Z) (accPrice : PriceAcc) : PM (option PriceAcc) :=
  if ac_LastRoundID accPrice + 1 <? latestRoundID then
    prevPrice ← GetPriceTRRoundID tokenID (latestRoundID - 1);
    match prevPrice with None => mret None | Some prevPrice => AccumulatePriceTR accPrice prevPrice end
  else mret (Some accPrice).

Definition CalculateTWAP (tokenID epochNumber : Z) : PM PriceEpoch :=
  latest ← GetPriceTRLatest tokenID;
  let latestPrice := latest.1 in
  if negb latest.2 then fail ErrAccumulatePrice
  else
    let twapLatest := {| pe_Epoch := epochNumber; pe_RoundId := pt_RoundID latestPrice;
      pe_Price := pt_Price latestPrice; pe_Decimal := pt_Decimal latestPrice; pe_Timestamp := EmptyString |} in
    acc ← GetAccumulatedPrice tokenID;
    match acc with
    | None => fallback tokenID twapLatest
    | Some accPrice =>
        if pt_RoundID latestPrice <=? 1 then store_twap tokenID twapLatest
        else
          old ← GetTWAP tokenID;
          if bool_decide (old = None) && (epochNumber =? 0) then store_twap tokenID twapLatest
          else
            acc ← acc_until tokenID (pt_RoundID latestPrice) accPrice;
            match acc with
            | None => fallback tokenID twapLatest
            | Some acc =>
                match SetString (ac_Price acc) with
                | None => fallback tokenID twapLatest
                | Some total =>
                    let rounds := wrap_uint64 (pt_RoundID latestPrice - ac_StartRoundID acc) in
                    if rounds =? 0 then fallback tokenID twapLatest
                    else store_twap tokenID {|
                      pe_Epoch := epochNumber; pe_RoundId := pt_RoundID latestPrice;
                      pe_Price := Int_String (total / rounds); pe_Decimal := ac_Decimal acc;
                      pe_Timestamp := from_option pe_Timestamp EmptyString old |}
                end
            end
    end.

(** ** The average of an epoch is the mean of its rounds

    The accumulated price is a sum in which equal rounds are added at once.  It equals
    the sum over all rounds, and the average of an epoch is the mean of the prices from
    the last round of the epoch before to the round before the latest one. *)

(** ** Sums over rounds *)

(** The sum of [h] over the rounds from [a] to before [b]. *)
Definition total (h : Z → Z) (a b : Z) : Z := foldr (λ i acc, h i + acc) 0 (seqZ a (b - a)).

Lemma total_empty h a : total h a a = 0.
Proof. unfold total. by rewrite Z.sub_diag. Qed.

Lemma total_end h a b : a ≤ b → total h a (b + 1) = total h a b + h b.
Proof.
  intros Hab. unfold total. replace (b + 1 - a) with ((b - a) + 1) by lia.
  rewrite seqZ_app by lia. replace (a + (b - a)) with b by lia. change (seqZ b 1) with [b].
  rewrite foldr_app. cbn. generalize (seqZ a (b - a)). intros l. induction l; cbn; lia.
Qed.

(** Rounds with one price. *)
Lemma total_const h a b c v :
  a ≤ b ≤ c → (∀ i, b ≤ i < c → h i = v) → total h a c = total h a b + v * (c - b).
Proof.
  intros [Hab Hbc]. remember (Z.to_nat (c - b)) as k eqn:Hk. revert c Hbc Hk. induction k as [|k IH]; intros c Hbc Hk Hv.
  - assert (c = b) as -> by lia. lia.
  - replace c with (c - 1 + 1) by lia. rewrite total_end, (IH (c - 1)), (Hv (c - 1)) by first [lia|intros; apply Hv; lia]. lia.
Qed.

Section Token.
Context (maxSizePrices tokenID d : Z) (h : Z → Z).
Context (size_ok : 2 ≤ maxSizePrices < 2 ^ 31).

(** The price of the round [i]. *)
Record price_of (i : Z) (p : PriceTimeRound) : Prop := {
  po_round : pt_RoundID p = i;
  po_value : SetString (pt_Price p) = Some (h i);
  po_decimal : pt_Decimal p = d;
}.

(** The sum covers the rounds since [start]; those up to [n] that are left have one price. *)
Record acc_ok (start n : Z) (acc : PriceAcc) : Prop := {
  ao_start : ac_StartRoundID acc = start;
  ao_decimal : ac_Decimal acc = d;
  ao_sum : SetString (ac_Price acc) = Some (total h start (ac_LastRoundID acc + 1));
  ao_last : start ≤ ac_LastRoundID acc + 1 ≤ n;
  ao_const i : ac_LastRoundID acc < i ≤ n → h i = h n;
}.

(** The rounds since [start] up to [n] are summed up. *)
Record summed (start n : Z) (st : PriceStore) : Prop := {
  sm_bounds : 1 ≤ start ≤ n ∧ n + 1 < 2 ^ 64;
  sm_next : px_next st !! tokenID = Some (n + 1);
  sm_latest : ∃ p, px_rounds st !! (tokenID, n) = Some p ∧ price_of n p;
  sm_prev : start < n → ∃ p, px_rounds st !! (tokenID, n - 1) = Some p ∧ price_of (n - 1) p;
  sm_acc : ∃ acc, px_acc st !! tokenID = Some acc ∧ acc_ok start n acc;
}.

Lemma GetNextRoundID_run st n :
  px_next st !! tokenID = Some (n + 1) → 1 ≤ n → GetNextRoundID tokenID st = (Ok (n + 1), st).
Proof. intros Hn Hpos. unfold GetNextRoundID, gets. rewrite Hn. cbn. repeat f_equal. lia. Qed.

Lemma price_nonempty i p : price_of i p → bool_decide (pt_Price p = EmptyString) = false.
Proof. intros [_ Hv _]. apply bool_decide_false. intros He. by rewrite He in Hv. Qed.

Lemma GetPriceTRLatest_run st n p :
  px_next st !! tokenID = Some (n + 1) → 1 ≤ n → px_rounds st !! (tokenID, n) = Some p → price_of n p →
  GetPriceTRLatest tokenID st = (Ok (p, true), st).
Proof.
  intros Hn Hpos Hp Hpo. unfold GetPriceTRLatest. rewrite (bind_run _ _ _ _ _ (GetNextRoundID_run st n Hn Hpos)).
  replace (n + 1 - 1) with n by lia. rewrite (bind_run _ _ _ _ _ (eq_refl : GetPriceTRRoundID _ _ st = _)).
  rewrite Hp, (price_nonempty n p Hpo). done.
Qed.

Lemma UniformDecimals_same (p q : PriceTimeRound) st :
  pt_Decimal p = pt_Decimal q → UniformDecimals p q st = (Ok (p, q), st).
Proof. intros Hd. unfold UniformDecimals. by rewrite Hd, Z.eqb_refl. Qed.

Lemma AccumulatePriceTR_run acc p i sum st :
  price_of i p → ac_Decimal acc = d → SetString (ac_Price acc) = Some sum → ac_LastRoundID acc < i →
  ∃ acc', AccumulatePriceTR acc p st = (Ok (Some acc'), st) ∧ ac_StartRoundID acc' = ac_StartRoundID acc ∧
    ac_Decimal acc' = d ∧ ac_LastRoundID acc' = i ∧
    SetString (ac_Price acc') = Some (sum + h i * (i - ac_LastRoundID acc)).
Proof.
  intros [Hr Hv Hd] Hda Hs Hi.
  assert (Hrun : ∃ q, Accumulate (ToPriceTR acc) p st = (Ok (Some q), st) ∧ pt_Decimal q = d ∧ pt_RoundID q = i ∧
    pt_Price q = Int_String (sum + h i * (i - ac_LastRoundID acc))).
  { unfold Accumulate. cbn [pt_RoundID ToPriceTR]. rewrite Hr.
    assert ((i <=? ac_LastRoundID acc) = false) as -> by lia.
    erewrite (bind_run _ _ st); [|apply UniformDecimals_same; exact (eq_trans Hda (eq_sym Hd))].
    cbn [fst snd ToPriceTR pt_Price]. rewrite Hs, Hv. eexists. by repeat split. }
  destruct Hrun as (q & Hrun & Hqd & Hqr & Hqp). unfold AccumulatePriceTR. rewrite (bind_run _ _ _ _ _ Hrun).
  eexists. split; [done|]. cbn. rewrite Hqp. repeat split; [done|done|]. apply SetString_Int_String.
Qed.

Lemma IncreaseNextRoundID_run st n :
  px_next st !! tokenID = Some (n + 1) → 1 ≤ n → n + 2 < 2 ^ 64 →
  IncreaseNextRoundID tokenID st = (Ok tt, set_next tokenID (n + 1 + 1) st).
Proof.
  intros Hn Hpos Hmax. unfold IncreaseNextRoundID. rewrite (bind_run _ _ _ _ _ (GetNextRoundID_run st n Hn Hpos)).
  by rewrite wrap_uint64_id by lia.
Qed.

Lemma accumulatePriceTR_run start n p p0 acc st :
  1 ≤ n → px_rounds st !! (tokenID, n) = Some p0 → price_of n p0 → price_of (n + 1) p →
  px_acc st !! tokenID = Some acc → acc_ok start n acc →
  ∃ acc', accumulatePriceTR tokenID p st = (Ok tt, set_acc tokenID acc' st) ∧ acc_ok start (n + 1) acc'.
Proof.
  intros Hpos Hp0 Hpo0 Hpo Hacc [Hstart Hd Hsum Hlast Hconst]. unfold accumulatePriceTR. rewrite (po_round _ _ Hpo).
  assert ((n + 1 <=? 1) = false) as -> by lia. replace (n + 1 - 1) with n by lia.
  rewrite (bind_run _ _ _ _ _ (eq_refl : GetPriceTRRoundID _ _ st = _)), Hp0.
  assert (Heq : pt_Equal p0 p st = (Ok (bool_decide (pt_Price p0 = pt_Price p)), st)).
  { unfold pt_Equal. erewrite bind_run; [|apply UniformDecimals_same]; [done|].
    by rewrite (po_decimal _ _ Hpo0), (po_decimal _ _ Hpo). }
  rewrite (bind_run _ _ _ _ _ Heq), (bind_run _ _ _ _ _ (eq_refl : gets _ st = _)), Hacc. cbn [default from_option id].
  case_bool_decide as Hsame.
  - exists acc. split.
    + unfold set_acc. rewrite insert_id by done. by destruct st.
    + split; [done|done|done|lia|]. intros i Hi.
      assert (h (n + 1) = h n) as Hhn.
      { pose proof (po_value _ _ Hpo0) as H0. rewrite Hsame, (po_value _ _ Hpo) in H0. congruence. }
      destruct (decide (i = n + 1)) as [->|]; [done|]. rewrite Hhn. apply Hconst. lia.
  - assert ((n <=? ac_LastRoundID acc) = false) as -> by lia.
    destruct (AccumulatePriceTR_run acc p0 n (total h start (ac_LastRoundID acc + 1)) st)
      as (acc' & Hrun & Hs' & Hd' & Hl' & Hv'); [done|done|done|lia|].
    rewrite (bind_run _ _ _ _ _ Hrun). exists acc'. split; [done|]. split; [congruence|done| |lia|].
    + rewrite Hv', Hl'. f_equal. rewrite (total_const h start (ac_LastRoundID acc + 1) (n + 1) (h n)); [lia|lia|].
      intros i Hi. apply Hconst. lia.
    + intros i Hi. f_equal. lia.
Qed.

(** A round with a price. *)
Lemma summed_append start n p st :
  summed start n st → price_of (n + 1) p → n + 2 < 2 ^ 64 →
  ∃ st', AppendPriceTR maxSizePrices tokenID p true st = (Ok true, st') ∧ summed start (n + 1) st'.
Proof.
  intros [Hb Hn (p0 & Hp0 & Hpo0) _ (acc & Hacc & Hok)] Hpo Hmax. unfold AppendPriceTR.
  rewrite (bind_run _ _ _ _ _ (GetNextRoundID_run st n Hn ltac:(lia))), (po_round _ _ Hpo), Z.eqb_refl.
  cbn [negb]. rewrite (wrap_uint64_id maxSizePrices) by lia.
  set (rounds := if maxSizePrices <=? n + 1 then
    delete (tokenID, n + 1 - maxSizePrices) (<[(tokenID, n + 1) := p]> (px_rounds st))
    else <[(tokenID, n + 1) := p]> (px_rounds st)).
  rewrite (bind_run _ _ _ _ _ (eq_refl : modify _ st = _)).
  erewrite (bind_run _ _ _ tt (set_rounds (λ _, rounds) st)) by (unfold rounds; by destruct (maxSizePrices <=? n + 1)).
  rewrite (bind_run _ _ _ _ _ (IncreaseNextRoundID_run (set_rounds (λ _, rounds) st) n Hn ltac:(lia) Hmax)).
  set (st1 := set_next tokenID (n + 1 + 1) (set_rounds (λ _, rounds) st)).
  assert (Hkeep : ∀ i q, n ≤ i → <[(tokenID, n + 1) := p]> (px_rounds st) !! (tokenID, i) = Some q →
    px_rounds st1 !! (tokenID, i) = Some q).
  { intros i q Hi Hq. cbn. unfold rounds. destruct (maxSizePrices <=? n + 1); [|done].
    rewrite lookup_delete_ne; [done|]. intros [=]. lia. }
  assert (Hp1 : px_rounds st1 !! (tokenID, n) = Some p0).
  { apply Hkeep; [lia|]. rewrite lookup_insert_ne; [done|]. intros [=]. lia. }
  destruct (accumulatePriceTR_run start n p p0 acc st1) as (acc' & Hrun & Hok'); [lia|done..|].
  erewrite (bind_run _ _ st1 tt (set_acc tokenID acc' st1)) by (unfold logged; by rewrite Hrun).
  eexists. split; [done|]. split; cbn.
  - lia.
  - apply lookup_insert_eq.
  - exists p. split; [|done]. apply (Hkeep (n + 1)); [lia|]. apply lookup_insert_eq.
  - intros _. replace (n + 1 - 1) with n by lia. by exists p0.
  - exists acc'. by rewrite lookup_insert_eq.
Qed.

(** A round without a price. *)
Lemma summed_grow start n st :
  summed start n st → h (n + 1) = h n → n + 2 < 2 ^ 64 →
  ∃ r st', GrowRoundID maxSizePrices tokenID (n + 1) true st = (Ok r, st') ∧ summed start (n + 1) st'.
Proof.
  intros Hs Hh Hmax. pose proof Hs as [Hb Hn (p0 & Hp0 & Hpo0) _ _].
  pose proof Hpo0 as [Hr Hv Hd]. unfold GrowRoundID.
  rewrite (bind_run _ _ _ _ _ (GetNextRoundID_run st n Hn ltac:(lia))).
  rewrite (bind_run _ _ _ _ _ (GetPriceTRLatest_run st n p0 Hn ltac:(lia) Hp0 Hpo0)).
  cbn [fst]. rewrite Z.ltb_irrefl. rewrite (bind_run _ _ _ _ _ (eq_refl : (mret tt : PM unit) st = _)).
  set (p := {| pt_Price := pt_Price p0; pt_Decimal := pt_Decimal p0; pt_Timestamp := pt_Timestamp p0; pt_RoundID := n + 1 |}).
  destruct (summed_append start n p st) as (st' & Hrun & Hs'); [done|split; cbn; congruence|done|].
  rewrite (bind_run _ _ _ _ _ Hrun). by eexists _, _.
Qed.

(** ** The rounds of an epoch *)

(** Rounds from [roundID] on, each with a price or without. *)
Fixpoint run_rounds (roundID : Z) (l : list (option PriceTimeRound)) : PM unit :=
  match l with
  | [] => mret tt
  | Some p :: l => _ ← AppendPriceTR maxSizePrices tokenID p true; run_rounds (roundID + 1) l
  | None :: l => _ ← GrowRoundID maxSizePrices tokenID roundID true; run_rounds (roundID + 1) l
  end.

(** [h] is the price of these rounds: a round without a price has that of the one before. *)
Fixpoint follows (roundID : Z) (l : list (option PriceTimeRound)) : Prop :=
  match l with
  | [] => True
  | Some p :: l => price_of roundID p ∧ follows (roundID + 1) l
  | None :: l => h roundID = h (roundID - 1) ∧ follows (roundID + 1) l
  end.

Lemma run_rounds_summed start n l st :
  summed start n st → follows (n + 1) l → n + len l + 1 < 2 ^ 64 →
  ∃ st', run_rounds (n + 1) l st = (Ok tt, st') ∧ summed start (n + len l) st'.
Proof.
  revert n st. induction l as [|o l IH]; intros n st Hs Hf Hmax; unfold len in *; cbn [length] in *.
  { exists st. rewrite Z.add_0_r. by split. }
  assert (Hstep : ∃ st1, (match o with
      | Some p => _ ← AppendPriceTR maxSizePrices tokenID p true; run_rounds (n + 1 + 1) l
      | None => _ ← GrowRoundID maxSizePrices tokenID (n + 1) true; run_rounds (n + 1 + 1) l end) st =
      run_rounds (n + 1 + 1) l st1 ∧ summed start (n + 1) st1 ∧ follows (n + 1 + 1) l).
  { destruct o as [p|]; cbn [follows] in Hf; destruct Hf as [Hp Hf].
    - destruct (summed_append start n p st) as (st1 & Hrun & Hs1); [done|done|lia|].
      exists st1. by rewrite (bind_run _ _ _ _ _ Hrun).
    - replace (n + 1 - 1) with n in Hp by lia.
      destruct (summed_grow start n st) as (r & st1 & Hrun & Hs1); [done|done|lia|].
      exists st1. by rewrite (bind_run _ _ _ _ _ Hrun). }
  destruct Hstep as (st1 & Hrun & Hs1 & Hf1). destruct (IH (n + 1) st1) as (st' & Hrest & Hs'); [done|done|lia|].
  exists st'. split; [by destruct o; cbn [run_rounds]; rewrite Hrun|].
  by replace (n + Z.of_nat (S (length l))) with (n + 1 + Z.of_nat (length l)) by lia.
Qed.

Lemma Reset_summed n p st :
  1 ≤ n → n + 1 < 2 ^ 64 → px_next st !! tokenID = Some (n + 1) → px_rounds st !! (tokenID, n) = Some p →
  price_of n p → ∃ st', ResetAccumulatedPrice tokenID st = (Ok tt, st') ∧ summed n n st'.
Proof.
  intros Hpos Hmax Hn Hp Hpo. unfold ResetAccumulatedPrice.
  rewrite (bind_run _ _ _ _ _ (GetPriceTRLatest_run st n p Hn Hpos Hp Hpo)). cbn [fst snd].
  pose proof Hpo as [Hr Hv Hd]. rewrite Hr. assert ((n =? 0) = false) as -> by lia. cbn [negb orb].
  eexists. split; [done|]. split; cbn; [lia|done|by exists p|lia|]. eexists. split; [apply lookup_insert_eq|].
  split; cbn; [done|done| |lia|].
  - replace (n - 1 + 1) with n by lia. by rewrite total_empty.
  - intros i Hi. f_equal. lia.
Qed.

Lemma acc_until_run start n st acc :
  summed start n st → px_acc st !! tokenID = Some acc →
  ∃ acc', acc_until tokenID n acc st = (Ok (Some acc'), st) ∧ ac_StartRoundID acc' = start ∧
    ac_Decimal acc' = d ∧ SetString (ac_Price acc') = Some (total h start n).
Proof.
  intros [Hb _ _ Hprev (acc0 & Hacc0 & Hok)] Hacc. assert (acc0 = acc) as -> by congruence.
  destruct Hok as [Hstart Hd Hsum Hlast Hconst]. unfold acc_until. destruct (ac_LastRoundID acc + 1 <? n) eqn:Hlt.
  - apply Z.ltb_lt in Hlt. destruct Hprev as (p & Hp & Hpo); [lia|].
    rewrite (bind_run _ _ _ _ _ (eq_refl : GetPriceTRRoundID _ _ st = _)), Hp.
    destruct (AccumulatePriceTR_run acc p (n - 1) (total h start (ac_LastRoundID acc + 1)) st)
      as (acc' & Hrun & Hs' & Hd' & Hl' & Hv'); [done|done|done|lia|].
    exists acc'. split; [done|]. split; [congruence|]. split; [done|]. rewrite Hv'. f_equal.
    rewrite (total_const h start (ac_LastRoundID acc + 1) n (h (n - 1))); [lia|lia|].
    intros i Hi. rewrite (Hconst i), (Hconst (n - 1)) by lia. done.
  - apply Z.ltb_ge in Hlt. exists acc. repeat split; [done|done|]. rewrite Hsum. do 2 f_equal. lia.
Qed.

(** C11.  The average of an epoch: after a reset at the round [n], rounds that have a price
    or repeat the latest one, and at least one of them, [CalculateTWAP] stores the mean,
    rounded down, of the prices from the round [n] itself to the round before the latest one,
    as if each round had been added on its own.  The prices have one number of decimals, the
    store keeps at least two of them, and the number of the epoch is positive. *)
Theorem CalculateTWAP_mean n p l epochNumber st :
  1 ≤ n → n + len l + 1 < 2 ^ 64 → px_next st !! tokenID = Some (n + 1) →
  px_rounds st !! (tokenID, n) = Some p → price_of n p → follows (n + 1) l → l ≠ [] → 0 < epochNumber →
  ∃ st1 st2 st3 twap, ResetAccumulatedPrice tokenID st = (Ok tt, st1) ∧
    run_rounds (n + 1) l st1 = (Ok tt, st2) ∧ CalculateTWAP tokenID epochNumber st2 = (Ok twap, st3) ∧
    px_twap st3 !! tokenID = Some twap ∧
    pe_Price twap = Int_String (total h n (n + len l) / len l) ∧ pe_Decimal twap = d ∧
    pe_RoundId twap = n + len l.
Proof.
  intros Hpos Hmax Hn Hp Hpo Hf Hne He. assert (Hlen : 0 < len l) by (unfold len; destruct l; [done|cbn; lia]).
  destruct (Reset_summed n p st) as (st1 & Hreset & Hs1); [done|lia|done..|].
  destruct (run_rounds_summed n n l st1) as (st2 & Hrun & Hs2); [done..|].
  pose proof Hs2 as [Hb Hn2 (q & Hq & Hqo) _ (acc & Hacc & _)].
  destruct (acc_until_run _ _ _ _ Hs2 Hacc) as (acc' & Huntil & Hstart & Hd & Hsum).
  exists st1, st2. unfold CalculateTWAP.
  rewrite (bind_run _ _ _ _ _ (GetPriceTRLatest_run st2 (n + len l) q Hn2 ltac:(lia) Hq Hqo)). cbn [fst snd negb].
  rewrite (bind_run _ _ _ _ _ (eq_refl : GetAccumulatedPrice _ st2 = _)), Hacc, (po_round _ _ Hqo).
  assert ((n + len l <=? 1) = false) as -> by lia.
  rewrite (bind_run _ _ _ _ _ (eq_refl : GetTWAP _ st2 = _)).
  assert ((epochNumber =? 0) = false) as -> by lia. rewrite andb_false_r.
  rewrite (bind_run _ _ _ _ _ Huntil), Hsum, Hstart, wrap_uint64_id by lia.
  replace (n + len l - n) with (len l) by lia. assert ((len l =? 0) = false) as -> by lia.
  eexists _, _. split; [done|]. split; [done|]. split; [done|]. cbn. by rewrite lookup_insert_eq.
Qed.
End Token.
