(* ===== verification/OracleNonce.v ===== *)
(** * Nonces of the quotes (keeper/nonce.go)

    For each validator the feeders whose window is open, with the number of quotes that
    the validator sent.  The lists are in the order in which the windows opened. *)

From S2P Require Import Prelude OracleAlgo.

Record Nonce := { nn_FeederID : Z; nn_Value : Z }.

(** The list of a validator. *)
Abbreviation NonceStore := (gmap string (list Nonce)).
Abbreviation NM := (M NonceStore oracle_error).

Definition getNonce (validator : string) : NM (option (list Nonce)) := gets (λ s, s !! validator).
Definition setNonce (validator : string) (l : list Nonce) : NM unit := modify (<[validator := l]>).
Definition removeNonceWithValidator (validator : string) : NM unit := modify (delete validator).

(** The first entry of the feeder is found; it has to be the one before [nonce]. *)
Fixpoint increase (feederID nonce : Z) (l : list Nonce) : result oracle_error (list Nonce) :=
  match l with
  | [] => Err ErrFeederNotFound
  | v :: l =>
      if nn_FeederID v =? feederID then
        if (nn_Value v + 1) mod 2 ^ 32 =? nonce
        then Ok ({| nn_FeederID := nn_FeederID v; nn_Value := nonce |} :: l)
        else Err ErrNonConsecutiveNonce
      else match increase feederID nonce l with Ok l => Ok (v :: l) | Err e => Err e | Panic => Panic end
  end.

Definition CheckAndIncreaseNonce (maxNonce : Z) (validator : string) (feederID nonce : Z) : NM unit :=
  if maxNonce mod 2 ^ 32 <? nonce then fail ErrMaxNonceExceeded
  else
    n ← getNonce validator;
    match n with
    | None => fail ErrValidatorNotActive
    | Some l => l ← lift_result (increase feederID nonce l); setNonce validator l
    end.

(** The feeders that the validator does not have yet are appended. *)
Fixpoint add_zero (feederIDs : list Z) (l : list Nonce) : list Nonce :=
  match feederIDs with
  | [] => l
  | feederID :: feederIDs =>
      add_zero feederIDs
        (if bool_decide (feederID ∈ (nn_FeederID <$> l)) then l
         else l ++ [{| nn_FeederID := feederID; nn_Value := 0 |}])
  end.

Definition zero_nonces (feederIDs : list Z) : list Nonce :=
  (λ feederID, {| nn_FeederID := feederID; nn_Value := 0 |}) <$> feederIDs.

Definition AddZeroNonceItemWithFeederIDsForValidators (feederIDs : list Z) (validators : list string) : NM unit :=
  for_each validators (λ validator,
    n ← getNonce validator;
    match n with
    | Some l => setNonce validator (add_zero feederIDs l)
    | None => setNonce validator (zero_nonces feederIDs)
    end).

(** The loop counts [i] and [l] down together, so that each of the [l] steps looks at the
    first entry.  An index out of range panics. *)
Fixpoint remove_loop (fIDs : gset Z) (l : nat) (nonces : list Nonce) : option (list Nonce) :=
  match l with
  | O => Some nonces
  | S l =>
      match nonces with
      | [] => None
      | n :: rest => remove_loop fIDs l (if decide (nn_FeederID n ∈ fIDs) then rest else n :: rest)
      end
  end.

Definition removeNonceWithFeederIDsForValidators (feederIDs : list Z) (validators : list string) : NM unit :=
  for_each validators (λ validator,
    n ← getNonce validator;
    match n with
    | None => mret tt
    | Some l =>
        match remove_loop (list_to_set feederIDs) (length l) l with
        | None => panic
        | Some [] => removeNonceWithValidator validator
        | Some l => setNonce validator l
        end
    end).

(** All validators, in the order of the store. *)
Definition RemoveNonceWithFeederIDsForAll (feederIDs : list Z) : NM unit :=
  validators ← gets (λ s : NonceStore, merge_sort String.le (elements (dom s)));
  removeNonceWithFeederIDsForValidators feederIDs validators.

(** ** What is removed *)

(** The entries before the first one that stays. *)
Fixpoint drop_removed (fIDs : gset Z) (nonces : list Nonce) : list Nonce :=
  match nonces with
  | [] => []
  | n :: rest => if decide (nn_FeederID n ∈ fIDs) then drop_removed fIDs rest else n :: rest
  end.

Lemma remove_loop_stuck fIDs l n rest :
  (nn_FeederID n ∉ fIDs) → remove_loop fIDs l (n :: rest) = Some (n :: rest).
Proof. intros Hn. induction l as [|l IH]; [done|]. cbn. by rewrite decide_False by done. Qed.

Lemma remove_loop_spec fIDs nonces :
  remove_loop fIDs (length nonces) nonces = Some (drop_removed fIDs nonces).
Proof.
  induction nonces as [|n rest IH]; [done|]. cbn. case_decide as Hn; [done|]. by apply remove_loop_stuck.
Qed.

(** ** A nonce is used once *)

(** The number of quotes for the feeder. *)
Definition value_of (feederID : Z) (l : list Nonce) : option Z :=
  nn_Value <$> head (filter (λ n, nn_FeederID n = feederID) l).

Lemma increase_spec feederID nonce l :
  match increase feederID nonce l with
  | Ok l' => ∃ v, value_of feederID l = Some v ∧ (v + 1) mod 2 ^ 32 = nonce ∧
      value_of feederID l' = Some nonce ∧ ∀ f, f ≠ feederID → value_of f l' = value_of f l
  | Err ErrFeederNotFound => value_of feederID l = None
  | Err ErrNonConsecutiveNonce => ∃ v, value_of feederID l = Some v ∧ (v + 1) mod 2 ^ 32 ≠ nonce
  | _ => False
  end.
Proof.
  induction l as [|n l IH]; [done|]. cbn [increase]. unfold value_of in *.
  destruct (nn_FeederID n =? feederID) eqn:Hn.
  - apply Z.eqb_eq in Hn. rewrite filter_cons_True by done.
    destruct ((nn_Value n + 1) mod 2 ^ 32 =? nonce) eqn:Hv.
    + apply Z.eqb_eq in Hv. exists (nn_Value n). split; [done|]. split; [done|].
      rewrite filter_cons_True by done. split; [done|]. intros f Hf.
      by rewrite !filter_cons_False by (cbn; congruence).
    + apply Z.eqb_neq in Hv. by exists (nn_Value n).
  - apply Z.eqb_neq in Hn. rewrite filter_cons_False by done.
    destruct (increase feederID nonce l) as [l'|e|]; [|by destruct e|done].
    destruct IH as (v & Hv & Hnext & Hl' & Hother). exists v. split; [done|]. split; [done|].
    rewrite filter_cons_False by done. split; [done|]. intros f Hf.
    destruct (decide (nn_FeederID n = f)) as [<-|]; [by rewrite !filter_cons_True|].
    rewrite !filter_cons_False by done. by apply Hother.
Qed.
