(* ===== verification/OracleReports.v ===== *)
(** * Reports of the validators (keeper/slashing.go, feedermanagement/feedermanager.go)

    For each validator the rounds of a sliding window that it missed, as a bit array and
    the number of its set bits.  A validator that misses too many rounds is jailed, one
    that is malicious is slashed and jailed.  What x/dogfood and x/slashing do is the
    class [OracleStaking]. *)

From S2P Require Import Prelude OracleAlgo OracleAggregator OracleParams.

Record ValidatorReportInfo := {
  ri_Address : string; ri_StartHeight : Z; ri_IndexOffset : Z; ri_MissedRoundsCounter : Z }.

Record ReportStore := {
  rp_infos : gmap string ValidatorReportInfo;
  rp_bits : gmap (string * Z) bool;
}.

Class OracleStaking (T : Type) := {
  ConsAddressFromBech32 : string → option string;
  (** [ValidatorByConsAddr], with [IsJailed] *)
  validator_jailed : string → T → option bool;
  SlashWithInfractionReason : string → Z → Z → Z → M T oracle_error unit;
  oracle_Jail : string → M T oracle_error unit;
  JailUntil : string → Z → M T oracle_error unit;
  (** of a decimal *)
  RoundInt64 : Z → Z;
}.

Definition set_infos (f : gmap string ValidatorReportInfo → gmap string ValidatorReportInfo) (s : ReportStore) : ReportStore :=
  {| rp_infos := f (rp_infos s); rp_bits := rp_bits s |}.
Definition set_bits (f : gmap (string * Z) bool → gmap (string * Z) bool) (s : ReportStore) : ReportStore :=
  {| rp_infos := rp_infos s; rp_bits := f (rp_bits s) |}.

(** ** The store *)

Definition InitValidatorReportInfo (validator : string) (height : Z) (s : ReportStore) : ReportStore :=
  match rp_infos s !! validator with
  | Some _ => s
  | None => set_infos (<[validator := {| ri_Address := validator; ri_StartHeight := height; ri_IndexOffset := 0;
                                         ri_MissedRoundsCounter := 0 |}]>) s
  end.

Definition ClearAllValidatorReportInfo (s : ReportStore) : ReportStore := set_infos (λ _, ∅) s.
Definition ClearAllValidatorMissedRoundBitArray (s : ReportStore) : ReportStore := set_bits (λ _, ∅) s.
Definition SetValidatorReportInfo (validator : string) (info : ValidatorReportInfo) (s : ReportStore) : ReportStore :=
  set_infos (<[validator := info]>) s.
Definition SetValidatorMissedRoundBitArray (validator : string) (index : Z) (missed : bool) (s : ReportStore) : ReportStore :=
  set_bits (<[(validator, index) := missed]>) s.
Definition GetValidatorMissedRoundBitArray (validator : string) (index : Z) (s : ReportStore) : bool :=
  default false (rp_bits s !! (validator, index)).
(** The delimiter after the validator is not a character of an address. *)
Definition ClearValidatorMissedRoundBitArray (validator : string) (s : ReportStore) : ReportStore :=
  set_bits (filter (λ e, e.1.1 ≠ validator)) s.

(** ** Punishments *)

Section Punish.
Context {T} `{OracleStaking T} (slashing : SlashingParams) (height time : Z).

Definition GetMinReportedPerWindow : Z :=
  RoundInt64 (sl_MinReportedPerWindow slashing * sl_ReportedRoundsWindow slashing).

Definition reset_info (info : ValidatorReportInfo) : ValidatorReportInfo := {|
  ri_Address := ri_Address info; ri_StartHeight := ri_StartHeight info; ri_IndexOffset := 0;
  ri_MissedRoundsCounter := 0 |}.

Abbreviation RM := (M (ReportStore * T) oracle_error).
Definition reports (f : ReportStore → ReportStore) : RM unit := modify (λ s, (f s.1, s.2)).
Definition staking (m : M T oracle_error unit) : RM unit := zoom snd (λ t s, (s.1, t)) m.

(** An address that cannot be read is only logged. *)
Definition handleMalicious (c : caches) (validator : string) : RM unit :=
  let consAddr := default EmptyString (ConsAddressFromBech32 validator) in
  operator ← gets (λ s, validator_jailed consAddr s.2);
  match operator with
  | Some false =>
      found ← gets (λ s, rp_infos s.1 !! validator);
      match found with
      | None => mret tt
      | Some info =>
          match GetPowerForValidator c validator with
          | None => panic
          | Some power =>
              _ ← staking (SlashWithInfractionReason consAddr height (wrap_int64 power) (sl_SlashFractionMalicious slashing));
              _ ← staking (oracle_Jail consAddr);
              _ ← staking (JailUntil consAddr (time + sl_OracleMaliciousJailDuration slashing));
              _ ← reports (ClearValidatorMissedRoundBitArray validator);
              reports (SetValidatorReportInfo validator (reset_info info))
          end
      end
  | _ => mret tt
  end.

(** The bit of the round and the counter.  The counter is kept as an integer: it counts
    bits of distinct indices below the window, which fits in 64 bits. *)
Definition record_miss (validator : string) (miss : bool) (info : ValidatorReportInfo) (s : ReportStore)
    : ValidatorReportInfo * ReportStore :=
  let index := wrap_uint64 (Z.rem (ri_IndexOffset info) (sl_ReportedRoundsWindow slashing)) in
  let previous := GetValidatorMissedRoundBitArray validator index s in
  let counted counter := {| ri_Address := ri_Address info; ri_StartHeight := ri_StartHeight info;
    ri_IndexOffset := wrap_int64 (ri_IndexOffset info + 1); ri_MissedRoundsCounter := counter |} in
  match previous, miss with
  | false, true => (counted (ri_MissedRoundsCounter info + 1), SetValidatorMissedRoundBitArray validator index true s)
  | true, false => (counted (ri_MissedRoundsCounter info - 1), SetValidatorMissedRoundBitArray validator index false s)
  | _, _ => (counted (ri_MissedRoundsCounter info), s)
  end.

(** A window of zero would panic in the remainder. *)
Definition handleMissCount (validator : string) (miss : bool) : RM unit :=
  found ← gets (λ s, rp_infos s.1 !! validator);
  match found with
  | None => mret tt
  | Some info =>
      _ ← (if sl_ReportedRoundsWindow slashing =? 0 then panic else mret tt);
      r ← gets (λ s, record_miss validator miss info s.1);
      let info := r.1 in
      _ ← reports (λ _, r.2);
      let minHeight := wrap_int64 (ri_StartHeight info + sl_ReportedRoundsWindow slashing) in
      let maxMissed := sl_ReportedRoundsWindow slashing - GetMinReportedPerWindow in
      if (minHeight <? height) && (maxMissed <? ri_MissedRoundsCounter info) then
        match ConsAddressFromBech32 validator with
        | None => mret tt
        | Some consAddr =>
            operator ← gets (λ s, validator_jailed consAddr s.2);
            match operator with
            | Some false =>
                _ ← staking (oracle_Jail consAddr);
                _ ← staking (JailUntil consAddr (time + sl_OracleMissJailDuration slashing));
                _ ← reports (ClearValidatorMissedRoundBitArray validator);
                reports (SetValidatorReportInfo validator (reset_info info))
            | _ => reports (SetValidatorReportInfo validator info)
            end
        end
      else reports (SetValidatorReportInfo validator info)
  end.
End Punish.

(** ** The counter is the number of missed rounds *)

Definition missed_bits (s : ReportStore) (v : string) : Z :=
  map_sum (λ k (b : bool), if bool_decide (k.1 = v) && b then 1 else 0) (rp_bits s).

Definition counter (s : ReportStore) (v : string) : Z := default 0 (ri_MissedRoundsCounter <$> rp_infos s !! v).

Definition reports_ok (s : ReportStore) : Prop := ∀ v, counter s v = missed_bits s v.

Lemma missed_bits_set s v index b w :
  missed_bits (SetValidatorMissedRoundBitArray v index b s) w =
  missed_bits s w + (if decide (w = v) then (if b then 1 else 0) -
    (if GetValidatorMissedRoundBitArray v index s then 1 else 0) else 0).
Proof.
  unfold missed_bits, SetValidatorMissedRoundBitArray, GetValidatorMissedRoundBitArray. cbn. rewrite map_sum_insert.
  unfold at_key. destruct (decide (w = v)) as [->|Hne].
  - rewrite bool_decide_true by done. cbn. destruct (rp_bits s !! (v, index)) as [[]|], b; cbn;
      rewrite ?bool_decide_true by done; cbn; lia.
  - rewrite bool_decide_false by done. cbn. destruct (rp_bits s !! (v, index)) as [[]|]; cbn;
      rewrite ?bool_decide_false by done; cbn; lia.
Qed.

Lemma missed_bits_clear s v w :
  missed_bits (ClearValidatorMissedRoundBitArray v s) w = if decide (w = v) then 0 else missed_bits s w.
Proof.
  unfold missed_bits, ClearValidatorMissedRoundBitArray. cbn. case_decide as Hw.
  - subst. apply map_sum_zero. intros k b [_ Hk]%map_lookup_filter_Some. by rewrite bool_decide_false.
  - induction (rp_bits s) as [|k b m Hk IH] using map_ind; [by rewrite map_filter_empty|].
    rewrite map_sum_fresh by done. destruct (decide (k.1 = v)) as [Hkv|Hkv].
    + rewrite map_filter_insert_False by (cbn; tauto). rewrite map_filter_delete, delete_id, IH by
        (apply map_lookup_filter_None; by left). rewrite (bool_decide_false (k.1 = w)) by congruence. done.
    + rewrite map_filter_insert_True by done. rewrite map_sum_fresh, IH by (apply map_lookup_filter_None; by left). done.
Qed.

Section Counter.
Context {T} `{OracleStaking T} (slashing : SlashingParams) (height time : Z).

(** The report of the validator is written with the number of its bits. *)
Lemma reports_ok_set s v info :
  (∀ w, w ≠ v → counter s w = missed_bits s w) → ri_MissedRoundsCounter info = missed_bits s v →
  reports_ok (SetValidatorReportInfo v info s).
Proof.
  intros Hother Hv w. unfold counter. change (missed_bits (SetValidatorReportInfo v info s) w) with (missed_bits s w).
  cbn. destruct (decide (w = v)) as [->|Hne]; [by rewrite lookup_insert_eq|].
  rewrite lookup_insert_ne by done. by apply Hother.
Qed.

Lemma reports_ok_reset s v info :
  (∀ w, w ≠ v → counter s w = missed_bits s w) →
  reports_ok (SetValidatorReportInfo v (reset_info info) (ClearValidatorMissedRoundBitArray v s)).
Proof.
  intros Hother. apply reports_ok_set; [|by rewrite missed_bits_clear, decide_True].
  intros w Hw. rewrite missed_bits_clear, decide_False by done. by apply Hother.
Qed.

Lemma record_miss_spec v miss info s :
  reports_ok s → rp_infos s !! v = Some info →
  let r := record_miss slashing v miss info s in
  rp_infos r.2 = rp_infos s ∧ ri_MissedRoundsCounter r.1 = missed_bits r.2 v ∧
  ∀ w, w ≠ v → missed_bits r.2 w = missed_bits s w.
Proof.
  intros Hok Hinfo. assert (Hc : ri_MissedRoundsCounter info = missed_bits s v).
  { rewrite <-(Hok v). unfold counter. by rewrite Hinfo. }
  unfold record_miss. set (index := wrap_uint64 _).
  destruct (GetValidatorMissedRoundBitArray v index s) eqn:Hprev, miss; cbn [fst snd ri_MissedRoundsCounter]; try done.
  all: split; [done|]; split;
    [rewrite missed_bits_set, decide_True, Hprev by done; lia
    |intros w Hw; rewrite missed_bits_set, decide_False by done; lia].
Qed.

Lemma handleMissCount_ok v miss s t u s' t' :
  reports_ok s → is_Some (ConsAddressFromBech32 v) →
  handleMissCount slashing height time v miss (s, t) = (Ok u, (s', t')) → reports_ok s'.
Proof.
  intros Hok [consAddr Hcons]. unfold handleMissCount, reports, staking. intros Hrun. go_inv. cbn [fst] in *.
  destruct (rp_infos s !! v) as [info|] eqn:Hinfo; go_inv; simplify_eq; [|done].
  pose proof (record_miss_spec v miss info s Hok Hinfo) as (Hinfos & Hc & Hother). cbn zeta in *.
  rewrite Hcons in *. assert (Hw : ∀ w, w ≠ v → counter (record_miss slashing v miss info s).2 w =
    missed_bits (record_miss slashing v miss info s).2 w).
  { intros w Hw. rewrite Hother by done. rewrite <-(Hok w). unfold counter. by rewrite Hinfos. }
  repeat (case_match; go_inv; simplify_eq); cbn [fst snd] in *; simplify_eq;
    first [by apply reports_ok_set|by apply reports_ok_reset].
Qed.

Lemma handleMalicious_ok c v s t u s' t' :
  reports_ok s → handleMalicious slashing height time c v (s, t) = (Ok u, (s', t')) → reports_ok s'.
Proof.
  intros Hok. unfold handleMalicious, reports, staking. intros Hrun. go_inv. cbn [fst snd] in *.
  repeat (case_match; go_inv; simplify_eq; cbn [fst snd] in * ); try done.
  apply reports_ok_reset. intros w _. apply Hok.
Qed.

(** Every way in which the reports change. *)
Inductive report_step : ReportStore * T → ReportStore * T → Prop :=
| rs_init v s t : report_step (s, t) (InitValidatorReportInfo v height s, t)
| rs_clear s t :
    report_step (s, t) (ClearAllValidatorMissedRoundBitArray (ClearAllValidatorReportInfo s), t)
| rs_miss v miss s t s' t' :
    is_Some (ConsAddressFromBech32 v) →
    handleMissCount slashing height time v miss (s, t) = (Ok tt, (s', t')) → report_step (s, t) (s', t')
| rs_malicious c v s t s' t' :
    handleMalicious slashing height time c v (s, t) = (Ok tt, (s', t')) → report_step (s, t) (s', t').

Lemma report_step_ok x y : report_step x y → reports_ok x.1 → reports_ok y.1.
Proof.
  destruct 1 as [v s t|s t|v miss s t s' t' Hv Hrun|c v s t s' t' Hrun]; cbn; intros Hok.
  - intros w. unfold InitValidatorReportInfo. destruct (rp_infos s !! v) as [info|] eqn:Hv; [apply Hok|].
    etrans; [|exact (Hok w)]. unfold counter. cbn.
    destruct (decide (w = v)) as [->|]; [by rewrite lookup_insert_eq, Hv|by rewrite lookup_insert_ne].
  - done.
  - by eapply handleMissCount_ok.
  - by eapply handleMalicious_ok.
Qed.
End Counter.

(** The reports of a chain, with the parameters, the height and the time of each step. *)
Definition reports_run {T} `{OracleStaking T} : relation (ReportStore * T) :=
  rtc (λ x y, ∃ slashing height time, report_step slashing height time x y).

(** C17.  Whatever was reported and however the parameters changed, the counter of missed
    rounds, which decides on jailing, is the number of set bits of the validator. *)
Theorem missed_counter {T} `{OracleStaking T} (t0 : T) s t v info :
  reports_run ({| rp_infos := ∅; rp_bits := ∅ |}, t0) (s, t) → rp_infos s !! v = Some info →
  ri_MissedRoundsCounter info = map_sum (λ k (b : bool), if bool_decide (k.1 = v) && b then 1 else 0) (rp_bits s).
Proof.
  intros Hrun Hinfo. assert (Hok : reports_ok (s, t).1).
  { eapply (rtc_ind_r (λ x : ReportStore * T, reports_ok x.1)); [| |exact Hrun]; [done|].
    intros x y _ (slashing & height & time & Hstep) Hx. by eapply report_step_ok. }
  etrans; [|exact (Hok v)]. unfold counter. cbn. by rewrite Hinfo.
Qed.
