(* ===== verification/OracleFeeders.v ===== *)
(** * The feeder manager (keeper/feedermanagement/feedermanager.go)

    The end of a block: the caches are updated, rounds that have a price or whose window
    ended are committed, the quotes of their validators are reviewed, rounds are added
    and removed, and windows open with new nonces.  Rounds of one phase are modelled;
    the second phase, the snapshot for [CheckTx] and recovery are not, nor is what the
    caches store for recovery. *)

From S2P Require Import Prelude OracleAlgo OracleAggregator OracleParams OracleRound OraclePrices OracleNonce.
From S2P Require Import OracleReports.

Record FeederManager := {
  f_rounds : gmap Z round;
  f_sortedFeederIDs : list Z;
  f_cs : caches;
  f_paramsUpdated : bool;
  f_validatorsUpdated : bool;
  f_forceSeal : bool;
  f_resetSlashing : bool;
}.

(** The stores of the keeper, and the results of the aggregators. *)
Record Keeper (T : Type) := {
  k_mem : Mem;
  k_params : Params;
  k_prices : PriceStore;
  k_nonces : NonceStore;
  k_reports : ReportStore;
  k_staking : T;
}.
Arguments k_mem {_} _.
Arguments k_params {_} _.
Arguments k_prices {_} _.
Arguments k_nonces {_} _.
Arguments k_reports {_} _.
Arguments k_staking {_} _.

Definition set_f_rounds (f : gmap Z round → gmap Z round) (m : FeederManager) : FeederManager := {|
  f_rounds := f (f_rounds m); f_sortedFeederIDs := f_sortedFeederIDs m; f_cs := f_cs m;
  f_paramsUpdated := f_paramsUpdated m; f_validatorsUpdated := f_validatorsUpdated m;
  f_forceSeal := f_forceSeal m; f_resetSlashing := f_resetSlashing m |}.
Definition set_sorted (f : list Z → list Z) (m : FeederManager) : FeederManager := {|
  f_rounds := f_rounds m; f_sortedFeederIDs := f (f_sortedFeederIDs m); f_cs := f_cs m;
  f_paramsUpdated := f_paramsUpdated m; f_validatorsUpdated := f_validatorsUpdated m;
  f_forceSeal := f_forceSeal m; f_resetSlashing := f_resetSlashing m |}.
Definition set_caches (cs : caches) (m : FeederManager) : FeederManager := {|
  f_rounds := f_rounds m; f_sortedFeederIDs := f_sortedFeederIDs m; f_cs := cs;
  f_paramsUpdated := f_paramsUpdated m; f_validatorsUpdated := f_validatorsUpdated m;
  f_forceSeal := f_forceSeal m; f_resetSlashing := f_resetSlashing m |}.
Definition set_flags (params validators seal slashing : bool) (m : FeederManager) : FeederManager := {|
  f_rounds := f_rounds m; f_sortedFeederIDs := f_sortedFeederIDs m; f_cs := f_cs m;
  f_paramsUpdated := params; f_validatorsUpdated := validators; f_forceSeal := seal; f_resetSlashing := slashing |}.

Definition ResetFlags : FeederManager → FeederManager := set_flags false false false false.

Section Feeders.
Context {T} `{OracleStaking T}.
Context (range : gmap string priceValidator → list (string * priceValidator)).
(** The block, with its time also as it is printed. *)
Context (height time : Z) (timestamp : string).

Abbreviation FM := (M (FeederManager * Keeper T) oracle_error).

Definition fm (f : FeederManager → FeederManager) : FM unit := modify (λ s, (f s.1, s.2)).
Definition get_round (feederID : Z) : FM (option round) := gets (λ s, f_rounds s.1 !! feederID).
Definition put_round (feederID : Z) (r : round) : FM unit := fm (set_f_rounds (<[feederID := r]>)).

Definition in_mem {A} (m : M Mem oracle_error A) : FM A :=
  zoom (λ s, k_mem s.2) (λ mem s, (s.1, {| k_mem := mem; k_params := k_params s.2; k_prices := k_prices s.2;
    k_nonces := k_nonces s.2; k_reports := k_reports s.2; k_staking := k_staking s.2 |})) m.
Definition in_prices {A} (m : M PriceStore oracle_error A) : FM A :=
  zoom (λ s, k_prices s.2) (λ prices s, (s.1, {| k_mem := k_mem s.2; k_params := k_params s.2; k_prices := prices;
    k_nonces := k_nonces s.2; k_reports := k_reports s.2; k_staking := k_staking s.2 |})) m.
Definition in_nonces {A} (m : M NonceStore oracle_error A) : FM A :=
  zoom (λ s, k_nonces s.2) (λ nonces s, (s.1, {| k_mem := k_mem s.2; k_params := k_params s.2; k_prices := k_prices s.2;
    k_nonces := nonces; k_reports := k_reports s.2; k_staking := k_staking s.2 |})) m.
Definition in_reports {A} (m : M (ReportStore * T) oracle_error A) : FM A :=
  zoom (λ s, (k_reports s.2, k_staking s.2)) (λ r s, (s.1, {| k_mem := k_mem s.2; k_params := k_params s.2;
    k_prices := k_prices s.2; k_nonces := k_nonces s.2; k_reports := r.1; k_staking := r.2 |})) m.

(** ** Caches *)

(** The decimals are structures with a pointer, which differs between the cached parameters
    and those that were read from the store: a comparison with [!=] is true.  The cached
    parameters were validated and have those of slashing. *)
Definition IsSlashingResetUpdate (p params : Params) : bool :=
  match pa_Slashing params with Some _ => true | None => false end.

Definition set_cache_params (params : Params) (c : caches) : caches :=
  {| cs_validators := cs_validators c; cs_params := params; cs_paramsUpdate := true |}.
Definition set_cache_validators (cv : cacheValidator) (c : caches) : caches :=
  {| cs_validators := cv; cs_params := cs_params c; cs_paramsUpdate := cs_paramsUpdate c |}.
Definition commit_caches (c : caches) : caches := {|
  cs_validators := {| cv_validators := cv_validators (cs_validators c); cv_update := false;
                      cv_totalPower := cv_totalPower (cs_validators c) |};
  cs_params := cs_params c; cs_paramsUpdate := false |}.

(** The validators with their new powers; those that are active are returned. *)
Definition updateAndCommitCaches (validatorUpdates : list (string * Z)) : FM (list string) :=
  _ ← modify (λ s : FeederManager * Keeper T, let (f, k) := s in
        if f_paramsUpdated f then
          let old := cs_params (f_cs f) in
          (set_caches (set_cache_params (k_params k) (f_cs f))
            (set_flags true (f_validatorsUpdated f) (f_forceSeal f || IsForceSealingUpdate old (k_params k))
               (f_resetSlashing f || IsSlashingResetUpdate old (k_params k)) f), k)
        else s);
  _ ← (if bool_decide (validatorUpdates = []) then mret tt
       else fm (λ f, set_caches (set_cache_validators (cv_add (list_to_map (reverse validatorUpdates))
                (cs_validators (f_cs f))) (f_cs f))
              (set_flags (f_paramsUpdated f) true true (f_resetSlashing f) f)));
  _ ← fm (λ f, set_caches (commit_caches (f_cs f)) f);
  mret (fst <$> filter (λ vu, 0 < vu.2) validatorUpdates).

Definition init_reports (at_height : Z) (validators : list string) : FM unit :=
  in_reports (for_each validators (λ v, modify (λ s : ReportStore * T, (InitValidatorReportInfo v at_height s.1, s.2)))).

Definition updateBehaviorRecordsForNextBlock (addedValidators : list string) : FM unit :=
  f ← gets fst;
  if f_resetSlashing f then
    _ ← in_reports (modify (λ s : ReportStore * T, (ClearAllValidatorMissedRoundBitArray (ClearAllValidatorReportInfo s.1), s.2)));
    init_reports (height + 1) (GetValidators (f_cs f))
  else if f_validatorsUpdated f then init_reports (height + 1) addedValidators
  else mret tt.

(** ** Rounds *)

Definition setCommittableState : FM unit :=
  fm (λ f, set_f_rounds (fmap (λ r,
    if IsQuoting r && (f_forceSeal f || IsQuotingWindowEnd height r)
    then set_window roundStatusCommittable (r_a r) r else r)) f).

Definition max_size : FM Z := gets (λ s, pa_MaxSizePrices (cs_params (f_cs s.1))).

(** The price of a round that is committable; a round without one has the latest price. *)
Definition commit_price (r : round) : FM unit :=
  let tokenID := wrap_uint64 (r_tokenID r) in
  let roundID := wrap_uint64 (r_roundID r) in
  maxSize ← max_size;
  final ← in_mem (FinalPrice range r);
  _ ← put_round (r_feederID r) final.2;
  match final.1 with
  | None => _ ← in_prices (GrowRoundID maxSize tokenID roundID (negb (r_twoPhases r))); mret tt
  | Some l =>
      p ← in_mem (load l);
      updated ← in_prices (AppendPriceTR maxSize tokenID
        {| pt_Price := p_Price p; pt_Decimal := p_Decimal p; pt_Timestamp := timestamp; pt_RoundID := roundID |}
        (negb (r_twoPhases r)));
      if (updated : bool) then mret tt
      else _ ← in_prices (GrowRoundID maxSize tokenID roundID (negb (r_twoPhases r))); mret tt
  end.

(** The identifier is compared with the number of rounds. *)
Definition processRound (feederID : Z) : FM unit :=
  f ← gets fst;
  if (feederID =? 0) || (Z.of_nat (size (f_rounds f)) <? feederID) then mret tt
  else
    r ← get_round feederID;
    match r with
    | None => panic
    | Some r =>
        _ ← (if Committable r then
               let r := set_window roundStatusClosed (r_a r) r in
               _ ← put_round feederID r;
               if IsRuleV1 (cs_params (f_cs f)) (r_feederID r) then commit_price r else mret tt
             else mret tt);
        if f_forceSeal f then
          r ← get_round feederID;
          match r with None => panic | Some r => put_round feederID (closeQuotingWindow r) end
        else mret tt
    end.

Definition commitRounds : FM unit :=
  ids ← gets (λ s, f_sortedFeederIDs s.1);
  for_each ids processRound.

(** ** Review *)

Definition review_validator (slashing : SlashingParams) (feederID : Z) (validator : string) : FM unit :=
  r ← get_round feederID;
  match r with
  | None => panic
  | Some r =>
      c ← gets (λ s, f_cs s.1);
      v ← in_mem (PerformanceReview range c validator r);
      _ ← put_round feederID v.2;
      if (v.1.2 : bool) then in_reports (handleMalicious slashing height time c validator)
      else in_reports (handleMissCount slashing height time validator v.1.1)
  end.

Definition review_round (slashing : SlashingParams) (feederID : Z) : FM unit :=
  r ← get_round feederID;
  match r with
  | None => panic
  | Some r =>
      if IsQuotingWindowEnd height r then
        final ← in_mem (FinalPrice range r);
        _ ← put_round feederID final.2;
        validators ← gets (λ s, GetValidators (f_cs s.1));
        _ ← match final.1 with
            | None => mret tt
            | Some _ => for_each validators (review_validator slashing feederID)
            end;
        put_round feederID (closeQuotingWindow r)
      else mret tt
  end.

Definition handleQuotingMisBehavior : FM unit :=
  params ← gets (λ s, k_params s.2);
  match pa_Slashing params with
  | None => panic
  | Some slashing =>
      ids ← gets (λ s, f_sortedFeederIDs s.1);
      for_each ids (review_round slashing)
  end.

(** ** Feeders *)

(** The feeders with their identifiers, without the reserved one. *)
Definition indexed_feeders (params : Params) : list (Z * TokenFeeder) :=
  tail (imap (λ i tf, (Z.of_nat i, tf)) (pa_TokenFeeders params)).

Definition updateRoundsParamsAndAddNewRounds : FM unit :=
  f ← gets fst;
  let params := cs_params (f_cs f) in
  if negb (f_paramsUpdated f) then mret tt
  else if bool_decide (map_Forall (λ _ r, is_Some (at_id (pa_TokenFeeders params) (r_feederID r))) (f_rounds f)) then
    let updated := (λ r, match at_id (pa_TokenFeeders params) (r_feederID r) with
                         | Some tf => round_UpdateParams tf (pa_MaxNonce params) r
                         | None => r
                         end) <$> f_rounds f in
    let added := filter (λ e, f_rounds f !! e.1 = None ∧ (tf_EndBlock e.2 = 0 ∨ height < tf_EndBlock e.2))
                   (indexed_feeders params) in
    _ ← fm (set_f_rounds (λ _, list_to_map ((λ e, (e.1, newRound e.1 e.2 (pa_MaxNonce params)
          (IsRule2PhasesByFeederID params e.1))) <$> added) ∪ updated));
    fm (set_sorted (λ ids, merge_sort Z.le (ids ++ added.*1)))
  else panic.

Definition expired (r : round) : Prop := 0 < r_endBlock r ≤ height.
#[global] Instance expired_dec r : Decision (expired r).
Proof. unfold expired. apply _. Defined.

(** The rounds that ended are dropped; the nonces are removed of those that were not closed. *)
Definition removeExpiredRounds : FM unit :=
  f ← gets fst;
  let ended := filter (λ e, expired e.2) (f_rounds f) in
  _ ← fm (set_f_rounds (filter (λ e, ¬ expired e.2)));
  _ ← fm (set_sorted (filter (λ id, ended !! id = None)));
  let ids := elements (dom (filter (λ e, r_status e.2 ≠ roundStatusClosed) ended)) in
  if bool_decide (ids = []) then mret tt
  else in_nonces (removeNonceWithFeederIDsForValidators (wrap_uint64 <$> ids) (GetValidators (f_cs f))).

Definition updateAndCommitRounds : FM unit :=
  _ ← setCommittableState;
  _ ← commitRounds;
  _ ← handleQuotingMisBehavior;
  _ ← updateRoundsParamsAndAddNewRounds;
  removeExpiredRounds.

(** The feeders whose window opens. *)
Definition prepareRounds : FM (list Z) :=
  f ← gets fst;
  let prepared := PrepareForNextBlock (f_cs f) height <$> f_rounds f in
  _ ← fm (set_f_rounds (λ _, snd <$> prepared));
  mret (elements (dom (filter (λ e, e.2.1 = true) prepared))).

Definition setupNonces (feederIDs : list Z) : FM unit :=
  f ← gets fst;
  let closing := elements (dom (filter (λ e, IsQuotingWindowEnd height e.2 || f_forceSeal f = true) (f_rounds f))) in
  _ ← (if bool_decide (closing = []) then mret tt
       else if f_forceSeal f then in_nonces (RemoveNonceWithFeederIDsForAll (wrap_uint64 <$> closing))
       else in_nonces (removeNonceWithFeederIDsForValidators (wrap_uint64 <$> closing) (GetValidators (f_cs f))));
  if bool_decide (feederIDs = []) then mret tt
  else in_nonces (AddZeroNonceItemWithFeederIDsForValidators (wrap_uint64 <$> merge_sort Z.le feederIDs)
         (GetValidators (f_cs f))).

Definition EndBlock (validatorUpdates : list (string * Z)) : FM unit :=
  addedValidators ← updateAndCommitCaches validatorUpdates;
  _ ← updateBehaviorRecordsForNextBlock addedValidators;
  _ ← updateAndCommitRounds;
  feederIDs ← prepareRounds;
  _ ← setupNonces feederIDs;
  fm ResetFlags.

(** ** Quotes *)

(** A source of a quote in one phase, for a token with [decimal] decimals. *)
Definition valid_source (c : caches) (decimal : Z) (ps : PriceSource) : M Mem oracle_error bool :=
  deterministic ← IsDeterministic c (wrap_int64 (src_SourceID ps));
  mret (if (deterministic : bool) then
          (len (src_Prices ps) <=? pa_MaxNonce (cs_params c)) &&
          forallb (λ p, negb (bool_decide (p_DetID p = EmptyString)) && (p_Decimal p =? decimal)) (src_Prices ps)
        else match src_Prices ps with
             | [p] => (p_Decimal p =? decimal) && bool_decide (p_DetID p = EmptyString)
             | _ => false
             end).

Fixpoint valid_sources (c : caches) (decimal : Z) (pSs : list PriceSource) : M Mem oracle_error unit :=
  match pSs with
  | [] => mret tt
  | ps :: pSs =>
      ok ← valid_source c decimal ps;
      if (ok : bool) then valid_sources c decimal pSs else fail ErrInvalidMsg
  end.

(** A quote of a feeder in one phase; the creator is given by its consensus address. *)
Definition validateMsg (msg : ProtoMsgItem) (basedBlock : Z) : FM round :=
  c ← gets (λ s, f_cs s.1);
  decimal ← lift_result (GetDecimalFromFeederID c (pm_FeederID msg));
  _ ← in_mem (valid_sources c decimal (pm_PSources msg));
  if IsRule2PhasesByFeederID (cs_params c) (pm_FeederID msg) then fail ErrInvalidMsg
  else
    r ← get_round (wrap_int64 (pm_FeederID msg));
    match r with
    | None => fail ErrInvalidMsg
    | Some r =>
        if negb (ValidQuotingBaseBlock (wrap_int64 basedBlock) true r) || r_twoPhases r then fail ErrInvalidMsg
        else mret r
    end.

Definition ProcessQuote (msg : ProtoMsgItem) (basedBlock : Z) : FM tally :=
  r ← validateMsg msg basedBlock;
  c ← gets (λ s, f_cs s.1);
  x ← in_mem (Tally range c msg r);
  _ ← put_round (wrap_int64 (pm_FeederID msg)) x.2;
  mret x.1.

(** The nonce is checked before. *)
Definition CreatePrice (msg : ProtoMsgItem) (basedBlock nonce : Z) : FM tally :=
  c ← gets (λ s, f_cs s.1);
  _ ← in_nonces (CheckAndIncreaseNonce (pa_MaxNonce (cs_params c)) (pm_Validator msg) (pm_FeederID msg) nonce);
  ProcessQuote msg basedBlock.

(** The first block. *)
Definition BeginBlock_init (validatorSet : gmap string Z) : FM unit :=
  k ← gets snd;
  _ ← fm (λ f, set_caches (Init (k_params k) validatorSet)
        (set_flags true true (f_forceSeal f) (f_resetSlashing f) f));
  cs ← gets (λ s, f_cs s.1);
  init_reports height (GetValidators cs).
End Feeders.
