(* ===== verification/OracleLimits.v ===== *)
(** * What the oracle does not prevent

    A source that is not part of the rule of a feeder blocks its price, the last feeder
    is not committed once another one has ended, and an entry of a feeder that ended
    keeps the nonces of the others from being reset. *)

From S2P Require Import Prelude OracleAlgo OracleAggregator OracleV1 OracleParams OracleRound OracleWindow.
From S2P Require Import OraclePrices OracleNonce OracleReports OracleFeeders.

(** ** Sources that are not in the rule *)

Lemma add_prices_blocked prices m ok m' :
  None ∈ prices → add_prices prices m = (Ok ok, m') → ok = false.
Proof.
  revert m. induction prices as [|[l|] prices IH]; intros m Hin Hrun; [by apply elem_of_nil in Hin| |].
  - apply elem_of_cons in Hin as [?|Hin]; [done|]. cbn [add_prices] in Hrun. go_inv. case_match; [eauto|].
    go_inv. by simplify_eq.
  - cbn [add_prices] in Hrun. go_inv. by simplify_eq.
Qed.

Lemma source_prices_blocked pv sourceID ps :
  pv_priceSources pv !! sourceID = Some ps → ps_finalPrice ps = None → None ∈ source_prices pv.
Proof.
  intros Hps Hf. unfold source_prices. apply list_elem_of_fmap. exists sourceID. rewrite Hps. split; [done|].
  rewrite merge_sort_Permutation. apply elem_of_elements. by apply elem_of_dom_2 in Hps.
Qed.

Lemma pv_GetFinalPrice_blocked pv sourceID ps m o pv' m' :
  pv_finalPrice pv = None → pv_priceSources pv !! sourceID = Some ps → ps_finalPrice ps = None →
  pv_GetFinalPrice pv m = (Ok (o, pv'), m') → o = None.
Proof.
  intros Hf Hps Hn Hrun. pose proof (source_prices_blocked pv sourceID ps Hps Hn) as Hin.
  unfold pv_GetFinalPrice in Hrun. rewrite Hf in Hrun. case_bool_decide; go_inv; [by simplify_eq|].
  match goal with H : add_prices _ _ = _ |- _ => apply add_prices_blocked in H as -> end; [|done].
  go_inv. by simplify_eq.
Qed.

Lemma validator_prices_blocked entries v pv sourceID ps prices records m o records' m' :
  (v, pv) ∈ entries → pv_finalPrice pv = None → pv_priceSources pv !! sourceID = Some ps → ps_finalPrice ps = None →
  validator_prices entries prices records m = (Ok (o, records'), m') → o = None.
Proof.
  intros Hin Hf Hps Hn. revert prices records m. induction entries as [|[w pw] entries IH]; intros prices records m Hrun.
  { by apply elem_of_nil in Hin. }
  cbn [validator_prices] in Hrun. go_inv. apply elem_of_cons in Hin as [[= <- <-]|Hin].
  - match goal with H : pv_GetFinalPrice _ _ = (Ok ?r, _) |- _ => destruct r as [o1 pv1];
      eapply pv_GetFinalPrice_blocked in H as -> end; [|done..]. cbn in *. go_inv. by simplify_eq.
  - case_match; go_inv; [by eapply IH|by simplify_eq].
Qed.

(** C40.  One quote is enough to block the price of a round: while a validator has quoted
    any registered source that has no price of its own, whether or not the rule of the
    feeder asks for that source, the round has no price, whatever the others quoted. *)
Theorem extra_source_blocks range a m v pv sourceID ps o a' m' :
  permutes range → ag_finalPrice a = None → rv_finalPrice (ag_v a) = None → rv_finalPrices (ag_v a) = ∅ →
  rv_records (ag_v a) !! v = Some pv → pv_finalPrice pv = None →
  pv_priceSources pv !! sourceID = Some ps → ps_finalPrice ps = None →
  GetFinalPrice range a m = (Ok (o, a'), m') → o = None.
Proof.
  intros Hperm Ha Hf Hfs Hv Hpv Hps Hn.
  assert (Hin : (v, pv) ∈ range (rv_records (ag_v a))) by (rewrite (Hperm _); by apply elem_of_map_to_list).
  unfold GetFinalPrice. rewrite Ha. case_match; intros Hrun; go_inv; simplify_eq; [done|].
  match goal with H : rv_GetFinalPrice _ _ _ = (Ok ?r, _) |- _ => destruct r as [o rv']; rename H into Hrv end. cbn.
  unfold rv_GetFinalPrice in Hrv. rewrite Hf in Hrv. go_inv. unfold GetFinalPriceForValidators in *.
  rewrite Hfs, bool_decide_true in * by done. cbn [negb] in *. go_inv.
  match goal with H : validator_prices _ _ _ _ = (Ok ?r, _) |- _ => destruct r as [o1 records1];
    apply (validator_prices_blocked _ v pv sourceID ps) in H as -> end; [|exact Hin|done..].
  cbn in *. go_inv. by simplify_eq.
Qed.

(** ** The last feeder *)

Lemma size_in_range {A} (m : gmap Z A) (n i : Z) :
  (∀ id, is_Some (m !! id) → 1 ≤ id ≤ n) → m !! i = None → 1 ≤ i ≤ n → Z.of_nat (size m) < n.
Proof.
  intros Hall Hi Hin. assert (Hsub : dom m ⊆ list_to_set (seqZ 1 n) ∖ {[i]}).
  { intros id Hid%elem_of_dom. specialize (Hall id Hid).
    apply elem_of_difference. rewrite elem_of_list_to_set, elem_of_seqZ, elem_of_singleton.
    split; [lia|]. intros ->. rewrite Hi in Hid. by destruct Hid. }
  apply subseteq_size in Hsub. rewrite size_dom in Hsub.
  rewrite size_difference in Hsub by (apply singleton_subseteq_l, elem_of_list_to_set, elem_of_seqZ; lia).
  rewrite size_singleton, size_list_to_set, length_seqZ in Hsub by apply NoDup_seqZ. lia.
Qed.

(** C38.  Once a feeder has ended and is removed, the feeder with the largest identifier is
    skipped when rounds are committed, because the identifier is compared with the
    number of rounds: its prices are never stored, and its round is left as it is. *)
Theorem last_feeder_skipped {T} `{OracleStaking T} range timestamp (f : FeederManager) (k : Keeper T) ended n :
  (∀ id, is_Some (f_rounds f !! id) → 1 ≤ id ≤ n) → 1 ≤ ended ≤ n → f_rounds f !! ended = None →
  processRound range timestamp n (f, k) = (Ok tt, (f, k)).
Proof.
  intros Hall Hin Hended. pose proof (size_in_range _ _ _ Hall Hended Hin) as Hsize. unfold processRound.
  rewrite (bind_run _ _ _ _ _ (eq_refl : gets fst (f, k) = _)). cbn [fst].
  rewrite (proj2 (Z.ltb_lt _ _) Hsize), orb_true_r. done.
Qed.

(** ** Stale nonces *)

Lemma remove_keeps feederIDs validators s v n0 rest :
  s !! v = Some (n0 :: rest) → (nn_FeederID n0 ∉ feederIDs) →
  ∃ s', removeNonceWithFeederIDsForValidators feederIDs validators s = (Ok tt, s') ∧ s' !! v = Some (n0 :: rest).
Proof.
  intros Hv Hno. revert s Hv. unfold removeNonceWithFeederIDsForValidators.
  induction validators as [|w validators IH]; intros s Hv; [by exists s|]. cbn [for_each].
  set (step := (n ← getNonce w; _)). assert (Hstep : ∃ s1, step s = (Ok tt, s1) ∧ s1 !! v = Some (n0 :: rest)).
  { unfold step. rewrite (bind_run _ _ _ _ _ (eq_refl : getNonce w s = _)). destruct (s !! w) as [l|] eqn:Hw; [|by exists s].
    rewrite remove_loop_spec. destruct (decide (v = w)) as [<-|Hne].
    - rewrite Hv in Hw. injection Hw as <-. cbn [drop_removed]. rewrite decide_False by (by rewrite elem_of_list_to_set).
      eexists. split; [done|]. apply lookup_insert_eq.
    - destruct (drop_removed _ l) as [|n l'].
      + exists (delete w s). split; [done|by rewrite lookup_delete_ne].
      + exists (<[w := n :: l']> s). split; [done|by rewrite lookup_insert_ne]. }
  destruct Hstep as (s1 & Hrun & Hs1). rewrite (bind_run _ _ _ _ _ Hrun). by apply IH.
Qed.

Lemma add_zero_app feederIDs l : ∃ extra, add_zero feederIDs l = l ++ extra.
Proof.
  revert l. induction feederIDs as [|f feederIDs IH]; intros l; cbn; [exists []; by rewrite app_nil_r|].
  case_bool_decide; [apply IH|]. destruct (IH (l ++ [{| nn_FeederID := f; nn_Value := 0 |}])) as [extra ->].
  eexists. by rewrite <-app_assoc.
Qed.

Lemma add_keeps feederIDs validators s v l :
  s !! v = Some l →
  ∃ s' extra, AddZeroNonceItemWithFeederIDsForValidators feederIDs validators s = (Ok tt, s') ∧ s' !! v = Some (l ++ extra).
Proof.
  revert s l. unfold AddZeroNonceItemWithFeederIDsForValidators.
  induction validators as [|w validators IH]; intros s l Hv; [exists s, []; by rewrite app_nil_r|]. cbn [for_each].
  set (step := (n ← getNonce w; _)). assert (Hstep : ∃ s1 e1, step s = (Ok tt, s1) ∧ s1 !! v = Some (l ++ e1)).
  { unfold step. rewrite (bind_run _ _ _ _ _ (eq_refl : getNonce w s = _)). destruct (decide (v = w)) as [<-|Hne].
    - rewrite Hv. destruct (add_zero_app feederIDs l) as [extra ->]. eexists _, extra. split; [done|]. apply lookup_insert_eq.
    - destruct (s !! w); eexists _, []; (split; [done|]); by rewrite lookup_insert_ne, app_nil_r. }
  destruct Hstep as (s1 & e1 & Hrun & Hs1). rewrite (bind_run _ _ _ _ _ Hrun).
  destruct (IH s1 _ Hs1) as (s' & e2 & Hrest & Hs'). exists s', (e1 ++ e2). by rewrite app_assoc.
Qed.

Lemma value_of_app feederID l extra value :
  value_of feederID l = Some value → value_of feederID (l ++ extra) = Some value.
Proof. unfold value_of. rewrite filter_app. by destruct (filter _ l). Qed.

Lemma in_nonces_run {T A} (m : M NonceStore oracle_error A) f (k : Keeper T) a n :
  m (k_nonces k) = (Ok a, n) → ∃ k', in_nonces m (f, k) = (Ok a, (f, k')) ∧ k_nonces k' = n.
Proof. intros Hrun. unfold in_nonces, zoom. cbn. rewrite Hrun. by eexists. Qed.

(** The nonces of the validator only grow at the end of the list. *)
Lemma setupNonces_keeps {T} height feederIDs f (k : Keeper T) v n0 rest :
  k_nonces k !! v = Some (n0 :: rest) →
  (∀ id, is_Some (f_rounds f !! id) → wrap_uint64 id ≠ nn_FeederID n0) →
  ∃ k' extra, setupNonces height feederIDs (f, k) = (Ok tt, (f, k')) ∧ k_nonces k' !! v = Some ((n0 :: rest) ++ extra).
Proof.
  intros Hv Hstale. unfold setupNonces. rewrite (bind_run _ _ _ _ _ (eq_refl : gets fst (f, k) = _)). cbn [fst].
  set (closing := elements _).
  assert (Hno : nn_FeederID n0 ∉ (wrap_uint64 <$> closing)).
  { intros (id & Heq & Hid)%list_elem_of_fmap. apply elem_of_elements, elem_of_dom in Hid as [r Hr].
    apply map_lookup_filter_Some in Hr as [Hr _]. by apply (Hstale id); [eexists|]. }
  assert (Hremove : ∃ k1, (if bool_decide (closing = []) then mret tt
      else if f_forceSeal f then in_nonces (RemoveNonceWithFeederIDsForAll (wrap_uint64 <$> closing))
      else in_nonces (removeNonceWithFeederIDsForValidators (wrap_uint64 <$> closing) (GetValidators (f_cs f)))) (f, k) =
      (Ok tt, (f, k1)) ∧ k_nonces k1 !! v = Some (n0 :: rest)).
  { case_bool_decide; [by exists k|].
    destruct (remove_keeps (wrap_uint64 <$> closing) (if f_forceSeal f then merge_sort String.le (elements (dom (k_nonces k)))
      else GetValidators (f_cs f)) (k_nonces k) v n0 rest Hv Hno) as (s' & Hrun & Hs').
    case_match.
    - destruct (in_nonces_run (RemoveNonceWithFeederIDsForAll (wrap_uint64 <$> closing)) f k tt s' Hrun) as (k' & Hk & Hn).
      exists k'. by rewrite Hn.
    - destruct (in_nonces_run _ f k tt s' Hrun) as (k' & Hk & Hn). exists k'. by rewrite Hn. }
  destruct Hremove as (k1 & Hrun & Hk1). rewrite (bind_run _ _ _ _ _ Hrun). clear Hrun.
  case_bool_decide; [exists k1, []; rewrite app_nil_r; by split|].
  edestruct add_keeps as (s' & extra & Hadd & Hs'); [exact Hk1|].
  destruct (in_nonces_run _ f k1 tt s' Hadd) as (k' & Hk & Hn). exists k', extra. by rewrite Hn.
Qed.

(** C39.  An entry of a feeder that has no round any more, at the head of the list of a
    validator, keeps all entries behind it: when windows close and open again, by force or
    not, the nonces of the validator are not reset, and its first quote for the next
    round of any feeder that it has quoted is refused. *)
Theorem stale_nonce_blocks {T} height feederIDs f (k : Keeper T) v n0 rest feederID value maxNonce :
  k_nonces k !! v = Some (n0 :: rest) →
  (∀ id, is_Some (f_rounds f !! id) → wrap_uint64 id ≠ nn_FeederID n0) →
  value_of feederID (n0 :: rest) = Some value → 1 ≤ value < 2 ^ 32 - 1 → 1 ≤ maxNonce < 2 ^ 31 →
  ∃ k', setupNonces height feederIDs (f, k) = (Ok tt, (f, k')) ∧
    CheckAndIncreaseNonce maxNonce v feederID 1 (k_nonces k') = (Err ErrNonConsecutiveNonce, k_nonces k').
Proof.
  intros Hv Hstale Hvalue Hrange Hmax.
  destruct (setupNonces_keeps height feederIDs f k v n0 rest Hv Hstale) as (k' & extra & Hrun & Hk'). exists k'.
  split; [done|]. unfold CheckAndIncreaseNonce. rewrite (Z.mod_small maxNonce) by lia.
  assert ((maxNonce <? 1) = false) as -> by lia. rewrite (bind_run _ _ _ _ _ (eq_refl : getNonce v (k_nonces k') = _)), Hk'.
  pose proof (value_of_app feederID (n0 :: rest) extra value Hvalue) as Hval.
  pose proof (increase_spec feederID 1 ((n0 :: rest) ++ extra)) as Hspec. unfold mbind, M_bind, lift_result.
  destruct (increase feederID 1 _) as [l'|[]|]; try done; try congruence.
  destruct Hspec as (value' & Heq & Hone & _). assert (value' = value) as -> by congruence.
  rewrite Z.mod_small in Hone by lia. lia.
Qed.
