(* ===== verification/OracleSample.v ===== *)
(** * A run of the oracle

    Four validators and two feeders, the first of which ends with its first round.  The
    states are computed by the definitions; the witnesses of the theorems are here. *)

From S2P Require Import Prelude OracleAlgo OracleAggregator OracleV1 OracleParams OracleRound OracleWindow.
From S2P Require Import OraclePrices OracleNonce OracleReports OracleFeeders OracleLimits.

#[local] Open Scope string_scope.

#[global] Instance sample_staking : OracleStaking unit := {
  ConsAddressFromBech32 := Some;
  validator_jailed := λ _ _, Some false;
  SlashWithInfractionReason := λ _ _ _ _, mret tt;
  oracle_Jail := λ _, mret tt;
  JailUntil := λ _ _, mret tt;
  RoundInt64 := λ d, (d + 5 * 10 ^ 17) / 10 ^ 18;
}.

Definition sample_params : Params := {|
  pa_Chains := [{| ch_Name := "-"; ch_Desc := "-" |}; {| ch_Name := "Ethereum"; ch_Desc := "" |}];
  pa_Tokens :=
    [ {| tk_Name := ""; tk_ChainID := 0; tk_ContractAddress := ""; tk_Decimal := 0; tk_Active := false; tk_AssetID := "" |};
      {| tk_Name := "ETH"; tk_ChainID := 1; tk_ContractAddress := ""; tk_Decimal := 2; tk_Active := true; tk_AssetID := "" |};
      {| tk_Name := "BTC"; tk_ChainID := 1; tk_ContractAddress := ""; tk_Decimal := 2; tk_Active := true; tk_AssetID := "" |} ];
  pa_Sources :=
    [ {| sc_Name := "0 position is reserved"; sc_Valid := false; sc_Deterministic := false |};
      {| sc_Name := "Chainlink"; sc_Valid := true; sc_Deterministic := true |};
      {| sc_Name := "Other"; sc_Valid := true; sc_Deterministic := true |} ];
  pa_Rules :=
    [ {| ru_SourceIDs := []; ru_Nom := None |}; {| ru_SourceIDs := [0]; ru_Nom := None |};
      {| ru_SourceIDs := [1]; ru_Nom := None |} ];
  pa_TokenFeeders :=
    [ {| tf_TokenID := 0; tf_RuleID := 0; tf_StartRoundID := 0; tf_StartBaseBlock := 0; tf_Interval := 0; tf_EndBlock := 0 |};
      {| tf_TokenID := 1; tf_RuleID := 2; tf_StartRoundID := 1; tf_StartBaseBlock := 2; tf_Interval := 10; tf_EndBlock := 5 |};
      {| tf_TokenID := 2; tf_RuleID := 2; tf_StartRoundID := 1; tf_StartBaseBlock := 2; tf_Interval := 10; tf_EndBlock := 0 |} ];
  pa_MaxNonce := 3; pa_ThresholdA := 2; pa_ThresholdB := 3; pa_Mode := ConsensusModeASAP; pa_MaxDetId := 5;
  pa_MaxSizePrices := 100;
  pa_Slashing := Some {| sl_ReportedRoundsWindow := 100; sl_MinReportedPerWindow := 5 * 10 ^ 17;
    sl_OracleMissJailDuration := 600 * 10 ^ 9; sl_OracleMaliciousJailDuration := 2592000 * 10 ^ 9;
    sl_SlashFractionMalicious := 10 ^ 17 |};
  pa_PieceSizeByte := 48000; pa_EpochIdentifier := "day" |}.

Lemma sample_params_valid : Validate sample_params = true.
Proof. vm_compute. reflexivity. Qed.

Definition sample_validators : gmap string Z := list_to_map [("a", 1); ("b", 1); ("c", 1); ("d", 1)].
Definition sample_caches : caches := Eval vm_compute in Init sample_params sample_validators.

Definition sample_range : gmap string priceValidator → list (string * priceValidator) := map_to_list.

Lemma sample_permutes : permutes sample_range.
Proof. intros records. reflexivity. Qed.

Definition sample_quote (v price detID : string) : ProtoMsgItem := {|
  pm_FeederID := 2; pm_Validator := v; pm_PSources :=
    [{| src_SourceID := 1; src_Desc := "";
        src_Prices := [{| p_Price := price; p_Decimal := 2; p_Timestamp := "t"; p_DetID := detID |}] |}] |}.

(** ** A window *)

Definition sample_mem : Mem := {| m_heap := []; m_algo := NewAggMedian |}.
Definition sample_round : round :=
  newRound 2 {| tf_TokenID := 2; tf_RuleID := 2; tf_StartRoundID := 1; tf_StartBaseBlock := 2; tf_Interval := 10; tf_EndBlock := 0 |}
    3 false.

Definition tally_state (x : result oracle_error (tally * round) * Mem) : Mem * round :=
  match x with (Ok (_, r), m) => (m, r) | (_, m) => (m, sample_round) end.

Definition window0 : Mem * round := Eval vm_compute in (sample_mem, openQuotingWindow sample_caches sample_round).
Definition quote_by (v price detID : string) (s : Mem * round) : Mem * round :=
  tally_state (Tally sample_range sample_caches (sample_quote v price detID) s.2 s.1).
Definition window1 : Mem * round := Eval vm_compute in quote_by "a" "1500" "7" window0.
Definition window2 : Mem * round := Eval vm_compute in quote_by "b" "1500" "7" window1.
(** The quorum, and a validator with another price for the same detID *)
Definition window3 : Mem * round := Eval vm_compute in quote_by "c" "1500" "7" window2.
Definition window4 : Mem * round := Eval vm_compute in quote_by "d" "1600" "7" window3.

Lemma sample_cv_ok : cv_ok (cs_validators sample_caches).
Proof. exact (cv_add_ok sample_validators _ newCacheValidator_ok). Qed.

Lemma sample_chainlink : ∃ source, at_id (pa_Sources (cs_params sample_caches)) SourceChainlinkID = Some source ∧
  sc_Deterministic source = true.
Proof. eexists. split; reflexivity. Qed.

Lemma sample_quote_ok v price detID : price ≠ "" → quote_ok (sample_quote v price detID).
Proof. intros Hp. repeat constructor. exact Hp. Qed.

Lemma window0_ok : window sample_caches window0.1 window0.2.
Proof. exact (w_open sample_caches sample_mem sample_round eq_refl). Qed.

Lemma window_quote v price detID s x :
  window sample_caches s.1 s.2 → price ≠ "" →
  Tally sample_range sample_caches (sample_quote v price detID) s.2 s.1 = (Ok (x.1, x.2.2), x.2.1) →
  window sample_caches x.2.1 x.2.2.
Proof. intros Hw Hp Hrun. eapply w_quote; [exact Hw|exact sample_permutes|by apply sample_quote_ok|exact Hrun]. Qed.

Lemma window1_ok : window sample_caches window1.1 window1.2.
Proof. apply (window_quote "a" "1500" "7" window0 (Tallied None, window1)); [exact window0_ok|done|vm_compute; reflexivity]. Qed.
Lemma window2_ok : window sample_caches window2.1 window2.2.
Proof. apply (window_quote "b" "1500" "7" window1 (Tallied None, window2)); [exact window1_ok|done|vm_compute; reflexivity]. Qed.
Lemma window3_ok : window sample_caches window3.1 window3.2.
Proof.
  apply (window_quote "c" "1500" "7" window2 (Tallied (Some 4%nat), window3)); [exact window2_ok|done|vm_compute; reflexivity].
Qed.
Lemma window4_ok : window sample_caches window4.1 window4.2.
Proof. apply (window_quote "d" "1600" "7" window3 (QuoteRecorded, window4)); [exact window3_ok|done|vm_compute; reflexivity]. Qed.

(** ** Witnesses of the window *)

Definition agg_of (s : Mem * round) : aggregator := default (newAggregator (GetThreshold sample_caches)) (r_a s.2).

Abbreviation sample_quorum := (quorum (cache_power sample_caches) (GetThreshold sample_caches)).

(** The third of four validators makes the quorum. *)
Lemma Tally_price_witness :
  (∃ m', Tally sample_range sample_caches (sample_quote "c" "1500" "7") window2.2 window2.1 = (Err ErrNoSourceAdded, m')) ∨
  (∃ x r' a' m', Tally sample_range sample_caches (sample_quote "c" "1500" "7") window2.2 window2.1 = (Ok (Tallied x, r'), m') ∧
    r_a r' = Some a' ∧
    match x with
    | None => ∀ k, ¬ sample_quorum (λ v, quoted 1 (ag_v a') v k)
    | Some l => ∃ p price, m_heap m' !! l = Some p ∧ p_Price p = canonical price ∧
        sample_quorum (λ v, quoted 1 (ag_v a') v (price, p_DetID p, p_Decimal p))
    end).
Proof.
  apply (Tally_price sample_caches sample_cv_ok sample_params_valid sample_chainlink).
  - exact window2_ok.
  - reflexivity.
  - exact sample_permutes.
  - apply sample_quote_ok. discriminate.
  - eexists. reflexivity.
Defined.

Lemma sample_quoted a : quoted 1 (ag_v (agg_of window4)) a ("1500", "7", 2) ∨ a ∉ (["a"; "b"; "c"] : list string).
Proof.
  destruct (decide (a ∈ (["a"; "b"; "c"] : list string))) as [Ha|]; [left|by right].
  repeat (apply elem_of_cons in Ha as [->|Ha]; [eexists; split; [reflexivity|left]|]). by apply elem_of_nil in Ha.
Qed.

Lemma sample_has_quorum : sample_quorum (λ v, quoted 1 (ag_v (agg_of window4)) v ("1500", "7", 2)).
Proof.
  exists {["a"; "b"; "c"]}. split; [vm_compute; reflexivity|]. intros v Hv. destruct (sample_quoted v) as [|Hno]; [done|].
  exfalso. apply Hno. set_solver.
Qed.

Lemma quorum_price_unique_witness : ("1500", "7", 2) = ("1500", "7", 2).
Proof.
  exact (quorum_price_unique sample_caches sample_cv_ok sample_params_valid sample_chainlink
    window4.1 window4.2 (agg_of window4) ("1500", "7", 2) ("1500", "7", 2)
    window4_ok eq_refl ltac:(vm_compute; discriminate) sample_has_quorum sample_has_quorum eq_refl).
Defined.

(** The validator with the other price is malicious. *)
Lemma PerformanceReview_fair_witness :
  ∃ miss malicious m', PerformanceReview sample_range sample_caches "d" window4.2 window4.1 =
      (Ok (miss, malicious, window4.2), m') ∧
    match FinalPrice sample_range window4.2 window4.1 with
    | (Ok (Some l, _), _) => ∃ p, m_heap window4.1 !! l = Some p ∧
        (miss = true ↔ ¬ ∃ q, quoted 1 (ag_v (agg_of window4)) "d" q ∧ q.1.2 = p_DetID p) ∧
        (malicious = true ↔ ∃ q, quoted 1 (ag_v (agg_of window4)) "d" q ∧ q.1.2 = p_DetID p ∧ q ≠ ds_key p)
    | _ => miss = false ∧ malicious = false
    end.
Proof.
  apply (PerformanceReview_fair sample_caches sample_cv_ok sample_params_valid sample_chainlink).
  - exact window4_ok.
  - reflexivity.
  - exact sample_permutes.
Defined.

(** ** Blocks *)

Definition sample_start : FeederManager * Keeper unit :=
  ({| f_rounds := ∅; f_sortedFeederIDs := []; f_cs := sample_caches; f_paramsUpdated := false;
      f_validatorsUpdated := false; f_forceSeal := false; f_resetSlashing := false |},
   {| k_mem := sample_mem; k_params := sample_params;
      k_prices := {| px_rounds := ∅; px_next := ∅; px_acc := ∅; px_twap := ∅ |};
      k_nonces := ∅; k_reports := {| rp_infos := ∅; rp_bits := ∅ |}; k_staking := tt |}).

Definition end_block (height : Z) (s : FeederManager * Keeper unit) : FeederManager * Keeper unit :=
  (EndBlock sample_range height (height * 10 ^ 9) "t" [] s).2.
Definition quotes (validators : list string) (basedBlock nonce : Z) (s : FeederManager * Keeper unit) :
    FeederManager * Keeper unit :=
  foldl (λ s v, (CreatePrice sample_range (sample_quote v "1500" "7") basedBlock nonce s).2) s validators.

(** The windows of both feeders open after block 2; three validators quote the second one. *)
Definition block2 := Eval vm_compute in end_block 2 (end_block 1 (BeginBlock_init 1 sample_validators sample_start).2).
Definition block3 := Eval vm_compute in end_block 3 (quotes ["a"; "b"; "c"] 2 1 block2).
(** The first feeder ends. *)
Definition block5 := Eval vm_compute in end_block 5 (end_block 4 block3).
(** The next window of the second feeder opens after block 12. *)
Definition block11 := Eval vm_compute in foldl (λ s h, end_block h s) block5 [6; 7; 8; 9; 10; 11].
Definition block12 := Eval vm_compute in end_block 12 block11.

(** ** Witnesses of the limits *)

Definition block13 := Eval vm_compute in quotes ["a"; "b"; "c"] 12 2 block12.

Lemma block13_feeders (id : Z) : is_Some (f_rounds block13.1 !! id) → (1 ≤ id ≤ 2)%Z.
Proof.
  intros [r Hr]. assert (Hall : map_Forall (λ (id : Z) (_ : round), (1 ≤ id ≤ 2)%Z) (f_rounds block13.1)).
  { apply (bool_decide_eq_true_1 (map_Forall _ _)). vm_compute. reflexivity. }
  exact (Hall id r Hr).
Qed.

(** The round of the second feeder has its price, but it is not committed. *)
Lemma last_feeder_skipped_witness :
  r_status <$> f_rounds block13.1 !! 2 = Some roundStatusCommittable ∧
  processRound sample_range "t" 2 block13 = (Ok tt, block13).
Proof.
  split; [vm_compute; reflexivity|].
  exact (last_feeder_skipped sample_range "t" block13.1 block13.2 1 2 block13_feeders ltac:(lia) eq_refl).
Defined.

Lemma block11_feeders (id : Z) : is_Some (f_rounds block11.1 !! id) → wrap_uint64 id ≠ 1.
Proof.
  intros [r Hr]. assert (Hall : map_Forall (λ (id : Z) (_ : round), wrap_uint64 id ≠ 1) (f_rounds block11.1)).
  { apply (bool_decide_eq_true_1 (map_Forall _ _)). vm_compute. reflexivity. }
  exact (Hall id r Hr).
Qed.

(** The entry of the first feeder was left when it ended. *)
Lemma stale_nonce_blocks_witness :
  ∃ k', setupNonces 12 [2] block11 = (Ok tt, (block11.1, k')) ∧
    CheckAndIncreaseNonce 3 "a" 2 1 (k_nonces k') = (Err ErrNonConsecutiveNonce, k_nonces k').
Proof.
  exact (stale_nonce_blocks 12 [2] block11.1 block11.2 "a" {| nn_FeederID := 1; nn_Value := 0 |}
    [{| nn_FeederID := 2; nn_Value := 1 |}] 2 1 3 eq_refl block11_feeders eq_refl ltac:(lia) ltac:(lia)).
Defined.

(** One validator quotes the other source, and then the others agree on the price. *)
Definition blocked := Eval vm_compute in
  quote_by "c" "1500" "7" (quote_by "b" "1500" "7" (quote_by "a" "1500" "7"
    (tally_state (Tally sample_range sample_caches
      {| pm_FeederID := 2; pm_Validator := "d"; pm_PSources :=
           [{| src_SourceID := 2; src_Desc := "";
               src_Prices := [{| p_Price := "1"; p_Decimal := 2; p_Timestamp := "t"; p_DetID := "1" |}] |}] |}
      window0.2 window0.1)))).

Lemma blocked_quorum : sample_quorum (λ v, quoted 1 (ag_v (agg_of blocked)) v ("1500", "7", 2)).
Proof.
  exists {["a"; "b"; "c"]}. split; [vm_compute; reflexivity|]. intros v Hv.
  assert (Hin : v ∈ (["a"; "b"; "c"] : list string)) by set_solver.
  repeat (apply elem_of_cons in Hin as [->|Hin]; [eexists; split; [reflexivity|left]|]). by apply elem_of_nil in Hin.
Qed.

Lemma extra_source_blocks_witness :
  ∃ a' m', GetFinalPrice sample_range (agg_of blocked) blocked.1 = (Ok (None, a'), m').
Proof.
  assert (Hrun : ∃ o a' m', GetFinalPrice sample_range (agg_of blocked) blocked.1 = (Ok (o, a'), m')).
  { eexists _, _, _. vm_compute. reflexivity. }
  destruct Hrun as (o & a' & m' & Hrun). exists a', m'. rewrite Hrun. do 3 f_equal.
  refine (extra_source_blocks sample_range (agg_of blocked) blocked.1 "d" _ 2 _ o a' m' sample_permutes
    eq_refl eq_refl eq_refl _ _ _ _ Hrun); [vm_compute; reflexivity|reflexivity|vm_compute; reflexivity|reflexivity].
Defined.

(** ** Witnesses of the prices and the reports *)

Definition sample_price (roundID : Z) (price : string) : PriceTimeRound :=
  {| pt_Price := price; pt_Decimal := 2; pt_Timestamp := "t"; pt_RoundID := roundID |}.
Definition sample_prices : PriceStore := {|
  px_rounds := {[(2, 1) := sample_price 1 "100"]}; px_next := {[2 := 2]}; px_acc := ∅; px_twap := ∅ |}.
Definition sample_h (i : Z) : Z := if (i <=? 3)%Z then 100 else if (i =? 4)%Z then 200 else 50.

(** The rounds 1 to 4 have 100, 100, 100 and 200: the mean is 125. *)
Lemma CalculateTWAP_mean_witness :
  ∃ st1 st2 st3 twap, ResetAccumulatedPrice 2 sample_prices = (Ok tt, st1) ∧
    run_rounds 100 2 2 [Some (sample_price 2 "100"); None; Some (sample_price 4 "200"); Some (sample_price 5 "50")] st1 =
      (Ok tt, st2) ∧ CalculateTWAP 2 1 st2 = (Ok twap, st3) ∧ px_twap st3 !! 2 = Some twap ∧
    pe_Price twap = "125" ∧ pe_Decimal twap = 2 ∧ pe_RoundId twap = 5.
Proof.
  refine (CalculateTWAP_mean 100 2 2 sample_h ltac:(lia) 1 (sample_price 1 "100")
    [Some (sample_price 2 "100"); None; Some (sample_price 4 "200"); Some (sample_price 5 "50")] 1 sample_prices
    ltac:(lia) _ eq_refl eq_refl _ _ _ ltac:(lia)); [vm_compute; reflexivity|by split|by repeat split|discriminate].
Defined.

Definition slashing_sample : SlashingParams := {|
  sl_ReportedRoundsWindow := 100; sl_MinReportedPerWindow := 5 * 10 ^ 17; sl_OracleMissJailDuration := 1;
  sl_OracleMaliciousJailDuration := 1; sl_SlashFractionMalicious := 10 ^ 17 |}.
Definition empty_reports : ReportStore * unit := ({| rp_infos := ∅; rp_bits := ∅ |}, tt).
Definition report1 := Eval vm_compute in (InitValidatorReportInfo "d" 1 empty_reports.1, tt).
Definition report2 := Eval vm_compute in (handleMissCount slashing_sample 5 5 "d" true report1).2.

Lemma missed_counter_witness : ∃ info, rp_infos report2.1 !! "d" = Some info ∧ ri_MissedRoundsCounter info = 1.
Proof.
  eexists. split; [vm_compute; reflexivity|].
  refine (missed_counter tt report2.1 tt "d" _ _ _); [|vm_compute; reflexivity].
  eapply (rtc_l _ _ report1); [exists slashing_sample, 1, 1; apply (rs_init slashing_sample 1 1 "d")|].
  eapply rtc_once. exists slashing_sample, 5, 5.
  apply (rs_miss slashing_sample 5 5 "d" true report1.1 tt report2.1 tt); [by eexists|vm_compute; reflexivity].
Defined.
